(* ===== verification/_CoqProject ===== *)
-Q . S2P
Prelude.v
MqTypes.v
SendQueue.v
Storage.v
MqPallet.v
PalletMsg.v
FixedPoint.v
Instances.v
MqProtocol.v
SgxQuote.v
Attestation.v
AttestClaims.v
Registry.v
RegistryRuns.v
Phat.v
PhatClusters.v
PhatStakes.v
Anchor.v
AnchorQueue.v
Computation.v
CompLedger.v
CompRefine.v
CompClaims.v
CompRuns.v
Routing.v
PhatRuns.v
TaskScheduler.v
RequestScheduler.v
PoolExt.v
BasePool.v
WrappedBalances.v
StakePoolV2.v
VaultPool.v
PoolInstances.v
PoolNfts.v
PoolShares.v
PoolQueue.v
PoolProcess.v
PoolQueueClaims.v
PoolInv.v
PoolSteps.v
PoolStakeCalls.v
PoolForce.v
PoolSystem.v
PoolLedger.v
PoolFindings.v
PoolRuns.v
Dispatcher.v
DispatchOrder.v
KeyShare.v
WorkerSM.v
Tokenomic.v
Economics.v
Gatekeeper.v
SystemKeys.v
KeyRotation.v
Replay.v
GkRuns.v
LightClient.v
StorageSync.v
SyncFollow.v
Phactory.v
PhactoryClaims.v
PhactoryRuns.v
Pherry.v
PherryClaims.v
LocalAttest.v
NodeKeys.v
Handover.v
HandoverClaims.v
IdentityClaims.v
NodeRuns.v
LocalCache.v
CacheRefine.v
Checkpoint.v
CheckpointClaims.v
MemDb.v
MemDbClaims.v
PinkRuntime.v
PinkClaims.v
