(* ===== verification/Prelude.v ===== *)
(** * Phala blockchain: a verification library

    Phala is a confidential-computing chain: workers run a trusted runtime
    (pRuntime) off chain, talk to the chain through signed, sequenced messages,
    and are paid for computing with a stake at risk. This library models the
    core of the repository's Rust code and proves what makes it correct.

    ** The program and its model

    - Messages. crates/phala-mq defines origins, topics and signed messages
      ([MqTypes]) and the send queue a worker or gatekeeper signs its egress
      with ([SendQueue]). pallets/phala/src/mq.rs and mq/check_seq.rs accept them
      on chain ([MqPallet]); the pallets push their own messages through
      [PalletMsg]. [MqProtocol] composes the queue, a relayer that may reorder,
      repeat and drop, and the pallet into one transition system.
    - Registry. pallets/phala/src/registry.rs keeps workers, gatekeepers, the
      master key and its rotation, allow lists and versions ([Registry]): every
      call and message handler is one definition, [reg_op]/[reg_exec] are all of
      them as one type. Registrations carry remote attestations: the quotes and
      reports of crates/sgx-attestation ([SgxQuote]) and their validation in
      utils/attestation.rs and attestation_legacy.rs ([Attestation],
      [AttestClaims]).
    - Computation. pallets/phala/src/compute/computation.rs keeps the computing
      sessions ([Computation]): bind, start, stop, unbind, reclaim, heartbeats,
      settlements, budget, tokenomic formulas, heartbeat target.
      [CompLedger] is its abstract specification, a transition system on
      sessions, bindings, stakes and the online counter; [CompRefine] proves that
      every entry point ([comp_op]/[comp_exec]) refines it; [CompClaims] has the
      theorems. utils/balance_convert.rs is [FixedPoint].
    - Pools. pallets/phala/src/compute/base_pool.rs and pool_proxy.rs
      ([BasePool]), stake_pool_v2.rs ([StakePoolV2]), vault.rs ([VaultPool]) and
      wrapped_balances.rs ([WrappedBalances]) let users stake on workers: shares
      in NFTs, a price, a withdraw queue, rewards, votes. [PoolExt] has the
      pallets they call outside the repository. [PoolNfts], [PoolShares],
      [PoolQueue] and [PoolProcess] say what each operation does to the shares;
      [PoolInv] states the invariant of all pools, [PoolSteps], [PoolStakeCalls]
      and [PoolForce] prove it call by call and [PoolSystem] puts all calls into
      one step relation. [PoolQueueClaims] is on the loop of the withdraw queue.
      [PoolLedger] joins the pools to the computation pallet: the stake pool's
      callbacks are the instance of [CompHooks] the computation pallet was
      verified against. [PoolFindings] is on calls the pools should refuse.
    - Contracts on chain. pallets/phala/src/phat.rs registers clusters, contracts
      and their workers and phat_tokenomic.rs the stakes on contracts ([Phat],
      [PhatClusters], [PhatStakes]). pallets/offchain-rollup: the anchor with its
      queue in a key-value store and the oracle ([Anchor], [AnchorQueue]).
      [Routing] is the runtime's routing of messages to pallets
      (standalone/runtime, msg_routing.rs), composed with the queue.
    - Schedulers. crates/phala-scheduler: the SideVM task scheduler
      ([TaskScheduler]) and the fair queue in front of contract queries
      ([RequestScheduler]), on the ordered multimap [RbTree].
    - The off-chain runtime. It reads the messages of a block through the
      dispatcher of crates/phala-mq (dispatcher.rs, simple_mpsc.rs: [Dispatcher],
      [DispatchOrder]). crates/phactory/src/system: the worker state machine of
      mod.rs ([WorkerSM]); of gk.rs the tokenomic model ([Tokenomic]), the
      computing economics that replay every worker ([Economics], and [Replay] for
      the workers and their replicas side by side) and the gatekeeper
      ([Gatekeeper]); the handlers of gatekeeper and key messages of mod.rs and
      the sealed keys of master_key.rs ([SystemKeys], [KeyRotation]) on the key
      sharing of crates/phala-crypto ([KeyShare]).
    - Following the chain. crates/phactory/src/light_validation is the light
      client ([LightClient]), api/src/storage_sync.rs feeds headers and blocks to
      a copy of the chain's storage ([StorageSync], [SyncFollow], with what
      finality gives), and prpc_service.rs and lib.rs put both and the processing
      of a block together ([Phactory], [PhactoryClaims], which is also on
      justifications). The relayer that feeds it is standalone/pherry ([Pherry],
      and [PherryClaims] for the relayer, the runtime and its nodes together).
      The nodes of the storage are reference counted in crates/phala-trie-storage
      ([MemDb], [MemDbClaims]); checkpoints are files of lib.rs ([Checkpoint], on
      a disk that fails and crashes, and [CheckpointClaims]).
    - The identity of a worker. lib.rs and prpc_service.rs keep the identity key in
      a sealed file, generate or inject it, attest it and hand it over to a newer
      pRuntime ([NodeKeys], [Handover], where [node_history] are all calls of a
      process and its restarts), on the local attestation of
      crates/sgx-api-lite ([LocalAttest]). [HandoverClaims] and [IdentityClaims]
      have the theorems.
    - The runtime of contracts. crates/pink/runtime executes contract calls,
      charges their gas and chains event blocks, and the host runs queries on a copy
      of the cluster ([PinkRuntime], [PinkClaims]);
      contracts keep a local cache
      (crates/pink/chain-extension/src/local_cache.rs: [LocalCache],
      [CacheRefine]).

    [Storage] holds the shared payloads (crates/phala-types) and one record with
    the storage of all pallets; a [put_f] function per field writes it.
    [Instances], [PoolInstances] and the files named [..Runs] run the model on
    concrete chains and apply the theorems there.

    ** How the code is modelled

    A handler is a function of the state monad [M] of this file: it returns a
    value, returns a typed error with the storage as it was left at that point, or
    panics. [transactional] rolls back where the source says so; the errors of
    message handlers are not rolled back, as in the source. Integers are [Z] with
    the wrap-around of the release profile written out ([x +[64] y]);
    [debug_assert!] is not executed in that profile and not modelled. Code that is
    not in the repository is a class: SCALE codec ([MqCodec], [ChainCodec]),
    sr25519 ([Sr25519]), the parsers and signatures of attestations and the
    largest buffer that can be allocated ([SgxLib]), the currency and the
    runtime's constants ([RegConfig], [CompConfig], [PhatConfig] with
    [PhatBalances], where accounts below the existential deposit are reaped,
    [AnchorConfig] with [AnchorLaws], [RouteCodec]), the fixed-point crates
    ([FixedCrate], [FixedNum] with their documented behaviour [FixedDoc],
    [FixedNumDoc]), the rbtree crate ([RbTree]), the asset, NFT and democracy
    pallets ([PoolConfig], [WrapConfig] with [PoolLaws] and [PoolFrame]), key
    derivation and encryption ([Crypto] with [CryptoLaws], [SignLaws]), header
    hashes and GRANDPA signatures ([ChainLib], [AcyclicHash], and [Finality],
    [ParaChain] for what a finalized chain is), tries and what is read through
    them ([TrieLib], [NodeHasher], [HeaderCodec], [ChainStorageLib],
    [PlatformLib]), pallet-contracts and the host of the contract runtime
    ([PinkLib] with [PinkLaws] and [PinkEventLaws], [PinkHost]), the instructions
    of an SGX processor ([SgxCpu] with [SgxCpuLaws], and [LocalAttestation] for
    what a report proves), SCALE for the data of a handover ([Codec],
    [CodecLaws]), the machine of a pRuntime ([NodeLib]), the content of
    checkpoints ([CheckpointLib]; nothing is assumed of reading it back) and the
    decoders of the relayer ([RelayLib]; [FollowedChain] and [honest] say what its
    chain and its nodes are, [runs_on] that the system gets through its blocks).
    What clocks, random sources and services answer to a call is an argument
    ([CallEnv], [RelayEnv]). Classes also state what components ask of each other:
    [QueueNotifyConfig] and [PalletTopicsUnrouted] (the message queue and the
    runtime's routing), [CompHooks] and [CompFrame] (the computation pallet and
    the stake pool behind its callbacks, an instance of both in [StakePoolV2] and
    [PoolLedger]), [WorkerStateMachineCallback] (the worker state machine in a
    worker and in a gatekeeper), [OnResponse] (the anchor and the oracle),
    [BlockValidator] (storage synchronisation and the light client), [SystemOps]
    and [SystemIdentity] (the processing of a block and the system). [memdb_trie]
    makes the trie database an instance of [TrieLib].

    In the pRuntime [None] is a panic, and what is pushed to an egress is a list.

    Loops run over lists and histories are step relations with [rtc], except: the
    loop of the withdraw queue and the recursion of reward distribution take
    [loop_fuel] rounds (a field of [PoolConfig]) and panic when it runs out. The
    queue needs one round per queued share ([withdraw_queue_terminates], for every
    larger fuel; [withdraw_queue_diverges] is for every fuel); rewards reach
    vaults, which have no subscribers, so two levels are enough. [select_loop]
    needs one round more than messages are waiting ([select_in_order]). The walk
    through the ancestry of a justification takes as many steps as it has headers,
    which is enough when hashes have no cycles ([justification_check_decides]).
    [message_route] routes the messages a handler pushes one level deep, which is
    enough because what handlers push is never routed. The batches of the relayer
    are at most as many as blocks, and its loop has a round for each answer of the
    nodes it is given ([relayer_reaches_tip] says how many are enough).
    [dispatch_turns] takes a request off the backlog in each turn and has one turn
    more than the backlog is long.

    ** What the theorems show

    - Delivery: the chain accepts from each sender exactly a prefix of what it
      signed, in order, once, whatever the relayer does, and finds the next one
      it expects in the queue ([delivery_exactly_once], [delivery_progress]); the
      pallet's calls branch by branch, and their agreement with the transaction
      pool's view.
    - Registry: an invariant on every chain history, and the life cycle of the
      master key. An attestation is accepted exactly when it proves what it
      should ([attestation_decides]); where the validation panics, and the two
      byte orders of its measurements.
    - Contracts on chain: workers and clusters point at each other, stakes on
      contracts of at least the existential deposit are backed and can be withdrawn
      (smaller ones can be lost), the anchor implements a bounded
      queue, and a message reaches the one pallet its topic is bound to.
    - Computation: refinement of the ledger, its invariant on every history of
      registry and computation operations, the session life cycle, stakes that
      come back whole after the cool down, every cause of a panic, settlement,
      budget, benchmark and heartbeat-target arithmetic, balance conversion.
    - Pools: shares in NFTs never exceed the shares counted and queued
      withdrawals are backed, on every history of calls, claims of owner shares for
      the account of the pallet apart ([pools_invariant]);
      every call is a sequence of steps of the session ledger
      ([pools_refine_ledger]); the withdraw queue loop terminates at prices of at
      most half the minimum balance, and never does when the free stake is above
      the minimum but buys no share; vote overflow,
      locked W-PHA that is unwrapped, queues that lose their NFTs and pools
      frozen by dust.
    - Schedulers: invariants on every history of well-behaved clients, the
      dispatch order, and the deadlock when a client goes away while it waits (the
      mutex of the request scheduler is part of its state).
    - Off-chain runtime: messages are handled in the order they were dispatched;
      the computing economics of a gatekeeper that follows the chain never meets a
      poisoned state, because its replicas agree with the workers
      ([gatekeeper_replays_workers]); a rotated master key reaches every
      gatekeeper it was meant for ([rotation_reaches_gatekeepers]); a gatekeeper
      that syncs with the keys of two rotations cannot check old random numbers.
    - Following the chain: when the runtime may be attested, its storage is that
      of the finalized chain, whatever the relayer sent ([storage_follows_chain]);
      the relayer gets the runtime to the tip of that chain when nodes are honest
      and the system gets through the blocks ([relayer_reaches_tip]); the check of
      a justification decides its specification; dropped proofs lag a block
      behind; the trie database counts references ([memdb_counts]); taking a
      checkpoint of a new block is safe against crashes
      ([take_checkpoint_crash_safe]).
    - Identity: keys are handed over once per challenge, and what was checked before
      each ([handover_history_safe], [dcap_handover_transfers]), and only keys that
      were generated or registered are attested ([injected_keys_not_attested]);
      the endpoint of the first protocol gives the key of a DCAP worker away
      ([ias_endpoint_leaks_key]).
    - The runtime of contracts: callers pay for the gas they consume or are
      refused ([gas_paid_exactly]), queries tell coarse costs within bounds
      ([coarse_results_bounded]), event blocks form
      a chain ([events_chained]), and the local cache is a bounded map whose
      entries expire ([cache_refines_map]).

    ** Not modelled

    Of the off-chain runtime: dispatching on a copy of the state, endpoints,
    queries to SideVMs and the HTTP service of prpc_service.rs, and the contracts
    and clusters of system/mod.rs and contracts/pink.rs. Of the contract runtime:
    the chain extension and the storage backends. Of the relayer: registration and
    transactions; prb and headers-cache are services around RPC and databases.
    SideVM executes wasm with libraries outside the repository, and reports are
    created by the enclave and by web services. Weights, benchmarking, RPC,
    migrations, genesis builds, the assembly of the runtime, statistics (the
    feature gk-stat) and cryptography are out of scope. *)

From stdpp Require Export base gmap list strings sorting numbers option.
From stdpp Require Export relations.
From Stdlib Require Export ZArith Lia.
From Stdlib Require Ascii String.

#[global] Open Scope Z_scope.

(** ** Machine integers

    Rust integers are kept as [Z] and every operation that can leave the width
    writes its wrap-around out: the release profile (Cargo.toml,
    [profile.release]) has no [overflow-checks], so [+], [-] and [*] wrap. *)

Declare Scope machine_scope.
Delimit Scope machine_scope with mach.

Definition wrap (w z : Z) : Z := z mod 2 ^ w.
Definition in_width (w z : Z) : Prop := 0 <= z < 2 ^ w.

Abbreviation u8 := (in_width 8).
Abbreviation u32 := (in_width 32).
Abbreviation u64 := (in_width 64).
Abbreviation u128 := (in_width 128).

Notation "x +[ w ] y" := (wrap w (x + y)) (at level 50, left associativity) : machine_scope.
Notation "x -[ w ] y" := (wrap w (x - y)) (at level 50, left associativity) : machine_scope.
Notation "x *[ w ] y" := (wrap w (x * y)) (at level 40, left associativity) : machine_scope.
#[global] Open Scope machine_scope.

(** [checked_add] / [checked_sub] of the Rust integer types. *)
Definition checked_add (w x y : Z) : option Z :=
  if x + y <? 2 ^ w then Some (x + y) else None.
Definition checked_sub (x y : Z) : option Z :=
  if y <=? x then Some (x - y) else None.
Definition saturating_sub (x y : Z) : Z := Z.max 0 (x - y).

Lemma wrap_small w z : in_width w z -> wrap w z = z.
Proof. intros H. apply Z.mod_small. exact H. Qed.

Lemma wrap_range w z : 0 <= w -> in_width w (wrap w z).
Proof. intros H. apply Z.mod_pos_bound. by apply Z.pow_pos_nonneg. Qed.

Lemma wrap_add_small w x y : 0 <= x + y < 2 ^ w -> x +[w] y = x + y.
Proof. apply wrap_small. Qed.

Lemma wrap_sub_small w x y : 0 <= x - y < 2 ^ w -> x -[w] y = x - y.
Proof. apply wrap_small. Qed.

Lemma checked_sub_Some x y z : checked_sub x y = Some z <-> y <= x /\ z = x - y.
Proof. unfold checked_sub. case_match; naive_solver lia. Qed.

Lemma checked_add_Some w x y z : checked_add w x y = Some z <-> x + y < 2 ^ w /\ z = x + y.
Proof. unfold checked_add. case_match; naive_solver lia. Qed.

(** A Rust byte-string literal [b"..."]. *)
Definition bs (s : string) : list Z :=
  (fun c => Z.of_nat (Ascii.nat_of_ascii c)) <$> String.list_ascii_of_string s.

(** ** Effects: state, typed errors and panics

    A handler either returns a value, returns an [Err] of the pallet's error
    type (with the storage as it was left when the error was raised), or
    panics ([expect], [unwrap], [panic!], [assert_eq!], slice indexing). *)

Inductive outcome (S E A : Type) : Type :=
  | Ok (a : A) (s : S)
  | Err (e : E) (s : S)
  | Panic.
Arguments Ok {S E A} a s.
Arguments Err {S E A} e s.
Arguments Panic {S E A}.

Definition M (S E A : Type) : Type := S -> outcome S E A.

Definition state_of {S E A} (d : S) (o : outcome S E A) : S :=
  match o with Ok _ s => s | Err _ s => s | Panic => d end.

#[global] Instance M_ret S E : MRet (M S E) := fun A a s => Ok a s.
#[global] Instance M_bind S E : MBind (M S E) := fun A B f m s =>
  match m s with
  | Ok a s' => f a s'
  | Err e s' => Err e s'
  | Panic => Panic
  end.
#[global] Instance M_map S E : FMap (M S E) := fun A B f m s =>
  match m s with
  | Ok a s' => Ok (f a) s'
  | Err e s' => Err e s'
  | Panic => Panic
  end.

Section effects.
Context {S E : Type}.

Definition get_st : M S E S := fun s => Ok s s.
Definition gets {A} (f : S -> A) : M S E A := fun s => Ok (f s) s.
Definition modify (f : S -> S) : M S E unit := fun s => Ok tt (f s).
Definition fail {A} (e : E) : M S E A := fun s => Err e s.
Definition panic {A} : M S E A := fun _ => Panic.
Definition ensure (b : bool) (e : E) : M S E unit :=
  if b then mret tt else fail e.
(** [o.ok_or(e)?] *)
Definition ok_or {A} (o : option A) (e : E) : M S E A :=
  match o with Some a => mret a | None => fail e end.
(** [o.expect(..)] *)
Definition expect {A} (o : option A) : M S E A :=
  match o with Some a => mret a | None => panic end.
(** [r.expect(..)] on a fallible operation: an error becomes a panic. *)
Definition expect_ok {E' A} (m : M S E' A) : M S E A := fun s =>
  match m s with Ok a s' => Ok a s' | _ => Panic end.
(** [r.or(Err(e))?]: the error is replaced. *)
Definition or_err {E' A} (m : M S E' A) (e : E) : M S E A := fun s =>
  match m s with Ok a s' => Ok a s' | Err _ s' => Err e s' | Panic => Panic end.
Definition map_err {E' A} (f : E' -> E) (m : M S E' A) : M S E A := fun s =>
  match m s with Ok a s' => Ok a s' | Err e s' => Err (f e) s' | Panic => Panic end.
(** [#[frame_support::transactional]]: an [Err] rolls the storage back. *)
Definition transactional {A} (m : M S E A) : M S E A := fun s =>
  match m s with Ok a s' => Ok a s' | Err e _ => Err e s | Panic => Panic end.
(** [for x in l { f(x)?; }] *)
Fixpoint for_each {A} (l : list A) (f : A -> M S E unit) : M S E unit :=
  match l with
  | [] => mret tt
  | x :: l' => f x ≫= fun _ => for_each l' f
  end.
End effects.

(** ** A total-correctness triple

    [triple P m Q R]: from a state in [P], [m] does not panic, a normal return
    satisfies [Q] and an error return satisfies [R]. *)
Definition triple {S E A} (P : S -> Prop) (m : M S E A)
    (Q : A -> S -> Prop) (R : E -> S -> Prop) : Prop :=
  forall s, P s ->
    match m s with
    | Ok a s' => Q a s'
    | Err e s' => R e s'
    | Panic => False
    end.

(** [m] keeps [I] whatever it returns, and does not panic from it. *)
Definition keeps {S E A} (I : S -> Prop) (m : M S E A) : Prop :=
  triple I m (fun _ => I) (fun _ => I).

Section triples.
Context {S E : Type}.
Implicit Types (P I : S -> Prop).

Lemma triple_ret {A} P (a : A) (Q : A -> S -> Prop) (R : E -> S -> Prop) :
  (forall s, P s -> Q a s) -> triple P (mret a) Q R.
Proof. intros H s Hs. cbn. by apply H. Qed.

Lemma triple_bind {A B} P (m : M S E A) (f : A -> M S E B) Q' Q R :
  triple P m Q' R -> (forall a, triple (Q' a) (f a) Q R) ->
  triple P (m ≫= f) Q R.
Proof.
  intros Hm Hf s Hs. specialize (Hm s Hs). cbn. unfold mbind, M_bind.
  destruct (m s) as [a s'|e s'|]; [by apply Hf|done|done].
Qed.

Lemma triple_weaken {A} (P P' : S -> Prop) (m : M S E A) (Q Q' : A -> S -> Prop) R R' :
  triple P' m Q' R' -> (forall s, P s -> P' s) ->
  (forall a s, Q' a s -> Q a s) -> (forall e s, R' e s -> R e s) ->
  triple P m Q R.
Proof.
  intros H HP HQ HR s Hs. specialize (H s (HP s Hs)).
  destruct (m s); eauto.
Qed.

Lemma keeps_ret {A} I (a : A) : keeps (E := E) I (mret a).
Proof. by apply triple_ret. Qed.

Lemma keeps_bind {A B} I (m : M S E A) (f : A -> M S E B) :
  keeps I m -> (forall a, keeps I (f a)) -> keeps I (m ≫= f).
Proof. intros. by eapply triple_bind. Qed.

Lemma keeps_gets {A} I (f : S -> A) : keeps (E := E) I (gets f).
Proof. by intros s. Qed.

Lemma keeps_ensure I b (e : E) : keeps I (ensure b e).
Proof. by destruct b; intros s. Qed.

Lemma keeps_ok_or {A} I (o : option A) (e : E) : keeps I (ok_or o e).
Proof. by destruct o; intros s. Qed.

Lemma keeps_fail {A} I (e : E) : keeps I (@fail S E A e).
Proof. by intros s. Qed.

Lemma keeps_modify I f : (forall s, I s -> I (f s)) -> keeps (E := E) I (modify f).
Proof. intros H s Hs. by apply H. Qed.

Lemma keeps_transactional {A} I (m : M S E A) : keeps I m -> keeps I (transactional m).
Proof. intros H s Hs. specialize (H s Hs). unfold transactional. by destruct (m s). Qed.

Lemma keeps_for_each {A} I (l : list A) (f : A -> M S E unit) :
  (forall x, x ∈ l -> keeps I (f x)) -> keeps I (for_each l f).
Proof.
  induction l as [|x l IH]; intros H; cbn; [apply keeps_ret|].
  apply keeps_bind; [apply H; left|]. intros _. apply IH. intros y Hy. apply H. by right.
Qed.

Lemma transactional_Err {A} (m : M S E A) s e s' :
  transactional m s = Err e s' -> s' = s.
Proof. unfold transactional. destruct (m s); naive_solver. Qed.

Lemma bind_Ok {A B} (m : M S E A) (f : A -> M S E B) s b s'' :
  (m ≫= f) s = Ok b s'' <-> exists a s', m s = Ok a s' /\ f a s' = Ok b s''.
Proof. cbn. unfold mbind, M_bind. destruct (m s); naive_solver. Qed.

Lemma expect_ok_Ok {E' A} (m : M S E' A) s a s' :
  expect_ok (E := E) m s = Ok a s' -> m s = Ok a s'.
Proof. unfold expect_ok. destruct (m s); naive_solver. Qed.

Lemma transactional_Ok {A} (m : M S E A) s a s' :
  transactional m s = Ok a s' -> m s = Ok a s'.
Proof. unfold transactional. destruct (m s); naive_solver. Qed.

Lemma or_err_Ok {E' A} (m : M S E' A) (e : E) s a s' : or_err m e s = Ok a s' -> m s = Ok a s'.
Proof. unfold or_err. destruct (m s); naive_solver. Qed.

Lemma bind_Panic {A B} (m : M S E A) (f : A -> M S E B) s :
  (m ≫= f) s = Panic <-> m s = Panic \/ exists a s', m s = Ok a s' /\ f a s' = Panic.
Proof. cbn. unfold mbind, M_bind. destruct (m s); naive_solver. Qed.
End triples.

(** ** What a run relates: a relation kept by every step

    [ok_moves R m]: a normal return of [m] is related by [R] to the state it
    started from; [moves R m]: an error return too. *)
Section relational.
Context {S E : Type} (R : S -> S -> Prop) `{!PreOrder R}.

Definition ok_moves {A} (m : M S E A) : Prop := forall s a s', m s = Ok a s' -> R s s'.
Definition moves {A} (m : M S E A) : Prop := forall s,
  match m s with Ok _ s' | Err _ s' => R s s' | Panic => True end.

Lemma ok_moves_bind {A B} (m : M S E A) (f : A -> M S E B) :
  ok_moves m -> (forall a, ok_moves (f a)) -> ok_moves (m ≫= f).
Proof. intros Hm Hf s b s'' (a & s' & H1 & H2)%bind_Ok. etrans; [by eapply Hm|by eapply Hf]. Qed.
Lemma moves_bind {A B} (m : M S E A) (f : A -> M S E B) :
  moves m -> (forall a, moves (f a)) -> moves (m ≫= f).
Proof.
  intros Hm Hf s. specialize (Hm s). unfold mbind, M_bind. destruct (m s) as [a s'|e s'|]; [|done..].
  specialize (Hf a s'). destruct (f a s'); [by etrans..|done].
Qed.
Lemma moves_pure {A} (m : M S E A) :
  (forall s, match m s with Ok _ s' | Err _ s' => s' = s | Panic => True end) -> moves m.
Proof. intros H s. specialize (H s). destruct (m s); [by subst..|done]. Qed.
Lemma moves_modify f : (forall s, R s (f s)) -> moves (modify (E := E) f).
Proof. intros H s. apply H. Qed.
Lemma moves_transactional {A} (m : M S E A) : moves m -> moves (transactional m).
Proof. intros H s. specialize (H s). unfold transactional. by destruct (m s). Qed.
Lemma moves_for_each {A} (l : list A) (f : A -> M S E unit) :
  (forall a, moves (f a)) -> moves (for_each l f).
Proof.
  intros Hf. induction l as [|a l IH]; cbn; [by apply moves_pure|]. by apply moves_bind.
Qed.
Lemma moves_ok {A} (m : M S E A) : moves m -> ok_moves m.
Proof. intros H s a s' Hm. specialize (H s). by rewrite Hm in H. Qed.
Lemma ok_moves_transactional {A} (m : M S E A) : ok_moves m -> ok_moves (transactional m).
Proof. intros H s a s' Hm%transactional_Ok. by eapply H. Qed.
Lemma ok_moves_for_each {A} (l : list A) (f : A -> M S E unit) :
  (forall a, ok_moves (f a)) -> ok_moves (for_each l f).
Proof.
  intros Hf. induction l as [|a l IH]; cbn; [by apply moves_ok, moves_pure|]. by apply ok_moves_bind.
Qed.
End relational.

Lemma moves_expect_ok {S E E' A} (R : S -> S -> Prop) `{!PreOrder R} (m : M S E' A) :
  moves R m -> moves R (expect_ok (E := E) m).
Proof. intros H s. specialize (H s). unfold expect_ok. by destruct (m s). Qed.
Lemma ok_moves_expect_ok {S E E' A} (R : S -> S -> Prop) `{!PreOrder R} (m : M S E' A) :
  ok_moves R m -> ok_moves R (expect_ok (E := E) m).
Proof. intros H s a s' Hm%expect_ok_Ok. by eapply H. Qed.
Lemma moves_or_err {S E E' A} (R : S -> S -> Prop) `{!PreOrder R} (m : M S E' A) (e : E) :
  moves R m -> moves R (or_err m e).
Proof. intros H s. specialize (H s). unfold or_err. by destruct (m s). Qed.

Section pure_moves.
Context {S E : Type} (R : S -> S -> Prop) `{!PreOrder R}.
Lemma moves_ret {A} (a : A) : moves (E := E) R (mret a).
Proof. by apply moves_pure. Qed.
Lemma moves_gets {A} (f : S -> A) : moves (E := E) R (gets f).
Proof. by apply moves_pure. Qed.
Lemma moves_get_st : moves (E := E) R get_st.
Proof. by apply moves_pure. Qed.
Lemma moves_fail {A} (e : E) : moves R (@fail S E A e).
Proof. by apply moves_pure. Qed.
Lemma moves_panic {A} : moves R (@panic S E A).
Proof. by apply moves_pure. Qed.
Lemma moves_ensure b (e : E) : moves R (ensure b e).
Proof. apply moves_pure; [done|]. by destruct b. Qed.
Lemma moves_ok_or {A} (o : option A) (e : E) : moves R (ok_or o e).
Proof. apply moves_pure; [done|]. by destruct o. Qed.
Lemma moves_expect {A} (o : option A) : moves (E := E) R (expect o).
Proof. apply moves_pure; [done|]. by destruct o. Qed.
End pure_moves.

Create HintDb moves discriminated.
Create HintDb ok_moves discriminated.
#[export] Hint Resolve moves_ret moves_gets moves_get_st moves_fail moves_panic moves_ensure moves_ok_or
  moves_expect moves_transactional moves_expect_ok moves_or_err moves_for_each : moves.
#[export] Hint Resolve ok_moves_transactional ok_moves_expect_ok ok_moves_for_each : ok_moves.

(** Walks through a handler: binds and tests by structure, the rest by hints. *)
Ltac moves_step :=
  lazymatch goal with
  | |- moves _ (mbind _ _) => apply moves_bind; [try apply _|..|intros ?]
  | |- moves _ (match ?x with _ => _ end) => destruct x
  | |- moves _ (let '_ := ?x in _) => destruct x
  | |- moves _ _ => first [solve [eauto 4 with moves typeclass_instances] |
      apply moves_transactional; [apply _|] | apply moves_expect_ok; [apply _|] |
      apply moves_or_err; [apply _|] | apply moves_for_each; [apply _|intros ?]]
  end.
Ltac moves := repeat moves_step.
Ltac ok_moves_step :=
  lazymatch goal with
  | |- ok_moves _ (mbind _ _) => apply ok_moves_bind; [try apply _|..|intros ?]
  | |- ok_moves _ (match ?x with _ => _ end) => destruct x
  | |- ok_moves _ (let '_ := ?x in _) => destruct x
  | |- ok_moves _ _ => first [solve [eauto 4 with ok_moves typeclass_instances] |
      apply ok_moves_transactional | apply ok_moves_expect_ok; [apply _|] |
      apply ok_moves_for_each; [apply _|intros ?] |
      apply moves_ok; solve [eauto 4 with moves typeclass_instances]]
  end.
Ltac ok_moves := repeat ok_moves_step.

(** ** Sorted lists *)
Lemma StronglySorted_insert (l1 l2 : list Z) k :
  StronglySorted Z.le (l1 ++ l2) -> Forall (fun x => x <= k) l1 -> Forall (fun x => k <= x) l2 ->
  StronglySorted Z.le (l1 ++ k :: l2).
Proof.
  induction l1 as [|x l1 IH]; cbn; intros Hs H1 H2; [by constructor|].
  apply StronglySorted_inv in Hs as [Hs Hx]. apply Forall_cons in H1 as [Hk H1].
  constructor; [by apply IH|]. apply Forall_app in Hx as [? ?].
  apply Forall_app. split; [done|]. by constructor.
Qed.

(** ** Counting the entries of a map *)
Section counting.
Context {A : Type} (f : A -> bool).
Implicit Types m : gmap Z A.

Definition count_if m : Z := Z.of_nat (size (filter (fun p => f p.2 = true) m)).
Definition count_bit (o : option A) : Z :=
  match o with Some x => if f x then 1 else 0 | None => 0 end.

Lemma count_if_delete m a : count_if (delete a m) = count_if m - count_bit (m !! a).
Proof.
  unfold count_if. rewrite map_filter_delete. set (P := fun p : Z * A => f p.2 = true).
  destruct (filter P m !! a) as [x|] eqn:E.
  - apply map_lookup_filter_Some in E as E'. destruct E' as [-> Hc]. unfold P in Hc. cbn in *.
    rewrite Hc, map_size_delete_Some by (by eexists).
    assert (size (filter P m) <> 0%nat); [|lia].
    intros H0%map_size_empty_inv. by rewrite H0, lookup_empty in E.
  - rewrite map_size_delete_None by done. apply map_lookup_filter_None in E.
    destruct (m !! a) as [x|]; cbn; [|lia]. destruct E as [|E]; [done|].
    specialize (E x eq_refl). unfold P in E. cbn in E. destruct (f x); [done|lia].
Qed.

Lemma count_if_insert m a x :
  count_if (<[ a := x ]> m) = count_if m - count_bit (m !! a) + count_bit (Some x).
Proof.
  rewrite <- count_if_delete, <- insert_delete_eq. unfold count_if. cbn.
  destruct (f x) eqn:E.
  - rewrite map_filter_insert_True by done. rewrite map_size_insert_None; [lia|].
    apply map_lookup_filter_None. left. apply lookup_delete_eq.
  - rewrite map_filter_insert_not'; [lia|by cbn; rewrite E|].
    intros y Hy. by rewrite lookup_delete_eq in Hy.
Qed.

Lemma count_if_fmap (g : A -> A) m : (forall x, f (g x) = f x) -> count_if (g <$> m) = count_if m.
Proof.
  intros Hg. unfold count_if. rewrite map_filter_fmap, map_size_fmap. f_equal. f_equal.
  apply map_filter_ext. intros i x _. cbn. by rewrite Hg.
Qed.

Lemma count_if_nonneg m : 0 <= count_if m.
Proof. unfold count_if. lia. Qed.
End counting.

(** ** Sums over a map *)
Section map_sums.
Context {K A : Type} `{Countable K}.
Implicit Types (f g : K -> A -> Z) (m : gmap K A).

Definition msum f m : Z := map_fold (fun k a z => f k a + z) 0 m.

Lemma msum_insert f m k a : m !! k = None -> msum f (<[ k := a ]> m) = f k a + msum f m.
Proof. intros Hk. unfold msum. rewrite map_fold_insert_L; [done| |done]. intros. lia. Qed.

Lemma msum_delete f m k a : m !! k = Some a -> msum f m = f k a + msum f (delete k m).
Proof. intros Hk. unfold msum. rewrite (map_fold_delete_L _ _ k a m); [done| |done]. intros. lia. Qed.

Lemma msum_ext f g m : (forall k a, m !! k = Some a -> f k a = g k a) -> msum f m = msum g m.
Proof.
  induction m as [|k a m Hk IH] using map_ind; [done|]. intros Hfg.
  rewrite !msum_insert by done. rewrite (Hfg k a) by apply lookup_insert_eq.
  f_equal. apply IH. intros k' a' Hk'. apply Hfg. rewrite lookup_insert_ne; [done|]. congruence.
Qed.

Lemma msum_zero f m : (forall k a, m !! k = Some a -> f k a = 0) -> msum f m = 0.
Proof.
  induction m as [|k a m Hk IH] using map_ind; [done|]. intros Hf.
  rewrite msum_insert, (Hf k a) by (done || apply lookup_insert_eq). rewrite IH; [done|].
  intros k' a' Hk'. apply Hf. rewrite lookup_insert_ne; [done|]. congruence.
Qed.

Lemma msum_nonneg f m : (forall k a, m !! k = Some a -> 0 <= f k a) -> 0 <= msum f m.
Proof.
  induction m as [|k a m Hk IH] using map_ind; [done|]. intros Hf.
  rewrite msum_insert by done. pose proof (Hf k a (lookup_insert_eq _ _ _)).
  assert (0 <= msum f m); [|lia]. apply IH. intros k' a' Hk'. apply Hf.
  rewrite lookup_insert_ne; [done|]. congruence.
Qed.

Lemma msum_ge f m k a :
  (forall k a, m !! k = Some a -> 0 <= f k a) -> m !! k = Some a -> f k a <= msum f m.
Proof.
  intros Hf Hk. rewrite (msum_delete f m k a Hk). assert (0 <= msum f (delete k m)); [|lia].
  apply msum_nonneg. intros k' a' [_ Hk']%lookup_delete_Some. by apply Hf.
Qed.
End map_sums.

Create HintDb keeps.
#[export] Hint Resolve keeps_ret keeps_gets keeps_ensure keeps_ok_or keeps_fail
  keeps_bind keeps_transactional : keeps.

(** Invariants by rule induction over a step relation. *)
Lemma rtc_invariant {A} (R : relation A) (P : A -> Prop) x y :
  (forall a b, P a -> R a b -> P b) -> rtc R x y -> P x -> P y.
Proof. intros Hstep. induction 1; eauto. Qed.

(** Unfolds the monad in the goal. *)
Ltac mred :=
  cbv beta iota zeta delta [mbind M_bind mret M_ret fmap M_map get_st gets modify
    fail panic ensure ok_or expect expect_ok or_err map_err transactional].

(** Runs a handler one step at a time on a hypothesis or goal about its
    outcome: unfolds the monad and splits on every test. *)
Ltac mrun :=
  repeat first
    [ progress unfold mbind, M_bind, mret, M_ret, fmap, M_map, get_st, gets, modify,
        fail, panic, ensure, ok_or, expect, expect_ok, or_err, map_err, transactional in *
    | progress simplify_eq/=
    | case_match ].

(** Turns the boolean connectives and comparisons of the code into the
    propositions they decide. *)
Ltac b2p :=
  repeat first
    [ rewrite orb_true_iff in * | rewrite andb_true_iff in * | rewrite negb_true_iff in *
    | rewrite orb_false_iff in * | rewrite andb_false_iff in * | rewrite negb_false_iff in *
    | rewrite Z.ltb_lt in * | rewrite Z.ltb_ge in * | rewrite Z.leb_le in * | rewrite Z.leb_gt in *
    | rewrite Z.eqb_eq in * | rewrite Z.eqb_neq in *
    | rewrite bool_decide_eq_true in * | rewrite bool_decide_eq_false in * ].

Lemma Ok_inj {S E A} (a a' : A) (s s' : S) : Ok (E := E) a s = Ok a' s' -> a = a' /\ s = s'.
Proof. by intros [= -> ->]. Qed.

(** Splits a successful run [E : (m ≫= f) s = Ok a s'] into its steps. *)
Ltac mok_eq E :=
  let H1 := fresh "Hv" in let H2 := fresh "Hs" in
  apply Ok_inj in E as [H1 H2];
  lazymatch type of H2 with _ = ?y => first [is_var y; subst y | simplify_eq] end;
  lazymatch type of H1 with _ = ?y => first [is_var y; subst y | simplify_eq] end.
Ltac run_prim E :=
  lazymatch type of E with
  | get_st _ = Ok _ _ => unfold get_st in E; mok_eq E
  | gets _ _ = Ok _ _ => unfold gets in E; mok_eq E
  | modify _ _ = Ok _ _ => unfold modify in E; mok_eq E
  | mret _ _ = Ok _ _ => unfold mret, M_ret in E; mok_eq E
  | ensure ?b _ _ = Ok _ _ =>
      let Hb := fresh "Hb" in destruct b eqn:Hb; cbn in E;
      [unfold mret, M_ret in E; mok_eq E | discriminate E]
  | ok_or (Some _) _ _ = Ok _ _ => cbn in E; unfold mret, M_ret in E; mok_eq E
  | ok_or ?o _ _ = Ok _ _ =>
      let Ho := fresh "Ho" in destruct o eqn:Ho; cbn in E;
      [unfold mret, M_ret in E; mok_eq E | discriminate E]
  | expect (Some _) _ = Ok _ _ => cbn in E; unfold mret, M_ret in E; mok_eq E
  | expect ?o _ = Ok _ _ =>
      let Ho := fresh "Ho" in destruct o eqn:Ho; cbn in E;
      [unfold mret, M_ret in E; mok_eq E | discriminate E]
  | expect_ok _ _ = Ok _ _ => apply expect_ok_Ok in E
  | _ => idtac
  end.
(** One step, whose result and state are named *)
Ltac run_named o E :=
  let v := fresh "v" in let Ho := fresh "Ho" in let H1 := fresh in let H2 := fresh in
  destruct o as [v|] eqn:Ho; cbn in E; [|discriminate E]; unfold mret, M_ret in E; apply Ok_inj in E as [H1 H2]; subst v;
  lazymatch type of H2 with _ = ?y => subst y end.
Ltac run_ok H a s E :=
  apply bind_Ok in H as (a & s & E & H);
  lazymatch type of E with
  | ok_or ?o _ _ = Ok _ _ => run_named o E
  | expect ?o _ = Ok _ _ => run_named o E
  | _ => run_prim E
  end.
