(* ===== verification/MqTypes.v ===== *)
(** * Message queue types (crates/phala-mq/src/types.rs, signer/mod.rs)

    The origin of a message, topics, messages and their signed forms. The
    SCALE codec and the signature scheme are outside the repository: the codec
    is a parameter ([MqCodec]) and the signer another ([MessageSigner]). *)

From S2P Require Import Prelude.

Abbreviation byte := Z (only parsing).
Abbreviation bytes := (list Z) (only parsing).
(** Opaque 32-byte identifiers, kept as the 256-bit number they spell. *)
Abbreviation H256 := Z (only parsing).
Abbreviation Path := (list Z) (only parsing).

(** ** [MessageOrigin] *)

Inductive MessageOrigin :=
  | Pallet (name : bytes)
  | Contract (id : H256)
  | Worker (pubkey : H256)
  | AccountId (id : H256)
  | MultiLocation (loc : bytes)
  | Gatekeeper
  | Cluster (id : H256)
  | Reserved.

Abbreviation SenderId := MessageOrigin (only parsing).

(** The derived [Ord]: the variant first, then the payload. *)
Definition origin_key (o : MessageOrigin) : Z * list Z :=
  match o with
  | Pallet n => (0, n)
  | Contract i => (1, [i])
  | Worker k => (2, [k])
  | AccountId i => (3, [i])
  | MultiLocation l => (4, l)
  | Gatekeeper => (5, [])
  | Cluster i => (6, [i])
  | Reserved => (7, [])
  end.

Definition origin_of_key (k : Z * list Z) : option MessageOrigin :=
  match k with
  | (0, n) => Some (Pallet n)
  | (1, [i]) => Some (Contract i)
  | (2, [i]) => Some (Worker i)
  | (3, [i]) => Some (AccountId i)
  | (4, l) => Some (MultiLocation l)
  | (5, []) => Some Gatekeeper
  | (6, [i]) => Some (Cluster i)
  | (7, []) => Some Reserved
  | _ => None
  end.

Fixpoint bytes_leb (a b : list Z) : bool :=
  match a, b with
  | [], _ => true
  | _ :: _, [] => false
  | x :: a', y :: b' => (x <? y) || ((x =? y) && bytes_leb a' b')
  end.

Definition origin_leb (a b : MessageOrigin) : bool :=
  let (i, p) := origin_key a in
  let (j, q) := origin_key b in
  (i <? j) || ((i =? j) && bytes_leb p q).
Definition origin_le (a b : MessageOrigin) : Prop := origin_leb a b = true.

#[global] Instance MessageOrigin_eq_dec : EqDecision MessageOrigin.
Proof. solve_decision. Defined.

#[global] Instance MessageOrigin_countable : Countable MessageOrigin.
Proof. refine (inj_countable origin_key origin_of_key _). by intros []. Defined.

#[global] Instance origin_le_dec a b : Decision (origin_le a b).
Proof. unfold origin_le. apply _. Defined.

Definition is_offchain (o : MessageOrigin) : bool :=
  match o with
  | Cluster _ | Contract _ | Worker _ | Gatekeeper => true
  | _ => false
  end.

Definition is_pallet (o : MessageOrigin) : bool :=
  match o with Pallet _ => true | _ => false end.

Definition always_well_formed (o : MessageOrigin) : bool :=
  match o with Pallet _ | Worker _ | Gatekeeper => true | _ => false end.

Definition is_gatekeeper (o : MessageOrigin) : bool :=
  match o with Gatekeeper => true | _ => false end.

(** [account]: [None] is [Err(BadOrigin)]. *)
Definition account (o : MessageOrigin) : option H256 :=
  match o with AccountId i => Some i | _ => None end.

(** ** [Topic] *)

Record Topic := mkTopic { topic_path : Path }.

#[global] Instance Topic_eq_dec : EqDecision Topic.
Proof. solve_decision. Defined.

Definition RESERVED_BYTES : bytes := Eval vm_compute in bs "~!@#$%&*_+-=|<>?,./;:'".

(** [b'^'] *)
Definition ONCHAIN_MARK : byte := 94.

Definition topic_is_valid (t : Topic) : bool :=
  match topic_path t with
  | [] => false
  | b :: _ => negb (bool_decide (b ∈ RESERVED_BYTES))
  end.

Definition topic_is_offchain (t : Topic) : bool :=
  if negb (topic_is_valid t) then false
  else match topic_path t with
       | b :: _ => negb (b =? ONCHAIN_MARK)
       | [] => false
       end.

(** ** Messages *)

Record Message := mkMessage {
  sender : SenderId;
  destination : Topic;
  payload : bytes;
}.

#[global] Instance Message_eq_dec : EqDecision Message.
Proof. solve_decision. Defined.

Definition message_new (s : SenderId) (dest : Path) (p : bytes) : Message :=
  mkMessage s (mkTopic dest) p.

Record SignedMessage := mkSigned {
  message : Message;
  sequence : Z;
  signature : bytes;
}.

#[global] Instance SignedMessage_eq_dec : EqDecision SignedMessage.
Proof. solve_decision. Defined.

(** What parity-scale-codec gives this crate: an injective encoding of the
    signed tuple and of origins. *)
Class MqCodec := {
  encode_origin : MessageOrigin -> bytes;
  encode_to_be_signed : Message -> Z -> bytes;
  encode_origin_inj :: Inj eq eq encode_origin;
  encode_to_be_signed_inj : forall m n m' n',
    encode_to_be_signed m n = encode_to_be_signed m' n' -> m = m' /\ n = n';
}.

Class MessageSigner (Si : Type) := sign_data : Si -> bytes -> bytes.

Section codec.
Context `{!MqCodec}.

(** [PartialEq for MessageOrigin] compares the encodings. *)
Definition origin_eqb (a b : MessageOrigin) : bool :=
  bool_decide (encode_origin a = encode_origin b).

(** [decode_payload] / [decode] with the payload's decoder. *)
Definition decode_payload {T} (dec : bytes -> option T) (m : Message) : option T :=
  dec (payload m).

Definition message_decode {T} (dec : bytes -> option T) (m : Message) :
    option (SenderId * Topic * T) :=
  match decode_payload dec m with
  | Some p => Some (sender m, destination m, p)
  | None => None
  end.

Definition data_be_signed (m : SignedMessage) : bytes :=
  encode_to_be_signed (message m) (sequence m).

Record SigningMessage (Si : Type) := mkSigning { sm_message : Message; sm_signer : Si }.

(** [SigningMessage::sign] *)
Definition sign `{MessageSigner Si} (m : SigningMessage Si) (seq : Z) : SignedMessage :=
  let data := encode_to_be_signed (sm_message Si m) seq in
  mkSigned (sm_message Si m) seq (sign_data (sm_signer Si m) data).

Lemma origin_eqb_true a b : origin_eqb a b = true <-> a = b.
Proof.
  unfold origin_eqb. rewrite bool_decide_eq_true. split; [apply encode_origin_inj|by intros ->].
Qed.

(** A signature that verifies for two signed messages verifies the same
    message at the same sequence: nothing can be replayed under another
    sequence number. *)
Lemma data_be_signed_inj a b :
  data_be_signed a = data_be_signed b -> message a = message b /\ sequence a = sequence b.
Proof. apply encode_to_be_signed_inj. Qed.
End codec.

(** ** The derived order is a total order: BTreeMap iteration is well defined *)

Lemma bytes_leb_refl a : bytes_leb a a = true.
Proof. induction a as [|x a IH]; cbn; [done|]. rewrite IH. lia. Qed.

Lemma bytes_leb_total a b : bytes_leb a b = true \/ bytes_leb b a = true.
Proof.
  revert b; induction a as [|x a IH]; intros [|y b]; cbn; auto.
  b2p.
  destruct (Z.lt_trichotomy x y) as [?|[?|?]]; [by auto| |by auto].
  destruct (IH b); auto.
Qed.

Lemma bytes_leb_antisym a b : bytes_leb a b = true -> bytes_leb b a = true -> a = b.
Proof.
  revert b; induction a as [|x a IH]; intros [|y b]; cbn; try done.
  b2p.
  intros [?|[-> ?]] [?|[? ?]]; try lia. f_equal. auto.
Qed.

Lemma bytes_leb_trans a b c :
  bytes_leb a b = true -> bytes_leb b c = true -> bytes_leb a c = true.
Proof.
  revert b c; induction a as [|x a IH]; intros [|y b] [|z c]; cbn; try done.
  b2p.
  intros [?|[-> ?]] [?|[-> ?]]; [left; lia..|right; eauto].
Qed.

Lemma origin_key_inj a b : origin_key a = origin_key b -> a = b.
Proof. destruct a, b; cbn; congruence. Qed.

#[global] Instance origin_le_total : Total origin_le.
Proof.
  intros a b. unfold origin_le, origin_leb. destruct (origin_key a) as [i p], (origin_key b) as [j q].
  b2p.
  destruct (Z.lt_trichotomy i j) as [?|[?|?]]; [by auto| |by auto].
  destruct (bytes_leb_total p q); auto.
Qed.

#[global] Instance origin_le_trans : Transitive origin_le.
Proof.
  intros a b c. unfold origin_le, origin_leb.
  destruct (origin_key a) as [i p], (origin_key b) as [j q], (origin_key c) as [k r].
  b2p.
  intros [?|[-> ?]] [?|[-> ?]]; [left; lia..|right; eauto using bytes_leb_trans].
Qed.

Lemma origin_le_antisym a b : origin_le a b -> origin_le b a -> a = b.
Proof.
  unfold origin_le, origin_leb. intros H1 H2. apply origin_key_inj. revert H1 H2.
  destruct (origin_key a) as [i p], (origin_key b) as [j q].
  b2p.
  intros [?|[-> ?]] [?|[? ?]]; try lia. f_equal. by apply bytes_leb_antisym.
Qed.

(** An off-chain topic is valid: it has a first byte, which is neither
    reserved nor the on-chain marker. *)
Lemma topic_offchain_spec t :
  topic_is_offchain t = true <->
  (exists b p, topic_path t = (b :: p) /\ (b ∉ RESERVED_BYTES) /\ b <> ONCHAIN_MARK).
Proof.
  unfold topic_is_offchain, topic_is_valid. destruct (topic_path t) as [|b p] eqn:E; cbn.
  - naive_solver.
  - case_bool_decide; cbn; [naive_solver|]. rewrite negb_true_iff, Z.eqb_neq. naive_solver.
Qed.
