(* ===== verification/SendQueue.v ===== *)
(** * The egress queue (crates/phala-mq/src/send_queue.rs)

    [MessageSendQueue] keeps one [Channel] per sender: the next sequence
    number, the messages not yet accepted on chain, and the dummy flag. The
    [Arc<Mutex<..>>] around the map only serialises the calls, so the state is
    the map itself and every method is one step on it. *)

From S2P Require Import Prelude MqTypes.

(** ** State *)

Record Channel := mkChannel {
  ch_sequence : Z;
  ch_messages : list SignedMessage;
  ch_dummy : bool;
}.

Definition channel_default : Channel := mkChannel 0 [] false.

Abbreviation MessageSendQueue := (gmap MessageOrigin Channel) (only parsing).

(** [inner.entry(sender).or_default()] *)
Definition channel_of (q : MessageSendQueue) (s : SenderId) : Channel :=
  default channel_default (q !! s).

(** Iteration over the [BTreeMap], in key order. *)
Definition btree_iter (q : MessageSendQueue) : list (MessageOrigin * Channel) :=
  merge_sort (fun a b => origin_le a.1 b.1) (map_to_list q).

(** ** Operations *)

Definition queue_new : MessageSendQueue := ∅.

Definition enqueue_message (q : MessageSendQueue) (s : SenderId)
    (constructor : Z -> SignedMessage) : MessageSendQueue :=
  let entry := channel_of q s in
  let msgs :=
    if negb (ch_dummy entry) then ch_messages entry ++ [constructor (ch_sequence entry)]
    else ch_messages entry in
  <[ s := mkChannel (ch_sequence entry +[64] 1) msgs (ch_dummy entry) ]> q.

Definition set_dummy_mode (q : MessageSendQueue) (s : SenderId) (dummy : bool) : MessageSendQueue :=
  let entry := channel_of q s in
  <[ s := mkChannel (ch_sequence entry) (ch_messages entry) dummy ]> q.

Definition all_messages (q : MessageSendQueue) : list SignedMessage :=
  btree_iter q ≫= fun kv => ch_messages kv.2.

Definition all_messages_grouped (q : MessageSendQueue) : gmap MessageOrigin (list SignedMessage) :=
  ch_messages <$> q.

Definition messages (q : MessageSendQueue) (s : SenderId) : list SignedMessage :=
  match q !! s with Some c => ch_messages c | None => [] end.

Definition count_messages (q : MessageSendQueue) : nat :=
  sum_list_with (fun kv => length (ch_messages kv.2)) (btree_iter q).

Definition purge_channel (seq : Z) (c : Channel) : Channel :=
  mkChannel (ch_sequence c) (filter (fun m => seq <= sequence m) (ch_messages c)) (ch_dummy c).

Definition purge (q : MessageSendQueue) (next_sequence_for : SenderId -> Z) : MessageSendQueue :=
  map_imap (fun k c => Some (purge_channel (next_sequence_for k) c)) q.

Definition dump_state (q : MessageSendQueue) (s : SenderId) : option Channel := q !! s.

Definition load_state (q : MessageSendQueue) (s : SenderId) (c : Channel) : MessageSendQueue :=
  <[ s := c ]> q.

(** ** [MessageChannel<Si>]: a handle that signs what it pushes *)

Record MessageChannel (Si : Type) := mkMsgChannel { mc_sender : SenderId; mc_signer : Si }.
Arguments mkMsgChannel {Si}.
Arguments mc_sender {Si}.
Arguments mc_signer {Si}.

Section channel.
Context `{!MqCodec} {Si : Type} `{!MessageSigner Si}.

Definition prepare_with_data (c : MessageChannel Si) (p : bytes) (to : Path) : SigningMessage Si :=
  mkSigning Si (mkMessage (mc_sender c) (mkTopic to) p) (mc_signer c).

Definition push_data (q : MessageSendQueue) (c : MessageChannel Si) (p : bytes) (to : Path)
    : MessageSendQueue :=
  let signing := prepare_with_data c p to in
  enqueue_message q (mc_sender c) (fun seq => sign signing seq).

Definition set_dummy (q : MessageSendQueue) (c : MessageChannel Si) (dummy : bool)
    : MessageSendQueue := set_dummy_mode q (mc_sender c) dummy.

Definition set_signer (c : MessageChannel Si) (signer : Si) : MessageChannel Si :=
  mkMsgChannel (mc_sender c) signer.
End channel.

(** ** Invariant

    In a channel the queued sequence numbers increase strictly and stay below
    the next one; the sender of every message is the key of its channel. *)

Definition channel_wf (s : SenderId) (c : Channel) : Prop :=
  0 <= ch_sequence c < 2 ^ 64 /\
  StronglySorted Z.lt (sequence <$> ch_messages c) /\
  Forall (fun m => 0 <= sequence m < ch_sequence c /\ sender (message m) = s) (ch_messages c).

Definition queue_wf (q : MessageSendQueue) : Prop := map_Forall channel_wf q.

(** Operations of a queue as one type, for statements about every one of them. *)
Inductive queue_op :=
  | OpEnqueue (s : SenderId) (mk : Z -> SignedMessage)
  | OpSetDummy (s : SenderId) (d : bool)
  | OpPurge (f : SenderId -> Z)
  | OpLoad (s : SenderId) (c : Channel).

Definition queue_step (q : MessageSendQueue) (op : queue_op) : MessageSendQueue :=
  match op with
  | OpEnqueue s mk => enqueue_message q s mk
  | OpSetDummy s d => set_dummy_mode q s d
  | OpPurge f => purge q f
  | OpLoad s c => load_state q s c
  end.

(** What each operation asks of its caller: a constructor that stamps the
    sequence it is given with the channel's sender (as [push_data] does) and a
    counter that has not reached the end of its 64 bits; a loaded channel that
    is one of this sender. *)
Definition op_ok (q : MessageSendQueue) (op : queue_op) : Prop :=
  match op with
  | OpEnqueue s mk =>
      ch_sequence (channel_of q s) + 1 < 2 ^ 64 /\
      forall n, sequence (mk n) = n /\ sender (message (mk n)) = s
  | OpLoad s c => channel_wf s c
  | _ => True
  end.

(** ** Lemmas *)

Lemma channel_default_wf s : channel_wf s channel_default.
Proof. split; cbn; [lia|]. split; constructor. Qed.

Lemma channel_of_wf q s : queue_wf q -> channel_wf s (channel_of q s).
Proof.
  intros H. unfold channel_of. destruct (q !! s) eqn:E; cbn; [by apply H|apply channel_default_wf].
Qed.

Lemma StronglySorted_snoc (l : list Z) x :
  StronglySorted Z.lt l -> Forall (fun y => y < x) l -> StronglySorted Z.lt (l ++ [x]).
Proof.
  induction 1 as [|y l HS IH HF]; intros Hx; cbn; [repeat constructor|].
  apply Forall_cons in Hx as [? ?]. constructor; [auto|].
  apply Forall_app; split; [done|]. by constructor.
Qed.

Lemma StronglySorted_filter (P : SignedMessage -> Prop) `{forall m, Decision (P m)} l :
  StronglySorted Z.lt (sequence <$> l) -> StronglySorted Z.lt (sequence <$> filter P l).
Proof.
  induction l as [|m l IH]; [done|]. intros HS. rewrite fmap_cons in HS.
  apply StronglySorted_inv in HS as [HS HF]. rewrite filter_cons.
  case_decide; [|by apply IH]. rewrite fmap_cons. constructor; [by apply IH|].
  rewrite Forall_fmap in HF |- *. rewrite Forall_forall in HF |- *.
  intros y Hy. apply HF. by apply list_elem_of_filter in Hy as [_ ?].
Qed.

Lemma enqueue_channel_wf s c mk :
  channel_wf s c -> ch_sequence c + 1 < 2 ^ 64 ->
  sequence (mk (ch_sequence c)) = ch_sequence c -> sender (message (mk (ch_sequence c))) = s ->
  channel_wf s (mkChannel (ch_sequence c +[64] 1)
    (if negb (ch_dummy c) then ch_messages c ++ [mk (ch_sequence c)] else ch_messages c) (ch_dummy c)).
Proof.
  intros (Hr & HS & HF) Hlt Hseq Hsnd.
  rewrite wrap_add_small by lia. split; cbn; [lia|].
  assert (Forall (fun m => 0 <= sequence m < ch_sequence c + 1 /\ sender (message m) = s)
            (ch_messages c)) as HF'.
  { eapply Forall_impl; [exact HF|]. cbn. intros m [? ?]. split; [lia|done]. }
  destruct (ch_dummy c); cbn; [by split|]. split.
  - rewrite fmap_app. apply StronglySorted_snoc; [done|]. cbn. rewrite Hseq, Forall_fmap.
    eapply Forall_impl; [exact HF|]. cbn. lia.
  - apply Forall_app; split; [done|]. repeat constructor; rewrite ?Hseq; lia || done.
Qed.

Lemma purge_channel_wf s c n : channel_wf s c -> channel_wf s (purge_channel n c).
Proof.
  intros (Hr & HS & HF). split; [done|]. cbn. split; [by apply StronglySorted_filter|].
  rewrite Forall_forall in HF |- *. intros y Hy. apply HF. by apply list_elem_of_filter in Hy as [_ ?].
Qed.

Lemma enqueue_message_lookup q s mk s' :
  messages (enqueue_message q s mk) s' =
  if decide (s = s') then
    messages q s ++ (if ch_dummy (channel_of q s) then [] else [mk (ch_sequence (channel_of q s))])
  else messages q s'.
Proof.
  unfold messages, enqueue_message, channel_of. rewrite lookup_insert.
  case_decide; [subst|done]. cbn.
  destruct (q !! s') as [[? ? []]|]; cbn; by rewrite ?app_nil_r.
Qed.

Lemma purge_messages q f s :
  messages (purge q f) s = filter (fun m => f s <= sequence m) (messages q s).
Proof.
  unfold messages, purge. rewrite map_lookup_imap. by destruct (q !! s).
Qed.

Lemma btree_iter_perm q : btree_iter q ≡ₚ map_to_list q.
Proof. apply merge_sort_Permutation. Qed.

Lemma elem_of_all_messages q m :
  m ∈ all_messages q <-> exists s c, q !! s = Some c /\ m ∈ ch_messages c.
Proof.
  unfold all_messages. rewrite list_elem_of_bind. split.
  - intros ([s c] & Hm & Hin). cbn in *. rewrite btree_iter_perm in Hin.
    apply elem_of_map_to_list in Hin. eauto.
  - intros (s & c & Hq & Hm). exists (s, c). split; [done|].
    rewrite btree_iter_perm. by apply elem_of_map_to_list.
Qed.

Lemma length_all_messages q : length (all_messages q) = count_messages q.
Proof.
  unfold all_messages, count_messages. induction (btree_iter q) as [|kv l IH]; cbn; [done|].
  rewrite length_app. by rewrite IH.
Qed.

(** Every queue operation keeps every channel well formed: the queued
    sequence numbers of a sender increase strictly, stay below its next
    sequence number, and belong to that sender. *)
Theorem queue_step_wf q op : queue_wf q -> op_ok q op -> queue_wf (queue_step q op).
Proof.
  intros Hq Hop s c Hlk. destruct op as [s' mk|s' d|f|s' c']; cbn in *.
  - destruct Hop as [Hlt Hmk]. unfold enqueue_message in Hlk. rewrite lookup_insert in Hlk.
    case_decide; simplify_eq; [|by apply Hq]. apply enqueue_channel_wf; try done; try apply Hmk.
    by apply channel_of_wf.
  - unfold set_dummy_mode in Hlk. rewrite lookup_insert in Hlk.
    case_decide; simplify_eq; [|by apply Hq].
    destruct (channel_of_wf q s Hq) as (? & ? & ?). by split.
  - unfold purge in Hlk. rewrite map_lookup_imap in Hlk.
    destruct (q !! s) eqn:E; simplify_eq/=. apply purge_channel_wf. by apply Hq.
  - unfold load_state in Hlk. rewrite lookup_insert in Hlk.
    case_decide; simplify_eq; [done|by apply Hq].
Qed.
