(* ===== verification/Storage.v ===== *)
(** * Chain storage and shared types

    The data every pallet works on: the cross-component messages
    (crates/phala-types/src/lib.rs), the error and event types and the
    storage items of the message queue, registry, computation, pool and phat
    contract pallets (pallets/phala/src/mq.rs, registry.rs, compute/, phat.rs,
    phat_tokenomic.rs) and of the rollup pallets (pallets/offchain-rollup),
    joined in one [Storage] record. Storage maps are [gmap]s, [StorageValue]s with
    [ValueQuery] are plain fields, others are options. [X] is the state of the
    pallets outside the repository (balances, assets, NFTs). *)

From S2P Require Import Prelude MqTypes.

Abbreviation WorkerPublicKey := Z (only parsing).
Abbreviation MasterPublicKey := Z (only parsing).
Abbreviation EcdhPublicKey := Z (only parsing).
Abbreviation Account := Z (only parsing).
Abbreviation Balance := Z (only parsing).
Abbreviation BlockNumber := Z (only parsing).
(** U64F64 bits *)
Abbreviation FixedBits := Z (only parsing).

(** ** Messages between components (phala-types) *)

Inductive WorkerEvent :=
  | WRegistered (confidence_level : Z)
  | BenchStart (duration : Z)
  | BenchScore (score : Z)
  | Started (session_id : Z) (init_v : FixedBits) (init_p : Z)
  | Stopped
  | EnterUnresponsive
  | ExitUnresponsive.

Inductive SystemEvent :=
  | SysWorkerEvent (pubkey : WorkerPublicKey) (event : WorkerEvent)
  | SysHeartbeatChallenge (seed online_target : Z).

Definition new_worker_event (pubkey : WorkerPublicKey) (e : WorkerEvent) : SystemEvent :=
  SysWorkerEvent pubkey e.

Inductive WorkingReportEvent :=
  | Heartbeat (session_id challenge_block challenge_time iterations : Z)
  | HeartbeatV2 (session_id challenge_block challenge_time iterations n_clusters n_contracts : Z).

Record SettleInfo := mkSettle {
  st_pubkey : WorkerPublicKey;
  st_v : FixedBits;
  st_payout : FixedBits;
  st_treasury : FixedBits;
}.

Record WorkingInfoUpdateEvent := mkUpdate {
  upd_block_number : BlockNumber;
  upd_timestamp_ms : Z;
  upd_offline : list WorkerPublicKey;
  upd_recovered_to_online : list WorkerPublicKey;
  upd_settle : list SettleInfo;
}.

Definition update_is_empty (e : WorkingInfoUpdateEvent) : bool :=
  bool_decide (upd_offline e = []) &&
  match upd_settle e with [] => true | _ => false end &&
  bool_decide (upd_recovered_to_online e = []).

Record WorkerIdentity := mkIdentity { wi_pubkey : WorkerPublicKey; wi_ecdh : EcdhPublicKey }.

Inductive GatekeeperLaunch :=
  | FirstGatekeeper (pubkey : WorkerPublicKey) (ecdh : EcdhPublicKey)
  | MasterPubkeyOnChain (master : MasterPublicKey)
  | RotateMasterKey (rotation_id : Z) (gk_identities : list WorkerIdentity)
  | MasterPubkeyRotated (master : MasterPublicKey).

Inductive GatekeeperChange :=
  | GkRegistered (pubkey : WorkerPublicKey) (ecdh : EcdhPublicKey)
  | GkUnregistered (pubkey : WorkerPublicKey).

Record TokenomicParameters := mkTokenomic {
  pha_rate : FixedBits;
  rho : FixedBits;
  budget_per_block : FixedBits;
  v_max : FixedBits;
  cost_k : FixedBits;
  cost_b : FixedBits;
  slash_rate : FixedBits;
  treasury_ratio : FixedBits;
  heartbeat_window : Z;
  rig_k : FixedBits;
  rig_b : FixedBits;
  re : FixedBits;
  k_param : FixedBits; (** [k] *)
  kappa : FixedBits;
}.

Definition with_budget (b : FixedBits) (t : TokenomicParameters) : TokenomicParameters :=
  mkTokenomic (pha_rate t) (rho t) b (v_max t) (cost_k t) (cost_b t) (slash_rate t)
    (treasury_ratio t) (heartbeat_window t) (rig_k t) (rig_b t) (re t) (k_param t) (kappa t).

Inductive GatekeeperEvent :=
  | NewRandomNumber (block_number random_number last_random_number : Z)
  | TokenomicParametersChanged (params : TokenomicParameters)
  | RepairV_
  | PhalaLaunched_
  | UnrespFix_.

Inductive RegistryEvent :=
  | BenchReport (start_time iterations : Z)
  | MasterPubkey (master_pubkey : MasterPublicKey).

Inductive GatekeeperRegistryEvent :=
  | RotatedMasterPubkey (rotation_id : Z) (master_pubkey : MasterPublicKey).

Inductive AttestationProvider := ProvRoot | ProvIas | ProvDcap.

(** ** Registry pallet storage *)

Record WorkerInfoV2 := mkWorkerInfo {
  w_pubkey : WorkerPublicKey;
  w_ecdh_pubkey : EcdhPublicKey;
  w_runtime_version : Z;
  w_last_updated : Z;
  w_operator : option Account;
  w_attestation_provider : option AttestationProvider;
  w_confidence_level : Z;
  w_initial_score : option Z;
  w_features : list Z;
}.

Definition put_w_pubkey (v : WorkerPublicKey) (r : WorkerInfoV2) : WorkerInfoV2 := mkWorkerInfo v (w_ecdh_pubkey r) (w_runtime_version r) (w_last_updated r) (w_operator r) (w_attestation_provider r) (w_confidence_level r) (w_initial_score r) (w_features r).
Definition put_w_ecdh_pubkey (v : EcdhPublicKey) (r : WorkerInfoV2) : WorkerInfoV2 := mkWorkerInfo (w_pubkey r) v (w_runtime_version r) (w_last_updated r) (w_operator r) (w_attestation_provider r) (w_confidence_level r) (w_initial_score r) (w_features r).
Definition put_w_runtime_version (v : Z) (r : WorkerInfoV2) : WorkerInfoV2 := mkWorkerInfo (w_pubkey r) (w_ecdh_pubkey r) v (w_last_updated r) (w_operator r) (w_attestation_provider r) (w_confidence_level r) (w_initial_score r) (w_features r).
Definition put_w_last_updated (v : Z) (r : WorkerInfoV2) : WorkerInfoV2 := mkWorkerInfo (w_pubkey r) (w_ecdh_pubkey r) (w_runtime_version r) v (w_operator r) (w_attestation_provider r) (w_confidence_level r) (w_initial_score r) (w_features r).
Definition put_w_operator (v : option Account) (r : WorkerInfoV2) : WorkerInfoV2 := mkWorkerInfo (w_pubkey r) (w_ecdh_pubkey r) (w_runtime_version r) (w_last_updated r) v (w_attestation_provider r) (w_confidence_level r) (w_initial_score r) (w_features r).
Definition put_w_attestation_provider (v : option AttestationProvider) (r : WorkerInfoV2) : WorkerInfoV2 := mkWorkerInfo (w_pubkey r) (w_ecdh_pubkey r) (w_runtime_version r) (w_last_updated r) (w_operator r) v (w_confidence_level r) (w_initial_score r) (w_features r).
Definition put_w_confidence_level (v : Z) (r : WorkerInfoV2) : WorkerInfoV2 := mkWorkerInfo (w_pubkey r) (w_ecdh_pubkey r) (w_runtime_version r) (w_last_updated r) (w_operator r) (w_attestation_provider r) v (w_initial_score r) (w_features r).
Definition put_w_initial_score (v : option Z) (r : WorkerInfoV2) : WorkerInfoV2 := mkWorkerInfo (w_pubkey r) (w_ecdh_pubkey r) (w_runtime_version r) (w_last_updated r) (w_operator r) (w_attestation_provider r) (w_confidence_level r) v (w_features r).
Definition put_w_features (v : list Z) (r : WorkerInfoV2) : WorkerInfoV2 := mkWorkerInfo (w_pubkey r) (w_ecdh_pubkey r) (w_runtime_version r) (w_last_updated r) (w_operator r) (w_attestation_provider r) (w_confidence_level r) (w_initial_score r) v.

Record RegState := mkReg {
  gatekeepers : list WorkerPublicKey;
  gk_master_pubkey : option MasterPublicKey;
  gk_launched_at : option (BlockNumber * Z);
  rotation_counter : Z;
  rotation_lock : option Z;
  workers : gmap WorkerPublicKey WorkerInfoV2;
  worker_added_at : gmap WorkerPublicKey BlockNumber;
  contract_keys : gmap H256 Z;
  cluster_keys : gmap H256 Z;
  topic_key : gmap bytes bytes;
  benchmark_duration : option Z;
  pruntime_allowlist : list bytes;
  pruntime_added_at : gmap bytes BlockNumber;
  genesis_allowlist : list H256;
  endpoints : gmap WorkerPublicKey (list bytes);
  temp_workers_iter_key : option bytes;
  min_pruntime_version : Z * Z * Z;
  pruntime_consensus_version : Z;
  max_known_version : Z * Z; (** [KnownConsensusVersion]: version, count *)
  trusted_ntp_servers : list bytes;
}.

Definition put_gatekeepers (v : list WorkerPublicKey) (r : RegState) : RegState := mkReg v (gk_master_pubkey r) (gk_launched_at r) (rotation_counter r) (rotation_lock r) (workers r) (worker_added_at r) (contract_keys r) (cluster_keys r) (topic_key r) (benchmark_duration r) (pruntime_allowlist r) (pruntime_added_at r) (genesis_allowlist r) (endpoints r) (temp_workers_iter_key r) (min_pruntime_version r) (pruntime_consensus_version r) (max_known_version r) (trusted_ntp_servers r).
Definition put_gk_master_pubkey (v : option MasterPublicKey) (r : RegState) : RegState := mkReg (gatekeepers r) v (gk_launched_at r) (rotation_counter r) (rotation_lock r) (workers r) (worker_added_at r) (contract_keys r) (cluster_keys r) (topic_key r) (benchmark_duration r) (pruntime_allowlist r) (pruntime_added_at r) (genesis_allowlist r) (endpoints r) (temp_workers_iter_key r) (min_pruntime_version r) (pruntime_consensus_version r) (max_known_version r) (trusted_ntp_servers r).
Definition put_gk_launched_at (v : option (BlockNumber * Z)) (r : RegState) : RegState := mkReg (gatekeepers r) (gk_master_pubkey r) v (rotation_counter r) (rotation_lock r) (workers r) (worker_added_at r) (contract_keys r) (cluster_keys r) (topic_key r) (benchmark_duration r) (pruntime_allowlist r) (pruntime_added_at r) (genesis_allowlist r) (endpoints r) (temp_workers_iter_key r) (min_pruntime_version r) (pruntime_consensus_version r) (max_known_version r) (trusted_ntp_servers r).
Definition put_rotation_counter (v : Z) (r : RegState) : RegState := mkReg (gatekeepers r) (gk_master_pubkey r) (gk_launched_at r) v (rotation_lock r) (workers r) (worker_added_at r) (contract_keys r) (cluster_keys r) (topic_key r) (benchmark_duration r) (pruntime_allowlist r) (pruntime_added_at r) (genesis_allowlist r) (endpoints r) (temp_workers_iter_key r) (min_pruntime_version r) (pruntime_consensus_version r) (max_known_version r) (trusted_ntp_servers r).
Definition put_rotation_lock (v : option Z) (r : RegState) : RegState := mkReg (gatekeepers r) (gk_master_pubkey r) (gk_launched_at r) (rotation_counter r) v (workers r) (worker_added_at r) (contract_keys r) (cluster_keys r) (topic_key r) (benchmark_duration r) (pruntime_allowlist r) (pruntime_added_at r) (genesis_allowlist r) (endpoints r) (temp_workers_iter_key r) (min_pruntime_version r) (pruntime_consensus_version r) (max_known_version r) (trusted_ntp_servers r).
Definition put_workers (v : gmap WorkerPublicKey WorkerInfoV2) (r : RegState) : RegState := mkReg (gatekeepers r) (gk_master_pubkey r) (gk_launched_at r) (rotation_counter r) (rotation_lock r) v (worker_added_at r) (contract_keys r) (cluster_keys r) (topic_key r) (benchmark_duration r) (pruntime_allowlist r) (pruntime_added_at r) (genesis_allowlist r) (endpoints r) (temp_workers_iter_key r) (min_pruntime_version r) (pruntime_consensus_version r) (max_known_version r) (trusted_ntp_servers r).
Definition put_worker_added_at (v : gmap WorkerPublicKey BlockNumber) (r : RegState) : RegState := mkReg (gatekeepers r) (gk_master_pubkey r) (gk_launched_at r) (rotation_counter r) (rotation_lock r) (workers r) v (contract_keys r) (cluster_keys r) (topic_key r) (benchmark_duration r) (pruntime_allowlist r) (pruntime_added_at r) (genesis_allowlist r) (endpoints r) (temp_workers_iter_key r) (min_pruntime_version r) (pruntime_consensus_version r) (max_known_version r) (trusted_ntp_servers r).
Definition put_contract_keys (v : gmap H256 Z) (r : RegState) : RegState := mkReg (gatekeepers r) (gk_master_pubkey r) (gk_launched_at r) (rotation_counter r) (rotation_lock r) (workers r) (worker_added_at r) v (cluster_keys r) (topic_key r) (benchmark_duration r) (pruntime_allowlist r) (pruntime_added_at r) (genesis_allowlist r) (endpoints r) (temp_workers_iter_key r) (min_pruntime_version r) (pruntime_consensus_version r) (max_known_version r) (trusted_ntp_servers r).
Definition put_cluster_keys (v : gmap H256 Z) (r : RegState) : RegState := mkReg (gatekeepers r) (gk_master_pubkey r) (gk_launched_at r) (rotation_counter r) (rotation_lock r) (workers r) (worker_added_at r) (contract_keys r) v (topic_key r) (benchmark_duration r) (pruntime_allowlist r) (pruntime_added_at r) (genesis_allowlist r) (endpoints r) (temp_workers_iter_key r) (min_pruntime_version r) (pruntime_consensus_version r) (max_known_version r) (trusted_ntp_servers r).
Definition put_topic_key (v : gmap bytes bytes) (r : RegState) : RegState := mkReg (gatekeepers r) (gk_master_pubkey r) (gk_launched_at r) (rotation_counter r) (rotation_lock r) (workers r) (worker_added_at r) (contract_keys r) (cluster_keys r) v (benchmark_duration r) (pruntime_allowlist r) (pruntime_added_at r) (genesis_allowlist r) (endpoints r) (temp_workers_iter_key r) (min_pruntime_version r) (pruntime_consensus_version r) (max_known_version r) (trusted_ntp_servers r).
Definition put_benchmark_duration (v : option Z) (r : RegState) : RegState := mkReg (gatekeepers r) (gk_master_pubkey r) (gk_launched_at r) (rotation_counter r) (rotation_lock r) (workers r) (worker_added_at r) (contract_keys r) (cluster_keys r) (topic_key r) v (pruntime_allowlist r) (pruntime_added_at r) (genesis_allowlist r) (endpoints r) (temp_workers_iter_key r) (min_pruntime_version r) (pruntime_consensus_version r) (max_known_version r) (trusted_ntp_servers r).
Definition put_pruntime_allowlist (v : list bytes) (r : RegState) : RegState := mkReg (gatekeepers r) (gk_master_pubkey r) (gk_launched_at r) (rotation_counter r) (rotation_lock r) (workers r) (worker_added_at r) (contract_keys r) (cluster_keys r) (topic_key r) (benchmark_duration r) v (pruntime_added_at r) (genesis_allowlist r) (endpoints r) (temp_workers_iter_key r) (min_pruntime_version r) (pruntime_consensus_version r) (max_known_version r) (trusted_ntp_servers r).
Definition put_pruntime_added_at (v : gmap bytes BlockNumber) (r : RegState) : RegState := mkReg (gatekeepers r) (gk_master_pubkey r) (gk_launched_at r) (rotation_counter r) (rotation_lock r) (workers r) (worker_added_at r) (contract_keys r) (cluster_keys r) (topic_key r) (benchmark_duration r) (pruntime_allowlist r) v (genesis_allowlist r) (endpoints r) (temp_workers_iter_key r) (min_pruntime_version r) (pruntime_consensus_version r) (max_known_version r) (trusted_ntp_servers r).
Definition put_genesis_allowlist (v : list H256) (r : RegState) : RegState := mkReg (gatekeepers r) (gk_master_pubkey r) (gk_launched_at r) (rotation_counter r) (rotation_lock r) (workers r) (worker_added_at r) (contract_keys r) (cluster_keys r) (topic_key r) (benchmark_duration r) (pruntime_allowlist r) (pruntime_added_at r) v (endpoints r) (temp_workers_iter_key r) (min_pruntime_version r) (pruntime_consensus_version r) (max_known_version r) (trusted_ntp_servers r).
Definition put_endpoints (v : gmap WorkerPublicKey (list bytes)) (r : RegState) : RegState := mkReg (gatekeepers r) (gk_master_pubkey r) (gk_launched_at r) (rotation_counter r) (rotation_lock r) (workers r) (worker_added_at r) (contract_keys r) (cluster_keys r) (topic_key r) (benchmark_duration r) (pruntime_allowlist r) (pruntime_added_at r) (genesis_allowlist r) v (temp_workers_iter_key r) (min_pruntime_version r) (pruntime_consensus_version r) (max_known_version r) (trusted_ntp_servers r).
Definition put_temp_workers_iter_key (v : option bytes) (r : RegState) : RegState := mkReg (gatekeepers r) (gk_master_pubkey r) (gk_launched_at r) (rotation_counter r) (rotation_lock r) (workers r) (worker_added_at r) (contract_keys r) (cluster_keys r) (topic_key r) (benchmark_duration r) (pruntime_allowlist r) (pruntime_added_at r) (genesis_allowlist r) (endpoints r) v (min_pruntime_version r) (pruntime_consensus_version r) (max_known_version r) (trusted_ntp_servers r).
Definition put_min_pruntime_version (v : Z * Z * Z) (r : RegState) : RegState := mkReg (gatekeepers r) (gk_master_pubkey r) (gk_launched_at r) (rotation_counter r) (rotation_lock r) (workers r) (worker_added_at r) (contract_keys r) (cluster_keys r) (topic_key r) (benchmark_duration r) (pruntime_allowlist r) (pruntime_added_at r) (genesis_allowlist r) (endpoints r) (temp_workers_iter_key r) v (pruntime_consensus_version r) (max_known_version r) (trusted_ntp_servers r).
Definition put_pruntime_consensus_version (v : Z) (r : RegState) : RegState := mkReg (gatekeepers r) (gk_master_pubkey r) (gk_launched_at r) (rotation_counter r) (rotation_lock r) (workers r) (worker_added_at r) (contract_keys r) (cluster_keys r) (topic_key r) (benchmark_duration r) (pruntime_allowlist r) (pruntime_added_at r) (genesis_allowlist r) (endpoints r) (temp_workers_iter_key r) (min_pruntime_version r) v (max_known_version r) (trusted_ntp_servers r).
Definition put_max_known_version (v : Z * Z) (r : RegState) : RegState := mkReg (gatekeepers r) (gk_master_pubkey r) (gk_launched_at r) (rotation_counter r) (rotation_lock r) (workers r) (worker_added_at r) (contract_keys r) (cluster_keys r) (topic_key r) (benchmark_duration r) (pruntime_allowlist r) (pruntime_added_at r) (genesis_allowlist r) (endpoints r) (temp_workers_iter_key r) (min_pruntime_version r) (pruntime_consensus_version r) v (trusted_ntp_servers r).
Definition put_trusted_ntp_servers (v : list bytes) (r : RegState) : RegState := mkReg (gatekeepers r) (gk_master_pubkey r) (gk_launched_at r) (rotation_counter r) (rotation_lock r) (workers r) (worker_added_at r) (contract_keys r) (cluster_keys r) (topic_key r) (benchmark_duration r) (pruntime_allowlist r) (pruntime_added_at r) (genesis_allowlist r) (endpoints r) (temp_workers_iter_key r) (min_pruntime_version r) (pruntime_consensus_version r) (max_known_version r) v.

Inductive RegError :=
  | CannotHandleUnknownMessage | InvalidSender | InvalidPubKey | MalformedSignature
  | InvalidSignatureLength | InvalidSignature | UnknownContract
  | InvalidIASSigningCert | InvalidReport | InvalidQuoteStatus | BadIASReport
  | OutdatedIASReport | UnknownQuoteBodyFormat | InvalidDCAPQuote
  | InvalidRuntimeInfoHash | InvalidRuntimeInfo | InvalidInput | InvalidBenchReport
  | WorkerNotFound | NoneAttestationDisabled | InvalidGatekeeper | InvalidMasterPubkey
  | MasterKeyMismatch | MasterKeyUninitialized | GenesisBlockHashRejected
  | GenesisBlockHashAlreadyExists | GenesisBlockHashNotFound | PRuntimeRejected
  | PRuntimeAlreadyExists | PRuntimeNotFound | UnknownCluster | NotImplemented
  | CannotRemoveLastGatekeeper | MasterKeyInRotation | InvalidRotatedMasterPubkey
  | InvalidEndpointSigningTime | NotMigrationRoot | ParachainIdMismatch
  | InvalidConsensusVersion | UnsupportedAttestationType.

Inductive RegEvent :=
  | GatekeeperAdded (pubkey : WorkerPublicKey)
  | GatekeeperRemoved (pubkey : WorkerPublicKey)
  | WorkerAdded (pubkey : WorkerPublicKey) (prov : option AttestationProvider) (confidence : Z)
  | WorkerUpdated (pubkey : WorkerPublicKey) (prov : option AttestationProvider) (confidence : Z)
  | MasterKeyRotated (rotation_id : Z) (master : MasterPublicKey)
  | MasterKeyRotationFailed (lock : option Z) (gatekeeper_rotation_id : Z)
  | InitialScoreSet (pubkey : WorkerPublicKey) (init_score : Z)
  | MinimumPRuntimeVersionChangedTo (major minor patch : Z)
  | PRuntimeConsensusVersionChangedTo (version : Z)
  | GatekeeperLaunched.

(** ** Computation pallet storage *)

Inductive WorkerState := Ready | WorkerIdle | Unused | WorkerUnresponsive | WorkerCoolingDown.

#[global] Instance WorkerState_eq_dec : EqDecision WorkerState.
Proof. solve_decision. Defined.

Record Benchmark := mkBenchmark {
  p_init : Z;
  p_instant : Z;
  iterations : Z;
  working_start_time : Z;
  challenge_time_last : Z;
}.

Definition put_p_init (v : Z) (r : Benchmark) : Benchmark := mkBenchmark v (p_instant r) (iterations r) (working_start_time r) (challenge_time_last r).
Definition put_p_instant (v : Z) (r : Benchmark) : Benchmark := mkBenchmark (p_init r) v (iterations r) (working_start_time r) (challenge_time_last r).
Definition put_iterations (v : Z) (r : Benchmark) : Benchmark := mkBenchmark (p_init r) (p_instant r) v (working_start_time r) (challenge_time_last r).
Definition put_working_start_time (v : Z) (r : Benchmark) : Benchmark := mkBenchmark (p_init r) (p_instant r) (iterations r) v (challenge_time_last r).
Definition put_challenge_time_last (v : Z) (r : Benchmark) : Benchmark := mkBenchmark (p_init r) (p_instant r) (iterations r) (working_start_time r) v.

Record SessionInfo := mkSession {
  s_state : WorkerState;
  s_ve : FixedBits;
  s_v : FixedBits;
  s_v_updated_at : Z;
  s_benchmark : Benchmark;
  s_cool_down_start : Z;
  s_total_reward : Z; (** [stats.total_reward] *)
}.

Definition put_s_state (v : WorkerState) (r : SessionInfo) : SessionInfo := mkSession v (s_ve r) (s_v r) (s_v_updated_at r) (s_benchmark r) (s_cool_down_start r) (s_total_reward r).
Definition put_s_ve (v : FixedBits) (r : SessionInfo) : SessionInfo := mkSession (s_state r) v (s_v r) (s_v_updated_at r) (s_benchmark r) (s_cool_down_start r) (s_total_reward r).
Definition put_s_v (v : FixedBits) (r : SessionInfo) : SessionInfo := mkSession (s_state r) (s_ve r) v (s_v_updated_at r) (s_benchmark r) (s_cool_down_start r) (s_total_reward r).
Definition put_s_v_updated_at (v : Z) (r : SessionInfo) : SessionInfo := mkSession (s_state r) (s_ve r) (s_v r) v (s_benchmark r) (s_cool_down_start r) (s_total_reward r).
Definition put_s_benchmark (v : Benchmark) (r : SessionInfo) : SessionInfo := mkSession (s_state r) (s_ve r) (s_v r) (s_v_updated_at r) v (s_cool_down_start r) (s_total_reward r).
Definition put_s_cool_down_start (v : Z) (r : SessionInfo) : SessionInfo := mkSession (s_state r) (s_ve r) (s_v r) (s_v_updated_at r) (s_benchmark r) v (s_total_reward r).
Definition put_s_total_reward (v : Z) (r : SessionInfo) : SessionInfo := mkSession (s_state r) (s_ve r) (s_v r) (s_v_updated_at r) (s_benchmark r) (s_cool_down_start r) v.

Record CompState := mkComp {
  tokenomic_parameters : option TokenomicParameters;
  scheduled_tokenomic : option TokenomicParameters;
  online_workers : Z;
  expected_heartbeat_count : option Z;
  heartbeat_paused : bool;
  max_budget_limit : Z;
  budget_update_nonce : Z;
  last_budget_update_block : BlockNumber;
  contract_account : Account;
  sessions : gmap Account SessionInfo;
  session_bindings : gmap Account WorkerPublicKey;
  worker_bindings : gmap WorkerPublicKey Account;
  cool_down_period : Z;
  next_session_id : Z;
  computing_start_block : option BlockNumber;
  computing_halving_interval : option BlockNumber;
  stakes : gmap Account Balance;
}.

Definition put_tokenomic_parameters (v : option TokenomicParameters) (r : CompState) : CompState := mkComp v (scheduled_tokenomic r) (online_workers r) (expected_heartbeat_count r) (heartbeat_paused r) (max_budget_limit r) (budget_update_nonce r) (last_budget_update_block r) (contract_account r) (sessions r) (session_bindings r) (worker_bindings r) (cool_down_period r) (next_session_id r) (computing_start_block r) (computing_halving_interval r) (stakes r).
Definition put_scheduled_tokenomic (v : option TokenomicParameters) (r : CompState) : CompState := mkComp (tokenomic_parameters r) v (online_workers r) (expected_heartbeat_count r) (heartbeat_paused r) (max_budget_limit r) (budget_update_nonce r) (last_budget_update_block r) (contract_account r) (sessions r) (session_bindings r) (worker_bindings r) (cool_down_period r) (next_session_id r) (computing_start_block r) (computing_halving_interval r) (stakes r).
Definition put_online_workers (v : Z) (r : CompState) : CompState := mkComp (tokenomic_parameters r) (scheduled_tokenomic r) v (expected_heartbeat_count r) (heartbeat_paused r) (max_budget_limit r) (budget_update_nonce r) (last_budget_update_block r) (contract_account r) (sessions r) (session_bindings r) (worker_bindings r) (cool_down_period r) (next_session_id r) (computing_start_block r) (computing_halving_interval r) (stakes r).
Definition put_expected_heartbeat_count (v : option Z) (r : CompState) : CompState := mkComp (tokenomic_parameters r) (scheduled_tokenomic r) (online_workers r) v (heartbeat_paused r) (max_budget_limit r) (budget_update_nonce r) (last_budget_update_block r) (contract_account r) (sessions r) (session_bindings r) (worker_bindings r) (cool_down_period r) (next_session_id r) (computing_start_block r) (computing_halving_interval r) (stakes r).
Definition put_heartbeat_paused (v : bool) (r : CompState) : CompState := mkComp (tokenomic_parameters r) (scheduled_tokenomic r) (online_workers r) (expected_heartbeat_count r) v (max_budget_limit r) (budget_update_nonce r) (last_budget_update_block r) (contract_account r) (sessions r) (session_bindings r) (worker_bindings r) (cool_down_period r) (next_session_id r) (computing_start_block r) (computing_halving_interval r) (stakes r).
Definition put_max_budget_limit (v : Z) (r : CompState) : CompState := mkComp (tokenomic_parameters r) (scheduled_tokenomic r) (online_workers r) (expected_heartbeat_count r) (heartbeat_paused r) v (budget_update_nonce r) (last_budget_update_block r) (contract_account r) (sessions r) (session_bindings r) (worker_bindings r) (cool_down_period r) (next_session_id r) (computing_start_block r) (computing_halving_interval r) (stakes r).
Definition put_budget_update_nonce (v : Z) (r : CompState) : CompState := mkComp (tokenomic_parameters r) (scheduled_tokenomic r) (online_workers r) (expected_heartbeat_count r) (heartbeat_paused r) (max_budget_limit r) v (last_budget_update_block r) (contract_account r) (sessions r) (session_bindings r) (worker_bindings r) (cool_down_period r) (next_session_id r) (computing_start_block r) (computing_halving_interval r) (stakes r).
Definition put_last_budget_update_block (v : BlockNumber) (r : CompState) : CompState := mkComp (tokenomic_parameters r) (scheduled_tokenomic r) (online_workers r) (expected_heartbeat_count r) (heartbeat_paused r) (max_budget_limit r) (budget_update_nonce r) v (contract_account r) (sessions r) (session_bindings r) (worker_bindings r) (cool_down_period r) (next_session_id r) (computing_start_block r) (computing_halving_interval r) (stakes r).
Definition put_contract_account (v : Account) (r : CompState) : CompState := mkComp (tokenomic_parameters r) (scheduled_tokenomic r) (online_workers r) (expected_heartbeat_count r) (heartbeat_paused r) (max_budget_limit r) (budget_update_nonce r) (last_budget_update_block r) v (sessions r) (session_bindings r) (worker_bindings r) (cool_down_period r) (next_session_id r) (computing_start_block r) (computing_halving_interval r) (stakes r).
Definition put_sessions (v : gmap Account SessionInfo) (r : CompState) : CompState := mkComp (tokenomic_parameters r) (scheduled_tokenomic r) (online_workers r) (expected_heartbeat_count r) (heartbeat_paused r) (max_budget_limit r) (budget_update_nonce r) (last_budget_update_block r) (contract_account r) v (session_bindings r) (worker_bindings r) (cool_down_period r) (next_session_id r) (computing_start_block r) (computing_halving_interval r) (stakes r).
Definition put_session_bindings (v : gmap Account WorkerPublicKey) (r : CompState) : CompState := mkComp (tokenomic_parameters r) (scheduled_tokenomic r) (online_workers r) (expected_heartbeat_count r) (heartbeat_paused r) (max_budget_limit r) (budget_update_nonce r) (last_budget_update_block r) (contract_account r) (sessions r) v (worker_bindings r) (cool_down_period r) (next_session_id r) (computing_start_block r) (computing_halving_interval r) (stakes r).
Definition put_worker_bindings (v : gmap WorkerPublicKey Account) (r : CompState) : CompState := mkComp (tokenomic_parameters r) (scheduled_tokenomic r) (online_workers r) (expected_heartbeat_count r) (heartbeat_paused r) (max_budget_limit r) (budget_update_nonce r) (last_budget_update_block r) (contract_account r) (sessions r) (session_bindings r) v (cool_down_period r) (next_session_id r) (computing_start_block r) (computing_halving_interval r) (stakes r).
Definition put_cool_down_period (v : Z) (r : CompState) : CompState := mkComp (tokenomic_parameters r) (scheduled_tokenomic r) (online_workers r) (expected_heartbeat_count r) (heartbeat_paused r) (max_budget_limit r) (budget_update_nonce r) (last_budget_update_block r) (contract_account r) (sessions r) (session_bindings r) (worker_bindings r) v (next_session_id r) (computing_start_block r) (computing_halving_interval r) (stakes r).
Definition put_next_session_id (v : Z) (r : CompState) : CompState := mkComp (tokenomic_parameters r) (scheduled_tokenomic r) (online_workers r) (expected_heartbeat_count r) (heartbeat_paused r) (max_budget_limit r) (budget_update_nonce r) (last_budget_update_block r) (contract_account r) (sessions r) (session_bindings r) (worker_bindings r) (cool_down_period r) v (computing_start_block r) (computing_halving_interval r) (stakes r).
Definition put_computing_start_block (v : option BlockNumber) (r : CompState) : CompState := mkComp (tokenomic_parameters r) (scheduled_tokenomic r) (online_workers r) (expected_heartbeat_count r) (heartbeat_paused r) (max_budget_limit r) (budget_update_nonce r) (last_budget_update_block r) (contract_account r) (sessions r) (session_bindings r) (worker_bindings r) (cool_down_period r) (next_session_id r) v (computing_halving_interval r) (stakes r).
Definition put_computing_halving_interval (v : option BlockNumber) (r : CompState) : CompState := mkComp (tokenomic_parameters r) (scheduled_tokenomic r) (online_workers r) (expected_heartbeat_count r) (heartbeat_paused r) (max_budget_limit r) (budget_update_nonce r) (last_budget_update_block r) (contract_account r) (sessions r) (session_bindings r) (worker_bindings r) (cool_down_period r) (next_session_id r) (computing_start_block r) v (stakes r).
Definition put_stakes (v : gmap Account Balance) (r : CompState) : CompState := mkComp (tokenomic_parameters r) (scheduled_tokenomic r) (online_workers r) (expected_heartbeat_count r) (heartbeat_paused r) (max_budget_limit r) (budget_update_nonce r) (last_budget_update_block r) (contract_account r) (sessions r) (session_bindings r) (worker_bindings r) (cool_down_period r) (next_session_id r) (computing_start_block r) (computing_halving_interval r) v.

Inductive CompError :=
  | BadSender | InvalidMessage_ | WorkerNotRegistered | GatekeeperNotRegistered_ | DuplicateBoundSession | BenchmarkMissing
  | SessionNotFound | SessionNotBound | WorkerNotReady | WorkerNotComputing
  | WorkerNotBound | CoolDownNotReady | InsufficientStake | TooMuchStake
  | InternalErrorBadTokenomicParameters | DuplicateBoundWorker | BenchmarkTooLow
  | InternalErrorCannotStartWithExistingStake | CompNotMigrationRoot | NonceIndexInvalid
  | BudgetUpdateBlockInvalid | BudgetExceedMaxLimit | WorkerReregisterNeeded.

Inductive CompEvent :=
  | CoolDownExpirationChanged (period : Z)
  | WorkerStarted (session : Account) (init_v : FixedBits) (init_p : Z)
  | WorkerStopped (session : Account)
  | WorkerReclaimed (session : Account) (original_stake slashed : Balance)
  | SessionBound (session : Account) (worker : WorkerPublicKey)
  | SessionUnbound (session : Account) (worker : WorkerPublicKey)
  | WorkerEnterUnresponsive (session : Account)
  | WorkerExitUnresponsive (session : Account)
  | SessionSettled (session : Account) (v_bits payout_bits : FixedBits)
  | InternalErrorWorkerSettleFailed (worker : WorkerPublicKey)
  | SubsidyBudgetHalved
  | InternalErrorWrongHalvingConfigured
  | EvTokenomicParametersChanged
  | SessionSettlementDropped (session : Account) (v payout : FixedBits)
  | BenchmarkUpdated (session : Account) (p : Z)
  | BudgetUpdated (nonce budget : Z).

(** ** Message queue pallet storage *)

Record MqState := mkMq {
  offchain_ingress : gmap MessageOrigin Z;
  queued_outbound : option (list Message);
  outbound_messages : list Message;
}.

Definition put_offchain_ingress (v : gmap MessageOrigin Z) (r : MqState) : MqState := mkMq v (queued_outbound r) (outbound_messages r).
Definition put_queued_outbound (v : option (list Message)) (r : MqState) : MqState := mkMq (offchain_ingress r) v (outbound_messages r).
Definition put_outbound_messages (v : list Message) (r : MqState) : MqState := mkMq (offchain_ingress r) (queued_outbound r) v.

Inductive MqError := MqBadSender | BadSequence | BadDestination.

(** ** Pools: base pool, stake pool, vault and wrapped balances
    (pallets/phala/src/compute/base_pool.rs, pool_proxy.rs, stake_pool_v2.rs,
    vault.rs, wrapped_balances.rs) *)

Abbreviation CollectionId := Z (only parsing).
Abbreviation NftId := Z (only parsing).
(** [sp_runtime::Permill]: its parts per million *)
Abbreviation Permill := Z (only parsing).

Record WithdrawInfo := mkWithdraw {
  wd_user : Account;
  start_time : Z;
  wd_nft_id : NftId;
}.

Record NftAttr := mkAttr {
  shares : Balance;
}.

Record BasePool := mkBasePool {
  b_pid : Z;
  b_owner : Account;
  total_shares : Balance;
  total_value : Balance;
  withdraw_queue : list WithdrawInfo;
  value_subscribers : list Z;
  b_cid : CollectionId;
  pool_account_id : Account;
}.

Definition put_b_pid (v : Z) (r : BasePool) : BasePool := mkBasePool v (b_owner r) (total_shares r) (total_value r) (withdraw_queue r) (value_subscribers r) (b_cid r) (pool_account_id r).
Definition put_b_owner (v : Account) (r : BasePool) : BasePool := mkBasePool (b_pid r) v (total_shares r) (total_value r) (withdraw_queue r) (value_subscribers r) (b_cid r) (pool_account_id r).
Definition put_total_shares (v : Balance) (r : BasePool) : BasePool := mkBasePool (b_pid r) (b_owner r) v (total_value r) (withdraw_queue r) (value_subscribers r) (b_cid r) (pool_account_id r).
Definition put_total_value (v : Balance) (r : BasePool) : BasePool := mkBasePool (b_pid r) (b_owner r) (total_shares r) v (withdraw_queue r) (value_subscribers r) (b_cid r) (pool_account_id r).
Definition put_withdraw_queue (v : list WithdrawInfo) (r : BasePool) : BasePool := mkBasePool (b_pid r) (b_owner r) (total_shares r) (total_value r) v (value_subscribers r) (b_cid r) (pool_account_id r).
Definition put_value_subscribers (v : list Z) (r : BasePool) : BasePool := mkBasePool (b_pid r) (b_owner r) (total_shares r) (total_value r) (withdraw_queue r) v (b_cid r) (pool_account_id r).
Definition put_b_cid (v : CollectionId) (r : BasePool) : BasePool := mkBasePool (b_pid r) (b_owner r) (total_shares r) (total_value r) (withdraw_queue r) (value_subscribers r) v (pool_account_id r).
Definition put_pool_account_id (v : Account) (r : BasePool) : BasePool := mkBasePool (b_pid r) (b_owner r) (total_shares r) (total_value r) (withdraw_queue r) (value_subscribers r) (b_cid r) v.

Record StakePool := mkStakePool {
  sp_basepool : BasePool;
  payout_commission : option Permill;
  cap : option Balance;
  sp_workers : list WorkerPublicKey;
  cd_workers : list WorkerPublicKey;
  lock_account : Account;
  owner_reward_account : Account;
}.

Definition put_sp_basepool (v : BasePool) (r : StakePool) : StakePool := mkStakePool v (payout_commission r) (cap r) (sp_workers r) (cd_workers r) (lock_account r) (owner_reward_account r).
Definition put_payout_commission (v : option Permill) (r : StakePool) : StakePool := mkStakePool (sp_basepool r) v (cap r) (sp_workers r) (cd_workers r) (lock_account r) (owner_reward_account r).
Definition put_cap (v : option Balance) (r : StakePool) : StakePool := mkStakePool (sp_basepool r) (payout_commission r) v (sp_workers r) (cd_workers r) (lock_account r) (owner_reward_account r).
Definition put_sp_workers (v : list WorkerPublicKey) (r : StakePool) : StakePool := mkStakePool (sp_basepool r) (payout_commission r) (cap r) v (cd_workers r) (lock_account r) (owner_reward_account r).
Definition put_cd_workers (v : list WorkerPublicKey) (r : StakePool) : StakePool := mkStakePool (sp_basepool r) (payout_commission r) (cap r) (sp_workers r) v (lock_account r) (owner_reward_account r).
Definition put_lock_account (v : Account) (r : StakePool) : StakePool := mkStakePool (sp_basepool r) (payout_commission r) (cap r) (sp_workers r) (cd_workers r) v (owner_reward_account r).
Definition put_owner_reward_account (v : Account) (r : StakePool) : StakePool := mkStakePool (sp_basepool r) (payout_commission r) (cap r) (sp_workers r) (cd_workers r) (lock_account r) v.

Record Vault := mkVault {
  v_basepool : BasePool;
  last_share_price_checkpoint : Balance;
  commission : option Permill;
  owner_shares : Balance;
  invest_pools : list Z;
}.

Definition put_v_basepool (v : BasePool) (r : Vault) : Vault := mkVault v (last_share_price_checkpoint r) (commission r) (owner_shares r) (invest_pools r).
Definition put_last_share_price_checkpoint (v : Balance) (r : Vault) : Vault := mkVault (v_basepool r) v (commission r) (owner_shares r) (invest_pools r).
Definition put_commission (v : option Permill) (r : Vault) : Vault := mkVault (v_basepool r) (last_share_price_checkpoint r) v (owner_shares r) (invest_pools r).
Definition put_owner_shares (v : Balance) (r : Vault) : Vault := mkVault (v_basepool r) (last_share_price_checkpoint r) (commission r) v (invest_pools r).
Definition put_invest_pools (v : list Z) (r : Vault) : Vault := mkVault (v_basepool r) (last_share_price_checkpoint r) (commission r) (owner_shares r) v.

Inductive PoolProxy :=
  | PStakePool (p : StakePool)
  | PVault (v : Vault).

Record BpState := mkBp {
  next_nft_ids : gmap CollectionId NftId;
  lock_iterate_start_pos : option (CollectionId * NftId);
  pool_count : Z;
  pool_collections : gmap CollectionId Z;
  collection_index : CollectionId;
  pools : gmap Z PoolProxy;
  nft_locks : gset (CollectionId * NftId);
  pool_whitelists : gmap Z (list Account);
  pool_descriptions : gmap Z bytes;
  reimbursements : gmap (Account * Z) Balance;
}.

Definition put_next_nft_ids (v : gmap CollectionId NftId) (r : BpState) : BpState := mkBp v (lock_iterate_start_pos r) (pool_count r) (pool_collections r) (collection_index r) (pools r) (nft_locks r) (pool_whitelists r) (pool_descriptions r) (reimbursements r).
Definition put_lock_iterate_start_pos (v : option (CollectionId * NftId)) (r : BpState) : BpState := mkBp (next_nft_ids r) v (pool_count r) (pool_collections r) (collection_index r) (pools r) (nft_locks r) (pool_whitelists r) (pool_descriptions r) (reimbursements r).
Definition put_pool_count (v : Z) (r : BpState) : BpState := mkBp (next_nft_ids r) (lock_iterate_start_pos r) v (pool_collections r) (collection_index r) (pools r) (nft_locks r) (pool_whitelists r) (pool_descriptions r) (reimbursements r).
Definition put_pool_collections (v : gmap CollectionId Z) (r : BpState) : BpState := mkBp (next_nft_ids r) (lock_iterate_start_pos r) (pool_count r) v (collection_index r) (pools r) (nft_locks r) (pool_whitelists r) (pool_descriptions r) (reimbursements r).
Definition put_collection_index (v : CollectionId) (r : BpState) : BpState := mkBp (next_nft_ids r) (lock_iterate_start_pos r) (pool_count r) (pool_collections r) v (pools r) (nft_locks r) (pool_whitelists r) (pool_descriptions r) (reimbursements r).
Definition put_pools (v : gmap Z PoolProxy) (r : BpState) : BpState := mkBp (next_nft_ids r) (lock_iterate_start_pos r) (pool_count r) (pool_collections r) (collection_index r) v (nft_locks r) (pool_whitelists r) (pool_descriptions r) (reimbursements r).
Definition put_nft_locks (v : gset (CollectionId * NftId)) (r : BpState) : BpState := mkBp (next_nft_ids r) (lock_iterate_start_pos r) (pool_count r) (pool_collections r) (collection_index r) (pools r) v (pool_whitelists r) (pool_descriptions r) (reimbursements r).
Definition put_pool_whitelists (v : gmap Z (list Account)) (r : BpState) : BpState := mkBp (next_nft_ids r) (lock_iterate_start_pos r) (pool_count r) (pool_collections r) (collection_index r) (pools r) (nft_locks r) v (pool_descriptions r) (reimbursements r).
Definition put_pool_descriptions (v : gmap Z bytes) (r : BpState) : BpState := mkBp (next_nft_ids r) (lock_iterate_start_pos r) (pool_count r) (pool_collections r) (collection_index r) (pools r) (nft_locks r) (pool_whitelists r) v (reimbursements r).
Definition put_reimbursements (v : gmap (Account * Z) Balance) (r : BpState) : BpState := mkBp (next_nft_ids r) (lock_iterate_start_pos r) (pool_count r) (pool_collections r) (collection_index r) (pools r) (nft_locks r) (pool_whitelists r) (pool_descriptions r) v.

Inductive BpError :=
  | MissCollectionId | PoolBankrupt | InvalidShareToWithdraw | InvalidWithdrawalAmount | RmrkError
  | PoolDoesNotExist | PoolTypeNotMatch | NftIdNotFound | InvalidSharePrice | AttrLocked
  | UnauthorizedPoolOwner | AlreadyInContributeWhitelist | NotInContributeWhitelist
  | ExceedWhitelistMaxLen | NoWhitelistCreated | ExceedMaxDescriptionLen | BpNotMigrationRoot
  | BurnNftFailed | DeprecatedTransferSharesAmountInvalid | NoReimbursementToClaim
  | InternalSubsidyPoolCannotWithdraw.

Inductive BpEvent :=
  | NftCreated (pid : Z) (cid : CollectionId) (nft_id : NftId) (owner : Account) (shares : Balance)
  | WithdrawalQueued (pid : Z) (user : Account) (shares : Balance) (nft_id : NftId)
      (as_vault : option Z) (withdrawing_nft_id : NftId)
  | Withdrawal (pid : Z) (user : Account) (amount shares burnt_shares : Balance)
  | PoolWhitelistCreated (pid : Z)
  | PoolWhitelistDeleted (pid : Z)
  | PoolWhitelistStakerAdded (pid : Z) (staker : Account)
  | PoolWhitelistStakerRemoved (pid : Z) (staker : Account).

Record SpState := mkSp {
  legacy_rewards : gmap (Account * Z) Balance;
  worker_assignments : gmap WorkerPublicKey Z;
  sub_account_preimages : gmap Account (Z * WorkerPublicKey);
}.

Definition put_legacy_rewards (v : gmap (Account * Z) Balance) (r : SpState) : SpState := mkSp v (worker_assignments r) (sub_account_preimages r).
Definition put_worker_assignments (v : gmap WorkerPublicKey Z) (r : SpState) : SpState := mkSp (legacy_rewards r) v (sub_account_preimages r).
Definition put_sub_account_preimages (v : gmap Account (Z * WorkerPublicKey)) (r : SpState) : SpState := mkSp (legacy_rewards r) (worker_assignments r) v.

Inductive SpError :=
  | SpWorkerNotRegistered | SpBenchmarkMissing | WorkerExists | WorkerAlreadyStopped
  | WorkerDoesNotExist | WorkerInAnotherPool | UnauthorizedOperator | SpUnauthorizedPoolOwner
  | InadequateCapacity | StakeExceedsCapacity | SpPoolDoesNotExist | PoolIsBusy_
  | InsufficientContribution | NoNftToWithdraw | InsufficientBalance | PoolStakeNotFound
  | InsufficientFreeStake | SpInvalidWithdrawalAmount | FailedToBindSessionAndWorker
  | SpInternalSubsidyPoolCannotWithdraw | SpPoolBankrupt | NoRewardToClaim | FeatureNotEnabled
  | WorkersExceedLimit | CannotRestartWithLessStake | InvalidForceRewardAmount
  | WithdrawQueueNotEmpty | MissingCollectionId | VaultIsLocked | SessionDoesNotExist
  | WorkerIsNotReady | LockAccountStakeError | NoLegacyRewardToClaim.

Inductive SpEvent :=
  | SpPoolCreated (owner : Account) (pid : Z) (cid : CollectionId) (pool_account : Account)
  | PoolCommissionSet (pid commission : Z)
  | PoolCapacitySet (pid : Z) (cap : Balance)
  | PoolWorkerAdded (pid : Z) (worker : WorkerPublicKey) (session : Account)
  | SpContribution (pid : Z) (user : Account) (amount shares : Balance) (as_vault : option Z)
  | OwnerRewardsWithdrawn (pid : Z) (user : Account) (amount : Balance)
  | PoolSlashed (pid : Z) (amount : Balance)
  | SlashSettled (pid : Z) (user : Account) (amount : Balance)
  | RewardDismissedNotInPool (worker : WorkerPublicKey) (amount : Balance)
  | RewardDismissedNoShare (pid : Z) (amount : Balance)
  | RewardDismissedDust (pid : Z) (amount : Balance)
  | PoolWorkerRemoved (pid : Z) (worker : WorkerPublicKey)
  | SpWorkerReclaimed (pid : Z) (worker : WorkerPublicKey)
  | RewardReceived (pid : Z) (to_owner to_stakers : Balance)
  | WorkingStarted (pid : Z) (worker : WorkerPublicKey) (amount : Balance)
  | RewardToOwnerDismissedDust (pid : Z) (amount : Balance)
  | RewardToDistributionDismissedDust (pid : Z) (amount : Balance).

Inductive ForceShutdownReason := NoEnoughReleasingStake | Waiting3xGracePeriod.

Inductive VaultError :=
  | VtUnauthorizedPoolOwner | NoEnoughShareToClaim | VtNoRewardToClaim | AssetAccountNotExist
  | VtInsufficientBalance | VtInsufficientContribution | VaultBankrupt | VtNoNftToWithdraw
  | CommissionNotChanged.

Inductive VaultEvent :=
  | VtPoolCreated (owner : Account) (pid : Z) (cid : CollectionId) (pool_account : Account)
  | VaultCommissionSet (pid commission : Z)
  | OwnerSharesClaimed (pid : Z) (user : Account) (shares : Balance)
  | OwnerSharesGained (pid : Z) (shares checkout_price : Balance)
  | VtContribution (pid : Z) (user : Account) (amount shares : Balance)
  | ForceShutdown (pid : Z) (reason : ForceShutdownReason).

Record FinanceAccount := mkFinance {
  fa_invest_pools : list (Z * CollectionId);
  fa_locked : Balance;
}.

Record WbState := mkWb {
  vote_account_map : gmap Z (gmap Account (Balance * Balance));
  account_vote_map : gmap Account (gset Z);
  staker_accounts : gmap Account FinanceAccount;
  unmintable_dust : Balance;
}.

Definition put_vote_account_map (v : gmap Z (gmap Account (Balance * Balance))) (r : WbState) : WbState := mkWb v (account_vote_map r) (staker_accounts r) (unmintable_dust r).
Definition put_account_vote_map (v : gmap Account (gset Z)) (r : WbState) : WbState := mkWb (vote_account_map r) v (staker_accounts r) (unmintable_dust r).
Definition put_staker_accounts (v : gmap Account FinanceAccount) (r : WbState) : WbState := mkWb (vote_account_map r) (account_vote_map r) v (unmintable_dust r).
Definition put_unmintable_dust (v : Balance) (r : WbState) : WbState := mkWb (vote_account_map r) (account_vote_map r) (staker_accounts r) v.

Inductive WbError :=
  | StakerAccountNotFound | UnwrapAmountExceedsAvaliableStake | VoteAmountLargerThanTotalStakes
  | ReferendumInvalid | ReferendumOngoing | IterationsIsNotVaild.

Inductive WbEvent :=
  | DustRemoved (user : Account) (amount : Balance)
  | Wrapped (user : Account) (amount : Balance)
  | Unwrapped (user : Account) (amount : Balance)
  | Voted (user : Account) (vote_id aye_amount nay_amount : Z).

(** ** Phat contracts (phat.rs, phat_tokenomic.rs, crates/phala-types/src/contract.rs) *)

Record EncryptedKey := mkEncrypted { ek_ecdh_pubkey : Z; ek_encrypted_key : bytes; ek_iv : bytes }.

Record ClusterTerms := mkClusterTerms {
  ct_owner : Account;
  ct_cluster : H256;
  ct_deposit : Z;
  ct_gas_price : Z;
  ct_deposit_per_item : Z;
  ct_deposit_per_byte : Z;
  ct_treasury_account : Account;
}.
Inductive ClusterEvent := DeployCluster (terms : ClusterTerms) (workers : list WorkerIdentity).

Inductive ResourceType := InkCode | SidevmCode | IndeterministicInkCode.

Inductive ClusterOperation :=
  | DispatchKeys (terms : ClusterTerms) (secret_keys : list (WorkerPublicKey * EncryptedKey))
  | DestroyCluster (cluster : H256)
  | UploadResource (origin : Account) (cluster_id : H256) (resource_type : ResourceType) (resource_data : bytes)
  | Deposit (cluster_id : H256) (account : Account) (amount : Balance)
  | RemoveWorker (cluster_id : H256) (worker : WorkerPublicKey).

Inductive CodeIndex := WasmCode (code_hash : H256).

Record ContractInfo := mkContractInfo {
  ci_deployer : Account;
  ci_code_index : CodeIndex;
  ci_salt : bytes;
  ci_cluster_id : H256;
  ci_instantiate_data : bytes;
}.

Inductive ContractOperation :=
  | InstantiateCode (contract_info : ContractInfo) (transfer gas_limit : Z) (storage_deposit_limit : option Balance).

Inductive WorkerClusterReport :=
  | RepClusterDeployed (id : H256) (pubkey : Z)
  | RepClusterDeploymentFailed (id : H256).

Inductive ClusterRegistryEvent := ClusterPubkey (cluster : H256) (pubkey : Z).
Inductive ContractRegistryEvent := ContractPubkey (contract : H256) (pubkey : Z) (deployer : H256).

Inductive ClusterPermission := Public | OnlyOwner (owner : Account).

Record ClusterInfo := mkClusterInfo {
  cl_owner : Account;
  cl_permission : ClusterPermission;
  cl_system_contract : H256;
  cl_gas_price : Balance;
  cl_deposit_per_item : Balance;
  cl_deposit_per_byte : Balance;
}.

Record BasicContractInfo := mkBasicContract { bc_deployer : Account; bc_cluster : H256 }.

Record PhatState := mkPhat {
  contracts : gmap H256 BasicContractInfo;
  cluster_counter : Z;
  clusters : gmap H256 ClusterInfo;
  cluster_contracts : gmap H256 (list H256);
  cluster_workers : gmap H256 (list WorkerPublicKey);
  cluster_by_workers : gmap WorkerPublicKey H256;
  pink_system_code : Z * bytes;
  pink_system_code_hash : option H256;
  pink_runtime_version : option (Z * Z);
  next_pink_system_code : option bytes;
}.

Definition put_contracts (v : gmap H256 BasicContractInfo) (r : PhatState) : PhatState := mkPhat v (cluster_counter r) (clusters r) (cluster_contracts r) (cluster_workers r) (cluster_by_workers r) (pink_system_code r) (pink_system_code_hash r) (pink_runtime_version r) (next_pink_system_code r).
Definition put_cluster_counter (v : Z) (r : PhatState) : PhatState := mkPhat (contracts r) v (clusters r) (cluster_contracts r) (cluster_workers r) (cluster_by_workers r) (pink_system_code r) (pink_system_code_hash r) (pink_runtime_version r) (next_pink_system_code r).
Definition put_clusters (v : gmap H256 ClusterInfo) (r : PhatState) : PhatState := mkPhat (contracts r) (cluster_counter r) v (cluster_contracts r) (cluster_workers r) (cluster_by_workers r) (pink_system_code r) (pink_system_code_hash r) (pink_runtime_version r) (next_pink_system_code r).
Definition put_cluster_contracts (v : gmap H256 (list H256)) (r : PhatState) : PhatState := mkPhat (contracts r) (cluster_counter r) (clusters r) v (cluster_workers r) (cluster_by_workers r) (pink_system_code r) (pink_system_code_hash r) (pink_runtime_version r) (next_pink_system_code r).
Definition put_cluster_workers (v : gmap H256 (list WorkerPublicKey)) (r : PhatState) : PhatState := mkPhat (contracts r) (cluster_counter r) (clusters r) (cluster_contracts r) v (cluster_by_workers r) (pink_system_code r) (pink_system_code_hash r) (pink_runtime_version r) (next_pink_system_code r).
Definition put_cluster_by_workers (v : gmap WorkerPublicKey H256) (r : PhatState) : PhatState := mkPhat (contracts r) (cluster_counter r) (clusters r) (cluster_contracts r) (cluster_workers r) v (pink_system_code r) (pink_system_code_hash r) (pink_runtime_version r) (next_pink_system_code r).
Definition put_pink_system_code (v : Z * bytes) (r : PhatState) : PhatState := mkPhat (contracts r) (cluster_counter r) (clusters r) (cluster_contracts r) (cluster_workers r) (cluster_by_workers r) v (pink_system_code_hash r) (pink_runtime_version r) (next_pink_system_code r).
Definition put_pink_system_code_hash (v : option H256) (r : PhatState) : PhatState := mkPhat (contracts r) (cluster_counter r) (clusters r) (cluster_contracts r) (cluster_workers r) (cluster_by_workers r) (pink_system_code r) v (pink_runtime_version r) (next_pink_system_code r).
Definition put_pink_runtime_version (v : option (Z * Z)) (r : PhatState) : PhatState := mkPhat (contracts r) (cluster_counter r) (clusters r) (cluster_contracts r) (cluster_workers r) (cluster_by_workers r) (pink_system_code r) (pink_system_code_hash r) v (next_pink_system_code r).
Definition put_next_pink_system_code (v : option bytes) (r : PhatState) : PhatState := mkPhat (contracts r) (cluster_counter r) (clusters r) (cluster_contracts r) (cluster_workers r) (cluster_by_workers r) (pink_system_code r) (pink_system_code_hash r) (pink_runtime_version r) v.

Inductive PhatError :=
  | CodeNotFound | ClusterNotFound | ClusterNotDeployed | ClusterPermissionDenied | DuplicatedContract
  | DuplicatedDeployment | NoWorkerSpecified | PhInvalidSender | PhWorkerNotFound | PayloadTooLarge
  | NoPinkSystemCode | ContractNotFound | WorkerIsBusy.

Inductive PhatEvent :=
  | ClusterCreated (cluster : H256) (system_contract : H256)
  | ClusterPubkeyAvailable (cluster : H256) (pubkey : Z)
  | ClusterDeployed (cluster : H256) (pubkey : Z) (worker : WorkerPublicKey)
  | ClusterDeploymentFailed (cluster : H256) (worker : WorkerPublicKey)
  | Instantiating (contract cluster : H256) (deployer : Account)
  | ContractPubkeyAvailable (contract cluster : H256) (pubkey : Z)
  | Instantiated (contract cluster : H256) (deployer : H256)
  | ClusterDestroyed (cluster : H256)
  | Transfered (cluster : H256) (account : Account) (amount : Balance)
  | WorkerAddedToCluster (worker : WorkerPublicKey) (cluster : H256)
  | WorkerRemovedFromCluster (worker : WorkerPublicKey) (cluster : H256).

Record PtState := mkPt {
  contract_user_stakes : gmap (Account * H256) Balance;
  contract_total_stakes : gmap H256 Balance;
  min_stake : Balance;
}.

Definition put_contract_user_stakes (v : gmap (Account * H256) Balance) (r : PtState) : PtState := mkPt v (contract_total_stakes r) (min_stake r).
Definition put_contract_total_stakes (v : gmap H256 Balance) (r : PtState) : PtState := mkPt (contract_user_stakes r) v (min_stake r).
Definition put_min_stake (v : Balance) (r : PtState) : PtState := mkPt (contract_user_stakes r) (contract_total_stakes r) v.

Inductive PtError := InvalidAmountOfStake.

Inductive PtEvent :=
  | ContractDepositChanged (cluster : option H256) (contract : H256) (deposit : Balance)
  | UserStakeChanged (cluster : option H256) (account : Account) (contract : H256) (stake : Balance).

(** ** The rollup anchor and the oracle (pallets/offchain-rollup) *)

Record PriceQuote := mkQuote { pq_contract_id : H256; pq_price : Z; pq_timestamp_ms : Z }.

Record AnchorState := mkAnchor {
  submitter_by_names : gmap H256 Account;
  anchor_states : gmap (H256 * bytes) bytes;
  price_feeds : gmap (Account * bytes) PriceQuote;
}.

Definition put_submitter_by_names (v : gmap H256 Account) (r : AnchorState) : AnchorState := mkAnchor v (anchor_states r) (price_feeds r).
Definition put_anchor_states (v : gmap (H256 * bytes) bytes) (r : AnchorState) : AnchorState := mkAnchor (submitter_by_names r) v (price_feeds r).
Definition put_price_feeds (v : gmap (Account * bytes) PriceQuote) (r : AnchorState) : AnchorState := mkAnchor (submitter_by_names r) (anchor_states r) v.

Inductive AnchorError :=
  | NameAlreadyClaimed | NameNotExist | NotOwner | CondNotMet | FailedToDecodeAction | QueueIsFull | InvalidQueueHead.
Inductive OracleError := FailedToAuthenticateResponse | FailedToDecodeResponse.

Inductive AnchorEvent :=
  | NameClaimed (submitter : Account) (name : H256)
  | RollupExecuted (submitter : Account) (name : H256) (nonce : Z)
  | QuoteReceived (contract : H256) (submitter owner : Account) (pair : bytes) (price : Z).

(** ** The whole storage *)

Inductive Event :=
  | EvReg (e : RegEvent)
  | EvComp (e : CompEvent)
  | EvBp (e : BpEvent)
  | EvSp (e : SpEvent)
  | EvVt (e : VaultEvent)
  | EvWb (e : WbEvent)
  | EvPhat (e : PhatEvent)
  | EvPt (e : PtEvent)
  | EvAnchor (e : AnchorEvent).

Inductive DispatchError :=
  | BadOrigin
  | OtherError
  | ExtError (** raised by a pallet outside the repository *)
  | MqErr (e : MqError)
  | RegErr (e : RegError)
  | CompErr (e : CompError)
  | BpErr (e : BpError)
  | SpErr (e : SpError)
  | VtErr (e : VaultError)
  | WbErr (e : WbError)
  | PhErr (e : PhatError)
  | PtErr (e : PtError)
  | AnErr (e : AnchorError)
  | OrErr (e : OracleError).

Section storage.
Context {X : Type}.

Record Storage := mkStorage {
  mq : MqState;
  reg : RegState;
  comp : CompState;
  bp : BpState;
  sp : SpState;
  vault_locks : gset Z;
  wb : WbState;
  phat : PhatState;
  pt : PtState;
  anchor : AnchorState;
  events : list Event;
  ext : X;
}.

Definition put_mq (v : MqState) (r : Storage) : Storage := mkStorage v (reg r) (comp r) (bp r) (sp r) (vault_locks r) (wb r) (phat r) (pt r) (anchor r) (events r) (ext r).
Definition put_reg (v : RegState) (r : Storage) : Storage := mkStorage (mq r) v (comp r) (bp r) (sp r) (vault_locks r) (wb r) (phat r) (pt r) (anchor r) (events r) (ext r).
Definition put_comp (v : CompState) (r : Storage) : Storage := mkStorage (mq r) (reg r) v (bp r) (sp r) (vault_locks r) (wb r) (phat r) (pt r) (anchor r) (events r) (ext r).
Definition put_bp (v : BpState) (r : Storage) : Storage := mkStorage (mq r) (reg r) (comp r) v (sp r) (vault_locks r) (wb r) (phat r) (pt r) (anchor r) (events r) (ext r).
Definition put_sp (v : SpState) (r : Storage) : Storage := mkStorage (mq r) (reg r) (comp r) (bp r) v (vault_locks r) (wb r) (phat r) (pt r) (anchor r) (events r) (ext r).
Definition put_vault_locks (v : gset Z) (r : Storage) : Storage := mkStorage (mq r) (reg r) (comp r) (bp r) (sp r) v (wb r) (phat r) (pt r) (anchor r) (events r) (ext r).
Definition put_wb (v : WbState) (r : Storage) : Storage := mkStorage (mq r) (reg r) (comp r) (bp r) (sp r) (vault_locks r) v (phat r) (pt r) (anchor r) (events r) (ext r).
Definition put_phat (v : PhatState) (r : Storage) : Storage := mkStorage (mq r) (reg r) (comp r) (bp r) (sp r) (vault_locks r) (wb r) v (pt r) (anchor r) (events r) (ext r).
Definition put_pt (v : PtState) (r : Storage) : Storage := mkStorage (mq r) (reg r) (comp r) (bp r) (sp r) (vault_locks r) (wb r) (phat r) v (anchor r) (events r) (ext r).
Definition put_anchor (v : AnchorState) (r : Storage) : Storage := mkStorage (mq r) (reg r) (comp r) (bp r) (sp r) (vault_locks r) (wb r) (phat r) (pt r) v (events r) (ext r).
Definition put_events (v : list Event) (r : Storage) : Storage := mkStorage (mq r) (reg r) (comp r) (bp r) (sp r) (vault_locks r) (wb r) (phat r) (pt r) (anchor r) v (ext r).
Definition put_ext (v : X) (r : Storage) : Storage := mkStorage (mq r) (reg r) (comp r) (bp r) (sp r) (vault_locks r) (wb r) (phat r) (pt r) (anchor r) (events r) v.

Definition upd_mq (f : MqState -> MqState) (s : Storage) : Storage := put_mq (f (mq s)) s.
Definition upd_reg (f : RegState -> RegState) (s : Storage) : Storage := put_reg (f (reg s)) s.
Definition upd_comp (f : CompState -> CompState) (s : Storage) : Storage := put_comp (f (comp s)) s.
Definition upd_bp (f : BpState -> BpState) (s : Storage) : Storage := put_bp (f (bp s)) s.
Definition upd_sp (f : SpState -> SpState) (s : Storage) : Storage := put_sp (f (sp s)) s.
Definition upd_wb (f : WbState -> WbState) (s : Storage) : Storage := put_wb (f (wb s)) s.
Definition upd_phat (f : PhatState -> PhatState) (s : Storage) : Storage := put_phat (f (phat s)) s.
Definition upd_pt (f : PtState -> PtState) (s : Storage) : Storage := put_pt (f (pt s)) s.
Definition upd_anchor (f : AnchorState -> AnchorState) (s : Storage) : Storage := put_anchor (f (anchor s)) s.
End storage.
Arguments Storage : clear implicits.

(** A handler of the chain. *)
Abbreviation H X := (M (Storage X) DispatchError).

Definition deposit_event {X} (e : Event) : H X unit :=
  modify (fun s => put_events (events s ++ [e]) s).

(** What a call is dispatched with: the FRAME origin. *)
Inductive Origin := Root | Signed (who : Account) | NoOrigin.

Definition ensure_signed {X} (o : Origin) : H X Account :=
  match o with Signed who => mret who | _ => fail BadOrigin end.
Definition ensure_root {X} (o : Origin) : H X unit :=
  match o with Root => mret tt | _ => fail BadOrigin end.

(** The block being executed: its timestamp and number. *)
Class BlockEnv := { now_ms : Z; block_number : BlockNumber }.

(** [UnixTime::now().as_secs()] *)
Definition now_sec `{BlockEnv} : Z := now_ms / 1000.
