(* ===== verification/MqPallet.v ===== *)
(** * The message queue pallet (pallets/phala/src/mq.rs, mq/check_seq.rs)

    Ingress of signed off-chain messages with per-sender sequence numbers,
    egress to the off-chain components, and the signed extension that orders
    ingress transactions in the pool. The part of the registry the queue calls
    ([check_message], registry.rs) is here too, since the registry in turn
    pushes messages. *)

From S2P Require Import Prelude MqTypes Storage.

(** ** Signature checking (registry.rs, phala-types) *)

Inductive SignedContentType :=
  | MqMessage | RpcResponse | EndpointInfo | MasterKeyRotation | MasterKeyStore
  | ClusterStateRequest | EventChainBlock.

Definition content_type_byte (t : SignedContentType) : byte :=
  match t with
  | MqMessage => 0 | RpcResponse => 1 | EndpointInfo => 2 | MasterKeyRotation => 3
  | MasterKeyStore => 4 | ClusterStateRequest => 5 | EventChainBlock => 6
  end.

Definition wrap_content_to_sign (data : bytes) (t : SignedContentType) : bytes :=
  match t with
  | MqMessage => data
  | _ => 255 :: content_type_byte t :: data
  end.

(** sp_core / sp_io: [Signature::try_from] accepts exactly the 64-byte slices. *)
Class Sr25519 := {
  sr25519_signature : bytes -> option bytes;
  sr25519_verify : bytes -> bytes -> Z -> bool;
  sr25519_signature_64 : forall b, length b = 64%nat -> sr25519_signature b = Some b;
}.

(** [QueueNotifyConfig]: what the runtime does with a message it received. *)
Class QueueNotifyConfig (X : Type) := {
  should_push_message : Message -> bool;
  on_message_received : Message -> H X unit;
}.

(** The trait's default methods, [impl QueueNotifyConfig for ()]. *)
Definition default_notify X : QueueNotifyConfig X := {|
  should_push_message m := topic_is_offchain (destination m);
  on_message_received _ := mret tt;
|}.

Section pallet.
Context {X : Type} `{!MqCodec} `{!Sr25519} `{!QueueNotifyConfig X}.

Definition verify_signature (pubkey : Z) (m : SignedMessage) : H X unit :=
  ensure (Nat.eqb (length (signature m)) 64) (RegErr InvalidSignatureLength);;
  sig ← ok_or (sr25519_signature (signature m)) (RegErr MalformedSignature);
  let data := wrap_content_to_sign (data_be_signed m) MqMessage in
  ensure (sr25519_verify sig data pubkey) (RegErr InvalidSignature).

(** The key a sender's messages are checked against. *)
Definition sender_key (s : SenderId) : H X Z :=
  st ← gets reg;
  match s with
  | Worker pubkey => mret pubkey
  | Cluster id => ok_or (cluster_keys st !! id) (RegErr UnknownCluster)
  | Contract id => ok_or (contract_keys st !! id) (RegErr UnknownContract)
  | Gatekeeper => ok_or (gk_master_pubkey st) (RegErr MasterKeyUninitialized)
  | _ => fail (RegErr CannotHandleUnknownMessage)
  end.

Definition check_message (m : SignedMessage) : H X unit :=
  pubkey ← sender_key (sender (message m));
  verify_signature pubkey m.

(** ** Egress *)

(** [dispatch_message]: the subscribers' error is dropped, their writes stay. *)
Definition notify_subscribers (m : Message) : H X unit := fun s =>
  match on_message_received m s with
  | Ok _ s' | Err _ s' => Ok tt s'
  | Panic => Panic
  end.

Definition dispatch_message (m : Message) : H X unit :=
  notify_subscribers m;;
  if should_push_message m then
    modify (upd_mq (fun q => put_outbound_messages (outbound_messages q ++ [m]) q))
  else mret tt.

Definition push_message_to (topic : Path) (s : SenderId) (p : bytes) : H X unit :=
  dispatch_message (message_new s topic p).

Definition queue_bound_message (topic : Path) (s : SenderId) (p : bytes) : H X unit :=
  modify (upd_mq (fun q =>
    put_queued_outbound (Some (default [] (queued_outbound q) ++ [message_new s topic p])) q)).

Definition on_initialize : H X unit :=
  modify (upd_mq (put_outbound_messages []));;
  q ← gets mq;
  modify (upd_mq (put_queued_outbound None));;
  match queued_outbound q with
  | Some msgs => for_each msgs dispatch_message
  | None => mret tt
  end.

(** ** Calls *)

Definition ingress_of (s : Storage X) (o : SenderId) : Z :=
  default 0 (offchain_ingress (mq s) !! o).

Definition sync_offchain_message (origin : Origin) (sm : SignedMessage) : H X unit :=
  _ ← ensure_signed origin;
  let sndr := sender (message sm) in
  ensure (is_offchain sndr) (MqErr MqBadSender);;
  ensure (topic_is_valid (destination (message sm))) (MqErr BadDestination);;
  expected_seq ← gets (fun s => ingress_of s sndr);
  ensure (sequence sm =? expected_seq) (MqErr BadSequence);;
  check_message sm;;
  modify (upd_mq (fun q =>
    put_offchain_ingress (<[ sndr := expected_seq +[64] 1 ]> (offchain_ingress q)) q));;
  dispatch_message (message sm).

Definition push_message (origin : Origin) (dest : Path) (p : bytes) : H X unit :=
  who ← ensure_signed origin;
  dispatch_message (message_new (AccountId who) dest p).

Definition FORCE_PUSHED : bytes := bs "ForcePushed".

Definition force_push_pallet_message (origin : Origin) (dest : Path) (p : bytes) : H X unit :=
  ensure_root origin;;
  dispatch_message (message_new (Pallet FORCE_PUSHED) dest p).

(** ** [CheckMqSequence]: the transaction pool's view *)

Inductive InvalidTransaction := Stale | Future.

Record ValidTransaction := mkValid {
  provides : list (SenderId * Z); (** the tags, before encoding *)
  requires : list (SenderId * Z);
}.

(** A call, as far as the extension matches it. *)
Inductive call :=
  | CallSync (sm : SignedMessage)
  | CallOther.

Definition pre_dispatch (s : Storage X) (c : call) : InvalidTransaction + unit :=
  match c with
  | CallOther => inr tt
  | CallSync sm =>
      let expected_seq := ingress_of s (sender (message sm)) in
      if negb (sequence sm =? expected_seq) then
        inl (if sequence sm <? expected_seq then Stale else Future)
      else inr tt
  end.

Definition validate (s : Storage X) (c : call) : InvalidTransaction + ValidTransaction :=
  match c with
  | CallOther => inr (mkValid [] [])
  | CallSync sm =>
      let sndr := sender (message sm) in
      let expected_seq := ingress_of s sndr in
      if sequence sm <? expected_seq then inl Stale
      else
        inr (mkValid [(sndr, sequence sm)]
          (if expected_seq <? sequence sm then [(sndr, sequence sm - 1)] else []))
  end.
End pallet.

(** ** What the queue asks of the runtime's subscribers

    They never rewind or advance an ingress counter: only
    [sync_offchain_message] writes it. *)
Class NotifyKeepsIngress (X : Type) `{!QueueNotifyConfig X} : Prop :=
  notify_keeps_ingress : forall m (s : Storage X),
    match on_message_received m s with
    | Ok _ s' | Err _ s' => offchain_ingress (mq s') = offchain_ingress (mq s)
    | Panic => True
    end.

(** Subscribers that do nothing on a message. *)
Definition notify_ignores {X} `{!QueueNotifyConfig X} (m : Message) : Prop :=
  forall s : Storage X, on_message_received m s = Ok tt s.

#[global] Instance default_notify_keeps X : NotifyKeepsIngress X (QueueNotifyConfig0 := default_notify X).
Proof. intros m s. reflexivity. Qed.

Section lemmas.
Context {X : Type} `{!MqCodec} `{!Sr25519} `{!QueueNotifyConfig X} `{!NotifyKeepsIngress X}.
Implicit Types (s : Storage X) (sm : SignedMessage).

Lemma verify_signature_pure pk sm s :
  verify_signature pk sm s = Ok tt s \/ exists e, verify_signature pk sm s = Err e s.
Proof. unfold verify_signature. mrun; eauto. Qed.

Lemma sender_key_pure o s :
  (exists k, sender_key o s = Ok k s) \/ exists e, sender_key o s = Err e s.
Proof. unfold sender_key. destruct o; mrun; eauto. Qed.

Lemma check_message_pure sm s :
  check_message sm s = Ok tt s \/ exists e, check_message sm s = Err e s.
Proof.
  unfold check_message, mbind, M_bind.
  destruct (sender_key_pure (sender (message sm)) s) as [[k ->]|[e ->]]; [|by eauto].
  apply verify_signature_pure.
Qed.

(** [dispatch_message] returns normally unless a subscriber panics, and leaves
    the ingress alone. *)
Lemma dispatch_message_run m s :
  match on_message_received m s with
  | Panic => dispatch_message m s = Panic
  | _ => exists s', dispatch_message m s = Ok tt s' /\ offchain_ingress (mq s') = offchain_ingress (mq s)
  end.
Proof.
  unfold dispatch_message, notify_subscribers. pose proof (notify_keeps_ingress m s) as Hk.
  unfold mbind, M_bind. destruct (on_message_received m s), (should_push_message m); cbn; eauto; done.
Qed.

(** When the subscribers ignore [m], dispatching it appends it to the outbound
    messages exactly when it is to be pushed, and does nothing else. *)
Lemma dispatch_message_ignored m s :
  notify_ignores m ->
  dispatch_message m s =
    Ok tt (if should_push_message m
           then upd_mq (fun q => put_outbound_messages (outbound_messages q ++ [m]) q) s else s).
Proof.
  intros Hi. unfold dispatch_message, notify_subscribers, mbind, M_bind. rewrite Hi.
  by destruct (should_push_message m).
Qed.

Lemma dispatch_all_ignored (msgs : list Message) s :
  (forall m, m ∈ msgs -> notify_ignores m) ->
  for_each msgs dispatch_message s =
    Ok tt (upd_mq (fun q => put_outbound_messages
             (outbound_messages q ++ filter (fun m => should_push_message m = true) msgs) q) s).
Proof.
  revert s. induction msgs as [|m msgs IH]; intros s Hi; cbn.
  - destruct s as [[] ? ? ? ?]. unfold upd_mq, put_mq, put_outbound_messages. cbn. by rewrite app_nil_r.
  - unfold mbind, M_bind. rewrite dispatch_message_ignored by (apply Hi; left).
    rewrite IH by (intros; apply Hi; by right). f_equal.
    destruct s as [[] ? ? ? ?], (should_push_message m) eqn:E; cbn;
      unfold upd_mq, put_mq, put_outbound_messages; cbn.
    + rewrite decide_True by done. by rewrite <- app_assoc.
    + by rewrite decide_False by congruence.
Qed.

(** The guards of [sync_offchain_message], in the order the code checks them. *)
Definition sync_guard (origin : Origin) (sm : SignedMessage) (s : Storage X) : option DispatchError :=
  match origin with
  | Signed _ =>
      if negb (is_offchain (sender (message sm))) then Some (MqErr MqBadSender)
      else if negb (topic_is_valid (destination (message sm))) then Some (MqErr BadDestination)
      else if negb (sequence sm =? ingress_of s (sender (message sm))) then Some (MqErr BadSequence)
      else match check_message sm s with Err e _ => Some e | _ => None end
  | _ => Some BadOrigin
  end.

(** The storage the subscribers of an accepted message see *)
Definition counted (sm : SignedMessage) (s : Storage X) : Storage X :=
  upd_mq (fun q => put_offchain_ingress
    (<[ sender (message sm) := ingress_of s (sender (message sm)) +[64] 1 ]> (offchain_ingress q)) q) s.

Lemma sync_run origin sm s :
  match sync_guard origin sm s with
  | Some e => sync_offchain_message origin sm s = Err e s
  | None =>
      match on_message_received (message sm) (counted sm s) with
      | Panic => sync_offchain_message origin sm s = Panic
      | _ => exists s', sync_offchain_message origin sm s = Ok tt s' /\
          offchain_ingress (mq s') = offchain_ingress (mq (counted sm s))
      end
  end.
Proof.
  unfold sync_guard, sync_offchain_message, ensure_signed.
  destruct origin as [|who|]; [done| |done].
  destruct (is_offchain (sender (message sm))) eqn:E1; [|mrun; done].
  destruct (topic_is_valid (destination (message sm))) eqn:E2; [|mrun; done].
  destruct (sequence sm =? ingress_of s (sender (message sm))) eqn:E3; [|mrun; done].
  cbn [negb]. mred. rewrite E3. mred.
  destruct (check_message_pure sm s) as [E|[e E]]; rewrite E; [|done].
  exact (dispatch_message_run (message sm) (counted sm s)).
Qed.

Lemma sync_Ok_ingress origin sm s s' :
  sync_offchain_message origin sm s = Ok tt s' ->
  sync_guard origin sm s = None /\ sequence sm = ingress_of s (sender (message sm)) /\
  offchain_ingress (mq s') =
    <[ sender (message sm) := ingress_of s (sender (message sm)) +[64] 1 ]> (offchain_ingress (mq s)).
Proof.
  intros H. pose proof (sync_run origin sm s) as Hr.
  destruct (sync_guard origin sm s) eqn:G; [congruence|].
  assert (offchain_ingress (mq s') = offchain_ingress (mq (counted sm s))) as Hi.
  { destruct (on_message_received _ _); [|..|congruence]; destruct Hr as (s'' & E & Hi); congruence. }
  split; [done|]. split; [|exact Hi].
  unfold sync_guard in G. destruct origin; simplify_eq. repeat case_match; simplify_eq; b2p; lia.
Qed.

(** [sync_offchain_message] accepts a message exactly when its sender is off
    chain, its destination valid, its sequence the expected one and its
    signature good; it then advances that sender's counter by one and no
    other. On every error the storage is untouched, and it panics only when a
    subscriber of the message does. *)
Theorem sync_offchain_message_spec origin sm s :
  match sync_guard origin sm s with
  | Some e => sync_offchain_message origin sm s = Err e s
  | None =>
      match on_message_received (message sm) (counted sm s) with
      | Panic => sync_offchain_message origin sm s = Panic
      | _ => exists s', sync_offchain_message origin sm s = Ok tt s' /\
          offchain_ingress (mq s') =
            <[ sender (message sm) := ingress_of s (sender (message sm)) +[64] 1 ]>
              (offchain_ingress (mq s))
      end
  end.
Proof. apply sync_run. Qed.

(** An accepted message can never be accepted again: a second submission,
    by anyone, fails with [BadSequence] and changes nothing. *)
Theorem sync_replay_rejected origin sm s s' who :
  sync_offchain_message origin sm s = Ok tt s' -> 0 <= sequence sm < 2 ^ 64 - 1 ->
  sync_offchain_message (Signed who) sm s' = Err (MqErr BadSequence) s'.
Proof.
  intros (G & Hseq & Hing)%sync_Ok_ingress Hb. pose proof (sync_run (Signed who) sm s') as Hr.
  assert (ingress_of s' (sender (message sm)) = sequence sm + 1) as E.
  { unfold ingress_of. rewrite Hing, lookup_insert_eq. cbn. rewrite Hseq in *. apply wrap_add_small. lia. }
  unfold sync_guard in G, Hr. destruct origin; try done.
  destruct (is_offchain _); [|done]. destruct (topic_is_valid _); [|done]. cbn in Hr.
  rewrite E in Hr. destruct (sequence sm =? sequence sm + 1) eqn:E'; b2p; [lia|]. done.
Qed.

(** The pool extension and the call agree. A message that passes
    [pre_dispatch] is never refused for its sequence; one that [validate] keeps
    is either ready (it requires nothing) or waits for exactly the tag that its
    predecessor, itself kept by [validate], provides; stale ones are dropped by
    both. *)
Theorem check_mq_sequence_spec sm prev s :
  sender (message prev) = sender (message sm) -> sequence prev = sequence sm - 1 ->
  (pre_dispatch s (CallSync sm) = inr tt <-> sequence sm = ingress_of s (sender (message sm))) /\
  (validate s (CallSync sm) = inl Stale <-> pre_dispatch s (CallSync sm) = inl Stale) /\
  (forall v, validate s (CallSync sm) = inr v ->
    (requires v = [] <-> pre_dispatch s (CallSync sm) = inr tt) /\
    (requires v <> [] -> exists v', validate s (CallSync prev) = inr v' /\ requires v = provides v')).
Proof.
  intros Hs Hq. unfold pre_dispatch, validate. rewrite Hs, Hq.
  generalize (ingress_of s (sender (message sm))). intros e.
  destruct (Z.lt_trichotomy (sequence sm) e) as [Hlt|[->|Hgt]].
  - rewrite (proj2 (Z.ltb_lt _ _) Hlt), (proj2 (Z.eqb_neq _ _)) by lia. cbn. naive_solver lia.
  - rewrite Z.eqb_refl, Z.ltb_irrefl. cbn. naive_solver.
  - rewrite (proj2 (Z.ltb_ge (sequence sm) e)), (proj2 (Z.eqb_neq (sequence sm) e)),
      (proj2 (Z.ltb_ge (sequence sm - 1) e)), (proj2 (Z.ltb_lt e (sequence sm))) by lia.
    cbn. naive_solver lia.
Qed.

(** At the start of a block the outbound messages are exactly the messages
    queued for this block that go off chain, in the order they were queued, and
    the queue is empty again (when the subscribers ignore those messages). *)
Theorem on_initialize_flushes s :
  (forall m, m ∈ default [] (queued_outbound (mq s)) -> notify_ignores (X := X) m) ->
  exists s', on_initialize s = Ok tt s' /\
    outbound_messages (mq s') =
      filter (fun m => should_push_message m = true) (default [] (queued_outbound (mq s))) /\
    queued_outbound (mq s') = None /\ offchain_ingress (mq s') = offchain_ingress (mq s).
Proof.
  intros Hi. unfold on_initialize. mred. cbn [mq upd_mq put_mq put_outbound_messages queued_outbound].
  destruct (queued_outbound (mq s)) as [msgs|]; cbn in *; [|eauto].
  rewrite dispatch_all_ignored by done. eexists. split; [done|]. by cbn.
Qed.
End lemmas.
