(* ===== verification/PalletMsg.v ===== *)
(** * Messages the pallets push ([MessageOriginInfo], pallets/phala/src/mq.rs)

    A pallet pushes a typed message to the topic the type is bound to
    ([bind_topic!], crates/phala-types/src/lib.rs) with its own name as the
    origin. *)

From S2P Require Import Prelude MqTypes Storage MqPallet.

Definition TOPIC_SYSTEM : Path := Eval vm_compute in bs "phala/system/event".
Definition TOPIC_GK_LAUNCH : Path := Eval vm_compute in bs "phala/gatekeeper/launch".
Definition TOPIC_GK_CHANGE : Path := Eval vm_compute in bs "phala/gatekeeper/change".
Definition TOPIC_GK_EVENT : Path := Eval vm_compute in bs "phala/gatekeeper/event".
Definition TOPIC_REGISTRY : Path := Eval vm_compute in bs "^phala/registry/event".
Definition TOPIC_REGISTRY_GK : Path := Eval vm_compute in bs "^phala/registry/gk_event".
Definition TOPIC_WORKING_REPORT : Path := Eval vm_compute in bs "phala/mining/report".
Definition TOPIC_WORKING_UPDATE : Path := Eval vm_compute in bs "^phala/mining/update".

Definition TOPIC_CLUSTER_EVENT : Path := Eval vm_compute in bs "phala/cluster/event".
Definition TOPIC_CLUSTER_OP : Path := Eval vm_compute in bs "phala/cluster/key".
Definition TOPIC_CONTRACT_OP : Path := Eval vm_compute in bs "phala/contract/op".
Definition TOPIC_CLUSTER_REPORT : Path := Eval vm_compute in bs "phala/cluster/worker/report".
Definition TOPIC_REGISTRY_CLUSTER : Path := Eval vm_compute in bs "^phala/registry/cluster".
Definition TOPIC_REGISTRY_CONTRACT : Path := Eval vm_compute in bs "^phala/registry/contract".

(** The topics of the messages pallets push to the workers and gatekeepers, and
    what the topics of commands to contracts begin with. *)
Definition pallet_topics : list Path :=
  [TOPIC_SYSTEM; TOPIC_GK_LAUNCH; TOPIC_GK_CHANGE; TOPIC_GK_EVENT; TOPIC_CLUSTER_EVENT; TOPIC_CLUSTER_OP;
   TOPIC_CONTRACT_OP].
Definition COMMAND_PREFIX : Path := Eval vm_compute in bs "phala/contract/".
Definition off_chain_topic (t : Path) : Prop := t ∈ pallet_topics \/ COMMAND_PREFIX `prefix_of` t.

(** SCALE encoding of the messages, and the pallet names [construct_runtime!]
    gives. *)
Class ChainCodec := {
  enc_system : SystemEvent -> bytes;
  enc_gk_launch : GatekeeperLaunch -> bytes;
  enc_gk_change : GatekeeperChange -> bytes;
  enc_gk_event : GatekeeperEvent -> bytes;
  registry_name : bytes;
  computation_name : bytes;
}.

Section push.
Context {X : Type} `{!QueueNotifyConfig X} `{!ChainCodec}.

(** [message_origin] of the two pallets. *)
Definition registry_origin : MessageOrigin := Pallet registry_name.
Definition computation_origin : MessageOrigin := Pallet computation_name.

(** [Pallet::push_message(payload)] for a payload bound to [topic]. *)
Definition push_bound (origin : MessageOrigin) (topic : Path) (p : bytes) : H X unit :=
  push_message_to topic origin p.

Definition push_system (origin : MessageOrigin) (e : SystemEvent) : H X unit :=
  push_bound origin TOPIC_SYSTEM (enc_system e).
Definition push_gk_launch (origin : MessageOrigin) (e : GatekeeperLaunch) : H X unit :=
  push_bound origin TOPIC_GK_LAUNCH (enc_gk_launch e).
Definition push_gk_change (origin : MessageOrigin) (e : GatekeeperChange) : H X unit :=
  push_bound origin TOPIC_GK_CHANGE (enc_gk_change e).
Definition push_gk_event (origin : MessageOrigin) (e : GatekeeperEvent) : H X unit :=
  push_bound origin TOPIC_GK_EVENT (enc_gk_event e).
End push.

(** What the pallets ask of the runtime's routing: messages on their own
    topics have no on-chain subscriber, and go off chain. *)
Class PalletTopicsUnrouted (X : Type) `{!QueueNotifyConfig X} : Prop := {
  pallet_topic_ignored : forall m,
    off_chain_topic (topic_path (destination m)) -> notify_ignores (X := X) m;
  pallet_topic_pushed : forall m,
    off_chain_topic (topic_path (destination m)) -> should_push_message m = true;
}.

(** Appending one message to the outbound list. *)
Definition emit {X} (m : Message) (s : Storage X) : Storage X :=
  upd_mq (fun q => put_outbound_messages (outbound_messages q ++ [m]) q) s.

Section push_lemmas.
Context {X : Type} `{!QueueNotifyConfig X} `{!PalletTopicsUnrouted X} `{!ChainCodec}.

Lemma push_bound_run o t p (s : Storage X) :
  off_chain_topic t -> push_bound o t p s = Ok tt (emit (message_new o t p) s).
Proof.
  intros Ht. unfold push_bound, push_message_to.
  rewrite dispatch_message_ignored by (by apply pallet_topic_ignored).
  by rewrite pallet_topic_pushed.
Qed.

Lemma push_system_run o e (s : Storage X) :
  push_system o e s = Ok tt (emit (message_new o TOPIC_SYSTEM (enc_system e)) s).
Proof. apply push_bound_run. by left; left. Qed.

Lemma push_gk_launch_run o e (s : Storage X) :
  push_gk_launch o e s = Ok tt (emit (message_new o TOPIC_GK_LAUNCH (enc_gk_launch e)) s).
Proof. apply push_bound_run. by left; right; left. Qed.

Lemma push_gk_change_run o e (s : Storage X) :
  push_gk_change o e s = Ok tt (emit (message_new o TOPIC_GK_CHANGE (enc_gk_change e)) s).
Proof. apply push_bound_run. by left; right; right; left. Qed.

Lemma push_gk_event_run o e (s : Storage X) :
  push_gk_event o e s = Ok tt (emit (message_new o TOPIC_GK_EVENT (enc_gk_event e)) s).
Proof. apply push_bound_run. by left; right; right; right; left. Qed.
End push_lemmas.

(** Evaluates the pushes of a handler under evaluation. *)
Ltac push_run :=
  repeat match goal with
  | H : context [push_system _ _ _] |- _ => rewrite push_system_run in H
  | H : context [push_gk_launch _ _ _] |- _ => rewrite push_gk_launch_run in H
  | H : context [push_gk_change _ _ _] |- _ => rewrite push_gk_change_run in H
  | H : context [push_gk_event _ _ _] |- _ => rewrite push_gk_event_run in H
  | |- context [push_system _ _ _] => rewrite push_system_run
  | |- context [push_gk_launch _ _ _] => rewrite push_gk_launch_run
  | |- context [push_gk_change _ _ _] => rewrite push_gk_change_run
  | |- context [push_gk_event _ _ _] => rewrite push_gk_event_run
  end.

Lemma off_chain_topic_pushed t : off_chain_topic t -> topic_is_offchain (mkTopic t) = true.
Proof.
  intros [H|[t' ->]]; [|done]. unfold pallet_topics in H. revert H.
  rewrite !elem_of_cons, elem_of_nil. by intros [->|[->|[->|[->|[->|[->|[->|[]]]]]]]].
Qed.

#[global] Instance default_notify_unrouted X :
  PalletTopicsUnrouted X (QueueNotifyConfig0 := default_notify X).
Proof.
  split; [done|]. intros [s [t] p] H. by apply off_chain_topic_pushed.
Qed.
