(* ===== verification/FixedPoint.v ===== *)
(** * Fixed-point balances (pallets/phala/src/utils/balance_convert.rs)

    Conversion between 12-decimal balances and [U64F64] numbers. A fixed-point
    number is its bits. The [fixed], [fixed-macro] and [fixed-sqrt] crates are
    outside the repository: [FixedCrate] lists what the code calls of them and
    [FixedDoc] states their documented behaviour (operators wrap without
    overflow checks, [unwrapped_*] operations panic on overflow, conversions and
    division round towards zero). *)

From S2P Require Import Prelude.

Class FixedCrate := {
  (** [U64F64] *)
  u64f64_of_u32 : Z -> Z;
  u64f64_add : Z -> Z -> Z;
  u64f64_sub : Z -> Z -> Z;
  u64f64_mul : Z -> Z -> Z;
  u64f64_div : Z -> Z -> option Z;
  u64f64_checked_div : Z -> Z -> option Z;
  u64f64_sqrt : Z -> Z;
  fp_0_7 : Z;
  fp_0_8 : Z;
  (** [U80F48] *)
  u80f48_of_u64f64 : Z -> option Z;
  u80f48_of_u128 : Z -> option Z;
  u80f48_mul_int : Z -> Z -> option Z;
  u80f48_div_int : Z -> Z -> option Z;
  u80f48_to_u128 : Z -> Z;
  u64f64_of_u80f48 : Z -> option Z;
  (** [U32F32] *)
  u32f32_of_u32 : Z -> Z;
  u32f32_mul : Z -> Z -> Z;
  u32f32_div : Z -> Z -> option Z;
  u32f32_checked_shl : Z -> Z -> option Z;
  u32f32_to_u32 : Z -> Z;
}.

(** [Some] of a value that fits the width; [unwrapped_*] panics otherwise. *)
Definition fits (w z : Z) : option Z := if (0 <=? z) && (z <? 2 ^ w) then Some z else None.

Class FixedDoc `{!FixedCrate} : Prop := {
  u64f64_of_u32_doc : forall n, u32 n -> u64f64_of_u32 n = n * 2 ^ 64;
  u64f64_add_doc : forall a b, u64f64_add a b = a +[128] b;
  u64f64_sub_doc : forall a b, u64f64_sub a b = a -[128] b;
  u64f64_mul_doc : forall a b, u64f64_mul a b = wrap 128 (a * b / 2 ^ 64);
  u64f64_div_doc : forall a b, u64f64_div a b =
    if b =? 0 then None else Some (wrap 128 (a * 2 ^ 64 / b));
  u64f64_checked_div_doc : forall a b, u64f64_checked_div a b =
    if b =? 0 then None else fits 128 (a * 2 ^ 64 / b);
  fp_0_7_doc : Z.abs (10 * fp_0_7 - 7 * 2 ^ 64) < 10;
  fp_0_8_doc : Z.abs (10 * fp_0_8 - 8 * 2 ^ 64) < 10;
  u80f48_of_u64f64_doc : forall a, u128 a -> u80f48_of_u64f64 a = Some (a / 2 ^ 16);
  u80f48_of_u128_doc : forall n, u128 n -> u80f48_of_u128 n = fits 128 (n * 2 ^ 48);
  u80f48_mul_int_doc : forall a n, u80f48_mul_int a n = fits 128 (a * n);
  u80f48_div_int_doc : forall a n, 0 < n -> u80f48_div_int a n = Some (a / n);
  u80f48_to_u128_doc : forall a, u80f48_to_u128 a = a / 2 ^ 48;
  u64f64_of_u80f48_doc : forall a, u128 a -> u64f64_of_u80f48 a = fits 128 (a * 2 ^ 16);
  u32f32_of_u32_doc : forall n, u32 n -> u32f32_of_u32 n = n * 2 ^ 32;
  u32f32_mul_doc : forall a b, u32f32_mul a b = wrap 64 (a * b / 2 ^ 32);
  u32f32_div_doc : forall a b, u32f32_div a b =
    if b =? 0 then None else Some (wrap 64 (a * 2 ^ 32 / b));
  u32f32_checked_shl_doc : forall a n, u32f32_checked_shl a n =
    if n <? 64 then Some (wrap 64 (a * 2 ^ n)) else None;
  u32f32_to_u32_doc : forall a, u64 a -> u32f32_to_u32 a = a / 2 ^ 32;
}.

(** ** [impl FixedPointConvert for u128]; [None] is the panic of [unwrapped_*]. *)
Section convert.
Context `{FC : !FixedCrate}.

Definition PHA : Z := 1000000000000.

Definition from_fixed (v : Z) : option Z :=
  x ← u80f48_of_u64f64 v;
  y ← u80f48_mul_int x PHA;
  Some (u80f48_to_u128 y).

Definition from_bits (bits : Z) : option Z := from_fixed bits.

Definition to_fixed (b : Z) : option Z :=
  v ← u80f48_of_u128 b;
  w ← u80f48_div_int v PHA;
  u64f64_of_u80f48 w.

(** [balance_convert::mul] and [div]. *)
Definition bmul (x y : Z) : option Z :=
  fx ← to_fixed x; from_fixed (u64f64_mul fx y).

Definition bdiv (x y : Z) : option Z :=
  fx ← to_fixed x; q ← u64f64_div fx y; from_fixed q.
End convert.

Section convert_lemmas.
Context `{FC : !FixedCrate} `{FD : !FixedDoc}.

Lemma fits_Some w z : 0 <= z < 2 ^ w -> fits w z = Some z.
Proof. intros H. unfold fits. case_match eqn:E; [done|]. b2p. lia. Qed.

Lemma fits_inv w z r : fits w z = Some r -> r = z /\ 0 <= z < 2 ^ w.
Proof. unfold fits. case_match eqn:E; [|done]. b2p. intros [= <-]. lia. Qed.

Lemma fits_None w z : fits w z = None <-> ~ (0 <= z < 2 ^ w).
Proof. unfold fits. case_match eqn:E; b2p; split; try done; lia. Qed.

Lemma to_fixed_spec b : u128 b ->
  to_fixed b = if b <? 2 ^ 80 then Some ((b * 2 ^ 48 / PHA) * 2 ^ 16) else None.
Proof.
  intros Hb. unfold to_fixed. rewrite u80f48_of_u128_doc by done. unfold in_width in Hb.
  assert (0 < 2 ^ 48) by lia.
  case_match eqn:E; b2p.
  - rewrite fits_Some by lia. cbn. rewrite u80f48_div_int_doc by (unfold PHA; lia). cbn.
    assert (0 <= b * 2 ^ 48 / PHA < 2 ^ 112).
    { unfold PHA. split; [apply Z.div_pos; lia|]. apply Z.div_lt_upper_bound; lia. }
    rewrite u64f64_of_u80f48_doc by (unfold in_width; lia). apply fits_Some. lia.
  - by rewrite (proj2 (fits_None _ _)) by lia.
Qed.

Lemma from_fixed_spec v : u128 v ->
  from_fixed v = if v / 2 ^ 16 * PHA <? 2 ^ 128 then Some (v / 2 ^ 16 * PHA / 2 ^ 48) else None.
Proof.
  intros Hv. unfold from_fixed. rewrite u80f48_of_u64f64_doc by done. cbn.
  rewrite u80f48_mul_int_doc. unfold in_width in Hv.
  assert (0 <= v / 2 ^ 16) by (apply Z.div_pos; lia).
  case_match eqn:E; b2p.
  - rewrite fits_Some by (unfold PHA in *; lia). cbn. by rewrite u80f48_to_u128_doc.
  - by rewrite (proj2 (fits_None _ _)) by lia.
Qed.

(** Every balance below 2^80 converts to fixed point and back without
    panicking, losing at most one unit of the last decimal, and nothing when the
    balance is a whole number of PHA; a larger balance panics. *)
Theorem balance_roundtrip b :
  u128 b ->
  match to_fixed b with
  | Some f => b < 2 ^ 80 /\ exists b', from_fixed f = Some b' /\ b - 1 <= b' <= b /\
                ((PHA | b) -> b' = b)
  | None => 2 ^ 80 <= b
  end.
Proof.
  intros Hb. rewrite to_fixed_spec by done. destruct (b <? 2 ^ 80) eqn:E; b2p; [|done].
  split; [done|]. unfold in_width in Hb.
  set (q := b * 2 ^ 48 / PHA).
  assert (b * 2 ^ 48 - PHA < q * PHA <= b * 2 ^ 48) as Hq.
  { pose proof (Z.div_mod (b * 2 ^ 48) PHA ltac:(unfold PHA; lia)).
    pose proof (Z.mod_pos_bound (b * 2 ^ 48) PHA ltac:(unfold PHA; lia)). unfold q. lia. }
  assert (0 <= q < 2 ^ 112) as Hq'.
  { unfold q, PHA. split; [apply Z.div_pos; lia|]. apply Z.div_lt_upper_bound; lia. }
  rewrite from_fixed_spec by (unfold in_width; lia).
  rewrite Z.div_mul by done. destruct (q * PHA <? 2 ^ 128) eqn:Eq; b2p; [|lia].
  eexists. split; [done|]. split.
  - split; [apply Z.div_le_lower_bound; unfold PHA in *; lia|].
    apply Z.div_le_upper_bound; lia.
  - intros [m ->]. unfold q. replace (m * PHA * 2 ^ 48) with (m * 2 ^ 48 * PHA) by lia.
    rewrite Z.div_mul by done. replace (m * 2 ^ 48 * PHA) with (m * PHA * 2 ^ 48) by lia.
    by rewrite Z.div_mul.
Qed.
End convert_lemmas.
