(* ===== verification/Instances.v ===== *)
(** * Concrete instances of the external interfaces

    Small executable stand-ins for the code outside the repository (SCALE
    codec, sr25519), and an empty chain, used to evaluate the model on
    concrete inputs. The theorems never mention them. *)

From S2P Require Import Prelude MqTypes SendQueue Storage MqPallet PalletMsg FixedPoint.

#[global] Instance Topic_countable : Countable Topic.
Proof. refine (inj_countable' topic_path mkTopic _). by intros []. Defined.

#[global] Instance Message_countable : Countable Message.
Proof.
  refine (inj_countable' (fun m => (sender m, destination m, payload m))
    (fun t => mkMessage t.1.1 t.1.2 t.2) _).
  by intros [].
Defined.

Definition toy_encode {A} `{Countable A} (a : A) : bytes := [Z.pos (encode a)].

Lemma toy_encode_inj {A} `{Countable A} (a b : A) : toy_encode a = toy_encode b -> a = b.
Proof. unfold toy_encode. intros [= E]. by apply encode_inj in E. Qed.

#[global] Instance toy_codec : MqCodec.
Proof.
  refine {| encode_origin := toy_encode; encode_to_be_signed m n := toy_encode (m, n) |}.
  - intros a b. apply toy_encode_inj.
  - intros m n m' n' E. apply toy_encode_inj in E. by simplify_eq.
Defined.

(** A signature is the key and the data, padded to 64 bytes. *)
Definition toy_sign (key : Z) (data : bytes) : bytes := take 64 (key :: data ++ repeat 0 64).

#[global] Instance toy_sr25519 : Sr25519.
Proof.
  refine {|
    sr25519_signature b := if Nat.eqb (length b) 64 then Some b else None;
    sr25519_verify sig data pk := bool_decide (sig = toy_sign pk data);
  |}.
  intros b Hb. by rewrite Hb.
Defined.

(** A signing key of the stand-in scheme. *)
Record ToyKey := mkToyKey { toy_key : Z }.

#[global] Instance toy_signer : MessageSigner ToyKey := fun k data => toy_sign (toy_key k) data.

Definition empty_mq : MqState := mkMq ∅ None [].
Definition empty_reg : RegState :=
  mkReg [] None None 0 None ∅ ∅ ∅ ∅ ∅ None [] ∅ [] ∅ None (0, 0, 0) 0 (0, 0) [].
Definition empty_comp : CompState :=
  mkComp None None 0 None true 1729382256910270464000 0 0 0 ∅ ∅ ∅ 0 0 None None ∅.
Definition empty_bp : BpState := mkBp ∅ None 0 ∅ 0 ∅ ∅ ∅ ∅ ∅.
Definition empty_sp : SpState := mkSp ∅ ∅ ∅.
Definition empty_wb : WbState := mkWb ∅ ∅ ∅ 0.
Definition empty_phat : PhatState := mkPhat ∅ 0 ∅ ∅ ∅ ∅ (0, []) None None None.
Definition empty_chain {X} (x : X) : Storage X :=
  mkStorage empty_mq empty_reg empty_comp empty_bp empty_sp ∅ empty_wb empty_phat (mkPt ∅ ∅ 0) (mkAnchor ∅ ∅ ∅) [] x.

(** A worker [7] with an egress channel, pushing to the topic [b"x"]. *)
Definition toy_worker : MessageOrigin := Worker 7.
Definition toy_channel : MessageChannel ToyKey := mkMsgChannel toy_worker (mkToyKey 7).

(** The payload encodings carry no information here; the pallet names are distinct. *)
#[global] Instance toy_chain_codec : ChainCodec := {|
  enc_system _ := [1]; enc_gk_launch _ := [2]; enc_gk_change _ := [3]; enc_gk_event _ := [4];
  registry_name := [10]; computation_name := [11];
|}.

(** Block 100, 1000 seconds after the epoch. *)
#[global] Instance toy_env : BlockEnv := {| now_ms := 1000000; block_number := 100 |}.

(** The fixed-point crates as their documentation describes them. *)
#[global] Instance toy_fixed : FixedCrate := {|
  u64f64_of_u32 n := n * 2 ^ 64;
  u64f64_add a b := a +[128] b;
  u64f64_sub a b := a -[128] b;
  u64f64_mul a b := wrap 128 (a * b / 2 ^ 64);
  u64f64_div a b := if b =? 0 then None else Some (wrap 128 (a * 2 ^ 64 / b));
  u64f64_checked_div a b := if b =? 0 then None else fits 128 (a * 2 ^ 64 / b);
  u64f64_sqrt a := Z.sqrt (a * 2 ^ 64);
  fp_0_7 := 12912720851596686131;
  fp_0_8 := 14757395258967641293;
  u80f48_of_u64f64 a := Some (a / 2 ^ 16);
  u80f48_of_u128 n := fits 128 (n * 2 ^ 48);
  u80f48_mul_int a n := fits 128 (a * n);
  u80f48_div_int a n := Some (a / n);
  u80f48_to_u128 a := a / 2 ^ 48;
  u64f64_of_u80f48 a := fits 128 (a * 2 ^ 16);
  u32f32_of_u32 n := n * 2 ^ 32;
  u32f32_mul a b := wrap 64 (a * b / 2 ^ 32);
  u32f32_div a b := if b =? 0 then None else Some (wrap 64 (a * 2 ^ 32 / b));
  u32f32_checked_shl a n := if n <? 64 then Some (wrap 64 (a * 2 ^ n)) else None;
  u32f32_to_u32 a := a / 2 ^ 32;
|}.

#[global] Instance toy_fixed_doc : FixedDoc.
Proof. split; try done; vm_compute; done. Qed.
