(* ===== verification/MqProtocol.v ===== *)
(** * Delivery of off-chain messages, end to end

    A worker's egress queue ([SendQueue]) and the chain's ingress
    ([MqPallet]) together, with the untrusted relayer (pherry, prb) between
    them: it may submit any message the worker ever signed, in any order and
    any number of times, and tell the worker to purge up to any sequence the
    chain has already passed. The chain must accept every message exactly once
    and in the order it was pushed. *)

From S2P Require Import Prelude MqTypes SendQueue Storage MqPallet Instances.

Section protocol.
Context {X : Type} `{!MqCodec} `{!Sr25519} `{!QueueNotifyConfig X} `{!NotifyKeepsIngress X}.
Context {Si : Type} `{!MessageSigner Si}.
(** The sender whose messages are followed; other senders share the chain. *)
Context (w : SenderId).

Record sys := mkSys {
  sq : gmap MessageOrigin Channel;
  chain : Storage X;
  signed : list SignedMessage; (** every message of [w] ever signed, in order *)
  accepted : list Message;     (** every message of [w] the chain accepted, in order *)
}.

Inductive sys_step : sys -> sys -> Prop :=
  | step_push S c p to :
      mc_sender c = w ->
      ch_sequence (channel_of (sq S) w) + 1 < 2 ^ 64 ->
      sys_step S (mkSys (push_data (sq S) c p to) (chain S)
        (signed S ++ [sign (prepare_with_data c p to) (ch_sequence (channel_of (sq S) w))])
        (accepted S))
  | step_push_other S c p to :
      mc_sender c <> w ->
      sys_step S (mkSys (push_data (sq S) c p to) (chain S) (signed S) (accepted S))
  | step_sync S o sm s' :
      sm ∈ signed S ->
      sync_offchain_message o sm (chain S) = Ok tt s' ->
      sys_step S (mkSys (sq S) s' (signed S) (accepted S ++ [message sm]))
  | step_sync_other S o sm s' :
      sender (message sm) <> w ->
      sync_offchain_message o sm (chain S) = Ok tt s' ->
      sys_step S (mkSys (sq S) s' (signed S) (accepted S))
  | step_block S s' :
      on_initialize (chain S) = Ok tt s' ->
      sys_step S (mkSys (sq S) s' (signed S) (accepted S))
  | step_other S s' :
      offchain_ingress (mq s') = offchain_ingress (mq (chain S)) ->
      sys_step S (mkSys (sq S) s' (signed S) (accepted S))
  | step_purge S f :
      f w <= ingress_of (chain S) w ->
      sys_step S (mkSys (purge (sq S) f) (chain S) (signed S) (accepted S)).

Definition sys_init (s : Storage X) : sys := mkSys queue_new s [] [].

Definition reachable (S : sys) : Prop :=
  exists s0, ingress_of s0 w = 0 /\ rtc sys_step (sys_init s0) S.

(** ** The invariant

    The chain's counter splits what was signed into the accepted prefix and
    the rest, and the queue still holds at least that rest. *)
Definition sys_inv (S : sys) : Prop :=
  ch_dummy (channel_of (sq S) w) = false /\
  ch_sequence (channel_of (sq S) w) = Z.of_nat (length (signed S)) /\
  Z.of_nat (length (signed S)) < 2 ^ 64 /\
  (forall i sm, signed S !! i = Some sm -> sequence sm = Z.of_nat i /\ sender (message sm) = w) /\
  0 <= ingress_of (chain S) w <= Z.of_nat (length (signed S)) /\
  accepted S = message <$> take (Z.to_nat (ingress_of (chain S) w)) (signed S) /\
  exists k, Z.of_nat k <= ingress_of (chain S) w /\ messages (sq S) w = drop k (signed S).

Lemma channel_of_insert (q : gmap MessageOrigin Channel) s c s' :
  channel_of (<[ s := c ]> q) s' = if decide (s = s') then c else channel_of q s'.
Proof. unfold channel_of. rewrite lookup_insert. by case_decide. Qed.

Lemma channel_of_purge (q : gmap MessageOrigin Channel) f s :
  ch_dummy (channel_of (purge q f) s) = ch_dummy (channel_of q s) /\
  ch_sequence (channel_of (purge q f) s) = ch_sequence (channel_of q s).
Proof. unfold channel_of, purge. rewrite map_lookup_imap. by destruct (q !! s). Qed.

Lemma ingress_of_insert (s s' : Storage X) a b v :
  offchain_ingress (mq s') = <[ a := v ]> (offchain_ingress (mq s)) ->
  ingress_of s' b = if decide (a = b) then v else ingress_of s b.
Proof. intros H. unfold ingress_of. rewrite H, lookup_insert. by case_decide. Qed.

Lemma filter_seq_drop (l : list SignedMessage) (n : Z) (j : nat) :
  (forall i sm, l !! i = Some sm -> sequence sm = Z.of_nat (j + i)) ->
  filter (fun m => n <= sequence m) l = drop (Z.to_nat (n - Z.of_nat j)) l.
Proof.
  revert j. induction l as [|m l IH]; intros j Hl; [by rewrite drop_nil|].
  assert (sequence m = Z.of_nat j) as Hm by (rewrite (Hl 0%nat m eq_refl); f_equal; lia).
  assert (filter (fun m => n <= sequence m) l = drop (Z.to_nat (n - Z.of_nat (S j))) l) as E.
  { apply IH. intros i sm Hi. rewrite (Hl (S i) sm Hi). f_equal. lia. }
  rewrite filter_cons. case_decide.
  - rewrite E. replace (Z.to_nat (n - Z.of_nat j)) with 0%nat by lia.
    by replace (Z.to_nat (n - Z.of_nat (S j))) with 0%nat by lia.
  - rewrite E. replace (Z.to_nat (n - Z.of_nat j)) with (S (Z.to_nat (n - Z.of_nat (S j)))) by lia.
    done.
Qed.

Lemma on_initialize_ingress (s s' : Storage X) :
  on_initialize s = Ok tt s' -> offchain_ingress (mq s') = offchain_ingress (mq s).
Proof.
  unfold on_initialize. mred. cbn.
  assert (forall msgs (s1 s2 : Storage X), for_each msgs dispatch_message s1 = Ok tt s2 ->
    offchain_ingress (mq s2) = offchain_ingress (mq s1)) as Hall.
  { induction msgs as [|m msgs IH]; intros s1 s2; cbn; [by intros [= ->]|]. mred.
    pose proof (dispatch_message_run m s1) as Hd. intros H.
    destruct (on_message_received m s1); [| |by rewrite Hd in H]; destruct Hd as (s3 & E & <-); rewrite E in H;
      by rewrite (IH _ _ H). }
  destruct (queued_outbound (mq s)); intros H; [by rewrite (Hall _ _ _ H)|by simplify_eq].
Qed.

Lemma ingress_of_ext (s s' : Storage X) o :
  offchain_ingress (mq s') = offchain_ingress (mq s) -> ingress_of s' o = ingress_of s o.
Proof. unfold ingress_of. by intros ->. Qed.

Lemma push_data_messages (q : gmap MessageOrigin Channel) (c : MessageChannel Si) p to :
  ch_dummy (channel_of q (mc_sender c)) = false ->
  messages (push_data q c p to) (mc_sender c) =
    messages q (mc_sender c) ++ [sign (prepare_with_data c p to) (ch_sequence (channel_of q (mc_sender c)))].
Proof.
  intros Hd. unfold push_data. rewrite enqueue_message_lookup, Hd.
  by rewrite decide_True by done.
Qed.

Lemma push_data_other (q : gmap MessageOrigin Channel) (c : MessageChannel Si) p to s :
  mc_sender c <> s ->
  channel_of (push_data q c p to) s = channel_of q s /\
  messages (push_data q c p to) s = messages q s.
Proof.
  intros Hne. unfold push_data. rewrite enqueue_message_lookup. unfold enqueue_message.
  rewrite channel_of_insert. by rewrite !decide_False by done.
Qed.

Lemma sys_inv_push S (c : MessageChannel Si) p to :
  sys_inv S -> mc_sender c = w -> ch_sequence (channel_of (sq S) w) + 1 < 2 ^ 64 ->
  sys_inv (mkSys (push_data (sq S) c p to) (chain S)
    (signed S ++ [sign (prepare_with_data c p to) (ch_sequence (channel_of (sq S) w))]) (accepted S)).
Proof.
  intros (Hd & Hs & Hb & Hseq & Hi & Ha & k & Hk & Hm) Hw Hlt.
  assert (channel_of (push_data (sq S) c p to) w =
    mkChannel (ch_sequence (channel_of (sq S) w) + 1)
      (ch_messages (channel_of (sq S) w) ++
        [sign (prepare_with_data c p to) (ch_sequence (channel_of (sq S) w))]) false) as Ec.
  { unfold push_data, enqueue_message. rewrite channel_of_insert, Hw, decide_True, Hd by done.
    by rewrite wrap_add_small by lia. }
  split_and!; cbn [sq chain signed accepted]; rewrite ?Ec; cbn [ch_dummy ch_sequence];
    rewrite ?length_app; cbn [length].
  - done.
  - lia.
  - lia.
  - intros i sm Hlk. apply lookup_snoc_Some in Hlk as [[? ?]|[-> <-]]; [by apply Hseq|]. cbn. by split.
  - lia.
  - lia.
  - rewrite take_app_le by lia. done.
  - exists k. split; [done|]. rewrite <- Hw, push_data_messages by (by rewrite Hw).
    rewrite Hw, Hm. rewrite drop_app_le by lia. done.
Qed.

Lemma sys_inv_push_other S (c : MessageChannel Si) p to :
  sys_inv S -> mc_sender c <> w ->
  sys_inv (mkSys (push_data (sq S) c p to) (chain S) (signed S) (accepted S)).
Proof.
  intros HI Hw. destruct (push_data_other (sq S) c p to w Hw) as [Ec Em].
  destruct HI as (Hd & Hs & Hb & Hseq & Hi & Ha & k & Hk & Hm).
  split_and!; cbn [sq chain signed accepted]; rewrite ?Ec, ?Em; eauto; lia.
Qed.

(** An accepted message is the one right after the accepted prefix. *)
Lemma sys_inv_sync S o sm s' :
  sys_inv S -> sm ∈ signed S -> sync_offchain_message o sm (chain S) = Ok tt s' ->
  sys_inv (mkSys (sq S) s' (signed S) (accepted S ++ [message sm])).
Proof.
  intros (Hd & Hs & Hb & Hseq & Hi & Ha & k & Hk & Hm) Hin Hsync.
  apply sync_Ok_ingress in Hsync as (_ & Heq & Hing).
  apply list_elem_of_lookup in Hin as [i Hlk].
  destruct (Hseq _ _ Hlk) as [Hsi Hsw]. rewrite Hsw in Heq, Hing.
  pose proof (lookup_lt_Some _ _ _ Hlk) as Hlt.
  assert (ingress_of s' w = ingress_of (chain S) w + 1) as Hi'.
  { rewrite (ingress_of_insert _ _ _ w _ Hing), decide_True by done. apply wrap_add_small. lia. }
  split_and!; cbn [sq chain signed accepted]; rewrite ?Hi'; try done; try lia.
  - rewrite Ha. replace (Z.to_nat (ingress_of (chain S) w + 1)) with (Datatypes.S i) by lia.
    replace (Z.to_nat (ingress_of (chain S) w)) with i by lia.
    by rewrite (take_S_r _ _ _ Hlk), fmap_app.
  - exists k. split; [lia|done].
Qed.

Lemma sys_inv_chain S s' :
  sys_inv S -> ingress_of s' w = ingress_of (chain S) w ->
  sys_inv (mkSys (sq S) s' (signed S) (accepted S)).
Proof.
  intros (Hd & Hs & Hb & Hseq & Hi & Ha & k & Hk & Hm) E.
  split_and!; cbn [sq chain signed accepted]; rewrite ?E; eauto; lia.
Qed.

Lemma sys_inv_purge S f :
  sys_inv S -> f w <= ingress_of (chain S) w ->
  sys_inv (mkSys (purge (sq S) f) (chain S) (signed S) (accepted S)).
Proof.
  intros (Hd & Hs & Hb & Hseq & Hi & Ha & k & Hk & Hm) Hf.
  destruct (channel_of_purge (sq S) f w) as [E1 E2].
  split_and!; cbn [sq chain signed accepted]; rewrite ?E1, ?E2; eauto; try lia.
  exists (k + Z.to_nat (f w - Z.of_nat k))%nat. split; [lia|].
  rewrite purge_messages, Hm. rewrite <- drop_drop. apply (filter_seq_drop _ _ k).
  intros i sm Hlk. rewrite lookup_drop in Hlk. by apply Hseq in Hlk as [-> _].
Qed.

Lemma sys_inv_step S S' : sys_inv S -> sys_step S S' -> sys_inv S'.
Proof.
  intros HI Hst. destruct Hst.
  - by apply sys_inv_push.
  - by apply sys_inv_push_other.
  - by eapply sys_inv_sync.
  - apply sys_inv_chain; [done|].
    match goal with H : sync_offchain_message _ _ _ = _ |- _ =>
      apply sync_Ok_ingress in H as (_ & _ & Hi) end.
    rewrite (ingress_of_insert _ _ _ w _ Hi). by rewrite decide_False.
  - apply sys_inv_chain; [done|]. by apply ingress_of_ext, on_initialize_ingress.
  - apply sys_inv_chain; [done|]. by apply ingress_of_ext.
  - by apply sys_inv_purge.
Qed.

Lemma sys_inv_init s0 : ingress_of s0 w = 0 -> sys_inv (sys_init s0).
Proof.
  intros H. unfold sys_init. split_and!; cbn [sq chain signed accepted]; rewrite ?H; try done; try lia.
  exists 0%nat. split; [lia|done].
Qed.

Lemma reachable_inv S : reachable S -> sys_inv S.
Proof.
  intros (s0 & Hz & Hr). eapply rtc_invariant; [|exact Hr|by apply sys_inv_init].
  intros. by eapply sys_inv_step.
Qed.

(** C1: exactly-once, in-order delivery. Whatever the relayer submits, replays,
    reorders or purges, the messages the chain has accepted from a sender are
    exactly the first [ingress] messages the sender pushed, in push order. *)
Theorem delivery_exactly_once (S : sys) :
  reachable S ->
  accepted S = message <$> take (Z.to_nat (ingress_of (chain S) w)) (signed S) /\
  0 <= ingress_of (chain S) w <= Z.of_nat (length (signed S)).
Proof. by intros (_ & _ & _ & _ & ? & ? & _)%reachable_inv. Qed.

(** C9: nothing is lost by purging. While the chain has not accepted everything
    that was signed, the egress queue still holds the message the chain expects
    next, and submitting it succeeds if its signature checks, its destination is
    valid and no subscriber panics on it. *)
Theorem delivery_progress (S : sys) who :
  reachable S -> is_offchain w = true ->
  ingress_of (chain S) w < Z.of_nat (length (signed S)) ->
  exists sm, sm ∈ messages (sq S) w /\ sequence sm = ingress_of (chain S) w /\
    (topic_is_valid (destination (message sm)) = true ->
     check_message sm (chain S) = Ok tt (chain S) ->
     on_message_received (message sm) (counted sm (chain S)) <> Panic ->
     exists s', sync_offchain_message (Signed who) sm (chain S) = Ok tt s' /\
       sys_step S (mkSys (sq S) s' (signed S) (accepted S ++ [message sm]))).
Proof.
  intros (Hd & Hs & Hb & Hseq & Hi & Ha & k & Hk & Hm)%reachable_inv Hoff Hlt.
  set (n := Z.to_nat (ingress_of (chain S) w)).
  destruct (lookup_lt_is_Some_2 (signed S) n) as [sm Hlk]; [lia|].
  destruct (Hseq _ _ Hlk) as [Hsn Hsw]. exists sm.
  split; [|split; [lia|]].
  - rewrite Hm. apply list_elem_of_lookup. exists (n - k)%nat. rewrite lookup_drop.
    rewrite <- Hlk. f_equal. lia.
  - intros Ht Hc Hp. pose proof (sync_run (Signed who) sm (chain S)) as Hr.
    unfold sync_guard in Hr. rewrite Hsw, Hoff, Ht, Hc in Hr. cbn in Hr.
    destruct (sequence sm =? ingress_of (chain S) w) eqn:E; b2p; [|lia]. cbn in Hr.
    assert (exists s', sync_offchain_message (Signed who) sm (chain S) = Ok tt s') as [s' Hsync].
    { destruct (on_message_received _ _); [..|done]; destruct Hr as (s' & ? & _); by exists s'. }
    exists s'. split; [done|].
    apply (step_sync S (Signed who) sm s'); [|exact Hsync]. apply list_elem_of_lookup. eauto.
Qed.
End protocol.

(** ** A concrete run: two messages pushed, the first delivered. *)
Section run.
#[local] Existing Instance default_notify.

Definition run_push (S : sys (X := unit)) (b : Z) : sys :=
  mkSys (push_data (sq S) toy_channel [b] [120]) (chain S)
    (signed S ++ [sign (prepare_with_data toy_channel [b] [120])
                   (ch_sequence (channel_of (sq S) toy_worker))]) (accepted S).
Definition run_2 : sys (X := unit) := run_push (run_push (sys_init (empty_chain tt)) 1) 2.
Definition run_first : SignedMessage := sign (prepare_with_data toy_channel [1] [120]) 0.
Definition run_3 : sys (X := unit) :=
  mkSys (sq run_2)
    (state_of (chain run_2) (sync_offchain_message (Signed 3) run_first (chain run_2)))
    (signed run_2) (accepted run_2 ++ [message run_first]).

Lemma run_3_reachable : reachable (Si := ToyKey) toy_worker run_3.
Proof.
  exists (empty_chain tt). split; [by vm_compute|].
  eapply rtc_l; [apply (step_push _ (sys_init (empty_chain tt)) toy_channel [1] [120]); [done|by vm_compute]|].
  eapply rtc_l; [eapply (step_push _ _ toy_channel [2] [120]); [done|by vm_compute]|].
  eapply rtc_l; [|apply rtc_refl].
  apply (step_sync toy_worker run_2 (Signed 3) run_first); [by left|by vm_compute].
Defined.

Lemma delivery_exactly_once_witness :
  reachable (Si := ToyKey) toy_worker run_3 /\
  accepted run_3 = [message run_first] /\
  0 <= ingress_of (chain run_3) toy_worker <= 2.
Proof.
  split; [apply run_3_reachable|].
  pose proof (delivery_exactly_once (Si := ToyKey) toy_worker run_3 run_3_reachable) as [E ?].
  split; [rewrite E; by vm_compute|done].
Defined.

(** The second message is next, and its submission succeeds. *)
Lemma delivery_progress_witness :
  exists sm s', sm ∈ messages (sq run_3) toy_worker /\ sequence sm = 1 /\
    sync_offchain_message (Signed 3) sm (chain run_3) = Ok tt s' /\
    sys_step (Si := ToyKey) toy_worker run_3 (mkSys (sq run_3) s' (signed run_3) (accepted run_3 ++ [message sm])).
Proof.
  destruct (delivery_progress (Si := ToyKey) toy_worker run_3 3 run_3_reachable) as (sm & H1 & H2 & H3);
    [by vm_compute|by vm_compute|].
  assert (sm = sign (prepare_with_data toy_channel [2] [120]) 1) as ->.
  { assert (messages (sq run_3) toy_worker = [run_first; sign (prepare_with_data toy_channel [2] [120]) 1]) as E by (vm_compute; reflexivity).
    rewrite E in H1. apply elem_of_cons in H1 as [-> |H1%list_elem_of_singleton]; [|done]. exfalso. vm_compute in H2. discriminate H2. }
  destruct H3 as (s' & H3 & H4); [vm_compute; reflexivity|vm_compute; reflexivity|vm_compute; discriminate|].
  exists (sign (prepare_with_data toy_channel [2] [120]) 1), s'. split; [done|]. split; [reflexivity|]. split; [exact H3|exact H4].
Defined.

Lemma queue_step_wf_witness :
  queue_wf (queue_step (sq run_2) (OpPurge (fun _ => 1))) /\
  messages (queue_step (sq run_2) (OpPurge (fun _ => 1))) toy_worker =
    [sign (prepare_with_data toy_channel [2] [120]) 1].
Proof.
  split; [|by vm_compute]. apply queue_step_wf; [|done].
  intros s c Hlk. assert (s = toy_worker /\ c = channel_of (sq run_2) toy_worker) as [-> ->].
  { change (sq run_2) with (<[ toy_worker := channel_of (sq run_2) toy_worker ]>
      (sq (run_push (sys_init (empty_chain tt)) 1))) in Hlk.
    rewrite lookup_insert in Hlk. case_decide; [by simplify_eq|].
    change (sq (run_push (sys_init (empty_chain tt)) 1)) with
      (<[ toy_worker := channel_of (sq (run_push (sys_init (empty_chain tt)) 1)) toy_worker ]>
        (∅ : gmap MessageOrigin Channel)) in Hlk.
    by rewrite lookup_insert_ne, lookup_empty in Hlk. }
  vm_compute. split; [by split|]. repeat constructor; done.
Defined.

Lemma sync_offchain_message_spec_witness :
  exists s', sync_offchain_message (Signed 3) run_first (chain run_2) = Ok tt s' /\
    ingress_of s' toy_worker = 1.
Proof.
  pose proof (sync_offchain_message_spec (Signed 3) run_first (chain run_2)) as H.
  vm_compute sync_guard in H. destruct H as (s' & E & Hi). exists s'. split; [exact E|].
  unfold ingress_of. rewrite Hi. by vm_compute.
Defined.

Lemma sync_replay_rejected_witness :
  sync_offchain_message (Signed 4) run_first (chain run_3) = Err (MqErr BadSequence) (chain run_3).
Proof.
  apply (sync_replay_rejected (Signed 3) run_first (chain run_2) (chain run_3) 4);
    [by vm_compute|by vm_compute].
Defined.

Lemma check_mq_sequence_spec_witness :
  pre_dispatch (chain run_2) (CallSync run_first) = inr tt /\
  sequence run_first = ingress_of (chain run_2) toy_worker.
Proof.
  pose proof (check_mq_sequence_spec run_first
    (mkSigned (message run_first) (-1) []) (chain run_2) eq_refl eq_refl) as [H _].
  assert (sequence run_first = ingress_of (chain run_2) toy_worker) as E by (by vm_compute).
  split; [by apply H|done].
Defined.

Lemma on_initialize_flushes_witness :
  let s := upd_mq (put_queued_outbound (Some [message_new Gatekeeper [120] []; message_new Gatekeeper [94] []]))
             (empty_chain tt) in
  exists s', on_initialize s = Ok tt s' /\
    outbound_messages (mq s') = [message_new Gatekeeper [120] []].
Proof.
  intros s. destruct (on_initialize_flushes s) as (s' & E & Ho & _).
  - by intros m _ st.
  - exists s'. split; [exact E|]. rewrite Ho. by vm_compute.
Defined.
End run.
