(* ===== verification/SgxQuote.v ===== *)
(** * SGX quotes and IAS reports (crates/sgx-attestation)

    The layout of a quote ([dcap/quote.rs]), the verification of a DCAP quote
    against its collateral ([dcap.rs], [dcap/utils.rs]) and of an IAS report
    ([ias.rs]). Strings are their bytes. JSON, base64, hex, PEM, X.509, DER and
    the signature algorithms are the class [SgxLib]. *)

From S2P Require Import Prelude MqTypes.

(** ** Data *)

Inductive SgxError :=
  | InvalidCertificate | SgxInvalidSignature | CodecError
  | TCBInfoExpired | KeyLengthIsInvalid | PublicKeyIsInvalid | RsaSignatureIsInvalid | DerEncodingError
  | UnsupportedDCAPQuoteVersion | UnsupportedDCAPAttestationKeyType | UnsupportedQuoteAuthData | UnsupportedDCAPPckCertFormat
  | LeafCertificateParsingError | CertificateChainIsInvalid | CertificateChainIsTooShort
  | IntelExtensionCertificateDecodingError | IntelExtensionAmbiguity
  | CpuSvnLengthMismatch | CpuSvnDecodingError | PceSvnDecodingError | PceSvnLengthMismatch
  | FmspcLengthMismatch | FmspcDecodingError | FmspcMismatch
  | QEReportHashMismatch | IsvEnclaveReportSignatureIsInvalid | DerDecodingError | OidIsMissing.

Record SgxV30QuoteCollateral := mkCollateral {
  pck_crl_issuer_chain : bytes;
  root_ca_crl : bytes;
  pck_crl : bytes;
  tcb_info_issuer_chain : bytes;
  tcb_info : bytes;
  tcb_info_signature : bytes;
  qe_identity_issuer_chain : bytes;
  qe_identity : bytes;
  qe_identity_signature : bytes;
}.
Inductive Collateral := SgxV30 (c : SgxV30QuoteCollateral).
Inductive AttestationReport :=
  | SgxIas (ra_report signature raw_signing_cert : bytes)
  | SgxDcap (quote : bytes) (collateral : option Collateral).

(** [dcap/tcb_info.rs]; a component is its [svn]. *)
Record Tcb := mkTcb { components : list Z; tcb_pce_svn : Z }.
Record TcbLevel := mkTcbLevel { tcb : Tcb; tcb_date : bytes; tcb_status : bytes; level_advisory_ids : list bytes }.
Record TcbInfo := mkTcbInfo {
  ti_id : bytes;
  ti_version : Z;
  issue_date : bytes;
  next_update : bytes;
  ti_fmspc : bytes;
  pce_id : bytes;
  tcb_type : Z;
  tcb_evaluation_data_number : Z;
  tcb_levels : list TcbLevel;
}.

Record RaReport := mkRaReport {
  ra_id : bytes;
  ra_timestamp : bytes;
  ra_version : Z;
  epid_pseudonym : bytes;
  advisory_url : bytes;
  advisory_ids : list bytes;
  isv_enclave_quote_status : bytes;
  isv_enclave_quote_body : bytes;
}.

(** ** Other crates *)

Inductive TrustAnchor := IasServerRoots | DcapServerRoots.
Inductive SignatureAlgorithm := RsaPkcs1Sha256 | EcdsaP256Sha256.

Class SgxLib := {
  (** The largest buffer the target can allocate; a larger one panics. *)
  max_alloc : Z;
  (** [serde_json], [pink_json] *)
  parse_ra_report : bytes -> option RaReport;
  parse_tcb_info : bytes -> option TcbInfo;
  (** [chrono]: the timestamp, an [i64] *)
  parse_from_rfc3339 : bytes -> option Z;
  base64_decode : bytes -> option bytes;
  hex_decode : bytes -> option bytes;
  pem_parse_many : bytes -> option (list bytes);
  (** [webpki]; the last argument of [verify_for_usage] is the time in seconds. *)
  EndEntityCert : Type;
  end_entity_cert : bytes -> option EndEntityCert;
  cert_verify_signature : SignatureAlgorithm -> EndEntityCert -> bytes -> bytes -> bool;
  verify_for_usage : TrustAnchor -> EndEntityCert -> list bytes -> Z -> bool;
  (** [der]: an unsigned integer, and a sequence of two of them *)
  DerUint : Type;
  uint_ref : bytes -> option DerUint;
  encode_sequence : DerUint -> DerUint -> option bytes;
  (** [x509_cert]: the extensions of a certificate, identifiers and values *)
  cert_extensions : bytes -> option (list (bytes * bytes));
  (** [asn1_der] *)
  DerObject : Type;
  DerSequence : Type;
  der_decode : bytes -> option DerObject;
  sequence_load : DerObject -> option DerSequence;
  seq_len : DerSequence -> nat;
  seq_get : DerSequence -> nat -> option DerObject;
  der_value : DerObject -> bytes;
  (** [ring] *)
  sha256 : bytes -> bytes;
  ecdsa_p256_verify : bytes -> bytes -> bytes -> bool;
}.

(** ** Decoding a quote

    A decoder reads from the front of its input; what is left is its state. *)
Abbreviation Decoder := (M bytes unit).

Definition read (n : nat) : Decoder bytes := fun input =>
  if (n <=? length input)%nat then Ok (take n input) (drop n input) else Err tt input.
Definition from_le_bytes (b : bytes) : Z := foldr (fun x n => x + 256 * n) 0 b.
Definition read_le16 : Decoder Z := from_le_bytes <$> read 2.
Definition read_le32 : Decoder Z := from_le_bytes <$> read 4.
Definition run_decoder {A} (d : Decoder A) (input : bytes) : option A := match d input with Ok a _ => Some a | _ => None end.
(** A decoder on an input of its own, with its panics *)
Definition decode_all {S E A} (d : Decoder A) (input : bytes) (e : E) : M S E A := fun s =>
  match d input with Ok a _ => Ok a s | Err _ _ => Err e s | Panic => Panic end.

(** [Data<T>]: the buffer is allocated before anything is read into it. *)
Definition read_data `{SL : !SgxLib} (len : Z) : Decoder bytes := if max_alloc <? len then panic else read (Z.to_nat len).
Definition read_data16 `{SL : !SgxLib} : Decoder bytes := len ← read_le16; read_data len.
Definition read_data32 `{SL : !SgxLib} : Decoder bytes := len ← read_le32; read_data len.

Record QuoteHeader := mkQuoteHeader {
  qh_version : Z;
  attestation_key_type : Z;
  tee_type : Z;
  qh_qe_svn : Z;
  qh_pce_svn : Z;
  qe_vendor_id : bytes;
  qh_user_data : bytes;
}.
Definition decode_header : Decoder QuoteHeader :=
  version ← read_le16; key_type ← read_le16; tee ← read_le32; qe_svn ← read_le16; pce_svn ← read_le16;
  vendor ← read 16; user_data ← read 20;
  mret (mkQuoteHeader version key_type tee qe_svn pce_svn vendor user_data).

Record EnclaveReport := mkEnclaveReport {
  er_cpu_svn : bytes;
  misc_select : Z;
  er_reserved1 : bytes;
  er_attributes : bytes;
  er_mr_enclave : bytes;
  er_reserved2 : bytes;
  er_mr_signer : bytes;
  er_reserved3 : bytes;
  er_isv_prod_id : Z;
  er_isv_svn : Z;
  er_reserved4 : bytes;
  er_report_data : bytes;
}.
Definition decode_enclave_report : Decoder EnclaveReport :=
  cpu_svn ← read 16; misc ← read_le32; r1 ← read 28; attributes ← read 16; mr_enclave ← read 32; r2 ← read 32;
  mr_signer ← read 32; r3 ← read 96; prod_id ← read_le16; svn ← read_le16; r4 ← read 60; data ← read 64;
  mret (mkEnclaveReport cpu_svn misc r1 attributes mr_enclave r2 mr_signer r3 prod_id svn r4 data).

Record CertificationData := mkCertData { cert_type : Z; cert_body : bytes }.
Definition decode_certification_data `{SL : !SgxLib} : Decoder CertificationData := t ← read_le16; body ← read_data32; mret (mkCertData t body).

Record QEReportCertificationData := mkQeCertData {
  qc_qe_report : bytes;
  qc_qe_report_signature : bytes;
  qc_qe_auth_data : bytes;
  qc_certification_data : CertificationData;
}.
Definition decode_qe_report_certification_data `{SL : !SgxLib} : Decoder QEReportCertificationData :=
  report ← read 384; signature ← read 64; auth ← read_data16; cert ← decode_certification_data;
  mret (mkQeCertData report signature auth cert).

Record AuthDataV3 := mkAuthDataV3 {
  ecdsa_signature : bytes;
  ecdsa_attestation_key : bytes;
  qe_report : bytes;
  qe_report_signature : bytes;
  qe_auth_data : bytes;
  certification_data : CertificationData;
}.
Definition decode_auth_data_v3 `{SL : !SgxLib} : Decoder AuthDataV3 :=
  signature ← read 64; key ← read 64; report ← read 384; report_signature ← read 64; auth ← read_data16; cert ← decode_certification_data;
  mret (mkAuthDataV3 signature key report report_signature auth cert).

Record AuthDataV4 := mkAuthDataV4 {
  v4_ecdsa_signature : bytes;
  v4_ecdsa_attestation_key : bytes;
  v4_certification_data : CertificationData;
  v4_qe_report_data : QEReportCertificationData;
}.
Definition decode_auth_data_v4 `{SL : !SgxLib} : Decoder AuthDataV4 :=
  signature ← read 64; key ← read 64; cert ← decode_certification_data;
  qe_report_data ← decode_all decode_qe_report_certification_data (cert_body cert) tt;
  mret (mkAuthDataV4 signature key cert qe_report_data).

Inductive AuthData := AuthV3 (d : AuthDataV3) | AuthV4 (d : AuthDataV4).
Definition decode_auth_data `{SL : !SgxLib} (ver : Z) (input : bytes) : Decoder AuthData :=
  if ver =? 3 then AuthV3 <$> decode_all decode_auth_data_v3 input tt
  else if ver =? 4 then AuthV4 <$> decode_all decode_auth_data_v4 input tt
  else fail tt.

Record Quote := mkQuote { q_header : QuoteHeader; q_report : EnclaveReport; q_auth_data : AuthData }.
Definition BODY_SGX_ENCLAVE_REPORT_TYPE : Z := 1.
Definition decode_quote `{SL : !SgxLib} : Decoder Quote :=
  header ← decode_header;
  (if 4 <? qh_version header then
     body_type ← read_le16; size ← read_le32;
     ensure (body_type =? BODY_SGX_ENCLAVE_REPORT_TYPE) tt
   else mret tt);;
  report ← decode_enclave_report;
  data ← read_data32;
  auth_data ← decode_auth_data (qh_version header) data;
  mret (mkQuote header report auth_data).

(** [EnclaveQuoteBody] of an IAS report *)
Record EnclaveQuoteBody := mkQuoteBody {
  qb_version : bytes; sign_type : bytes; epid_group_id : bytes; qb_qe_svn : bytes; qb_pce_svn : bytes; qb_reserved0 : bytes;
  basename : bytes; qb_cpu_svn : bytes; qb_misc_select : bytes; qb_reserved1 : bytes; isv_ext_prod_id : bytes; qb_attributes : bytes;
  qb_mr_enclave : bytes; qb_reserved2 : bytes; qb_mr_signer : bytes; qb_reserved3 : bytes; config_id : bytes;
  qb_isv_prod_id : bytes; qb_isv_svn : bytes; config_svn : bytes; qb_reserved4 : bytes; isv_family_id : bytes; qb_report_data : bytes;
}.
Definition decode_quote_body : Decoder EnclaveQuoteBody :=
  v ← read 2; st ← read 2; gid ← read 4; qe ← read 2; pce ← read 2; r0 ← read 4; bn ← read 32; cpu ← read 16; misc ← read 4;
  r1 ← read 12; ext ← read 16; attr ← read 16; mre ← read 32; r2 ← read 32; mrs ← read 32; r3 ← read 32; cid ← read 64;
  prod ← read 2; svn ← read 2; csvn ← read 2; r4 ← read 42; fam ← read 16; data ← read 64;
  mret (mkQuoteBody v st gid qe pce r0 bn cpu misc r1 ext attr mre r2 mrs r3 cid prod svn csvn r4 fam data).

(** ** Verification

    A function without state that can fail or panic *)
Abbreviation Sgx := (M unit SgxError).

(** [oids]: object identifiers as their encoded bytes; 1.2.840.113741.1.13.1 and below *)
Definition SGX_EXTENSION : bytes := [42; 134; 72; 134; 248; 77; 1; 13; 1].
Definition TCB : bytes := SGX_EXTENSION ++ [2].
Definition FMSPC : bytes := SGX_EXTENSION ++ [4].
Definition PCESVN : bytes := SGX_EXTENSION ++ [2; 17].
Definition CPUSVN : bytes := SGX_EXTENSION ++ [2; 18].

Definition QUOTE_VERSION_V3 : Z := 3.
Definition ATTESTATION_KEY_TYPE_ECDSA256_WITH_P256_CURVE : Z := 2.
Definition HEADER_BYTE_LEN : nat := 48.
Definition ENCLAVE_REPORT_BYTE_LEN : nat := 384.
Definition AUTHENTICATION_DATA_LEN : nat := 32.

Section verify.
Context `{SL : !SgxLib}.

(** *** [dcap/utils.rs] *)

Definition get_intel_extension (der_encoded : bytes) : Sgx bytes :=
  extensions ← ok_or (cert_extensions der_encoded) IntelExtensionCertificateDecodingError;
  match filter (fun e : bytes * bytes => e.1 = SGX_EXTENSION) extensions with
  | [e] => mret e.2
  | _ => fail IntelExtensionAmbiguity
  end.

(** The loop of [sub_obj], from entry [i] on, over [n] more entries *)
Fixpoint sub_obj_loop (oid : bytes) (seq : DerSequence) (i n : nat) : Sgx DerObject :=
  match n with
  | O => fail OidIsMissing
  | S n =>
      entry ← ok_or (seq_get seq i) OidIsMissing;
      entry ← ok_or (sequence_load entry) DerDecodingError;
      name ← ok_or (seq_get entry 0) OidIsMissing;
      value ← ok_or (seq_get entry 1) OidIsMissing;
      if bool_decide (der_value name = oid) then mret value else sub_obj_loop oid seq (S i) n
  end.
Definition sub_obj (oid : bytes) (seq : DerSequence) : Sgx DerObject := sub_obj_loop oid seq 0 (seq_len seq).
Fixpoint get_obj (path : list bytes) (obj : DerObject) : Sgx DerObject :=
  match path with
  | [] => mret obj
  | oid :: path =>
      seq ← ok_or (sequence_load obj) DerDecodingError;
      obj ← sub_obj oid seq;
      get_obj path obj
  end.
Definition find_extension (path : list bytes) (raw : bytes) : Sgx bytes :=
  obj ← ok_or (der_decode raw) DerDecodingError;
  subobj ← get_obj path obj;
  mret (der_value subobj).

Definition get_fmspc (extension_section : bytes) : Sgx bytes :=
  data ← find_extension [FMSPC] extension_section;
  ensure (length data =? 6)%nat FmspcLengthMismatch;;
  mret data.
Definition get_cpu_svn (extension_section : bytes) : Sgx bytes :=
  data ← find_extension [TCB; CPUSVN] extension_section;
  ensure (length data =? 16)%nat CpuSvnLengthMismatch;;
  mret data.
Definition get_pce_svn (extension_section : bytes) : Sgx Z :=
  data ← find_extension [TCB; PCESVN] extension_section;
  match data with
  | [a] => mret a
  | [a; b] => mret (256 * a + b)
  | _ => fail PceSvnLengthMismatch
  end.

Definition extract_certs (cert_chain : bytes) : Sgx (list bytes) := ok_or (pem_parse_many cert_chain) CodecError.

Definition encode_as_der (data : bytes) : Sgx bytes :=
  ensure (length data =? 64)%nat KeyLengthIsInvalid;;
  r ← ok_or (uint_ref (take 32 data)) PublicKeyIsInvalid;
  s ← ok_or (uint_ref (drop 32 data)) PublicKeyIsInvalid;
  ok_or (encode_sequence r s) DerEncodingError.

(** [verification_time] is in milliseconds. *)
Definition verify_certificate_chain (leaf_cert : EndEntityCert) (intermediate_certs : list bytes) (verification_time : Z) : Sgx unit :=
  ensure (verify_for_usage DcapServerRoots leaf_cert intermediate_certs (verification_time / 1000)) CertificateChainIsInvalid.

(** *** [dcap.rs] *)

(** A message signed by the leaf of a chain of certificates; the raw leaf *)
Definition verify_signed (chain message signature : bytes) (now_in_milli : Z) : Sgx bytes :=
  certs ← extract_certs chain;
  match certs with
  | c0 :: c1 :: rest =>
      leaf_cert ← ok_or (end_entity_cert c0) LeafCertificateParsingError;
      verify_certificate_chain leaf_cert (c1 :: rest) now_in_milli;;
      asn1_signature ← encode_as_der signature;
      ensure (cert_verify_signature EcdsaP256Sha256 leaf_cert message asn1_signature) RsaSignatureIsInvalid;;
      mret c0
  | _ => fail CertificateChainIsTooShort
  end.

(** [verify] up to the report of the quoting enclave: the quote, the TCB info, the
    authentication data, the PCK certificate and the report *)
Definition verify_chains (raw_quote : bytes) (quote_collateral : SgxV30QuoteCollateral) (now : Z)
    : Sgx (Quote * TcbInfo * AuthDataV3 * bytes * EnclaveReport) :=
  quote ← decode_all decode_quote raw_quote CodecError;
  info ← ok_or (parse_tcb_info (tcb_info quote_collateral)) CodecError;
  next ← ok_or (parse_from_rfc3339 (next_update info)) CodecError;
  ensure (now <=? wrap 64 next) TCBInfoExpired;;
  let now_in_milli := now *[64] 1000 in
  verify_signed (tcb_info_issuer_chain quote_collateral) (tcb_info quote_collateral) (tcb_info_signature quote_collateral) now_in_milli;;
  ensure (qh_version (q_header quote) =? QUOTE_VERSION_V3) UnsupportedDCAPQuoteVersion;;
  ensure (attestation_key_type (q_header quote) =? ATTESTATION_KEY_TYPE_ECDSA256_WITH_P256_CURVE) UnsupportedDCAPAttestationKeyType;;
  auth_data ← match q_auth_data quote with AuthV3 d => mret d | AuthV4 _ => fail UnsupportedQuoteAuthData end;
  ensure (cert_type (certification_data auth_data) =? 5) UnsupportedDCAPPckCertFormat;;
  pck ← verify_signed (cert_body (certification_data auth_data)) (qe_report auth_data) (qe_report_signature auth_data) now_in_milli;
  qe_enclave_report ← ok_or (run_decoder decode_enclave_report (qe_report auth_data)) CodecError;
  mret (quote, info, auth_data, pck, qe_enclave_report).

(** [qe_hash_data]: the second [copy_from_slice] panics unless it fills the rest. *)
Definition qe_hash_data (auth_data : AuthDataV3) : Sgx bytes :=
  if (length (qe_auth_data auth_data) =? AUTHENTICATION_DATA_LEN)%nat then mret (ecdsa_attestation_key auth_data ++ qe_auth_data auth_data) else panic.

(** The first level the platform reaches *)
Fixpoint tcb_level_of (pce_svn : Z) (cpu_svn : bytes) (levels : list TcbLevel) : bytes * list bytes :=
  match levels with
  | [] => (bs "Unknown", [])
  | l :: levels =>
      if (tcb_pce_svn (tcb l) <=? pce_svn) && negb (existsb (fun ab => ab.1 <? ab.2) (zip cpu_svn (components (tcb l))))
      then (tcb_status l, level_advisory_ids l)
      else tcb_level_of pce_svn cpu_svn levels
  end.

Definition to_be_bytes16 (n : Z) : bytes := [n / 256; n mod 256].

Definition dcap_pruntime_hash (r : EnclaveReport) : bytes :=
  er_mr_enclave r ++ to_be_bytes16 (er_isv_prod_id r) ++ to_be_bytes16 (er_isv_svn r) ++ er_mr_signer r.

(** The report data, the pRuntime hash, the TCB status and the advisories *)
Definition dcap_verify (raw_quote : bytes) (quote_collateral : SgxV30QuoteCollateral) (now : Z) : Sgx (bytes * bytes * bytes * list bytes) :=
  v ← verify_chains raw_quote quote_collateral now;
  let '(quote, info, auth_data, pck, qe_enclave_report) := v in
  hash_data ← qe_hash_data auth_data;
  ensure (bool_decide (sha256 hash_data = take 32 (er_report_data qe_enclave_report))) QEReportHashMismatch;;
  signed ← (if (HEADER_BYTE_LEN + ENCLAVE_REPORT_BYTE_LEN <=? length raw_quote)%nat
            then mret (take (HEADER_BYTE_LEN + ENCLAVE_REPORT_BYTE_LEN) raw_quote) else panic);
  ensure (ecdsa_p256_verify (4 :: ecdsa_attestation_key auth_data) signed (ecdsa_signature auth_data)) IsvEnclaveReportSignatureIsInvalid;;
  extension_section ← get_intel_extension pck;
  cpu_svn ← get_cpu_svn extension_section;
  pce_svn ← get_pce_svn extension_section;
  fmspc ← get_fmspc extension_section;
  tcb_fmspc ← ok_or (hex_decode (ti_fmspc info)) CodecError;
  ensure (bool_decide (fmspc = tcb_fmspc)) FmspcMismatch;;
  let '(status, advisories) := tcb_level_of pce_svn cpu_svn (tcb_levels info) in
  mret (er_report_data (q_report quote), dcap_pruntime_hash (q_report quote), status, advisories).

(** *** [ias.rs] *)

Definition ias_verify_signature (message signature raw_cert : bytes) (now : Z) : Sgx unit :=
  sig_cert ← ok_or (end_entity_cert raw_cert) InvalidCertificate;
  ensure (cert_verify_signature RsaPkcs1Sha256 sig_cert message signature) SgxInvalidSignature;;
  ensure (verify_for_usage IasServerRoots sig_cert [] now) SgxInvalidSignature.

Definition decode_quote_of (r : RaReport) : option EnclaveQuoteBody :=
  quote_body ← base64_decode (isv_enclave_quote_body r);
  run_decoder decode_quote_body quote_body.
End verify.
