(* ===== verification/Attestation.v ===== *)
(** * Remote attestation on chain (pallets/phala/src/utils/attestation.rs, attestation_legacy.rs)

    What a registration has to prove: a quote or report that Intel vouches for,
    from an allowed pRuntime, that commits to the registration data. *)

From S2P Require Import Prelude MqTypes Storage SgxQuote.

Inductive AttestationError :=
  | AePRuntimeRejected | AeInvalidIASSigningCert | AeInvalidReport | AeInvalidQuoteStatus
  | AeBadIASReport | AeOutdatedIASReport | AeUnknownQuoteBodyFormat | AeInvalidUserDataHash
  | AeNoneAttestationDisabled | AeUnsupportedAttestationType | AeInvalidDCAPQuote (e : SgxError).

Record ConfidentialReport := mkConfReport {
  cr_confidence_level : Z;
  cr_provider : option AttestationProvider;
  cr_runtime_hash : bytes;
}.

Record IasFields := mkIasFields {
  mr_enclave : bytes;
  mr_signer : bytes;
  isv_prod_id : bytes;
  isv_svn : bytes;
  report_data : bytes;
  confidence_level : Z;
}.

(** The [Attestation] of the first version of the registration *)
Inductive LegacyAttestation := LegacySgxIas (ra_report signature raw_signing_cert : bytes).

Definition SGX_QUOTE_STATUS_LEVEL_1 : list bytes := [bs "OK"; bs "UpToDate"].
Definition SGX_QUOTE_STATUS_LEVEL_2 : list bytes := [bs "SW_HARDENING_NEEDED"; bs "SWHardeningNeeded"].
Definition SGX_QUOTE_STATUS_LEVEL_3 : list bytes :=
  [bs "CONFIGURATION_NEEDED"; bs "CONFIGURATION_AND_SW_HARDENING_NEEDED"; bs "ConfigurationNeeded"; bs "ConfigurationAndSWHardeningNeeded"].
Definition SGX_QUOTE_STATUS_LEVEL_5 : list bytes := [bs "GROUP_OUT_OF_DATE"; bs "OutOfDate"; bs "OutOfDateConfigurationNeeded"].
Definition SGX_QUOTE_ADVISORY_ID_WHITELIST : list bytes := [bs "INTEL-SA-00334"; bs "INTEL-SA-00219"; bs "INTEL-SA-00381"; bs "INTEL-SA-00389"].

Definition contains (l : list bytes) (x : bytes) : bool := bool_decide (x ∈ l).

Abbreviation Att := (M unit AttestationError).

(** The confidence level of a status: 4 is 3 with an advisory that is not allowed. *)
Definition status_level (status : bytes) : Z :=
  if contains SGX_QUOTE_STATUS_LEVEL_1 status then 1
  else if contains SGX_QUOTE_STATUS_LEVEL_2 status then 2
  else if contains SGX_QUOTE_STATUS_LEVEL_3 status then 3
  else if contains SGX_QUOTE_STATUS_LEVEL_5 status then 5
  else 128.
Definition confidence_of (status : bytes) (advisory_ids : list bytes) : Att Z :=
  let confidence_level := status_level status in
  ensure (negb (confidence_level =? 128)) AeInvalidQuoteStatus;;
  mret (if confidence_level =? 3
        then foldl (fun level id => if contains SGX_QUOTE_ADVISORY_ID_WHITELIST id then level else 4) confidence_level advisory_ids
        else confidence_level).

Definition extend_mrenclave (f : IasFields) : bytes := mr_enclave f ++ isv_prod_id f ++ isv_svn f ++ mr_signer f.

(** Subtraction of [i64]s; [u64] cast to [i64] *)
Definition i64 (z : Z) : Z := (z + 2 ^ 63) mod 2 ^ 64 - 2 ^ 63.

Section attestation.
Context `{SL : !SgxLib}.

Definition from_ias_report (report : bytes) : Att (IasFields * Z) :=
  parsed_report ← ok_or (parse_ra_report report) AeInvalidReport;
  report_timestamp ← ok_or (parse_from_rfc3339 (ra_timestamp parsed_report ++ bs "Z")) AeBadIASReport;
  level ← confidence_of (isv_enclave_quote_status parsed_report) (advisory_ids parsed_report);
  quote ← ok_or (decode_quote_of parsed_report) AeUnknownQuoteBodyFormat;
  mret (mkIasFields (qb_mr_enclave quote) (qb_mr_signer quote) (qb_isv_prod_id quote) (qb_isv_svn quote) (qb_report_data quote) level,
        report_timestamp).

Definition validate_ias_report (user_data_hash report signature raw_signing_cert : bytes) (now : Z) (verify_pruntime_hash : bool)
    (pruntime_allowlist : list bytes) : Att ConfidentialReport :=
  or_err (ias_verify_signature report signature raw_signing_cert now) AeInvalidIASSigningCert;;
  p ← from_ias_report report;
  let '(ias_fields, report_timestamp) := p in
  let pruntime_hash := extend_mrenclave ias_fields in
  ensure (negb (verify_pruntime_hash && negb (contains pruntime_allowlist pruntime_hash))) AePRuntimeRejected;;
  ensure (i64 (i64 now - report_timestamp) <? 7200) AeOutdatedIASReport;;
  ensure (bool_decide (take 32 (report_data ias_fields) = user_data_hash)) AeInvalidUserDataHash;;
  mret (mkConfReport (confidence_level ias_fields) (Some ProvIas) pruntime_hash).

Definition validate_dcap (quote : bytes) (collateral : SgxV30QuoteCollateral) (now : Z) (user_data_hash : bytes) (verify_pruntime_hash : bool)
    (pruntime_allowlist : list bytes) : Att ConfidentialReport :=
  v ← map_err AeInvalidDCAPQuote (dcap_verify quote collateral now);
  let '(report_data, pruntime_hash, tcb_status, advisory_ids) := v in
  ensure (negb (verify_pruntime_hash && negb (contains pruntime_allowlist pruntime_hash))) AePRuntimeRejected;;
  ensure (bool_decide (take 32 report_data = user_data_hash)) AeInvalidUserDataHash;;
  level ← confidence_of tcb_status advisory_ids;
  mret (mkConfReport level (Some ProvDcap) pruntime_hash).

Definition attestation_validate (attestation : option AttestationReport) (user_data_hash : bytes) (now : Z) (verify_pruntime_hash : bool)
    (pruntime_allowlist : list bytes) (opt_out_enabled : bool) : Att ConfidentialReport :=
  match attestation with
  | Some (SgxIas ra_report signature raw_signing_cert) =>
      validate_ias_report user_data_hash ra_report signature raw_signing_cert now verify_pruntime_hash pruntime_allowlist
  | Some (SgxDcap quote collateral) =>
      match collateral with
      | Some (SgxV30 collateral) => validate_dcap quote collateral now user_data_hash verify_pruntime_hash pruntime_allowlist
      | None => fail AeUnsupportedAttestationType
      end
  | None => if opt_out_enabled then mret (mkConfReport 128 None []) else fail AeNoneAttestationDisabled
  end.

(** ** The first version: [IasValidator] *)

Definition legacy_validate_ias_report (report signature raw_signing_cert : bytes) (now : Z) (verify_pruntime : bool)
    (pruntime_allowlist : list bytes) : Att IasFields :=
  or_err (ias_verify_signature report signature raw_signing_cert now) AeInvalidIASSigningCert;;
  p ← from_ias_report report;
  let '(ias_fields, report_timestamp) := p in
  (if verify_pruntime then ensure (contains pruntime_allowlist (extend_mrenclave ias_fields)) AePRuntimeRejected else mret tt);;
  ensure (i64 (i64 now - report_timestamp) <? 7200) AeOutdatedIASReport;;
  mret ias_fields.
Definition legacy_validate (attestation : LegacyAttestation) (user_data_hash : bytes) (now : Z) (verify_pruntime : bool)
    (pruntime_allowlist : list bytes) : Att IasFields :=
  let 'LegacySgxIas ra_report signature raw_signing_cert := attestation in
  fields ← legacy_validate_ias_report ra_report signature raw_signing_cert now verify_pruntime pruntime_allowlist;
  ensure (bool_decide (take 32 (report_data fields) = user_data_hash)) AeInvalidUserDataHash;;
  mret fields.
End attestation.

(** * What a quote that passes the verification proves

    The verification functions against their declarative reading, and where they
    panic. *)

(** ** Reading the bytes of a quote *)

Lemma read_Ok n input a rest : read n input = Ok a rest <-> (n <= length input)%nat /\ a = take n input /\ rest = drop n input.
Proof.
  unfold read. destruct (Nat.leb_spec n (length input)) as [H|H]; [|split; [done|]; intros [H1 _]; lia].
  split; [intros [= <- <-]; done|]. intros (_ & -> & ->). done.
Qed.
Lemma map_Ok {S E A B} (f : A -> B) (m : M S E A) s b s' : (f <$> m) s = Ok b s' <-> exists a, m s = Ok a s' /\ b = f a.
Proof.
  unfold fmap, M_map. destruct (m s) as [a0 s0|e s0|]; [|split; [done|by intros (? & ? & _)]..].
  split; [intros [= <- <-]; eauto|]. intros (a & [= -> ->] & ->). done.
Qed.

(** The bytes from [i] on, [n] of them. *)
Definition slice (i n : nat) (b : bytes) : bytes := take n (drop i b).

(** Inverts a decoder: what it has read are slices of its input. *)
Ltac undecode H :=
  repeat match type of H with
         | (_ ≫= _) _ = Ok _ _ => apply bind_Ok in H; destruct H as (? & ? & ? & H)
         | mret _ _ = Ok _ _ => injection H as <- <-
         end;
  unfold read_le16, read_le32 in *;
  repeat match goal with
         | H : (_ <$> _) _ = Ok _ _ |- _ => apply map_Ok in H as (? & ? & ->)
         | H : read _ _ = Ok _ _ |- _ => apply read_Ok in H as (? & -> & ->)
         end.

Lemma decode_header_Ok input h rest : decode_header input = Ok h rest ->
  (48 <= length input)%nat /\ rest = drop 48 input /\ qh_version h = from_le_bytes (take 2 input).
Proof.
  intros H. unfold decode_header in H. undecode H.
  rewrite !length_drop in *. split; [lia|]. rewrite !drop_drop. done.
Qed.

Lemma decode_report_Ok input r rest : decode_enclave_report input = Ok r rest ->
  (384 <= length input)%nat /\ rest = drop 384 input /\ er_report_data r = slice 320 64 input /\ er_mr_enclave r = slice 64 32 input /\
  er_mr_signer r = slice 128 32 input /\ er_isv_prod_id r = from_le_bytes (slice 256 2 input) /\ er_isv_svn r = from_le_bytes (slice 258 2 input).
Proof.
  intros H. unfold decode_enclave_report in H. undecode H.
  rewrite !length_drop in *. split; [lia|]. unfold slice. cbn [er_report_data er_mr_enclave er_mr_signer er_isv_prod_id er_isv_svn]. rewrite !drop_drop. done.
Qed.

Lemma decode_quote_Ok `{SL : !SgxLib} raw q : run_decoder decode_quote raw = Some q -> qh_version (q_header q) = 3 ->
  (432 <= length raw)%nat /\ exists rest, decode_enclave_report (drop 48 raw) = Ok (q_report q) rest.
Proof.
  unfold run_decoder. destruct (decode_quote raw) as [q' rest|[] ?|] eqn:E; [|done..]. intros [= ->] Hv. unfold decode_quote in E.
  apply bind_Ok in E as (h & r1 & Hh & E). apply decode_header_Ok in Hh as (Hl & -> & _). apply bind_Ok in E as ([] & r2 & Hb & E).
  apply bind_Ok in E as (r & r3 & Hr & E). apply bind_Ok in E as (d & r4 & Hd & E). apply bind_Ok in E as (a & r5 & Ha & E).
  injection E as <- <-. cbn in Hv. rewrite Hv in Hb. injection Hb as <-. pose proof (decode_report_Ok _ _ _ Hr) as (Hl2 & _). rewrite length_drop in Hl2.
  split; [lia|]. by exists r3.
Qed.

Lemma decode_all_Ok {S E A} (d : M bytes unit A) input (e : E) (st st' : S) a : decode_all d input e st = Ok a st' <-> run_decoder d input = Some a /\ st' = st.
Proof. unfold decode_all, run_decoder. destruct (d input); split; try done; [by intros [= -> ->]|by intros [[= ->] ->]|by intros [? _]..]. Qed.
Lemma decode_all_Panic {S E A} (d : M bytes unit A) input (e : E) (st : S) : decode_all d input e st = Panic <-> d input = Panic.
Proof. unfold decode_all. by destruct (d input). Qed.

(** A quote that declares a length beyond what can be allocated does not decode: it
    panics. *)
Definition oversized `{SL : !SgxLib} (raw : bytes) : Prop := decode_quote raw = Panic.

Lemma oversized_length `{SL : !SgxLib} raw : (436 <= length raw)%nat -> from_le_bytes (take 2 raw) <= 4 -> max_alloc < from_le_bytes (slice 432 4 raw) -> oversized raw.
Proof.
  assert (forall n b', (n <= length b')%nat -> read n b' = Ok (take n b') (drop n b')) as Hr by (intros n b' Hn; by apply read_Ok).
  intros Hl Hv Ha. unfold oversized, decode_quote, decode_header, decode_enclave_report, read_data32, read_data, read_le16, read_le32, slice in *.
  unfold mbind, M_bind, fmap, M_map, mret, M_ret. repeat (rewrite Hr by (rewrite ?length_drop; lia)). cbn [qh_version]. rewrite (proj2 (Z.ltb_ge _ _)) by done.
  repeat (rewrite Hr by (rewrite ?length_drop; lia)). rewrite !drop_drop. cbn [Nat.add]. by rewrite (proj2 (Z.ltb_lt _ _)).
Qed.

Lemma to_be_le a b : 0 <= a < 256 -> 0 <= b < 256 -> to_be_bytes16 (from_le_bytes [a; b]) = [b; a].
Proof.
  intros Ha Hb. unfold to_be_bytes16, from_le_bytes. cbn [foldr]. f_equal; [|f_equal].
  - symmetry. apply (Z.div_unique _ _ _ a); lia.
  - symmetry. apply (Z.mod_unique _ _ b); lia.
Qed.

Lemma to_be_reverse b : length b = 2%nat -> Forall (fun x => 0 <= x < 256) b -> to_be_bytes16 (from_le_bytes b) = reverse b.
Proof. destruct b as [|x [|y [|]]]; try done. intros _ [Hx [Hy _]%Forall_cons]%Forall_cons. by apply to_be_le. Qed.

Section verify_lemmas.
Context `{SL : !SgxLib}.

(** [message] carries the signature of the leaf of a chain of certificates that
    leads to the roots of Intel at second [now]. *)
Definition signed_by_intel (chain message signature : bytes) (now : Z) (leaf : bytes) : Prop :=
  exists c1 rest cert der, pem_parse_many chain = Some (leaf :: c1 :: rest) /\ end_entity_cert leaf = Some cert /\
    verify_for_usage DcapServerRoots cert (c1 :: rest) now = true /\ encode_as_der signature tt = Ok der tt /\
    cert_verify_signature EcdsaP256Sha256 cert message der = true.

Lemma unit_state (s : unit) : s = tt.
Proof. by destruct s. Qed.

Lemma encode_as_der_returns d : encode_as_der d tt <> Panic.
Proof. unfold encode_as_der. mrun; done. Qed.

Lemma verify_signed_Ok chain message signature ms leaf u :
  verify_signed chain message signature ms tt = Ok leaf u <-> signed_by_intel chain message signature (ms / 1000) leaf.
Proof.
  destruct u. unfold verify_signed, signed_by_intel, extract_certs, verify_certificate_chain. split.
  - intros H. mrun. rename select (encode_as_der _ _ = _) into E. match type of E with _ = Ok _ ?u => destruct u end. eauto 10.
  - intros (c1 & rest & cert & der & -> & E1 & E2 & E3 & E4). cbn. unfold mbind, M_bind. cbn. rewrite E1. cbn. rewrite E2. cbn. rewrite E3. cbn. by rewrite E4.
Qed.
Lemma verify_signed_returns chain message signature ms : verify_signed chain message signature ms tt <> Panic.
Proof.
  unfold verify_signed, extract_certs, verify_certificate_chain. intros H. mrun.
  rename select (encode_as_der _ _ = Panic) into E. repeat match goal with u : unit |- _ => destruct u end. by apply encode_as_der_returns in E.
Qed.

Lemma find_extension_returns path raw : find_extension path raw tt <> Panic.
Proof.
  assert (forall oid seq n i, sub_obj_loop oid seq i n tt <> Panic) as Hs.
  { intros oid seq n. induction n as [|n IH]; intros i; cbn; [done|]. mrun; done. }
  assert (forall path obj, get_obj path obj tt <> Panic) as Hg.
  { intros p. induction p as [|oid p IH]; intros obj H; [done|]. cbn [get_obj] in H. apply bind_Panic in H as [H|(seq & [] & _ & H)]; [by destruct (sequence_load obj)|].
    apply bind_Panic in H as [H|(o & [] & _ & H)]; [by apply Hs in H|]. by apply IH in H. }
  intros H. unfold find_extension in H. apply bind_Panic in H as [H|(obj & [] & _ & H)]; [by destruct (der_decode raw)|].
  apply bind_Panic in H as [H|(o & [] & _ & H)]; [by apply Hg in H|done].
Qed.

(** ** What a DCAP quote proves *)

(** A quote of version 3 with its TCB info and the certificate of its platform:
    Intel vouches for the TCB info, which is fresh, and for the quoting enclave. *)
Record vouched (raw : bytes) (c : SgxV30QuoteCollateral) (now : Z) (a : AuthDataV3) (info : TcbInfo) (pck : bytes) : Prop := {
  vo_layout : exists q, run_decoder decode_quote raw = Some q /\ qh_version (q_header q) = 3 /\ attestation_key_type (q_header q) = 2 /\ q_auth_data q = AuthV3 a;
  vo_format : cert_type (certification_data a) = 5 /\ (384 <= length (qe_report a))%nat;
  vo_tcb : parse_tcb_info (tcb_info c) = Some info;
  vo_fresh : exists t, parse_from_rfc3339 (next_update info) = Some t /\ now <= wrap 64 t;
  vo_tcb_signed : exists leaf, signed_by_intel (tcb_info_issuer_chain c) (tcb_info c) (tcb_info_signature c) now leaf;
  vo_qe_signed : signed_by_intel (cert_body (certification_data a)) (qe_report a) (qe_report_signature a) now pck;
}.

(** The level of the TCB the platform of the certificate reaches. *)
Definition platform_level (info : TcbInfo) (pck status : bytes) (advisories : list bytes) : Prop :=
  exists ext cpu pce fmspc, get_intel_extension pck tt = Ok ext tt /\ get_cpu_svn ext tt = Ok cpu tt /\ get_pce_svn ext tt = Ok pce tt /\
    get_fmspc ext tt = Ok fmspc tt /\ hex_decode (ti_fmspc info) = Some fmspc /\ tcb_level_of pce cpu (tcb_levels info) = (status, advisories).

(** The quoting enclave reports the attestation key, which signs the header and the
    report of the quote: everything that is taken from the quote lies in there. *)
Definition genuine (raw : bytes) (c : SgxV30QuoteCollateral) (now : Z) (data hash status : bytes) (advisories : list bytes) : Prop :=
  exists a info pck, vouched raw c now a info pck /\ length (qe_auth_data a) = 32%nat /\
    sha256 (ecdsa_attestation_key a ++ qe_auth_data a) = slice 320 32 (qe_report a) /\
    ecdsa_p256_verify (4 :: ecdsa_attestation_key a) (take 432 raw) (ecdsa_signature a) = true /\
    platform_level info pck status advisories /\
    data = slice 368 64 raw /\
    hash = slice 112 32 raw ++ reverse (slice 304 2 raw) ++ reverse (slice 306 2 raw) ++ slice 176 32 raw.

Lemma decode_full_report b r : run_decoder decode_enclave_report b = Some r -> (384 <= length b)%nat /\ er_report_data r = slice 320 64 b.
Proof. unfold run_decoder. destruct (decode_enclave_report b) as [r' rest|[] ?|] eqn:E; [|done..]. intros [= ->]. by apply decode_report_Ok in E as (? & _ & ? & _). Qed.

Lemma decode_report_enough b : (384 <= length b)%nat -> is_Some (run_decoder decode_enclave_report b).
Proof.
  intros H. unfold run_decoder, decode_enclave_report, read_le16, read_le32.
  assert (forall n b', (n <= length b')%nat -> read n b' = Ok (take n b') (drop n b')) as Hr by (intros n b' Hn; by apply read_Ok).
  unfold mbind, M_bind, fmap, M_map. repeat (rewrite Hr by (rewrite ?length_drop; lia)). by eexists.
Qed.

Lemma milli now : 0 <= now < 2 ^ 54 -> (now *[64] 1000) / 1000 = now.
Proof. intros H. rewrite wrap_small by (unfold in_width; lia). by rewrite Z.div_mul. Qed.

Lemma verify_chains_Ok raw c now q info a pck qe : 0 <= now < 2 ^ 54 ->
  verify_chains raw c now tt = Ok (q, info, a, pck, qe) tt <->
  vouched raw c now a info pck /\ run_decoder decode_quote raw = Some q /\ run_decoder decode_enclave_report (qe_report a) = Some qe.
Proof.
  intros Hn. unfold verify_chains. split.
  - intros H. apply bind_Ok in H as (q' & [] & Hq & H). apply bind_Ok in H as (i' & [] & Hi & H). apply bind_Ok in H as (t & [] & Ht & H).
    apply bind_Ok in H as ([] & [] & Hf & H). apply bind_Ok in H as (leaf & [] & Hl & H). apply bind_Ok in H as ([] & [] & Hv & H).
    apply bind_Ok in H as ([] & [] & Hk & H). apply bind_Ok in H as (a' & [] & Ha & H). apply bind_Ok in H as ([] & [] & Hc & H).
    apply bind_Ok in H as (p' & [] & Hp & H). apply bind_Ok in H as (qe' & [] & He & H). injection H as -> -> -> -> ->. apply decode_all_Ok in Hq as [Hq _].
    apply verify_signed_Ok in Hl, Hp. rewrite milli in Hl, Hp by done. mrun. b2p.
    rename select (run_decoder decode_enclave_report _ = _) into Er. pose proof (decode_full_report _ _ Er) as [Hlen _].
    split; [|done]. split; eauto 10.
  - intros ([(q' & Hq & Hv & Hk & Ha) [Hc Hlen] Hi (t & Ht & Hf) [leaf Hl] Hp] & Hq' & He). rewrite Hq' in Hq. injection Hq as <-.
    rewrite <- (milli now Hn) in Hl, Hp. apply (verify_signed_Ok _ _ _ _ _ tt) in Hl, Hp. unfold mbind, M_bind. rewrite (proj2 (decode_all_Ok _ _ _ _ tt _) (conj Hq' eq_refl)), Hi. cbn. rewrite Ht. cbn.
    rewrite (proj2 (Z.leb_le _ _) Hf). cbn. rewrite Hl. rewrite Hv, Hk, Ha. cbn. rewrite Hc. cbn. rewrite Hp, He. done.
Qed.

Lemma verify_chains_Panic raw c now : verify_chains raw c now tt = Panic <-> oversized raw.
Proof.
  split; [|intros H; unfold verify_chains, mbind, M_bind; by rewrite (proj2 (decode_all_Panic _ _ _ _) H)].
  intros H. unfold verify_chains in H. apply bind_Panic in H as [H|(q & [] & _ & H)]; [by apply decode_all_Panic in H|].
  repeat (apply bind_Panic in H as [H|(? & [] & _ & H)]; [try (mrun; done); by apply verify_signed_returns in H|]). done.
Qed.

(** ** The verification decides it *)

Lemma extensions_return pck : get_intel_extension pck tt <> Panic.
Proof. unfold get_intel_extension. mrun; done. Qed.
Lemma svns_return ext : get_cpu_svn ext tt <> Panic /\ get_pce_svn ext tt <> Panic /\ get_fmspc ext tt <> Panic.
Proof.
  unfold get_cpu_svn, get_pce_svn, get_fmspc. split_and!; intros H; apply bind_Panic in H as [H|(d & [] & _ & H)];
    try (by apply find_extension_returns in H); mrun; done.
Qed.

(** What is read from the quote lies in the part that is signed. *)
Lemma quote_fields raw q : run_decoder decode_quote raw = Some q -> qh_version (q_header q) = 3 -> Forall (fun x => 0 <= x < 256) raw ->
  (432 <= length raw)%nat /\ er_report_data (q_report q) = slice 368 64 raw /\
  dcap_pruntime_hash (q_report q) = slice 112 32 raw ++ reverse (slice 304 2 raw) ++ reverse (slice 306 2 raw) ++ slice 176 32 raw.
Proof.
  intros Hq Hv Hb. destruct (decode_quote_Ok raw q Hq Hv) as (Hl & rest & Hr). apply decode_report_Ok in Hr as (_ & _ & Hd & He & Hs & Hp & Hn).
  split; [done|]. unfold dcap_pruntime_hash. rewrite Hd, He, Hs, Hp, Hn. unfold slice. rewrite !drop_drop. cbn [Nat.add].
  assert (forall i, (i + 2 <= 432)%nat -> to_be_bytes16 (from_le_bytes (take 2 (drop i raw))) = reverse (take 2 (drop i raw))) as Hrev.
  { intros i Hi. apply to_be_reverse; [rewrite length_take, length_drop; lia|]. by apply Forall_take, Forall_drop. }
  by rewrite !Hrev by lia.
Qed.

Lemma dcap_verify_Ok raw c now data hash status advisories : 0 <= now < 2 ^ 54 -> Forall (fun x => 0 <= x < 256) raw ->
  dcap_verify raw c now tt = Ok (data, hash, status, advisories) tt <-> genuine raw c now data hash status advisories.
Proof.
  intros Hn Hb. unfold dcap_verify, genuine. split.
  - intros H. apply bind_Ok in H as ([[[[q info] a] pck] qe] & [] & Hc & H). apply (verify_chains_Ok _ _ _ _ _ _ _ _ Hn) in Hc as (Hvo & Hq & Hqe).
    pose proof (vo_layout _ _ _ _ _ _ Hvo) as (q' & Hq' & Hv & _). rewrite Hq in Hq'. injection Hq' as <-.
    destruct (quote_fields raw q Hq Hv Hb) as (Hl & Ed & Eh). destruct (decode_full_report _ _ Hqe) as [_ Er].
    apply bind_Ok in H as (hd & [] & Hhd & H). unfold qe_hash_data in Hhd. destruct (Nat.eqb_spec (length (qe_auth_data a)) AUTHENTICATION_DATA_LEN) as [Hlen|]; [|done]. injection Hhd as <-.
    apply bind_Ok in H as ([] & [] & Hsha & H). apply bind_Ok in H as (sg & [] & Hsg & H). rewrite (proj2 (Nat.leb_le _ _)) in Hsg by done. injection Hsg as <-.
    apply bind_Ok in H as ([] & [] & Hsig & H). apply bind_Ok in H as (ext & [] & Hext & H). apply bind_Ok in H as (cpu & [] & Hcpu & H).
    apply bind_Ok in H as (pce & [] & Hpce & H). apply bind_Ok in H as (fm & [] & Hfm & H). apply bind_Ok in H as (tf & [] & Htf & H).
    apply bind_Ok in H as ([] & [] & Heq & H). destruct (tcb_level_of pce cpu (tcb_levels info)) as [st ad] eqn:Elev. injection H as <- <- <- <-.
    exists a, info, pck. split; [done|]. split; [done|]. rewrite Er in Hsha. unfold slice in Hsha |- *. mrun. b2p. subst. rewrite take_take in *.
    split; [done|]. split; [done|]. split; [|by split; [rewrite Ed|rewrite Eh]]. unfold platform_level. eauto 12.
  - intros (a & info & pck & Hvo & Hlen & Hsha & Hsig & (ext & cpu & pce & fm & Hext & Hcpu & Hpce & Hfm & Htf & Hlev) & -> & ->).
    pose proof (vo_layout _ _ _ _ _ _ Hvo) as (q & Hq & Hv & _). destruct (quote_fields raw q Hq Hv Hb) as (Hl & Ed & Eh).
    destruct (decode_report_enough (qe_report a)) as [qe Hqe]; [apply (vo_format _ _ _ _ _ _ Hvo)|]. destruct (decode_full_report _ _ Hqe) as [_ Er].
    unfold mbind, M_bind. rewrite (proj2 (verify_chains_Ok raw c now q info a pck qe Hn)) by done. unfold qe_hash_data, AUTHENTICATION_DATA_LEN.
    rewrite (proj2 (Nat.eqb_eq _ _) Hlen). cbn [mret M_ret]. unfold mret, M_ret. rewrite Er. unfold slice in Hsha |- *. rewrite take_take.
    rewrite bool_decide_true by done. cbn [ensure]. unfold ensure, mret, M_ret. rewrite (proj2 (Nat.leb_le _ _)) by done.
    change (HEADER_BYTE_LEN + ENCLAVE_REPORT_BYTE_LEN)%nat with 432%nat. rewrite Hsig, Hext, Hcpu, Hpce, Hfm, Htf. cbn. rewrite bool_decide_true by done. cbn.
    rewrite Hlev. cbn. by rewrite Ed, Eh.
Qed.

Lemma verify_chains_layout raw c now q info a pck qe : verify_chains raw c now tt = Ok (q, info, a, pck, qe) tt ->
  run_decoder decode_quote raw = Some q /\ qh_version (q_header q) = 3 /\ q_auth_data q = AuthV3 a.
Proof.
  intros H. unfold verify_chains in H. apply bind_Ok in H as (q' & [] & Hq & H). do 4 apply bind_Ok in H as (? & [] & _ & H).
  apply bind_Ok in H as ([] & [] & Hv & H). apply bind_Ok in H as (? & [] & _ & H). apply bind_Ok in H as (a' & [] & Ha & H).
  do 3 apply bind_Ok in H as (? & [] & _ & H). injection H as -> -> -> -> ->. apply decode_all_Ok in Hq as [Hq _]. mrun. b2p. done.
Qed.

Lemma dcap_verify_Panic_inv raw c now : dcap_verify raw c now tt = Panic ->
  oversized raw \/ exists q info a pck qe, verify_chains raw c now tt = Ok (q, info, a, pck, qe) tt /\ length (qe_auth_data a) <> 32%nat.
Proof.
  intros H. unfold dcap_verify in H. apply bind_Panic in H as [H|([[[[q info] a] pck] qe] & [] & Hc & H)]; [left; by apply verify_chains_Panic in H|].
  right. exists q, info, a, pck, qe. split; [done|]. intros Hlen. apply verify_chains_layout in Hc as (Hq & Hv & _). destruct (decode_quote_Ok raw q Hq Hv) as [Hl _].
  apply bind_Panic in H as [H|(hd & [] & _ & H)]; [unfold qe_hash_data, AUTHENTICATION_DATA_LEN in H; by rewrite (proj2 (Nat.eqb_eq _ _) Hlen) in H|].
  apply bind_Panic in H as [H|([] & [] & _ & H)]; [by mrun|]. apply bind_Panic in H as [H|(sg & [] & _ & H)]; [by rewrite (proj2 (Nat.leb_le _ _)) in H|].
  apply bind_Panic in H as [H|([] & [] & _ & H)]; [by mrun|]. apply bind_Panic in H as [H|(ext & [] & _ & H)]; [by apply extensions_return in H|].
  destruct (svns_return ext) as (S1 & S2 & S3). repeat (apply bind_Panic in H as [H|(? & [] & _ & H)]; [first [by apply S1 in H|by apply S2 in H|by apply S3 in H|by mrun]|]).
  by destruct (tcb_level_of _ _ _).
Qed.

Lemma dcap_verify_Panic raw c now : 0 <= now < 2 ^ 54 ->
  dcap_verify raw c now tt = Panic <-> oversized raw \/ exists a info pck, vouched raw c now a info pck /\ length (qe_auth_data a) <> 32%nat.
Proof.
  intros Hn. split.
  - intros [H|(q & info & a & pck & qe & Hc & Hlen)]%dcap_verify_Panic_inv; [by left|]. right. apply (verify_chains_Ok _ _ _ _ _ _ _ _ Hn) in Hc as (Hvo & _). eauto.
  - intros [H|(a & info & pck & Hvo & Hlen)]; [unfold dcap_verify, mbind, M_bind; by rewrite (proj2 (verify_chains_Panic raw c now) H)|].
    pose proof (vo_layout _ _ _ _ _ _ Hvo) as (q & Hq & _).
    destruct (decode_report_enough (qe_report a)) as [qe Hqe]; [apply (vo_format _ _ _ _ _ _ Hvo)|].
    unfold dcap_verify, mbind, M_bind. rewrite (proj2 (verify_chains_Ok raw c now q info a pck qe Hn)) by done. unfold qe_hash_data, AUTHENTICATION_DATA_LEN.
    by rewrite (proj2 (Nat.eqb_neq _ _)).
Qed.

(** ** Panics of the validation *)

(** A DCAP quote that declares a length beyond what can be allocated, and one whose
    authentication data is not 32 bytes long. *)
Definition oversized_quote (att : option AttestationReport) : Prop := exists quote c, att = Some (SgxDcap quote c) /\ oversized quote.
Definition odd_auth_data (att : option AttestationReport) : Prop :=
  exists quote c q a, att = Some (SgxDcap quote c) /\ run_decoder decode_quote quote = Some q /\ q_auth_data q = AuthV3 a /\
    length (qe_auth_data a) <> 32%nat.

Lemma confidence_returns status advisories : confidence_of status advisories tt <> Panic.
Proof. unfold confidence_of. mrun; done. Qed.
Lemma from_ias_report_returns report : from_ias_report report tt <> Panic.
Proof.
  intros H. unfold from_ias_report in H.
  repeat (apply bind_Panic in H as [H|(? & [] & _ & H)]; [first [by apply confidence_returns in H|by mrun]|]). done.
Qed.
Lemma validate_ias_returns h report sg cert now v allow : validate_ias_report h report sg cert now v allow tt <> Panic.
Proof.
  intros H. unfold validate_ias_report in H. apply bind_Panic in H as [H|(? & [] & _ & H)]; [unfold ias_verify_signature in H; by mrun|].
  apply bind_Panic in H as [H|([f t] & [] & _ & H)]; [by apply from_ias_report_returns in H|]. by mrun.
Qed.
Lemma legacy_validate_returns att h now v allow : legacy_validate att h now v allow tt <> Panic.
Proof.
  destruct att as [report sg cert]. intros H. unfold legacy_validate in H. apply bind_Panic in H as [H|(f & [] & _ & H)]; [|by mrun].
  unfold legacy_validate_ias_report in H. apply bind_Panic in H as [H|(? & [] & _ & H)]; [unfold ias_verify_signature in H; by mrun|].
  apply bind_Panic in H as [H|([f t] & [] & _ & H)]; [by apply from_ias_report_returns in H|]. by mrun.
Qed.
Lemma validate_Panic att h now v allow opt : attestation_validate att h now v allow opt tt = Panic -> oversized_quote att \/ odd_auth_data att.
Proof.
  destruct att as [[report sg cert|quote [[c]|]]|]; cbn; [by intros H%validate_ias_returns| |done|by destruct opt].
  unfold validate_dcap. intros H. apply bind_Panic in H as [H|([[[d hs] st] ad] & [] & _ & H)].
  - unfold map_err in H. destruct (dcap_verify quote c now tt) eqn:E; try done. apply dcap_verify_Panic_inv in E as [E|(q & info & a & pck & qe & Hc & Hlen)]; [left; by exists quote, (Some (SgxV30 c))|].
    right. apply verify_chains_layout in Hc as (Hq & _ & Ha). exists quote, (Some (SgxV30 c)), q, a. done.
  - repeat (apply bind_Panic in H as [H|(? & [] & _ & H)]; [first [by apply confidence_returns in H|by mrun]|]). done.
Qed.
End verify_lemmas.
