(* ===== verification/AttestClaims.v ===== *)
(** * Remote attestation: what a valid one proves

    The validation decides a declarative specification ([attested]); the length of
    the authentication data it does not check; the two byte orders of its
    measurements; and a quote that passes. *)

From S2P Require Import Prelude MqTypes Storage SgxQuote Attestation.

Section attest_claims.
Context `{SL : !SgxLib}.

(** The confidence level of a status with its advisories. *)
Inductive rated (status : bytes) (advisories : list bytes) : Z -> Prop :=
  | Rated1 : status ∈ SGX_QUOTE_STATUS_LEVEL_1 -> rated status advisories 1
  | Rated2 : status ∈ SGX_QUOTE_STATUS_LEVEL_2 -> rated status advisories 2
  | Rated3 : status ∈ SGX_QUOTE_STATUS_LEVEL_3 -> Forall (fun id => id ∈ SGX_QUOTE_ADVISORY_ID_WHITELIST) advisories -> rated status advisories 3
  | Rated4 : status ∈ SGX_QUOTE_STATUS_LEVEL_3 -> Exists (fun id => id ∉ SGX_QUOTE_ADVISORY_ID_WHITELIST) advisories -> rated status advisories 4
  | Rated5 : status ∈ SGX_QUOTE_STATUS_LEVEL_5 -> rated status advisories 5.

(** A report of IAS, signed under a certificate of Intel that is valid at [now]. *)
Definition ias_report (report signature cert : bytes) (now : Z) (status : bytes) (advisories : list bytes) (time : Z) (body : EnclaveQuoteBody) : Prop :=
  exists ec r, end_entity_cert cert = Some ec /\ cert_verify_signature RsaPkcs1Sha256 ec report signature = true /\
    verify_for_usage IasServerRoots ec [] now = true /\ parse_ra_report report = Some r /\ isv_enclave_quote_status r = status /\
    advisory_ids r = advisories /\ parse_from_rfc3339 (ra_timestamp r ++ bs "Z") = Some time /\ decode_quote_of r = Some body.

(** What an accepted attestation proves of the data that hashes to [h]. *)
Definition attested (att : option AttestationReport) (h : bytes) (now : Z) (verify_hash : bool) (allowed : list bytes) (opt_out : bool)
    (r : ConfidentialReport) : Prop :=
  match att with
  | None => opt_out = true /\ r = mkConfReport 128 None []
  | Some (SgxDcap quote c) =>
      exists c' data hash status advisories level, c = Some (SgxV30 c') /\ genuine quote c' now data hash status advisories /\
        rated status advisories level /\ (verify_hash = true -> hash ∈ allowed) /\ take 32 data = h /\
        r = mkConfReport level (Some ProvDcap) hash
  | Some (SgxIas report signature cert) =>
      exists status advisories time body level, ias_report report signature cert now status advisories time body /\
        rated status advisories level /\
        let hash := qb_mr_enclave body ++ qb_isv_prod_id body ++ qb_isv_svn body ++ qb_mr_signer body in
        (verify_hash = true -> hash ∈ allowed) /\ now - time < 7200 /\ take 32 (qb_report_data body) = h /\
        r = mkConfReport level (Some ProvIas) hash
  end.

Lemma advisories_fold l : forall level, foldl (fun level id => if contains SGX_QUOTE_ADVISORY_ID_WHITELIST id then level else 4) level l =
  if decide (Forall (fun id => id ∈ SGX_QUOTE_ADVISORY_ID_WHITELIST) l) then level else 4.
Proof.
  induction l as [|id l IH]; intros level; cbn [foldl]; [done|]. rewrite IH. unfold contains.
  destruct (bool_decide_reflect (id ∈ SGX_QUOTE_ADVISORY_ID_WHITELIST)) as [Hid|Hid].
  - destruct (decide (Forall _ l)) as [Hl|Hl]; [by rewrite decide_True by by constructor|].
    rewrite decide_False; [done|]. by intros [_ ?]%Forall_cons.
  - rewrite (decide_False (P := Forall _ (id :: l))) by (by intros [? _]%Forall_cons). by case_decide.
Qed.

(** The lists of statuses do not overlap. *)
Lemma statuses_disjoint s :
  (s ∈ SGX_QUOTE_STATUS_LEVEL_1 -> status_level s = 1) /\ (s ∈ SGX_QUOTE_STATUS_LEVEL_2 -> status_level s = 2) /\
  (s ∈ SGX_QUOTE_STATUS_LEVEL_3 -> status_level s = 3) /\ (s ∈ SGX_QUOTE_STATUS_LEVEL_5 -> status_level s = 5).
Proof.
  assert (forall (l : list bytes) n, forallb (fun x => status_level x =? n) l = true -> s ∈ l -> status_level s = n) as Hd.
  { intros l n Hf Hs. rewrite forallb_forall in Hf. by apply list_elem_of_In, Hf, Z.eqb_eq in Hs. }
  split_and!; apply Hd; vm_compute; reflexivity.
Qed.

Lemma status_level_inv s : status_level s = 128 \/ s ∈ SGX_QUOTE_STATUS_LEVEL_1 /\ status_level s = 1 \/ s ∈ SGX_QUOTE_STATUS_LEVEL_2 /\ status_level s = 2 \/
  s ∈ SGX_QUOTE_STATUS_LEVEL_3 /\ status_level s = 3 \/ s ∈ SGX_QUOTE_STATUS_LEVEL_5 /\ status_level s = 5.
Proof. unfold status_level, contains. repeat case_bool_decide; tauto. Qed.

Lemma confidence_of_Ok status advisories level : confidence_of status advisories tt = Ok level tt <-> rated status advisories level.
Proof.
  unfold confidence_of. rewrite advisories_fold. destruct (statuses_disjoint status) as (D1 & D2 & D3 & D5). split.
  - intros H. destruct (status_level_inv status) as [E|[[Hs E]|[[Hs E]|[[Hs E]|[Hs E]]]]]; rewrite E in H; cbn in H; [done|..]; injection H as <-; [by constructor..| |by constructor].
    case_decide as Ha; [by apply Rated3|]. apply Rated4; [done|]. apply not_Forall_Exists in Ha; [done|]. intros x. apply _.
  - intros [Hs|Hs|Hs Ha|Hs Ha|Hs]; [rewrite D1 by done|rewrite D2 by done|rewrite D3 by done|rewrite D3 by done|rewrite D5 by done]; cbn; try done.
    + by rewrite decide_True.
    + rewrite decide_False; [done|]. intros Hf. apply Exists_exists in Ha as (x & Hx & Hn). rewrite Forall_forall in Hf. by apply Hn, Hf.
Qed.

Lemma allowed_iff v hash allowed : negb (v && negb (contains allowed hash)) = true <-> (v = true -> hash ∈ allowed).
Proof. unfold contains. destruct v; cbn; [|done]. rewrite negb_involutive, bool_decide_eq_true. naive_solver. Qed.

Lemma ias_signature_Ok report signature cert now : ias_verify_signature report signature cert now tt = Ok tt tt <->
  exists ec, end_entity_cert cert = Some ec /\ cert_verify_signature RsaPkcs1Sha256 ec report signature = true /\ verify_for_usage IasServerRoots ec [] now = true.
Proof.
  unfold ias_verify_signature, mbind, M_bind, ok_or, ensure. destruct (end_entity_cert cert) as [ec|]; cbn; [|split; [done|by intros (? & ? & _)]].
  destruct (cert_verify_signature _ ec _ _) eqn:E1; cbn; [|split; [done|intros (? & [= <-] & ? & _); congruence]].
  destruct (verify_for_usage _ ec _ _) eqn:E2; cbn; [|split; [done|intros (? & [= <-] & _ & ?); congruence]]. split; eauto.
Qed.

(** Dates of [chrono] lie within some 262,000 years of 1970. *)
Context (chrono_range : forall b t, parse_from_rfc3339 b = Some t -> - 2 ^ 62 <= t < 2 ^ 62).

Lemma age now time : 0 <= now < 2 ^ 54 -> - 2 ^ 62 <= time < 2 ^ 62 -> i64 (i64 now - time) = now - time.
Proof. intros H1 H2. unfold i64. rewrite (Z.mod_small (now + 2 ^ 63)) by lia. rewrite Z.mod_small; lia. Qed.

Lemma validate_ias_Ok h report signature cert now v allowed r : 0 <= now < 2 ^ 54 ->
  validate_ias_report h report signature cert now v allowed tt = Ok r tt <-> attested (Some (SgxIas report signature cert)) h now v allowed false r.
Proof.
  intros Hn. unfold validate_ias_report. split.
  - intros H. apply bind_Ok in H as ([] & [] & Hs & H). apply bind_Ok in H as ([f t] & [] & Hf & H). apply bind_Ok in H as ([] & [] & Ha & H).
    apply bind_Ok in H as ([] & [] & Ht & H). apply bind_Ok in H as ([] & [] & Hd & H). injection H as <-.
    unfold or_err in Hs. destruct (ias_verify_signature _ _ _ _ tt) as [[] []| |] eqn:Es; try done. apply ias_signature_Ok in Es as (ec & Ec & E1 & E2).
    unfold from_ias_report in Hf. apply bind_Ok in Hf as (p & [] & Hp & Hf). apply bind_Ok in Hf as (t' & [] & Ht' & Hf). apply bind_Ok in Hf as (level & [] & Hl & Hf).
    apply bind_Ok in Hf as (body & [] & Hb & Hf). injection Hf as <- <-. apply confidence_of_Ok in Hl. unfold ok_or, ensure in *. cbn [report_data confidence_level] in *.
    destruct (parse_ra_report report) as [p'|] eqn:Ep; [|done]. injection Hp as <-. destruct (parse_from_rfc3339 _) as [t2|] eqn:Et; [|done]. injection Ht' as <-.
    destruct (decode_quote_of p') as [b'|] eqn:Eb; [|done]. injection Hb as <-. rewrite (age now t2 Hn (chrono_range _ _ Et)) in Ht.
    destruct (negb _) eqn:Ea in Ha; [|done]. pose proof (proj1 (allowed_iff _ _ _) Ea) as Hal. destruct (_ <? 7200) eqn:El in Ht; [|done]. destruct (bool_decide _) eqn:Eh in Hd; [|done]. b2p.
    exists (isv_enclave_quote_status p'), (advisory_ids p'), t2, b', level. split; [exists ec, p'; done|]. done.
  - intros (status & advs & time & body & level & (ec & p & E1 & E2 & E3 & E4 & <- & <- & E5 & E6) & Hl & Ha & Ht & Hd & ->).
    unfold mbind, M_bind, or_err, from_ias_report. rewrite (proj2 (ias_signature_Ok report signature cert now)) by eauto. unfold mbind, M_bind, ok_or. rewrite E4. unfold mret, M_ret.
    rewrite E5. rewrite (proj2 (confidence_of_Ok _ _ _) Hl). rewrite E6. cbn. unfold extend_mrenclave. cbn. rewrite (proj2 (allowed_iff _ _ _) Ha). cbn.
    rewrite (age now time Hn (chrono_range _ _ E5)), (proj2 (Z.ltb_lt _ _) Ht). cbn. by rewrite bool_decide_true.
Qed.

(** C13: the validation of an attestation accepts exactly what is attested: a quote
    or report under Intel's roots, fresh (an IAS report not older than 7200 seconds,
    the TCB info of a DCAP quote not past its next update), from an allowed pRuntime
    when that is required, that commits to the registration data, with the
    confidence level of its status; no report at all exactly when opting out is
    enabled, with the lowest confidence and no pRuntime. For DCAP all that is taken
    from the quote lies in the part signed by the attestation key, which the quoting
    enclave vouches for. *)
Theorem attestation_decides att h now verify_hash allowed opt_out r :
  0 <= now < 2 ^ 54 -> (forall quote c, att = Some (SgxDcap quote c) -> Forall (fun x => 0 <= x < 256) quote) ->
  attestation_validate att h now verify_hash allowed opt_out tt = Ok r tt <-> attested att h now verify_hash allowed opt_out r.
Proof.
  intros Hn Hb. destruct att as [[report sg cert|quote [[c]|]]|]; cbn - [attested].
  - by apply validate_ias_Ok.
  - specialize (Hb quote _ eq_refl). unfold validate_dcap. split.
    + intros H. apply bind_Ok in H as ([[[data hash] status] advs] & [] & Hv & H). unfold map_err in Hv.
      destruct (dcap_verify quote c now tt) as [[[[d0 h0] s0] a0] []| |] eqn:E; try done. injection Hv as -> -> -> ->. apply (dcap_verify_Ok _ _ _ _ _ _ _ Hn Hb) in E.
      apply bind_Ok in H as ([] & [] & Ha & H). apply bind_Ok in H as ([] & [] & Hd & H). apply bind_Ok in H as (level & [] & Hl & H). injection H as <-.
      apply confidence_of_Ok in Hl. unfold ensure in *. destruct (negb _) eqn:Ea in Ha; [|done]. pose proof (proj1 (allowed_iff _ _ _) Ea) as Hal. destruct (bool_decide _) eqn:Eh in Hd; [|done]. b2p.
      exists c, data, hash, status, advs, level. done.
    + intros (c' & data & hash & status & advs & level & [= <-] & Hg & Hl & Ha & Hd & ->). apply (dcap_verify_Ok _ _ _ _ _ _ _ Hn Hb) in Hg.
      unfold mbind, M_bind, map_err. rewrite Hg. unfold ensure. rewrite (proj2 (allowed_iff _ _ _) Ha). cbn. rewrite bool_decide_true by done. cbn.
      by rewrite (proj2 (confidence_of_Ok _ _ _) Hl).
  - split; [done|]. by intros (c' & ? & ? & ? & ? & ? & ? & _).
  - destruct opt_out; cbn; [|split; [done|by intros [? _]]]. split; [by intros [= <-]|]. by intros [_ ->].
Qed.

(** The length of the authentication data of the quoting enclave is never checked
    before it is copied into a buffer of 32 bytes, and the lengths a quote declares
    are not checked before buffers of that size are allocated: the validation, and
    with it the registration call of the pallet, panics exactly on a quote that
    declares a length beyond what can be allocated, which nobody has to sign
    ([oversized_length]), and on one that is genuine up to there with
    authentication data of another length than 32. *)
Theorem dcap_auth_data_panics quote c h now verify_hash allowed opt_out : 0 <= now < 2 ^ 54 ->
  attestation_validate (Some (SgxDcap quote (Some (SgxV30 c)))) h now verify_hash allowed opt_out tt = Panic <->
  oversized quote \/ exists a info pck, vouched quote c now a info pck /\ length (qe_auth_data a) <> 32%nat.
Proof.
  intros Hn. rewrite <- (dcap_verify_Panic quote c now Hn). cbn. unfold validate_dcap. split.
  - intros H. apply bind_Panic in H as [H|([[[d hs] st] ad] & [] & _ & H)].
    + unfold map_err in H. by destruct (dcap_verify quote c now tt).
    + repeat (apply bind_Panic in H as [H|(? & [] & _ & H)]; [first [by apply confidence_returns in H|by mrun]|]). done.
  - intros E. unfold mbind, M_bind, map_err. by rewrite E.
Qed.

(** The two validations hash the same enclave in two ways: IAS takes the bytes
    of the product id and the security version as they are, DCAP swaps them. The
    hashes to allow agree only if both are palindromes. *)
Theorem runtime_hashes_differ f r p0 p1 v0 v1 : 0 <= p0 < 256 -> 0 <= p1 < 256 -> 0 <= v0 < 256 -> 0 <= v1 < 256 ->
  isv_prod_id f = [p0; p1] -> isv_svn f = [v0; v1] -> er_isv_prod_id r = from_le_bytes [p0; p1] -> er_isv_svn r = from_le_bytes [v0; v1] ->
  mr_enclave f = er_mr_enclave r -> mr_signer f = er_mr_signer r ->
  extend_mrenclave f = dcap_pruntime_hash r <-> p0 = p1 /\ v0 = v1.
Proof.
  intros Hp0 Hp1 Hv0 Hv1 Ep Ev Erp Erv Em Es. unfold extend_mrenclave, dcap_pruntime_hash. rewrite Ep, Ev, Erp, Erv, Em, Es, !to_be_le by done. split.
  - intros H. apply app_inv_head in H. by injection H as -> _ -> _.
  - by intros [-> ->].
Qed.
End attest_claims.

(** ** A toy of the libraries, and a quote that passes

    Checksums stand for hashes and signatures. *)

Definition checksum (b : bytes) : Z := foldl Z.add 0 b mod 256.
Inductive ToyDer := TBytes (b : bytes) | TSeq (l : list ToyDer).

(** The extension of the certificate of a platform *)
Definition toy_extension : ToyDer :=
  TSeq [TSeq [TBytes TCB; TSeq [TSeq [TBytes PCESVN; TBytes [5]]; TSeq [TBytes CPUSVN; TBytes (repeat 3 16)]]]; TSeq [TBytes FMSPC; TBytes (repeat 1 6)]].
(** A level the platform does not reach, and the one it does *)
Definition toy_tcb_info : TcbInfo :=
  mkTcbInfo [] 3 [] [] (repeat 1 6) [] 0 0 [mkTcbLevel (mkTcb (repeat 4 16) 5) [] (bs "UpToDate") []; mkTcbLevel (mkTcb (repeat 3 16) 5) [] (bs "SWHardeningNeeded") []].

#[global] Instance toy_sgx : SgxLib := {|
  max_alloc := 2 ^ 25;
  parse_ra_report b := Some (mkRaReport [] [] 4 [] [] [] (bs "SW_HARDENING_NEEDED") b);
  parse_tcb_info _ := Some toy_tcb_info;
  parse_from_rfc3339 _ := Some 1000;
  base64_decode b := Some (take 432 (b ++ repeat 0 432));
  hex_decode b := Some b;
  pem_parse_many b := Some [b; [0]];
  EndEntityCert := bytes;
  end_entity_cert b := Some b;
  cert_verify_signature _ _ message signature := bool_decide (signature = repeat (checksum message) 64);
  verify_for_usage _ _ _ _ := true;
  DerUint := bytes;
  uint_ref b := Some b;
  encode_sequence r s := Some (r ++ s);
  cert_extensions b := Some [(SGX_EXTENSION, b)];
  DerObject := ToyDer;
  DerSequence := list ToyDer;
  der_decode _ := Some toy_extension;
  sequence_load d := match d with TSeq l => Some l | TBytes _ => None end;
  seq_len := length;
  seq_get l i := l !! i;
  der_value d := match d with TBytes b => b | TSeq _ => [] end;
  sha256 b := repeat (checksum b) 32;
  ecdsa_p256_verify key message signature := bool_decide (signature = repeat (checksum (key ++ message)) 64);
|}.

Lemma toy_chrono b t : parse_from_rfc3339 b = Some t -> - 2 ^ 62 <= t < 2 ^ 62.
Proof. intros [= <-]. lia. Qed.

(** An enclave that commits to [9 .. 9], quoted with authentication data [auth] *)
Definition key1 : bytes := repeat 8 64.
Definition signed1 : bytes := [3; 0; 2; 0] ++ repeat 0 44 ++ repeat 0 64 ++ repeat 6 32 ++ repeat 0 224 ++ repeat 9 32 ++ repeat 0 32.
Definition qe_report1 (auth : bytes) : bytes := repeat 0 320 ++ sha256 (key1 ++ auth) ++ repeat 0 32.
Definition quote1 (auth : bytes) : bytes :=
  let body := repeat (checksum (4 :: key1 ++ signed1)) 64 ++ key1 ++ qe_report1 auth ++ repeat (checksum (qe_report1 auth)) 64 ++
    [Z.of_nat (length auth); 0] ++ auth ++ [5; 0; 1; 0; 0; 0; 7] in
  signed1 ++ [Z.of_nat (length body) mod 256; Z.of_nat (length body) / 256; 0; 0] ++ body.
Definition collateral1 : SgxV30QuoteCollateral := mkCollateral [] [] [] [] [] (repeat 0 64) [] [] [].
Definition hash1 : bytes := repeat 6 32 ++ [0; 0; 0; 0] ++ repeat 0 32.
Definition att1 (auth : bytes) : option AttestationReport := Some (SgxDcap (quote1 auth) (Some (SgxV30 collateral1))).

Lemma quote1_bytes : Forall (fun x => 0 <= x < 256) (quote1 (repeat 1 32)).
Proof.
  apply Forall_forall. intros x Hx. assert (forallb (fun x => (0 <=? x) && (x <? 256)) (quote1 (repeat 1 32)) = true) as H by (vm_compute; reflexivity).
  rewrite forallb_forall in H. apply list_elem_of_In, H in Hx. b2p. lia.
Qed.

Lemma attestation_decides_witness :
  attestation_validate (att1 (repeat 1 32)) (repeat 9 32) 1000 true [hash1] false tt = Ok (mkConfReport 2 (Some ProvDcap) hash1) tt /\
  attested (att1 (repeat 1 32)) (repeat 9 32) 1000 true [hash1] false (mkConfReport 2 (Some ProvDcap) hash1).
Proof.
  assert (attestation_validate (att1 (repeat 1 32)) (repeat 9 32) 1000 true [hash1] false tt = Ok (mkConfReport 2 (Some ProvDcap) hash1) tt) as E by (vm_compute; reflexivity).
  split; [exact E|]. apply (attestation_decides toy_chrono); [lia| |exact E]. intros quote c [= <- <-]. exact quote1_bytes.
Defined.

(** The same quote with 31 bytes of authentication data, and 436 bytes that declare
    four gigabytes more *)
Lemma dcap_auth_data_panics_witness :
  attestation_validate (att1 (repeat 1 31)) (repeat 9 32) 1000 true [hash1] false tt = Panic /\
  exists a info pck, vouched (quote1 (repeat 1 31)) collateral1 1000 a info pck /\ length (qe_auth_data a) <> 32%nat.
Proof.
  assert (attestation_validate (att1 (repeat 1 31)) (repeat 9 32) 1000 true [hash1] false tt = Panic) as E by (vm_compute; reflexivity).
  split; [exact E|]. destruct (proj1 (dcap_auth_data_panics (quote1 (repeat 1 31)) collateral1 (repeat 9 32) 1000 true [hash1] false ltac:(lia)) E) as [H|H]; [|exact H].
  exfalso. unfold oversized in H. vm_compute in H. discriminate H.
Defined.
Definition huge_quote : bytes := [3; 0] ++ repeat 0 430 ++ [255; 255; 255; 255].
Lemma huge_quote_panics : oversized huge_quote.
Proof. apply oversized_length; vm_compute; try reflexivity; try discriminate; repeat constructor. Defined.

(** Product 2 in version 0 *)
Lemma runtime_hashes_differ_witness :
  extend_mrenclave (mkIasFields [] [] [2; 0] [0; 0] [] 1) = dcap_pruntime_hash (mkEnclaveReport [] 0 [] [] [] [] [] [] 2 0 [] []) <-> 2 = 0 /\ 0 = 0.
Proof. apply runtime_hashes_differ; (lia || reflexivity). Defined.
