(* ===== verification/Registry.v ===== *)
(** * The registry pallet (pallets/phala/src/registry.rs)

    Registration of workers and gatekeepers, the master key and its rotation,
    the allow lists, and the handlers of the registry's own messages. The pallet's
    [Config] constants and the hashes of registration data are the class
    [RegConfig]. *)

From S2P Require Import Prelude MqTypes Storage MqPallet PalletMsg SgxQuote Attestation.

(** ** Inputs *)

(** [impl From<AttestationError> for Error<T>] *)
Definition from_attestation_error (e : AttestationError) : RegError :=
  match e with
  | AePRuntimeRejected => PRuntimeRejected
  | AeInvalidIASSigningCert => InvalidIASSigningCert
  | AeInvalidReport => InvalidReport
  | AeInvalidQuoteStatus => InvalidQuoteStatus
  | AeBadIASReport => BadIASReport
  | AeOutdatedIASReport => OutdatedIASReport
  | AeUnknownQuoteBodyFormat => UnknownQuoteBodyFormat
  | AeInvalidUserDataHash => InvalidRuntimeInfoHash
  | AeNoneAttestationDisabled => NoneAttestationDisabled
  | AeUnsupportedAttestationType => UnsupportedAttestationType
  | AeInvalidDCAPQuote _ => InvalidDCAPQuote
  end.

Record WorkerRegistrationInfo := mkRegInfo {
  ri_version : Z;
  ri_machine_id : bytes;
  ri_pubkey : WorkerPublicKey;
  ri_ecdh_pubkey : EcdhPublicKey;
  ri_genesis_block_hash : H256;
  ri_features : list Z;
  ri_operator : option Account;
}.

Record WorkerRegistrationInfoV2 := mkRegInfoV2 {
  ri2_info : WorkerRegistrationInfo; (** the fields shared with V1 *)
  ri2_para_id : Z;
  ri2_max_consensus_version : Z;
}.

Record WorkerEndpointPayload := mkEndpoint {
  ep_pubkey : WorkerPublicKey;
  ep_versioned_endpoints : list bytes;
  ep_signing_time : Z;
}.

Class RegConfig := {
  governance_origin : Origin -> bool;
  VerifyRelaychainGenesisBlockHash : bool;
  ParachainId : Z;
  VerifyPRuntime : bool;
  NoneAttestationEnabled : bool;
  reg_sgx_lib :: SgxLib;
  (** [blake2_256] of the encoded registration data *)
  runtime_info_hash : WorkerRegistrationInfo -> bytes;
  runtime_info_hash_v2 : WorkerRegistrationInfoV2 -> bytes;
  encode_endpoint : WorkerEndpointPayload -> bytes;
}.

Section registry.
Context {X : Type} `{MC : !MqCodec} `{SR : !Sr25519} `{QN : !QueueNotifyConfig X} `{CC : !ChainCodec}
  `{RC : !RegConfig} `{BE : !BlockEnv}.

Definition reg_event (e : RegEvent) : H X unit := deposit_event (EvReg e).
Definition push_reg (e : SystemEvent) : H X unit := push_system registry_origin e.
Definition mod_reg (f : RegState -> RegState) : H X unit := modify (upd_reg f).

Definition ensure_governance (o : Origin) : H X unit := ensure (governance_origin o) BadOrigin.

(** ** Calls *)

Definition force_set_benchmark_duration (origin : Origin) (value : Z) : H X unit :=
  ensure_governance origin;;
  mod_reg (put_benchmark_duration (Some value)).

Definition force_register_worker (origin : Origin) (pubkey : WorkerPublicKey)
    (ecdh_pubkey : EcdhPublicKey) (operator : option Account) : H X unit :=
  ensure_root origin;;
  let worker_info :=
    mkWorkerInfo pubkey ecdh_pubkey 0 1 operator (Some ProvRoot) 128 None [1; 4] in
  mod_reg (fun r => put_workers (<[ pubkey := worker_info ]> (workers r)) r);;
  mod_reg (fun r => put_worker_added_at (<[ pubkey := block_number ]> (worker_added_at r)) r);;
  push_reg (new_worker_event pubkey (WRegistered (w_confidence_level worker_info)));;
  reg_event (WorkerAdded pubkey (Some ProvRoot) (w_confidence_level worker_info)).

Definition force_register_topic_pubkey (origin : Origin) (topic pubkey : bytes) : H X unit :=
  ensure_root origin;;
  mod_reg (fun r => put_topic_key (<[ topic := pubkey ]> (topic_key r)) r).

Definition register_gatekeeper (origin : Origin) (gatekeeper : WorkerPublicKey) : H X unit :=
  ensure_governance origin;;
  r ← gets reg;
  ensure (bool_decide (rotation_lock r = None)) (RegErr MasterKeyInRotation);;
  ensure (bool_decide (gatekeepers r = []) || bool_decide (is_Some (gk_master_pubkey r)))
    (RegErr MasterKeyUninitialized);;
  (if bool_decide (gatekeeper ∈ gatekeepers r) then mret tt
   else
     worker_info ← ok_or (workers r !! gatekeeper) (RegErr WorkerNotFound);
     let gks := gatekeepers r ++ [gatekeeper] in
     mod_reg (put_gatekeepers gks);;
     (if Nat.eqb (length gks) 1 then
        push_gk_launch registry_origin (FirstGatekeeper gatekeeper (w_ecdh_pubkey worker_info))
      else
        push_gk_change registry_origin (GkRegistered gatekeeper (w_ecdh_pubkey worker_info))));;
  reg_event (GatekeeperAdded gatekeeper).

Definition unregister_gatekeeper (origin : Origin) (gatekeeper : WorkerPublicKey) : H X unit :=
  ensure_governance origin;;
  r ← gets reg;
  ensure (bool_decide (rotation_lock r = None)) (RegErr MasterKeyInRotation);;
  ensure (bool_decide (gatekeeper ∈ gatekeepers r)) (RegErr InvalidGatekeeper);;
  ensure (Nat.ltb 1 (length (gatekeepers r))) (RegErr CannotRemoveLastGatekeeper);;
  mod_reg (put_gatekeepers (filter (fun g => g <> gatekeeper) (gatekeepers r)));;
  push_gk_change registry_origin (GkUnregistered gatekeeper).

(** [gatekeepers.iter().map(..).collect::<Result<Vec<_>, _>>()] *)
Fixpoint gk_identities (ws : gmap WorkerPublicKey WorkerInfoV2) (gks : list WorkerPublicKey)
    : option (list WorkerIdentity) :=
  match gks with
  | [] => Some []
  | gk :: gks' =>
      match ws !! gk, gk_identities ws gks' with
      | Some wi, Some l => Some (mkIdentity (w_pubkey wi) (w_ecdh_pubkey wi) :: l)
      | _, _ => None
      end
  end.

Definition rotate_master_key (origin : Origin) : H X unit :=
  ensure_governance origin;;
  r ← gets reg;
  ensure (bool_decide (rotation_lock r = None)) (RegErr MasterKeyInRotation);;
  ids ← ok_or (gk_identities (workers r) (gatekeepers r)) (RegErr WorkerNotFound);
  let rotation_id := rotation_counter r +[64] 1 in
  mod_reg (put_rotation_counter rotation_id);;
  mod_reg (put_rotation_lock (Some rotation_id));;
  push_gk_launch registry_origin (RotateMasterKey rotation_id ids).

Definition lift_attestation {A} (v : M unit AttestationError A) : H X A :=
  match v tt with Ok a _ => mret a | Err e _ => fail (RegErr (from_attestation_error e)) | Panic => panic end.

Definition check_genesis (info : WorkerRegistrationInfo) : H X unit :=
  if VerifyRelaychainGenesisBlockHash then
    r ← gets reg;
    ensure (bool_decide (ri_genesis_block_hash info ∈ genesis_allowlist r))
      (RegErr GenesisBlockHashRejected)
  else mret tt.

(** [Workers::<T>::mutate(pubkey, ..)] of both registration calls. *)
Definition upsert_worker (info : WorkerRegistrationInfo) (now confidence : Z)
    (provider : option AttestationProvider) : H X unit :=
  r ← gets reg;
  let pubkey := ri_pubkey info in
  match workers r !! pubkey with
  | Some wi =>
      let wi' := mkWorkerInfo (w_pubkey wi) (w_ecdh_pubkey wi) (ri_version info) now (ri_operator info)
        (w_attestation_provider wi) confidence (w_initial_score wi) (ri_features info) in
      push_reg (new_worker_event pubkey (WRegistered confidence));;
      reg_event (WorkerUpdated pubkey provider confidence);;
      mod_reg (fun r => put_workers (<[ pubkey := wi' ]> (workers r)) r)
  | None =>
      let wi' := mkWorkerInfo pubkey (ri_ecdh_pubkey info) (ri_version info) now (ri_operator info)
        provider confidence None (ri_features info) in
      push_reg (new_worker_event pubkey (WRegistered confidence));;
      reg_event (WorkerAdded pubkey provider confidence);;
      mod_reg (fun r => put_worker_added_at (<[ pubkey := block_number ]> (worker_added_at r)) r);;
      mod_reg (fun r => put_workers (<[ pubkey := wi' ]> (workers r)) r)
  end.

Definition start_benchmark (pubkey : WorkerPublicKey) : H X unit :=
  r ← gets reg;
  push_reg (new_worker_event pubkey (BenchStart (default 0 (benchmark_duration r)))).

Definition register_worker (origin : Origin) (info : WorkerRegistrationInfo)
    (attestation : LegacyAttestation) : H X unit :=
  _ ← ensure_signed origin;
  let now := now_sec in
  r ← gets reg;
  fields ← lift_attestation (legacy_validate attestation (runtime_info_hash info) now VerifyPRuntime (pruntime_allowlist r));
  check_genesis info;;
  upsert_worker info now (confidence_level fields) (Some ProvIas);;
  start_benchmark (ri_pubkey info).

(** [MaxKnownPRuntimeConsensusVersion::<T>::mutate(..)] *)
Definition bump_known_version (v : Z) (known : Z * Z) : Z * Z :=
  if known.1 <? v then (v, 1)
  else if known.1 =? v then (known.1, known.2 +[32] 1)
  else known.

Definition register_worker_v2 (origin : Origin) (info : WorkerRegistrationInfoV2)
    (attestation : option AttestationReport) : H X unit :=
  _ ← ensure_signed origin;
  let now := now_sec in
  r ← gets reg;
  report ← lift_attestation (attestation_validate attestation (runtime_info_hash_v2 info) now VerifyPRuntime (pruntime_allowlist r) NoneAttestationEnabled);
  ensure (ri2_para_id info =? ParachainId) (RegErr ParachainIdMismatch);;
  check_genesis (ri2_info info);;
  mod_reg (fun r =>
    put_max_known_version (bump_known_version (ri2_max_consensus_version info) (max_known_version r)) r);;
  upsert_worker (ri2_info info) now (cr_confidence_level report) (cr_provider report);;
  start_benchmark (ri_pubkey (ri2_info info)).

Definition ENDPOINT_EXPIRATION : Z := 4 * 60 * 60 * 1000.

Definition update_worker_endpoint (origin : Origin) (ep : WorkerEndpointPayload) (sig : bytes)
    : H X unit :=
  _ ← ensure_signed origin;
  ensure (Nat.eqb (length sig) 64) (RegErr InvalidSignatureLength);;
  sg ← ok_or (sr25519_signature sig) (RegErr MalformedSignature);
  let data_to_sign := wrap_content_to_sign (encode_endpoint ep) EndpointInfo in
  ensure (sr25519_verify sg data_to_sign (ep_pubkey ep)) (RegErr InvalidSignature);;
  ensure ((ep_signing_time ep <? now_ms) && (now_ms <=? (ep_signing_time ep +[64] ENDPOINT_EXPIRATION)))
    (RegErr InvalidEndpointSigningTime);;
  r ← gets reg;
  ensure (bool_decide (is_Some (workers r !! ep_pubkey ep))) (RegErr InvalidPubKey);;
  mod_reg (fun r => put_endpoints (<[ ep_pubkey ep := ep_versioned_endpoints ep ]> (endpoints r)) r).

Definition add_pruntime (origin : Origin) (hash : bytes) : H X unit :=
  ensure_governance origin;;
  r ← gets reg;
  ensure (negb (bool_decide (hash ∈ pruntime_allowlist r))) (RegErr PRuntimeAlreadyExists);;
  mod_reg (put_pruntime_allowlist (pruntime_allowlist r ++ [hash]));;
  mod_reg (fun r => put_pruntime_added_at (<[ hash := block_number ]> (pruntime_added_at r)) r).

Definition remove_pruntime (origin : Origin) (hash : bytes) : H X unit :=
  ensure_governance origin;;
  r ← gets reg;
  ensure (bool_decide (hash ∈ pruntime_allowlist r)) (RegErr PRuntimeNotFound);;
  mod_reg (put_pruntime_allowlist (filter (fun h => h <> hash) (pruntime_allowlist r)));;
  mod_reg (fun r => put_pruntime_added_at (delete hash (pruntime_added_at r)) r).

Definition add_relaychain_genesis_block_hash (origin : Origin) (hash : H256) : H X unit :=
  ensure_governance origin;;
  r ← gets reg;
  ensure (negb (bool_decide (hash ∈ genesis_allowlist r))) (RegErr GenesisBlockHashAlreadyExists);;
  mod_reg (put_genesis_allowlist (genesis_allowlist r ++ [hash])).

Definition remove_relaychain_genesis_block_hash (origin : Origin) (hash : H256) : H X unit :=
  ensure_governance origin;;
  r ← gets reg;
  ensure (bool_decide (hash ∈ genesis_allowlist r)) (RegErr GenesisBlockHashNotFound);;
  mod_reg (put_genesis_allowlist (filter (fun h => h <> hash) (genesis_allowlist r))).

Definition set_minimum_pruntime_version (origin : Origin) (major minor patch : Z) : H X unit :=
  ensure_governance origin;;
  mod_reg (put_min_pruntime_version (major, minor, patch));;
  reg_event (MinimumPRuntimeVersionChangedTo major minor patch).

Definition set_pruntime_consensus_version (origin : Origin) (version : Z) : H X unit :=
  ensure_governance origin;;
  mod_reg (put_pruntime_consensus_version version);;
  reg_event (PRuntimeConsensusVersionChangedTo version).

Definition set_trusted_ntp_servers (origin : Origin) (servers : list bytes) : H X unit :=
  ensure_governance origin;;
  mod_reg (put_trusted_ntp_servers servers).

(** ** Message handlers *)

Definition on_gatekeeper_launched : H X unit :=
  mod_reg (put_gk_launched_at (Some (block_number, now_sec)));;
  reg_event GatekeeperLaunched.

Definition MAX_SCORE : Z := 6000.

(** The benchmark score of a report; [None] is the division-by-zero panic. *)
Definition bench_score (now start_time iterations : Z) : option Z :=
  let secs := (now - start_time) / 1000 in
  if secs =? 0 then None
  else
    let score := (iterations / secs) *[64] 6 in
    Some (Z.min MAX_SCORE (wrap 32 score)).

Definition on_bench_report (worker : WorkerPublicKey) (start_time iterations : Z) : H X unit :=
  let now := now_ms in
  if now <=? start_time then fail (RegErr InvalidBenchReport)
  else
    score ← expect (bench_score now start_time iterations);
    mod_reg (fun r => put_workers
      (alter (fun v => put_w_last_updated (now / 1000) (put_w_initial_score (Some score) v))
         worker (workers r)) r);;
    push_reg (new_worker_event worker (BenchScore score));;
    reg_event (InitialScoreSet worker score).

Definition on_master_pubkey (worker : WorkerPublicKey) (master : MasterPublicKey) : H X unit :=
  r ← gets reg;
  ensure (bool_decide (worker ∈ gatekeepers r)) (RegErr InvalidGatekeeper);;
  match gk_master_pubkey r with
  | Some saved => ensure (saved =? master) (RegErr MasterKeyMismatch)
  | None =>
      mod_reg (put_gk_master_pubkey (Some master));;
      push_gk_launch registry_origin (MasterPubkeyOnChain master);;
      on_gatekeeper_launched
  end.

Definition reg_on_message_received (s : SenderId) (e : RegistryEvent) : H X unit :=
  match s with
  | Worker worker =>
      match e with
      | BenchReport start_time its => on_bench_report worker start_time its
      | MasterPubkey master => on_master_pubkey worker master
      end
  | _ => fail (RegErr InvalidSender)
  end.

Definition reg_on_gk_message_received (s : SenderId) (e : GatekeeperRegistryEvent) : H X unit :=
  if negb (is_gatekeeper s) then fail (RegErr InvalidSender)
  else
    match e with
    | RotatedMasterPubkey rotation_id master =>
        r ← gets reg;
        if negb (bool_decide (rotation_lock r = Some rotation_id)) then
          reg_event (MasterKeyRotationFailed (rotation_lock r) rotation_id);;
          fail (RegErr InvalidRotatedMasterPubkey)
        else
          mod_reg (put_gk_master_pubkey (Some master));;
          mod_reg (put_rotation_lock None);;
          reg_event (MasterKeyRotated rotation_id master);;
          push_gk_launch registry_origin (MasterPubkeyRotated master)
    end.

Definition is_worker_registered_after_gk_launched (s : Storage X) (w : WorkerPublicKey) : bool :=
  match worker_added_at (reg s) !! w, gk_launched_at (reg s) with
  | Some added, Some (launched, _) => launched <? added
  | _, _ => false
  end.

(** ** Every state-changing entry point, as one type *)

Inductive reg_op :=
  | ROSetBenchmarkDuration (o : Origin) (v : Z)
  | ROForceRegister (o : Origin) (k : WorkerPublicKey) (e : EcdhPublicKey) (op : option Account)
  | ROTopic (o : Origin) (t k : bytes)
  | RORegisterGk (o : Origin) (g : WorkerPublicKey)
  | ROUnregisterGk (o : Origin) (g : WorkerPublicKey)
  | RORotate (o : Origin)
  | RORegister (o : Origin) (i : WorkerRegistrationInfo) (a : LegacyAttestation)
  | RORegisterV2 (o : Origin) (i : WorkerRegistrationInfoV2) (a : option AttestationReport)
  | ROEndpoint (o : Origin) (e : WorkerEndpointPayload) (sig : bytes)
  | ROAddPruntime (o : Origin) (h : bytes)
  | RORemovePruntime (o : Origin) (h : bytes)
  | ROAddGenesis (o : Origin) (h : H256)
  | RORemoveGenesis (o : Origin) (h : H256)
  | ROMinVersion (o : Origin) (a b c : Z)
  | ROConsensusVersion (o : Origin) (v : Z)
  | RONtp (o : Origin) (l : list bytes)
  | ROMessage (s : SenderId) (e : RegistryEvent)
  | ROGkMessage (s : SenderId) (e : GatekeeperRegistryEvent).

Definition reg_exec (op : reg_op) : H X unit :=
  match op with
  | ROSetBenchmarkDuration o v => force_set_benchmark_duration o v
  | ROForceRegister o k e a => force_register_worker o k e a
  | ROTopic o t k => force_register_topic_pubkey o t k
  | RORegisterGk o g => register_gatekeeper o g
  | ROUnregisterGk o g => unregister_gatekeeper o g
  | RORotate o => rotate_master_key o
  | RORegister o i a => register_worker o i a
  | RORegisterV2 o i a => register_worker_v2 o i a
  | ROEndpoint o e g => update_worker_endpoint o e g
  | ROAddPruntime o h => add_pruntime o h
  | RORemovePruntime o h => remove_pruntime o h
  | ROAddGenesis o h => add_relaychain_genesis_block_hash o h
  | RORemoveGenesis o h => remove_relaychain_genesis_block_hash o h
  | ROMinVersion o a b c => set_minimum_pruntime_version o a b c
  | ROConsensusVersion o v => set_pruntime_consensus_version o v
  | RONtp o l => set_trusted_ntp_servers o l
  | ROMessage s e => reg_on_message_received s e
  | ROGkMessage s e => reg_on_gk_message_received s e
  end.
End registry.

(** ** Invariant *)

Definition worker_ok (k : WorkerPublicKey) (wi : WorkerInfoV2) : Prop :=
  w_pubkey wi = k /\ forall sc, w_initial_score wi = Some sc -> 0 <= sc <= MAX_SCORE.

Definition reg_inv (r : RegState) : Prop :=
  NoDup (gatekeepers r) /\
  (forall g, g ∈ gatekeepers r -> is_Some (workers r !! g)) /\
  (forall n, rotation_lock r = Some n -> n = rotation_counter r) /\
  map_Forall worker_ok (workers r) /\
  NoDup (pruntime_allowlist r) /\
  (forall h, h ∈ pruntime_allowlist r <-> is_Some (pruntime_added_at r !! h)) /\
  NoDup (genesis_allowlist r).

Lemma bench_score_bounds now st its sc : bench_score now st its = Some sc -> 0 <= sc <= MAX_SCORE.
Proof.
  unfold bench_score. case_match; [done|]. intros [= <-].
  pose proof (wrap_range 32 ((its / ((now - st) / 1000)) *[64] 6) ltac:(lia)) as [? ?].
  unfold MAX_SCORE. lia.
Qed.

Lemma NoDup_snoc {A} (l : list A) x : NoDup l -> x ∉ l -> NoDup (l ++ [x]).
Proof.
  intros H1 H2. apply NoDup_app. split; [done|]. split; [|apply NoDup_singleton].
  intros y Hy ->%list_elem_of_singleton. done.
Qed.

Lemma map_Forall_alter {A} (P : Z -> A -> Prop) f k (m : gmap Z A) :
  map_Forall P m -> (forall x, P k x -> P k (f x)) -> map_Forall P (alter f k m).
Proof.
  intros H Hf i x. rewrite lookup_alter. case_decide as E; [subst|by apply H].
  destruct (m !! i) eqn:Em; cbn; [|done]. intros [= <-]. apply Hf. by apply H.
Qed.

Lemma is_Some_alter {A} (f : A -> A) k i (m : gmap Z A) :
  is_Some (m !! i) -> is_Some (alter f k m !! i).
Proof.
  intros [x Hx]. rewrite lookup_alter. case_decide; [subst|by eauto]. rewrite Hx. by eexists.
Qed.

Lemma is_Some_insert_mono {A} k (v : A) i (m : gmap Z A) :
  is_Some (m !! i) -> is_Some (<[ k := v ]> m !! i).
Proof. intros H. rewrite lookup_insert. case_decide; [by eexists|done]. Qed.

Create HintDb reg.
#[export] Hint Resolve NoDup_snoc is_Some_alter is_Some_insert_mono : reg.

(** Evaluates a registry handler: guards, pushes and events. *)
Ltac reg_run :=
  repeat first
    [ progress unfold ensure_governance, ensure_root, ensure_signed, mod_reg, reg_event, push_reg,
        deposit_event, lift_attestation, check_genesis, start_benchmark, on_gatekeeper_launched in *
    | progress push_run | progress mrun ].

(** Evaluates any registry entry point. *)
Ltac reg_exec_run :=
  unfold reg_exec, force_set_benchmark_duration, force_register_worker, force_register_topic_pubkey,
    register_gatekeeper, unregister_gatekeeper, rotate_master_key, register_worker,
    register_worker_v2, upsert_worker, update_worker_endpoint, add_pruntime, remove_pruntime,
    add_relaychain_genesis_block_hash, remove_relaychain_genesis_block_hash,
    set_minimum_pruntime_version, set_pruntime_consensus_version, set_trusted_ntp_servers,
    reg_on_message_received, on_bench_report, on_master_pubkey, reg_on_gk_message_received in *;
  reg_run.

Section invariant.
Context {X : Type} `{MC : !MqCodec} `{SR : !Sr25519} `{QN : !QueueNotifyConfig X} `{PT : !PalletTopicsUnrouted X}
  `{CC : !ChainCodec} `{RC : !RegConfig} `{BE : !BlockEnv}.
Implicit Types s : Storage X.

Lemma inv_insert_worker r k wi :
  reg_inv r -> worker_ok k wi -> reg_inv (put_workers (<[ k := wi ]> (workers r)) r).
Proof.
  intros (? & ? & ? & ? & ? & ? & ?) Hwi. split_and!; cbn; auto with reg.
  by apply map_Forall_insert_2.
Qed.

Lemma inv_add_gatekeeper r g :
  reg_inv r -> g ∉ gatekeepers r -> is_Some (workers r !! g) ->
  reg_inv (put_gatekeepers (gatekeepers r ++ [g]) r).
Proof.
  intros (? & ? & ? & ? & ? & ? & ?) Hg Hw. split_and!; cbn; auto with reg.
  intros g' [?| ->%list_elem_of_singleton]%elem_of_app; auto.
Qed.

Lemma inv_remove_gatekeeper r g :
  reg_inv r -> reg_inv (put_gatekeepers (filter (fun g' => g' <> g) (gatekeepers r)) r).
Proof.
  intros (? & ? & ? & ? & ? & ? & ?). split_and!; cbn; auto with reg.
  - by apply NoDup_filter.
  - intros g' [_ ?]%list_elem_of_filter. auto.
Qed.

Lemma inv_add_pruntime r h b :
  reg_inv r -> h ∉ pruntime_allowlist r ->
  reg_inv (put_pruntime_added_at (<[ h := b ]> (pruntime_added_at r))
    (put_pruntime_allowlist (pruntime_allowlist r ++ [h]) r)).
Proof.
  intros (? & ? & ? & ? & ? & Hadd & ?) Hh. split_and!; cbn; auto with reg.
  intros h'. rewrite elem_of_app, list_elem_of_singleton, lookup_insert, Hadd.
  case_decide; naive_solver.
Qed.

Lemma inv_remove_pruntime r h :
  reg_inv r ->
  reg_inv (put_pruntime_added_at (delete h (pruntime_added_at r))
    (put_pruntime_allowlist (filter (fun h' => h' <> h) (pruntime_allowlist r)) r)).
Proof.
  intros (? & ? & ? & ? & ? & Hadd & ?). split_and!; cbn; auto with reg.
  - by apply NoDup_filter.
  - intros h'. rewrite list_elem_of_filter, lookup_delete, Hadd.
    case_decide; [subst; split; [naive_solver|by intros [? ?]]|naive_solver].
Qed.

Lemma inv_score r k sc t :
  reg_inv r -> 0 <= sc <= MAX_SCORE ->
  reg_inv (put_workers (alter (fun v => put_w_last_updated t (put_w_initial_score (Some sc) v)) k
    (workers r)) r).
Proof.
  intros (? & ? & ? & ? & ? & ? & ?) Hsc. split_and!; cbn; auto with reg.
  apply map_Forall_alter; [done|]. intros wi [? ?]. split; cbn; [done|]. by intros ? [= <-].
Qed.

Lemma inv_upsert (info : WorkerRegistrationInfo) now c p s :
  reg_inv (reg s) -> exists s', upsert_worker info now c p s = Ok tt s' /\ reg_inv (reg s').
Proof.
  intros HI. unfold upsert_worker. reg_run; eexists; (split; [done|]); cbn.
  - apply inv_insert_worker; [done|].
    destruct HI as (_ & _ & _ & HF & _). by destruct (HF _ _ ltac:(eassumption)) as [-> ?].
  - apply (inv_insert_worker (put_worker_added_at _ _)); [done|]. by split.
Qed.

(** Closes the cases of an invariant proof that leave the fields it mentions alone. *)
Ltac reg_done :=
  b2p; first
    [ done
    | match goal with HI : reg_inv _ |- _ => exact HI end
    | match goal with
      | HI : reg_inv _ |- _ =>
          destruct HI as (? & ? & ? & ? & ? & ? & ?); split_and!; cbn; auto with reg; naive_solver
      end ].

(** A registration with a DCAP quote that declares a length beyond what can be
    allocated, or whose authentication data is not 32 bytes long. *)
Definition quote_panics (op : reg_op) : Prop := match op with RORegisterV2 _ _ a => oversized_quote a \/ odd_auth_data a | _ => False end.

Lemma inv_registrations op s :
  match op with RORegister _ _ _ | RORegisterV2 _ _ _ => True | _ => False end ->
  reg_inv (reg s) ->
  match reg_exec op s with Ok _ s' | Err _ s' => reg_inv (reg s') | Panic => quote_panics op end.
Proof.
  destruct op as [| | | | | |o i a|o i a| | | | | | | | | |]; try done; intros _ HI; cbn; unfold register_worker, register_worker_v2; reg_run; try done.
  all: try (by match goal with H : legacy_validate _ _ _ _ _ _ = Panic |- _ => apply legacy_validate_returns in H end).
  all: try (by match goal with H : attestation_validate _ _ _ _ _ _ _ = Panic |- _ => eapply validate_Panic end).
  all: match goal with
       | H : upsert_worker ?i ?n ?c ?p ?st = _ |- _ =>
           destruct (inv_upsert i n c p st) as (? & E & ?); [exact HI|rewrite E in H; by simplify_eq/=]
       end.
Qed.

(** The other panic of the pallet: a benchmark report less than one second old
    divides by zero. *)
Definition report_too_fresh (op : reg_op) : Prop :=
  match op with
  | ROMessage (Worker _) (BenchReport start _) => 0 < now_ms - start < 1000
  | _ => False
  end.

Lemma bench_score_None now st its : st < now -> bench_score now st its = None <-> now - st < 1000.
Proof.
  intros H. unfold bench_score. case_match; b2p.
  - split; [|done]. intros _. pose proof (Z.mod_pos_bound (now - st) 1000 ltac:(lia)).
    pose proof (Z.div_mod (now - st) 1000 ltac:(lia)). lia.
  - split; [done|]. intros. exfalso. apply Z.div_small in H0 || rewrite Z.div_small in * by lia. done.
Qed.

Lemma inv_messages s snd e :
  reg_inv (reg s) ->
  match reg_on_message_received snd e s with
  | Ok _ s' | Err _ s' => reg_inv (reg s')
  | Panic => report_too_fresh (ROMessage snd e)
  end.
Proof.
  intros HI. unfold reg_on_message_received. destruct snd as [| |k| | | | |]; try by mrun.
  destruct e as [st its|master].
  - unfold on_bench_report. destruct (now_ms <=? st) eqn:E; [by mrun|]. b2p.
    destruct (bench_score now_ms st its) as [sc|] eqn:Esc.
    + apply bench_score_bounds in Esc. reg_run. by apply inv_score.
    + apply bench_score_None in Esc; [|done]. reg_run. lia.
  - unfold on_master_pubkey. reg_run; reg_done.
Qed.

Lemma inv_gatekeepers op s :
  match op with RORegisterGk _ _ | ROUnregisterGk _ _ | RORotate _ => True | _ => False end ->
  reg_inv (reg s) ->
  match reg_exec op s with Ok _ s' | Err _ s' => reg_inv (reg s') | Panic => False end.
Proof.
  destruct op; try done; intros _ HI; cbn;
    unfold register_gatekeeper, unregister_gatekeeper, rotate_master_key; reg_run; try reg_done.
  all: b2p; try (by apply inv_remove_gatekeeper); apply inv_add_gatekeeper; try done; by eexists.
Qed.

Lemma inv_lists op s :
  match op with
  | ROAddPruntime _ _ | RORemovePruntime _ _ | ROAddGenesis _ _ | RORemoveGenesis _ _ => True
  | _ => False
  end ->
  reg_inv (reg s) ->
  match reg_exec op s with Ok _ s' | Err _ s' => reg_inv (reg s') | Panic => False end.
Proof.
  destruct op; try done; intros _ HI; cbn;
    unfold add_pruntime, remove_pruntime, add_relaychain_genesis_block_hash,
      remove_relaychain_genesis_block_hash; reg_run; try done; b2p.
  - by apply inv_add_pruntime.
  - by apply inv_remove_pruntime.
  - reg_done.
  - destruct HI as (? & ? & ? & ? & ? & ? & ?); split_and!; cbn; auto. by apply NoDup_filter.
Qed.

Lemma inv_settings op s :
  match op with
  | ROSetBenchmarkDuration _ _ | ROForceRegister _ _ _ _ | ROTopic _ _ _ | ROEndpoint _ _ _
  | ROMinVersion _ _ _ _ | ROConsensusVersion _ _ | RONtp _ _ | ROGkMessage _ _ => True
  | _ => False
  end ->
  reg_inv (reg s) ->
  match reg_exec op s with Ok _ s' | Err _ s' => reg_inv (reg s') | Panic => False end.
Proof.
  destruct op; try done; intros _ HI; cbn;
    unfold force_set_benchmark_duration, force_register_worker, force_register_topic_pubkey,
      update_worker_endpoint, set_minimum_pruntime_version, set_pruntime_consensus_version,
      set_trusted_ntp_servers, reg_on_gk_message_received; reg_run; try reg_done.
  apply (inv_insert_worker (reg _)); [done|]. by split.
Qed.

Lemma reg_exec_inv op s :
  reg_inv (reg s) ->
  match reg_exec op s with
  | Ok _ s' | Err _ s' => reg_inv (reg s')
  | Panic => report_too_fresh op \/ quote_panics op
  end.
Proof.
  intros HI. destruct op.
  all: match goal with
       | |- match reg_exec (ROMessage ?snd ?e) ?s with _ => _ end =>
           pose proof (inv_messages s snd e HI) as Hop; cbn [reg_exec]; destruct (reg_on_message_received snd e s); auto
       | |- match reg_exec ?op ?s with _ => _ end =>
           first [ pose proof (inv_gatekeepers op s I HI) as Hop
                 | pose proof (inv_lists op s I HI) as Hop
                 | pose proof (inv_registrations op s I HI) as Hop
                 | pose proof (inv_settings op s I HI) as Hop ];
           destruct (reg_exec op s); auto
       end; done.
Qed.

(** The registry never touches the computation pallet and never forgets a worker. *)
Lemma reg_exec_frame op s :
  match reg_exec op s with
  | Ok _ s' | Err _ s' =>
      comp s' = comp s /\
      forall w, is_Some (workers (reg s) !! w) -> is_Some (workers (reg s') !! w)
  | Panic => True
  end.
Proof. destruct op; reg_exec_run; split; cbn; auto with reg. Qed.

(** The keys of contracts and clusters are in the registry's storage, but the
    phat contract pallet writes them. *)
Definition keys_only (r r' : RegState) : Prop := exists a b, r' = put_contract_keys a (put_cluster_keys b r).

(** One step of the chain as the registry sees it: a registry entry point, in
    some block, that succeeds or fails, or anything other pallets do. *)
Inductive reg_step : Storage X -> Storage X -> Prop :=
  | RegStepOk (env : BlockEnv) op s s' : reg_exec op s = Ok tt s' -> reg_step s s'
  | RegStepErr (env : BlockEnv) op s e s' : reg_exec op s = Err e s' -> reg_step s s'
  | RegStepOther s s' : keys_only (reg s) (reg s') -> reg_step s s'.
End invariant.

Section registry_claims.
Context {X : Type} `{MC : !MqCodec} `{SR : !Sr25519} `{QN : !QueueNotifyConfig X} `{PT : !PalletTopicsUnrouted X}
  `{CC : !ChainCodec} `{RC : !RegConfig} `{BE : !BlockEnv}.
Implicit Types s : Storage X.



(** What an entry point does to the key-rotation part of the registry, whether
    it succeeds or fails. *)
Inductive rotation_effect (op : reg_op) (r r' : RegState) : Prop :=
  | RotSame :
      gk_master_pubkey r' = gk_master_pubkey r -> rotation_lock r' = rotation_lock r ->
      (gatekeepers r' = gatekeepers r \/ rotation_lock r = None /\ gatekeepers r' <> []) ->
      rotation_effect op r r'
  | RotFirstKey g master :
      op = ROMessage (Worker g) (MasterPubkey master) -> g ∈ gatekeepers r ->
      gk_master_pubkey r = None -> gk_master_pubkey r' = Some master ->
      rotation_lock r' = rotation_lock r -> gatekeepers r' = gatekeepers r ->
      rotation_effect op r r'
  | RotStart o :
      op = RORotate o -> governance_origin o = true -> rotation_lock r = None ->
      rotation_lock r' = Some (rotation_counter r +[64] 1) ->
      rotation_counter r' = rotation_counter r +[64] 1 ->
      gk_master_pubkey r' = gk_master_pubkey r -> gatekeepers r' = gatekeepers r ->
      rotation_effect op r r'
  | RotFinish id master :
      op = ROGkMessage Gatekeeper (RotatedMasterPubkey id master) -> rotation_lock r = Some id ->
      rotation_lock r' = None -> gk_master_pubkey r' = Some master ->
      gatekeepers r' = gatekeepers r ->
      rotation_effect op r r'.

Lemma filter_ne_nonempty (l : list Z) g :
  NoDup l -> (1 < length l)%nat -> filter (fun x => x <> g) l <> [].
Proof.
  intros Hnd Hlen Hnil. destruct l as [|a [|b l]]; cbn in Hlen; try lia.
  assert (a <> b) as Hab by (intros ->; apply NoDup_cons in Hnd as [H _]; apply H; left).
  assert (forall x, x ∈ a :: b :: l -> x = g) as Hall.
  { intros x Hx. destruct (decide (x = g)) as [|Hne]; [done|].
    assert (x ∈ filter (fun x => x <> g) (a :: b :: l)) as Hf by (by apply list_elem_of_filter).
    rewrite Hnil in Hf. by apply elem_of_nil in Hf. }
  apply Hab. rewrite (Hall a), (Hall b); set_solver.
Qed.

(** C30: the life cycle of the master key. It is written only by the first
    upload of a gatekeeper while there is none, or by the gatekeepers
    answering the rotation the lock names, which releases the lock; a rotation
    is started only by governance while none is running; while one runs, the
    gatekeeper set cannot change; and the set never becomes empty. *)
Theorem master_key_lifecycle op s :
  reg_inv (reg s) ->
  match reg_exec op s with
  | Ok _ s' | Err _ s' => rotation_effect op (reg s) (reg s')
  | Panic => True
  end.
Proof.
  intros HI. destruct op; reg_exec_run; b2p; try done; try (apply RotSame; cbn; by auto).
  all: try (eapply RotStart; cbn; by eauto).
  all: try (eapply RotFirstKey; cbn; by eauto).
  all: try (apply RotSame; cbn; [done|done|right; split; [done|]]; by destruct (gatekeepers _)).
  - apply RotSame; cbn; [done..|]. right. split; [done|].
    apply filter_ne_nonempty; [by destruct HI|]. by apply Nat.ltb_lt.
  - match goal with H : is_gatekeeper ?o = true |- _ => destruct o; try done end.
    eapply RotFinish; cbn; eauto.
Qed.

(** Re-registering a known worker does not refresh the block it was first
    added at, so a worker added before the gatekeeper launch keeps failing the
    check of [bind] however often it registers. *)
Theorem reregister_keeps_added_at op s k :
  match op with
  | RORegister _ i _ => ri_pubkey i = k
  | RORegisterV2 _ i _ => ri_pubkey (ri2_info i) = k
  | _ => False
  end ->
  is_Some (workers (reg s) !! k) ->
  match reg_exec op s with
  | Ok _ s' | Err _ s' =>
      worker_added_at (reg s') !! k = worker_added_at (reg s) !! k /\
      is_worker_registered_after_gk_launched s' k = is_worker_registered_after_gk_launched s k
  | Panic => quote_panics op
  end.
Proof.
  intros Hop [wi Hw]. unfold is_worker_registered_after_gk_launched.
  destruct op; try done; subst k; reg_exec_run; try (by simplify_eq).
  - by match goal with H : legacy_validate _ _ _ _ _ _ = Panic |- _ => apply legacy_validate_returns in H end.
  - by match goal with H : attestation_validate _ _ _ _ _ _ _ = Panic |- _ => eapply validate_Panic end.
Qed.

(** A benchmark report whose start is less than a second in the past makes
    the handler divide by zero and panic: the guard only excludes reports from
    the future. *)
Theorem bench_report_same_second_panics w start its s :
  0 < now_ms - start < 1000 ->
  reg_on_message_received (Worker w) (BenchReport start its) s = Panic.
Proof.
  intros H. unfold reg_on_message_received, on_bench_report.
  destruct (now_ms <=? start) eqn:E; b2p; [lia|].
  pose proof (bench_score_None now_ms start its E) as [_ Hn]. mred. rewrite Hn by lia. done.
Qed.
End registry_claims.
