(* ===== verification/RegistryRuns.v ===== *)
(** * Concrete runs of the registry pallet

    The registry's theorems at concrete states: a chain with two registered
    gatekeepers, a rotation, a re-registration and a benchmark report. *)

From S2P Require Import Prelude MqTypes SendQueue Storage MqPallet PalletMsg Instances SgxQuote Attestation AttestClaims Registry.

#[local] Existing Instance default_notify.

(** Governance is root; attestations commit to zeros, from any pRuntime. *)
#[global] Instance toy_reg_config : RegConfig := {|
  governance_origin o := match o with Root => true | _ => false end;
  VerifyRelaychainGenesisBlockHash := true;
  ParachainId := 2035;
  VerifyPRuntime := false;
  NoneAttestationEnabled := false;
  reg_sgx_lib := toy_sgx;
  runtime_info_hash _ := repeat 0 32;
  runtime_info_hash_v2 _ := repeat 0 32;
  encode_endpoint _ := [];
|}.

Section registry_runs.
Abbreviation chain := (Storage unit).

Definition reg_runs (ops : list reg_op) (s : chain) : chain :=
  foldl (fun s op => state_of s (reg_exec op s)) s ops.

Definition setup_ops : list reg_op :=
  [ROForceRegister Root 1 11 None; ROForceRegister Root 2 12 None;
   RORegisterGk Root 1; ROMessage (Worker 1) (MasterPubkey 77); RORegisterGk Root 2;
   ROAddGenesis Root 5].
Definition chain_2gk : chain := reg_runs setup_ops (empty_chain tt).

Lemma reg_inv_empty : reg_inv empty_reg.
Proof.
  split_and!; cbn; try apply NoDup_nil_2; try done; try (apply map_Forall_empty); try set_solver.
  intros h. rewrite lookup_empty. split; [set_solver|by intros []].
Qed.

Lemma reg_inv_2gk : reg_inv (reg chain_2gk).
Proof.
  assert (forall ops s, reg_inv (reg s) -> reg_inv (reg (reg_runs ops s))) as Hruns.
  { induction ops as [|op ops IH]; intros s HI; [done|]. cbn. apply IH.
    pose proof (reg_exec_inv op s HI). by destruct (reg_exec op s). }
  exact (Hruns setup_ops (empty_chain tt) reg_inv_empty).
Qed.


Lemma master_key_lifecycle_witness :
  exists s', reg_exec (RORotate Root) chain_2gk = Ok tt s' /\
    rotation_effect (RORotate Root) (reg chain_2gk) (reg s').
Proof.
  pose proof (master_key_lifecycle (RORotate Root) chain_2gk reg_inv_2gk) as H. revert H.
  destruct (reg_exec (RORotate Root) chain_2gk) as [[] s'|e s'|] eqn:E;
    [|vm_compute in E; discriminate E..].
  intros H. exists s'. by split.
Defined.

(** Worker 1, added in block 100 like the launch of the gatekeepers. *)
Definition info_1 : WorkerRegistrationInfo := mkRegInfo 1 [] 1 11 5 [1; 4] None.

Definition rereg_1 : reg_op := RORegister (Signed 3) info_1 (LegacySgxIas [] (repeat 0 64) []).

Lemma reregister_keeps_added_at_witness :
  exists s', reg_exec rereg_1 chain_2gk = Ok tt s' /\
    worker_added_at (reg s') !! 1 = Some 100 /\
    is_worker_registered_after_gk_launched s' 1 = false.
Proof.
  pose proof (reregister_keeps_added_at rereg_1 chain_2gk 1
    eq_refl ltac:(eexists; vm_compute; reflexivity)) as H.
  revert H. destruct (reg_exec rereg_1 chain_2gk) as [[] s'|e s'|] eqn:E;
    [|vm_compute in E; discriminate E..].
  intros [H1 H2]. exists s'. split; [reflexivity|]. rewrite H1, H2. split; vm_compute; reflexivity.
Defined.

Lemma bench_report_same_second_panics_witness :
  reg_on_message_received (Worker 1) (BenchReport 999500 600) chain_2gk = Panic.
Proof. apply bench_report_same_second_panics. cbn. lia. Defined.
End registry_runs.
