(* ===== verification/Phat.v ===== *)
(** * Phat contracts on chain (pallets/phala/src/phat.rs, phat_tokenomic.rs)

    Clusters of workers run contracts; the pallet registers clusters, their
    workers and contracts and tells the workers through messages. Users stake on
    contracts, which sets their share of the workers' time. The native currency,
    hashing and SCALE encoding are the class [PhatConfig]. *)

From S2P Require Import Prelude MqTypes Storage MqPallet PalletMsg Registry.

(** [InkCommand], and [CommandPayload::Plain] of it *)
Inductive InkCommand :=
  | InkMessage (nonce message : bytes) (transfer gas_limit : Z) (storage_deposit_limit : option Balance).

Class PhatConfig (X : Type) := {
  InkCodeSizeLimit : Z;
  SidevmCodeSizeLimit : Z;
  (** [Currency::transfer(.., KeepAlive)] and [Currency::transfer(.., AllowDeath)] *)
  phat_transfer_keep_alive : Account -> Account -> Balance -> X -> option X;
  phat_transfer_allow_death : Account -> Account -> Balance -> X -> option X;
  (** [PALLET_ID.into_account_truncating()] of the tokenomic pallet *)
  phat_tok_account : Account;
  (** [blake2_256], its result as an id; [as_ref()] of an id or account; [hex::encode] *)
  blake2_id : bytes -> H256;
  id_bytes : Z -> bytes;
  hex_encode : bytes -> bytes;
  enc_cluster_event : ClusterEvent -> bytes;
  enc_cluster_op : ClusterOperation -> bytes;
  enc_contract_op : ContractOperation -> bytes;
  enc_ink_command : InkCommand -> bytes;
  (** [(selector.to_be_bytes(), contract, total).encode()] *)
  enc_change_deposit : bytes -> H256 -> Balance -> bytes;
  phat_name : bytes;
  phat_tok_name : bytes;
}.

Section phat.
Context {X : Type} `{QN : !QueueNotifyConfig X} `{RC : !RegConfig} `{PH : !PhatConfig X}.

Definition phat_event (e : PhatEvent) : H X unit := deposit_event (EvPhat e).
Definition pt_event (e : PtEvent) : H X unit := deposit_event (EvPt e).
Definition mod_phat (f : PhatState -> PhatState) : H X unit := modify (upd_phat f).
Definition mod_pt (f : PtState -> PtState) : H X unit := modify (upd_pt f).

Definition phat_origin : MessageOrigin := Pallet phat_name.
Definition push_cluster_event (e : ClusterEvent) : H X unit :=
  push_bound phat_origin TOPIC_CLUSTER_EVENT (enc_cluster_event e).
Definition push_cluster_op (e : ClusterOperation) : H X unit :=
  push_bound phat_origin TOPIC_CLUSTER_OP (enc_cluster_op e).
Definition push_contract_op (e : ContractOperation) : H X unit :=
  push_bound phat_origin TOPIC_CONTRACT_OP (enc_contract_op e).

(** A call of the currency, which only writes its own storage *)
Definition on_ext (f : X -> option X) : H X unit := fun s =>
  match f (ext s) with Some x => Ok tt (put_ext x s) | None => Err ExtError s end.

(** ** Ids *)

Definition from_low_u64_be (n : Z) : H256 := n.

Definition contract_id_preimage (deployer code_hash cluster_id salt : bytes) : bytes :=
  deployer ++ code_hash ++ cluster_id ++ salt.

Definition contract_id (i : ContractInfo) : H256 :=
  let 'WasmCode code_hash := ci_code_index i in
  blake2_id (contract_id_preimage (id_bytes (ci_deployer i)) (id_bytes code_hash) (id_bytes (ci_cluster_id i)) (ci_salt i)).

Definition cluster_account (cluster_id : H256) : Account := blake2_id (bs "cluster:" ++ id_bytes cluster_id).

Definition command_topic (id : H256) : Path := bs "phala/contract/" ++ hex_encode (id_bytes id) ++ bs "/command".

Definition check_cluster_permission (deployer : Account) (cluster : ClusterInfo) : bool :=
  match cl_permission cluster with
  | Public => true
  | OnlyOwner owner => deployer =? owner
  end.

Definition get_cluster (cluster_id : H256) : H X ClusterInfo :=
  p ← gets phat;
  ok_or (clusters p !! cluster_id) (PhErr ClusterNotFound).

(** ** Calls *)

(** [deploy_workers.iter().map(..).collect::<Result<..>>()?] *)
Fixpoint worker_identities (l : list WorkerPublicKey) : H X (list WorkerIdentity) :=
  match l with
  | [] => mret []
  | w :: l' =>
      r ← gets reg;
      info ← ok_or (workers r !! w) (PhErr PhWorkerNotFound);
      rest ← worker_identities l';
      mret (mkIdentity (w_pubkey info) (w_ecdh_pubkey info) :: rest)
  end.

(** The body of the loop over [deploy_workers] *)
Definition assign_worker (cluster : H256) (worker : WorkerPublicKey) : H X unit :=
  p ← gets phat;
  ensure (bool_decide (cluster_by_workers p !! worker = None)) (PhErr WorkerIsBusy);;
  mod_phat (fun p => put_cluster_by_workers (<[ worker := cluster ]> (cluster_by_workers p)) p).

Definition add_cluster (origin : Origin) (owner : Account) (permission : ClusterPermission)
    (deploy_workers : list WorkerPublicKey) (deposit gas_price deposit_per_item deposit_per_byte : Balance)
    (treasury_account : Account) : H X unit :=
  ensure_governance origin;;
  ensure (negb (bool_decide (deploy_workers = []))) (PhErr NoWorkerSpecified);;
  workers ← worker_identities deploy_workers;
  mod_phat (fun p => put_cluster_counter (cluster_counter p +[64] 1) p);;
  cluster_id ← gets (fun s => cluster_counter (phat s));
  let cluster := from_low_u64_be cluster_id in
  for_each deploy_workers (assign_worker cluster);;
  mod_phat (fun p => put_cluster_workers (<[ cluster := deploy_workers ]> (cluster_workers p)) p);;
  p ← gets phat;
  system_code_hash ← ok_or (pink_system_code_hash p) (PhErr NoPinkSystemCode);
  let selector := [237; 75; 157; 27] in
  let system_contract := contract_id (mkContractInfo owner (WasmCode system_code_hash) [] cluster selector) in
  let cluster_info := mkClusterInfo owner permission system_contract gas_price deposit_per_item deposit_per_byte in
  mod_phat (fun p => put_clusters (<[ cluster := cluster_info ]> (clusters p)) p);;
  phat_event (ClusterCreated cluster system_contract);;
  on_ext (phat_transfer_keep_alive owner (cluster_account cluster) deposit);;
  push_cluster_event (DeployCluster
    (mkClusterTerms owner cluster deposit gas_price deposit_per_item deposit_per_byte treasury_account) workers).

Definition size_limit (t : ResourceType) : Z :=
  match t with
  | InkCode | IndeterministicInkCode => InkCodeSizeLimit
  | SidevmCode => SidevmCodeSizeLimit
  end.

Definition cluster_upload_resource (origin : Origin) (cluster_id : H256) (resource_type : ResourceType)
    (resource_data : bytes) : H X unit :=
  origin ← ensure_signed origin;
  cluster_info ← get_cluster cluster_id;
  ensure (check_cluster_permission origin cluster_info) (PhErr ClusterPermissionDenied);;
  ensure (Z.of_nat (length resource_data) <=? size_limit resource_type) (PhErr PayloadTooLarge);;
  push_cluster_op (UploadResource origin cluster_id resource_type resource_data).

Definition transfer_to_cluster (origin : Origin) (amount : Balance) (cluster_id : H256) (dest_account : Account) : H X unit :=
  user ← ensure_signed origin;
  on_ext (phat_transfer_keep_alive user (cluster_account cluster_id) amount);;
  push_cluster_op (Deposit cluster_id dest_account amount);;
  phat_event (Transfered cluster_id dest_account amount).

Definition push_contract_message (origin : Origin) (contract_id : H256) (payload : bytes) (deposit : Balance) : H X unit :=
  user ← ensure_signed origin;
  (if deposit =? 0 then mret tt
   else
     p ← gets phat;
     contract_info ← ok_or (contracts p !! contract_id) (PhErr ContractNotFound);
     transfer_to_cluster origin deposit (bc_cluster contract_info) user);;
  push_message origin (command_topic contract_id) payload.

Definition instantiate_contract (origin : Origin) (code_index : CodeIndex) (data salt : bytes) (cluster_id : H256)
    (transfer gas_limit : Z) (storage_deposit_limit : option Balance) (deposit : Balance) : H X unit :=
  deployer ← ensure_signed origin;
  cluster_info ← get_cluster cluster_id;
  ensure (check_cluster_permission deployer cluster_info) (PhErr ClusterPermissionDenied);;
  (if deposit =? 0 then mret tt else transfer_to_cluster origin deposit cluster_id deployer);;
  let contract_info := mkContractInfo deployer code_index salt cluster_id data in
  let id := contract_id contract_info in
  p ← gets phat;
  ensure (bool_decide (contracts p !! id = None)) (PhErr DuplicatedContract);;
  mod_phat (fun p => put_contracts (<[ id := mkBasicContract deployer cluster_id ]> (contracts p)) p);;
  push_contract_op (InstantiateCode contract_info transfer gas_limit storage_deposit_limit);;
  phat_event (Instantiating id cluster_id deployer).

Definition cluster_destroy (origin : Origin) (cluster : H256) : H X unit :=
  ensure_root origin;;
  _ ← get_cluster cluster;
  mod_phat (fun p => put_clusters (delete cluster (clusters p)) p);;
  push_cluster_op (DestroyCluster cluster);;
  phat_event (ClusterDestroyed cluster).

(** [code] is bounded by [InkCodeSizeLimit]. *)
Definition set_pink_system_code (origin : Origin) (code : bytes) : H X unit :=
  ensure_governance origin;;
  mod_phat (put_next_pink_system_code (Some code)).

Definition set_pink_runtime_version (origin : Origin) (version : Z * Z) : H X unit :=
  ensure_governance origin;;
  mod_phat (put_pink_runtime_version (Some version)).

(** The workers of a cluster, changed *)
Definition mod_cluster_workers (cluster_id : H256) (f : list WorkerPublicKey -> list WorkerPublicKey) : H X unit :=
  mod_phat (fun p => put_cluster_workers
    (<[ cluster_id := f (default [] (cluster_workers p !! cluster_id)) ]> (cluster_workers p)) p).

Definition add_worker_to_cluster (origin : Origin) (worker_pubkey : WorkerPublicKey) (cluster_id : H256) : H X unit :=
  origin ← ensure_signed origin;
  cluster_info ← get_cluster cluster_id;
  ensure (cl_owner cluster_info =? origin) (PhErr ClusterPermissionDenied);;
  r ← gets reg;
  ensure (bool_decide (is_Some (workers r !! worker_pubkey))) (PhErr PhWorkerNotFound);;
  p ← gets phat;
  ensure (bool_decide (cluster_by_workers p !! worker_pubkey = None)) (PhErr WorkerIsBusy);;
  mod_phat (fun p => put_cluster_by_workers (<[ worker_pubkey := cluster_id ]> (cluster_by_workers p)) p);;
  mod_cluster_workers cluster_id (fun l => l ++ [worker_pubkey]);;
  mod_phat (fun p => put_clusters (<[ cluster_id := cluster_info ]> (clusters p)) p);;
  phat_event (WorkerAddedToCluster worker_pubkey cluster_id).

Definition remove_worker_from_cluster (origin : Origin) (worker_pubkey : WorkerPublicKey) (cluster_id : H256) : H X unit :=
  origin ← ensure_signed origin;
  cluster_info ← get_cluster cluster_id;
  ensure (cl_owner cluster_info =? origin) (PhErr ClusterPermissionDenied);;
  p ← gets phat;
  ensure (bool_decide (cluster_by_workers p !! worker_pubkey = Some cluster_id)) (PhErr PhWorkerNotFound);;
  mod_phat (fun p => put_cluster_by_workers (<[ worker_pubkey := from_low_u64_be 0 ]> (cluster_by_workers p)) p);;
  mod_cluster_workers cluster_id (filter (fun key => key <> worker_pubkey));;
  phat_event (WorkerRemovedFromCluster worker_pubkey cluster_id);;
  push_cluster_op (RemoveWorker cluster_id worker_pubkey).

Definition cleanup_removed_workers (origin : Origin) (cluster_id : H256) : H X unit :=
  ensure_root origin;;
  p ← gets phat;
  mod_cluster_workers cluster_id (filter (fun key => cluster_by_workers p !! key <> Some (from_low_u64_be 0))).

(** ** Messages *)

Definition on_cluster_message_received (sender : MessageOrigin) (event : ClusterRegistryEvent) : H X unit :=
  ensure (is_gatekeeper sender) (PhErr PhInvalidSender);;
  match event with
  | ClusterPubkey cluster pubkey =>
      modify (upd_reg (fun r => put_cluster_keys (<[ cluster := pubkey ]> (cluster_keys r)) r));;
      phat_event (ClusterPubkeyAvailable cluster pubkey)
  end.

Definition on_contract_message_received (sender : MessageOrigin) (event : ContractRegistryEvent) : H X unit :=
  match sender, event with
  | Cluster cluster, ContractPubkey contract pubkey deployer =>
      modify (upd_reg (fun r => put_contract_keys (<[ contract := pubkey ]> (contract_keys r)) r));;
      phat_event (ContractPubkeyAvailable contract cluster pubkey);;
      mod_phat (fun p => put_cluster_contracts
        (<[ cluster := default [] (cluster_contracts p !! cluster) ++ [contract] ]> (cluster_contracts p)) p);;
      mod_phat (fun p => match contracts p !! contract with
                         | Some _ => p
                         | None => put_contracts (<[ contract := mkBasicContract deployer cluster ]> (contracts p)) p
                         end);;
      phat_event (Instantiated contract cluster deployer)
  | _, _ => fail (PhErr PhInvalidSender)
  end.

Definition on_worker_cluster_message_received (sender : MessageOrigin) (event : WorkerClusterReport) : H X unit :=
  match sender with
  | Worker worker_pubkey =>
      match event with
      | RepClusterDeployed id pubkey => phat_event (ClusterDeployed id pubkey worker_pubkey)
      | RepClusterDeploymentFailed id => phat_event (ClusterDeploymentFailed id worker_pubkey)
      end
  | _ => fail (PhErr PhInvalidSender)
  end.

Definition get_system_contract (contract : H256) (p : PhatState) : option H256 :=
  contract_info ← contracts p !! contract;
  cluster_info ← clusters p !! bc_cluster contract_info;
  Some (cl_system_contract cluster_info).

Definition get_contract_info (contract : H256) (p : PhatState) : option BasicContractInfo := contracts p !! contract.

(** ** Hooks *)

Definition phat_on_initialize : H X unit :=
  p ← gets phat;
  match next_pink_system_code p with
  | None => mret tt
  | Some next_code =>
      mod_phat (put_next_pink_system_code None);;
      mod_phat (put_pink_system_code_hash (Some (blake2_id next_code)));;
      mod_phat (fun p => put_pink_system_code ((pink_system_code p).1 +[16] 1, next_code) p)
  end.

(** ** Stakes on contracts *)

Definition push_ink_message (origin : MessageOrigin) (contract_id : H256) (message : bytes) : H X unit :=
  push_message_to (command_topic contract_id) origin
    (enc_ink_command (InkMessage [] message 0 (2 ^ 64 - 1) None)).

Definition adjust_stake (origin : Origin) (contract : H256) (amount : Balance) : H X unit :=
  user ← ensure_signed origin;
  t ← gets pt;
  ensure ((amount =? 0) || (min_stake t <=? amount)) (PtErr InvalidAmountOfStake);;
  let total := default 0 (contract_total_stakes t !! contract) in
  let orig := default 0 (contract_user_stakes t !! (user, contract)) in
  total ← (if orig <? amount then
             let delta := amount -[128] orig in
             on_ext (phat_transfer_keep_alive user phat_tok_account delta);;
             mret (total +[128] delta)
           else
             let delta := orig -[128] amount in
             on_ext (phat_transfer_allow_death phat_tok_account user delta);;
             mret (total -[128] delta));
  mod_pt (fun t => put_contract_user_stakes (<[ (user, contract) := amount ]> (contract_user_stakes t)) t);;
  mod_pt (fun t => put_contract_total_stakes (<[ contract := total ]> (contract_total_stakes t)) t);;
  p ← gets phat;
  let cluster := bc_cluster <$> get_contract_info contract p in
  pt_event (ContractDepositChanged cluster contract total);;
  pt_event (UserStakeChanged cluster user contract amount);;
  match get_system_contract contract p with
  | Some the_system_contract =>
      let selector := [162; 75; 203; 68] in
      push_ink_message (Pallet phat_tok_name) the_system_contract (enc_change_deposit selector contract total)
  | None => mret tt
  end.

End phat.
