(* ===== verification/PhatClusters.v ===== *)
(** * Clusters and their workers

    The pallet keeps the workers of every cluster and the cluster of every
    worker in two maps; the invariant says that they agree, on every history of
    calls and messages. Cluster [0] is where removed workers are put. *)

From S2P Require Import Prelude MqTypes Storage MqPallet PalletMsg Registry Phat.

Inductive phat_op :=
  | PhAddCluster (o : Origin) (owner : Account) (permission : ClusterPermission) (deploy_workers : list WorkerPublicKey)
      (deposit gas_price deposit_per_item deposit_per_byte : Balance) (treasury_account : Account)
  | PhUpload (o : Origin) (c : H256) (t : ResourceType) (data : bytes)
  | PhTransfer (o : Origin) (amount : Balance) (c : H256) (dest : Account)
  | PhPushMessage (o : Origin) (contract : H256) (payload : bytes) (deposit : Balance)
  | PhInstantiate (o : Origin) (code : CodeIndex) (data salt : bytes) (c : H256) (transfer gas_limit : Z)
      (storage_deposit_limit : option Balance) (deposit : Balance)
  | PhDestroy (o : Origin) (c : H256)
  | PhSetCode (o : Origin) (code : bytes)
  | PhSetVersion (o : Origin) (version : Z * Z)
  | PhAddWorker (o : Origin) (w : WorkerPublicKey) (c : H256)
  | PhRemoveWorker (o : Origin) (w : WorkerPublicKey) (c : H256)
  | PhCleanup (o : Origin) (c : H256)
  | PhClusterMessage (sender : MessageOrigin) (e : ClusterRegistryEvent)
  | PhContractMessage (sender : MessageOrigin) (e : ContractRegistryEvent)
  | PhWorkerMessage (sender : MessageOrigin) (e : WorkerClusterReport)
  | PhInitialize
  | PhAdjustStake (o : Origin) (contract : H256) (amount : Balance).

Section clusters.
Context {X : Type} `{QN : !QueueNotifyConfig X} `{RC : !RegConfig} `{PH : !PhatConfig X}.

Definition phat_exec (op : phat_op) : H X unit :=
  match op with
  | PhAddCluster o owner perm l d g di db t => add_cluster o owner perm l d g di db t
  | PhUpload o c t data => cluster_upload_resource o c t data
  | PhTransfer o v c a => transfer_to_cluster o v c a
  | PhPushMessage o i p d => push_contract_message o i p d
  | PhInstantiate o i data salt c t g l d => instantiate_contract o i data salt c t g l d
  | PhDestroy o c => cluster_destroy o c
  | PhSetCode o code => set_pink_system_code o code
  | PhSetVersion o v => set_pink_runtime_version o v
  | PhAddWorker o w c => add_worker_to_cluster o w c
  | PhRemoveWorker o w c => remove_worker_from_cluster o w c
  | PhCleanup o c => cleanup_removed_workers o c
  | PhClusterMessage o e => on_cluster_message_received o e
  | PhContractMessage o e => on_contract_message_received o e
  | PhWorkerMessage o e => on_worker_cluster_message_received o e
  | PhInitialize => phat_on_initialize
  | PhAdjustStake o c v => adjust_stake o c v
  end.

Definition members (p : PhatState) (c : H256) : list WorkerPublicKey := default [] (cluster_workers p !! c).

Record clusters_ok (p : PhatState) : Prop := {
  ck_counter : 0 <= cluster_counter p < 2 ^ 64;
  ck_ids : forall c, is_Some (clusters p !! c) -> 1 <= c <= cluster_counter p;
  ck_member : forall c w, w ∈ members p c -> cluster_by_workers p !! w = Some c /\ 1 <= c <= cluster_counter p;
  ck_placed : forall w c, cluster_by_workers p !! w = Some c -> c = 0 \/ w ∈ members p c;
  ck_nodup : forall c, NoDup (members p c);
}.

(** A worker is placed once, and may only go from its cluster to [0]. *)
Definition placed_le (p p' : PhatState) : Prop := forall w c,
  cluster_by_workers p !! w = Some c ->
  cluster_by_workers p' !! w = Some c \/ cluster_by_workers p' !! w = Some 0.
#[export] Instance placed_le_preorder : PreOrder placed_le.
Proof.
  split; [by left|]. intros p q r H1 H2 w c Hw. destruct (H1 w c Hw) as [H|H]; [by apply H2|].
  right. by destruct (H2 w 0 H).
Qed.

Definition registered_in (s : Storage X) : Prop := forall w c,
  cluster_by_workers (phat s) !! w = Some c -> is_Some (workers (reg s) !! w).
Definition clusters_inv (s : Storage X) : Prop := clusters_ok (phat s) /\ registered_in s.

(** Fewer than 2^64 clusters are created. *)
Definition phat_op_ok (s : Storage X) (op : phat_op) : Prop :=
  match op with
  | PhAddCluster _ _ _ _ _ _ _ _ _ => cluster_counter (phat s) < 2 ^ 64 - 1
  | _ => True
  end.

(** A call that fails is rolled back; a message handler that fails is not. The
    rest of the chain does not write to the pallet and keeps its workers. *)
Inductive phat_step (s s' : Storage X) : Prop :=
  | phat_call op : phat_op_ok s op -> phat_exec op s = Ok tt s' -> phat_step s s'
  | phat_failed op e : phat_exec op s = Err e s' ->
      match op with PhClusterMessage _ _ | PhContractMessage _ _ | PhWorkerMessage _ _ => True | _ => False end ->
      phat_step s s'
  | phat_other : phat s' = phat s ->
      (forall w, is_Some (workers (reg s) !! w) -> is_Some (workers (reg s') !! w)) -> phat_step s s'.
End clusters.

(** ** The maps *)

Section placing.
Implicit Types p : PhatState.

Definition place_all (c : H256) (l : list WorkerPublicKey) (m : gmap WorkerPublicKey H256) : gmap WorkerPublicKey H256 :=
  foldl (fun m w => <[ w := c ]> m) m l.

Lemma place_all_lookup c l : forall m w, place_all c l m !! w = if decide (w ∈ l) then Some c else m !! w.
Proof.
  induction l as [|w' l IH]; intros m w; [done|]. change (place_all c (w' :: l) m) with (place_all c l (<[ w' := c ]> m)).
  rewrite IH. destruct (decide (w = w')) as [->|Hne].
  - rewrite lookup_insert_eq. repeat case_decide; try done; exfalso; set_solver.
  - rewrite lookup_insert_ne by done. repeat case_decide; try done; exfalso; set_solver.
Qed.

#[local] Arguments place_all : simpl never.

Lemma members_insert p c c' l : members (put_cluster_workers (<[ c := l ]> (cluster_workers p)) p) c' =
  if decide (c = c') then l else members p c'.
Proof. unfold members. cbn. rewrite lookup_insert. by case_decide. Qed.

(** A new cluster with workers that were nowhere *)
Lemma clusters_ok_new p l i : clusters_ok p -> cluster_counter p < 2 ^ 64 - 1 -> NoDup l ->
  (forall w, w ∈ l -> cluster_by_workers p !! w = None) ->
  let c := cluster_counter p + 1 in
  clusters_ok (put_clusters (<[ c := i ]> (clusters p)) (put_cluster_workers (<[ c := l ]> (cluster_workers p))
    (put_cluster_by_workers (place_all c l (cluster_by_workers p)) (put_cluster_counter c p)))).
Proof.
  intros Hok Hlt Hnd Hfree c. pose proof (ck_counter p Hok) as Hc.
  assert (forall c', members (put_cluster_workers (<[ c := l ]> (cluster_workers p))
    (put_cluster_by_workers (place_all c l (cluster_by_workers p)) (put_cluster_counter c p))) c' =
    if decide (c = c') then l else members p c') as Hm by (intros c'; unfold members; cbn; rewrite lookup_insert; by case_decide).
  assert (forall c' w, w ∈ members p c' -> c' <> c) as Hold by (intros c' w Hw ->; apply ck_member in Hw; [lia|done]).
  split; cbn.
  - lia.
  - intros c' Hc'. rewrite lookup_insert in Hc'. case_decide; [lia|]. apply (ck_ids p Hok) in Hc'. lia.
  - intros c' w Hw. change (w ∈ members (put_cluster_workers (<[c:=l]> (cluster_workers p))
      (put_cluster_by_workers (place_all c l (cluster_by_workers p)) (put_cluster_counter c p))) c') in Hw.
    rewrite Hm in Hw. rewrite place_all_lookup. case_decide as Hd.
    + subst c'. rewrite decide_True by done. split; [done|lia].
    + apply (ck_member p Hok) in Hw as [Hw ?]. case_decide as Hin; [rewrite Hfree in Hw by done; done|]. split; [done|lia].
  - intros w c' Hw. rewrite place_all_lookup in Hw.
    change (c' = 0 \/ w ∈ members (put_cluster_workers (<[c:=l]> (cluster_workers p))
      (put_cluster_by_workers (place_all c l (cluster_by_workers p)) (put_cluster_counter c p))) c').
    rewrite Hm. case_decide as Hin.
    + injection Hw as <-. rewrite decide_True by done. by right.
    + apply (ck_placed p Hok) in Hw as [->|Hw]; [by left|]. right. rewrite decide_False; [done|]. by apply Hold in Hw.
  - intros c'. change (NoDup (members (put_cluster_workers (<[c:=l]> (cluster_workers p))
      (put_cluster_by_workers (place_all c l (cluster_by_workers p)) (put_cluster_counter c p))) c')).
    rewrite Hm. case_decide; [done|]. apply (ck_nodup p Hok).
Qed.

(** Only the two maps, the counter and the clusters matter. *)
Lemma clusters_ok_ext p p' : clusters_ok p -> cluster_counter p' = cluster_counter p ->
  (forall c, is_Some (clusters p' !! c) -> is_Some (clusters p !! c)) ->
  cluster_workers p' = cluster_workers p -> cluster_by_workers p' = cluster_by_workers p -> clusters_ok p'.
Proof.
  intros [H1 H2 H3 H4 H5] Ec Ei Ew Eb. unfold members in *. split; unfold members; rewrite ?Ec, ?Ew, ?Eb; auto.
Qed.

Lemma clusters_ok_join p w c i : clusters_ok p -> is_Some (clusters p !! c) -> cluster_by_workers p !! w = None ->
  clusters_ok (put_clusters (<[ c := i ]> (clusters p)) (put_cluster_workers (<[ c := members p c ++ [w] ]> (cluster_workers p))
    (put_cluster_by_workers (<[ w := c ]> (cluster_by_workers p)) p))).
Proof.
  intros Hok Hc Hw. pose proof (ck_ids p Hok c Hc) as Hr.
  assert (forall c', w ∉ members p c') as Hnot by (intros c' [Hm _]%(ck_member p Hok); by rewrite Hw in Hm).
  split; unfold members; cbn.
  - apply (ck_counter p Hok).
  - intros c'. rewrite lookup_insert. case_decide; [subst; lia|]. apply (ck_ids p Hok).
  - intros c' w'. rewrite !lookup_insert. case_decide as Hd; cbn.
    + subst c'. intros [Hin|Hin]%elem_of_app.
      * case_decide as He; [subst; by destruct (Hnot c)|]. by apply (ck_member p Hok).
      * apply list_elem_of_singleton in Hin as ->. rewrite decide_True by done. split; [done|lia].
    + intros Hin. case_decide as He; [subst; by destruct (Hnot c')|]. by apply (ck_member p Hok).
  - intros w' c'. rewrite !lookup_insert. case_decide as He.
    + intros [= <-]. rewrite decide_True by done. cbn. subst. right. apply elem_of_app. right. by left.
    + intros [->|Hin]%(ck_placed p Hok); [by left|right]. case_decide as Hd; [|done]. subst. apply elem_of_app. by left.
  - intros c'. rewrite lookup_insert. case_decide as Hd; [|apply (ck_nodup p Hok)]. subst. cbn. apply NoDup_snoc; [apply (ck_nodup p Hok)|apply Hnot].
Qed.

Lemma clusters_ok_leave p w c : clusters_ok p -> cluster_by_workers p !! w = Some c ->
  clusters_ok (put_cluster_workers (<[ c := filter (fun k => k <> w) (members p c) ]> (cluster_workers p))
    (put_cluster_by_workers (<[ w := 0 ]> (cluster_by_workers p)) p)).
Proof.
  intros Hok Hw. split; unfold members; cbn; try apply Hok.
  - intros c' w'. rewrite !lookup_insert. case_decide as Hd; cbn.
    + subst c'. intros [Hne Hin]%list_elem_of_filter. rewrite decide_False by done. by apply (ck_member p Hok).
    + intros Hin. apply (ck_member p Hok) in Hin as [Hin ?]. case_decide; [congruence|done].
  - intros w' c'. rewrite !lookup_insert. case_decide as He; [intros [= <-]; by left|].
    intros [->|Hin]%(ck_placed p Hok); [by left|right]. case_decide as Hd; [|done]. subst. cbn. by apply list_elem_of_filter.
  - intros c'. rewrite lookup_insert. case_decide; [|apply (ck_nodup p Hok)]. cbn. apply NoDup_filter, (ck_nodup p Hok).
Qed.

Lemma filter_all {A} (P : A -> Prop) `{!forall x, Decision (P x)} (l : list A) : (forall x, x ∈ l -> P x) -> filter P l = l.
Proof.
  induction l as [|x l IH]; intros Hl; [done|]. rewrite filter_cons, decide_True by (apply Hl; by left).
  f_equal. apply IH. intros y Hy. apply Hl. by right.
Qed.

(** Nobody is in a cluster and removed: cleaning up changes nothing. *)
Lemma cleanup_keeps p c : clusters_ok p ->
  clusters_ok (put_cluster_workers (<[ c := filter (fun k => cluster_by_workers p !! k <> Some (from_low_u64_be 0)) (members p c) ]> (cluster_workers p)) p).
Proof.
  intros Hok. rewrite filter_all.
  2: { intros w [Hw ?]%(ck_member p Hok). rewrite Hw. intros [= ->]. unfold from_low_u64_be in *. lia. }
  destruct Hok as [H1 H2 H3 H4 H5]. split; try done; unfold members; cbn.
  - intros c' w. rewrite lookup_insert. case_decide; [subst; cbn|]; apply H3.
  - intros w c' Hw. rewrite lookup_insert. case_decide; [subst; cbn|]; by apply H4.
  - intros c'. rewrite lookup_insert. case_decide; [subst; cbn|]; apply H5.
Qed.
End placing.

(** ** The calls *)

Section phat_calls.
Context {X : Type} `{QN : !QueueNotifyConfig X} `{PT : !PalletTopicsUnrouted X} `{RC : !RegConfig} `{PH : !PhatConfig X}.
Implicit Types s : Storage X.

(** What a step that is not about clusters may change *)
Definition clusters_same s s' : Prop :=
  cluster_counter (phat s') = cluster_counter (phat s) /\
  (forall c, is_Some (clusters (phat s') !! c) -> is_Some (clusters (phat s) !! c)) /\
  cluster_workers (phat s') = cluster_workers (phat s) /\
  cluster_by_workers (phat s') = cluster_by_workers (phat s) /\ workers (reg s') = workers (reg s).
#[local] Instance clusters_same_preorder : PreOrder clusters_same.
Proof.
  split; [done|]. intros s1 s2 s3 (A1 & A2 & A3 & A4 & A5) (B1 & B2 & B3 & B4 & B5).
  unfold clusters_same. rewrite B1, B3, B4, B5. auto 6.
Qed.

Lemma same_kept s s' : clusters_inv s -> clusters_same s s' -> clusters_inv s' /\ placed_le (phat s) (phat s').
Proof.
  intros [Hok Hr] (E1 & E2 & E3 & E4 & E5). split; [split|].
  - by eapply clusters_ok_ext.
  - intros w c. unfold registered_in in Hr. rewrite E4, E5. apply Hr.
  - intros w c. rewrite E4. by left.
Qed.

Lemma same_push o t p : off_chain_topic t -> moves clusters_same (push_bound (X := X) o t p).
Proof. intros Ht s. by rewrite push_bound_run. Qed.
Lemma same_dispatch m : off_chain_topic (topic_path (destination m)) -> moves clusters_same (dispatch_message (X := X) m).
Proof. intros Ht s. rewrite dispatch_message_ignored by (by apply pallet_topic_ignored). by destruct (should_push_message m). Qed.
Lemma same_event (e : Event) : moves clusters_same (deposit_event (X := X) e).
Proof. by intros s. Qed.
Lemma same_ext (f : X -> option X) : moves clusters_same (on_ext f).
Proof. intros s. unfold on_ext. by destruct (f (ext s)). Qed.
Lemma same_pt (f : PtState -> PtState) : moves clusters_same (mod_pt (X := X) f).
Proof. by intros s. Qed.
Lemma same_signed (o : Origin) : moves clusters_same (ensure_signed (X := X) o).
Proof. by destruct o; intros s. Qed.
Lemma same_root (o : Origin) : moves clusters_same (ensure_root (X := X) o).
Proof. by destruct o; intros s. Qed.
Lemma same_governance (o : Origin) : moves clusters_same (ensure_governance (X := X) o).
Proof. apply moves_ensure, _. Qed.
Lemma command_topic_off_chain i : off_chain_topic (command_topic i).
Proof. right. by eexists. Qed.
#[local] Hint Resolve same_event same_ext same_pt same_signed same_root same_governance : moves.

Lemma same_cluster_event e : moves clusters_same (push_cluster_event e).
Proof. apply same_push. left. set_solver. Qed.
Lemma same_cluster_op e : moves clusters_same (push_cluster_op e).
Proof. apply same_push. left. set_solver. Qed.
Lemma same_contract_op e : moves clusters_same (push_contract_op e).
Proof. apply same_push. left. set_solver. Qed.
Lemma same_phat_event e : moves clusters_same (phat_event (X := X) e).
Proof. apply same_event. Qed.
Lemma same_pt_event e : moves clusters_same (pt_event (X := X) e).
Proof. apply same_event. Qed.
Lemma same_get_cluster c : moves clusters_same (get_cluster (X := X) c).
Proof. unfold get_cluster. moves. Qed.
Lemma same_push_ink o i m : moves clusters_same (push_ink_message o i m).
Proof. apply same_dispatch, command_topic_off_chain. Qed.
#[local] Hint Resolve same_cluster_event same_cluster_op same_contract_op same_phat_event same_pt_event same_get_cluster
  same_push_ink : moves.

Lemma same_transfer o v c a : moves clusters_same (transfer_to_cluster o v c a).
Proof. unfold transfer_to_cluster. moves. Qed.
#[local] Hint Resolve same_transfer : moves.
Lemma same_push_message o i p : moves clusters_same (push_message o (command_topic i) p).
Proof. unfold push_message. moves. apply same_dispatch, command_topic_off_chain. Qed.
#[local] Hint Resolve same_push_message : moves.

(** Everything but the three calls that move workers, the new cluster, and cleaning up *)
Definition moves_no_worker (op : phat_op) : Prop :=
  match op with
  | PhAddCluster _ _ _ _ _ _ _ _ _ | PhAddWorker _ _ _ | PhRemoveWorker _ _ _ | PhCleanup _ _ => False
  | _ => True
  end.

Lemma phat_exec_same op : moves_no_worker op -> moves clusters_same (phat_exec op).
Proof.
  intros Hop. destruct op; try done; cbn [phat_exec].
  - unfold cluster_upload_resource. moves.
  - moves.
  - unfold push_contract_message. moves.
  - unfold instantiate_contract. moves. by intros s.
  - unfold cluster_destroy. moves. intros s. unfold mod_phat, modify, clusters_same. cbn. split_and!; try done.
    intros c'. rewrite lookup_delete_is_Some. by intros [_ ?].
  - unfold set_pink_system_code. moves. by intros s.
  - unfold set_pink_runtime_version. moves. by intros s.
  - unfold on_cluster_message_received. moves. by intros s.
  - unfold on_contract_message_received. moves; intros s; try done. unfold mod_phat, modify, clusters_same, upd_phat. cbn.
    by destruct (contracts (phat s) !! _).
  - unfold on_worker_cluster_message_received. moves.
  - unfold phat_on_initialize. moves; by intros s.
  - unfold adjust_stake. moves.
Qed.

(** ** Creating a cluster *)

Lemma worker_identities_Ok l : forall s ws s', worker_identities l s = Ok ws s' ->
  s' = s /\ forall w, w ∈ l -> is_Some (workers (reg s) !! w).
Proof.
  induction l as [|w l IH]; cbn [worker_identities]; intros s ws s' H; [by injection H as <- <-; split; [|set_solver]|].
  mrun. match goal with E : worker_identities _ _ = Ok _ _ |- _ => apply IH in E as [-> Hl] end. split; [done|]. intros w' [->|Hw]%elem_of_cons; [by eexists|by apply Hl].
Qed.

Definition place_in (c : H256) (l : list WorkerPublicKey) s : Storage X :=
  upd_phat (fun p => put_cluster_by_workers (place_all c l (cluster_by_workers p)) p) s.

Lemma assign_all_Ok c l : forall s u s', for_each l (assign_worker (X := X) c) s = Ok u s' ->
  NoDup l /\ (forall w, w ∈ l -> cluster_by_workers (phat s) !! w = None) /\ s' = place_in c l s.
Proof.
  induction l as [|w l IH]; intros s u s' H.
  - cbn in H. injection H as <- <-. split; [constructor|]. split; [set_solver|]. by destruct s as [? ? ? ? ? ? ? [] ? ? ? ?].
  - cbn [for_each] in H. apply bind_Ok in H as (u1 & s1 & E & H). apply IH in H as (Hnd & Hfree & ->).
    unfold assign_worker, mod_phat in E. mrun. b2p. split_and!.
    + constructor; [|done]. intros Hin. specialize (Hfree w Hin). cbn in Hfree. by rewrite lookup_insert_eq in Hfree.
    + intros w' [->|Hw]%elem_of_cons; [done|]. specialize (Hfree w' Hw). cbn in Hfree.
      by apply lookup_insert_None in Hfree as [? _].
    + done.
Qed.

Definition kept s s' : Prop := clusters_inv s' /\ placed_le (phat s) (phat s').

Lemma kept_same s s1 s2 : kept s s1 -> clusters_same s1 s2 -> kept s s2.
Proof. intros [H1 H2] [H3 H4]%same_kept; [|done]. split; [done|]. by etrans. Qed.

Lemma add_cluster_kept o owner perm l d g di db t s u s' : clusters_inv s -> cluster_counter (phat s) < 2 ^ 64 - 1 ->
  add_cluster o owner perm l d g di db t s = Ok u s' -> kept s s'.
Proof.
  intros [Hok Hr] Hlt H. pose proof (ck_counter _ Hok) as Hc. unfold add_cluster in H.
  apply bind_Ok in H as (? & s0 & E0 & H). unfold ensure_governance in E0. mrun.
  match goal with E : worker_identities _ _ = Ok _ _ |- _ => apply worker_identities_Ok in E as [-> Hreg] end.
  match goal with E : for_each _ _ _ = Ok _ _ |- _ => apply assign_all_Ok in E as (Hnd & Hfree & ->) end.
  assert (cluster_counter (phat s1) +[64] 1 = cluster_counter (phat s1) + 1) as Ew by (apply wrap_small; unfold in_width; lia).
  repeat match goal with
  | E : push_cluster_event _ _ = Ok _ _ |- _ => apply (moves_ok _ _ (same_cluster_event _)) in E
  | E : on_ext _ _ = Ok _ _ |- _ => apply (moves_ok _ _ (same_ext _)) in E
  end.
  eapply kept_same; [|etrans; eassumption]. unfold from_low_u64_be in *. cbn in Hfree. rewrite Ew in *. split; [split|].
  - cbn. rewrite Ew. by apply clusters_ok_new.
  - intros w c. cbn. rewrite place_all_lookup. case_decide; [intros _; by apply Hreg|apply Hr].
  - intros w c Hw. cbn. rewrite place_all_lookup. case_decide; [|by left]. by rewrite Hfree in Hw.
Qed.

Lemma add_worker_kept o w c s u s' : clusters_inv s -> add_worker_to_cluster o w c s = Ok u s' -> kept s s'.
Proof.
  intros [Hok Hr] H. unfold add_worker_to_cluster, ensure_signed, get_cluster, mod_cluster_workers, mod_phat, phat_event,
    deposit_event in H. mrun. b2p. split; [split|].
  - refine (clusters_ok_join _ w c _ Hok _ _); eauto.
  - intros w' c'. cbn. rewrite lookup_insert. case_decide; [intros _; by subst|apply Hr].
  - intros w' c' Hw'. cbn. rewrite lookup_insert. case_decide; [subst; congruence|by left].
Qed.

Lemma remove_worker_kept o w c s u s' : clusters_inv s -> remove_worker_from_cluster o w c s = Ok u s' -> kept s s'.
Proof.
  intros [Hok Hr] H. unfold remove_worker_from_cluster, ensure_signed, get_cluster, mod_cluster_workers, mod_phat, phat_event,
    deposit_event in H. mrun. b2p. apply (moves_ok _ _ (same_cluster_op _)) in H. eapply kept_same; [|exact H]. split; [split|].
  - by refine (clusters_ok_leave _ w c Hok _).
  - intros w' c'. cbn. rewrite lookup_insert. case_decide; [intros _; subst; by eapply Hr|apply Hr].
  - intros w' c' Hw'. cbn. rewrite lookup_insert. case_decide; [by right|by left].
Qed.

Lemma cleanup_kept o c s u s' : clusters_inv s -> cleanup_removed_workers o c s = Ok u s' -> kept s s'.
Proof.
  intros [Hok Hr] H. unfold cleanup_removed_workers, ensure_root, mod_cluster_workers, mod_phat in H. mrun.
  split; [split|].
  - exact (cleanup_keeps _ c Hok).
  - exact Hr.
  - intros w' c' Hw'. by left.
Qed.

Lemma phat_step_kept s s' : clusters_inv s -> phat_step s s' -> kept s s'.
Proof.
  intros Hi. assert (kept s s) as Hs by (by split). intros [op Hop H|op e H Hm|E Hw].
  - assert (moves_no_worker op -> kept s s') as Hq.
    { intros Hn. apply (moves_ok _ _ (phat_exec_same op Hn)) in H. by eapply kept_same. }
    destruct op; cbn in Hop, H; try (by apply Hq);
      eauto using add_cluster_kept, add_worker_kept, remove_worker_kept, cleanup_kept.
  - assert (moves_no_worker op) as Hn by (by destruct op). pose proof (phat_exec_same op Hn s) as Hm'. rewrite H in Hm'.
    by eapply kept_same.
  - destruct Hi as [Hok Hr]. unfold kept, clusters_inv, registered_in. rewrite E. split; [|reflexivity].
    split; [done|]. intros w c Hc. apply Hw. by eapply Hr.
Qed.

(** C16: on every history of calls and messages: the list of workers of every
    cluster has no duplicates, its workers are registered and filed under that
    cluster and no other, every worker that is filed under a cluster is in its
    list unless it was removed, and cluster ids are counted from [1]; a worker
    never moves from one cluster to another, and never comes back once it was
    removed. *)
Theorem clusters_invariant s0 s s' : clusters_inv s0 -> rtc phat_step s0 s -> rtc phat_step s s' ->
  clusters_inv s' /\ placed_le (phat s) (phat s').
Proof.
  intros H0 Hr. assert (clusters_inv s) as Hs by (eapply rtc_invariant; [|exact Hr|done]; intros a b Ha Hab; by apply phat_step_kept in Hab as [? _]).
  clear H0 Hr. intros Hr. induction Hr as [s|s s1 s2 H1 _ IH]; [by split|].
  apply phat_step_kept in H1 as [Hi Hle]; [|done]. destruct (IH Hi) as [? Hle']. split; [done|]. by etrans.
Qed.
End phat_calls.
