(* ===== verification/PhatStakes.v ===== *)
(** * Stakes on contracts are kept and paid back

    The tokenomic pallet holds the stakes of all users on one account. *)

From S2P Require Import Prelude MqTypes Storage MqPallet PalletMsg Registry Phat PhatClusters.

Lemma msum_set {K A} `{Countable K} (f : K -> A -> Z) (m : gmap K A) k a :
  msum f (<[ k := a ]> m) = msum f m - from_option (f k) 0 (m !! k) + f k a.
Proof.
  destruct (m !! k) as [b|] eqn:E; cbn; [|rewrite msum_insert by done; lia].
  rewrite <- insert_delete_eq, msum_insert by apply lookup_delete_eq. rewrite (msum_delete f m k b) by done. lia.
Qed.

Lemma msum_mono {K A} `{Countable K} (f g : K -> A -> Z) (m : gmap K A) :
  (forall k a, m !! k = Some a -> f k a <= g k a) -> msum f m <= msum g m.
Proof.
  induction m as [|k a m Hk IH] using map_ind; [done|]. intros Hfg. rewrite !msum_insert by done.
  pose proof (Hfg k a (lookup_insert_eq _ _ _)). assert (msum f m <= msum g m); [|lia].
  apply IH. intros k' a' Hk'. apply Hfg. rewrite lookup_insert_ne; [done|]. congruence.
Qed.

(** [pallet_balances]: a transfer that keeps the sender alive moves exactly the
    amount. One that may kill the sender pays the amount; when less than the
    existential deposit would be left to the sender, the account is reaped and the
    rest is burnt. The pallet's account can pay what it holds to an account that
    exists. *)
Class PhatBalances (X : Type) `{PH : !PhatConfig X} := {
  free_balance : X -> Account -> Balance;
  ExistentialDeposit : Balance;
  free_balance_u128 : forall x a, u128 (free_balance x a);
  keep_alive_moves : forall a b v x x', phat_transfer_keep_alive a b v x = Some x' -> forall c,
    free_balance x' c = free_balance x c - (if c =? a then v else 0) + (if c =? b then v else 0);
  allow_death_moves : forall b v x x', b <> phat_tok_account -> phat_transfer_allow_death phat_tok_account b v x = Some x' -> forall c,
    free_balance x' c =
      if c =? phat_tok_account then
        let rest := free_balance x phat_tok_account - v in if ExistentialDeposit <=? rest then rest else 0
      else free_balance x c + (if c =? b then v else 0);
  allow_death_ok : forall b v x, 0 <= v <= free_balance x phat_tok_account -> ExistentialDeposit <= free_balance x b ->
    is_Some (phat_transfer_allow_death phat_tok_account b v x);
}.

Section stakes.
Context {X : Type} `{QN : !QueueNotifyConfig X} `{PT : !PalletTopicsUnrouted X} `{RC : !RegConfig} `{PH : !PhatConfig X}
  `{PB : !PhatBalances X}.
Implicit Types s : Storage X.

Definition tok_balance s : Balance := free_balance (ext s) phat_tok_account.
Definition stake_of s (user : Account) (c : H256) : Balance := default 0 (contract_user_stakes (pt s) !! (user, c)).
Definition total_of s (c : H256) : Balance := default 0 (contract_total_stakes (pt s) !! c).
Definition staked_on (c : H256) (m : gmap (Account * H256) Balance) : Balance := msum (fun k v => if k.2 =? c then v else 0) m.

(** The smallest stake allowed is not below the existential deposit. *)
Record stakes_inv s : Prop := {
  st_min : 0 <= ExistentialDeposit <= min_stake (pt s);
  st_size : forall k v, contract_user_stakes (pt s) !! k = Some v -> v = 0 \/ ExistentialDeposit <= v;
  st_total : forall c, total_of s c = staked_on c (contract_user_stakes (pt s));
  st_backed : msum (fun _ v => v) (contract_user_stakes (pt s)) <= tok_balance s;
}.

(** Nobody signs for the pallet's account; amounts are unsigned. *)
Definition stake_op_ok (op : phat_op) : Prop :=
  match op with
  | PhAddCluster _ owner _ _ d _ _ _ _ => owner <> phat_tok_account /\ 0 <= d
  | PhTransfer o d _ _ | PhPushMessage o _ _ d | PhInstantiate o _ _ _ _ _ _ _ d => o <> Signed phat_tok_account /\ 0 <= d
  | PhAdjustStake o _ v => o <> Signed phat_tok_account /\ u128 v
  | _ => True
  end.

Inductive stake_step s s' : Prop :=
  | stake_call op : stake_op_ok op -> phat_exec op s = Ok tt s' -> stake_step s s'
  | stake_other : pt s' = pt s -> tok_balance s <= tok_balance s' -> stake_step s s'.

Lemma st_nonneg s k v : stakes_inv s -> contract_user_stakes (pt s) !! k = Some v -> 0 <= v.
Proof. intros Hi Hk. destruct (st_min _ Hi), (st_size _ Hi k v Hk); lia. Qed.

(** ** The calls that only pay into the account *)

Definition pays_in s s' : Prop := pt s' = pt s /\ tok_balance s <= tok_balance s'.
#[local] Instance pays_in_preorder : PreOrder pays_in.
Proof. split; [done|]. intros s1 s2 s3 [A1 A2] [B1 B2]. split; [by rewrite B1|lia]. Qed.

Lemma paid_dispatch m : off_chain_topic (topic_path (destination m)) -> moves pays_in (dispatch_message (X := X) m).
Proof. intros Ht s. rewrite dispatch_message_ignored by (by apply pallet_topic_ignored). by destruct (should_push_message m). Qed.
Lemma paid_push o t p : off_chain_topic t -> moves pays_in (push_bound (X := X) o t p).
Proof. intros Ht. by apply paid_dispatch. Qed.
Lemma paid_phat f : moves pays_in (mod_phat (X := X) f).
Proof. by intros s. Qed.
Lemma paid_reg f : moves pays_in (modify (upd_reg (X := X) f) : H X unit).
Proof. by intros s. Qed.
Lemma paid_event (e : PhatEvent) : moves pays_in (phat_event (X := X) e).
Proof. by intros s. Qed.
Lemma paid_signed (o : Origin) : moves pays_in (ensure_signed (X := X) o).
Proof. by destruct o; intros s. Qed.
Lemma paid_root (o : Origin) : moves pays_in (ensure_root (X := X) o).
Proof. by destruct o; intros s. Qed.
Lemma paid_governance (o : Origin) : moves pays_in (ensure_governance (X := X) o).
Proof. apply moves_ensure, _. Qed.
Lemma paid_keep_alive a b v : a <> phat_tok_account -> 0 <= v -> moves pays_in (on_ext (phat_transfer_keep_alive a b v)).
Proof.
  intros Ha Hv s. unfold on_ext. destruct (phat_transfer_keep_alive a b v (ext s)) as [x|] eqn:E; [|done].
  split; [done|]. unfold tok_balance. cbn. rewrite (keep_alive_moves _ _ _ _ _ E phat_tok_account).
  destruct (Z.eqb_spec phat_tok_account a); [congruence|]. destruct (phat_tok_account =? b); lia.
Qed.
#[local] Hint Resolve paid_phat paid_reg paid_event paid_signed paid_root paid_governance : moves.

Lemma paid_cluster_event e : moves pays_in (push_cluster_event e).
Proof. apply paid_push. left. set_solver. Qed.
Lemma paid_cluster_op e : moves pays_in (push_cluster_op e).
Proof. apply paid_push. left. set_solver. Qed.
Lemma paid_contract_op e : moves pays_in (push_contract_op e).
Proof. apply paid_push. left. set_solver. Qed.
Lemma paid_get_cluster c : moves pays_in (get_cluster (X := X) c).
Proof. unfold get_cluster. moves. Qed.
Lemma paid_identities l : moves pays_in (worker_identities (X := X) l).
Proof. induction l; cbn [worker_identities]; moves. Qed.
Lemma paid_assign c w : moves pays_in (assign_worker (X := X) c w).
Proof. unfold assign_worker. moves. Qed.
Lemma paid_members c f : moves pays_in (mod_cluster_workers (X := X) c f).
Proof. unfold mod_cluster_workers. moves. Qed.
#[local] Hint Resolve paid_cluster_event paid_cluster_op paid_contract_op paid_get_cluster paid_identities paid_assign
  paid_members : moves.

Lemma moves_signed {A} (R : Storage X -> Storage X -> Prop) `{!PreOrder R} o (f : Account -> H X A) :
  (forall who, o = Signed who -> moves R (f who)) -> moves R (ensure_signed o ≫= f).
Proof. intros Hf s. destruct o as [|who|]; unfold mbind, M_bind; cbn; [done|exact (Hf who eq_refl s)|done]. Qed.

Lemma paid_transfer o v c a : o <> Signed phat_tok_account -> 0 <= v -> moves pays_in (transfer_to_cluster o v c a).
Proof.
  intros Ho Hv. apply moves_signed; [apply _|]. intros who ->. moves. apply paid_keep_alive; [congruence|done].
Qed.
Lemma paid_push_message o i p : moves pays_in (push_message o (command_topic i) p).
Proof. unfold push_message. moves. apply paid_dispatch, command_topic_off_chain. Qed.
#[local] Hint Resolve paid_transfer paid_push_message : moves.

Definition adjusts (op : phat_op) : bool := match op with PhAdjustStake _ _ _ => true | _ => false end.

Lemma phat_exec_pays_in op : stake_op_ok op -> adjusts op = false ->
  moves pays_in (phat_exec op).
Proof.
  intros Hok Hop. destruct op; try done; cbn [phat_exec] in *; cbn [stake_op_ok] in Hok; 
    try match type of Hok with _ /\ _ => destruct Hok as [Ho Hd] end.
  - unfold add_cluster. moves. by apply paid_keep_alive.
  - unfold cluster_upload_resource. moves.
  - by apply paid_transfer.
  - unfold push_contract_message. moves.
  - unfold instantiate_contract. moves.
  - unfold cluster_destroy. moves.
  - unfold set_pink_system_code. moves.
  - unfold set_pink_runtime_version. moves.
  - unfold add_worker_to_cluster. moves.
  - unfold remove_worker_from_cluster. moves.
  - unfold cleanup_removed_workers. moves.
  - unfold on_cluster_message_received. moves.
  - unfold on_contract_message_received. moves.
  - unfold on_worker_cluster_message_received. moves.
  - unfold phat_on_initialize. moves.
Qed.

Lemma stakes_inv_paid s s' : stakes_inv s -> pays_in s s' -> stakes_inv s'.
Proof.
  intros [H0 H1 H2 H3] [E Hb]. split; unfold total_of in *; rewrite ?E; try done. lia.
Qed.

(** ** Adjusting a stake *)

(** The pallet's storage with a stake set *)
Definition set_stake (user : Account) (c : H256) (amount : Balance) s : PtState :=
  put_contract_total_stakes (<[ c := total_of s c - stake_of s user c + amount ]> (contract_total_stakes (pt s)))
    (put_contract_user_stakes (<[ (user, c) := amount ]> (contract_user_stakes (pt s))) (pt s)).

Lemma stake_bounds s user c : stakes_inv s -> 0 <= stake_of s user c <= total_of s c /\ total_of s c <= tok_balance s.
Proof.
  intros Hi. pose proof Hi as [_ _ H2 H3]. pose proof (st_nonneg s) as H1. rewrite H2. split.
  - unfold stake_of, staked_on. destruct (contract_user_stakes (pt s) !! (user, c)) as [v|] eqn:E; cbn.
    + split; [by eapply H1|]. etrans; [|apply (msum_ge _ _ (user, c) v)]; cbn; [by rewrite Z.eqb_refl| |done].
      intros k a Hk. case_match; [by eapply H1|done].
    + split; [done|]. apply msum_nonneg. intros k a Hk. case_match; [by eapply H1|done].
  - etrans; [|exact H3]. apply msum_mono. intros k a Hk. apply (H1 k a Hi) in Hk. case_match; lia.
Qed.

(** What is left to all others when a stake changes *)
Definition other_stakes (user : Account) (c : H256) s : Balance := msum (fun _ v => v) (contract_user_stakes (pt s)) - stake_of s user c.

Lemma set_stake_sum user c amount s :
  msum (fun _ v => v) (<[ (user, c) := amount ]> (contract_user_stakes (pt s))) = other_stakes user c s + amount.
Proof. rewrite msum_set. unfold other_stakes, stake_of. destruct (contract_user_stakes (pt s) !! (user, c)); cbn; lia. Qed.

(** What is staked at all is at least the existential deposit. *)
Lemma stakes_sum_size (e : Balance) (m : gmap (Account * H256) Balance) : 0 <= e -> (forall k v, m !! k = Some v -> v = 0 \/ e <= v) ->
  msum (fun _ v => v) m = 0 \/ e <= msum (fun _ v => v) m.
Proof.
  intros He. induction m as [|k a m Hk IH] using map_ind; intros Hm; [by left|]. rewrite msum_insert by done.
  destruct IH as [IH|IH]; [|destruct (Hm k a (lookup_insert_eq _ _ _)); lia..]. intros k' v Hk'. apply (Hm k'). rewrite lookup_insert_ne; [done|]. congruence.
Qed.

Lemma set_stake_inv user c amount s s' : stakes_inv s -> amount = 0 \/ min_stake (pt s) <= amount -> pt s' = set_stake user c amount s ->
  other_stakes user c s + amount <= tok_balance s' -> stakes_inv s'.
Proof.
  intros [H0 H1 H2 H3] Ha E Hb. split.
  - by rewrite E.
  - intros k v. rewrite E. cbn. rewrite lookup_insert. case_decide; [intros [= <-]; lia|apply H1].
  - intros c'. unfold total_of at 1, staked_on. rewrite E. cbn. rewrite msum_set, lookup_insert. cbn.
    specialize (H2 c'). unfold staked_on, total_of, stake_of in *. destruct (decide (c = c')) as [->|Hne].
    + rewrite Z.eqb_refl, H2. cbn. destruct (contract_user_stakes (pt s) !! (user, c')); cbn; lia.
    + rewrite (proj2 (Z.eqb_neq c c') Hne), H2.
      destruct (contract_user_stakes (pt s) !! (user, c)); cbn; lia.
  - rewrite E. cbn. by rewrite set_stake_sum.
Qed.

Lemma push_ink_run o i m s : exists q, push_ink_message o i m s = Ok tt (emit q s).
Proof.
  eexists. unfold push_ink_message, push_message_to.
  rewrite dispatch_message_ignored by (apply pallet_topic_ignored, command_topic_off_chain).
  rewrite pallet_topic_pushed by apply command_topic_off_chain. done.
Qed.

(** [adjust_stake] once the currency was moved *)
Definition record_stake (user : Account) (contract : H256) (amount total : Balance) : H X unit :=
  mod_pt (fun t => put_contract_user_stakes (<[ (user, contract) := amount ]> (contract_user_stakes t)) t);;
  mod_pt (fun t => put_contract_total_stakes (<[ contract := total ]> (contract_total_stakes t)) t);;
  p ← gets phat;
  let cluster := bc_cluster <$> get_contract_info contract p in
  pt_event (ContractDepositChanged cluster contract total);;
  pt_event (UserStakeChanged cluster user contract amount);;
  match get_system_contract contract p with
  | Some the_system_contract =>
      push_ink_message (Pallet phat_tok_name) the_system_contract (enc_change_deposit [162; 75; 203; 68] contract total)
  | None => mret tt
  end.

Lemma record_stake_run user c amount total s : exists s', record_stake user c amount total s = Ok tt s' /\
  ext s' = ext s /\ pt s' = put_contract_total_stakes (<[ c := total ]> (contract_total_stakes (pt s)))
    (put_contract_user_stakes (<[ (user, c) := amount ]> (contract_user_stakes (pt s))) (pt s)).
Proof.
  unfold record_stake, mod_pt, pt_event, deposit_event, mbind, M_bind, modify, gets. cbn.
  destruct (get_system_contract c (phat s)) as [i|]; [|by eexists].
  edestruct push_ink_run as [q ->]. by eexists.
Qed.

(** The pallet's account after it paid [v], and what [adjust_stake] does when the
    transfer succeeds *)
Definition tok_after (v : Balance) s : Balance := let rest := tok_balance s - v in if ExistentialDeposit <=? rest then rest else 0.
Definition stake_set (user : Account) (c : H256) (amount : Balance) s s' : Prop :=
  pt s' = set_stake user c amount s /\
  tok_balance s' = (if stake_of s user c <? amount then tok_balance s + (amount - stake_of s user c) else tok_after (stake_of s user c - amount) s) /\
  forall a, a <> phat_tok_account -> free_balance (ext s') a = free_balance (ext s) a - (if a =? user then amount - stake_of s user c else 0).

Lemma adjust_stake_unfold user c amount s : (amount =? 0) || (min_stake (pt s) <=? amount) = true ->
  adjust_stake (Signed user) c amount s =
    if stake_of s user c <? amount then
      (on_ext (phat_transfer_keep_alive user phat_tok_account (amount -[128] stake_of s user c));;
       record_stake user c amount (total_of s c +[128] (amount -[128] stake_of s user c))) s
    else
      (on_ext (phat_transfer_allow_death phat_tok_account user (stake_of s user c -[128] amount));;
       record_stake user c amount (total_of s c -[128] (stake_of s user c -[128] amount))) s.
Proof.
  intros Hm. unfold adjust_stake, record_stake, mbind, M_bind, gets, ensure. cbn [ensure_signed mret M_ret]. unfold mret, M_ret.
  rewrite Hm. fold (stake_of s user c) (total_of s c). destruct (stake_of s user c <? amount); unfold on_ext.
  - by destruct (phat_transfer_keep_alive _ _ _ _).
  - by destruct (phat_transfer_allow_death _ _ _ _).
Qed.

(** Amounts are in range and the total does not go below a stake. *)
Lemma adjust_stake_Ok user c amount s s' : 0 <= stake_of s user c <= total_of s c -> total_of s c <= tok_balance s -> u128 amount -> user <> phat_tok_account ->
  adjust_stake (Signed user) c amount s = Ok tt s' -> (amount = 0 \/ min_stake (pt s) <= amount) /\ stake_set user c amount s s'.
Proof.
  intros [Hs1 Hs2] Ht Hv Hu H. pose proof (free_balance_u128 (ext s) phat_tok_account) as Hb. fold (tok_balance s) in Hb. unfold in_width in *.
  assert ((amount =? 0) || (min_stake (pt s) <=? amount) = true) as Hm.
  { unfold adjust_stake in H. apply bind_Ok in H as (? & ? & [= <- <-] & H). apply bind_Ok in H as (? & ? & [= <- <-] & H).
    by destruct ((amount =? 0) || (min_stake (pt s) <=? amount)). }
  split; [apply orb_true_iff in Hm as [Hm|Hm]; b2p; lia|]. rewrite adjust_stake_unfold in H by done. unfold stake_set, set_stake.
  destruct (Z.ltb_spec (stake_of s user c) amount) as [Hlt|Hge]; apply bind_Ok in H as (u & s1 & E & H); unfold on_ext in E;
    rewrite wrap_sub_small in * by lia.
  - destruct (phat_transfer_keep_alive _ _ _ _) as [x|] eqn:Ex; [|done]. injection E as <- <-. pose proof (keep_alive_moves _ _ _ _ _ Ex) as Hx.
    pose proof (Hx phat_tok_account) as Hxt. rewrite Z.eqb_refl in Hxt. fold (tok_balance s) in Hxt.
    pose proof (free_balance_u128 x phat_tok_account) as Hbx. unfold in_width in Hbx.
    rewrite (proj2 (Z.eqb_neq phat_tok_account user)) in Hxt by congruence. rewrite wrap_add_small in H by lia.
    edestruct record_stake_run as (s2 & Hr & E2 & E3). rewrite Hr in H. injection H as <-. unfold tok_balance at 1. rewrite E2, E3. cbn. split_and!.
    + by replace (total_of s c - stake_of s user c + amount) with (total_of s c + (amount - stake_of s user c)) by lia.
    + lia.
    + intros a Ha. rewrite Hx, (proj2 (Z.eqb_neq a phat_tok_account)) by done. destruct (a =? user); lia.
  - destruct (phat_transfer_allow_death _ _ _ _) as [x|] eqn:Ex; [|done]. injection E as <- <-. pose proof (allow_death_moves _ _ _ _ Hu Ex) as Hx.
    rewrite (wrap_sub_small 128 (stake_of s user c) amount), wrap_sub_small in H by lia.
    edestruct record_stake_run as (s2 & Hr & E2 & E3). rewrite Hr in H. injection H as <-. unfold tok_balance at 1. rewrite E2, E3. cbn. split_and!.
    + by replace (total_of s c - stake_of s user c + amount) with (total_of s c - (stake_of s user c - amount)) by lia.
    + by rewrite Hx, Z.eqb_refl.
    + intros a Ha. rewrite Hx, (proj2 (Z.eqb_neq a phat_tok_account)) by done. destruct (a =? user); lia.
Qed.

(** Nothing that backs a stake is burnt: what the others have staked is zero or at
    least the existential deposit. *)
Lemma tok_after_backed user c amount s : stakes_inv s -> 0 <= amount <= stake_of s user c -> amount = 0 \/ min_stake (pt s) <= amount ->
  other_stakes user c s + amount <= tok_after (stake_of s user c - amount) s.
Proof.
  intros Hi Ha Hm. pose proof Hi as [H0 H1 _ H3]. unfold tok_after. rewrite <- set_stake_sum.
  assert (msum (fun _ v => v) (<[ (user, c) := amount ]> (contract_user_stakes (pt s))) = 0 \/
    ExistentialDeposit <= msum (fun _ v => v) (<[ (user, c) := amount ]> (contract_user_stakes (pt s)))) as Hsum.
  { apply stakes_sum_size; [lia|]. intros k v. rewrite lookup_insert. case_decide; [intros [= <-]; lia|apply H1]. }
  rewrite set_stake_sum in *. unfold other_stakes in *. destruct (Z.leb_spec ExistentialDeposit (tok_balance s - (stake_of s user c - amount))); lia.
Qed.

Lemma stake_step_inv s s' : stakes_inv s -> stake_step s s' -> stakes_inv s'.
Proof.
  intros Hi [op Hop H|E Hb]; [|by eapply stakes_inv_paid].
  destruct (adjusts op) eqn:Hn; revgoals.
  - apply (moves_ok _ _ (phat_exec_pays_in op Hop Hn)) in H. by eapply stakes_inv_paid.
  - destruct op; try done. destruct Hop as [Ho Hv]. cbn [phat_exec] in H.
    destruct o as [|user|]; [done| |done]. assert (user <> phat_tok_account) as Hu by congruence. destruct (stake_bounds s user contract Hi) as [Hs Ht].
    destruct (adjust_stake_Ok _ _ _ _ _ Hs Ht Hv Hu H) as [Hm (E & Hb & _)]. eapply set_stake_inv; [done|exact Hm|done|].
    rewrite Hb. destruct (Z.ltb_spec (stake_of s user contract) amount); [|apply tok_after_backed; [done|destruct Hv; lia|done]].
    pose proof (st_backed _ Hi). unfold other_stakes. lia.
Qed.

(** C17: when the smallest stake allowed is at least the existential deposit, on
    every history of calls: the total staked on a contract is the sum of the
    stakes of its users, the pallet's account holds the sum of all stakes, and
    every user whose account exists can take the whole stake back at any time and
    gets exactly what was recorded. *)
Theorem contract_stakes_backed s0 s : stakes_inv s0 -> rtc stake_step s0 s ->
  (forall c, total_of s c = staked_on c (contract_user_stakes (pt s))) /\
  msum (fun _ v => v) (contract_user_stakes (pt s)) <= tok_balance s /\
  forall user c, user <> phat_tok_account -> ExistentialDeposit <= free_balance (ext s) user ->
    exists s', adjust_stake (Signed user) c 0 s = Ok tt s' /\ stake_of s' user c = 0 /\
      total_of s' c = total_of s c - stake_of s user c /\
      free_balance (ext s') user = free_balance (ext s) user + stake_of s user c.
Proof.
  intros H0 Hr. assert (stakes_inv s) as Hi by (eapply rtc_invariant; [apply stake_step_inv|exact Hr|done]).
  split; [apply Hi|]. split; [apply Hi|]. intros user c Hu He.
  destruct (stake_bounds s user c Hi) as [Hs Ht].
  pose proof (free_balance_u128 (ext s) phat_tok_account) as Hb. fold (tok_balance s) in Hb. unfold in_width in *.
  assert (exists s', adjust_stake (Signed user) c 0 s = Ok tt s') as [s' H].
  { rewrite adjust_stake_unfold by done. rewrite (proj2 (Z.ltb_ge _ _)) by lia. unfold mbind, M_bind, on_ext.
    rewrite wrap_sub_small by lia. edestruct allow_death_ok as [x ->]; [|exact He|].
    - fold (tok_balance s). lia.
    - edestruct record_stake_run as (s2 & -> & _). by eexists. }
  exists s'. destruct (adjust_stake_Ok user c 0 s s' Hs Ht ltac:(unfold in_width; lia) Hu H) as [_ (E & _ & Hbal)].
  split; [done|]. unfold stake_of at 1, total_of at 1. rewrite E. cbn. rewrite !lookup_insert_eq. cbn.
  split; [done|]. split; [lia|]. rewrite Hbal, Z.eqb_refl by done. lia.
Qed.

(** With a smaller minimum, which is what the storage starts with and no call
    changes, stakes are lost: a user who takes a stake back when less than the
    existential deposit backs all others has the pallet's account reaped. Their
    stakes stay on record with nothing behind them. *)
Theorem dust_stakes_lost user c s s' : 0 <= stake_of s user c <= total_of s c -> total_of s c <= tok_balance s -> user <> phat_tok_account ->
  tok_balance s - stake_of s user c < ExistentialDeposit -> adjust_stake (Signed user) c 0 s = Ok tt s' ->
  tok_balance s' = 0 /\ forall other c', (other, c') <> (user, c) -> stake_of s' other c' = stake_of s other c'.
Proof.
  intros Hs Ht Hu Hd H. destruct (adjust_stake_Ok user c 0 s s' Hs Ht ltac:(unfold in_width; lia) Hu H) as [_ (E & Hb & _)]. split.
  - rewrite Hb, (proj2 (Z.ltb_ge _ _)) by lia. unfold tok_after. by rewrite Z.sub_0_r, (proj2 (Z.leb_gt _ _)).
  - intros other c' Hne. unfold stake_of. rewrite E. cbn. by rewrite lookup_insert_ne.
Qed.
End stakes.
