(* ===== verification/Anchor.v ===== *)
(** * The offchain rollup anchor and the oracle (pallets/offchain-rollup/src)

    A phat contract claims a name and submits rollup transactions for it: checks
    on a key-value store, updates of it and actions, all or nothing. The store
    also holds a queue of messages to the contract, under keys with a prefix.
    [OnResponse] is the trait other pallets implement to receive replies; the
    oracle does. SCALE encoding and the runtime's constants are
    [AnchorConfig]. *)

From S2P Require Import Prelude MqTypes Storage.

(** types.rs *)
Abbreviation KeyBytes := bytes (only parsing).
Abbreviation ValueBytes := bytes (only parsing).
Abbreviation ActionBytes := bytes (only parsing).
Definition MAX_KEY : nat := 128.
Definition MAX_VALUE : nat := 2048.

Inductive Cond := CondEq (key : KeyBytes) (value : option ValueBytes).
Inductive Action := Reply (data : ActionBytes) | SetQueueHead (head : Z).
Record RollupTx := mkRollup {
  tx_conds : list Cond;
  tx_actions : list ActionBytes;
  tx_updates : list (KeyBytes * option ValueBytes);
}.

Record ResponseRecord := mkResponse {
  rr_owner : Account;
  rr_contract_id : H256;
  rr_pair : bytes;
  rr_price : Z;
  rr_timestamp_ms : Z;
}.

Class AnchorConfig := {
  QueuePrefix : bytes;
  QueueCapacity : Z;
  encode_u32 : Z -> bytes;
  decode_u32 : bytes -> option Z;
  decode_action : bytes -> option Action;
  decode_response : bytes -> option ResponseRecord;
}.

Class OnResponse (X : Type) := on_response : H256 -> Account -> bytes -> H X unit.

Definition HEAD : bytes := Eval vm_compute in bs "_head".
Definition TAIL : bytes := Eval vm_compute in bs "_tail".

Section anchor.
Context {X : Type} `{AC : !AnchorConfig}.

Definition anchor_event (e : AnchorEvent) : H X unit := deposit_event (EvAnchor e).
Definition mod_states (f : gmap (H256 * bytes) bytes -> gmap (H256 * bytes) bytes) : H X unit :=
  modify (upd_anchor (fun a => put_anchor_states (f (anchor_states a)) a)).
Definition state_at (name : H256) (key : KeyBytes) (s : Storage X) : option ValueBytes :=
  anchor_states (anchor s) !! (name, key).

(** ** The queue; an index is given by its encoding. *)

Definition queue_key (index : bytes) : H X KeyBytes :=
  let key := QueuePrefix ++ index in
  if (length key <=? MAX_KEY)%nat then mret key else panic.

Definition queue_set (name : H256) (index : bytes) (data : ValueBytes) : H X unit :=
  key ← queue_key index;
  mod_states (<[ (name, key) := data ]>).

Definition queue_get (name : H256) (index : bytes) : H X (option ValueBytes) :=
  key ← queue_key index;
  gets (state_at name key).

Definition queue_remove (name : H256) (index : bytes) : H X unit :=
  key ← queue_key index;
  mod_states (delete (name, key)).

(** [queue_get_u32(..).expect(..)] *)
Definition queue_get_u32 (name : H256) (index : bytes) : H X Z :=
  b ← queue_get name index;
  match b with
  | None => mret 0
  | Some b => expect (decode_u32 b)
  end.

Definition queue_set_u32 (name : H256) (index : bytes) (value : Z) : H X unit :=
  let value := encode_u32 value in
  if (length value <=? MAX_VALUE)%nat then queue_set name index value else panic.

Definition queue_head (name : H256) : H X Z := queue_get_u32 name HEAD.
Definition queue_tail (name : H256) : H X Z := queue_get_u32 name TAIL.

Definition queue_len (name : H256) : H X Z :=
  tail ← queue_tail name;
  head ← queue_head name;
  mret (Z.max 0 (tail - head)).

Definition queue_tail_set (name : H256) (index : Z) : H X unit := queue_set_u32 name TAIL index.

Definition queue_head_set (name : H256) (index : Z) : H X unit :=
  head ← queue_head name;
  tail ← queue_tail name;
  ensure ((head <=? index) && (index <=? tail)) (AnErr InvalidQueueHead);;
  for_each (seqZ head (index - head)) (fun i => queue_remove name (encode_u32 i));;
  queue_set_u32 name HEAD index.

(** [push_message] *)
Definition anchor_push_message (name : H256) (data : ValueBytes) : H X Z :=
  a ← gets anchor;
  ensure (bool_decide (is_Some (submitter_by_names a !! name))) (AnErr NameNotExist);;
  len ← queue_len name;
  ensure (len <? QueueCapacity) (AnErr QueueIsFull);;
  end_ ← queue_tail name;
  queue_set name (encode_u32 end_) data;;
  queue_tail_set name (end_ +[32] 1);;
  mret end_.

(** ** Calls *)

Definition claim_name (origin : Origin) (name : H256) : H X unit :=
  transactional (
    who ← ensure_signed origin;
    a ← gets anchor;
    ensure (bool_decide (submitter_by_names a !! name = None)) (AnErr NameAlreadyClaimed);;
    modify (upd_anchor (fun a => put_submitter_by_names (<[ name := who ]> (submitter_by_names a)) a));;
    anchor_event (NameClaimed who name)).

Definition ensure_name_owner (name : H256) (caller : Account) : H X unit :=
  a ← gets anchor;
  owner ← ok_or (submitter_by_names a !! name) (AnErr NameNotExist);
  ensure (owner =? caller) (AnErr NotOwner).

Definition check_cond (name : H256) (c : Cond) : H X unit :=
  let 'CondEq key value := c in
  v ← gets (state_at name key);
  ensure (bool_decide (v = value)) (AnErr CondNotMet).

Definition apply_update (name : H256) (u : KeyBytes * option ValueBytes) : H X unit :=
  match u.2 with
  | Some v => mod_states (<[ (name, u.1) := v ]>)
  | None => mod_states (delete (name, u.1))
  end.

Definition exec_action `{OR : !OnResponse X} (name : H256) (who : Account) (raw_act : ActionBytes) : H X unit :=
  act ← ok_or (decode_action raw_act) (AnErr FailedToDecodeAction);
  match act with
  | Reply data => on_response name who data
  | SetQueueHead head => queue_head_set name head
  end.

Definition rollup `{OR : !OnResponse X} (origin : Origin) (name : H256) (tx : RollupTx) (nonce : Z) : H X unit :=
  transactional (
    who ← ensure_signed origin;
    ensure_name_owner name who;;
    for_each (tx_conds tx) (check_cond name);;
    for_each (tx_updates tx) (apply_update name);;
    for_each (tx_actions tx) (exec_action name who);;
    anchor_event (RollupExecuted who name nonce)).

(** ** oracle.rs *)

Definition oracle_request (origin : Origin) (name : H256) (data : bytes) (nonce : Z) : H X unit :=
  transactional (_ ← ensure_signed origin; mret tt).

Definition oracle_on_response (name : H256) (submitter : Account) (data : bytes) : H X unit :=
  resp ← ok_or (decode_response data) (OrErr FailedToDecodeResponse);
  if negb (rr_contract_id resp =? name) then fail (OrErr FailedToAuthenticateResponse)
  else
    modify (upd_anchor (fun a => put_price_feeds
      (<[ (rr_owner resp, rr_pair resp) := mkQuote (rr_contract_id resp) (rr_price resp) (rr_timestamp_ms resp) ]>
         (price_feeds a)) a));;
    anchor_event (QuoteReceived name submitter (rr_owner resp) (rr_pair resp) (rr_price resp)).
End anchor.

(** The trait for [()], and for the oracle, which the runtime uses *)
Definition unit_on_response X : OnResponse X := fun _ _ _ => mret tt.
Definition oracle X `{AC : !AnchorConfig} : OnResponse X := oracle_on_response.
