(* ===== verification/AnchorQueue.v ===== *)
(** * The queue of the anchor is a queue

    [QueueView]: what the keys of a name hold, for a head and the list of all
    messages ever pushed. Pushing appends, an accepted rollup only moves the
    head forward, as long as its updates stay off the keys of the queue. *)

From S2P Require Import Prelude MqTypes Storage Anchor.

(** SCALE: a [u32] takes four bytes and decodes to itself. The keys fit. *)
Class AnchorLaws `{AC : !AnchorConfig} : Prop := {
  encode_u32_length : forall n, u32 n -> length (encode_u32 n) = 4%nat;
  decode_encode_u32 : forall n, u32 n -> decode_u32 (encode_u32 n) = Some n;
  action_u32 : forall b n, decode_action b = Some (SetQueueHead n) -> u32 n;
  prefix_short : (length QueuePrefix + 5 <= MAX_KEY)%nat;
}.

(** What the anchor asks of the pallet behind [OnResponse]: it leaves the
    anchor's storage alone. *)
Definition store_same {X} (s s' : Storage X) : Prop :=
  anchor_states (anchor s') = anchor_states (anchor s) /\ submitter_by_names (anchor s') = submitter_by_names (anchor s).
#[export] Instance store_same_preorder {X} : PreOrder (@store_same X).
Proof. split; [done|]. intros s1 s2 s3 [A1 A2] [B1 B2]. split; congruence. Qed.
Class OnResponseFrame (X : Type) `{OR : !OnResponse X} : Prop :=
  response_frame : forall name who data, moves store_same (on_response name who data).

#[export] Instance oracle_frame X `{AC : !AnchorConfig} : OnResponseFrame X (OR := oracle X).
Proof. intros name who data. cbn. unfold on_response, oracle, oracle_on_response. moves; by intros s. Qed.

Section queue.
Context {X : Type} `{AC : !AnchorConfig} `{AL : !AnchorLaws}.
Implicit Types (s : Storage X) (name : H256).

Definition qkey (index : bytes) : bytes := QueuePrefix ++ index.
Definition is_queue_key (key : bytes) : Prop :=
  key = qkey HEAD \/ key = qkey TAIL \/ exists n, u32 n /\ key = qkey (encode_u32 n).

Lemma qkey_inj i j : qkey i = qkey j -> i = j.
Proof. apply app_inv_head. Qed.
Lemma encode_u32_inj n m : u32 n -> u32 m -> encode_u32 n = encode_u32 m -> n = m.
Proof. intros Hn Hm E. apply (f_equal decode_u32) in E. rewrite !decode_encode_u32 in E by done. congruence. Qed.
Lemma entry_not_end n i : u32 n -> length i = 5%nat -> qkey (encode_u32 n) <> qkey i.
Proof. intros Hn Hi E%qkey_inj. apply (f_equal length) in E. rewrite encode_u32_length in E by done. lia. Qed.

Lemma queue_key_run index s : (length index <= 5)%nat -> queue_key index s = Ok (qkey index) s.
Proof.
  intros Hl. unfold queue_key. pose proof prefix_short. rewrite (proj2 (Nat.leb_le _ _)); [done|].
  rewrite length_app. lia.
Qed.

(** ** The view *)

Definition read_u32 (b : option bytes) : option Z :=
  match b with None => Some 0 | Some b => decode_u32 b end.

Record queue_view (name : H256) (h : Z) (l : list bytes) s : Prop := {
  qv_head : read_u32 (state_at name (qkey HEAD) s) = Some h;
  qv_tail : read_u32 (state_at name (qkey TAIL) s) = Some (Z.of_nat (length l));
  qv_range : 0 <= h <= Z.of_nat (length l) /\ Z.of_nat (length l) < 2 ^ 32;
  qv_entries : forall n, u32 n -> state_at name (qkey (encode_u32 n)) s = if h <=? n then l !! Z.to_nat n else None;
}.

Lemma queue_get_u32_run name index z s : length index = 5%nat -> read_u32 (state_at name (qkey index) s) = Some z ->
  queue_get_u32 name index s = Ok z s.
Proof.
  intros Hl Hr. unfold queue_get_u32, queue_get, mbind, M_bind. rewrite queue_key_run by lia.
  unfold gets, read_u32 in *. destruct (state_at name (qkey index) s); [by rewrite Hr|]. by injection Hr as <-.
Qed.
Lemma queue_head_run name h l s : queue_view name h l s -> queue_head name s = Ok h s.
Proof. intros [H _ _ _]. by apply queue_get_u32_run. Qed.
Lemma queue_tail_run name h l s : queue_view name h l s -> queue_tail name s = Ok (Z.of_nat (length l)) s.
Proof. intros [_ H _ _]. by apply queue_get_u32_run. Qed.

(** Only the keys of the queue matter. *)
Lemma queue_view_ext name h l s s' : queue_view name h l s ->
  (forall key, is_queue_key key -> state_at name key s' = state_at name key s) -> queue_view name h l s'.
Proof.
  intros [H1 H2 H3 H4] E. split; [rewrite E; [done|by left]|rewrite E; [done|by right; left]|done|].
  intros n Hn. rewrite E; [by apply H4|]. right; right. by exists n.
Qed.

(** Writing *)
Lemma state_at_insert name key v name' key' s :
  state_at name' key' (upd_anchor (fun a => put_anchor_states (<[ (name, key) := v ]> (anchor_states a)) a) s) =
  if decide ((name, key) = (name', key')) then Some v else state_at name' key' s.
Proof. unfold state_at. cbn. apply lookup_insert. Qed.
Lemma state_at_delete name key name' key' s :
  state_at name' key' (upd_anchor (fun a => put_anchor_states (delete (name, key) (anchor_states a)) a) s) =
  if decide ((name, key) = (name', key')) then None else state_at name' key' s.
Proof. unfold state_at. cbn. apply lookup_delete. Qed.

Definition write name key v s : Storage X :=
  upd_anchor (fun a => put_anchor_states (<[ (name, key) := v ]> (anchor_states a)) a) s.
Lemma queue_set_run name index v s : (length index <= 5)%nat -> queue_set name index v s = Ok tt (write name (qkey index) v s).
Proof. intros Hl. unfold queue_set, mbind, M_bind. by rewrite queue_key_run by lia. Qed.
Lemma queue_set_u32_run name index n s : (length index <= 5)%nat -> u32 n ->
  queue_set_u32 name index n s = Ok tt (write name (qkey index) (encode_u32 n) s).
Proof.
  intros Hl Hn. unfold queue_set_u32. rewrite encode_u32_length by done. by apply queue_set_run.
Qed.

Lemma queue_remove_run name index s : (length index <= 5)%nat -> queue_remove name index s =
  Ok tt (upd_anchor (fun a => put_anchor_states (delete (name, qkey index) (anchor_states a)) a) s).
Proof. intros Hl. unfold queue_remove, mbind, M_bind. by rewrite queue_key_run by lia. Qed.

(** Removing [k] entries from [a] on *)
Record cleared name (a : Z) (k : nat) s s' : Prop := {
  cl_names : submitter_by_names (anchor s') = submitter_by_names (anchor s);
  cl_gone : forall n, a <= n < a + Z.of_nat k -> state_at name (qkey (encode_u32 n)) s' = None;
  cl_other : forall name' key, (name' <> name \/ forall n, a <= n < a + Z.of_nat k -> key <> qkey (encode_u32 n)) ->
    state_at name' key s' = state_at name' key s;
}.

Lemma remove_range name k : forall a s, 0 <= a -> a + Z.of_nat k < 2 ^ 32 ->
  exists s', for_each (seqZ a (Z.of_nat k)) (fun i => queue_remove name (encode_u32 i)) s = Ok tt s' /\ cleared name a k s s'.
Proof.
  induction k as [|k IH]; intros a s Ha Hlt; [exists s; split; [done|split; [done|lia|done]]|].
  assert (u32 a) as Hu by (unfold in_width; lia).
  rewrite seqZ_cons by lia. cbn [for_each]. replace (Z.pred (Z.of_nat (S k))) with (Z.of_nat k) by lia.
  unfold mbind, M_bind. rewrite queue_remove_run by (rewrite encode_u32_length by done; lia).
  edestruct (IH (Z.succ a)) as (s' & -> & [C1 C2 C3]); [lia..|]. exists s'. split; [done|]. split.
  - by rewrite C1.
  - intros n Hn. destruct (decide (n = a)) as [->|Hne]; [|apply C2; lia]. rewrite C3, state_at_delete.
    + by rewrite decide_True.
    + right. intros n Hn' E%qkey_inj. apply encode_u32_inj in E; [lia|done|unfold in_width; lia].
  - intros name' key Hk. rewrite C3, state_at_delete.
    + rewrite decide_False; [done|]. intros [= <- E]. destruct Hk as [|Hk]; [done|]. by apply (Hk a); [lia|].
    + destruct Hk as [|Hk]; [by left|right]. intros n Hn. apply Hk. lia.
Qed.

(** ** Moving the head *)

Lemma read_u32_write name key n s : u32 n -> read_u32 (state_at name key (write name key (encode_u32 n) s)) = Some n.
Proof. intros Hn. unfold write. rewrite state_at_insert, decide_True by done. by apply decode_encode_u32. Qed.
Lemma write_other name key v name' key' s : name' <> name \/ key' <> key ->
  state_at name' key' (write name key v s) = state_at name' key' s.
Proof. intros Hne. unfold write. rewrite state_at_insert, decide_False; [done|]. intros [= -> ->]. by destruct Hne. Qed.

Lemma ends_differ : qkey HEAD <> qkey TAIL.
Proof. by intros E%qkey_inj. Qed.

Lemma head_set_run name i h l s : queue_view name h l s -> u32 i ->
  if (h <=? i) && (i <=? Z.of_nat (length l)) then
    exists s', queue_head_set name i s = Ok tt s' /\ submitter_by_names (anchor s') = submitter_by_names (anchor s) /\
      queue_view name i l s' /\
      (forall name' key, name' <> name -> state_at name' key s' = state_at name' key s) /\
      forall key, ~ is_queue_key key -> state_at name key s' = state_at name key s
  else queue_head_set name i s = Err (AnErr InvalidQueueHead) s.
Proof.
  intros Hv Hi. unfold queue_head_set, mbind, M_bind. rewrite (queue_head_run _ _ _ _ Hv), (queue_tail_run _ _ _ _ Hv).
  destruct ((h <=? i) && (i <=? Z.of_nat (length l))) eqn:E; [|done]. b2p. cbn [ensure mret M_ret].
  destruct Hv as [V1 V2 V3 V4].
  destruct (remove_range name (Z.to_nat (i - h)) h s) as (s1 & Hrm & [C1 C2 C3]); [lia..|].
  rewrite Z2Nat.id in Hrm, C2, C3 by lia. unfold ensure, mret, M_ret. rewrite Hrm, queue_set_u32_run by (done || cbn; lia).
  assert (forall n, h <= n < h + (i - h) -> u32 n) as Hu by (unfold in_width; lia).
  eexists. split; [done|]. split; [exact C1|]. split; [split|split].
  - by apply read_u32_write.
  - rewrite write_other by (right; apply not_eq_sym, ends_differ). rewrite C3; [done|]. right. intros n Hn E'.
    by apply (entry_not_end n TAIL (Hu n Hn)).
  - lia.
  - intros n Hn. rewrite write_other by (right; by apply entry_not_end). destruct (i <=? n) eqn:Ei; b2p.
    + rewrite C3; [rewrite V4, (proj2 (Z.leb_le h n)) by (done || lia); done|]. right. intros m Hm E'%qkey_inj.
      apply encode_u32_inj in E'; [lia|done|by apply Hu].
    + destruct (decide (h <= n)); [apply C2; lia|]. rewrite C3, V4, (proj2 (Z.leb_gt h n)) by (done || lia || (right; intros m Hm E'%qkey_inj;
        apply encode_u32_inj in E'; [lia|done|by apply Hu])). done.
  - intros name' key Hne. rewrite write_other by (by left). apply C3. by left.
  - intros key Hk. rewrite write_other by (right; intros ->; apply Hk; by left). apply C3. right. intros n Hn ->. apply Hk.
    right; right. exists n. split; [by apply Hu|done].
Qed.

(** ** Pushing *)

Lemma anchor_push_run name data h l s : queue_view name h l s -> is_Some (submitter_by_names (anchor s) !! name) ->
  Z.of_nat (length l) < 2 ^ 32 - 1 ->
  if Z.of_nat (length l) - h <? QueueCapacity then
    exists s', anchor_push_message name data s = Ok (Z.of_nat (length l)) s' /\
      queue_view name h (l ++ [data]) s' /\ submitter_by_names (anchor s') = submitter_by_names (anchor s) /\
      forall name' key, name' <> name -> state_at name' key s' = state_at name' key s
  else anchor_push_message name data s = Err (AnErr QueueIsFull) s.
Proof.
  intros Hv Hn Hlt. unfold anchor_push_message, queue_len, queue_tail_set, mbind, M_bind, gets, mret, M_ret.
  rewrite bool_decide_true by done. cbn [ensure]. unfold mret, M_ret.
  rewrite (queue_tail_run _ _ _ _ Hv), (queue_head_run _ _ _ _ Hv).
  destruct Hv as [V1 V2 V3 V4]. rewrite Z.max_r by lia.
  destruct (Z.of_nat (length l) - h <? QueueCapacity); cbn [ensure fail]; [|done]. unfold mret, M_ret.
  assert (u32 (Z.of_nat (length l))) as Hu by (unfold in_width; lia).
  assert (u32 (Z.of_nat (length l) + 1)) as Hu1 by (unfold in_width; lia).
  rewrite queue_tail_run with (h := h) (l := l) by (by split).
  rewrite queue_set_run by (rewrite encode_u32_length by done; lia). rewrite wrap_add_small by (unfold in_width in *; lia).
  rewrite queue_set_u32_run by (done || cbn; lia). eexists. split; [done|].
  assert (forall i, length i = 5%nat -> state_at name (qkey i) (write name (qkey (encode_u32 (Z.of_nat (length l)))) data s) =
    state_at name (qkey i) s) as Hends by (intros i Hi; rewrite write_other; [done|]; right; by apply not_eq_sym, entry_not_end).
  split; [split|split].
  - rewrite write_other by (right; apply ends_differ). by rewrite Hends.
  - rewrite read_u32_write by done. rewrite length_app. cbn. f_equal. lia.
  - rewrite length_app. cbn. lia.
  - intros n Hn'. rewrite write_other by (right; by apply entry_not_end).
    destruct (decide (n = Z.of_nat (length l))) as [->|Hne].
    + unfold write. rewrite state_at_insert, decide_True by done. rewrite (proj2 (Z.leb_le _ _)) by lia.
      rewrite Nat2Z.id. symmetry. by apply list_lookup_middle.
    + rewrite write_other, V4 by (done || (right; intros E%qkey_inj; by apply encode_u32_inj in E)).
      destruct (h <=? n); [|done]. unfold in_width in *. destruct (decide (Z.to_nat n < length l)%nat).
      * by rewrite lookup_app_l.
      * rewrite !lookup_ge_None_2; [done|rewrite length_app; cbn; lia|lia].
  - done.
  - intros name' key Hne. rewrite !write_other by (by left). done.
Qed.

(** ** Rollups *)

(** The heads only move forward. *)
Definition queue_adv s s' : Prop := forall name h l, queue_view name h l s -> exists h', h <= h' /\ queue_view name h' l s'.
#[local] Instance queue_adv_preorder : PreOrder queue_adv.
Proof.
  split; [intros s name h l Hv; exists h; by split|]. intros s1 s2 s3 H1 H2 name h l Hv.
  destruct (H1 _ _ _ Hv) as (h1 & Hle & Hv1). destruct (H2 _ _ _ Hv1) as (h2 & Hle' & Hv2). exists h2. split; [lia|done].
Qed.

Lemma queue_adv_same s s' : (forall name key, is_queue_key key -> state_at name key s' = state_at name key s) -> queue_adv s s'.
Proof. intros E name h l Hv. exists h. split; [lia|]. eapply queue_view_ext; [done|]. intros. by apply E. Qed.

Lemma store_same_adv s s' : store_same s s' -> queue_adv s s'.
Proof. intros [E _]. apply queue_adv_same. intros name key _. unfold state_at. by rewrite E. Qed.

Definition off_queue (tx : RollupTx) : Prop := Forall (fun u => ~ is_queue_key u.1) (tx_updates tx).

Lemma update_adv name u : ~ is_queue_key u.1 -> ok_moves queue_adv (apply_update (X := X) name u).
Proof.
  intros Hu s a s' H. apply queue_adv_same. intros name' key Hk. destruct u as [key' [v|]]; cbn in H; injection H as _ <-.
  - rewrite state_at_insert, decide_False; [done|]. intros [= -> ->]. done.
  - rewrite state_at_delete, decide_False; [done|]. intros [= -> ->]. done.
Qed.

(** The queue operations of a name leave the other names alone. *)
Definition only name s s' : Prop := submitter_by_names (anchor s') = submitter_by_names (anchor s) /\
  forall name' key, name' <> name -> state_at name' key s' = state_at name' key s.
#[local] Instance only_preorder name : PreOrder (only name).
Proof.
  split; [done|]. intros s1 s2 s3 [A1 A2] [B1 B2]. split; [congruence|]. intros name' key Hne. by rewrite B2, A2.
Qed.

Lemma only_key name index : moves (only name) (queue_key (X := X) index).
Proof. unfold queue_key. moves. Qed.
#[local] Hint Resolve only_key : moves.
Lemma only_set name index v : moves (only name) (queue_set (X := X) name index v).
Proof.
  unfold queue_set. moves. intros s. split; [done|]. intros name' key Hne. rewrite state_at_insert, decide_False; [done|congruence].
Qed.
Lemma only_remove name index : moves (only name) (queue_remove (X := X) name index).
Proof.
  unfold queue_remove. moves. intros s. split; [done|]. intros name' key Hne. rewrite state_at_delete, decide_False; [done|congruence].
Qed.
#[local] Hint Resolve only_set only_remove : moves.
Lemma only_head_set name i : moves (only name) (queue_head_set (X := X) name i).
Proof.
  unfold queue_head_set, queue_head, queue_tail, queue_get_u32, queue_get, queue_set_u32. moves.
Qed.

Lemma only_push name data : moves (only name) (anchor_push_message (X := X) name data).
Proof.
  unfold anchor_push_message, queue_len, queue_head, queue_tail, queue_get_u32, queue_get, queue_tail_set, queue_set_u32. moves.
Qed.

Lemma head_set_adv name i : u32 i -> ok_moves queue_adv (queue_head_set (X := X) name i).
Proof.
  intros Hi s a s' H name' h l Hv. destruct (decide (name' = name)) as [->|Hne].
  - pose proof (head_set_run name i h l s Hv Hi) as Hr. destruct ((h <=? i) && _) eqn:E; [|congruence]. b2p.
    destruct Hr as (s1 & H1 & _ & Hv1 & _). rewrite H1 in H. injection H as _ <-. exists i. by split; [lia|].
  - exists h. split; [lia|]. eapply queue_view_ext; [exact Hv|]. intros key _.
    by apply (moves_ok _ _ (only_head_set name i)) in H as [_ H]; apply H.
Qed.

Context `{OR : !OnResponse X} `{OF : !OnResponseFrame X}.

Lemma action_adv name who b : ok_moves queue_adv (exec_action (X := X) name who b).
Proof.
  intros s u s' H. unfold exec_action in H. apply bind_Ok in H as (act & s1 & E & H).
  destruct (decode_action b) as [a|] eqn:Ea; [|done]. injection E as <- <-. destruct a as [data|head].
  - by apply (moves_ok _ _ (response_frame name who data)), store_same_adv in H.
  - eapply head_set_adv; [by eapply action_u32|exact H].
Qed.

Lemma rollup_adv o name tx nonce : off_queue tx -> ok_moves queue_adv (rollup (X := X) o name tx nonce).
Proof.
  intros Hoff. unfold rollup. apply ok_moves_transactional. destruct o as [|who|]; [by intros s u s' H| |by intros s u s' H].
  apply ok_moves_bind; [apply _|by intros s u s' [= <- <-]|]. intros w. clear who. apply ok_moves_bind; [apply _| |intros _].
  { unfold ensure_name_owner. ok_moves. }
  apply ok_moves_bind; [apply _| |intros _].
  { apply ok_moves_for_each; [apply _|]. intros [k v]. unfold check_cond. ok_moves. }
  apply ok_moves_bind; [apply _| |intros _].
  { unfold off_queue in Hoff. induction (tx_updates tx) as [|x l IH]; cbn; [by intros s u s' [= <- <-]|].
    apply Forall_cons in Hoff as [Hx Hl]. apply ok_moves_bind; [apply _|by apply update_adv|]. intros _. by apply IH. }
  apply ok_moves_bind; [apply _| |intros _].
  { apply ok_moves_for_each; [apply _|]. intros b. apply action_adv. }
  intros s u s' [= <- <-]. by apply store_same_adv.
Qed.

(** ** Histories

    [log] remembers everything pushed. *)

Inductive anchor_step : Storage X * gmap H256 (list bytes) -> Storage X * gmap H256 (list bytes) -> Prop :=
  | ast_claim o name s log s' : claim_name o name s = Ok tt s' -> anchor_step (s, log) (s', log)
  | ast_rollup o name tx nonce s log s' : off_queue tx -> rollup o name tx nonce s = Ok tt s' -> anchor_step (s, log) (s', log)
  | ast_push name data s log i s' : let l := default [] (log !! name) in
      Z.of_nat (length l) < 2 ^ 32 - 1 -> anchor_push_message name data s = Ok i s' ->
      anchor_step (s, log) (s', <[ name := l ++ [data] ]> log)
  | ast_other s log s' : store_same s s' -> anchor_step (s, log) (s', log).

Definition log_of (w : Storage X * gmap H256 (list bytes)) name : list bytes := default [] (w.2 !! name).

Definition advances (w w' : Storage X * gmap H256 (list bytes)) : Prop := forall name h,
  queue_view name h (log_of w name) w.1 -> exists h', h <= h' /\ queue_view name h' (log_of w' name) w'.1 /\
    log_of w name `prefix_of` log_of w' name.
#[local] Instance advances_preorder : PreOrder advances.
Proof.
  split; [intros w name h Hv; by exists h|]. intros w1 w2 w3 H1 H2 name h Hv.
  destruct (H1 _ _ Hv) as (h1 & Hle & Hv1 & Hp). destruct (H2 _ _ Hv1) as (h2 & Hle' & Hv2 & Hp').
  exists h2. split; [lia|]. split; [done|]. by etrans.
Qed.

Lemma push_advances name data s log i s' : Z.of_nat (length (log_of (s, log) name)) < 2 ^ 32 - 1 ->
  anchor_push_message name data s = Ok i s' -> advances (s, log) (s', <[ name := log_of (s, log) name ++ [data] ]> log).
Proof.
  intros Hlt H name' h Hv. cbn in *. unfold log_of in *. cbn in *. rewrite lookup_insert. case_decide as Hd; cbn.
  - subst name'. assert (is_Some (submitter_by_names (anchor s) !! name)) as Hn.
    { unfold anchor_push_message in H. apply bind_Ok in H as (? & ? & [= <- <-] & H).
      destruct (bool_decide (is_Some _)) eqn:E in H; [by apply bool_decide_eq_true in E|done]. }
    pose proof (anchor_push_run name data h _ s Hv Hn Hlt) as Hr. destruct (_ <? QueueCapacity); [|congruence].
    destruct Hr as (s1 & H1 & Hv1 & _). rewrite H1 in H. injection H as _ <-. exists h. split; [lia|]. split; [done|].
    by eexists.
  - exists h. split; [lia|]. split; [|done]. eapply queue_view_ext; [exact Hv|]. intros key _.
    apply (moves_ok _ _ (only_push name data)) in H as [_ H]. by apply H.
Qed.

Lemma anchor_step_advances w w' : anchor_step w w' -> advances w w'.
Proof.
  assert (forall s s' log, queue_adv s s' -> advances (s, log) (s', log)) as Hadv.
  { intros s s' log H name h Hv. destruct (H name h _ Hv) as (h' & Hle & Hv'). by exists h'. }
  destruct 1 as [o name s log s' H|o name tx nonce s log s' Hoff H|name data s log i s' l Hlt H|s log s' H].
  - apply Hadv, queue_adv_same. unfold claim_name, anchor_event, deposit_event, ensure_signed in H. by mrun.
  - apply Hadv. by eapply rollup_adv.
  - by apply (push_advances name data s log i).
  - by apply Hadv, store_same_adv.
Qed.

(** C18: on every history of claims, pushes and rollups whose updates stay off
    the keys of the queue: the queue of a name holds, under consecutive ids, the
    messages pushed and not yet acknowledged, from the head to one before the
    tail; messages keep their ids, heads only move forward, nothing acknowledged
    comes back, and a push to a claimed name, while fewer than 2^32 - 1 messages
    were pushed to it, is refused exactly when the queue is full and never
    panics. (A push to a name nobody claimed is refused.) *)
Theorem anchor_queue_fifo s0 w w' : (forall name key, is_queue_key key -> state_at name key s0 = None) ->
  rtc anchor_step (s0, ∅) w -> rtc anchor_step w w' -> forall name, exists h h', h <= h' /\
    queue_view name h (log_of w name) w.1 /\ queue_view name h' (log_of w' name) w'.1 /\
    log_of w name `prefix_of` log_of w' name /\
    forall data, is_Some (submitter_by_names (anchor w'.1) !! name) -> Z.of_nat (length (log_of w' name)) < 2 ^ 32 - 1 ->
      if Z.of_nat (length (log_of w' name)) - h' <? QueueCapacity then
        exists s', anchor_push_message name data w'.1 = Ok (Z.of_nat (length (log_of w' name))) s' /\
          queue_view name h' (log_of w' name ++ [data]) s'
      else anchor_push_message name data w'.1 = Err (AnErr QueueIsFull) w'.1.
Proof.
  intros H0 H1 H2 name. assert (forall w1 w2, rtc anchor_step w1 w2 -> advances w1 w2) as Hadv.
  { intros w1 w2 Hr. induction Hr as [|w1 w2 w3 Hs _ IH]; [done|]. etrans; [by apply anchor_step_advances|done]. }
  assert (queue_view name 0 (log_of (s0, ∅) name) s0) as Hv0.
  { unfold log_of. cbn. rewrite lookup_empty. cbn. split; cbn; [by rewrite H0 by (by left)|by rewrite H0 by (by right; left)|lia|].
    intros n Hn. rewrite H0; [by case_match|]. right; right. by exists n. }
  destruct (Hadv _ _ H1 name 0 Hv0) as (h & _ & Hv & _). destruct (Hadv _ _ H2 name h Hv) as (h' & Hle & Hv' & Hp).
  exists h, h'. split_and!; try done. intros data Hn Hlt. pose proof (anchor_push_run name data h' _ _ Hv' Hn Hlt) as Hr.
  destruct (_ <? QueueCapacity); [|done]. destruct Hr as (s' & ? & ? & _). by exists s'.
Qed.

(** ** Updates of the queue's own keys *)

Lemma queue_head_reads name s : match queue_head name s with Ok _ s' => s' = s | Err _ _ => False | Panic => True end.
Proof.
  unfold queue_head, queue_get_u32, queue_get, gets, mbind, M_bind. rewrite queue_key_run by (cbn; lia).
  destruct (state_at _ _ s); [|done]. by destruct (decode_u32 _).
Qed.
Lemma broken_tail name v s : state_at name (qkey TAIL) s = Some v -> decode_u32 v = None -> queue_tail name s = Panic.
Proof.
  intros Ht Hv. unfold queue_tail, queue_get_u32, queue_get, gets, mbind, M_bind. rewrite queue_key_run by (cbn; lia).
  by rewrite Ht, Hv.
Qed.
Lemma broken_head_set name i s : queue_tail name s = Panic -> queue_head_set name i s = Panic.
Proof.
  intros Ht. unfold queue_head_set, mbind, M_bind. pose proof (queue_head_reads name s) as Hh.
  destruct (queue_head name s) as [h s1|e s1|]; [|done..]. subst s1. by rewrite Ht.
Qed.

(** Nothing keeps a rollup from updating the keys of the queue: the owner of
    a name (anyone can claim one) can store bytes there that do not decode, and
    every later push to the name and every rollup that moves its head panics. *)
Theorem queue_keys_unprotected who name v s nonce :
  submitter_by_names (anchor s) !! name = Some who -> decode_u32 v = None ->
  exists s', rollup (Signed who) name (mkRollup [] [] [(qkey TAIL, Some v)]) nonce s = Ok tt s' /\
    (forall data, anchor_push_message name data s' = Panic) /\
    forall b i, decode_action b = Some (SetQueueHead i) -> forall nonce',
      rollup (Signed who) name (mkRollup [] [b] []) nonce' s' = Panic.
Proof.
  intros Hn Hv. eexists. split; [|split].
  - unfold rollup, transactional, ensure_name_owner, anchor_event, deposit_event, gets, modify, mbind, M_bind. cbn. rewrite Hn. cbn.
    rewrite Z.eqb_refl. done.
  - intros data. unfold anchor_push_message, queue_len, gets, mbind, M_bind. cbn.
    rewrite Hn, bool_decide_true by done. cbn. erewrite broken_tail; [done| |exact Hv].
    unfold state_at. cbn. apply lookup_insert_eq.
  - intros b i Hb nonce'. unfold rollup, transactional, ensure_name_owner, gets, mbind, M_bind. cbn. rewrite Hn. cbn.
    rewrite Z.eqb_refl. cbn. unfold exec_action, mbind, M_bind. rewrite Hb. cbn. rewrite broken_head_set; [done|].
    eapply broken_tail; [|exact Hv]. unfold state_at. cbn. apply lookup_insert_eq.
Qed.
End queue.
