(* ===== verification/Computation.v ===== *)
(** * The computation pallet (pallets/phala/src/compute/computation.rs)

    Computing sessions: binding a session account to a worker, starting and
    stopping, cool down and reclaim, heartbeats, the gatekeepers' settlements,
    the tokenomic parameters and the heartbeat challenge. What the pallet calls
    of its [Config] is in two classes: [CompConfig] (constants, origins,
    randomness, currency) and [CompHooks], the callbacks [OnReward],
    [OnUnbound] and [OnStopped] that the stake pool implements. *)

From S2P Require Import Prelude MqTypes Storage MqPallet PalletMsg FixedPoint Registry.

(** ** [impl WorkerState] *)

Definition can_unbind (st : WorkerState) : bool :=
  match st with Ready | WorkerCoolingDown => true | _ => false end.
Definition can_settle (st : WorkerState) : bool :=
  match st with WorkerIdle | WorkerUnresponsive => true | _ => false end.
Definition is_computing (st : WorkerState) : bool :=
  match st with WorkerIdle | WorkerUnresponsive => true | _ => false end.

(** ** [impl Benchmark] *)

(** [None] is [Err(())]. *)
Definition benchmark_update (now its challenge_time : Z) (b : Benchmark) : option Benchmark :=
  if now <=? challenge_time_last b then None
  else
    let b := if its <? iterations b then put_iterations its b else b in
    let delta_ts := now - challenge_time_last b in
    let delta_iter := its - iterations b in
    let b := put_iterations its (put_challenge_time_last challenge_time b) in
    let p := wrap 32 ((delta_iter *[64] 6) / delta_ts) in
    Some (put_p_instant (Z.min p ((p_init b *[32] 12) / 10)) b).

(** [SessionInfo::calc_final_stake] *)
Definition calc_final_stake (s : SessionInfo) (orig_stake : Balance) : Balance * Balance :=
  (orig_stake, 0).

(** ** [impl Tokenomic] and [pow_target] *)
Section tokenomic.
Context `{FC : !FixedCrate}.
Implicit Types t : TokenomicParameters.

Definition minimal_stake t (p : Z) : option Balance :=
  from_fixed (u64f64_mul (k_param t) (u64f64_sqrt (u64f64_of_u32 p))).

Definition confidence_score (level : Z) : FixedBits :=
  if (1 <=? level) && (level <=? 5) then
    nth (Z.to_nat (level - 1))
      [u64f64_of_u32 1; u64f64_of_u32 1; u64f64_of_u32 1; fp_0_8; fp_0_7] (u64f64_of_u32 1)
  else u64f64_of_u32 1.

Definition rig_cost t (p : Z) : FixedBits :=
  u64f64_add (u64f64_mul (rig_k t) (u64f64_of_u32 p)) (rig_b t).

Definition ve t (s : Balance) (p confidence_level : Z) : option FixedBits :=
  let f1 := u64f64_of_u32 1 in
  let score := confidence_score confidence_level in
  let tweaked_re := u64f64_add (u64f64_mul (u64f64_sub (re t) f1) score) f1 in
  s ← to_fixed s;
  Some (u64f64_mul tweaked_re (u64f64_add s (rig_cost t p))).

(** [None]: a division by zero, the [expect], or the overflow panic of [U256]'s [*]. *)
Definition pow_target (num_tx num_workers secs_per_block : Z) : option Z :=
  if num_workers =? 0 then Some 0
  else if secs_per_block =? 0 then None
  else
    let n := u32f32_of_u32 num_workers in
    let tx := u32f32_of_u32 num_tx in
    max_tx ← u32f32_div (u32f32_mul n (u32f32_of_u32 2)) (u32f32_of_u32 (3600 / secs_per_block));
    let target_tx := Z.min tx max_tx in
    q ← u32f32_div target_tx n;
    sh ← u32f32_checked_shl q 24;
    fits 256 (Z.shiftr (2 ^ 256 - 1) 24 * u32f32_to_u32 sh).
End tokenomic.

(** ** Configuration and callbacks *)

Class CompConfig (X : Type) := {
  ExpectedBlockTimeSec : Z;
  MinInitP : Z;
  CheckWorkerRegisterTime : bool;
  update_tokenomic_origin : Origin -> bool;
  set_budget_origin : Origin -> bool;
  set_contract_root_origin : Origin -> bool;
  (** [T::Randomness::random(..).0] as a 256-bit number *)
  random_seed : Storage X -> Z;
  (** [COMPUTING_PALLETID.into_account_truncating()] *)
  computing_account : Account;
  (** [Currency::withdraw], [Currency::transfer] and [OnTreasurySettled::on_unbalanced] *)
  Imbalance : Type;
  currency_withdraw : Account -> Balance -> H X Imbalance;
  currency_transfer : Account -> Account -> Balance -> H X unit;
  on_treasury_settled : Imbalance -> H X unit;
}.

Class CompHooks (X : Type) := {
  on_reward : list SettleInfo -> H X unit;
  on_unbound : WorkerPublicKey -> bool -> H X unit;
  on_stopped : WorkerPublicKey -> Balance -> Balance -> H X unit;
}.

Section computation.
Context {X : Type} `{QN : !QueueNotifyConfig X} `{CC : !ChainCodec} `{RC : !RegConfig}
  `{BE : !BlockEnv} `{FC : !FixedCrate} `{CF : !CompConfig X} `{HK : !CompHooks X}.

Definition comp_event (e : CompEvent) : H X unit := deposit_event (EvComp e).
Definition push_comp (e : SystemEvent) : H X unit := push_system computation_origin e.
Definition mod_comp (f : CompState -> CompState) : H X unit := modify (upd_comp f).
Definition comp_fail {A} (e : CompError) : H X A := fail (CompErr e).
Definition insert_session (a : Account) (si : SessionInfo) : H X unit :=
  mod_comp (fun c => put_sessions (<[ a := si ]> (sessions c)) c).

Definition ensure_worker_bound (w : WorkerPublicKey) : H X Account :=
  c ← gets comp; ok_or (worker_bindings c !! w) (CompErr WorkerNotBound).
Definition ensure_session_bound (a : Account) : H X WorkerPublicKey :=
  c ← gets comp; ok_or (session_bindings c !! a) (CompErr SessionNotBound).

Definition update_tokenomic_parameters (p : TokenomicParameters) : H X unit :=
  mod_comp (put_tokenomic_parameters (Some p));;
  push_gk_event computation_origin (TokenomicParametersChanged p);;
  comp_event EvTokenomicParametersChanged.

Definition withdraw_subsidy_pool (target : Account) (value : Balance) : H X unit :=
  currency_transfer computing_account target value.
Definition withdraw_imbalance_from_subsidy_pool (value : Balance) : H X Imbalance :=
  currency_withdraw computing_account value.

Definition tokenomic : H X TokenomicParameters :=
  c ← gets comp;
  ok_or (tokenomic_parameters c) (CompErr InternalErrorBadTokenomicParameters).

(** ** Session life cycle *)

Definition stop_computing (session : Account) : H X unit :=
  c ← gets comp;
  worker ← ok_or (session_bindings c !! session) (CompErr SessionNotBound);
  si ← ok_or (sessions c !! session) (CompErr SessionNotFound);
  ensure (negb (bool_decide (s_state si = Ready))
          && negb (bool_decide (s_state si = WorkerCoolingDown))) (CompErr WorkerNotComputing);;
  let si := put_s_cool_down_start now_sec (put_s_state WorkerCoolingDown si) in
  insert_session session si;;
  mod_comp (fun c => put_online_workers (online_workers c -[32] 1) c);;
  let orig_stake := default 0 (stakes c !! session) in
  let '(_, slashed) := calc_final_stake si orig_stake in
  on_stopped worker orig_stake slashed;;
  push_comp (new_worker_event worker Stopped);;
  comp_event (WorkerStopped session).

Definition start_computing (session : Account) (stake : Balance) : H X unit :=
  c ← gets comp;
  worker ← ok_or (session_bindings c !! session) (CompErr SessionNotFound);
  si ← expect (sessions c !! session);
  ensure (bool_decide (s_state si = Ready)) (CompErr WorkerNotReady);;
  ensure (bool_decide (stakes c !! session = None))
    (CompErr InternalErrorCannotStartWithExistingStake);;
  r ← gets reg;
  wi ← expect (workers r !! worker);
  p ← ok_or (w_initial_score wi) (CompErr BenchmarkMissing);
  ensure (MinInitP <=? p) (CompErr BenchmarkTooLow);;
  t ← tokenomic;
  min_stake ← expect (minimal_stake t p);
  ensure (min_stake <=? stake) (CompErr InsufficientStake);;
  v ← expect (ve t stake p (w_confidence_level wi));
  ensure (v <=? v_max t) (CompErr TooMuchStake);;
  mod_comp (fun c => put_stakes (<[ session := stake ]> (stakes c)) c);;
  mod_comp (fun c => put_sessions (alter (fun info =>
      put_s_benchmark (put_p_init p (s_benchmark info))
        (put_s_v_updated_at now_sec (put_s_v v (put_s_ve v (put_s_state WorkerIdle info)))))
    session (sessions c)) c);;
  mod_comp (fun c => put_online_workers (online_workers c +[32] 1) c);;
  let session_id := next_session_id c in
  mod_comp (put_next_session_id (session_id +[32] 1));;
  push_comp (new_worker_event worker (Started session_id v p));;
  comp_event (WorkerStarted session v p).

Definition can_reclaim (c : CompState) (si : SessionInfo) (check_cooldown : bool) : bool :=
  if negb (bool_decide (s_state si = WorkerCoolingDown)) then false
  else if negb check_cooldown then true
  else cool_down_period c <=? (now_sec -[64] s_cool_down_start si).

Definition reclaim (session : Account) (check_cooldown : bool) : H X (Balance * Balance) :=
  c ← gets comp;
  si ← ok_or (sessions c !! session) (CompErr SessionNotFound);
  ensure (can_reclaim c si check_cooldown) (CompErr CoolDownNotReady);;
  let si := put_s_cool_down_start 0 (put_s_state Ready si) in
  insert_session session si;;
  let orig_stake := default 0 (stakes c !! session) in
  mod_comp (fun c => put_stakes (delete session (stakes c)) c);;
  let '(_, slashed) := calc_final_stake si orig_stake in
  comp_event (WorkerReclaimed session orig_stake slashed);;
  mret (orig_stake, slashed).

Definition bind (session : Account) (pubkey : WorkerPublicKey) : H X unit :=
  s ← get_st;
  let c := comp s in
  wi ← ok_or (workers (reg s) !! pubkey) (CompErr WorkerNotRegistered);
  ensure (negb CheckWorkerRegisterTime || is_worker_registered_after_gk_launched s pubkey)
    (CompErr WorkerReregisterNeeded);;
  ensure (bool_decide (w_initial_score wi <> None)) (CompErr BenchmarkMissing);;
  ensure (bool_decide (session_bindings c !! session = None)) (CompErr DuplicateBoundSession);;
  ensure (bool_decide (worker_bindings c !! pubkey = None)) (CompErr DuplicateBoundWorker);;
  ensure (match sessions c !! session with
          | Some info => bool_decide (s_state info = Ready)
          | None => true
          end) (CompErr WorkerNotReady);;
  mod_comp (fun c => put_session_bindings (<[ session := pubkey ]> (session_bindings c)) c);;
  mod_comp (fun c => put_worker_bindings (<[ pubkey := session ]> (worker_bindings c)) c);;
  insert_session session
    (mkSession Ready 0 0 now_sec (mkBenchmark 0 0 0 now_sec 0) 0 0);;
  comp_event (SessionBound session pubkey).

Definition unbind_session (session : Account) (notify : bool) : H X unit :=
  worker ← ensure_session_bound session;
  c ← gets comp;
  si ← expect (sessions c !! session);
  let force := negb (can_unbind (s_state si)) in
  (if force then stop_computing session else mret tt);;
  mod_comp (fun c => put_session_bindings (delete session (session_bindings c)) c);;
  mod_comp (fun c => put_worker_bindings (delete worker (worker_bindings c)) c);;
  comp_event (SessionUnbound session worker);;
  if notify then on_unbound worker force else mret tt.

(** ** Calls *)

Definition set_cool_down_expiration (origin : Origin) (period : Z) : H X unit :=
  ensure_root origin;;
  mod_comp (put_cool_down_period period);;
  comp_event (CoolDownExpirationChanged period).

Definition unbind (origin : Origin) (session : Account) : H X unit :=
  who ← ensure_signed origin;
  pubkey ← ensure_session_bound session;
  r ← gets reg;
  wi ← ok_or (workers r !! pubkey) (CompErr WorkerNotRegistered);
  ensure (bool_decide (w_operator wi = Some who)) (CompErr BadSender);;
  unbind_session session true.

Definition force_heartbeat (origin : Origin) : H X unit :=
  ensure_root origin;;
  push_comp (SysHeartbeatChallenge 0 (2 ^ 256 - 1)).

Definition force_start_computing (origin : Origin) (session : Account) (stake : Balance) : H X unit :=
  ensure_root origin;; start_computing session stake.

Definition force_stop_computing (origin : Origin) (session : Account) : H X unit :=
  ensure_root origin;; stop_computing session.

Definition update_tokenomic (origin : Origin) (p : TokenomicParameters) : H X unit :=
  ensure (update_tokenomic_origin origin) BadOrigin;;
  mod_comp (put_scheduled_tokenomic (Some p)).

Definition set_heartbeat_paused (origin : Origin) (paused : bool) : H X unit :=
  ensure_governance origin;;
  mod_comp (put_heartbeat_paused paused).

Definition BUDGET_SAFE_MULTIPLIER : Z := 2.

Definition set_budget_per_block (origin : Origin) (nonce block budget : Z) : H X unit :=
  transactional (
    ensure (set_budget_origin origin) BadOrigin;;
    c ← gets comp;
    ensure (budget_update_nonce c <? nonce) (CompErr NonceIndexInvalid);;
    ensure (last_budget_update_block c <? block) (CompErr BudgetUpdateBlockInvalid);;
    ensure (budget <=? (max_budget_limit c *[128] BUDGET_SAFE_MULTIPLIER))
      (CompErr BudgetExceedMaxLimit);;
    t ← ok_or (tokenomic_parameters c) (CompErr InternalErrorBadTokenomicParameters);
    mod_comp (put_budget_update_nonce nonce);;
    mod_comp (put_last_budget_update_block block);;
    update_tokenomic_parameters (with_budget budget t);;
    comp_event (BudgetUpdated nonce budget)).

Definition update_contract_root (origin : Origin) (a : Account) : H X unit :=
  ensure (set_contract_root_origin origin) BadOrigin;;
  mod_comp (put_contract_account a).

(** ** Hooks and message handlers *)

Definition DEFAULT_EXPECTED_HEARTBEAT_COUNT : Z := 20.

Definition heartbeat_challenge : H X unit :=
  s ← get_st;
  let c := comp s in
  if heartbeat_paused c then mret tt
  else
    let num_tx := default DEFAULT_EXPECTED_HEARTBEAT_COUNT (expected_heartbeat_count c) in
    target ← expect (pow_target num_tx (online_workers c) ExpectedBlockTimeSec);
    push_comp (SysHeartbeatChallenge (random_seed s) target).

Definition comp_on_finalize : H X unit :=
  heartbeat_challenge;;
  c ← gets comp;
  match scheduled_tokenomic c with
  | Some t => mod_comp (put_scheduled_tokenomic None);; update_tokenomic_parameters t
  | None => mret tt
  end.

Definition report_iterations (e : WorkingReportEvent) : Z :=
  match e with Heartbeat _ _ _ i | HeartbeatV2 _ _ _ i _ _ => i end.
Definition report_challenge_time (e : WorkingReportEvent) : Z :=
  match e with Heartbeat _ _ t _ | HeartbeatV2 _ _ t _ _ _ => t end.

Definition on_working_message_received (s : SenderId) (e : WorkingReportEvent) : H X unit :=
  match s with
  | Worker worker =>
      session ← ensure_worker_bound worker;
      c ← gets comp;
      si ← expect (sessions c !! session);
      r ← gets reg;
      _ ← expect (workers r !! worker);
      b ← expect (benchmark_update now_sec (report_iterations e) (report_challenge_time e / 1000)
                    (s_benchmark si));
      comp_event (BenchmarkUpdated session (p_instant b));;
      insert_session session (put_s_benchmark b si)
  | _ => mret tt
  end.

(** One round of the two responsiveness loops: [st] is the state the worker's
    session enters, [ce] and [we] what is announced. *)
Definition set_responsiveness (st : WorkerState) (ce : Account -> CompEvent) (we : WorkerEvent)
    (worker : WorkerPublicKey) : H X unit :=
  c ← gets comp;
  match worker_bindings c !! worker with
  | Some account =>
      match sessions c !! account with
      | Some si =>
          if negb (is_computing (s_state si)) then mret tt
          else
            insert_session account (put_s_state st si);;
            comp_event (ce account);;
            push_comp (new_worker_event worker we)
      | None => mret tt
      end
  | None => mret tt
  end.

(** [SessionStats::on_reward] *)
Definition stats_on_reward (payout_bits : Z) (si : SessionInfo) : option SessionInfo :=
  payout ← from_bits payout_bits;
  Some (put_s_total_reward (s_total_reward si +[128] payout) si).

Definition try_handle_settle (info : SettleInfo) (now emit_ts : Z) : H X unit :=
  c ← gets comp;
  match worker_bindings c !! st_pubkey info with
  | Some account =>
      si ← ok_or (sessions c !! account) (CompErr SessionNotFound);
      if emit_ts <=? s_v_updated_at si then
        comp_event (SessionSettlementDropped account (st_v info) (st_payout info))
      else
        si ← expect (stats_on_reward (st_payout info)
                       (put_s_v_updated_at now (put_s_v (st_v info) si)));
        insert_session account si;;
        treasury_deposit ← expect (from_bits (st_treasury info));
        imbalance ← withdraw_imbalance_from_subsidy_pool treasury_deposit;
        on_treasury_settled imbalance;;
        comp_event (SessionSettled account (st_v info) (st_payout info))
  | None => mret tt
  end.

(** [if Self::try_handle_settle(..).is_err() { deposit_event(..) }]: what the
    failed call wrote stays. *)
Definition settle_or_report (now emit_ts : Z) (info : SettleInfo) : H X unit := fun s =>
  match try_handle_settle info now emit_ts s with
  | Ok _ s' => Ok tt s'
  | Err _ s' => comp_event (InternalErrorWorkerSettleFailed (st_pubkey info)) s'
  | Panic => Panic
  end.

Definition comp_on_gk_message_received (s : SenderId) (e : WorkingInfoUpdateEvent) : H X unit :=
  ensure (is_gatekeeper s) (CompErr BadSender);;
  if update_is_empty e then mret tt
  else
    let emit_ts := upd_timestamp_ms e / 1000 in
    let now := now_sec in
    for_each (upd_offline e)
      (set_responsiveness WorkerUnresponsive WorkerEnterUnresponsive EnterUnresponsive);;
    for_each (upd_recovered_to_online e)
      (set_responsiveness WorkerIdle WorkerExitUnresponsive ExitUnresponsive);;
    for_each (upd_settle e) (settle_or_report now emit_ts);;
    on_reward (upd_settle e).
End computation.
