(* ===== verification/CompLedger.v ===== *)
(** * The session ledger: the computation pallet's abstract specification

    What the pallet promises about sessions, stakes, bindings and the online
    counter, as a transition system over the five storage items they live in;
    [CompRefine] shows that every entry point of the pallet is a sequence of
    these steps. *)

From S2P Require Import Prelude MqTypes Storage Computation.

Record Ledger := mkLedger {
  l_sessions : gmap Account SessionInfo;
  l_bound : gmap Account WorkerPublicKey;
  l_owner : gmap WorkerPublicKey Account;
  l_stakes : gmap Account Balance;
  l_online : Z;
}.

Definition ledger (c : CompState) : Ledger :=
  mkLedger (sessions c) (session_bindings c) (worker_bindings c) (stakes c) (online_workers c).

Definition fresh_session (t : Z) : SessionInfo :=
  mkSession Ready 0 0 t (mkBenchmark 0 0 0 t 0) 0 0.

Definition started (t v p : Z) (si : SessionInfo) : SessionInfo :=
  put_s_benchmark (put_p_init p (s_benchmark si))
    (put_s_v_updated_at t (put_s_v v (put_s_ve v (put_s_state WorkerIdle si)))).

(** An update that leaves the life cycle alone: same state, or a move between
    the two computing states; the cool-down start is kept. *)
Definition touches (si si' : SessionInfo) : Prop :=
  (s_state si' = s_state si \/ is_computing (s_state si) = true /\ is_computing (s_state si') = true) /\
  s_cool_down_start si' = s_cool_down_start si /\
  p_init (s_benchmark si') = p_init (s_benchmark si) /\
  (p_instant (s_benchmark si') = p_instant (s_benchmark si) \/
   p_instant (s_benchmark si') <= (p_init (s_benchmark si) *[32] 12) / 10).

(** The two actions on a stake. *)
Inductive action := Locks (a : Account) (stake : Balance) | Releases (a : Account).

(** One step at time [t] (seconds), with the registered workers [ws] and the
    stake actions [may] that are permitted. *)
Inductive ledger_step (t : Z) (ws : gmap WorkerPublicKey WorkerInfoV2) (may : action -> Prop) :
    Ledger -> Ledger -> Prop :=
  | LBind l a w wi :
      ws !! w = Some wi -> w_initial_score wi <> None ->
      l_bound l !! a = None -> l_owner l !! w = None ->
      (forall si, l_sessions l !! a = Some si -> s_state si = Ready) ->
      ledger_step t ws may l (mkLedger (<[ a := fresh_session t ]> (l_sessions l))
        (<[ a := w ]> (l_bound l)) (<[ w := a ]> (l_owner l)) (l_stakes l) (l_online l))
  | LUnbind l a w si :
      l_bound l !! a = Some w -> l_sessions l !! a = Some si -> can_unbind (s_state si) = true ->
      ledger_step t ws may l (mkLedger (l_sessions l)
        (delete a (l_bound l)) (delete w (l_owner l)) (l_stakes l) (l_online l))
  | LStart l a w wi si stake v p :
      may (Locks a stake) ->
      l_bound l !! a = Some w -> l_sessions l !! a = Some si -> s_state si = Ready ->
      l_stakes l !! a = None -> ws !! w = Some wi -> w_initial_score wi = Some p ->
      ledger_step t ws may l (mkLedger (<[ a := started t v p si ]> (l_sessions l))
        (l_bound l) (l_owner l) (<[ a := stake ]> (l_stakes l)) (l_online l +[32] 1))
  | LStop l a w si :
      l_bound l !! a = Some w -> l_sessions l !! a = Some si ->
      s_state si <> Ready -> s_state si <> WorkerCoolingDown ->
      ledger_step t ws may l
        (mkLedger (<[ a := put_s_cool_down_start t (put_s_state WorkerCoolingDown si) ]> (l_sessions l))
          (l_bound l) (l_owner l) (l_stakes l) (l_online l -[32] 1))
  | LReclaim l a si :
      may (Releases a) ->
      l_sessions l !! a = Some si -> s_state si = WorkerCoolingDown ->
      ledger_step t ws may l
        (mkLedger (<[ a := put_s_cool_down_start 0 (put_s_state Ready si) ]> (l_sessions l))
          (l_bound l) (l_owner l) (delete a (l_stakes l)) (l_online l))
  | LTouch l a si si' :
      l_sessions l !! a = Some si -> touches si si' ->
      ledger_step t ws may l (mkLedger (<[ a := si' ]> (l_sessions l))
        (l_bound l) (l_owner l) (l_stakes l) (l_online l)).

Definition inverse (f : gmap Z Z) (g : gmap Z Z) : Prop :=
  forall a w, f !! a = Some w <-> g !! w = Some a.

Lemma inverse_insert f g a w :
  inverse f g -> f !! a = None -> g !! w = None -> inverse (<[ a := w ]> f) (<[ w := a ]> g).
Proof.
  intros Hi Ha Hw b x. rewrite !lookup_insert.
  destruct (decide (a = b)) as [<-|Hab], (decide (w = x)) as [<-|Hwx].
  - done.
  - split; [congruence|]. intros H%Hi. congruence.
  - split; [intros H%Hi; congruence|congruence].
  - apply Hi.
Qed.

Lemma inverse_delete f g a w :
  inverse f g -> f !! a = Some w -> inverse (delete a f) (delete w g).
Proof.
  intros Hi Ha b x. rewrite !lookup_delete. pose proof (proj1 (Hi a w) Ha) as Hw.
  destruct (decide (a = b)) as [<-|Hab], (decide (w = x)) as [<-|Hwx].
  - done.
  - split; [done|]. intros H%Hi. congruence.
  - split; [intros H%Hi; congruence|done].
  - apply Hi.
Qed.

(** ** Counting the computing sessions *)

Definition computing (si : SessionInfo) : bool := is_computing (s_state si).
Abbreviation computing_count := (count_if computing).
Abbreviation comp_bit := (count_bit computing).

(** ** The invariant *)

Record ledger_inv (t : Z) (ws : gmap WorkerPublicKey WorkerInfoV2) (l : Ledger) : Prop := {
  inv_bij : inverse (l_bound l) (l_owner l);
  inv_bound : forall a w, l_bound l !! a = Some w ->
    is_Some (l_sessions l !! a) /\ is_Some (ws !! w);
  inv_session : forall a si, l_sessions l !! a = Some si ->
    s_state si <> Unused /\ 0 <= s_cool_down_start si <= t /\
    (is_computing (s_state si) = true -> is_Some (l_bound l !! a)) /\
    0 <= p_init (s_benchmark si) <= 6000 /\ p_instant (s_benchmark si) <= 7200;
  inv_stake : forall a, is_Some (l_stakes l !! a) <->
    exists si, l_sessions l !! a = Some si /\ s_state si <> Ready;
  inv_online : l_online l = wrap 32 (computing_count (l_sessions l));
}.

Lemma is_computing_spec st :
  is_computing st = true <-> st <> Ready /\ st <> Unused /\ st <> WorkerCoolingDown.
Proof. destruct st; cbn; naive_solver. Qed.

Lemma wrap32_add_l x y : wrap 32 (wrap 32 x + y) = wrap 32 (x + y).
Proof. unfold wrap. by rewrite Z.add_mod_idemp_l. Qed.

Lemma wrap32_sub_l x y : wrap 32 (wrap 32 x - y) = wrap 32 (x - y).
Proof. rewrite <- !Z.add_opp_r. apply wrap32_add_l. Qed.

Section preservation.
Context (t : Z) (ws : gmap WorkerPublicKey WorkerInfoV2).
Context (t_pos : 0 <= t).
Context (scores_ok : forall w wi p, ws !! w = Some wi -> w_initial_score wi = Some p -> 0 <= p <= 6000).

(** Time passes and workers get registered: the invariant stays. *)
Lemma ledger_inv_mono t' ws' l :
  t <= t' -> (forall w, is_Some (ws !! w) -> is_Some (ws' !! w)) ->
  ledger_inv t ws l -> ledger_inv t' ws' l.
Proof.
  intros Ht Hws [Hbij Hb Hs Hk Ho]. split; try done.
  - intros a w Haw. destruct (Hb a w Haw). auto.
  - intros a si Ha. destruct (Hs a si Ha) as (? & ? & ? & ? & ?). split_and!; auto; lia.
Qed.

(** Replacing one session's record: the part of the invariant it concerns. *)
Lemma inv_replace l a si si' stakes' online' :
  ledger_inv t ws l -> l_sessions l !! a = Some si ->
  (s_state si' <> Unused /\ 0 <= s_cool_down_start si' <= t /\
    (is_computing (s_state si') = true -> is_Some (l_bound l !! a)) /\
    0 <= p_init (s_benchmark si') <= 6000 /\ p_instant (s_benchmark si') <= 7200) ->
  (is_Some (stakes' !! a) <-> s_state si' <> Ready) ->
  (forall b, b <> a -> stakes' !! b = l_stakes l !! b) ->
  online' = wrap 32 (computing_count (l_sessions l) - comp_bit (Some si) + comp_bit (Some si')) ->
  ledger_inv t ws (mkLedger (<[ a := si' ]> (l_sessions l)) (l_bound l) (l_owner l) stakes' online').
Proof.
  intros [Hbij Hb Hs Hk Ho] Ha Hsi' Hst Hst' Hon. split; cbn; [done|..].
  - intros b w Hbw. destruct (Hb b w Hbw) as [? ?]. split; [|done].
    rewrite lookup_insert. case_decide; [by eexists|done].
  - intros b sb. rewrite lookup_insert. case_decide; [intros [= <-]; by subst b|by apply Hs].
  - intros b. rewrite lookup_insert. case_decide as E.
    + subst b. rewrite Hst. naive_solver.
    + rewrite Hst' by done. apply Hk.
  - by rewrite Hon, count_if_insert, Ha.
Qed.

Lemma step_bind l a w wi :
  ledger_inv t ws l -> ws !! w = Some wi ->
  l_bound l !! a = None -> l_owner l !! w = None ->
  (forall si, l_sessions l !! a = Some si -> s_state si = Ready) ->
  ledger_inv t ws (mkLedger (<[ a := fresh_session t ]> (l_sessions l))
    (<[ a := w ]> (l_bound l)) (<[ w := a ]> (l_owner l)) (l_stakes l) (l_online l)).
Proof.
  intros [Hbij Hb Hs Hk Ho] Hw Ha Hwo Hr. split; cbn.
  - by apply inverse_insert.
  - intros b x. rewrite !lookup_insert. case_decide; [|naive_solver].
    intros [= <-]. split; by eexists.
  - intros b sb. rewrite !lookup_insert. case_decide as E; [|by apply Hs].
    intros [= <-]. cbn. split_and!; try done; lia.
  - intros b. rewrite lookup_insert. case_decide as E; [|apply Hk]. subst b. rewrite Hk.
    cbn. split; [intros (si & Hsi & Hne); by rewrite Hr in Hne|intros (si & [= <-] & Hne); done].
  - rewrite count_if_insert, Ho. cbn. f_equal.
    destruct (l_sessions l !! a) as [si|] eqn:E; cbn; [|lia]. unfold computing. rewrite (Hr si eq_refl). cbn. lia.
Qed.

Lemma step_unbind l a w si :
  ledger_inv t ws l -> l_bound l !! a = Some w -> l_sessions l !! a = Some si ->
  can_unbind (s_state si) = true ->
  ledger_inv t ws (mkLedger (l_sessions l) (delete a (l_bound l)) (delete w (l_owner l))
    (l_stakes l) (l_online l)).
Proof.
  intros [Hbij Hb Hs Hk Ho] Ha Hsi Hc. split; cbn; try done.
  - by apply inverse_delete.
  - intros b x. rewrite lookup_delete. case_decide; [done|]. apply Hb.
  - intros b sb Hsb. destruct (Hs b sb Hsb) as (? & ? & ? & ? & ?). split_and!; auto; try lia.
    rewrite lookup_delete. case_decide; [|done]. subst b. simplify_eq.
    match goal with H : can_unbind ?st = true |- _ => by destruct st end.
Qed.

Lemma ledger_step_inv may l l' : ledger_inv t ws l -> ledger_step t ws may l l' -> ledger_inv t ws l'.
Proof.
  intros HI Hst. pose proof HI as [Hbij Hb Hs Hk Ho]. destruct Hst as
    [l a w wi Hw Hsc Ha Hwo Hr|l a w si Ha Hsi Hc|l a w wi si stake v p _ Ha Hsi Hr Hno Hw Hp
    |l a w si Ha Hsi Hn1 Hn2|l a si _ Hsi Hcd|l a si si' Hsi Ht].
  - by eapply step_bind.
  - by eapply step_unbind.
  - pose proof (scores_ok _ _ _ Hw Hp). destruct (Hs a si Hsi) as (? & ? & ? & ? & ?).
    eapply (inv_replace l a si); [done|done|..]; cbn.
    + split_and!; try done; try lia.
    + rewrite lookup_insert_eq. split; [done|by eexists].
    + intros b Hne. by rewrite lookup_insert_ne.
    + rewrite Ho, wrap32_add_l. unfold computing. cbn. rewrite Hr. cbn. f_equal. lia.
  - destruct (Hs a si Hsi) as (? & ? & ? & ? & ?). eapply (inv_replace l a si); [done|done|..]; cbn.
    + split_and!; try done; lia.
    + rewrite Hk. naive_solver.
    + done.
    + rewrite Ho, wrap32_sub_l. unfold computing. cbn.
      assert (is_computing (s_state si) = true) as -> by (by apply is_computing_spec). f_equal. lia.
  - destruct (Hs a si Hsi) as (? & ? & ? & ? & ?). eapply (inv_replace l a si); [done|done|..]; cbn.
    + split_and!; try done; lia.
    + rewrite lookup_delete_eq. split; [by intros []|done].
    + intros b Hne. by rewrite lookup_delete_ne.
    + rewrite Ho. unfold computing. cbn. rewrite Hcd. cbn. f_equal. lia.
  - destruct (Hs a si Hsi) as (? & ? & Hc & ? & ?). destruct Ht as (Hst & Hcd & Hpi & Hpp).
    assert (is_computing (s_state si') = is_computing (s_state si)) as E
      by (destruct Hst as [->|[-> ->]]; done).
    eapply (inv_replace l a si); [done|done|..]; cbn.
    + rewrite E, Hcd, Hpi. split_and!; try done; try lia.
      * destruct Hst as [->|[_ ?%is_computing_spec]]; naive_solver.
      * destruct Hpp as [->|Hpp]; [done|]. rewrite wrap_small in Hpp by (unfold in_width; lia).
        etransitivity; [exact Hpp|]. apply Z.div_le_upper_bound; lia.
    + rewrite Hk. destruct Hst as [->|[?%is_computing_spec ?%is_computing_spec]]; naive_solver.
    + done.
    + rewrite Ho. unfold computing. cbn. rewrite E. f_equal. lia.
Qed.

Lemma ledger_steps_inv may l l' :
  rtc (ledger_step t ws may) l l' -> ledger_inv t ws l -> ledger_inv t ws l'.
Proof. apply rtc_invariant. apply ledger_step_inv. Qed.
End preservation.

(** ** Stakes and the life cycle *)
Section life.
Context (t : Z) (ws : gmap WorkerPublicKey WorkerInfoV2) (may : action -> Prop).

(** A held stake stays as it is unless its release is permitted. *)
Lemma ledger_steps_stake l l' a stake :
  ~ may (Releases a) -> rtc (ledger_step t ws may) l l' ->
  l_stakes l !! a = Some stake -> l_stakes l' !! a = Some stake.
Proof.
  intros Hno Hr. apply (rtc_invariant _ (fun l => l_stakes l !! a = Some stake)) with (2 := Hr).
  clear Hr. intros l1 l2 Hl1 Hs. destruct Hs; cbn; try done.
  - rewrite lookup_insert_ne; [done|]. intros ->. congruence.
  - rewrite lookup_delete_ne; [done|]. by intros ->.
Qed.

(** The states a session account goes through; [None]: no session yet. *)
Inductive life : option WorkerState -> option WorkerState -> Prop :=
  | LifeBind : life None (Some Ready)
  | LifeStart : life (Some Ready) (Some WorkerIdle)
  | LifeLost : life (Some WorkerIdle) (Some WorkerUnresponsive)
  | LifeBack : life (Some WorkerUnresponsive) (Some WorkerIdle)
  | LifeStop st : is_computing st = true -> life (Some st) (Some WorkerCoolingDown)
  | LifeReclaim : life (Some WorkerCoolingDown) (Some Ready).

Definition life_of (m : gmap Account SessionInfo) (a : Account) : option WorkerState :=
  s_state <$> m !! a.

Lemma life_touches si si' : touches si si' -> rtc life (Some (s_state si)) (Some (s_state si')).
Proof.
  intros [[->|[H1 H2]] _]; [done|].
  destruct (s_state si), (s_state si'); cbn in *; try done; apply rtc_once; constructor.
Qed.

Lemma life_of_insert m a b si :
  rtc life (life_of m b) (Some (s_state si)) -> rtc life (life_of m a) (life_of (<[ b := si ]> m) a).
Proof.
  intros H. unfold life_of in *. rewrite lookup_insert. case_decide; [by subst|done].
Qed.

Lemma ledger_step_life l l' a :
  ledger_inv t ws l -> ledger_step t ws may l l' -> rtc life (life_of (l_sessions l) a) (life_of (l_sessions l') a).
Proof.
  intros HI Hs. destruct Hs; cbn; try done; apply life_of_insert; unfold life_of.
  - destruct (l_sessions l !! a0) as [si|] eqn:E; cbn; [|apply rtc_once, LifeBind].
    by erewrite H3.
  - rewrite H1. cbn. rewrite H2. apply rtc_once, LifeStart.
  - rewrite H0. cbn. apply rtc_once, LifeStop, (proj2 (is_computing_spec _)).
    pose proof (inv_session _ _ _ HI _ _ H0) as [? _]. done.
  - rewrite H0. cbn. rewrite H1. apply rtc_once, LifeReclaim.
  - rewrite H. by apply life_touches.
Qed.

Lemma ledger_steps_life l l' a :
  0 <= t -> (forall w wi p, ws !! w = Some wi -> w_initial_score wi = Some p -> 0 <= p <= 6000) ->
  rtc (ledger_step t ws may) l l' -> ledger_inv t ws l ->
  rtc life (life_of (l_sessions l) a) (life_of (l_sessions l') a).
Proof.
  intros Ht Hsc. induction 1 as [|l1 l2 l3 H12 _ IH]; intros Hl; [done|].
  etrans; [by eapply ledger_step_life|]. apply IH. by eapply ledger_step_inv.
Qed.
End life.
