(* ===== verification/CompRefine.v ===== *)
(** * The computation pallet implements the session ledger

    Every entry point of the pallet, as [comp_op], and the refinement: whatever
    it returns, its effect on the storage is a sequence of steps of
    [CompLedger.ledger_step], so the ledger's invariant holds on every chain
    history. The callbacks and the currency are used through [CompFrame]. *)

From S2P Require Import Prelude MqTypes Storage MqPallet PalletMsg FixedPoint Registry Computation CompLedger.

(** ** Every state-changing entry point, as one type *)

Inductive comp_op :=
  | COCoolDown (o : Origin) (period : Z)
  | COUnbind (o : Origin) (session : Account)
  | COForceHeartbeat (o : Origin)
  | COForceStart (o : Origin) (session : Account) (stake : Balance)
  | COForceStop (o : Origin) (session : Account)
  | COTokenomic (o : Origin) (p : TokenomicParameters)
  | COPause (o : Origin) (paused : bool)
  | COBudget (o : Origin) (nonce block budget : Z)
  | COContractRoot (o : Origin) (a : Account)
  | COFinalize
  | COReport (s : SenderId) (e : WorkingReportEvent)
  | COUpdate (s : SenderId) (e : WorkingInfoUpdateEvent)
  (** called by the stake pool *)
  | COBind (session : Account) (w : WorkerPublicKey)
  | COUnbindSession (session : Account) (notify : bool)
  | COStart (session : Account) (stake : Balance)
  | COStop (session : Account)
  | COReclaim (session : Account) (check : bool)
  | COWithdraw (target : Account) (value : Balance).

Section exec.
Context {X : Type} `{QN : !QueueNotifyConfig X} `{CC : !ChainCodec} `{RC : !RegConfig}
  `{BE : !BlockEnv} `{FC : !FixedCrate} `{CF : !CompConfig X} `{HK : !CompHooks X}.

Definition comp_exec (op : comp_op) : H X unit :=
  match op with
  | COCoolDown o p => set_cool_down_expiration o p
  | COUnbind o a => unbind o a
  | COForceHeartbeat o => force_heartbeat o
  | COForceStart o a st => force_start_computing o a st
  | COForceStop o a => force_stop_computing o a
  | COTokenomic o p => update_tokenomic o p
  | COPause o p => set_heartbeat_paused o p
  | COBudget o n b v => set_budget_per_block o n b v
  | COContractRoot o a => update_contract_root o a
  | COFinalize => comp_on_finalize
  | COReport s e => on_working_message_received s e
  | COUpdate s e => comp_on_gk_message_received s e
  | COBind a w => bind a w
  | COUnbindSession a n => unbind_session a n
  | COStart a st => start_computing a st
  | COStop a => stop_computing a
  | COReclaim a b => reclaim a b;; mret tt
  | COWithdraw a v => withdraw_subsidy_pool a v
  end.

(** An operation that leaves the two pallets' storage and the message queue
    alone. *)
Definition frames {A} (m : H X A) : Prop := forall s,
  match m s with
  | Ok _ s' | Err _ s' => comp s' = comp s /\ reg s' = reg s /\ mq s' = mq s
  | Panic => True
  end.
End exec.

(** What the pallet relies on: its callbacks and the currency touch neither the
    computation nor the registry storage, nor the message queue. *)
Class CompFrame (X : Type) `{CF : !CompConfig X} `{HK : !CompHooks X} : Prop := {
  frame_reward : forall l, frames (on_reward l);
  frame_unbound : forall w b, frames (on_unbound w b);
  frame_stopped : forall w a b, frames (on_stopped w a b);
  frame_withdraw : forall a b, frames (currency_withdraw a b);
  frame_transfer : forall a b v, frames (currency_transfer a b v);
  frame_treasury : forall i, frames (on_treasury_settled i);
}.

Create HintDb sim.
#[export] Hint Resolve frame_reward frame_unbound frame_stopped frame_withdraw frame_transfer
  frame_treasury : sim.

(** ** Simulation *)
Section sim.
Context {X : Type} `{QN : !QueueNotifyConfig X} `{PT : !PalletTopicsUnrouted X} `{CC : !ChainCodec}
  `{RC : !RegConfig} `{BE : !BlockEnv} `{FC : !FixedCrate} `{CF : !CompConfig X}
  `{HK : !CompHooks X} `{FR : !CompFrame X}.
Context (may : action -> Prop).
Implicit Types s : Storage X.

Definition steps (s s' : Storage X) : Prop :=
  rtc (ledger_step now_sec (workers (reg s)) may) (ledger (comp s)) (ledger (comp s')) /\ reg s' = reg s.

(** The outcome [o] of something run from [s] is a sequence of ledger steps. *)
Definition post {A} s (o : outcome (Storage X) DispatchError A) : Prop :=
  match o with Ok _ s' | Err _ s' => steps s s' | Panic => True end.

Definition sim {A} (m : H X A) : Prop := forall s, post s (m s).

Lemma steps_refl s : steps s s.
Proof. by split. Qed.

Lemma steps_trans s1 s2 s3 : steps s1 s2 -> steps s2 s3 -> steps s1 s3.
Proof. intros [H1 E1] [H2 E2]. rewrite E1 in H2. split; [by etrans|congruence]. Qed.

Lemma steps_same s s' : ledger (comp s') = ledger (comp s) -> reg s' = reg s -> steps s s'.
Proof. intros E1 E2. split; [by rewrite E1|done]. Qed.

Lemma post_bind {A B} s s1 (m : H X A) (f : A -> H X B) :
  post s (m s1) -> (forall a s2, m s1 = Ok a s2 -> post s (f a s2)) -> post s ((m ≫= f) s1).
Proof. intros Hm Hf. unfold post, mbind, M_bind in *. destruct (m s1) eqn:E; [|done..]. by apply Hf. Qed.

Lemma sim_post {A} s s1 (m : H X A) : steps s s1 -> sim m -> post s (m s1).
Proof.
  intros Hs Hm. specialize (Hm s1). unfold post in *. destruct (m s1); [..|done]; by eapply steps_trans.
Qed.

Lemma sim_bind {A B} (m : H X A) (f : A -> H X B) : sim m -> (forall a, sim (f a)) -> sim (m ≫= f).
Proof.
  intros Hm Hf s. apply post_bind; [apply Hm|]. intros a s2 E. apply sim_post; [|apply Hf].
  specialize (Hm s). by rewrite E in Hm.
Qed.

Lemma sim_ret {A} (a : A) : sim (mret a).
Proof. intros s. apply steps_refl. Qed.
Lemma sim_fail {A} e : sim (@fail _ _ A e).
Proof. intros s. apply steps_refl. Qed.
Lemma sim_gets {A} (f : Storage X -> A) : sim (gets f).
Proof. intros s. apply steps_refl. Qed.
Lemma sim_get_st : sim get_st.
Proof. intros s. apply steps_refl. Qed.
Lemma sim_ensure b e : sim (ensure b e).
Proof. intros s. destruct b; apply steps_refl. Qed.
Lemma sim_ok_or {A} (o : option A) e : sim (ok_or o e).
Proof. intros s. destruct o; apply steps_refl. Qed.
Lemma sim_expect {A} (o : option A) : sim (expect o).
Proof. intros s. destruct o; [apply steps_refl|done]. Qed.
Lemma sim_ensure_root o : sim (ensure_root o).
Proof. intros s. destruct o; apply steps_refl. Qed.
Lemma sim_ensure_signed o : sim (ensure_signed o).
Proof. intros s. destruct o; apply steps_refl. Qed.
Lemma sim_event e : sim (comp_event e).
Proof. intros s. by apply steps_same. Qed.
Lemma sim_push e : sim (push_comp e).
Proof. intros s. unfold push_comp. rewrite push_system_run. by apply steps_same. Qed.
Lemma sim_push_gk o e : sim (push_gk_event o e).
Proof. intros s. rewrite push_gk_event_run. by apply steps_same. Qed.
Lemma sim_mod f : (forall c, ledger (f c) = ledger c) -> sim (mod_comp f).
Proof. intros Hf s. by apply steps_same; [apply Hf|]. Qed.
Lemma sim_frames {A} (m : H X A) : frames m -> sim m.
Proof.
  intros Hm s. specialize (Hm s). unfold post. destruct (m s); [..|done];
    destruct Hm as (E1 & E2 & _); by apply steps_same; [rewrite E1|].
Qed.
Lemma sim_transactional {A} (m : H X A) : sim m -> sim (transactional m).
Proof.
  intros Hm s. specialize (Hm s). unfold post, transactional in *.
  destruct (m s); [done|apply steps_refl|done].
Qed.
Lemma sim_for_each {A} (l : list A) (f : A -> H X unit) : (forall x, sim (f x)) -> sim (for_each l f).
Proof. intros Hf. induction l; cbn; [apply sim_ret|]. by apply sim_bind. Qed.

(** Symbolic execution of guards and writes, from an intermediate storage. *)
Lemma post_gets {A B} s s1 (f : Storage X -> A) (k : A -> H X B) :
  post s (k (f s1) s1) -> post s ((gets f ≫= k) s1).
Proof. done. Qed.
Lemma post_modify {B} s s1 f (k : unit -> H X B) :
  post s (k tt (f s1)) -> post s ((modify f ≫= k) s1).
Proof. done. Qed.
Lemma post_ensure {B} s b e (k : unit -> H X B) :
  (b = true -> post s (k tt s)) -> post s ((ensure b e ≫= k) s).
Proof. intros H. destruct b; [by apply H|]. apply steps_refl. Qed.
Lemma post_ok_or {A B} s (o : option A) e (k : A -> H X B) :
  (forall a, o = Some a -> post s (k a s)) -> post s ((ok_or o e ≫= k) s).
Proof. intros H. destruct o; [by apply H|]. apply steps_refl. Qed.
Lemma post_expect {A B} s s1 (o : option A) (k : A -> H X B) :
  (forall a, o = Some a -> post s (k a s1)) -> post s ((expect o ≫= k) s1).
Proof. intros H. destruct o; [by apply H|done]. Qed.
Lemma post_assoc {A B C} s s1 (m : H X A) (f : A -> H X B) (g : B -> H X C) :
  post s ((m ≫= fun a => f a ≫= g) s1) -> post s (((m ≫= f) ≫= g) s1).
Proof. unfold mbind, M_bind. by destruct (m s1). Qed.
End sim.

#[export] Hint Resolve sim_ret sim_fail sim_gets sim_get_st sim_ensure sim_ok_or sim_expect
  sim_ensure_root sim_ensure_signed sim_event sim_push sim_push_gk sim_frames sim_transactional
  sim_bind : sim.
#[export] Hint Extern 1 (sim _ (mod_comp _)) => (apply sim_mod; done) : sim.

(** Runs the guards at the head of a handler, naming what they learnt. *)
Ltac guards :=
  repeat match goal with
  | |- post _ _ ((mbind _ (mbind _ _)) _) => apply post_assoc
  | |- post _ _ ((mbind _ (gets _)) _) => apply post_gets
  | |- post _ _ ((mbind _ (ok_or _ _)) _) => apply post_ok_or; intros ? ?
  | |- post _ _ ((mbind _ (expect _)) _) => apply post_expect; intros ? ?
  | |- post _ _ ((mbind _ (ensure _ _)) _) => apply post_ensure; intros ?
  end;
  b2p.

(** What follows the writes changes nothing of the ledger. *)
Ltac sim_auto := solve [eauto 14 with sim].

(** Performs the writes that follow. *)
Ltac writes :=
  repeat (unfold insert_session, mod_comp;
    match goal with |- post _ _ ((mbind _ (modify _)) _) => apply post_modify end).

Section refine.
Context {X : Type} `{QN : !QueueNotifyConfig X} `{PT : !PalletTopicsUnrouted X} `{CC : !ChainCodec}
  `{RC : !RegConfig} `{BE : !BlockEnv} `{FC : !FixedCrate} `{CF : !CompConfig X}
  `{HK : !CompHooks X} `{FR : !CompFrame X}.
Context (may : action -> Prop).
Implicit Types s : Storage X.

Lemma sim_stop a : sim (X := X) may (stop_computing a).
Proof.
  intros s. unfold stop_computing, calc_final_stake. guards. destruct_and?. writes.
  apply sim_post; [|sim_auto]. split; [|done]. apply rtc_once. by eapply LStop.
Qed.

(** After a stop, the binding is as it was and the session cools down. *)
Lemma stop_computing_Ok a s s' :
  stop_computing a s = Ok tt s' ->
  session_bindings (comp s') !! a = session_bindings (comp s) !! a /\
  exists si, sessions (comp s') !! a = Some si /\ s_state si = WorkerCoolingDown.
Proof.
  intros E. unfold stop_computing, calc_final_stake, insert_session, mod_comp in E. mrun.
  match goal with H : on_stopped ?w ?x ?y ?st = Ok _ ?s1 |- _ =>
    pose proof (frame_stopped w x y st) as Hf; rewrite H in Hf; destruct Hf as [Hc _] end.
  unfold push_comp, comp_event, deposit_event in *. rewrite push_system_run in *. mrun.
  rewrite Hc. cbn. split; [done|]. rewrite lookup_insert_eq. by eexists.
Qed.

Lemma insert_alter (m : gmap Account SessionInfo) a f si :
  m !! a = Some si -> alter f a m = <[ a := f si ]> m.
Proof.
  intros Ha. apply map_eq. intros b. rewrite lookup_alter, lookup_insert.
  case_decide; [|done]. subst. by rewrite Ha.
Qed.

Lemma sim_start a stake : may (Locks a stake) -> sim (X := X) may (start_computing a stake).
Proof.
  intros Hmay s. unfold start_computing, tokenomic. guards. writes.
  apply sim_post; [|sim_auto]. split; [|done]. apply rtc_once. unfold ledger. cbn.
  erewrite insert_alter by done. by eapply LStart.
Qed.

Lemma sim_reclaim a b : may (Releases a) -> sim (X := X) may (reclaim a b).
Proof.
  intros Hmay s. unfold reclaim, calc_final_stake. guards. writes.
  apply sim_post; [|sim_auto]. split; [|done]. apply rtc_once. eapply LReclaim; [done|done|].
  unfold can_reclaim in *. by destruct (bool_decide_reflect (s_state a0 = WorkerCoolingDown)).
Qed.

Lemma sim_bind_session a w : sim (X := X) may (bind a w).
Proof.
  intros s. unfold bind. apply (post_gets may s s id). unfold id. guards. writes.
  apply sim_post; [|sim_auto]. split; [|done]. apply rtc_once. eapply LBind; try done.
  cbn. intros si E. rewrite E in *. b2p. done.
Qed.

Lemma sim_unbind_session a n : sim (X := X) may (unbind_session a n).
Proof.
  intros s. unfold unbind_session, ensure_session_bound. guards.
  rename a0 into w, a1 into si.
  assert (forall s1, steps may s s1 -> session_bindings (comp s1) !! a = Some w ->
    (exists si1, sessions (comp s1) !! a = Some si1 /\ can_unbind (s_state si1) = true) ->
    post may s ((mod_comp (fun c => put_session_bindings (delete a (session_bindings c)) c);;
      mod_comp (fun c => put_worker_bindings (delete w (worker_bindings c)) c);;
      comp_event (SessionUnbound a w);;
      (if n then on_unbound w (negb (can_unbind (s_state si))) else mret tt)) s1)) as Hrest.
  { intros s1 Hs1 Hb (si1 & Hsi1 & Hc). writes. apply sim_post; [|destruct n; sim_auto].
    eapply steps_trans; [exact Hs1|]. split; [|done]. apply rtc_once. by eapply LUnbind. }
  destruct (can_unbind (s_state si)) eqn:Ec; cbn [negb].
  - apply Hrest; [apply steps_refl|done|by eauto].
  - apply post_bind; [apply sim_stop|]. intros [] s2 E.
    pose proof (sim_stop a s) as Hs. rewrite E in Hs.
    apply stop_computing_Ok in E as (Hb & si2 & Hsi2 & Hst). apply Hrest; [done|congruence|].
    exists si2. by rewrite Hst.
Qed.

Lemma touches_benchmark si b now its ch :
  benchmark_update now its ch (s_benchmark si) = Some b -> touches si (put_s_benchmark b si).
Proof.
  unfold benchmark_update. case_match; [done|]. intros [= <-]. split_and!; cbn; auto.
  - by case_match.
  - right. etransitivity; [apply Z.le_min_r|]. by case_match.
Qed.

Lemma sim_touch {A} a (f : CompState -> SessionInfo) (k : H X A) s :
  sim may k -> (exists si, sessions (comp s) !! a = Some si /\ touches si (f (comp s))) ->
  post may s ((insert_session a (f (comp s));; k) s).
Proof.
  intros Hk (si & Hsi & Ht). writes. apply sim_post; [|done]. split; [|done].
  apply rtc_once. by eapply LTouch.
Qed.

Lemma sim_report snd e : sim (X := X) may (on_working_message_received snd e).
Proof.
  intros s. unfold on_working_message_received. destruct snd; try apply steps_refl.
  unfold ensure_worker_bound. guards.
  apply post_bind; [by apply sim_event|]. intros [] s2 [= <-].
  unfold insert_session, mod_comp, modify. cbn. split; [|done]. apply rtc_once.
  eapply (LTouch _ _ _ (ledger (comp s))); [done|]. by eapply touches_benchmark.
Qed.

Lemma sim_responsiveness st ce we w :
  is_computing st = true -> sim (X := X) may (set_responsiveness st ce we w).
Proof.
  intros Hst s. unfold set_responsiveness. guards.
  destruct (worker_bindings (comp s) !! w) as [a|]; [|apply steps_refl].
  destruct (sessions (comp s) !! a) as [si|] eqn:E; [|apply steps_refl].
  destruct (is_computing (s_state si)) eqn:Ec; cbn [negb]; [|apply steps_refl].
  apply (sim_touch a (fun _ => put_s_state st si)); [sim_auto|].
  exists si. split; [done|]. split_and!; cbn; auto.
Qed.

Lemma stats_on_reward_Some p si si' :
  stats_on_reward p si = Some si' ->
  exists amount, from_bits p = Some amount /\
    si' = put_s_total_reward (s_total_reward si +[128] amount) si.
Proof. unfold stats_on_reward. destruct (from_bits p); cbn; naive_solver. Qed.

Lemma sim_settle info now ts : sim (X := X) may (try_handle_settle info now ts).
Proof.
  intros s. unfold try_handle_settle. guards.
  destruct (worker_bindings (comp s) !! st_pubkey info) as [a|]; [|apply steps_refl]. guards.
  case_match; [apply sim_event|]. guards.
  match goal with H : stats_on_reward _ _ = Some _ |- _ =>
    apply stats_on_reward_Some in H as (amount & _ & ->) end.
  apply (sim_touch a (fun _ => _)); [unfold withdraw_imbalance_from_subsidy_pool; sim_auto|].
  eexists. split; [done|]. split_and!; cbn; auto.
Qed.

Lemma sim_settle_or_report now ts info : sim (X := X) may (settle_or_report now ts info).
Proof.
  intros s. unfold settle_or_report. pose proof (sim_settle info now ts s) as Hs. unfold post in *.
  destruct (try_handle_settle info now ts s); [done| |done]. by apply (sim_post may s).
Qed.

Lemma sim_update snd e : sim (X := X) may (comp_on_gk_message_received snd e).
Proof.
  unfold comp_on_gk_message_received. apply sim_bind; [apply sim_ensure|]. intros _.
  destruct (update_is_empty e); [apply sim_ret|].
  repeat (apply sim_bind; [|intros _]); try apply sim_for_each.
  - intros. by apply sim_responsiveness.
  - intros. by apply sim_responsiveness.
  - apply sim_settle_or_report.
  - sim_auto.
Qed.

Lemma sim_update_tokenomic p : sim (X := X) may (update_tokenomic_parameters p).
Proof. unfold update_tokenomic_parameters. sim_auto. Qed.

Lemma sim_finalize : sim (X := X) may comp_on_finalize.
Proof.
  unfold comp_on_finalize, heartbeat_challenge. apply sim_bind.
  - apply sim_bind; [apply sim_get_st|]. intros s. case_match; sim_auto.
  - intros _. apply sim_bind; [sim_auto|]. intros c. case_match; [|sim_auto].
    apply sim_bind; [sim_auto|]. intros _. apply sim_update_tokenomic.
Qed.

End refine.

(** The stake actions an entry point may perform. *)
Definition may_of (op : comp_op) (act : action) : Prop :=
  match op, act with
  | COForceStart _ a st, Locks a' st' | COStart a st, Locks a' st' => a' = a /\ st' = st
  | COReclaim a _, Releases a' => a' = a
  | _, _ => False
  end.

Section refinement.
Context {X : Type} `{QN : !QueueNotifyConfig X} `{PT : !PalletTopicsUnrouted X} `{CC : !ChainCodec}
  `{RC : !RegConfig} `{BE : !BlockEnv} `{FC : !FixedCrate} `{CF : !CompConfig X}
  `{HK : !CompHooks X} `{FR : !CompFrame X}.

(** Every entry point is a sequence of ledger steps. *)
Lemma comp_exec_sim op : sim (X := X) (may_of op) (comp_exec op).
Proof.
  pose proof sim_stop. pose proof sim_start. pose proof sim_update_tokenomic.
  pose proof sim_unbind_session. pose proof (sim_reclaim (X := X)).
  assert (forall a st, may_of (COReclaim a st) (Releases a)) by done.
  destruct op; cbn [comp_exec].
  4: apply sim_bind; [sim_auto|]; intros _; by apply sim_start.
  1-8: unfold set_cool_down_expiration, unbind, force_heartbeat,
    force_stop_computing, update_tokenomic, set_heartbeat_paused, ensure_governance,
    set_budget_per_block, update_contract_root, ensure_session_bound; sim_auto.
  - apply sim_finalize.
  - apply sim_report.
  - apply sim_update.
  - apply sim_bind_session.
  - done.
  - by apply sim_start.
  - done.
  - sim_auto.
  - unfold withdraw_subsidy_pool. sim_auto.
Qed.
End refinement.
