(* ===== verification/CompClaims.v ===== *)
(** * Theorems on the computation pallet

    Chain histories interleaving the computation and registry pallets, the
    invariant they keep, the session life cycle, stakes and the cool down, the
    pallet's panics, settlements, the budget and the heartbeat target. *)

From S2P Require Import Prelude MqTypes Storage MqPallet PalletMsg FixedPoint Registry Computation CompLedger CompRefine.

(** ** Histories *)
Section history.
Context {X : Type} `{QN : !QueueNotifyConfig X} `{PT : !PalletTopicsUnrouted X} `{CC : !ChainCodec}
  `{MC : !MqCodec} `{SR : !Sr25519} `{RC : !RegConfig} `{FC : !FixedCrate} `{CF : !CompConfig X}
  `{HK : !CompHooks X} `{FR : !CompFrame X}.

(** The time of the last block, in milliseconds, and the storage. *)
Abbreviation chain := (Z * Storage X)%type.

(** [s'] is what the outcome leaves, whether it returned or failed. *)
Definition leaves {A} (o : outcome (Storage X) DispatchError A) (s' : Storage X) : Prop :=
  match o with Ok _ s1 | Err _ s1 => s1 = s' | Panic => False end.

Inductive chain_step (allowed : comp_op -> Prop) : chain -> chain -> Prop :=
  | StepComp (env : BlockEnv) op t s s' :
      allowed op -> t <= now_ms < 2 ^ 64 -> leaves (comp_exec op s) s' ->
      chain_step allowed (t, s) (now_ms, s')
  | StepReg (env : BlockEnv) op t s s' :
      t <= now_ms < 2 ^ 64 -> leaves (reg_exec op s) s' ->
      chain_step allowed (t, s) (now_ms, s')
  | StepOther t s s' :
      comp s' = comp s -> keys_only (reg s) (reg s') -> chain_step allowed (t, s) (t, s').

Definition chain_inv (c : chain) : Prop :=
  0 <= c.1 < 2 ^ 64 /\ reg_inv (reg c.2) /\
  ledger_inv (c.1 / 1000) (workers (reg c.2)) (ledger (comp c.2)).

Lemma reg_inv_scores r w wi p :
  reg_inv r -> workers r !! w = Some wi -> w_initial_score wi = Some p -> 0 <= p <= 6000.
Proof. intros (_ & _ & _ & Hf & _) Hw Hp. by apply (Hf _ _ Hw). Qed.

Lemma chain_step_inv allowed c c' : chain_inv c -> chain_step allowed c c' -> chain_inv c'.
Proof.
  intros Hc Hs. destruct Hs as [env op t s s' _ Hn Ho|env op t s s' Hn Ho|t s s' E1 (ka & kb & E2)];
    destruct Hc as (Ht & Hr & Hl); cbn [fst snd] in *.
  - pose proof (comp_exec_sim op s) as Hs. unfold post, leaves in *.
    assert (steps (may_of op) s s') as [Hst Er] by (destruct (comp_exec op s); by subst). clear Ho Hs.
    split; [cbn; lia|]. cbn. rewrite Er. split; [done|].
    eapply ledger_steps_inv; [apply Z.div_pos; lia|by intros *; apply reg_inv_scores|exact Hst|].
    eapply ledger_inv_mono; [|done|exact Hl]. apply Z.div_le_mono; lia.
  - pose proof (reg_exec_inv op s Hr) as Hi. pose proof (reg_exec_frame op s) as Hf. unfold leaves in Ho.
    assert (reg_inv (reg s') /\ comp s' = comp s /\
      forall w, is_Some (workers (reg s) !! w) -> is_Some (workers (reg s') !! w)) as (Hi' & Ec & Hm)
      by (destruct (reg_exec op s); by subst).
    split; [cbn; lia|]. cbn. split; [done|]. rewrite Ec.
    eapply ledger_inv_mono; [|exact Hm|exact Hl]. apply Z.div_le_mono; lia.
  - split; [done|]. cbn. by rewrite E1, E2.
Qed.

Lemma chain_history_inv allowed c c' : chain_inv c -> rtc (chain_step allowed) c c' -> chain_inv c'.
Proof. intros Hc Hr. by apply (rtc_invariant _ chain_inv c c' (chain_step_inv allowed)). Qed.

(** C2: on every history of the chain, whatever is called, received or failed:
    sessions and workers are bound one to one, a bound worker is registered and
    its session exists, a computing session is bound, a stake is held exactly for
    the sessions that compute or cool down, and the online counter is the number
    of computing sessions (modulo 2^32, so the decrement never underflows);
    performance scores stay within 6000 and 120% of it. *)
Theorem computation_invariant c c' :
  chain_inv c -> rtc (chain_step (fun _ => True)) c c' ->
  ledger_inv (c'.1 / 1000) (workers (reg c'.2)) (ledger (comp c'.2)).
Proof. intros Hc Hr. by apply (chain_history_inv _ c c' Hc Hr). Qed.
End history.

(** ** Single entry points *)
Section claims.
Context {X : Type} `{QN : !QueueNotifyConfig X} `{PT : !PalletTopicsUnrouted X} `{CC : !ChainCodec}
  `{MC : !MqCodec} `{SR : !Sr25519} `{RC : !RegConfig} `{BE : !BlockEnv} `{FC : !FixedCrate}
  `{CF : !CompConfig X} `{HK : !CompHooks X} `{FR : !CompFrame X}.
Implicit Types s : Storage X.

Lemma comp_exec_steps op s s' :
  leaves (comp_exec op s) s' -> steps (may_of op) s s'.
Proof.
  intros Ho. pose proof (comp_exec_sim op s) as Hs. unfold post, leaves in *.
  destruct (comp_exec op s); by subst.
Qed.

(** C10: every entry point of the computation pallet, on success and on error,
    changes sessions, bindings, stakes and the online counter only along the
    steps of the session ledger, locking a stake only when computing starts and
    releasing one only on reclaim, and never touches the registry. *)
Theorem computation_refines_ledger op s s' :
  leaves (comp_exec op s) s' ->
  rtc (ledger_step now_sec (workers (reg s)) (may_of op)) (ledger (comp s)) (ledger (comp s')) /\
  reg s' = reg s.
Proof. apply comp_exec_steps. Qed.

(** The life cycle of a session account: no entry point moves it except
    along None -> Ready -> Idle <-> Unresponsive -> CoolingDown -> Ready. *)
Theorem session_lifecycle op t s s' a :
  chain_inv (t, s) -> t <= now_ms -> leaves (comp_exec op s) s' ->
  rtc life (life_of (sessions (comp s)) a) (life_of (sessions (comp s')) a).
Proof.
  intros (Ht & Hr & Hl) Hn Ho. cbn [fst snd] in *. apply comp_exec_steps in Ho as [Hst _].
  assert (ledger_inv now_sec (workers (reg s)) (ledger (comp s))) as Hl'.
  { eapply ledger_inv_mono; [|done|exact Hl]. apply Z.div_le_mono; lia. }
  apply (ledger_steps_life _ _ _ _ _ a) with (3 := Hst); [apply Z.div_pos; lia| |done].
  intros *. by apply reg_inv_scores.
Qed.

(** Reclaim on every branch. It succeeds exactly when the session cools down
    and, if the period is checked, at least the period has passed since the stop
    (no wrap-around); it then returns the whole stake with nothing slashed,
    forgets it, and makes the session ready. Otherwise nothing changes. *)
Theorem reclaim_spec t s a check :
  chain_inv (t, s) -> t <= now_ms < 2 ^ 64 ->
  match sessions (comp s) !! a with
  | None => reclaim a check s = Err (CompErr SessionNotFound) s
  | Some si =>
      if bool_decide (s_state si = WorkerCoolingDown /\
                      (check = true -> s_cool_down_start si + cool_down_period (comp s) <= now_sec))
      then exists stake s', stakes (comp s) !! a = Some stake /\ reclaim a check s = Ok (stake, 0) s' /\
             stakes (comp s') = delete a (stakes (comp s)) /\
             life_of (sessions (comp s')) a = Some Ready
      else reclaim a check s = Err (CompErr CoolDownNotReady) s
  end.
Proof.
  intros (Ht & Hr & Hl) Hn. cbn [fst snd] in *. unfold reclaim, calc_final_stake. mred.
  destruct (sessions (comp s) !! a) as [si|] eqn:E; [|done].
  pose proof (inv_session _ _ _ Hl a si E) as (_ & Hcd & _).
  assert (t / 1000 <= now_sec) by (apply Z.div_le_mono; lia).
  assert (now_sec < 2 ^ 64) by (apply Z.div_lt_upper_bound; lia).
  assert (can_reclaim (comp s) si check = bool_decide (s_state si = WorkerCoolingDown /\
    (check = true -> s_cool_down_start si + cool_down_period (comp s) <= now_sec))) as ->.
  { unfold can_reclaim. rewrite wrap_sub_small by lia.
    destruct (bool_decide_reflect (s_state si = WorkerCoolingDown)) as [Es|Es]; cbn.
    - destruct check; cbn; symmetry; [|apply bool_decide_eq_true; by rewrite Es].
      destruct (cool_down_period (comp s) <=? _) eqn:Ep; b2p; naive_solver lia.
    - symmetry. apply bool_decide_eq_false. naive_solver. }
  case_bool_decide as Hb; [|done]. destruct Hb as [Es _].
  destruct (proj2 (inv_stake _ _ _ Hl a)) as [stake Hst]; [exists si; by rewrite Es|].
  cbn in Hst. rewrite Hst. eexists stake, _. split; [done|]. split; [reflexivity|]. split; [done|].
  unfold life_of. cbn. by rewrite lookup_insert_eq.
Qed.

End claims.

Section stake.
Context {X : Type} `{QN : !QueueNotifyConfig X} `{PT : !PalletTopicsUnrouted X} `{CC : !ChainCodec}
  `{MC : !MqCodec} `{SR : !Sr25519} `{RC : !RegConfig} `{FC : !FixedCrate}
  `{CF : !CompConfig X} `{HK : !CompHooks X} `{FR : !CompFrame X}.
Implicit Types s : Storage X.

Lemma start_computing_locks (env : BlockEnv) a stake s s' :
  start_computing a stake s = Ok tt s' -> stakes (comp s') !! a = Some stake.
Proof.
  intros E. unfold start_computing, tokenomic, mod_comp, push_comp, comp_event, deposit_event in E.
  repeat first [progress push_run | progress mrun]. by rewrite lookup_insert_eq.
Qed.

Lemma chain_history_stake a stake c c' :
  rtc (chain_step (fun op => forall b, op <> COReclaim a b)) c c' ->
  stakes (comp c.2) !! a = Some stake -> stakes (comp c'.2) !! a = Some stake.
Proof.
  intros Hr. apply (rtc_invariant _ (fun c => stakes (comp c.2) !! a = Some stake)) with (2 := Hr).
  clear Hr. intros c1 c2 Hc1 Hs.
  destruct Hs as [env op t s s' Hop _ Ho|env op t s s' _ Ho|t s s' E _]; cbn [snd] in *.
  - pose proof (comp_exec_sim op s) as Hs. unfold post, leaves in *.
    assert (steps (may_of op) s s') as [Hst _] by (destruct (comp_exec op s); by subst).
    eapply (ledger_steps_stake _ _ _ _ _ a stake) in Hst; [done| |done].
    destruct op; cbn; try tauto. intros ->. by eapply Hop.
  - pose proof (reg_exec_frame op s) as Hf. unfold leaves in Ho.
    destruct (reg_exec op s) as [? s0|? s0|]; [..|done]; subst s0; by destruct Hf as [-> _].
  - by rewrite E.
Qed.

(** C8: a stake comes back whole. After computing starts with a stake, whatever
    happens on the chain except a reclaim of that session leaves the stake in
    place, and the reclaim that ends it returns exactly that stake. *)
Theorem stake_returned (env1 env2 : BlockEnv) a stake s s1 t1 t2 s2 check r s3 :
  start_computing (BE := env1) a stake s = Ok tt s1 ->
  rtc (chain_step (fun op => forall b, op <> COReclaim a b)) (t1, s1) (t2, s2) ->
  reclaim (BE := env2) a check s2 = Ok r s3 ->
  r = (stake, 0) /\ stakes (comp s3) !! a = None.
Proof.
  intros Hstart Hr Hrec. apply start_computing_locks in Hstart.
  apply (chain_history_stake a stake) in Hr; [|done]. cbn [snd] in Hr.
  unfold reclaim, calc_final_stake, insert_session, mod_comp, comp_event, deposit_event in Hrec. mrun.
  by rewrite Hr, lookup_delete_eq.
Qed.

End stake.

Section budget_and_settlement.
Context {X : Type} `{QN : !QueueNotifyConfig X} `{PT : !PalletTopicsUnrouted X} `{CC : !ChainCodec}
  `{MC : !MqCodec} `{SR : !Sr25519} `{RC : !RegConfig} `{BE : !BlockEnv} `{FC : !FixedCrate}
  `{CF : !CompConfig X} `{HK : !CompHooks X} `{FR : !CompFrame X}.
Implicit Types s : Storage X.

(** A budget update on every branch: authorized origin, a nonce and a block
    above the last ones, at most twice the limit; on success the budget is the
    only tokenomic parameter that changes and the nonce can never be used again;
    on error nothing changes. *)
Theorem set_budget_per_block_spec origin nonce block budget s :
  let c := comp s in
  match tokenomic_parameters c with
  | Some tp =>
      if set_budget_origin origin && (budget_update_nonce c <? nonce) &&
         (last_budget_update_block c <? block) && (budget <=? (max_budget_limit c *[128] 2))
      then exists s', set_budget_per_block origin nonce block budget s = Ok tt s' /\
        tokenomic_parameters (comp s') = Some (with_budget budget tp) /\
        ledger (comp s') = ledger c /\ reg s' = reg s /\
        forall o b v, set_budget_per_block o nonce b v s' =
          Err (if set_budget_origin o then CompErr NonceIndexInvalid else BadOrigin) s'
      else exists e, set_budget_per_block origin nonce block budget s = Err e s
  | None => exists e, set_budget_per_block origin nonce block budget s = Err e s
  end.
Proof.
  cbn zeta. unfold set_budget_per_block, update_tokenomic_parameters, mod_comp, comp_event, deposit_event.
  destruct (set_budget_origin origin), (budget_update_nonce (comp s) <? nonce) eqn:E1,
    (last_budget_update_block (comp s) <? block) eqn:E2,
    (budget <=? (max_budget_limit (comp s) *[128] 2)) eqn:E3,
    (tokenomic_parameters (comp s)) as [tp|] eqn:E4; cbn [andb];
    mred; rewrite ?E1, ?E2; fold BUDGET_SAFE_MULTIPLIER in E3; rewrite ?E3, ?E4; try (by eexists).
  push_run. eexists. split; [reflexivity|]. split_and!; try done.
  intros o b v. destruct (set_budget_origin o); [|done]. cbn. by rewrite Z.ltb_irrefl.
Qed.

(** A settlement on every branch: for a worker that is not bound it does
    nothing; one that is not newer than the last update is dropped; otherwise
    the session's v, update time and total reward are set, and stay set even when
    the treasury withdrawal fails. *)
Theorem try_handle_settle_spec info ts s :
  match worker_bindings (comp s) !! st_pubkey info with
  | None => try_handle_settle info now_sec ts s = Ok tt s
  | Some a =>
      match sessions (comp s) !! a with
      | None => try_handle_settle info now_sec ts s = Err (CompErr SessionNotFound) s
      | Some si =>
          if ts <=? s_v_updated_at si then
            leaves (try_handle_settle info now_sec ts s)
              (put_events (events s ++
                [EvComp (SessionSettlementDropped a (st_v info) (st_payout info))]) s)
          else
            match from_bits (st_payout info), from_bits (st_treasury info) with
            | Some payout, Some _ => forall s', leaves (try_handle_settle info now_sec ts s) s' ->
                comp s' = put_sessions (<[ a := put_s_total_reward (s_total_reward si +[128] payout)
                  (put_s_v_updated_at now_sec (put_s_v (st_v info) si)) ]> (sessions (comp s))) (comp s)
            | _, _ => try_handle_settle info now_sec ts s = Panic
            end
      end
  end.
Proof.
  unfold try_handle_settle, stats_on_reward, insert_session, mod_comp, comp_event, deposit_event,
    withdraw_imbalance_from_subsidy_pool. mred.
  destruct (worker_bindings _ !! _) as [a|]; [|done].
  destruct (sessions _ !! _) as [si|]; [|done].
  destruct (ts <=? s_v_updated_at si); [done|].
  destruct (from_bits (st_payout info)) as [p|]; [|done]. cbn - [from_bits].
  destruct (from_bits (st_treasury info)) as [v|]; [|done]. intros s'.
  match goal with |- context [currency_withdraw ?x ?y ?st] =>
    pose proof (frame_withdraw x y st) as Hw; destruct (currency_withdraw x y st) as [i s1|e s1|]
  end; cbn; [|intros <-; by destruct Hw as [-> _]|done].
  pose proof (frame_treasury i s1) as Ht. destruct (on_treasury_settled i s1) as [[] s2|e s2|]; cbn;
    [..|done]; intros <-; cbn; destruct Ht as [-> _]; by destruct Hw as [-> _].
Qed.
End budget_and_settlement.

(** ** Panics *)

Section panics.
Context {X : Type} `{QN : !QueueNotifyConfig X} `{PT : !PalletTopicsUnrouted X} `{CC : !ChainCodec}
  `{MC : !MqCodec} `{SR : !Sr25519} `{RC : !RegConfig} `{BE : !BlockEnv} `{FC : !FixedCrate}
  `{CF : !CompConfig X} `{HK : !CompHooks X}.
Implicit Types s : Storage X.

(** Panics of what the pallet calls: the callbacks of the stake pool, the currency
    and the handler of the treasury *)
Definition callback_panics (op : comp_op) : Prop :=
  match op with
  | COForceStop _ _ | COStop _ => exists w orig slashed st, on_stopped w orig slashed st = Panic
  | COUnbind _ _ | COUnbindSession _ _ =>
      (exists w force st, on_unbound w force st = Panic) \/ exists w orig slashed st, on_stopped w orig slashed st = Panic
  | COUpdate _ e =>
      (exists st, on_reward (upd_settle e) st = Panic) \/ (exists v st, currency_withdraw computing_account v st = Panic) \/
      exists i st, on_treasury_settled i st = Panic
  | COWithdraw target value => exists st, currency_transfer computing_account target value st = Panic
  | _ => False
  end.

(** Everything that makes an entry point panic on a well-formed chain. *)
Inductive panic_cause s : comp_op -> Prop :=
  | PanicReport w a si e :
      worker_bindings (comp s) !! w = Some a -> sessions (comp s) !! a = Some si ->
      now_sec <= challenge_time_last (s_benchmark si) ->
      panic_cause s (COReport (Worker w) e)
  | PanicStart op a stake w wi tp p :
      (op = COStart a stake \/ exists o, op = COForceStart o a stake) ->
      session_bindings (comp s) !! a = Some w -> workers (reg s) !! w = Some wi ->
      w_initial_score wi = Some p -> tokenomic_parameters (comp s) = Some tp ->
      (minimal_stake tp p = None \/ ve tp stake p (w_confidence_level wi) = None) ->
      panic_cause s op
  | PanicTarget :
      pow_target (default 20 (expected_heartbeat_count (comp s))) (online_workers (comp s))
        ExpectedBlockTimeSec = None ->
      panic_cause s COFinalize
  | PanicSettle snd e info :
      info ∈ upd_settle e ->
      (from_bits (st_payout info) = None \/ from_bits (st_treasury info) = None) ->
      panic_cause s (COUpdate snd e)
  | PanicCallback op : callback_panics op -> panic_cause s op.

Lemma for_each_Panic {A} (l : list A) (f : A -> H X unit) s :
  for_each l f s = Panic -> exists x s1, x ∈ l /\ f x s1 = Panic.
Proof.
  revert s. induction l as [|x l IH]; intros s; cbn; [done|].
  intros [E|(? & s' & _ & E)]%bind_Panic; [exists x, s; split; [left|done]|].
  apply IH in E as (y & s1 & Hy & E). exists y, s1. split; [by right|done].
Qed.

Lemma settle_Panic info now ts s :
  settle_or_report now ts info s = Panic ->
  (from_bits (st_payout info) = None \/ from_bits (st_treasury info) = None) \/
  (exists v st, currency_withdraw computing_account v st = Panic) \/ exists i st, on_treasury_settled i st = Panic.
Proof.
  unfold settle_or_report, try_handle_settle, withdraw_imbalance_from_subsidy_pool, comp_event,
    deposit_event, insert_session, mod_comp, stats_on_reward. intros E.
  destruct (from_bits (st_payout info)) as [x|] eqn:E1; [|by left; left].
  destruct (from_bits (st_treasury info)) as [y|] eqn:E2; [|by left; right]. right. mrun; eauto.
Qed.

Lemma responsiveness_Panic st ce we w s : set_responsiveness st ce we w s <> Panic.
Proof.
  unfold set_responsiveness, push_comp, comp_event, deposit_event, insert_session, mod_comp. intros E.
  repeat first [progress push_run | progress mrun].
Qed.

Lemma stop_Panic a s : stop_computing a s = Panic -> exists w orig slashed st, on_stopped w orig slashed st = Panic.
Proof.
  unfold stop_computing, calc_final_stake, push_comp, comp_event, deposit_event, insert_session,
    mod_comp. intros E. repeat first [progress push_run | progress mrun].
  eauto.
Qed.

Lemma start_Panic t a stake s :
  ledger_inv t (workers (reg s)) (ledger (comp s)) -> start_computing a stake s = Panic ->
  panic_cause s (COStart a stake).
Proof.
  intros Hl E. unfold start_computing, tokenomic, push_comp, comp_event, deposit_event, mod_comp in E.
  repeat first [progress push_run | progress mrun].
  all: match goal with Hb : session_bindings _ !! _ = Some _ |- _ =>
         destruct (inv_bound _ _ _ Hl _ _ Hb) as [[? ?] [? ?]] end; cbn in *; simplify_eq.
  all: eapply PanicStart; eauto.
Qed.

Lemma unbind_session_Panic t a n s :
  ledger_inv t (workers (reg s)) (ledger (comp s)) -> unbind_session a n s = Panic -> callback_panics (COUnbindSession a n).
Proof.
  intros Hl E. unfold unbind_session, ensure_session_bound, comp_event, deposit_event, mod_comp in E. mrun.
  all: cbn; try (by left; eauto); try (by right; eapply stop_Panic).
  match goal with Hb : session_bindings _ !! _ = Some _ |- _ =>
    destruct (inv_bound _ _ _ Hl _ _ Hb) as [[? ?] _] end. cbn in *. congruence.
Qed.

Lemma report_Panic t snd e s :
  ledger_inv t (workers (reg s)) (ledger (comp s)) -> on_working_message_received snd e s = Panic ->
  panic_cause s (COReport snd e).
Proof.
  intros Hl E. unfold on_working_message_received, ensure_worker_bound, comp_event, deposit_event,
    insert_session, mod_comp in E. destruct snd; try (by mrun).
  destruct (worker_bindings (comp s) !! pubkey) as [a|] eqn:Ew; [|by mrun].
  assert (session_bindings (comp s) !! a = Some pubkey) as Hb by (by apply (inv_bij _ _ _ Hl)).
  destruct (inv_bound _ _ _ Hl _ _ Hb) as [[si Hsi] [wi Hwi]]. cbn in Hsi, Hwi.
  eapply PanicReport; [done..|]. mrun.
  match goal with H : benchmark_update _ _ _ _ = None |- _ => unfold benchmark_update in H end.
  case_match; b2p; [done|discriminate].
Qed.

Lemma finalize_Panic s : comp_on_finalize s = Panic -> panic_cause s COFinalize.
Proof.
  intros E. apply PanicTarget. unfold comp_on_finalize, heartbeat_challenge,
    update_tokenomic_parameters, push_comp, comp_event, deposit_event, mod_comp in E.
  repeat first [progress push_run | progress mrun]. done.
Qed.

Lemma update_Panic snd e s : comp_on_gk_message_received snd e s = Panic -> panic_cause s (COUpdate snd e).
Proof.
  unfold comp_on_gk_message_received. intros [E|(? & s0 & _ & E)]%bind_Panic; [by mrun|].
  destruct (update_is_empty e); [done|].
  apply bind_Panic in E as [E|(? & s1 & _ & E)];
    [by apply for_each_Panic in E as (? & ? & _ & E); apply responsiveness_Panic in E|].
  apply bind_Panic in E as [E|(? & s2 & _ & E)];
    [by apply for_each_Panic in E as (? & ? & _ & E); apply responsiveness_Panic in E|].
  apply bind_Panic in E as [E|(? & s3 & _ & E)]; [|apply PanicCallback; left; eauto].
  apply for_each_Panic in E as (info & s4 & Hin & E). apply settle_Panic in E as [E|E]; [by eapply PanicSettle|]. apply PanicCallback. by right.
Qed.

(** C31: on a well-formed chain the [expect]s about bound sessions and registered
    workers never fire. A panic comes only from a heartbeat no later than the
    last challenge time on record, from a fixed-point overflow in the tokenomic
    formulas or in a settled amount, from a heartbeat target out of range, or from
    a panic of what the entry point calls outside the pallet: a callback of the
    stake pool, the currency or the handler of the treasury. *)
Theorem computation_panics t op s :
  chain_inv (t, s) -> comp_exec op s = Panic -> panic_cause s op.
Proof.
  intros (_ & _ & Hl) E. cbn [fst snd] in *. destruct op; cbn [comp_exec] in E.
  4: { unfold force_start_computing, ensure_root in E. mrun. eapply start_Panic in E; [|exact Hl].
    inversion E as [|op a st w wi tp p Hop| | |op Hc]; [|done]. destruct Hop as [Hop|[? Hop]]; simplify_eq.
    eapply PanicStart; eauto. }
  9: by apply finalize_Panic.
  9: by eapply report_Panic.
  9: by apply update_Panic.
  1-8: unfold set_cool_down_expiration, unbind, force_heartbeat,
    force_stop_computing, update_tokenomic, set_heartbeat_paused, ensure_governance,
    set_budget_per_block, update_contract_root, ensure_session_bound, ensure_root, ensure_signed,
    update_tokenomic_parameters, push_comp, comp_event, deposit_event, mod_comp in E;
    repeat first [progress push_run | progress mrun]; apply PanicCallback;
    first [by eapply unbind_session_Panic in E | by eapply stop_Panic].
  - exfalso. unfold bind, insert_session, mod_comp, comp_event, deposit_event in E. mrun.
  - apply PanicCallback. by eapply unbind_session_Panic.
  - by eapply start_Panic.
  - apply PanicCallback. by eapply stop_Panic.
  - exfalso. unfold reclaim, calc_final_stake, insert_session, mod_comp, comp_event, deposit_event in E. mrun.
  - apply PanicCallback. by exists s.
Qed.
End panics.

(** ** The heartbeat target *)
Section target.
Context `{FC : !FixedCrate} `{FD : !FixedDoc}.

Lemma shiftr_max : Z.shiftr (2 ^ 256 - 1) 24 = 2 ^ 232 - 1.
Proof. reflexivity. Qed.

(** The fraction of the target range, as the code computes it. *)
Definition target_frac (tx n h : Z) : Z := Z.min (tx * 2 ^ 32) (2 * n * 2 ^ 32 / h) / n * 2 ^ 24 / 2 ^ 32.

Lemma target_frac_bounds tx n h :
  0 <= tx -> 0 < n -> 2 <= h ->
  0 <= target_frac tx n h <= 2 ^ 24 /\
  target_frac tx n h * n <= tx * 2 ^ 24 /\ target_frac tx n h * h <= 2 * 2 ^ 24.
Proof.
  intros Ht Hn Hh. unfold target_frac.
  set (m := 2 * n * 2 ^ 32 / h). set (t := Z.min (tx * 2 ^ 32) m). set (q := t / n).
  assert (0 <= m /\ m * h <= 2 * n * 2 ^ 32) as [Hm0 Hm].
  { split; [apply Z.div_pos; lia|]. rewrite Z.mul_comm. apply Z.mul_div_le. lia. }
  assert (0 <= q /\ q * n <= t) as [Hq0 Hq].
  { split; [apply Z.div_pos; lia|]. rewrite Z.mul_comm. apply Z.mul_div_le. lia. }
  assert (q * n <= tx * 2 ^ 32) by lia.
  assert (q * h <= 2 * 2 ^ 32).
  { apply (Z.mul_le_mono_pos_r _ _ n); [lia|]. nia. }
  assert (0 <= q * 2 ^ 24 / 2 ^ 32 /\ q * 2 ^ 24 / 2 ^ 32 * 2 ^ 32 <= q * 2 ^ 24) as [Hf0 Hf].
  { split; [apply Z.div_pos; lia|]. rewrite Z.mul_comm. apply Z.mul_div_le. lia. }
  set (f := q * 2 ^ 24 / 2 ^ 32) in *. repeat split; nia.
Qed.

Lemma pow_target_eq tx n secs :
  u32 tx -> 0 < n < 2 ^ 31 -> 0 < secs <= 1800 ->
  pow_target tx n secs = Some ((2 ^ 232 - 1) * target_frac tx n (3600 / secs)).
Proof.
  unfold in_width. intros Ht Hn Hs. unfold pow_target.
  rewrite (proj2 (Z.eqb_neq n 0)), (proj2 (Z.eqb_neq secs 0)) by lia.
  assert (2 <= 3600 / secs <= 3600) as Hh.
  { split; [apply Z.div_le_lower_bound; lia|]. apply Z.div_le_upper_bound; lia. }
  set (h := 3600 / secs) in *.
  pose proof (target_frac_bounds tx n h ltac:(lia) ltac:(lia) ltac:(lia)) as (Hf & _ & _).
  rewrite !u32f32_of_u32_doc by (unfold in_width; lia).
  rewrite u32f32_mul_doc, u32f32_div_doc, (proj2 (Z.eqb_neq (h * 2 ^ 32) 0)) by lia. cbn [mbind option_bind].
  replace (n * 2 ^ 32 * (2 * 2 ^ 32)) with (2 * n * 2 ^ 32 * 2 ^ 32) by lia. rewrite Z.div_mul by lia.
  rewrite (wrap_small 64 (2 * n * 2 ^ 32)) by (unfold in_width; lia).
  rewrite Z.div_mul_cancel_r by lia.
  assert (0 <= 2 * n * 2 ^ 32 / h < 2 ^ 64) as Hm.
  { split; [apply Z.div_pos; lia|]. apply Z.div_lt_upper_bound; lia. }
  rewrite (wrap_small 64 (2 * n * 2 ^ 32 / h)) by done.
  rewrite u32f32_div_doc, (proj2 (Z.eqb_neq (n * 2 ^ 32) 0)) by lia. cbn [mbind option_bind].
  rewrite Z.div_mul_cancel_r by lia.
  set (t := Z.min (tx * 2 ^ 32) (2 * n * 2 ^ 32 / h)) in *.
  assert (0 <= t / n <= 2 ^ 32) as Hq.
  { split; [apply Z.div_pos; lia|]. apply Z.div_le_upper_bound; [lia|].
    assert (2 * n * 2 ^ 32 / h <= n * 2 ^ 32) by (apply Z.div_le_upper_bound; nia). lia. }
  rewrite (wrap_small 64 (t / n)) by (unfold in_width; lia).
  rewrite u32f32_checked_shl_doc. cbn [mbind option_bind].
  change (24 <? 64) with true. cbn iota. cbn [mbind option_bind].
  rewrite wrap_small by (unfold in_width; lia). rewrite u32f32_to_u32_doc by (unfold in_width; lia).
  change (t / n * 2 ^ 24 / 2 ^ 32) with (target_frac tx n h). rewrite shiftr_max.
  apply fits_Some. nia.
Qed.

(** C38: for fewer than 2^31 online workers and a block time of at most half an
    hour, the heartbeat target exists and is a 256-bit number; the expected number
    of answers per block is at most the wanted count, and each worker answers at
    most twice an hour on average. *)
Theorem pow_target_bounds tx n secs :
  u32 tx -> 0 < n < 2 ^ 31 -> 0 < secs <= 1800 ->
  exists target, pow_target tx n secs = Some target /\ 0 <= target < 2 ^ 256 /\
    target * n <= tx * (2 ^ 256 - 1) /\ target * (3600 / secs) <= 2 * (2 ^ 256 - 1).
Proof.
  intros Ht Hn Hs. rewrite pow_target_eq by done. eexists. split; [done|]. unfold in_width in Ht.
  assert (2 <= 3600 / secs) by (apply Z.div_le_lower_bound; lia).
  destruct (target_frac_bounds tx n (3600 / secs)) as (? & ? & ?); [lia..|].
  set (f := target_frac _ _ _) in *. repeat split; nia.
Qed.

(** A heartbeat that is accepted replaces the challenge time and the iteration
    count, and sets the instant score to the normalised rate since the last
    challenge, at most 120% of the initial score; a restarted worker (fewer
    iterations) scores zero. It is refused only when the report is no later than
    the last challenge. *)
Theorem benchmark_update_spec now its ch b :
  u64 its -> u64 (iterations b) -> 0 <= p_init b <= 6000 ->
  match benchmark_update now its ch b with
  | None => now <= challenge_time_last b
  | Some b' =>
      challenge_time_last b < now /\ challenge_time_last b' = ch /\ iterations b' = its /\
      p_init b' = p_init b /\ 0 <= p_instant b' /\ 10 * p_instant b' <= 12 * p_init b /\
      (its <= iterations b -> p_instant b' = 0) /\
      (iterations b <= its -> (its - iterations b) * 6 < 2 ^ 32 ->
        p_instant b' = Z.min ((its - iterations b) * 6 / (now - challenge_time_last b))
                         (p_init b * 12 / 10))
  end.
Proof.
  unfold in_width. intros Hi Hib Hp. unfold benchmark_update.
  destruct (now <=? challenge_time_last b) eqn:E; b2p; [done|].
  destruct (its <? iterations b) eqn:E2; b2p; cbn.
  - rewrite (wrap_small 32 (p_init b * 12)) by (unfold in_width; lia).
    replace (its - its) with 0 by lia. change (0 *[64] 6) with 0. rewrite Z.div_0_l by lia.
    change (wrap 32 0) with 0. pose proof (Z.div_pos (p_init b * 12) 10).
    split_and!; try done; try lia.
  - rewrite (wrap_small 32 (p_init b * 12)) by (unfold in_width; lia).
    pose proof (wrap_range 32 (((its - iterations b) *[64] 6) / (now - challenge_time_last b)) ltac:(lia)) as Hr.
    pose proof (Z.div_pos (p_init b * 12) 10). pose proof (Z.mul_div_le (p_init b * 12) 10 ltac:(lia)).
    unfold in_width in Hr. split_and!; try done; try lia.
    + intros. replace (its - iterations b) with 0 by lia. change (0 *[64] 6) with 0.
      rewrite Z.div_0_l by lia. change (wrap 32 0) with 0. lia.
    + intros _ Hs. rewrite (wrap_small 64) by (unfold in_width; lia).
      rewrite (wrap_small 32); [done|]. split; [apply Z.div_pos; lia|].
      apply Z.div_lt_upper_bound; [lia|]. nia.
Qed.
End target.
