(* ===== verification/CompRuns.v ===== *)
(** * Concrete runs of the computation pallet

    A small chain in which worker 1 is registered after the gatekeeper launch,
    bound to the session account 500, started with 1000 PHA, stopped and
    reclaimed; the computation theorems at its states. *)

From S2P Require Import Prelude MqTypes SendQueue Storage MqPallet PalletMsg FixedPoint Instances Registry RegistryRuns Computation CompLedger CompRefine CompClaims.

#[local] Existing Instance default_notify.
#[local] Remove Hints toy_env : typeclass_instances.

#[global] Instance toy_comp_config : CompConfig unit := {|
  ExpectedBlockTimeSec := 12;
  MinInitP := 50;
  CheckWorkerRegisterTime := true;
  update_tokenomic_origin o := match o with Root => true | _ => false end;
  set_budget_origin o := match o with Root => true | _ => false end;
  set_contract_root_origin o := match o with Root => true | _ => false end;
  random_seed _ := 42;
  computing_account := 999;
  Imbalance := Z;
  currency_withdraw _ v := mret v;
  currency_transfer _ _ _ := mret tt;
  on_treasury_settled _ := mret tt;
|}.

#[global] Instance toy_hooks : CompHooks unit := {|
  on_reward _ := mret tt; on_unbound _ _ := mret tt; on_stopped _ _ _ := mret tt;
|}.

#[global] Instance toy_frame : CompFrame unit.
Proof. split; done. Qed.

(** Block [b], [12 b] seconds after the epoch. *)
Definition block (b : Z) : BlockEnv := {| now_ms := 12000 * b; block_number := b |}.

Definition toy_params : TokenomicParameters :=
  mkTokenomic (2 ^ 64) (2 ^ 64) (100 * 2 ^ 64) (30000 * 2 ^ 64) 0 0 0 0 10 0 0
    (13 * 2 ^ 64 / 10) (10 * 2 ^ 64) (2 ^ 64).

(** A history: at each block, an operation of one of the two pallets. *)
Definition run_at (s : Storage unit) (p : Z * (reg_op + comp_op)) : Storage unit :=
  match p.2 with
  | inl op => state_of s (reg_exec (BE := block p.1) op s)
  | inr op => state_of s (comp_exec (BE := block p.1) op s)
  end.

Definition ops_until_start : list (Z * (reg_op + comp_op)) :=
  [(1, inl (ROForceRegister Root 2 12 None)); (1, inl (RORegisterGk Root 2));
   (1, inl (ROMessage (Worker 2) (MasterPubkey 77)));
   (5, inl (ROForceRegister Root 1 11 (Some 3)));
   (6, inl (ROMessage (Worker 1) (BenchReport 60000 1200)));
   (6, inr (COTokenomic Root toy_params)); (6, inr COFinalize); (7, inr (COBind 500 1))].

Definition bound_chain : Storage unit := Eval vm_compute in foldl run_at (empty_chain tt) ops_until_start.
Definition stake_1000 : Z := 1000 * PHA.
Definition started_chain : Storage unit := Eval vm_compute in run_at bound_chain (8, inr (COStart 500 stake_1000)).
Definition stopped_chain : Storage unit := Eval vm_compute in run_at started_chain (9, inr (COStop 500)).

Lemma bound_chain_eq : bound_chain = foldl run_at (empty_chain tt) ops_until_start.
Proof. vm_compute. reflexivity. Qed.
Lemma started_chain_eq : started_chain = run_at bound_chain (8, inr (COStart 500 stake_1000)).
Proof. vm_compute. reflexivity. Qed.
Lemma stopped_chain_eq : stopped_chain = run_at started_chain (9, inr (COStop 500)).
Proof. vm_compute. reflexivity. Qed.

Example scenario :
  life_of (sessions (comp started_chain)) 500 = Some WorkerIdle /\
  life_of (sessions (comp stopped_chain)) 500 = Some WorkerCoolingDown /\
  online_workers (comp started_chain) = 1 /\ online_workers (comp stopped_chain) = 0 /\
  stakes (comp stopped_chain) !! 500 = Some stake_1000.
Proof. vm_compute. repeat split. Qed.

(** The empty chain is well formed, and histories of [run_at] are histories. *)
Lemma chain_inv_empty : chain_inv (X := unit) (0, empty_chain tt).
Proof.
  split; [cbn; lia|]. split; [apply reg_inv_empty|]. split; cbn.
  - intros a w. by rewrite !lookup_empty.
  - intros a w. by rewrite lookup_empty.
  - intros a si. by rewrite lookup_empty.
  - intros a. rewrite lookup_empty. split; [by intros []|]. intros (si & Hsi & _).
    by rewrite lookup_empty in Hsi.
  - by vm_compute.
Qed.

Lemma leaves_state_of {A} (o : outcome (Storage unit) DispatchError A) s :
  o <> Panic -> leaves o (state_of s o).
Proof. by destruct o. Qed.

Definition runs_ok (s : Storage unit) (p : Z * (reg_op + comp_op)) : Prop :=
  match p.2 with
  | inl op => reg_exec (BE := block p.1) op s <> Panic
  | inr op => comp_exec (BE := block p.1) op s <> Panic
  end.

Lemma run_at_step allowed b s p :
  12000 * b <= 12000 * p.1 < 2 ^ 64 -> runs_ok s p ->
  match p.2 with inl _ => True | inr op => allowed op end ->
  chain_step allowed (12000 * b, s) (12000 * p.1, run_at s p).
Proof.
  intros Ht Hok Hal. unfold run_at, runs_ok in *. destruct p as [b' [op|op]]; cbn [fst snd] in *.
  - apply (StepReg allowed (block b') op); [done|]. by apply leaves_state_of.
  - apply (StepComp allowed (block b') op); [done|done|]. by apply leaves_state_of.
Qed.

Ltac run_step b s p := apply (run_at_step _ b s p); [cbn; lia|vm_compute; discriminate|done].

Fixpoint run_ok (b : Z) (s : Storage unit) (l : list (Z * (reg_op + comp_op))) : Prop :=
  match l with
  | [] => True
  | p :: l' => (b <= p.1 /\ p.1 < 2 ^ 50) /\ runs_ok s p /\ run_ok p.1 (run_at s p) l'
  end.

Lemma run_history b s l :
  run_ok b s l ->
  rtc (chain_step (fun _ => True)) (12000 * b, s) (12000 * foldl (fun _ p => p.1) b l, foldl run_at s l).
Proof.
  revert b s. induction l as [|p l IH]; intros b s; cbn [run_ok foldl]; [by intros _|].
  intros (Hb & Hp & Hl). eapply rtc_l; [|by apply IH].
  apply run_at_step; [lia|done|by destruct p as [? []]].
Qed.

Lemma bound_chain_history :
  rtc (chain_step (fun _ => True)) (12000 * 0, empty_chain tt) (12000 * 7, bound_chain).
Proof.
  rewrite bound_chain_eq. apply (run_history 0 (empty_chain tt) ops_until_start). vm_compute. repeat split; discriminate.
Qed.

Lemma chain_inv_bound : chain_inv (12000 * 7, bound_chain).
Proof. apply (chain_history_inv _ _ _ chain_inv_empty bound_chain_history). Qed.

Lemma started_step : chain_step (fun _ => True) (12000 * 7, bound_chain) (12000 * 8, started_chain).
Proof. rewrite started_chain_eq. run_step 7 bound_chain (8, @inr reg_op _ (COStart 500 stake_1000)). Qed.

Lemma stopped_step : chain_step (fun op => forall b, op <> COReclaim 500 b)
  (12000 * 8, started_chain) (12000 * 9, stopped_chain).
Proof. rewrite stopped_chain_eq. run_step 8 started_chain (9, @inr reg_op _ (COStop 500)). Qed.

Lemma chain_inv_started : chain_inv (12000 * 8, started_chain).
Proof. exact (chain_step_inv _ _ _ chain_inv_bound started_step). Qed.

Lemma chain_inv_stopped : chain_inv (12000 * 9, stopped_chain).
Proof. exact (chain_step_inv _ _ _ chain_inv_started stopped_step). Qed.

(** ** The theorems at this chain *)

Lemma computation_invariant_witness :
  rtc (chain_step (fun _ => True)) (12000 * 7, bound_chain) (12000 * 8, started_chain) /\
  session_bindings (comp started_chain) !! 500 = Some 1 /\
  worker_bindings (comp started_chain) !! 1 = Some 500.
Proof.
  assert (rtc (chain_step (fun _ => True)) (12000 * 7, bound_chain) (12000 * 8, started_chain)) as Hr
    by apply rtc_once, started_step.
  split; [exact Hr|]. pose proof (computation_invariant _ _ chain_inv_bound Hr) as HI.
  assert (session_bindings (comp started_chain) !! 500 = Some 1) as E by (vm_compute; reflexivity).
  split; [exact E|]. cbn [fst snd] in HI.
  pose proof (inv_bij _ _ _ HI) as Hb. unfold inverse in Hb. cbn [ledger l_bound l_owner] in Hb.
  by apply Hb.
Defined.

#[local] Existing Instance toy_env.

Lemma computation_refines_ledger_witness :
  exists s', comp_exec (BE := block 9) (COStop 500) started_chain = Ok tt s' /\ reg s' = reg started_chain.
Proof.
  destruct (comp_exec (BE := block 9) (COStop 500) started_chain) as [[] s'|e s'|] eqn:E;
    [|vm_compute in E; discriminate E..].
  exists s'. split; [reflexivity|].
  apply (computation_refines_ledger (BE := block 9) (COStop 500) started_chain s'). by rewrite E.
Defined.

Lemma session_lifecycle_witness :
  rtc life (Some WorkerIdle) (Some WorkerCoolingDown) /\
  life_of (sessions (comp started_chain)) 500 = Some WorkerIdle.
Proof.
  pose proof (session_lifecycle (BE := block 9) (COStop 500) (12000 * 8) started_chain stopped_chain 500
    chain_inv_started) as H.
  split; [|vm_compute; reflexivity].
  replace (Some WorkerIdle) with (life_of (sessions (comp started_chain)) 500) by (vm_compute; reflexivity).
  replace (Some WorkerCoolingDown) with (life_of (sessions (comp stopped_chain)) 500)
    by (vm_compute; reflexivity).
  apply H; [cbn; lia|]. vm_compute. reflexivity.
Defined.

Lemma reclaim_spec_witness :
  exists s', reclaim (BE := block 10) 500 true stopped_chain = Ok (stake_1000, 0) s'.
Proof.
  pose proof (reclaim_spec (BE := block 10) (12000 * 9) stopped_chain 500 true chain_inv_stopped
    ltac:(cbn; lia)) as H.
  destruct (sessions (comp stopped_chain) !! 500) as [si|] eqn:E; [|vm_compute in E; discriminate E].
  rewrite bool_decide_eq_true_2 in H.
  - destruct H as (stake & s' & Hst & Hr & _). exists s'.
    assert (stake = stake_1000) as <-; [|exact Hr].
    assert (stakes (comp stopped_chain) !! 500 = Some stake_1000) by (vm_compute; reflexivity). congruence.
  - vm_compute in E. injection E as <-. split; [done|]. intros _. vm_compute. discriminate.
Defined.

Lemma stake_returned_witness :
  exists s3, reclaim (BE := block 10) 500 true stopped_chain = Ok (stake_1000, 0) s3 /\
    stakes (comp s3) !! 500 = None.
Proof.
  destruct (reclaim (BE := block 10) 500 true stopped_chain) as [r s3|e s3|] eqn:E;
    [|vm_compute in E; discriminate E..].
  destruct (stake_returned (block 8) (block 10) 500 stake_1000 bound_chain started_chain (12000 * 8)
    (12000 * 9) stopped_chain true r s3) as [-> H];
    [vm_compute; reflexivity|apply rtc_once, stopped_step|exact E|by exists s3].
Defined.

Lemma set_budget_per_block_spec_witness :
  exists s', set_budget_per_block Root 1 50 1000 started_chain = Ok tt s'.
Proof.
  pose proof (set_budget_per_block_spec Root 1 50 1000 started_chain) as H.
  assert (tokenomic_parameters (comp started_chain) = Some toy_params) as E by (vm_compute; reflexivity).
  cbn zeta in H. rewrite E in H. vm_compute andb in H. destruct H as (s' & Hs & _). by exists s'.
Defined.

(** 7 as the new v, a payout of 1 PHA, nothing for the treasury. *)
Definition settle_1 : SettleInfo := mkSettle 1 (7 * 2 ^ 64) (2 ^ 64) 0.

Lemma try_handle_settle_spec_witness :
  exists s', try_handle_settle settle_1 108 100 started_chain = Ok tt s' /\
    s_total_reward <$> sessions (comp s') !! 500 = Some PHA.
Proof.
  pose proof (try_handle_settle_spec (BE := block 9) settle_1 100 started_chain) as H.
  change (@now_sec (block 9)) with 108 in H.
  destruct (try_handle_settle settle_1 108 100 started_chain) as [[] s'|e s'|] eqn:E;
    [|vm_compute in E; discriminate E..].
  exists s'. split; [reflexivity|]. cbn in H. specialize (H s' eq_refl). rewrite H.
  vm_compute. reflexivity.
Defined.

(** A heartbeat whose challenge time lies ahead of the clock. *)
Definition ahead_chain : Storage unit := Eval vm_compute in
  run_at started_chain (9, inr (COReport (Worker 1) (Heartbeat 0 8 200000 10))).

Lemma chain_inv_ahead : chain_inv (12000 * 9, ahead_chain).
Proof.
  apply (chain_step_inv (fun _ => True) _ _ chain_inv_started).
  assert (ahead_chain = run_at started_chain (9, inr (COReport (Worker 1) (Heartbeat 0 8 200000 10)))) as ->
    by (vm_compute; reflexivity).
  run_step 8 started_chain (9, @inr reg_op _ (COReport (Worker 1) (Heartbeat 0 8 200000 10))).
Qed.

Lemma computation_panics_witness :
  comp_exec (BE := block 10) (COReport (Worker 1) (Heartbeat 0 9 120000 20)) ahead_chain = Panic /\
  panic_cause (BE := block 10) ahead_chain (COReport (Worker 1) (Heartbeat 0 9 120000 20)).
Proof.
  assert (comp_exec (BE := block 10) (COReport (Worker 1) (Heartbeat 0 9 120000 20)) ahead_chain = Panic)
    as E by (vm_compute; reflexivity).
  split; [exact E|]. exact (computation_panics (12000 * 9) _ ahead_chain chain_inv_ahead E).
Defined.

Lemma pow_target_bounds_witness :
  exists target, pow_target 20 1000 12 = Some target /\ target * 1000 <= 20 * (2 ^ 256 - 1).
Proof.
  destruct (pow_target_bounds 20 1000 12) as (target & E & _ & H & _); [by split|lia|lia|].
  exists target. split; [exact E|exact H].
Defined.

Definition bench_0 : Benchmark := mkBenchmark 1000 0 100 0 96.

Lemma benchmark_update_spec_witness :
  benchmark_update 108 400 100 bench_0 = Some (mkBenchmark 1000 150 400 0 100) /\ 10 * 150 <= 12 * 1000.
Proof.
  split; [vm_compute; reflexivity|].
  pose proof (benchmark_update_spec 108 400 100 bench_0 ltac:(by split) ltac:(by split) ltac:(cbn; lia)) as H.
  destruct (benchmark_update 108 400 100 bench_0) as [b|] eqn:E; [|vm_compute in E; discriminate E].
  vm_compute in E. injection E as <-. by destruct H as (_ & _ & _ & _ & _ & H & _).
Defined.

Lemma balance_roundtrip_witness :
  exists f, to_fixed (1000000000 * PHA) = Some f /\ from_fixed f = Some (1000000000 * PHA).
Proof.
  pose proof (balance_roundtrip (1000000000 * PHA) ltac:(by split)) as H.
  destruct (to_fixed (1000000000 * PHA)) as [f|] eqn:E; [|vm_compute in E; discriminate E].
  destruct H as (_ & b' & Hf & _ & Hd). exists f. split; [reflexivity|].
  rewrite Hf, Hd; [reflexivity|]. by exists 1000000000.
Defined.
