(* ===== verification/Routing.v ===== *)
(** * The runtime's message routing (standalone/runtime/src/msg_routing.rs)

    [MessageRouteConfig] is the runtime's [QueueNotifyConfig]: it passes a message
    to the pallet whose payload type is bound to its topic. The handlers push
    messages themselves, through the queue that calls the routing again;
    [message_route n] is the routing down to [n] levels of that recursion. One
    level is enough: what the handlers push is never routed. *)

From S2P Require Import Prelude MqTypes Storage MqPallet PalletMsg FixedPoint Registry Phat Computation CompRefine.

(** SCALE decoding of the payloads *)
Class RouteCodec := {
  dec_registry : bytes -> option RegistryEvent;
  dec_registry_gk : bytes -> option GatekeeperRegistryEvent;
  dec_working_update : bytes -> option WorkingInfoUpdateEvent;
  dec_working_report : bytes -> option WorkingReportEvent;
  dec_cluster_report : bytes -> option WorkerClusterReport;
  dec_registry_cluster : bytes -> option ClusterRegistryEvent;
  dec_registry_contract : bytes -> option ContractRegistryEvent;
}.

Section routing.
Context {X : Type} `{CC : !ChainCodec} `{BE : !BlockEnv} `{FC : !FixedCrate} `{CF : !CompConfig X} `{HK : !CompHooks X}
  `{RO : !RouteCodec}.

(** [topic] is [Msg::topic()]. *)
Definition try_dispatch {Msg} (topic : Path) (decode : bytes -> option Msg) (func : SenderId -> Msg -> H X unit)
    (m : Message) : H X unit :=
  if bool_decide (topic_path (destination m) = topic) then
    msg ← ok_or (decode (payload m)) OtherError;
    func (sender m) msg
  else mret tt.

Definition route_handlers {QN : QueueNotifyConfig X} (m : Message) : H X unit :=
  try_dispatch TOPIC_REGISTRY dec_registry reg_on_message_received m;;
  try_dispatch TOPIC_REGISTRY_GK dec_registry_gk reg_on_gk_message_received m;;
  try_dispatch TOPIC_WORKING_UPDATE dec_working_update comp_on_gk_message_received m;;
  try_dispatch TOPIC_WORKING_REPORT dec_working_report on_working_message_received m;;
  try_dispatch TOPIC_CLUSTER_REPORT dec_cluster_report on_worker_cluster_message_received m;;
  try_dispatch TOPIC_REGISTRY_CLUSTER dec_registry_cluster on_cluster_message_received m;;
  try_dispatch TOPIC_REGISTRY_CONTRACT dec_registry_contract on_contract_message_received m.

Fixpoint message_route (n : nat) : QueueNotifyConfig X :=
  match n with
  | O => default_notify X
  | S n => {|
      should_push_message m := topic_is_offchain (destination m);
      on_message_received m := route_handlers (QN := message_route n) m;
    |}
  end.

(** ** What the pallets push is not routed. *)

Definition routed_topics : list Path :=
  [TOPIC_REGISTRY; TOPIC_REGISTRY_GK; TOPIC_WORKING_UPDATE; TOPIC_WORKING_REPORT; TOPIC_CLUSTER_REPORT;
   TOPIC_REGISTRY_CLUSTER; TOPIC_REGISTRY_CONTRACT].

Lemma off_chain_not_routed t : off_chain_topic t -> t ∉ routed_topics.
Proof.
  intros [Ht|[t' ->]] Hr.
  - assert (forallb (fun t => negb (bool_decide (t ∈ routed_topics))) pallet_topics = true) as Hall by (vm_compute; reflexivity).
    rewrite forallb_forall in Hall. apply list_elem_of_In, Hall in Ht. b2p. done.
  - assert (forall t, t ∈ routed_topics -> take (length COMMAND_PREFIX) t <> COMMAND_PREFIX) as Hp.
    { intros t Ht E. unfold routed_topics in Ht. rewrite !elem_of_cons, elem_of_nil in Ht.
      destruct Ht as [->|[->|[->|[->|[->|[->|[->|[]]]]]]]]; vm_compute in E; discriminate E. }
    apply (Hp _ Hr). by rewrite take_app_length.
Qed.

Lemma try_dispatch_other {Msg} topic (dec : bytes -> option Msg) func m s :
  topic_path (destination m) <> topic -> try_dispatch topic dec func m s = Ok tt s.
Proof. intros Ht. unfold try_dispatch. by rewrite bool_decide_false. Qed.

#[export] Instance message_route_unrouted n : PalletTopicsUnrouted X (QueueNotifyConfig0 := message_route n).
Proof.
  destruct n as [|n]; [apply default_notify_unrouted|]. split.
  - intros m Hm s. cbn. unfold route_handlers, mbind, M_bind. apply off_chain_not_routed in Hm.
    rewrite !try_dispatch_other; [done|..]; intros E; apply Hm; rewrite E; set_solver.
  - intros m Hm. cbn. destruct m as [? [t] ?]. by apply off_chain_topic_pushed.
Qed.
End routing.

(** ** Handlers do not depend on the routing

    Two runs are equal when they do the same on every storage. *)

Definition run_eq {S E A} (m m' : M S E A) : Prop := forall s, m s = m' s.
#[local] Infix "≐" := run_eq (at level 70).

#[export] Instance run_eq_equiv {S E A} : Equivalence (@run_eq S E A).
Proof. split; [done|by intros m m' H s|by intros m m' m'' H1 H2 s; rewrite H1]. Qed.
#[export] Instance bind_run_eq {S E A B} :
  Proper (pointwise_relation A run_eq ==> run_eq ==> run_eq) (mbind (M := M S E) (A := A) (B := B)).
Proof. intros f f' Hf m m' Hm s. unfold mbind, M_bind. rewrite Hm. destruct (m' s); [apply Hf|done|done]. Qed.
Lemma for_each_run_eq {S E A} (l : list A) (f f' : A -> M S E unit) : (forall a, f a ≐ f' a) -> for_each l f ≐ for_each l f'.
Proof. intros Hf. induction l as [|a l IH]; [done|]. cbn. apply bind_run_eq; [intros _; exact IH|apply Hf]. Qed.

Create HintDb run_eq discriminated.
(** Walks through two runs of the same shape. *)
Ltac run_eqs :=
  repeat first
    [ reflexivity
    | solve [eauto 3 with run_eq]
    | lazymatch goal with
      | |- run_eq (mbind _ _) (mbind _ _) => apply bind_run_eq; [intros ?|]
      | |- run_eq (for_each _ _) (for_each _ _) => apply for_each_run_eq; intros ?
      | |- run_eq (match ?x with _ => _ end) _ => destruct x
      end ].

Section independent.
Context {X : Type} `{CC : !ChainCodec} `{BE : !BlockEnv} `{FC : !FixedCrate} `{CF : !CompConfig X} `{HK : !CompHooks X}
  `{RO : !RouteCodec} (Q1 Q2 : QueueNotifyConfig X) `{P1 : !PalletTopicsUnrouted X (QueueNotifyConfig0 := Q1)}
  `{P2 : !PalletTopicsUnrouted X (QueueNotifyConfig0 := Q2)}.

Lemma push_system_eq o e : push_system (QueueNotifyConfig0 := Q1) o e ≐ push_system (QueueNotifyConfig0 := Q2) o e.
Proof. intros s. by rewrite !push_system_run. Qed.
Lemma push_gk_launch_eq o e : push_gk_launch (QueueNotifyConfig0 := Q1) o e ≐ push_gk_launch (QueueNotifyConfig0 := Q2) o e.
Proof. intros s. by rewrite !push_gk_launch_run. Qed.
#[local] Hint Resolve push_system_eq push_gk_launch_eq : run_eq.

Lemma reg_message_eq o e : reg_on_message_received (QN := Q1) o e ≐ reg_on_message_received (QN := Q2) o e.
Proof.
  unfold reg_on_message_received, on_bench_report, on_master_pubkey, on_gatekeeper_launched. run_eqs.
Qed.
Lemma reg_gk_message_eq o e : reg_on_gk_message_received (QN := Q1) o e ≐ reg_on_gk_message_received (QN := Q2) o e.
Proof. unfold reg_on_gk_message_received. run_eqs. Qed.

Lemma responsiveness_eq st ce we w : set_responsiveness (QN := Q1) st ce we w ≐ set_responsiveness (QN := Q2) st ce we w.
Proof. unfold set_responsiveness, push_comp. run_eqs. Qed.
#[local] Hint Resolve responsiveness_eq : run_eq.
Lemma comp_gk_message_eq o e : comp_on_gk_message_received (QN := Q1) o e ≐ comp_on_gk_message_received (QN := Q2) o e.
Proof. unfold comp_on_gk_message_received. run_eqs. Qed.

Lemma try_dispatch_eq {Msg} topic (dec : bytes -> option Msg) f g m : (forall o e, f o e ≐ g o e) ->
  try_dispatch (X := X) topic dec f m ≐ try_dispatch topic dec g m.
Proof. intros Hfg. unfold try_dispatch. run_eqs. Qed.

(** One level of routing does what any number of levels does. *)
Lemma route_handlers_eq m : route_handlers (QN := Q1) m ≐ route_handlers (QN := Q2) m.
Proof.
  unfold route_handlers. repeat (apply bind_run_eq; [intros _|]); try reflexivity; apply try_dispatch_eq; intros o e.
  - apply comp_gk_message_eq.
  - apply reg_gk_message_eq.
  - apply reg_message_eq.
Qed.
End independent.

(** ** Where a message ends up *)

Section delivery.
Context {X : Type} `{MC : !MqCodec} `{SR : !Sr25519} `{CC : !ChainCodec} `{BE : !BlockEnv} `{FC : !FixedCrate}
  `{CF : !CompConfig X} `{HK : !CompHooks X} `{FR : !CompFrame X} `{RO : !RouteCodec}.
Implicit Types s : Storage X.

Definition decoded {Msg} (decode : bytes -> option Msg) (func : SenderId -> Msg -> H X unit) (m : Message) : H X unit :=
  msg ← ok_or (decode (payload m)) OtherError; func (sender m) msg.

(** The one handler of a topic; what it pushes goes off chain. *)
Definition handler_of (m : Message) : H X unit :=
  let QN := default_notify X in
  let topic := topic_path (destination m) in
  if bool_decide (topic = TOPIC_REGISTRY) then decoded dec_registry reg_on_message_received m
  else if bool_decide (topic = TOPIC_REGISTRY_GK) then decoded dec_registry_gk reg_on_gk_message_received m
  else if bool_decide (topic = TOPIC_WORKING_UPDATE) then decoded dec_working_update comp_on_gk_message_received m
  else if bool_decide (topic = TOPIC_WORKING_REPORT) then decoded dec_working_report on_working_message_received m
  else if bool_decide (topic = TOPIC_CLUSTER_REPORT) then decoded dec_cluster_report on_worker_cluster_message_received m
  else if bool_decide (topic = TOPIC_REGISTRY_CLUSTER) then decoded dec_registry_cluster on_cluster_message_received m
  else if bool_decide (topic = TOPIC_REGISTRY_CONTRACT) then decoded dec_registry_contract on_contract_message_received m
  else mret tt.

Lemma route_handlers_topic m s : route_handlers (QN := default_notify X) m s = handler_of m s.
Proof.
  unfold route_handlers, handler_of, try_dispatch, decoded. set (t := topic_path (destination m)). clearbody t.
  repeat match goal with
  | |- context [if bool_decide (t = ?T) then _ else _] =>
      destruct (decide (t = T)) as [->|?];
      [repeat match goal with |- context [bool_decide (?a = ?b)] =>
         let v := eval vm_compute in (bool_decide (a = b)) in change (bool_decide (a = b)) with v end; cbv iota
      |rewrite !(bool_decide_false (t = T)) by done]
  end.
  all: unfold mbind, M_bind, mret, M_ret; try done.
  all: match goal with |- _ = ?o => by destruct o as [[] ?|?|] end.
Qed.

(** ** The routing leaves the ingress counters alone. *)

Definition same_ingress s s' : Prop := offchain_ingress (mq s') = offchain_ingress (mq s).
#[local] Instance same_ingress_preorder : PreOrder same_ingress.
Proof. split; unfold same_ingress; [done|congruence]. Qed.

Lemma ingress_frames {A} (m : H X A) : frames m -> moves same_ingress m.
Proof. intros Hm s. specialize (Hm s). unfold same_ingress. destruct (m s); [..|done]; by destruct Hm as (_ & _ & ->). Qed.
Lemma ingress_reg f : moves same_ingress (mod_reg (X := X) f).
Proof. by intros s. Qed.
Lemma ingress_comp f : moves same_ingress (mod_comp (X := X) f).
Proof. by intros s. Qed.
Lemma ingress_phat f : moves same_ingress (mod_phat (X := X) f).
Proof. by intros s. Qed.
Lemma ingress_event e : moves same_ingress (deposit_event (X := X) e).
Proof. by intros s. Qed.
#[local] Existing Instance default_notify.
Lemma ingress_system o e : moves same_ingress (push_system (X := X) o e).
Proof. intros s. by rewrite push_system_run. Qed.
Lemma ingress_launch o e : moves same_ingress (push_gk_launch (X := X) o e).
Proof. intros s. by rewrite push_gk_launch_run. Qed.
#[local] Hint Resolve ingress_reg ingress_comp ingress_phat ingress_event ingress_system ingress_launch ingress_frames
  frame_reward frame_withdraw frame_treasury : moves.

Lemma ingress_bound w : moves same_ingress (ensure_worker_bound (X := X) w).
Proof. unfold ensure_worker_bound. moves. Qed.
Lemma ingress_settle now ts i : moves same_ingress (settle_or_report (X := X) now ts i).
Proof.
  assert (moves same_ingress (try_handle_settle i now ts)) as Ht.
  { unfold try_handle_settle, withdraw_imbalance_from_subsidy_pool. moves. }
  intros s. specialize (Ht s). unfold settle_or_report. by destruct (try_handle_settle i now ts s).
Qed.
#[local] Hint Resolve ingress_bound ingress_settle : moves.

Lemma handler_of_ingress m : moves same_ingress (handler_of m).
Proof.
  unfold handler_of, decoded, reg_on_message_received, on_bench_report, on_master_pubkey, on_gatekeeper_launched,
    reg_on_gk_message_received, comp_on_gk_message_received, on_working_message_received, on_worker_cluster_message_received,
    on_cluster_message_received, on_contract_message_received, set_responsiveness. moves.
Qed.

Lemma message_route_run n m s : on_message_received (QueueNotifyConfig := message_route (S n)) m s = handler_of m s.
Proof.
  rewrite <- route_handlers_topic. cbn [message_route on_message_received].
  apply (route_handlers_eq (message_route n) (default_notify X)).
Qed.

(** The queue asks this of the runtime: its theorems hold of it. *)
#[export] Instance message_route_keeps n : NotifyKeepsIngress X (QueueNotifyConfig0 := message_route n).
Proof.
  destruct n as [|n]; [apply default_notify_keeps|]. intros m s. rewrite message_route_run. apply (handler_of_ingress m s).
Qed.

(** C28: a message that passes the checks of the queue is handled by the one
    pallet its topic is bound to, and by no other; an error of the handler keeps
    what it wrote; the message goes on to the off-chain subscribers exactly when
    its topic is an off-chain one. However deep the routing is followed, what
    handlers push is never routed again. The sender's counter is advanced by
    one, and no other. *)
Theorem routed_delivery n who sm s : sync_guard (Signed who) sm s = None ->
  sync_offchain_message (QueueNotifyConfig0 := message_route (S n)) (Signed who) sm s =
    match handler_of (message sm) (counted sm s) with
    | Ok _ s' | Err _ s' => Ok tt (if topic_is_offchain (destination (message sm)) then emit (message sm) s' else s')
    | Panic => Panic
    end /\
  forall s', sync_offchain_message (QueueNotifyConfig0 := message_route (S n)) (Signed who) sm s = Ok tt s' ->
    forall o, ingress_of s' o = if decide (o = sender (message sm)) then ingress_of s o +[64] 1 else ingress_of s o.
Proof.
  intros Hg. assert (sync_offchain_message (QueueNotifyConfig0 := message_route (S n)) (Signed who) sm s =
    dispatch_message (QueueNotifyConfig0 := message_route (S n)) (message sm) (counted sm s)) as E.
  { unfold sync_guard in Hg. unfold sync_offchain_message, ensure_signed.
    destruct (is_offchain (sender (message sm))) eqn:E1; [|done].
    destruct (topic_is_valid (destination (message sm))) eqn:E2; [|done].
    destruct (sequence sm =? ingress_of s (sender (message sm))) eqn:E3; [|done].
    cbn [negb]. mred. rewrite E3. mred.
    destruct (check_message_pure (X := X) sm s) as [E|[e E]]; rewrite E in Hg |- *; done. }
  split.
  - rewrite E. unfold dispatch_message, notify_subscribers, mbind, M_bind. rewrite message_route_run.
    cbn [should_push_message message_route]. destruct (handler_of (message sm) (counted sm s)); [..|done];
      by destruct (topic_is_offchain _).
  - intros s' H o. apply (sync_Ok_ingress (QueueNotifyConfig0 := message_route (S n))) in H as (_ & _ & Hi).
    unfold ingress_of. rewrite Hi, lookup_insert. repeat case_decide; try done; by subst.
Qed.
End delivery.
