(* ===== verification/PhatRuns.v ===== *)
(** * Concrete runs of the phat pallets, the anchor and the routing

    A currency of 1000 units between user 1 and the tokenomic pallet's account,
    three registered workers in a cluster, an anchor with a queue of three, and a
    signed report routed to the registry. *)

From S2P Require Import Prelude MqTypes SendQueue Storage MqPallet PalletMsg FixedPoint Instances Registry RegistryRuns Phat PhatClusters PhatStakes Anchor AnchorQueue Computation CompLedger CompRefine CompClaims CompRuns Routing.

(** ** Clusters and stakes *)
Section phat_runs.
#[local] Existing Instance default_notify.

(** What account 77 holds; user 1 has the rest. *)
Definition toy_held (x : Z) : Z := Z.max 0 (Z.min 1000 x).
Definition toy_free (x : Z) (a : Account) : Balance :=
  if a =? 77 then toy_held x else if a =? 1 then 1000 - toy_held x else 0.
Definition toy_move (a b : Account) (v : Balance) (x : Z) : option Z :=
  if (v =? 0) || (a =? b) then Some x
  else if (a =? 1) && (b =? 77) && (0 <=? v) && (v <=? 1000 - toy_held x) then Some (toy_held x + v)
  else if (a =? 77) && (b =? 1) && (0 <=? v) && (v <=? toy_held x) then Some (toy_held x - v)
  else None.

#[local] Instance toy_phat : PhatConfig Z := {|
  InkCodeSizeLimit := 1000; SidevmCodeSizeLimit := 2000;
  phat_transfer_keep_alive := toy_move; phat_transfer_allow_death := toy_move; phat_tok_account := 77;
  blake2_id b := foldr (fun x acc => (x + 257 * acc) mod 2 ^ 64) 1000 b;
  id_bytes i := [i]; hex_encode b := b;
  enc_cluster_event _ := [1]; enc_cluster_op _ := [2]; enc_contract_op _ := [3]; enc_ink_command _ := [4];
  enc_change_deposit s _ _ := s; phat_name := [12]; phat_tok_name := [13];
|}.

Lemma toy_move_moves a b v x x' : toy_move a b v x = Some x' -> forall c,
  toy_free x' c = toy_free x c - (if c =? a then v else 0) + (if c =? b then v else 0).
Proof.
  intros H c. unfold toy_move, toy_free, toy_held in *.
  repeat match goal with
  | H : context [?x =? ?y] |- _ => destruct (Z.eqb_spec x y); subst; cbn [orb andb] in *
  | |- context [?x =? ?y] => destruct (Z.eqb_spec x y); subst; cbn [orb andb] in *
  | H : context [?x <=? ?y] |- _ => destruct (Z.leb_spec x y); cbn [orb andb] in *
  end; simplify_eq; try lia.
Qed.

#[local] Instance toy_balances : PhatBalances Z.
Proof.
  refine {| free_balance := toy_free; ExistentialDeposit := 1 |}.
  - intros x a. unfold toy_free, toy_held, in_width. repeat case_match; lia.
  - exact toy_move_moves.
  - cbn. intros b v x x' Hb H c. pose proof (toy_move_moves _ _ _ _ _ H c) as Hc.
    assert (0 <= toy_free x' 77 /\ toy_free x' 77 = toy_free x 77 - v) as [H0 H77].
    { pose proof (toy_move_moves _ _ _ _ _ H 77) as H77. rewrite Z.eqb_refl, (proj2 (Z.eqb_neq 77 b)) in H77 by congruence. split; [unfold toy_free, toy_held; cbn; lia|lia]. }
    change (toy_free x 77) with (toy_held x) in H77. rewrite <- H77. destruct (Z.eqb_spec c 77) as [E|E]; [|lia]. rewrite E. destruct (Z.leb_spec 1 (toy_free x' 77)); lia.
  - cbn. intros b v x Hv Hb. unfold toy_free, toy_move, toy_held in *. cbn in *.
    destruct (Z.eqb_spec b 77) as [->|]; [rewrite orb_true_r; by eexists|].
    destruct (Z.eqb_spec b 1) as [->|]; [|lia]. rewrite (proj2 (Z.leb_le 0 v)), (proj2 (Z.leb_le v _)) by lia.
    destruct (_ || _); by eexists.
Defined.

Definition phat_run (s : Storage Z) (op : phat_op) : Storage Z := state_of s (phat_exec op s).
Definition phat_chain : Storage Z :=
  upd_reg (put_workers (list_to_map ((fun w => (w, mkWorkerInfo w (w + 10) 0 0 None None 0 None [])) <$> [1; 2; 3]))) (empty_chain 0).

Fixpoint phat_runs_ok (s : Storage Z) (l : list phat_op) : Prop :=
  match l with
  | [] => True
  | op :: l' => phat_op_ok s op /\ phat_exec op s = Ok tt (phat_run s op) /\ phat_runs_ok (phat_run s op) l'
  end.
Lemma phat_history l : forall s, phat_runs_ok s l -> rtc phat_step s (foldl phat_run s l).
Proof.
  induction l as [|op l IH]; intros s; cbn [phat_runs_ok foldl]; [done|]. intros (Hop & H & Hl).
  eapply rtc_l; [by eapply phat_call|by apply IH].
Qed.

(** A cluster of the workers 1 and 2; then 3 joins and 1 leaves. *)
Definition cluster_ops : list phat_op :=
  [PhSetCode Root [1; 2; 3]; PhInitialize; PhAddCluster Root 1 Public [1; 2] 0 1 1 1 9].
Definition worker_ops : list phat_op := [PhAddWorker (Signed 1) 3 1; PhRemoveWorker (Signed 1) 1 1].
Definition chain_cluster : Storage Z := Eval vm_compute in foldl phat_run phat_chain cluster_ops.
Definition chain_moved : Storage Z := Eval vm_compute in foldl phat_run chain_cluster worker_ops.

Lemma clusters_inv_start : clusters_inv phat_chain.
Proof.
  split.
  - split; unfold members; cbn; try done.
    + intros c. rewrite lookup_empty. by intros [].
    + intros c w. rewrite lookup_empty. cbn. intros H. by apply elem_of_nil in H.
    + intros c. rewrite lookup_empty. apply NoDup_nil_2.
  - intros w c. cbn. by rewrite lookup_empty.
Qed.

Lemma cluster_history : rtc phat_step phat_chain chain_cluster.
Proof.
  replace chain_cluster with (foldl phat_run phat_chain cluster_ops) by (vm_compute; reflexivity).
  apply phat_history. vm_compute. repeat split.
Qed.
Lemma worker_history : rtc phat_step chain_cluster chain_moved.
Proof.
  replace chain_moved with (foldl phat_run chain_cluster worker_ops) by (vm_compute; reflexivity).
  apply phat_history. vm_compute. repeat split.
Qed.

Lemma clusters_invariant_witness :
  members (phat chain_cluster) 1 = [1; 2] /\ members (phat chain_moved) 1 = [2; 3] /\ clusters_inv chain_moved /\
  cluster_by_workers (phat chain_moved) !! 1 = Some 0.
Proof.
  destruct (clusters_invariant phat_chain chain_cluster chain_moved clusters_inv_start cluster_history worker_history) as [Hi _].
  split; [vm_compute; reflexivity|]. split; [vm_compute; reflexivity|]. split; [exact Hi|]. vm_compute; reflexivity.
Defined.

(** User 1 stakes 300 on the contract 5; stakes are at least the existential deposit. *)
Definition stake_chain : Storage Z := upd_pt (put_min_stake 1) phat_chain.
Definition stake_op : phat_op := PhAdjustStake (Signed 1) 5 300.
Definition chain_staked : Storage Z := Eval vm_compute in phat_run stake_chain stake_op.

Lemma contract_stakes_backed_witness :
  rtc stake_step stake_chain chain_staked /\ total_of chain_staked 5 = 300 /\
    exists s', adjust_stake (Signed 1) 5 0 chain_staked = Ok tt s' /\ total_of s' 5 = 0 /\ free_balance (ext s') 1 = 1000.
Proof.
  assert (rtc stake_step stake_chain chain_staked) as Hr.
  { apply rtc_once, (stake_call _ _ stake_op); [split; [done|by split]|]. vm_compute. reflexivity. }
  split; [exact Hr|]. split; [vm_compute; reflexivity|].
  assert (stakes_inv stake_chain) as H0.
  { split; [by vm_compute|intros k v; cbn; by rewrite lookup_empty| |by vm_compute]. intros c. reflexivity. }
  destruct (contract_stakes_backed stake_chain chain_staked H0 Hr) as (_ & _ & Hback).
  destruct (Hback 1 5) as (s' & H & _ & Ht & Hb); [done|vm_compute; discriminate|]. exists s'. split; [exact H|].
  rewrite Ht, Hb. split; vm_compute; reflexivity.
Defined.
End phat_runs.

(** ** The anchor *)
Section anchor_runs.

#[local] Instance toy_anchor : AnchorConfig := {|
  QueuePrefix := bs "_queue/";
  QueueCapacity := 3;
  encode_u32 n := [n mod 256; n / 2 ^ 8 mod 256; n / 2 ^ 16 mod 256; n / 2 ^ 24];
  decode_u32 b := match b with [b0; b1; b2; b3] => Some (b0 + 2 ^ 8 * b1 + 2 ^ 16 * b2 + 2 ^ 24 * b3) | _ => None end;
  decode_action b :=
    match b with
    | 0 :: data => Some (Reply data)
    | [1; head] => Some (SetQueueHead (wrap 32 head))
    | _ => None
    end;
  decode_response b :=
    match b with [owner; contract; price] => Some (mkResponse owner contract [] price 0) | _ => None end;
|}.

#[local] Instance toy_anchor_laws : AnchorLaws.
Proof.
  split; cbn.
  - done.
  - intros n Hn. unfold in_width in Hn. f_equal.
    pose proof (Z.div_mod n 256 ltac:(lia)) as H1. pose proof (Z.div_mod (n / 2 ^ 8) 256 ltac:(lia)) as H2.
    pose proof (Z.div_mod (n / 2 ^ 16) 256 ltac:(lia)) as H3. rewrite Z.div_div in H2, H3 by lia.
    change (2 ^ 8 * 256) with (2 ^ 16) in H2. change (2 ^ 16 * 256) with (2 ^ 24) in H3. change (n / 256) with (n / 2 ^ 8) in H1. lia.
  - intros b n H. repeat case_match; simplify_eq. unfold wrap, in_width. apply Z.mod_pos_bound. lia.
  - vm_compute. lia.
Qed.

#[local] Instance toy_response : OnResponse unit := oracle unit.

Definition anchor_run (w : Storage unit * gmap H256 (list bytes)) (op : (Account * RollupTx) + bytes) :=
  match op with
  | inl (who, tx) => (state_of w.1 (rollup (Signed who) 9 tx 0 w.1), w.2)
  | inr data => (state_of w.1 (anchor_push_message 9 data w.1), <[ 9 := log_of w 9 ++ [data] ]> w.2)
  end.
Definition anchor_claimed : Storage unit := Eval vm_compute in state_of (empty_chain tt) (claim_name (Signed 4) 9 (empty_chain tt)).
Definition anchor_filled : Storage unit * gmap H256 (list bytes) :=
  Eval vm_compute in foldl anchor_run (anchor_claimed, ∅) [inr [10]; inr [20]].
(** The contract acknowledges the first message and replies with a quote. *)
Definition ack_tx : RollupTx := mkRollup [CondEq [7] None] [[1; 1]; [0; 4; 9; 100]] [([7], Some [1])].
Definition anchor_acked : Storage unit * gmap H256 (list bytes) := Eval vm_compute in anchor_run anchor_filled (inl (4, ack_tx)).

Lemma anchor_fill_history : rtc anchor_step (empty_chain tt, ∅) anchor_filled.
Proof.
  eapply rtc_l; [apply (ast_claim (Signed 4) 9 _ _ anchor_claimed); vm_compute; reflexivity|].
  eapply rtc_l; [eapply (ast_push 9 [10]); [done|vm_compute; reflexivity]|].
  apply rtc_once. eapply (ast_push 9 [20]); [by vm_compute|vm_compute; reflexivity].
Qed.

Lemma ack_off_queue : off_queue ack_tx.
Proof. repeat constructor. cbn. intros [H|[H|(n & _ & H)]]; apply (f_equal length) in H; discriminate H. Qed.

Lemma anchor_queue_fifo_witness :
  exists h h', h <= h' /\ queue_view 9 h [[10]; [20]] anchor_filled.1 /\ queue_view 9 h' [[10]; [20]] anchor_acked.1 /\
    state_at 9 (qkey (encode_u32 0)) anchor_acked.1 = None.
Proof.
  assert (rtc anchor_step anchor_filled anchor_acked) as Hr.
  { apply rtc_once. apply (ast_rollup (Signed 4) 9 ack_tx 0); [apply ack_off_queue|vm_compute; reflexivity]. }
  destruct (anchor_queue_fifo (empty_chain tt) anchor_filled anchor_acked) with (name := 9)
    as (h & h' & Hle & Hv & Hv' & _); [done|exact anchor_fill_history|exact Hr|].
  exists h, h'. split; [exact Hle|]. split; [exact Hv|]. split; [exact Hv'|]. vm_compute; reflexivity.
Defined.

Lemma queue_keys_unprotected_witness :
  exists s', rollup (Signed 4) 9 (mkRollup [] [] [(qkey TAIL, Some [])]) 0 anchor_filled.1 = Ok tt s' /\
    anchor_push_message 9 [30] s' = Panic.
Proof.
  destruct (queue_keys_unprotected 4 9 [] anchor_filled.1 0) as (s' & H & Hp & _); [vm_compute; reflexivity..|].
  exists s'. split; [exact H|]. apply Hp.
Defined.
End anchor_runs.

(** ** Routing *)
Section routing_runs.

#[local] Instance toy_routes : RouteCodec := {|
  dec_registry b := match b with [n] => Some (BenchReport 6000 n) | _ => None end;
  dec_registry_gk _ := None; dec_working_update _ := None; dec_working_report _ := None; dec_cluster_report _ := None;
  dec_registry_cluster _ := None; dec_registry_contract _ := None;
|}.
#[local] Existing Instance toy_env.

(** Worker 1 reports its benchmark. *)
Definition bench_message : Message := mkMessage (Worker 1) (mkTopic TOPIC_REGISTRY) [99].
Definition bench_signed : SignedMessage := mkSigned bench_message 0 (toy_sign 1 (encode_to_be_signed bench_message 0)).

Lemma routed_delivery_witness :
  sync_guard (Signed 3) bench_signed started_chain = None /\
  exists s', sync_offchain_message (QueueNotifyConfig0 := message_route 1) (Signed 3) bench_signed started_chain = Ok tt s' /\
    ingress_of s' (Worker 1) = 1.
Proof.
  assert (sync_guard (Signed 3) bench_signed started_chain = None) as Hg by (vm_compute; reflexivity).
  split; [exact Hg|]. destruct (routed_delivery 0 3 bench_signed started_chain Hg) as [H Hi].
  destruct (sync_offchain_message (QueueNotifyConfig0 := message_route 1) (Signed 3) bench_signed started_chain)
    as [[] s'|e s'|] eqn:E.
  - exists s'. split; [reflexivity|]. rewrite (Hi s' eq_refl). vm_compute. reflexivity.
  - destruct (handler_of _ _) in H; discriminate H.
  - destruct (handler_of _ _) eqn:Eh in H; [discriminate H..|]. vm_compute in Eh. discriminate Eh.
Defined.
End routing_runs.
