(* ===== verification/TaskScheduler.v ===== *)
(** * The SideVM task scheduler (crates/phala-scheduler/src/task_scheduler.rs)

    A fair scheduler with a fixed number of virtual cores: a task asks to run
    ([poll_resume]), waits in a tree ordered by virtual runtime, is woken when a
    core is free, runs under a guard and parks when the guard is dropped. Every
    method runs under the scheduler's mutex, as one step. The [rbtree] crate is
    the class [RbTree]. *)

From S2P Require Import Prelude.

(** * The ordered multimap of the rbtree crate

    The schedulers keep their queues in [rbtree::RBTree], which is outside the
    repository: a tree is its in-order list of entries, [pop_first] and
    [pop_last] take the ends of the list, and [insert] is the class [RbTree]. *)

(** The ordered multimap of the [rbtree] crate; where an equal key goes is not
    documented. *)
Class RbTree (V : Type) := {
  rb_insert : Z -> V -> list (Z * V) -> list (Z * V);
  rb_insert_spec : forall k v t, exists l1 l2,
    t = l1 ++ l2 /\ rb_insert k v t = l1 ++ (k, v) :: l2 /\
    (StronglySorted Z.le t.*1 -> Forall (fun e => e.1 <= k) l1 /\ Forall (fun e => k <= e.1) l2);
}.

Section rbtree.
Context {V : Type} `{RB : !RbTree V}.

Lemma rb_insert_perm k (v : V) t : rb_insert k v t ≡ₚ (k, v) :: t.
Proof.
  destruct (rb_insert_spec k v t) as (l1 & l2 & -> & -> & _). by rewrite Permutation_middle.
Qed.

Lemma rb_insert_sorted k (v : V) t :
  StronglySorted Z.le t.*1 -> StronglySorted Z.le (rb_insert k v t).*1.
Proof.
  intros Hs. destruct (rb_insert_spec k v t) as (l1 & l2 & -> & -> & H).
  destruct (H Hs) as [H1 H2]. rewrite fmap_app in *. cbn.
  apply StronglySorted_insert; [done|by apply Forall_fmap..].
Qed.
End rbtree.

Lemma rb_insert_nil {V} (RB' : RbTree V) (k : Z) (rt : V) :
  rb_insert (RbTree := RB') k rt [] = [(k, rt)].
Proof.
  destruct (rb_insert_spec (RbTree := RB') k rt []) as (l1 & l2 & E & -> & _). by destruct l1, l2.
Qed.

(** A concrete tree: sorted insertion, after equal keys. *)
Fixpoint sorted_insert {V} (k : Z) (v : V) (t : list (Z * V)) : list (Z * V) :=
  match t with
  | [] => [(k, v)]
  | (k', v') :: t' => if k <? k' then (k, v) :: t else (k', v') :: sorted_insert k v t'
  end.

Definition sorted_rb V : RbTree V.
Proof.
  refine {| rb_insert := sorted_insert |}. intros k v t.
  induction t as [|[k' v'] t (l1 & l2 & -> & E & H)]; cbn.
  - exists [], []. by split_and!.
  - destruct (k <? k') eqn:Ek; b2p.
    + exists [], ((k', v') :: l1 ++ l2). split_and!; try done. intros Hs.
      apply StronglySorted_inv in Hs as [_ Hs]. split; [done|]. constructor; [cbn; lia|].
      apply (proj1 (Forall_fmap fst _ _)) in Hs. eapply Forall_impl; [exact Hs|]. cbn. lia.
    + exists ((k', v') :: l1), l2. rewrite E. split_and!; try done. intros Hs.
      apply StronglySorted_inv in Hs as [Hs _]. destruct (H Hs). split; [|done]. by constructor.
Defined.

Inductive TaskState := Idle | Ready | ToRun | Running.

#[global] Instance TaskState_eq_dec : EqDecision TaskState.
Proof. solve_decision. Defined.

Record Task := mkTask { t_state : TaskState; t_vruntime : Z }.

(** [ReadyTask]: the task and the waker to call. *)
Record ReadyTask := mkReady { rt_id : Z; rt_waker : Z }.

(** [SchedulerInner]; [woken] records the calls of [Waker::wake]. *)
Record TaskSched := mkTS {
  tasks : gmap Z Task;
  ready_tasks : list (Z * ReadyTask);
  virtual_clock : Z;
  virtual_cores : Z;
  running_tasks : Z;
  woken : list Z;
}.

Definition sched_new (cores : Z) : TaskSched := mkTS ∅ [] 0 cores 0 [].

(** What [poll_resume] returns; the guard carries the task and its weight. *)
Inductive Poll := Pending | PollReady (id weight : Z).

Section scheduler.
Context `{RB : !RbTree ReadyTask}.

(** [schedule]'s loop, over the entries of the tree. *)
Fixpoint schedule_loop (q : list (Z * ReadyTask)) (s : TaskSched) : TaskSched :=
  if running_tasks s <? virtual_cores s then
    match q with
    | [] => mkTS (tasks s) [] (virtual_clock s) (virtual_cores s) (running_tasks s) (woken s)
    | (vruntime, rt) :: q' =>
        match tasks s !! rt_id rt with
        | None => schedule_loop q' s
        | Some t =>
            schedule_loop q'
              (mkTS (<[ rt_id rt := mkTask ToRun (t_vruntime t) ]> (tasks s)) q' vruntime
                 (virtual_cores s) (running_tasks s +[32] 1) (woken s ++ [rt_waker rt]))
        end
    end
  else mkTS (tasks s) q (virtual_clock s) (virtual_cores s) (running_tasks s) (woken s).

Definition schedule (s : TaskSched) : TaskSched := schedule_loop (ready_tasks s) s.

Definition is_active (t : Task) : bool :=
  match t_state t with ToRun | Running => true | _ => false end.

Definition task_exit (id : Z) (s : TaskSched) : TaskSched :=
  match tasks s !! id with
  | None => s
  | Some t =>
      let s1 := mkTS (delete id (tasks s)) (ready_tasks s) (virtual_clock s) (virtual_cores s)
                  (running_tasks s) (woken s) in
      if is_active t then
        schedule (mkTS (tasks s1) (ready_tasks s1) (virtual_clock s1) (virtual_cores s1)
                    (running_tasks s1 -[32] 1) (woken s1))
      else s1
  end.

Definition U128_MAX : Z := 2 ^ 128 - 1.

Definition maybe_reset_clock (s : TaskSched) : TaskSched :=
  if U128_MAX / 2 <? virtual_clock s then
    mkTS ((fun t => mkTask (t_state t) (saturating_sub (t_vruntime t) (virtual_clock s))) <$> tasks s)
      (ready_tasks s) 0 (virtual_cores s) (running_tasks s) (woken s)
  else s.

(** The [Ready] branch: the first entry of the task gets the new waker. *)
Fixpoint renew_waker (id waker : Z) (q : list (Z * ReadyTask)) : list (Z * ReadyTask) :=
  match q with
  | [] => []
  | (k, rt) :: q' =>
      if rt_id rt =? id then (k, mkReady (rt_id rt) waker) :: q'
      else (k, rt) :: renew_waker id waker q'
  end.

(** [None]: the panic on a running task. *)
Definition poll_resume (waker id weight : Z) (s0 : TaskSched) : option (Poll * TaskSched) :=
  let s := maybe_reset_clock s0 in
  let t := default (mkTask Idle (virtual_clock s)) (tasks s !! id) in
  match t_state t with
  | Idle =>
      let v := Z.max (t_vruntime t) (virtual_clock s) in
      Some (Pending, schedule (mkTS (<[ id := mkTask Ready v ]> (tasks s))
        (rb_insert v (mkReady id waker) (ready_tasks s)) (virtual_clock s) (virtual_cores s)
        (running_tasks s) (woken s)))
  | Ready =>
      Some (Pending, mkTS (<[ id := t ]> (tasks s)) (renew_waker id waker (ready_tasks s))
        (virtual_clock s) (virtual_cores s) (running_tasks s) (woken s))
  | ToRun =>
      Some (PollReady id weight, mkTS (<[ id := mkTask Running (t_vruntime t) ]> (tasks s))
        (ready_tasks s) (virtual_clock s) (virtual_cores s) (running_tasks s) (woken s))
  | Running => None
  end.

(** [None]: the failed assertion on a task that is not running. *)
Definition park (id vruntime : Z) (s : TaskSched) : option TaskSched :=
  match tasks s !! id with
  | None => Some s
  | Some t =>
      if bool_decide (t_state t = Running) then
        Some (schedule (mkTS
          (<[ id := mkTask Idle (t_vruntime t +[128] Z.max vruntime 1) ]> (tasks s))
          (ready_tasks s) (virtual_clock s) (virtual_cores s) (running_tasks s -[32] 1) (woken s)))
      else None
  end.

(** [Drop for RunningGuard]: [cost] is the cost set, or the elapsed time scaled. *)
Definition guard_drop (id weight cost : Z) (s : TaskSched) : option TaskSched :=
  park id (Z.max (cost / Z.max weight 1) 1) s.
End scheduler.

Arguments schedule : simpl never.

(** ** Invariant *)

Abbreviation active_count := (count_if is_active).

(** The entries of the tree are exactly the ready tasks, once each, in order;
    the active tasks are counted and fit the cores. *)
Record sched_pre (s : TaskSched) : Prop := {
  inv_sorted : StronglySorted Z.le (ready_tasks s).*1;
  inv_nodup : NoDup (rt_id <$> (ready_tasks s).*2);
  inv_ready : forall id, id ∈ rt_id <$> (ready_tasks s).*2 <->
    t_state <$> tasks s !! id = Some Ready;
  inv_running : running_tasks s = active_count (tasks s);
  inv_cores : running_tasks s <= virtual_cores s /\ virtual_cores s < 2 ^ 32;
}.

(** And no core idles while a task waits. *)
Definition sched_inv (s : TaskSched) : Prop :=
  sched_pre s /\ (ready_tasks s <> [] -> running_tasks s = virtual_cores s).

Definition with_ready (q : list (Z * ReadyTask)) (s : TaskSched) : TaskSched :=
  mkTS (tasks s) q (virtual_clock s) (virtual_cores s) (running_tasks s) (woken s).

(** Starting the first waiting task. *)
Lemma start_first_pre v rt q s :
  sched_pre (with_ready ((v, rt) :: q) s) -> running_tasks s < virtual_cores s ->
  exists t, tasks s !! rt_id rt = Some t /\
    sched_pre (mkTS (<[ rt_id rt := mkTask ToRun (t_vruntime t) ]> (tasks s)) q v
      (virtual_cores s) (running_tasks s +[32] 1) (woken s ++ [rt_waker rt])).
Proof.
  intros [Hs Hn Hr Hc Hk] Hlt. cbn in *. apply NoDup_cons in Hn as [Hni Hn].
  destruct (tasks s !! rt_id rt) as [t|] eqn:E; [|exfalso; pose proof (proj1 (Hr (rt_id rt)) ltac:(left)) as H';
    by rewrite E in H'].
  assert (t_state t = Ready) as Et.
  { pose proof (proj1 (Hr (rt_id rt)) ltac:(left)) as H'. rewrite E in H'. by injection H'. }
  exists t. split; [done|]. pose proof (count_if_nonneg is_active (tasks s)).
  assert (running_tasks s +[32] 1 = running_tasks s + 1) as Ew. { apply wrap_small; unfold in_width. lia. }
  split; cbn; rewrite ?Ew; try done; try lia.
  - by apply StronglySorted_inv in Hs as [? _].
  - intros id. specialize (Hr id). rewrite lookup_insert. case_decide as Eid.
    + subst id. split; [done|]. cbn. intros [=].
    + rewrite <- Hr, elem_of_cons. naive_solver.
  - assert (is_active t = false) as Ha by (unfold is_active; by rewrite Et).
    rewrite count_if_insert, E. cbn. rewrite Ha. lia.
Qed.

Lemma schedule_loop_inv q s : sched_pre (with_ready q s) -> sched_inv (schedule_loop q s).
Proof.
  revert s. induction q as [|[v rt] q IH]; intros s Hp; cbn; destruct (running_tasks s <? virtual_cores s) eqn:E; b2p.
  - split; [exact Hp|done].
  - split; [exact Hp|done].
  - destruct (start_first_pre v rt q s Hp E) as (t & -> & Hp'). by apply IH.
  - split; [exact Hp|]. intros _. cbn. destruct (inv_cores _ Hp). cbn in *. lia.
Qed.

Lemma schedule_inv s : sched_pre s -> sched_inv (schedule s).
Proof. intros Hp. apply schedule_loop_inv. by destruct s. Qed.

(** ** Operations *)

Inductive ts_op := TPoll (waker id weight : Z) | TDrop (id weight cost : Z) | TExit (id : Z).

Section ops.
Context `{RB : !RbTree ReadyTask}.

(** [None] is a panic, which poisons the mutex for good. *)
Definition ts_exec (op : ts_op) (s : TaskSched) : option TaskSched :=
  match op with
  | TPoll w id wt => snd <$> poll_resume w id wt s
  | TDrop id wt c => guard_drop id wt c s
  | TExit id => Some (task_exit id s)
  end.

(** A client in order: it does not poll a task whose guard it holds, drops only
    guards it got, and does not end a task that is waiting for a core. *)
Definition in_order (s : TaskSched) (op : ts_op) : Prop :=
  match op with
  | TPoll _ id _ => t_state <$> tasks s !! id <> Some Running
  | TDrop id _ _ => tasks s !! id = None \/ t_state <$> tasks s !! id = Some Running
  | TExit id => t_state <$> tasks s !! id <> Some Ready
  end.

Lemma rb_insert_ids k rt q :
  rt_id <$> (rb_insert k rt q).*2 ≡ₚ rt_id rt :: (rt_id <$> q.*2).
Proof. by rewrite rb_insert_perm. Qed.

(** A new waiting task. *)
Lemma add_ready_pre v id w s :
  sched_pre s -> t_state <$> tasks s !! id <> Some Ready -> count_bit is_active (tasks s !! id) = 0 ->
  sched_pre (mkTS (<[ id := mkTask Ready v ]> (tasks s)) (rb_insert v (mkReady id w) (ready_tasks s))
    (virtual_clock s) (virtual_cores s) (running_tasks s) (woken s)).
Proof.
  intros [Hs Hn Hr Hc Hk] Hid Hb. split; cbn; [by apply rb_insert_sorted|..|done].
  - rewrite rb_insert_ids. cbn. apply NoDup_cons. split; [|done]. by rewrite Hr.
  - intros id'. rewrite rb_insert_ids. cbn. rewrite elem_of_cons, lookup_insert, Hr.
    case_decide; cbn; naive_solver.
  - rewrite count_if_insert, Hb. cbn. lia.
Qed.

(** Replacing a task that does not wait by one that does not wait. *)
Lemma set_task_pre id t' s r :
  sched_pre s -> t_state <$> tasks s !! id <> Some Ready -> t_state t' <> Ready ->
  r = running_tasks s - count_bit is_active (tasks s !! id) + count_bit is_active (Some t') ->
  r <= virtual_cores s ->
  sched_pre (mkTS (<[ id := t' ]> (tasks s)) (ready_tasks s) (virtual_clock s) (virtual_cores s) r (woken s)).
Proof.
  intros [Hs Hn Hr Hc Hk] Hid Ht' Hr' Hle. split; cbn; try done; [..|lia].
  - intros id'. rewrite Hr, lookup_insert. case_decide; [subst|done]. cbn. naive_solver.
  - rewrite count_if_insert. lia.
Qed.

Lemma del_task_pre id s r :
  sched_pre s -> t_state <$> tasks s !! id <> Some Ready ->
  r = running_tasks s - count_bit is_active (tasks s !! id) ->
  sched_pre (mkTS (delete id (tasks s)) (ready_tasks s) (virtual_clock s) (virtual_cores s) r (woken s)).
Proof.
  intros [Hs Hn Hr Hc Hk] Hid Hr'.
  assert (0 <= count_bit is_active (tasks s !! id)) by (unfold count_bit; repeat case_match; lia).
  split; cbn; try done; [..|lia].
  - intros id'. rewrite Hr, lookup_delete. case_decide; [subst; naive_solver|done].
  - rewrite count_if_delete. lia.
Qed.

Lemma reset_clock_inv s : sched_inv s -> sched_inv (maybe_reset_clock s).
Proof.
  intros [[Hs Hn Hr Hc Hk] Hw]. unfold maybe_reset_clock. case_match; [|done].
  split; [|done]. split; cbn; try done.
  - intros id. rewrite Hr, lookup_fmap. by destruct (tasks s !! id).
  - rewrite count_if_fmap; [done|]. by intros [].
Qed.

Lemma reset_clock_states s id : t_state <$> tasks (maybe_reset_clock s) !! id = t_state <$> tasks s !! id.
Proof.
  unfold maybe_reset_clock. case_match; [|done]. cbn. rewrite lookup_fmap. by destruct (tasks s !! id).
Qed.

Lemma renew_waker_keys id w q : (renew_waker id w q).*1 = q.*1.
Proof. induction q as [|[k rt] q IH]; [done|]. cbn. case_match; cbn; congruence. Qed.

Lemma renew_waker_ids id w q : rt_id <$> (renew_waker id w q).*2 = rt_id <$> q.*2.
Proof. induction q as [|[k rt] q IH]; [done|]. cbn. case_match; cbn; congruence. Qed.

Lemma running_pos id t s :
  sched_pre s -> tasks s !! id = Some t -> is_active t = true -> 1 <= running_tasks s.
Proof.
  intros [_ _ _ Hc _] Ht Ha. rewrite Hc. pose proof (count_if_delete is_active (tasks s) id) as Hd.
  rewrite Ht in Hd. cbn in Hd. rewrite Ha in Hd.
  pose proof (count_if_nonneg is_active (delete id (tasks s))). lia.
Qed.

Lemma sched_sub_1 id t s :
  sched_pre s -> tasks s !! id = Some t -> is_active t = true ->
  running_tasks s -[32] 1 = running_tasks s - 1.
Proof.
  intros Hp Ht Ha. pose proof (running_pos id t s Hp Ht Ha). destruct (inv_cores _ Hp).
  apply wrap_small. unfold in_width. lia.
Qed.

Lemma poll_inv w id wt s :
  sched_inv s -> in_order s (TPoll w id wt) -> exists s', ts_exec (TPoll w id wt) s = Some s' /\ sched_inv s'.
Proof.
  intros Hi Ho. cbn in *. rewrite <- reset_clock_states in Ho. apply reset_clock_inv in Hi.
  unfold poll_resume. set (s1 := maybe_reset_clock s) in *. destruct Hi as [Hp Hw].
  destruct (tasks s1 !! id) as [[st vr]|] eqn:E; cbn in *; [destruct st; [..|done]|]; eexists; (split; [reflexivity|]); cbn.
  - apply schedule_inv, add_ready_pre; [done|by rewrite E|by rewrite E].
  - destruct Hp as [Hs Hn Hr Hc Hk]. rewrite insert_id by done. split; [split|]; cbn;
      rewrite ?renew_waker_keys, ?renew_waker_ids; try done.
    intros Hne. apply Hw. intros Hnil. by rewrite Hnil in Hne.
  - split; [|done]. apply set_task_pre; try done; [by rewrite E|rewrite E; cbn; lia|by apply (inv_cores _ Hp)].
  - apply schedule_inv, add_ready_pre; [done|by rewrite E|by rewrite E].
Qed.

Lemma drop_inv id wt c s :
  sched_inv s -> in_order s (TDrop id wt c) -> exists s', ts_exec (TDrop id wt c) s = Some s' /\ sched_inv s'.
Proof.
  intros Hi Ho. cbn in *. unfold guard_drop, park. pose proof Hi as [Hp Hw].
  destruct (tasks s !! id) as [[st vr]|] eqn:E; [|by eauto].
  assert (st = Running) as -> by (destruct Ho as [|[= ?]]; done). cbn.
  eexists. split; [reflexivity|]. apply schedule_inv.
  rewrite (sched_sub_1 id _ s Hp E) by done.
  apply set_task_pre; try done; [by rewrite E|rewrite E; cbn; lia|destruct (inv_cores _ Hp); lia].
Qed.

Lemma exit_inv id s :
  sched_inv s -> in_order s (TExit id) -> exists s', ts_exec (TExit id) s = Some s' /\ sched_inv s'.
Proof.
  intros Hi Ho. cbn in *. eexists. split; [reflexivity|]. unfold task_exit. pose proof Hi as [Hp Hw].
  destruct (tasks s !! id) as [t|] eqn:E; [|done]. destruct (is_active t) eqn:Ea; cbn.
  - apply schedule_inv. rewrite (sched_sub_1 id t s Hp E Ea).
    apply del_task_pre; [done|by rewrite E|rewrite E; cbn; by rewrite Ea].
  - split; [|done]. apply del_task_pre; [done|by rewrite E|rewrite E; cbn; rewrite Ea; lia].
Qed.

Lemma ts_exec_inv op s :
  sched_inv s -> in_order s op -> exists s', ts_exec op s = Some s' /\ sched_inv s'.
Proof. destruct op; [apply poll_inv|apply drop_inv|apply exit_inv]. Qed.

Inductive ts_step : TaskSched -> TaskSched -> Prop :=
  | TsStep op s s' : in_order s op -> ts_exec op s = Some s' -> ts_step s s'.

Lemma sched_new_inv cores : 0 <= cores < 2 ^ 32 -> sched_inv (sched_new cores).
Proof.
  intros Hc. split; [|done]. split; cbn; [constructor|constructor|..|lia].
  - intros id. rewrite lookup_empty. cbn. split; [by intros ?%elem_of_nil|done].
  - reflexivity.
Qed.

(** C32: for clients in order, the scheduler never panics; at every point the
    running counter is the number of tasks that hold or were given a core, it
    never exceeds the cores, every waiting task is in the tree exactly once, the
    tree is in virtual-runtime order, and no core idles while a task waits. *)
Theorem task_scheduler_invariant cores s op :
  0 <= cores < 2 ^ 32 -> rtc ts_step (sched_new cores) s -> in_order s op ->
  sched_inv s /\ exists s', ts_exec op s = Some s' /\ sched_inv s'.
Proof.
  intros Hc Hr Ho. assert (sched_inv s) as Hi.
  { apply (rtc_invariant ts_step sched_inv (sched_new cores) s); [|done|by apply sched_new_inv].
    intros a b Ha Hab. destruct Hab as [op' a b Ho' E].
    destruct (ts_exec_inv op' a Ha Ho') as (b' & E' & Hb). congruence. }
  split; [done|]. by apply ts_exec_inv.
Qed.

(** ** Dispatch order *)

(** Freeing cores wakes the waiting tasks with the smallest virtual runtimes,
    in that order: with [f] free cores, exactly the first [f] entries of the
    tree are woken, once each, and leave the tree. *)
Theorem schedule_wakes_first s :
  sched_pre s ->
  let f := Z.to_nat (virtual_cores s - running_tasks s) in
  woken (schedule s) = woken s ++ (rt_waker <$> take f (ready_tasks s).*2) /\
  ready_tasks (schedule s) = drop f (ready_tasks s) /\
  running_tasks (schedule s) = running_tasks s + Z.of_nat (min f (length (ready_tasks s))).
Proof.
  intros Hp f. subst f. unfold schedule.
  assert (sched_pre (with_ready (ready_tasks s) s)) as Hq by (by destruct s). revert Hq. clear Hp.
  generalize (ready_tasks s) as q. intros q. revert s.
  induction q as [|[v rt] q IH]; intros s Hp; cbn; destruct (running_tasks s <? virtual_cores s) eqn:E; b2p; cbn.
  1, 2: rewrite take_nil, drop_nil, Nat.min_0_r, app_nil_r; (split_and!; try done; lia).
  - destruct (start_first_pre v rt q s Hp E) as (t & -> & Hp').
    assert (running_tasks s +[32] 1 = running_tasks s + 1) as Ew.
    { pose proof (inv_cores _ Hp). pose proof (inv_running _ Hp). cbn in *.
      pose proof (count_if_nonneg is_active (tasks s)). apply wrap_small. unfold in_width. lia. }
    match type of Hp' with sched_pre ?st => destruct (IH st Hp') as (-> & -> & ->) end. cbn. rewrite Ew.
    replace (Z.to_nat (virtual_cores s - running_tasks s))
      with (S (Z.to_nat (virtual_cores s - (running_tasks s + 1)))) by lia. cbn.
    split_and!; [by rewrite <- app_assoc|done|lia].
  - replace (Z.to_nat (virtual_cores s - running_tasks s)) with 0%nat by lia. cbn.
    rewrite app_nil_r. split_and!; try done. lia.
Qed.
End ops.

(** ** A task that ends while it waits *)

Fixpoint ts_run `{RB : !RbTree ReadyTask} (ops : list ts_op) (s : TaskSched) : option TaskSched :=
  match ops with [] => Some s | op :: ops' => ts_exec op s ≫= ts_run ops' end.

(** Two tasks hold the two cores; task 3 waits, is dropped while it waits, and
    is started again under the same id; then the two others park. *)
Definition restart_ops : list ts_op :=
  [TPoll 1 1 1; TPoll 1 1 1; TPoll 2 2 1; TPoll 2 2 1; TPoll 3 3 1; TExit 3; TPoll 3 3 1;
   TDrop 1 1 10; TPoll 3 3 1; TDrop 2 1 10].

Section stale.
Context `{RB : !RbTree ReadyTask}.

(** With an empty tree, or without a new entry, every tree behaves the same. *)
Lemma ts_exec_nil (RB' : RbTree ReadyTask) op s :
  ready_tasks s = [] -> ts_exec (RB := RB) op s = ts_exec (RB := RB') op s.
Proof.
  intros Hnil. destruct op as [w id wt| |]; [|done..]. cbn. unfold poll_resume, maybe_reset_clock.
  destruct (_ <? virtual_clock s); cbn; rewrite Hnil, (rb_insert_nil RB), (rb_insert_nil RB'); done.
Qed.

Definition r3 : Z * ReadyTask := (0, mkReady 3 3).

Lemma rb_insert_same : rb_insert 0 (mkReady 3 3) [r3] = [r3; r3].
Proof.
  destruct (rb_insert_spec 0 (mkReady 3 3) [r3]) as (l1 & l2 & E & -> & _).
  destruct l1 as [|e [|e' l1]]; cbn in E; [by subst l2|by simplify_eq/=|done].
Qed.

(** The scheduler after the first operations of the run. *)
Definition restart_state (n : nat) : TaskSched :=
  default (sched_new 2) (ts_run (RB := sorted_rb _) (take n restart_ops) (sched_new 2)).

Lemma ts_poll_agree (RB' : RbTree ReadyTask) w id wt s :
  (let s1 := maybe_reset_clock s in
   let v := Z.max (t_vruntime (default (mkTask Idle (virtual_clock s1)) (tasks s1 !! id))) (virtual_clock s1) in
   rb_insert (RbTree := RB) v (mkReady id w) (ready_tasks s1) =
   rb_insert (RbTree := RB') v (mkReady id w) (ready_tasks s1)) ->
  ts_exec (RB := RB) (TPoll w id wt) s = ts_exec (RB := RB') (TPoll w id wt) s.
Proof. cbn zeta. intros E. cbn. unfold poll_resume. by rewrite E. Qed.

Lemma restart_steps n op :
  restart_ops !! n = Some op -> ts_exec op (restart_state n) = Some (restart_state (S n)).
Proof.
  destruct n as [|[|[|[|[|[|[|[|[|[|n]]]]]]]]]]; cbn [restart_ops lookup list_lookup]; intros [= <-].
  7: { rewrite (ts_poll_agree (sorted_rb _)); [vm_compute; reflexivity|]. exact rb_insert_same. }
  1, 3, 5: rewrite (ts_exec_nil (sorted_rb _)) by (vm_compute; reflexivity).
  all: vm_compute; reflexivity.
Qed.

(** A task dropped while it waits leaves its entry in the tree. Started again
    under the same id it is scheduled twice: the second time its state is reset
    while it runs, so dropping its guard fails the assertion of [park], which
    panics inside the mutex and poisons the scheduler. *)
Theorem restarted_task_panics :
  exists s, ts_run restart_ops (sched_new 2) = Some s /\ ts_exec (TDrop 3 1 10) s = None.
Proof.
  exists (restart_state 10). split; [|vm_compute; reflexivity].
  change (sched_new 2) with (restart_state 0). unfold restart_ops. cbn [ts_run].
  do 10 (erewrite restart_steps by reflexivity; cbn [mbind option_bind]). done.
Qed.
End stale.
