(* ===== verification/RequestScheduler.v ===== *)
(** * The query scheduler (crates/phala-scheduler/src/request_scheduler.rs)

    A weighted fair queue in front of contract queries: at most [depth] requests
    are served at once, the others wait in a backlog ordered by virtual start
    time and bounded by [backlog_cap]; when it is full the request with the
    latest start time loses. A request waits on a oneshot channel for its
    [ServingGuard]; dropping the guard releases the slot. Every call takes the
    scheduler's mutex, [locked] in the state: a call that finds it taken by its own
    thread, or for good, is [Blocked] and never returns. *)

From S2P Require Import Prelude TaskScheduler.

Record Counters := mkCounters { c_total : Z; c_dropped : Z; c_time : Z }.

Record Flow := mkFlow {
  previous_finish_tag : Z;
  average_cost : Z;
  recent_active_time : Z;
  f_counters : Counters;
}.

(** [rq_chan] names the channel of [start_signal]. *)
Record Request := mkRequest { rq_flow : Z; rq_start_tag : Z; rq_cost : Z; rq_chan : Z }.

(** [SchedulerInner], and what the clients hold: the guards that were delivered
    (channel and flow), the channels whose receiver is gone, and the number of
    channels created so far; with the mutex around it. *)
Record ReqSched := mkRS {
  flows : gmap Z Flow;
  backlog : list (Z * Request);
  backlog_cap : Z;
  depth : Z;
  serving : Z;
  virtual_time : Z;
  counters : Counters;
  guards : list (Z * Z);
  closed : gset Z;
  next_chan : Z;
  locked : bool;
}.

Definition put_flows v s := mkRS v (backlog s) (backlog_cap s) (depth s) (serving s) (virtual_time s) (counters s) (guards s) (closed s) (next_chan s) (locked s).
Definition put_backlog v s := mkRS (flows s) v (backlog_cap s) (depth s) (serving s) (virtual_time s) (counters s) (guards s) (closed s) (next_chan s) (locked s).
Definition put_serving v s := mkRS (flows s) (backlog s) (backlog_cap s) (depth s) v (virtual_time s) (counters s) (guards s) (closed s) (next_chan s) (locked s).
Definition put_virtual_time v s := mkRS (flows s) (backlog s) (backlog_cap s) (depth s) (serving s) v (counters s) (guards s) (closed s) (next_chan s) (locked s).
Definition put_counters v s := mkRS (flows s) (backlog s) (backlog_cap s) (depth s) (serving s) (virtual_time s) v (guards s) (closed s) (next_chan s) (locked s).
Definition put_guards v s := mkRS (flows s) (backlog s) (backlog_cap s) (depth s) (serving s) (virtual_time s) (counters s) v (closed s) (next_chan s) (locked s).
Definition put_closed v s := mkRS (flows s) (backlog s) (backlog_cap s) (depth s) (serving s) (virtual_time s) (counters s) (guards s) v (next_chan s) (locked s).
Definition put_next_chan v s := mkRS (flows s) (backlog s) (backlog_cap s) (depth s) (serving s) (virtual_time s) (counters s) (guards s) (closed s) v (locked s).
Definition put_locked v s := mkRS (flows s) (backlog s) (backlog_cap s) (depth s) (serving s) (virtual_time s) (counters s) (guards s) (closed s) (next_chan s) v.

Definition rs_new (backlog_cap depth : Z) : ReqSched :=
  mkRS ∅ [] backlog_cap depth 0 0 (mkCounters 0 0 0) [] ∅ 0 false.

Inductive AcquireError := Overloaded | Canceled.

(** How a call ends without a value: with an error, or never *)
Inductive SchedStop := Refused (e : AcquireError) | Blocked.

Abbreviation Sched := (M ReqSched SchedStop).

(** [self.inner.lock().unwrap()] around [f]; the lock is not re-entrant. *)
Definition with_lock {A} (f : Sched A) : Sched A := fun s =>
  if locked s then Err Blocked s
  else match f (put_locked true s) with
       | Ok a s' => Ok a (put_locked false s')
       | Err (Refused e) s' => Err (Refused e) (put_locked false s')
       | Err Blocked s' => Err Blocked s'
       | Panic => Panic
       end.

Definition count_request (c : Counters) : Counters := mkCounters (c_total c +[64] 1) (c_dropped c) (c_time c).
Definition count_drop (c : Counters) : Counters := mkCounters (c_total c) (c_dropped c +[64] 1) (c_time c).
Definition count_time (t : Z) (c : Counters) : Counters := mkCounters (c_total c) (c_dropped c) (c_time c +[128] t).

(** [flow.previous_finish_tag -= cost; flow.counters.dropped += 1]. *)
Definition flow_dropped (cost : Z) (f : Flow) : Flow :=
  mkFlow (previous_finish_tag f -[128] cost) (average_cost f) (recent_active_time f)
    (count_drop (f_counters f)).

Section scheduler.
Context `{RB : !RbTree Request}.

(** What the clock says of a guard that is dropped as soon as it was made *)
Context (lost_cost : Z).

(** [try_pickup_next], [release] and [Drop for ServingGuard], given [dispatch] *)
Definition pickup_with (dispatch : Request -> Sched unit) : Sched unit :=
  s ← get_st;
  match backlog s with
  | [] => mret tt
  | (_, request) :: rest => modify (put_backlog rest);; dispatch request
  end.
Definition release_with (dispatch : Request -> Sched unit) (flow_id actual_cost : Z) : Sched unit :=
  modify (fun s => put_flows (alter (fun f => mkFlow (previous_finish_tag f)
      (((average_cost f *[128] 4) +[128] actual_cost) / 5) (recent_active_time f)
      (count_time actual_cost (f_counters f))) flow_id (flows s)) s);;
  modify (fun s => put_counters (count_time actual_cost (counters s)) s);;
  modify (fun s => put_serving (serving s -[32] 1) s);;
  pickup_with dispatch.

(** The guard goes into the channel; if the receiver is gone it is dropped right
    here, which takes the lock to release the slot and to dispatch the next request.
    Every such turn takes a request off the backlog. *)
Fixpoint dispatch_turns (turns : nat) (r : Request) : Sched unit :=
  modify (fun s => put_serving (serving s +[32] 1) s);;
  modify (put_virtual_time (rq_start_tag r));;
  s ← get_st;
  if bool_decide (rq_chan r ∈ closed s) then
    match turns with
    | O => panic
    | S turns => with_lock (release_with (dispatch_turns turns) (rq_flow r) lost_cost)
    end
  else modify (fun s => put_guards (guards s ++ [(rq_chan r, rq_flow r)]) s).
Definition dispatch (r : Request) : Sched unit :=
  s ← get_st;
  dispatch_turns (S (length (backlog s))) r.

Definition try_pickup_next : Sched unit := pickup_with dispatch.
Definition release (flow_id actual_cost : Z) : Sched unit := release_with dispatch flow_id actual_cost.
Definition serving_guard_drop (flow_id actual_cost : Z) : Sched unit := with_lock (release flow_id actual_cost).

(** [pop_last] and [get_last] of the tree. *)
Definition tree_last {V} (t : list (Z * V)) : option (Z * V) := last t.
Definition tree_but_last {V} (t : list (Z * V)) : list (Z * V) := removelast t.

Definition drop_last : Sched unit :=
  s ← get_st;
  match tree_last (backlog s) with
  | None => mret tt
  | Some (_, req) =>
      modify (put_backlog (tree_but_last (backlog s)));;
      (if bool_decide (is_Some (flows s !! rq_flow req)) then
        modify (fun s => put_counters (count_drop (counters s))
          (put_flows (alter (flow_dropped (rq_cost req)) (rq_flow req) (flows s)) s))
       else mret tt)
  end.

(** The overload branch of [acquire]: reject the request or evict the last one. *)
Definition make_room (flow_id start_tag cost : Z) : Sched unit :=
  s ← get_st;
  if backlog_cap s <=? Z.of_nat (length (backlog s)) then
    '(max_start_tag, _) ← expect (tree_last (backlog s));
    if max_start_tag <=? start_tag then
      modify (fun s => put_counters (count_drop (counters s))
        (put_flows (alter (flow_dropped cost) flow_id (flows s)) s));;
      fail (Refused Overloaded)
    else drop_last
  else mret tt.

(** The end of [acquire]: the request is served or queued. *)
Definition place (flow_id start_tag cost : Z) : Sched Z :=
  s ← get_st;
  let chan := next_chan s in
  modify (put_next_chan (chan + 1));;
  let request := mkRequest flow_id start_tag cost chan in
  (if serving s <? depth s then dispatch request
   else modify (fun s => put_backlog (rb_insert start_tag request (backlog s)) s));;
  mret chan.

Definition new_flow (now : Z) : Flow := mkFlow 0 0 now (mkCounters 0 0 0).

(** [now] is [Instant::now()]; the result is the channel to wait on. *)
Definition acquire (now flow_id weight : Z) : Sched Z :=
  s ← get_st;
  let flow := default (new_flow now) (flows s !! flow_id) in
  let start_tag := Z.max (virtual_time s) (previous_finish_tag flow) in
  let cost := Z.max (average_cost flow / Z.max weight 1) 1 in
  let finish_tag := start_tag +[128] cost in
  let flow := mkFlow finish_tag (average_cost flow) (recent_active_time flow)
                (count_request (f_counters flow)) in
  modify (fun s => put_counters (count_request (counters s)) (put_flows (<[ flow_id := flow ]> (flows s)) s));;
  make_room flow_id start_tag cost;;
  place flow_id start_tag cost.

Definition purge_inactive_flows (now duration : Z) : Sched unit :=
  modify (fun s => put_flows (filter (fun p => now - recent_active_time p.2 < duration) (flows s)) s).

(** ** What clients do *)

Inductive rs_op :=
  | RAcquire (now flow_id weight : Z)
  | RDropGuard (chan cost : Z) (** the guard of a channel is dropped *)
  | RCancel (chan : Z)         (** the future waiting on a channel is dropped, before its guard came *)
  | RPurge (now duration : Z).

Definition take_guard (chan : Z) (l : list (Z * Z)) : list (Z * Z) := filter (fun g => g.1 <> chan) l.

Definition guard_flow (chan : Z) (l : list (Z * Z)) : option Z := snd <$> head (filter (fun g => g.1 = chan) l).

Definition rs_exec (op : rs_op) : Sched unit :=
  match op with
  | RAcquire now f w => with_lock (acquire now f w);; mret tt
  | RDropGuard c cost =>
      s ← get_st;
      match guard_flow c (guards s) with
      | None => mret tt
      | Some f => modify (put_guards (take_guard c (guards s)));; serving_guard_drop f cost
      end
  | RCancel c => modify (fun s => put_closed ({[ c ]} ∪ closed s) s)
  | RPurge now d => with_lock (purge_inactive_flows now d)
  end.
End scheduler.

(** ** Invariant *)

Record rs_inv (s : ReqSched) : Prop := {
  rs_sorted : StronglySorted Z.le (backlog s).*1;
  rs_keys : Forall (fun e => e.1 = rq_start_tag e.2) (backlog s);
  rs_vtime : Forall (fun e => virtual_time s <= e.1) (backlog s);
  rs_len : Z.of_nat (length (backlog s)) <= backlog_cap s /\ 1 <= backlog_cap s;
  rs_serving : serving s = Z.of_nat (length (guards s)) /\ serving s <= depth s /\ depth s < 2 ^ 32;
  rs_conserving : backlog s <> [] -> serving s = depth s;
  rs_chans : NoDup ((rq_chan <$> (backlog s).*2) ++ (guards s).*1);
  rs_fresh : Forall (fun c => c < next_chan s) ((rq_chan <$> (backlog s).*2) ++ (guards s).*1);
  rs_open : Forall (fun e => rq_chan e.2 ∉ closed s) (backlog s);
  rs_closed : forall c, c ∈ closed s -> c < next_chan s;
}.

(** The part of the state the invariant is about. *)
Definition same_core (s s' : ReqSched) : Prop :=
  backlog s' = backlog s /\ backlog_cap s' = backlog_cap s /\ depth s' = depth s /\
  serving s' = serving s /\ virtual_time s' = virtual_time s /\ guards s' = guards s /\
  closed s' = closed s /\ next_chan s' = next_chan s.

Lemma rs_inv_core s s' : same_core s s' -> rs_inv s -> rs_inv s'.
Proof.
  intros (E1 & E2 & E3 & E4 & E5 & E6 & E7 & E8) [? ? ? ? ? ? ? ? ? ?].
  split; rewrite ?E1, ?E2, ?E3, ?E4, ?E5, ?E6, ?E7, ?E8; done.
Qed.

Definition dispatched (r : Request) (s : ReqSched) : ReqSched :=
  put_guards (guards s ++ [(rq_chan r, rq_flow r)])
    (put_virtual_time (rq_start_tag r) (put_serving (serving s +[32] 1) s)).

Section lemmas.
Context `{RB : !RbTree Request} (lost_cost : Z).
#[local] Abbreviation dispatch := (dispatch lost_cost).
#[local] Abbreviation place := (place lost_cost).
#[local] Abbreviation acquire := (acquire lost_cost).
#[local] Abbreviation rs_exec := (rs_exec lost_cost).

Lemma dispatch_open r s : rq_chan r ∉ closed s -> dispatch r s = Ok tt (dispatched r s).
Proof. intros Hc. unfold RequestScheduler.dispatch. mred. cbn [dispatch_turns]. mred. cbn. by rewrite bool_decide_eq_false_2. Qed.

(** Under the lock a guard that nobody takes is dropped and blocks. *)
Lemma dispatch_closed r s : rq_chan r ∈ closed s -> locked s = true -> exists s', dispatch r s = Err Blocked s' /\ locked s' = true.
Proof.
  intros Hc Hl. unfold RequestScheduler.dispatch. mred. cbn [dispatch_turns]. mred. cbn. rewrite bool_decide_eq_true_2 by done.
  unfold with_lock. cbn. rewrite Hl. by eexists.
Qed.

Lemma serving_nonneg s : rs_inv s -> 0 <= serving s.
Proof. intros [_ _ _ _ [-> _] _ _ _ _ _]. lia. Qed.

(** Serving a request whose channel is new, while a slot is free. *)
Lemma inv_dispatch_new r s :
  rs_inv s -> serving s < depth s -> rq_chan r = next_chan s -> virtual_time s <= rq_start_tag r ->
  rs_inv (dispatched r (put_next_chan (next_chan s + 1) s)).
Proof.
  intros Hi Hlt Hc Ht. pose proof (serving_nonneg s Hi) as H0. destruct Hi as [? ? ? ? [Hs Hd] Hw Hn Hf ? Hcl].
  assert (backlog s = []) as Eb by (destruct (backlog s); [done|exfalso; specialize (Hw ltac:(done)); lia]).
  split; cbn; rewrite ?Eb in *; cbn in *; try done; try (by constructor).
  - rewrite wrap_small by (unfold in_width; lia). rewrite length_app. cbn. lia.
  - rewrite fmap_app. cbn. apply NoDup_app. split; [done|]. split; [|apply NoDup_singleton].
    intros c Hin ->%list_elem_of_singleton. rewrite Forall_forall in Hf. specialize (Hf _ Hin). lia.
  - rewrite fmap_app. apply Forall_app. split; [|cbn; constructor; [lia|constructor]].
    eapply Forall_impl; [exact Hf|]. cbn. lia.
  - intros c Hin. specialize (Hcl c Hin). lia.
Qed.

(** Queueing a request whose channel is new, while every slot is taken. *)
Lemma inv_queue_new r s :
  rs_inv s -> depth s <= serving s -> rq_chan r = next_chan s -> virtual_time s <= rq_start_tag r ->
  Z.of_nat (length (backlog s)) < backlog_cap s ->
  rs_inv (put_backlog (rb_insert (rq_start_tag r) r (backlog s)) (put_next_chan (next_chan s + 1) s)).
Proof.
  intros [Hso Hk Hv Hl [Hs Hd] Hw Hn Hf Hop Hcl] Hge Hc Ht Hlen.
  split; cbn; try done; rewrite ?rb_insert_perm; try (by constructor).
  - by apply rb_insert_sorted.
  - cbn. lia.
  - intros _. lia.
  - cbn. apply NoDup_cons. split; [|done]. intros Hin. rewrite Forall_forall in Hf.
    specialize (Hf _ Hin). lia.
  - cbn. constructor; [lia|]. eapply Forall_impl; [exact Hf|]. cbn. lia.
  - constructor; [|done]. cbn. intros Hin. specialize (Hcl _ Hin). lia.
  - intros c Hin. specialize (Hcl c Hin). lia.
Qed.

(** ** Dropping a guard *)

Lemma take_guard_out c (l : list (Z * Z)) : c ∉ l.*1 -> take_guard c l = l.
Proof.
  intros Hn. unfold take_guard. induction l as [|[c' f'] l IH]; [done|]. cbn in Hn.
  apply not_elem_of_cons in Hn as [Hne Hn]. rewrite filter_cons_True by (cbn; congruence).
  by rewrite IH.
Qed.

(** The guards of a scheduler, one of which is held on channel [c]. *)
Lemma guards_split c f (l : list (Z * Z)) :
  NoDup l.*1 -> guard_flow c l = Some f -> l ≡ₚ (c, f) :: take_guard c l.
Proof.
  intros Hn Hg. unfold guard_flow in Hg. induction l as [|[c' f'] l IH]; [done|]. cbn in Hn.
  apply NoDup_cons in Hn as [Hni Hn]. destruct (decide (c' = c)) as [->|Hne].
  - rewrite filter_cons_True in Hg by done. cbn in Hg. simplify_eq.
    unfold take_guard. rewrite filter_cons_False by (cbn; naive_solver).
    fold (take_guard c l). by rewrite take_guard_out.
  - rewrite filter_cons_False in Hg by done. unfold take_guard.
    rewrite filter_cons_True by done. fold (take_guard c l). rewrite Permutation_swap. by rewrite <- IH.
Qed.

(** The state between the two halves of [release]: a slot is free. *)
Definition freed (c : Z) (s : ReqSched) : ReqSched :=
  put_serving (serving s -[32] 1) (put_guards (take_guard c (guards s)) s).

Lemma inv_freed c f s :
  rs_inv s -> guard_flow c (guards s) = Some f ->
  serving (freed c s) = serving s - 1 /\ 1 <= serving s /\
  serving (freed c s) = Z.of_nat (length (guards (freed c s))) /\
  NoDup ((rq_chan <$> (backlog s).*2) ++ (guards (freed c s)).*1) /\
  Forall (fun c => c < next_chan s) ((rq_chan <$> (backlog s).*2) ++ (guards (freed c s)).*1).
Proof.
  intros [_ _ _ _ [Hs Hd] _ Hn Hf _ _] Hg. apply NoDup_app in Hn as Hn'. destruct Hn' as (_ & _ & Hng).
  pose proof (guards_split c f (guards s) Hng Hg) as Hp. cbn.
  pose proof (Permutation_length Hp) as Hl. cbn in Hl.
  rewrite wrap_small by (unfold in_width; lia). split_and!; try lia.
  - rewrite Hp in Hn. cbn in Hn. rewrite Permutation_app_comm in Hn. cbn in Hn.
    apply NoDup_cons in Hn as [_ Hn]. by rewrite Permutation_app_comm.
  - rewrite Hp in Hf. apply Forall_app in Hf as [H1 H2]. cbn in H2. apply Forall_cons in H2 as [_ H2].
    by apply Forall_app.
Qed.

Lemma inv_release_idle c f s :
  rs_inv s -> guard_flow c (guards s) = Some f -> backlog s = [] -> rs_inv (freed c s).
Proof.
  intros Hi Hg Hb. destruct (inv_freed c f s Hi Hg) as (E & H1 & Hl & Hn & Hf).
  destruct Hi as [? ? ? ? [Hs Hd] Hw _ _ ? ?]. split; try done. split; [done|]. rewrite E. cbn. lia.
Qed.

Lemma inv_release_next c f k r rest s :
  rs_inv s -> guard_flow c (guards s) = Some f -> backlog s = (k, r) :: rest ->
  rs_inv (dispatched r (put_backlog rest (freed c s))).
Proof.
  intros Hi Hg Hb. destruct (inv_freed c f s Hi Hg) as (E & H1 & Hl & Hn & Hf).
  destruct Hi as [Hso Hk Hv Hle [Hs Hd] Hw _ _ Hop Hcl]. rewrite Hb in *. cbn in *.
  apply StronglySorted_inv in Hso as [Hso Hmin]. apply Forall_cons in Hk as [Ek Hk]. cbn in Ek. subst k.
  apply Forall_cons in Hop as [_ Hop]. specialize (Hw ltac:(done)).
  assert (serving s -[32] 1 +[32] 1 = serving s) as Ew
    by (rewrite E; rewrite wrap_small by (unfold in_width; lia); lia).
  assert ((rq_chan <$> rest.*2) ++ (take_guard c (guards s) ++ [(rq_chan r, rq_flow r)]).*1
    ≡ₚ rq_chan r :: (rq_chan <$> rest.*2) ++ (take_guard c (guards s)).*1) as Hp.
  { rewrite fmap_app. cbn. rewrite app_assoc, (Permutation_app_comm _ [rq_chan r]). done. }
  split; cbn; try done; rewrite ?Ew; try done; try lia; rewrite ?Hp; try done.
  - apply (Forall_fmap fst (Z.le (rq_start_tag r)) rest). exact Hmin.
  - rewrite length_app. cbn. lia.
Qed.

(** ** Operations *)

(** A client that does not give up on a request while it waits. *)
Definition rs_in_order (s : ReqSched) (op : rs_op) : Prop :=
  match op with
  | RCancel c => c < next_chan s /\ c ∉ rq_chan <$> (backlog s).*2
  | _ => True
  end.

(** An operation that returns, keeps the invariant and does not turn the virtual
    clock back. *)
Definition rs_ok {A} (s : ReqSched) (o : outcome ReqSched SchedStop A) : Prop :=
  match o with
  | Ok _ s' | Err (Refused _) s' => rs_inv s' /\ virtual_time s <= virtual_time s'
  | Err Blocked _ | Panic => False
  end.

Lemma with_lock_ok {A} (f : M ReqSched SchedStop A) s : locked s = false -> rs_ok s (f (put_locked true s)) ->
  rs_ok s (with_lock f s) /\ locked (state_of s (with_lock f s)) = false.
Proof.
  intros Hl Hf. unfold with_lock. rewrite Hl. destruct (f (put_locked true s)) as [a s1|[e|] s1|]; try done; cbn in *;
    (split; [|done]); destruct Hf as [Hi Hv]; (split; [|done]); by apply (rs_inv_core s1).
Qed.

Lemma place_ok flow_id tag cost s :
  rs_inv s -> virtual_time s <= tag -> Z.of_nat (length (backlog s)) < backlog_cap s ->
  rs_ok s (place flow_id tag cost s).
Proof.
  intros Hi Ht Hl. unfold RequestScheduler.place. mred. set (r := mkRequest flow_id tag cost (next_chan s)).
  destruct (serving s <? depth s) eqn:E; b2p.
  - rewrite dispatch_open; [split; [by apply inv_dispatch_new|done]|]. cbn. intros Hin. apply (rs_closed _ Hi) in Hin. lia.
  - split; [|done]. by apply (inv_queue_new r s).
Qed.

Lemma StronglySorted_app_l (l1 l2 : list Z) : StronglySorted Z.le (l1 ++ l2) -> StronglySorted Z.le l1.
Proof.
  induction l1 as [|x l1 IH]; cbn; [constructor|]. intros [Hs Hf]%StronglySorted_inv.
  constructor; [by apply IH|]. by apply Forall_app in Hf as [? _].
Qed.

(** The backlog without its last request. *)
Lemma inv_but_last l x s :
  rs_inv s -> backlog s = l ++ [x] -> rs_inv (put_backlog l s).
Proof.
  intros [Hso Hk Hv Hle Hs Hw Hn Hf Hop Hcl] Hb. rewrite Hb in *.
  assert ((rq_chan <$> (l ++ [x]).*2) ++ (guards s).*1 ≡ₚ
    rq_chan x.2 :: (rq_chan <$> l.*2) ++ (guards s).*1) as Hp.
  { rewrite !fmap_app. cbn. rewrite <- app_assoc. cbn. by rewrite Permutation_middle. }
  rewrite Hp in Hn, Hf. apply NoDup_cons in Hn as [_ Hn]. apply Forall_cons in Hf as [_ Hf].
  apply Forall_app in Hk as [Hk _], Hv as [Hv _], Hop as [Hop _].
  rewrite fmap_app in Hso. rewrite length_app in Hle. cbn in Hle.
  split; cbn; try done; [by eapply StronglySorted_app_l|lia|]. intros _. apply Hw. by destruct l.
Qed.

Lemma drop_last_ok s l k req :
  rs_inv s -> backlog s = l ++ [(k, req)] ->
  exists s', drop_last s = Ok tt s' /\ same_core (put_backlog l s) s'.
Proof.
  intros Hi Hb. unfold drop_last, tree_last, tree_but_last. mred. rewrite Hb, last_snoc, removelast_last.
  case_bool_decide; (eexists; split; [reflexivity|]); by split_and!.
Qed.

Lemma make_room_ok flow_id tag cost s :
  rs_inv s ->
  match make_room flow_id tag cost s with
  | Ok _ s' => rs_inv s' /\ virtual_time s' = virtual_time s /\
      Z.of_nat (length (backlog s')) < backlog_cap s'
  | Err (Refused _) s' => rs_inv s' /\ virtual_time s' = virtual_time s
  | Err Blocked _ | Panic => False
  end.
Proof.
  intros Hi. unfold make_room, tree_last. mred.
  destruct (backlog_cap s <=? Z.of_nat (length (backlog s))) eqn:E; b2p; [|done].
  pose proof (rs_len _ Hi) as [Hle H1].
  destruct (last (backlog s)) as [[mx req]|] eqn:El; [|apply last_None in El; rewrite El in E; cbn in E; lia].
  apply last_Some in El as [l El]. destruct (mx <=? tag).
  - split; [|done]. by apply (rs_inv_core s); [split_and!|].
  - destruct (drop_last_ok s l mx req Hi El) as (s' & -> & Hc).
    pose proof (rs_inv_core _ _ Hc (inv_but_last _ _ _ Hi El)) as Hi'. split; [done|].
    destruct Hc as (Eb & Ec & _ & _ & Ev & _). rewrite Eb, Ec, Ev. cbn. split; [done|].
    rewrite El, length_app in Hle. cbn in Hle. lia.
Qed.

Lemma acquire_ok now flow_id weight s : rs_inv s -> rs_ok s (acquire now flow_id weight s).
Proof.
  intros Hi. unfold RequestScheduler.acquire. mred.
  match goal with |- context [make_room ?f ?t ?c ?st] =>
    assert (rs_inv st) as Hi1 by (by apply (rs_inv_core s); [split_and!|]);
    pose proof (make_room_ok f t c st Hi1) as Hm; revert Hm;
    destruct (make_room f t c st) as [[] s2|[e|] s2|]; intros Hm; [| |by destruct Hm..] end.
  - destruct Hm as (Hi2 & Hv & Hl).
    match goal with |- context [RequestScheduler.place _ ?f ?t ?c s2] =>
      pose proof (place_ok f t c s2 Hi2 ltac:(rewrite Hv; cbn; lia) Hl) as Hp end.
    unfold rs_ok in *. by rewrite Hv in Hp.
  - destruct Hm as (Hi2 & Hv). split; [done|]. by rewrite Hv.
Qed.

Lemma release_ok c f cost s : rs_inv s -> guard_flow c (guards s) = Some f ->
  rs_ok s (release lost_cost f cost (put_guards (take_guard c (guards s)) s)).
Proof.
  intros Hi Eg. unfold release, release_with, pickup_with. mred. cbn [backlog put_serving put_counters put_flows put_guards].
  destruct (backlog s) as [|[k r] rest] eqn:Eb.
  - split; [|done]. apply (rs_inv_core (freed c s)); [by split_and!|]. by eapply inv_release_idle.
  - rewrite dispatch_open.
    + split; [|cbn].
      * apply (rs_inv_core (dispatched r (put_backlog rest (freed c s)))); [by split_and!|].
        by eapply inv_release_next.
      * pose proof (rs_vtime _ Hi) as Hv. pose proof (rs_keys _ Hi) as Hk. rewrite Eb in *.
        apply Forall_cons in Hv as [Hv _], Hk as [Hk _]. cbn in *. lia.
    + pose proof (rs_open _ Hi) as Ho. rewrite Eb in Ho. by apply Forall_cons in Ho as [Ho _].
Qed.

Lemma drop_guard_ok c cost s : rs_inv s -> locked s = false ->
  rs_ok s (rs_exec (RDropGuard c cost) s) /\ locked (state_of s (rs_exec (RDropGuard c cost) s)) = false.
Proof.
  intros Hi Hl. unfold RequestScheduler.rs_exec. mred. destruct (guard_flow c (guards s)) as [f|] eqn:Eg; [|done].
  assert (rs_inv (put_locked true s)) as Hi' by by apply (rs_inv_core s).
  pose proof (with_lock_ok (release lost_cost f cost) (put_guards (take_guard c (guards s)) s) Hl (release_ok c f cost (put_locked true s) Hi' Eg)) as H.
  unfold serving_guard_drop. by destruct (with_lock _ _) as [[] s1|[e|] s1|].
Qed.

Lemma rs_exec_ok op s : rs_inv s -> locked s = false -> rs_in_order s op ->
  rs_ok s (rs_exec op s) /\ locked (state_of s (rs_exec op s)) = false.
Proof.
  intros Hi Hl Ho. assert (rs_inv (put_locked true s)) as Hi' by by apply (rs_inv_core s). destruct op as [now f w|c cost|c|now d].
  - pose proof (with_lock_ok (acquire now f w) s Hl (acquire_ok now f w _ Hi')) as Ha. cbn. unfold mbind, M_bind.
    by destruct (with_lock (acquire now f w) s).
  - by apply drop_guard_ok.
  - destruct Ho as [Hc Hn]. split; [|done]. split; [|done]. destruct Hi as [? ? ? ? ? ? ? ? Hop Hcl]. split; cbn; try done.
    + apply Forall_forall. intros e He. rewrite Forall_forall in Hop. specialize (Hop e He). cbn.
      rewrite elem_of_union, elem_of_singleton. intros [E|?]; [|done]. apply Hn. rewrite <- E.
      apply (list_elem_of_fmap_2 rq_chan). by apply (list_elem_of_fmap_2 snd).
    + intros c'. rewrite elem_of_union, elem_of_singleton. intros [->|?]; [done|by apply Hcl].
  - apply (with_lock_ok (purge_inactive_flows now d)); [done|]. split; [|done]. by apply (rs_inv_core s); [split_and!|].
Qed.

Inductive rs_step : ReqSched -> ReqSched -> Prop :=
  | RsOk op s s' : rs_in_order s op -> rs_exec op s = Ok tt s' -> rs_step s s'
  | RsErr op s e s' : rs_in_order s op -> rs_exec op s = Err e s' -> rs_step s s'.

Lemma rs_new_inv cap d : 1 <= cap -> 0 <= d < 2 ^ 32 -> rs_inv (rs_new cap d).
Proof.
  intros Hc Hd. split; cbn; try done; try constructor; try lia; try (by constructor).
Qed.

Lemma rs_history_inv cap d s : 1 <= cap -> 0 <= d < 2 ^ 32 -> rtc rs_step (rs_new cap d) s -> rs_inv s /\ locked s = false.
Proof.
  intros Hc Hd Hr. apply (rtc_invariant rs_step (fun s => rs_inv s /\ locked s = false) (rs_new cap d) s); [|done|split; [by apply rs_new_inv|done]].
  intros a b [Ha Hl] Hab. destruct Hab as [op' a b Ho' E|op' a e b Ho' E];
    destruct (rs_exec_ok op' a Ha Hl Ho') as [Hk Hl']; rewrite E in Hk, Hl'; [by destruct Hk|destruct e; by destruct Hk].
Qed.

(** C33: for clients that do not give up on a waiting request, every call returns;
    at every point the slots in use are the guards alive and at most [depth], the
    backlog is bounded by its capacity, ordered by start tag and never waits
    while a slot is free, the lock is free between calls, and the virtual clock
    never runs backwards. *)
Theorem request_scheduler_invariant cap d s op :
  1 <= cap -> 0 <= d < 2 ^ 32 -> rtc rs_step (rs_new cap d) s -> rs_in_order s op ->
  rs_inv s /\ rs_ok s (rs_exec op s) /\ locked (state_of s (rs_exec op s)) = false.
Proof.
  intros Hc Hd Hr Ho. destruct (rs_history_inv cap d s Hc Hd Hr) as [Hi Hl]. split; [done|]. by apply rs_exec_ok.
Qed.

(** A freed slot goes to the waiting request with the least start tag, which
    becomes the virtual time, and its guard is delivered on its channel. *)
Theorem release_serves_first c cost f s k r rest :
  rs_inv s -> locked s = false -> guard_flow c (guards s) = Some f -> backlog s = (k, r) :: rest ->
  exists s', rs_exec (RDropGuard c cost) s = Ok tt s' /\
    Forall (fun e => rq_start_tag r <= e.1) rest /\ backlog s' = rest /\
    virtual_time s' = rq_start_tag r /\ guards s' = take_guard c (guards s) ++ [(rq_chan r, rq_flow r)] /\
    serving s' = serving s.
Proof.
  intros Hi Hl Hg Hb. unfold RequestScheduler.rs_exec, serving_guard_drop, with_lock, release, release_with, pickup_with. mred. rewrite Hg.
  cbn [backlog put_serving put_counters put_flows put_guards put_locked locked]. rewrite Hl, Hb.
  destruct (inv_freed c f s Hi Hg) as (E & H1 & _ & _ & _). cbn in E.
  pose proof (rs_open _ Hi) as Ho. rewrite Hb in Ho. apply Forall_cons in Ho as [Ho _].
  rewrite dispatch_open by done. eexists. split; [reflexivity|].
  pose proof (rs_sorted _ Hi) as Hs. pose proof (rs_keys _ Hi) as Hk. rewrite Hb in *.
  apply Forall_cons in Hk as [Hk _]. cbn in *. subst k. apply StronglySorted_inv in Hs as [_ Hs].
  split_and!; try done.
  - apply (Forall_fmap fst (Z.le (rq_start_tag r)) rest). exact Hs.
  - rewrite E. destruct (rs_serving _ Hi) as (? & ? & ?).
    rewrite wrap_small by (unfold in_width; lia). lia.
Qed.

(** ** Clients that give up *)

(** Whatever clients do *)
Definition rs_any (s s' : ReqSched) : Prop := exists op, state_of s (rs_exec op s) = s'.
(** The calls that use the scheduler: giving up on a request does not, nor does
    dropping a guard that one does not hold. *)
Definition uses_lock (s : ReqSched) (op : rs_op) : Prop :=
  match op with RCancel _ => False | RDropGuard c _ => is_Some (guard_flow c (guards s)) | _ => True end.

Lemma locked_blocks s op : locked s = true -> uses_lock s op -> exists s', rs_exec op s = Err Blocked s'.
Proof.
  intros Hl Hu. destruct op as [now f w|c cost|c|now d]; cbn in Hu; [| |done|]; unfold RequestScheduler.rs_exec; mred.
  - unfold with_lock. rewrite Hl. by eexists.
  - destruct Hu as [f ->]. unfold serving_guard_drop, with_lock. cbn. rewrite Hl. by eexists.
  - unfold with_lock. rewrite Hl. by eexists.
Qed.

Lemma locked_stays s s' : locked s = true -> rs_any s s' -> locked s' = true.
Proof.
  intros Hl [op <-]. destruct op as [now f w|c cost|c|now d]; unfold RequestScheduler.rs_exec; mred; cbn; try done.
  - unfold with_lock. by rewrite Hl.
  - destruct (guard_flow c (guards s)); [|done]. unfold serving_guard_drop, with_lock. cbn. by rewrite Hl.
  - unfold with_lock. by rewrite Hl.
Qed.

(** Releasing a slot under the lock while the first client waiting is gone *)
Lemma release_blocked f cost s k r rest : locked s = true -> backlog s = (k, r) :: rest -> rq_chan r ∈ closed s ->
  exists s', release lost_cost f cost s = Err Blocked s' /\ locked s' = true.
Proof.
  intros Hl Hb Hc. unfold release, release_with, pickup_with. mred. cbn [backlog put_serving put_counters put_flows]. rewrite Hb.
  match goal with |- context [RequestScheduler.dispatch _ r ?st] => destruct (dispatch_closed r st Hc Hl) as (s' & -> & Hl') end. by exists s'.
Qed.

Lemma drop_blocked c cost f s k r rest : locked s = false -> backlog s = (k, r) :: rest -> guard_flow c (guards s) = Some f -> rq_chan r ∈ closed s ->
  exists s', rs_exec (RDropGuard c cost) s = Err Blocked s' /\ locked s' = true.
Proof.
  intros Hl Hb Hg Hc. destruct (release_blocked f cost (put_locked true (put_guards (take_guard c (guards s)) s)) k r rest) as (s2 & Es & Hl2); [done..|].
  exists s2. split; [|done]. unfold RequestScheduler.rs_exec, serving_guard_drop, with_lock. mred. rewrite Hg. cbn [locked put_guards]. by rewrite Hl, Es.
Qed.

(** C34: one client that gives up while its request is the first waiting stops the
    queue for good: the next guard dropped, whichever it is, never returns, since
    the guard sent to the client that is gone is dropped under the lock and locks
    again; and whatever clients do after that, every call that uses the scheduler
    blocks for ever. *)
Theorem cancelled_request_deadlocks cap d s k r rest c f cost :
  1 <= cap -> 0 <= d < 2 ^ 32 -> rtc rs_step (rs_new cap d) s -> backlog s = (k, r) :: rest -> guard_flow c (guards s) = Some f ->
  exists s1 s2, rs_exec (RCancel (rq_chan r)) s = Ok tt s1 /\ rs_exec (RDropGuard c cost) s1 = Err Blocked s2 /\
    forall s3 op, rtc rs_any s2 s3 -> uses_lock s3 op -> exists s4, rs_exec op s3 = Err Blocked s4.
Proof.
  intros Hc Hd Hr Hb Hg. destruct (rs_history_inv cap d s Hc Hd Hr) as [_ Hl]. set (s1 := put_closed ({[rq_chan r]} ∪ closed s) s).
  destruct (drop_blocked c cost f s1 k r rest Hl Hb Hg ltac:(set_solver)) as (s2 & Es & Hl2). exists s1, s2. do 2 (split; [done|]).
  intros s3 op H3 Hu. apply locked_blocks; [|done].
  apply (rtc_invariant rs_any (fun s => locked s = true) s2 s3); [|done|done]. intros a b Ha Hab. by eapply locked_stays.
Qed.
End lemmas.

(** * Concrete runs of the two schedulers

    The scheduler theorems at concrete states, with the sorted list as tree. *)

#[local] Existing Instance sorted_rb.

(** ** Task scheduler: one core, task 1 served, task 2 waiting *)

Definition ts_1 : TaskSched :=
  default (sched_new 1) (ts_run [TPoll 11 1 1; TPoll 12 2 1] (sched_new 1)).

Lemma ts_1_history : rtc ts_step (sched_new 1) ts_1.
Proof.
  eapply rtc_l; [apply (TsStep (TPoll 11 1 1)); [done|vm_compute; reflexivity]|].
  eapply rtc_l; [apply (TsStep (TPoll 12 2 1)); [vm_compute; done|vm_compute; reflexivity]|].
  apply rtc_refl.
Qed.

Lemma task_scheduler_invariant_witness :
  exists s', ts_exec (TExit 1) ts_1 = Some s' /\ sched_inv s' /\ woken s' = [11; 12].
Proof.
  destruct (task_scheduler_invariant 1 ts_1 (TExit 1)) as (_ & s' & E & Hi);
    [lia|exact ts_1_history|vm_compute; discriminate|].
  exists s'. split; [exact E|]. split; [exact Hi|]. vm_compute in E. by injection E as <-.
Defined.

(** Task 5 waiting while both cores are free. *)
Definition ts_2 : TaskSched := mkTS {[ 5 := mkTask Ready 0 ]} [(0, mkReady 5 9)] 0 2 0 [].

Lemma ts_2_pre : sched_pre ts_2.
Proof.
  exact (add_ready_pre 0 5 9 (sched_new 2) (proj1 (sched_new_inv 2 ltac:(lia))) ltac:(done) eq_refl).
Qed.

Lemma schedule_wakes_first_witness : woken (schedule ts_2) = [9] /\ ready_tasks (schedule ts_2) = [].
Proof.
  destruct (schedule_wakes_first ts_2 ts_2_pre) as (H1 & H2 & _). rewrite H1, H2. by vm_compute.
Defined.

Lemma restarted_task_panics_witness :
  exists s, ts_run (RB := sorted_rb _) restart_ops (sched_new 2) = Some s /\
    ts_exec (RB := sorted_rb _) (TDrop 3 1 10) s = None.
Proof. exact (restarted_task_panics (RB := sorted_rb _)). Defined.

(** ** Request scheduler: one slot, one request served, one waiting *)

Definition rs_0 : ReqSched := rs_new 2 1.
Definition rs_1 : ReqSched := state_of rs_0 (rs_exec 0 (RAcquire 0 7 1) rs_0).
Definition rs_2 : ReqSched := state_of rs_1 (rs_exec 0 (RAcquire 0 8 1) rs_1).

Lemma rs_2_history : rtc (rs_step 0) rs_0 rs_2.
Proof.
  eapply rtc_l; [apply (RsOk 0 (RAcquire 0 7 1)); [done|vm_compute; reflexivity]|].
  eapply rtc_l; [apply (RsOk 0 (RAcquire 0 8 1)); [done|vm_compute; reflexivity]|].
  apply rtc_refl.
Qed.

Lemma request_scheduler_invariant_witness :
  rs_inv rs_2 /\ serving rs_2 = 1 /\ length (backlog rs_2) = 1%nat.
Proof.
  destruct (request_scheduler_invariant 0 2 1 rs_2 (RPurge 0 0)) as [Hi _];
    [lia|lia|exact rs_2_history|done|].
  split; [exact Hi|]. vm_compute. by split.
Defined.

Lemma rs_2_inv : rs_inv rs_2 /\ locked rs_2 = false.
Proof. apply (rs_history_inv 0 2 1); [lia|lia|exact rs_2_history]. Qed.

Lemma release_serves_first_witness :
  exists s', rs_exec 0 (RDropGuard 0 50) rs_2 = Ok tt s' /\ guards s' = [(1, 8)].
Proof.
  destruct (release_serves_first 0 0 50 7 rs_2 0 (mkRequest 8 0 1 1) []) as (s' & E & _ & _ & _ & Hg & _);
    [exact (proj1 rs_2_inv)|exact (proj2 rs_2_inv)|by vm_compute|by vm_compute|].
  exists s'. split; [exact E|]. rewrite Hg. by vm_compute.
Defined.

(** The client of flow 8 goes away while its request waits; then the guard of flow
    7 is dropped, and a third client asks. *)
Lemma cancelled_request_deadlocks_witness : exists s1 s2 s3, rs_exec 0 (RCancel 1) rs_2 = Ok tt s1 /\
  rs_exec 0 (RDropGuard 0 50) s1 = Err Blocked s2 /\ rs_exec 0 (RAcquire 9 9 1) s2 = Err Blocked s3.
Proof.
  destruct (cancelled_request_deadlocks 0 2 1 rs_2 0 (mkRequest 8 0 1 1) [] 0 7 50) as (s1 & s2 & E1 & E2 & H);
    [lia|lia|exact rs_2_history|by vm_compute|by vm_compute|].
  destruct (H s2 (RAcquire 9 9 1) (rtc_refl _ _) I) as [s3 E3]. exists s1, s2, s3. split; [exact E1|]. split; [exact E2|exact E3].
Defined.
