(* ===== verification/PoolExt.v ===== *)
(** * What the pools call outside the repository

    The pools keep their free stake as W-PHA, an asset of [pallet_assets], and
    the shares of their contributors in NFTs of [pallet_rmrk_core] and
    [pallet_uniques]. [PoolConfig] lists the calls on them (and the runtime's
    constants); [PoolLaws] states what those pallets document of the calls, on
    a view of their storage: the NFTs that exist, their properties, and the
    W-PHA balances. A call that fails leaves their storage alone. *)

From S2P Require Import Prelude MqTypes Storage.

Inductive MintResult (X : Type) := Minted (x : X) | BelowMinimum | MintFailed.
Arguments Minted {X} x.
Arguments BelowMinimum {X}.
Arguments MintFailed {X}.

Class PoolConfig (X : Type) := {
  (** [pallet_assets], for the asset [WPhaAssetId] *)
  wpha_exists : X -> bool;
  wpha_minimum_balance : X -> Balance;
  wpha_maybe_balance : X -> Account -> option Balance;
  (** [Mutate::transfer(.., Preservation::Expendable)] *)
  wpha_transfer : Account -> Account -> Balance -> X -> option X;
  wpha_mint_into : Account -> Balance -> X -> MintResult X;
  (** [burn_from(.., Precision::BestEffort, Fortitude::Force)] *)
  wpha_burn_from : Account -> Balance -> X -> option (Balance * X);
  (** [pallet_rmrk_core] and [pallet_uniques] *)
  collection_issuer : X -> CollectionId -> option Account;
  rmrk_create_collection : Account -> CollectionId -> bytes -> X -> option X;
  rmrk_mint_nft : Account -> Account -> NftId -> CollectionId -> X -> option X;
  rmrk_nft_burn : Account -> CollectionId -> NftId -> Z -> X -> option X;
  rmrk_set_lock : CollectionId -> NftId -> bool -> X -> X;
  rmrk_remove_lock : CollectionId -> NftId -> X -> X;
  rmrk_properties : X -> CollectionId -> NftId -> bytes -> option bytes;
  rmrk_set_property : CollectionId -> NftId -> bytes -> bytes -> X -> option X;
  rmrk_remove_property : CollectionId -> NftId -> bytes -> X -> X;
  owned_in_collection : X -> CollectionId -> Account -> list NftId;
  (** [pallet_uniques::Config::{KeyLimit, ValueLimit}] and [CollectionSymbolLimit] *)
  KeyLimit : Z;
  ValueLimit : Z;
  CollectionSymbolLimit : Z;
  (** [NftAttr::encode] and [Decode::decode] *)
  encode_attr : NftAttr -> bytes;
  decode_attr : bytes -> option NftAttr;
  (** SCALE encodings that are hashed, [blake2_256], and the decoding of an
      account id from bytes followed by zeros *)
  encode_pid_account : Z -> Account -> bytes;
  encode_pid_worker : Z -> WorkerPublicKey -> bytes;
  blake2_256 : bytes -> bytes;
  decode_account : bytes -> Account;
  (** [Permill * Balance] of [sp_runtime] *)
  permill_mul : Permill -> Balance -> Balance;
  MigrationAccountId : Account;
  (** rounds a loop is run for, levels a recursion goes down *)
  loop_fuel : nat;
}.

Section calls.
Context {X : Type} `{PC : !PoolConfig X}.

Definition wpha_balance (x : X) (a : Account) : Balance := default 0 (wpha_maybe_balance x a).

(** A fallible call into those pallets; [?] on its result. *)
Definition ext_try (f : X -> option X) : H X unit :=
  s ← get_st; x ← ok_or (f (ext s)) ExtError; modify (put_ext x).
Definition ext_upd (f : X -> X) : H X unit := modify (fun s => put_ext (f (ext s)) s).

(** [.try_into()] of a byte vector into a [BoundedVec] *)
Definition bvec (limit : Z) (b : bytes) : option bytes :=
  if Z.of_nat (length b) <=? limit then Some b else None.
End calls.

(** ** The documented behaviour *)

Record NftView := mkNft { nft_owner : Account; nft_children : bool }.

Class PoolView (X : Type) := {
  nfts : X -> gmap (CollectionId * NftId) NftView;
  nft_locked : X -> CollectionId -> NftId -> bool;
}.

Section views.
Context {X : Type} `{PC : !PoolConfig X} `{PV : !PoolView X}.

(** The same W-PHA state *)
Definition same_assets (x x' : X) : Prop :=
  wpha_exists x' = wpha_exists x /\ wpha_minimum_balance x' = wpha_minimum_balance x /\
  forall a, wpha_maybe_balance x' a = wpha_maybe_balance x a.

(** The same collections, NFTs and properties *)
Definition same_nfts (x x' : X) : Prop :=
  nfts x' = nfts x /\ (forall c, collection_issuer x' c = collection_issuer x c) /\
  forall c n k, rmrk_properties x' c n k = rmrk_properties x c n k.
End views.

Class PoolLaws (X : Type) `{PC : !PoolConfig X} `{PV : !PoolView X} : Prop := {
  wpha_min_pos : forall x, 0 < wpha_minimum_balance x;
  wpha_balance_range : forall x a b, wpha_maybe_balance x a = Some b -> 0 <= b < 2 ^ 128;
  (** A transfer credits the amount; the sender also loses what would be left
      below the minimum balance. *)
  transfer_spec : forall a b v x x', wpha_transfer a b v x = Some x' ->
    same_nfts x x' /\ wpha_exists x' = wpha_exists x /\
    wpha_minimum_balance x' = wpha_minimum_balance x /\
    (forall c, c <> a -> c <> b -> wpha_maybe_balance x' c = wpha_maybe_balance x c) /\
    (a <> b -> exists d,
      (d = v \/ d = wpha_balance x a /\ wpha_balance x a - v < wpha_minimum_balance x) /\
      wpha_balance x' a = wpha_balance x a - d /\ wpha_balance x' b = wpha_balance x b + v);
  (** W-PHA is a sufficient asset: an account with the minimum balance can be created. *)
  transfer_ok : forall a b v x, 0 <= v <= wpha_balance x a ->
    is_Some (wpha_maybe_balance x b) \/ wpha_minimum_balance x <= v ->
    wpha_balance x b + wpha_balance x a < 2 ^ 128 -> is_Some (wpha_transfer a b v x);
  mint_into_spec : forall a v x x', wpha_mint_into a v x = Minted x' ->
    same_nfts x x' /\ wpha_exists x' = wpha_exists x /\
    wpha_minimum_balance x' = wpha_minimum_balance x /\
    (forall c, c <> a -> wpha_maybe_balance x' c = wpha_maybe_balance x c) /\
    wpha_balance x' a = wpha_balance x a + v;
  burn_from_spec : forall a v x d x', wpha_burn_from a v x = Some (d, x') -> same_nfts x x';
  create_collection_spec : forall who c sym x x', rmrk_create_collection who c sym x = Some x' ->
    collection_issuer x c = None /\ nfts x' = nfts x /\ same_assets x x' /\
    (forall c', collection_issuer x' c' = if decide (c' = c) then Some who else collection_issuer x c') /\
    (forall c n k, rmrk_properties x' c n k = rmrk_properties x c n k);
  rmrk_mint_spec : forall who o n c x x', rmrk_mint_nft who o n c x = Some x' ->
    nfts x !! (c, n) = None /\ nfts x' = <[ (c, n) := mkNft o false ]> (nfts x) /\
    same_assets x x' /\ (forall c, collection_issuer x' c = collection_issuer x c) /\
    (forall c n k, rmrk_properties x' c n k = rmrk_properties x c n k);
  rmrk_mint_ok : forall who o n c x, collection_issuer x c = Some who -> nfts x !! (c, n) = None ->
    is_Some (rmrk_mint_nft who o n c x);
  (** With a budget of one the NFT alone is burnt. *)
  rmrk_burn_spec : forall o c n x x', rmrk_nft_burn o c n 1 x = Some x' ->
    (exists w, nfts x !! (c, n) = Some w /\ nft_owner w = o) /\
    nfts x' = delete (c, n) (nfts x) /\ same_assets x x' /\
    (forall c, collection_issuer x' c = collection_issuer x c) /\
    (forall c' n' k, (c', n') <> (c, n) -> rmrk_properties x' c' n' k = rmrk_properties x c' n' k);
  rmrk_burn_ok : forall o c n x, nfts x !! (c, n) = Some (mkNft o false) ->
    nft_locked x c n = false -> is_Some (rmrk_nft_burn o c n 1 x);
  set_lock_spec : forall c n b x, let x' := rmrk_set_lock c n b x in
    same_nfts x x' /\ same_assets x x' /\ nft_locked x' c n = b;
  remove_lock_spec : forall c n x, let x' := rmrk_remove_lock c n x in
    same_nfts x x' /\ same_assets x x';
  set_property_spec : forall c n k v x x', rmrk_set_property c n k v x = Some x' ->
    nfts x' = nfts x /\ same_assets x x' /\
    (forall c, collection_issuer x' c = collection_issuer x c) /\
    (forall c' n' k', rmrk_properties x' c' n' k' =
      if decide ((c', n', k') = (c, n, k)) then Some v else rmrk_properties x c' n' k');
  set_property_ok : forall c n k v x, is_Some (collection_issuer x c) -> is_Some (nfts x !! (c, n)) ->
    nft_locked x c n = false -> is_Some (rmrk_set_property c n k v x);
  remove_property_spec : forall c n k x, let x' := rmrk_remove_property c n k x in
    nfts x' = nfts x /\ same_assets x x' /\
    (forall c, collection_issuer x' c = collection_issuer x c) /\
    (forall c' n' k', (c', n', k') <> (c, n, k) ->
      rmrk_properties x' c' n' k' = rmrk_properties x c' n' k');
  owned_NoDup : forall x c a, NoDup (owned_in_collection x c a);
  owned_spec : forall x c a n, n ∈ owned_in_collection x c a <->
    exists w, nfts x !! (c, n) = Some w /\ nft_owner w = a;
  nft_collection : forall x c n w, nfts x !! (c, n) = Some w -> is_Some (collection_issuer x c);
  (** An account id is the first 32 bytes. *)
  decode_account_head : forall p q b b', length p = 3%nat -> length q = 3%nat ->
    decode_account (p ++ b) = decode_account (q ++ b') -> p = q;
  attr_roundtrip : forall at_, decode_attr (encode_attr at_) = Some at_;
  (** A balance takes 16 bytes; the limits hold the keys and values the pools use. *)
  attr_fits : forall at_, Z.of_nat (length (encode_attr at_)) <= ValueLimit;
  key_fits : 10 <= KeyLimit;
  time_fits : 20 <= ValueLimit;
  permill_mul_range : forall p b, 0 <= p <= 1000000 -> 0 <= b -> 0 <= permill_mul p b <= b;
}.
