(* ===== verification/BasePool.v ===== *)
(** * The base pool (pallets/phala/src/compute/base_pool.rs, pool_proxy.rs)

    What stake pools and vaults share: shares held in NFTs, the share price,
    contribution, the withdraw queue, reward distribution and the contribution
    whitelists. A function on [&mut BasePool] returns the pool it leaves; an
    [NftGuard] is the attribute it holds plus its entry in [NftLocks], removed
    where the guard is dropped. Code after an early return of a
    [transactional] function is rolled back, so guards are dropped on the
    normal paths only. *)

From stdpp Require Import pretty.
From S2P Require Import Prelude MqTypes Storage MqPallet FixedPoint Registry Computation PoolExt.

Definition MAX_RECURSIONS : Z := 1.
Definition MAX_WHITELIST_LEN : Z := 100.
Definition RESERVE_CID_START : CollectionId := 10000.
Definition NFT_PROPERTY_KEY : bytes := bs "stake-info".

(** ** Dust *)

Definition balance_close_to_zero (n : Balance) : bool := n <=? 1000.
Definition is_nondust_balance (n : Balance) : bool := negb (balance_close_to_zero n).
Definition extract_dust (n : Balance) : Balance * Balance :=
  if balance_close_to_zero n then (0, n) else (n, 0).

(** [match pool_proxy { Vault(p) => p.basepool, StakePool(p) => p.basepool }] *)
Definition basepool_of (p : PoolProxy) : BasePool :=
  match p with PVault v => v_basepool v | PStakePool p => sp_basepool p end.

(** [BTreeMap<AccountId, WithdrawEventStats>], in the order of its keys, and
    [map.entry(user).or_default()] updated by [f] *)
Record WithdrawEventStats := mkStats { e_amount : Balance; e_shares : Balance; e_burnt : Balance }.

Fixpoint stats_entry (u : Account) (f : WithdrawEventStats -> WithdrawEventStats)
    (l : list (Account * WithdrawEventStats)) : list (Account * WithdrawEventStats) :=
  match l with
  | [] => [(u, f (mkStats 0 0 0))]
  | (u', st) :: l' =>
      if u =? u' then (u', f st) :: l'
      else if u <? u' then (u, f (mkStats 0 0 0)) :: l
      else (u', st) :: stats_entry u f l'
  end.
Definition add_burnt (b : Balance) (e : WithdrawEventStats) : WithdrawEventStats :=
  mkStats (e_amount e) (e_shares e) (e_burnt e +[128] b).
Definition add_withdrawn (a b : Balance) (e : WithdrawEventStats) : WithdrawEventStats :=
  mkStats (e_amount e +[128] a) (e_shares e +[128] b) (e_burnt e).

Section base_pool.
Context {X : Type} `{BE : !BlockEnv} `{FC : !FixedCrate} `{CF : !CompConfig X} `{PC : !PoolConfig X}.
Implicit Types pool : BasePool.

Definition bp_event (e : BpEvent) : H X unit := deposit_event (EvBp e).
Definition mod_bp (f : BpState -> BpState) : H X unit := modify (upd_bp f).
Definition insert_pool (pid : Z) (p : PoolProxy) : H X unit :=
  mod_bp (fun b => put_pools (<[ pid := p ]> (pools b)) b).

(** ** Accounts *)

Definition pallet_id : Account := decode_account (bs "basepool").
Definition generate_staker_account (pid : Z) (owner : Account) : Account :=
  decode_account (bs "bp/" ++ blake2_256 (encode_pid_account pid owner)).

(** ** Pools by id (pool_proxy.rs) *)

Definition ensure_stake_pool (pid : Z) : H X StakePool :=
  b ← gets bp;
  p ← ok_or (pools b !! pid) (BpErr PoolDoesNotExist);
  match p with PStakePool res => mret res | _ => fail (BpErr PoolTypeNotMatch) end.
Definition ensure_vault (pid : Z) : H X Vault :=
  b ← gets bp;
  p ← ok_or (pools b !! pid) (BpErr PoolDoesNotExist);
  match p with PVault res => mret res | _ => fail (BpErr PoolTypeNotMatch) end.

(** [wrapped_balances::Pallet::min_balance] *)
Definition min_balance : H X Balance :=
  x ← gets ext; if wpha_exists x then mret (wpha_minimum_balance x) else panic.

(** ** [impl BasePool] *)

(** The outer [None] is the overflow panic of [to_fixed]. *)
Definition share_price pool : option (option FixedBits) :=
  v ← to_fixed (total_value pool);
  n ← to_fixed (total_shares pool);
  Some (u64f64_checked_div v n).

Definition slash (amount : Balance) pool : BasePool :=
  let amount := Z.min (total_value pool) amount in
  let '(new_stake, _) := extract_dust (total_value pool -[128] amount) in
  put_total_value new_stake pool.

Definition get_free_stakes pool : H X Balance :=
  x ← gets ext; mret (wpha_balance x (pool_account_id pool)).

(** ** NFTs *)

Definition get_nft_attr (cid : CollectionId) (nft_id : NftId) : H X NftAttr :=
  key ← expect (bvec KeyLimit NFT_PROPERTY_KEY);
  x ← gets ext;
  raw ← ok_or (rmrk_properties x cid nft_id key) (BpErr MissCollectionId);
  expect (decode_attr raw).

Definition set_nft_attr (cid : CollectionId) (nft_id : NftId) (nft : NftAttr) : H X unit :=
  transactional (
    key ← expect (bvec KeyLimit NFT_PROPERTY_KEY);
    value ← expect (bvec ValueLimit (encode_attr nft));
    ext_upd (rmrk_set_lock cid nft_id false);;
    ext_try (rmrk_set_property cid nft_id key value);;
    ext_upd (rmrk_set_lock cid nft_id true)).

Definition set_nft_desc_attr (cid : CollectionId) (nft_id : NftId) : H X unit :=
  ext_upd (rmrk_set_lock cid nft_id false);;
  key ← expect (bvec KeyLimit (bs "createtime"));
  value ← expect (bvec ValueLimit (bs (pretty now_sec)));
  ext_try (rmrk_set_property cid nft_id key value);;
  ext_upd (rmrk_set_lock cid nft_id true).

Definition remove_properties (cid : CollectionId) (nft_id : NftId) : H X unit :=
  key ← expect (bvec KeyLimit (bs "createtime"));
  ext_upd (rmrk_remove_property cid nft_id key).

Definition get_next_nft_id (cid : CollectionId) : H X NftId :=
  b ← gets bp;
  let current_id := default 0 (next_nft_ids b !! cid) in
  next ← ok_or (checked_add 32 current_id 1) (BpErr NftIdNotFound);
  mod_bp (fun b => put_next_nft_ids (<[ cid := next ]> (next_nft_ids b)) b);;
  mret current_id.

Definition mint_nft (cid : CollectionId) (contributer : Account) (sh : Balance) (pid : Z) : H X NftId :=
  transactional (
    x ← gets ext;
    _ ← ok_or (collection_issuer x cid) ExtError;
    nft_id ← get_next_nft_id cid;
    ext_try (rmrk_mint_nft pallet_id contributer nft_id cid);;
    set_nft_attr cid nft_id (mkAttr sh);;
    set_nft_desc_attr cid nft_id;;
    ext_upd (rmrk_set_lock cid nft_id true);;
    bp_event (NftCreated pid cid nft_id contributer sh);;
    mret nft_id).

Definition burn_nft (owner : Account) (cid : CollectionId) (nft_id : NftId) : H X unit :=
  transactional (
    ext_upd (rmrk_set_lock cid nft_id false);;
    or_err (ext_try (rmrk_nft_burn owner cid nft_id MAX_RECURSIONS)) (BpErr BurnNftFailed);;
    remove_properties cid nft_id;;
    ext_upd (rmrk_remove_lock cid nft_id)).

(** [NftGuard]: taking it, dropping it ([Drop], [unlock]) and [save]. *)
Definition get_nft_attr_guard (cid : CollectionId) (nft_id : NftId) : H X NftAttr :=
  nft ← get_nft_attr cid nft_id;
  b ← gets bp;
  ensure (bool_decide ((cid, nft_id) ∉ nft_locks b)) (BpErr AttrLocked);;
  mod_bp (fun b => put_nft_locks ({[ (cid, nft_id) ]} ∪ nft_locks b) b);;
  mret nft.
Definition guard_drop (cid : CollectionId) (nft_id : NftId) : H X unit :=
  mod_bp (fun b => put_nft_locks (nft_locks b ∖ {[ (cid, nft_id) ]}) b).
Definition guard_save (cid : CollectionId) (nft_id : NftId) (nft : NftAttr) : H X unit :=
  set_nft_attr cid nft_id nft;; guard_drop cid nft_id.
(** A guard taken only to read the attribute *)
Definition read_nft (cid : CollectionId) (nft_id : NftId) : H X NftAttr :=
  nft ← get_nft_attr_guard cid nft_id; guard_drop cid nft_id;; mret nft.

(** [for nftid in nfts { .. }]: the sum of their shares; they are burnt. *)
Fixpoint burn_all (staker : Account) (cid : CollectionId) (l : list NftId) (total : Balance) : H X Balance :=
  match l with
  | [] => mret total
  | nft_id :: l' =>
      nft ← expect_ok (read_nft cid nft_id);
      expect_ok (burn_nft staker cid nft_id);;
      burn_all staker cid l' (total +[128] shares nft)
  end.

Definition merge_nft_for_staker (cid : CollectionId) (staker : Account) (pid : Z) : H X (option NftId) :=
  x ← gets ext;
  match owned_in_collection x cid staker with
  | [] => mret None
  | [n] => mret (Some n)
  | l =>
      total ← burn_all staker cid l 0;
      nft_id ← mint_nft cid staker total pid;
      mret (Some nft_id)
  end.

(** ** Shares in and out *)

Definition add_stake_to_new_nft pool (account_id : Account) (amount : Balance) : H X (Balance * BasePool) :=
  price ← expect (share_price pool);
  sh ← match price with
       | Some price => if price =? 0 then mret amount else expect (bdiv amount price)
       | None => mret amount
       end;
  expect_ok (mint_nft (b_cid pool) account_id sh (b_pid pool));;
  let pool := put_total_shares (total_shares pool +[128] sh) pool in
  let pool := put_total_value (total_value pool +[128] amount) pool in
  expect_ok (ext_try (wpha_transfer account_id (pool_account_id pool) amount));;
  mret (sh, pool).

(** [None]: the function's own [None]. The attribute it leaves comes back. *)
Definition remove_stake_from_nft pool (sh : Balance) (nft : NftAttr) (userid : Account) :
    H X (option (Balance * Balance * BasePool * NftAttr)) :=
  price ← expect (share_price pool);
  match price with
  | None => mret None
  | Some price =>
      amount ← expect (bmul sh price);
      free ← get_free_stakes pool;
      let amount := Z.min amount free in
      match checked_sub (shares nft) sh with
      | None => mret None
      | Some user_shares =>
          let '(user_shares, shares_dust) := extract_dust user_shares in
          let removed_shares := sh +[128] shares_dust in
          match checked_sub (total_shares pool) removed_shares with
          | None => mret None
          | Some total =>
              let '(total_stake, _) := extract_dust (total_value pool -[128] amount) in
              expect_ok (ext_try (wpha_transfer (pool_account_id pool) userid amount));;
              let pool := put_total_value (if 0 <? total_stake then total_value pool -[128] amount else 0) pool in
              let pool := put_total_shares total pool in
              mret (Some (amount, removed_shares, pool, mkAttr user_shares))
          end
      end
  end.

Definition contribute pool (account_id : Account) (amount : Balance) : H X (Balance * BasePool) :=
  transactional (
    ensure ((total_shares pool =? 0) || (0 <? total_value pool)) (BpErr PoolBankrupt);;
    b ← gets bp;
    (match pool_whitelists b !! b_pid pool with
     | Some whitelist =>
         ensure (bool_decide (account_id ∈ whitelist) || (b_owner pool =? account_id))
           (BpErr NotInContributeWhitelist)
     | None => mret tt
     end);;
    merge_nft_for_staker (b_cid pool) account_id (b_pid pool);;
    add_stake_to_new_nft pool account_id amount).

(** The requests of one user are taken out of the queue: their NFTs are
    burnt and their shares go back to [nft]. *)
Fixpoint return_queued (cid : CollectionId) (l : list WithdrawInfo) (nft : NftAttr) : H X NftAttr :=
  match l with
  | [] => mret nft
  | w :: l' =>
      in_queue ← read_nft cid (wd_nft_id w);
      expect_ok (burn_nft pallet_id cid (wd_nft_id w));;
      return_queued cid l' (mkAttr (shares nft +[128] shares in_queue))
  end.

Definition push_withdraw_in_queue pool (nft : NftAttr) (account_id : Account) (sh : Balance) :
    H X (option NftId * BasePool * NftAttr) :=
  transactional (
    price ← expect (share_price pool);
    match price with
    | None =>
        rest ← ok_or (checked_sub (shares nft) sh) (BpErr InvalidShareToWithdraw);
        mret (None, pool, mkAttr rest)
    | Some _ =>
        let mine := filter (fun w => wd_user w = account_id) (withdraw_queue pool) in
        let others := filter (fun w => wd_user w <> account_id) (withdraw_queue pool) in
        let pool := put_withdraw_queue others pool in
        nft ← return_queued (b_cid pool) mine nft;
        split_nft_id ← expect_ok (mint_nft (b_cid pool) pallet_id sh (b_pid pool));
        rest ← ok_or (checked_sub (shares nft) sh) (BpErr InvalidShareToWithdraw);
        let request := mkWithdraw account_id now_sec split_nft_id in
        let pool := put_withdraw_queue (withdraw_queue pool ++ [request]) pool in
        mret (Some split_nft_id, pool, mkAttr rest)
    end).

(** ** The withdraw queue *)

Definition maybe_remove_dust pool (nft : NftAttr) : H X (bool * BasePool) :=
  price ← expect (share_price pool);
  match price with
  | None => mret (false, pool)
  | Some price =>
      current_balance ← expect (bmul (shares nft) price);
      wpha_min ← min_balance;
      if wpha_min <? current_balance then mret (false, pool)
      else mret (true, put_total_shares (total_shares pool -[128] shares nft) pool)
  end.

(** [withdraw_queue.pop_front()] and the burning of the request's NFT *)
Definition pop_request pool (nft_id : NftId) : H X BasePool :=
  let pool := put_withdraw_queue (tail (withdraw_queue pool)) pool in
  expect_ok (burn_nft pallet_id (b_cid pool) nft_id);;
  mret pool.

Abbreviation Stats := (list (Account * WithdrawEventStats)) (only parsing).

(** The part of a round after the fast track: the request is fulfilled as far
    as the free stake goes. *)
Definition fulfil (price : FixedBits) pool (w : WithdrawInfo) (nft : NftAttr) (st : Stats) :
    H X (BasePool * Stats) :=
  free ← get_free_stakes pool;
  free_shares ← (if price =? 0 then mret (shares nft) else expect (bdiv free price));
  r ← remove_stake_from_nft pool (Z.min free_shares (shares nft)) nft (wd_user w);
  '(reduced, withdrawn, pool, nft) ← expect r;
  let st := stats_entry (wd_user w) (add_withdrawn reduced withdrawn) st in
  expect_ok (guard_save (b_cid pool) (wd_nft_id w) nft);;
  '(popped, pool) ← (if shares nft =? 0 then mret (true, pool) else maybe_remove_dust pool nft);
  if popped : bool then
    let st := if shares nft =? 0 then st else stats_entry (wd_user w) (add_burnt (shares nft)) st in
    pool ← pop_request pool (wd_nft_id w);
    mret (pool, st)
  else mret (put_withdraw_queue (w :: tail (withdraw_queue pool)) pool, st).

(** One round of the loop; [None] leaves it. *)
Definition process_round (price : FixedBits) (wpha_min : Balance) pool (st : Stats) :
    H X (option (BasePool * Stats)) :=
  free ← get_free_stakes pool;
  if negb (wpha_min <? free) then mret None
  else match withdraw_queue pool with
  | [] => mret None
  | w :: _ =>
      nft ← expect_ok (get_nft_attr_guard (b_cid pool) (wd_nft_id w));
      '(dust, pool) ← maybe_remove_dust pool nft;
      if dust : bool then
        let st := stats_entry (wd_user w) (add_burnt (shares nft)) st in
        guard_drop (b_cid pool) (wd_nft_id w);;
        pool ← pop_request pool (wd_nft_id w);
        mret (Some (pool, st))
      else
        r ← fulfil price pool w nft st;
        mret (Some r)
  end.

(** The loop, for as many rounds as the fuel; running out is a panic. *)
Fixpoint process_loop (fuel : nat) (price : FixedBits) (wpha_min : Balance) pool (st : Stats) :
    H X (BasePool * Stats) :=
  match fuel with
  | O => panic
  | S fuel =>
      r ← process_round price wpha_min pool st;
      match r with
      | None => mret (pool, st)
      | Some (pool, st) => process_loop fuel price wpha_min pool st
      end
  end.

Definition try_process_withdraw_queue pool : H X BasePool :=
  price ← expect (share_price pool);
  match price with
  | None => mret pool
  | Some price =>
      wpha_min ← min_balance;
      '(pool, st) ← process_loop loop_fuel price wpha_min pool [];
      for_each st (fun e => bp_event
        (Withdrawal (b_pid pool) e.1 (e_amount e.2) (e_shares e.2) (e_burnt e.2)));;
      mret pool
  end.

Definition try_withdraw pool (nft : NftAttr) (userid : Account) (sh : Balance) (nft_id : NftId)
    (as_vault : option Z) : H X (BasePool * NftAttr) :=
  '(maybe_split_nft_id, pool, nft) ← push_withdraw_in_queue pool nft userid sh;
  match maybe_split_nft_id with
  | Some split_nft_id =>
      bp_event (WithdrawalQueued (b_pid pool) userid sh nft_id as_vault split_nft_id);;
      pool ← try_process_withdraw_queue pool;
      mret (pool, nft)
  | None => mret (pool, nft)
  end.

(** The requests from the front of the queue on, with the stake left for them. *)
Fixpoint expired_from (cid : CollectionId) (price : FixedBits) (now grace_period : Z)
    (maybe_vault_queue_period : option Z) (l : list WithdrawInfo) (budget : Balance) : H X bool :=
  match l with
  | [] => mret false
  | request :: l' =>
      let age := now -[64] start_time request in
      if match maybe_vault_queue_period with Some p => p <? age | None => false end then mret true
      else
        nft ← expect_ok (read_nft cid (wd_nft_id request));
        amount ← expect (bmul (shares nft) price);
        if budget <? amount then mret (grace_period <? age)
        else expired_from cid price now grace_period maybe_vault_queue_period l' (budget -[128] amount)
  end.

Definition has_expired_withdrawal pool (now grace_period : Z) (maybe_vault_queue_period : option Z)
    (releasing_stake : Balance) : H X bool :=
  price ← expect (share_price pool);
  match price with
  | Some price =>
      if price =? 0 then mret false
      else
        free ← get_free_stakes pool;
        expired_from (b_cid pool) price now grace_period maybe_vault_queue_period
          (withdraw_queue pool) (free +[128] releasing_stake)
  | None => mret false
  end.

(** ** Rewards *)

(** The shares of the queued requests, added as fixed-point numbers *)
Fixpoint add_queued (cid : CollectionId) (l : list WithdrawInfo) (acc : FixedBits) : H X FixedBits :=
  match l with
  | [] => mret acc
  | w :: l' =>
      nft ← expect_ok (read_nft cid (wd_nft_id w));
      f ← expect (to_fixed (shares nft));
      add_queued cid l' (u64f64_add acc f)
  end.

(** The levels of the recursion through subscribed pools are bounded by the fuel. *)
Fixpoint distribute_reward_ (fuel : nat) pool (rewards : Balance) : H X BasePool :=
  match fuel with
  | O => panic
  | S fuel =>
      let pool := put_total_value (total_value pool +[128] rewards) pool in
      for_each (value_subscribers pool) (fun vault_staker =>
        vault ← expect_ok (ensure_vault vault_staker);
        let account := pool_account_id (v_basepool vault) in
        maybe_nft_id ← expect_ok (merge_nft_for_staker (b_cid pool) account (b_pid pool));
        match maybe_nft_id with
        | None => mret tt
        | Some nft_id =>
            nft ← expect_ok (read_nft (b_cid pool) nft_id);
            held ← expect (to_fixed (shares nft));
            vault_shares ← add_queued (b_cid pool)
              (filter (fun w => wd_user w = account) (withdraw_queue pool)) held;
            total ← expect (to_fixed (total_shares pool));
            match u64f64_checked_div vault_shares total with
            | None => mret tt
            | Some ratio =>
                stake_ratio ← expect (from_fixed ratio);
                fixed_rewards ← expect (to_fixed rewards);
                settled_stake ← expect (bmul stake_ratio fixed_rewards);
                basepool ← distribute_reward_ fuel (v_basepool vault) settled_stake;
                insert_pool vault_staker (PVault (put_v_basepool basepool vault))
            end
        end);;
      mret pool
  end.
Definition distribute_reward pool (rewards : Balance) : H X BasePool :=
  distribute_reward_ loop_fuel pool rewards.

(** ** Identifiers *)

Definition consume_new_pid : H X Z :=
  b ← gets bp;
  mod_bp (put_pool_count (pool_count b +[64] 1));;
  mret (pool_count b).

Definition consume_new_cid : H X CollectionId :=
  b ← gets bp;
  let n := if collection_index b <=? RESERVE_CID_START then RESERVE_CID_START else collection_index b in
  mod_bp (put_collection_index (n +[32] 1));;
  mret n.

Definition ensure_migration_root (user : Account) : H X unit :=
  ensure (user =? MigrationAccountId) (BpErr BpNotMigrationRoot).

(** ** Calls *)

Definition ensure_pool_owner (origin : Origin) (pid : Z) : H X unit :=
  owner ← ensure_signed origin;
  b ← gets bp;
  pool_proxy ← ok_or (pools b !! pid) (BpErr PoolDoesNotExist);
  ensure (b_owner (basepool_of pool_proxy) =? owner) (BpErr UnauthorizedPoolOwner).

Definition put_whitelist (pid : Z) (l : list Account) : H X unit :=
  mod_bp (fun b => put_pool_whitelists (<[ pid := l ]> (pool_whitelists b)) b).

Definition add_staker_to_whitelist (origin : Origin) (pid : Z) (staker : Account) : H X unit :=
  ensure_pool_owner origin pid;;
  b ← gets bp;
  (match pool_whitelists b !! pid with
   | Some whitelist =>
       ensure (bool_decide (staker ∉ whitelist)) (BpErr AlreadyInContributeWhitelist);;
       ensure (wrap 32 (Z.of_nat (length whitelist)) <? MAX_WHITELIST_LEN) (BpErr ExceedWhitelistMaxLen);;
       put_whitelist pid (whitelist ++ [staker])
   | None =>
       put_whitelist pid [staker];;
       bp_event (PoolWhitelistCreated pid)
   end);;
  bp_event (PoolWhitelistStakerAdded pid staker).

Definition set_pool_description (origin : Origin) (pid : Z) (description : bytes) : H X unit :=
  ensure_pool_owner origin pid;;
  mod_bp (fun b => put_pool_descriptions (<[ pid := description ]> (pool_descriptions b)) b).

Definition remove_staker_from_whitelist (origin : Origin) (pid : Z) (staker : Account) : H X unit :=
  ensure_pool_owner origin pid;;
  b ← gets bp;
  whitelist ← ok_or (pool_whitelists b !! pid) (BpErr NoWhitelistCreated);
  ensure (bool_decide (staker ∈ whitelist)) (BpErr NotInContributeWhitelist);;
  let whitelist := filter (fun a => a <> staker) whitelist in
  match whitelist with
  | [] =>
      mod_bp (fun b => put_pool_whitelists (delete pid (pool_whitelists b)) b);;
      bp_event (PoolWhitelistStakerRemoved pid staker);;
      bp_event (PoolWhitelistDeleted pid)
  | _ =>
      put_whitelist pid whitelist;;
      bp_event (PoolWhitelistStakerRemoved pid staker)
  end.

Definition claim_reimbursement (origin : Origin) (pid : Z) (target : Account) : H X unit :=
  transactional (
    who ← ensure_signed origin;
    b ← gets bp;
    rewards ← ok_or (reimbursements b !! (who, pid)) (BpErr NoReimbursementToClaim);
    mod_bp (fun b => put_reimbursements (delete (who, pid) (reimbursements b)) b);;
    or_err (withdraw_subsidy_pool target rewards) (BpErr InternalSubsidyPoolCannotWithdraw)).

Definition set_reimbursements (origin : Origin) (input : list (Account * Z * Balance)) (add : bool) : H X unit :=
  who ← ensure_signed origin;
  ensure_migration_root who;;
  for_each input (fun e =>
    let '(key, balance) := e in
    b ← gets bp;
    let new_balance := if add then default 0 (reimbursements b !! key) +[128] balance else balance in
    mod_bp (fun b => put_reimbursements (<[ key := new_balance ]> (reimbursements b)) b)).
End base_pool.
