(* ===== verification/WrappedBalances.v ===== *)
(** * Wrapped balances (pallets/phala/src/compute/wrapped_balances.rs)

    PHA is wrapped into W-PHA one to one; W-PHA is what is delegated to pools
    and what votes in referenda, through one account that votes with the sum of
    its users' amounts. [pallet_democracy] and the native currency are the
    class [WrapConfig]; the order in which a storage map is iterated is its
    field [iter_votes]. *)

From S2P Require Import Prelude MqTypes Storage MqPallet FixedPoint Registry Computation PoolExt BasePool.

Definition MAX_ITERRATIONS : Z := 100.

(** [pallet_democracy::AccountVote::Split] *)
Record SplitVote := mkSplit { aye : Balance; nay : Balance }.

Class WrapConfig (X : Type) := {
  WrappedBalancesAccountId : Account;
  (** [Currency::transfer(.., KeepAlive)] and [Currency::transfer(.., AllowDeath)] *)
  pha_transfer_keep_alive : Account -> Account -> Balance -> X -> option X;
  pha_transfer_allow_death : Account -> Account -> Balance -> X -> option X;
  (** [Currency::slash] followed by [OnSlashed::on_unbalanced] *)
  pha_slash : Account -> Balance -> X -> X;
  (** [pallet_democracy]: [matches!(referendum_info(id), Some(Ongoing(_)))] and [vote] *)
  referendum_ongoing : X -> Z -> bool;
  democracy_vote : Account -> Z -> SplitVote -> X -> option X;
  (** [VoteAccountMap::iter_prefix(..)]: the entries, in the order of their hashed keys *)
  iter_votes : gmap Account (Balance * Balance) -> list (Account * (Balance * Balance));
}.

Section wrapped_balances.
Context {X : Type} `{BE : !BlockEnv} `{FC : !FixedCrate} `{CF : !CompConfig X} `{PC : !PoolConfig X}
  `{WC : !WrapConfig X}.

Definition wb_event (e : WbEvent) : H X unit := deposit_event (EvWb e).
Definition mod_wb (f : WbState -> WbState) : H X unit := modify (upd_wb f).
Definition put_staker (who : Account) (fa : FinanceAccount) : H X unit :=
  mod_wb (fun w => put_staker_accounts (<[ who := fa ]> (staker_accounts w)) w).

(** ** Minting and burning W-PHA *)

Definition mint_into (target : Account) (amount : Balance) : H X bool :=
  x ← gets ext;
  match wpha_mint_into target amount x with
  | BelowMinimum =>
      mod_wb (fun w => put_unmintable_dust (unmintable_dust w +[128] amount) w);;
      mret false
  | MintFailed => fail ExtError
  | Minted x' => modify (put_ext x');; mret true
  end.

Definition burn_from (target : Account) (amount : Balance) : H X unit :=
  x ← gets ext;
  r ← ok_or (wpha_burn_from target amount x) ExtError;
  modify (put_ext r.2).

Definition remove_dust (who : Account) (dust : Balance) : H X unit :=
  if dust =? 0 then mret tt
  else
    x ← gets ext;
    r ← expect (wpha_burn_from who dust x);
    modify (put_ext r.2);;
    ext_upd (pha_slash computing_account dust);;
    wb_event (DustRemoved who r.1).

(** ** What a user owns *)

Definition maybe_subscribe_to_pool (who : Account) (pid : Z) (cid : CollectionId) : H X unit :=
  w ← gets wb;
  let st := default (mkFinance [] 0) (staker_accounts w !! who) in
  let invest := if bool_decide ((pid, cid) ∈ fa_invest_pools st) then fa_invest_pools st
                else fa_invest_pools st ++ [(pid, cid)] in
  put_staker who (mkFinance invest (fa_locked st)).

(** The value of the NFTs [l] of collection [cid], added to [acc] *)
Fixpoint value_of_nfts (pid : Z) (cid : CollectionId) (l : list NftId) (acc : Balance) : H X Balance :=
  match l with
  | [] => mret acc
  | nft_id :: l' =>
      nft ← expect_ok (get_nft_attr_guard cid nft_id);
      b ← gets bp;
      pool_proxy ← expect (pools b !! pid);
      price ← expect (share_price (basepool_of pool_proxy));
      acc ← match price with
            | Some price => v ← expect (bmul (shares nft) price); mret (acc +[128] v)
            | None => mret acc
            end;
      guard_drop cid nft_id;;
      value_of_nfts pid cid l' acc
  end.
Fixpoint value_of_pools (who : Account) (l : list (Z * CollectionId)) (acc : Balance) : H X Balance :=
  match l with
  | [] => mret acc
  | (pid, cid) :: l' =>
      x ← gets ext;
      acc ← value_of_nfts pid cid (owned_in_collection x cid who) acc;
      value_of_pools who l' acc
  end.
Definition get_net_value (who : Account) : H X Balance :=
  s ← get_st;
  let total := wpha_balance (ext s) who in
  match staker_accounts (wb s) !! who with
  | Some account_status => value_of_pools who (fa_invest_pools account_status) total
  | None => mret total
  end.

(** ** Votes *)

Definition votes_of (vote_id : Z) (w : WbState) : gmap Account (Balance * Balance) :=
  default ∅ (vote_account_map w !! vote_id).
Definition accumulate_account_vote (vote_id : Z) (w : WbState) : SplitVote :=
  foldl (fun t e => mkSplit (aye t +[128] e.2.1) (nay t +[128] e.2.2)) (mkSplit 0 0)
    (iter_votes (votes_of vote_id w)).

(** [AccountVoteMap::iter_prefix(user)] folded with [max]; [None] is the failed [expect]. *)
Fixpoint max_lock (user : Account) (ids : list Z) (w : WbState) (acc : Balance) : option Balance :=
  match ids with
  | [] => Some acc
  | vote_id :: ids' =>
      e ← votes_of vote_id w !! user;
      max_lock user ids' w (Z.max acc (e.1 +[128] e.2))
  end.

Definition update_user_locked (user : Account) : H X unit :=
  w ← gets wb;
  lock ← expect (max_lock user (elements (default ∅ (account_vote_map w !! user))) w 0);
  account_status ← ok_or (staker_accounts w !! user) (WbErr StakerAccountNotFound);
  put_staker user (mkFinance (fa_invest_pools account_status) lock).

Definition put_vote (vote_id : Z) (user : Account) (e : option (Balance * Balance)) : H X unit :=
  mod_wb (fun w => put_vote_account_map
    (<[ vote_id := partial_alter (fun _ => e) user (votes_of vote_id w) ]> (vote_account_map w)) w).
Definition set_voted (user : Account) (f : gset Z -> gset Z) : H X unit :=
  mod_wb (fun w => put_account_vote_map
    (<[ user := f (default ∅ (account_vote_map w !! user)) ]> (account_vote_map w)) w).

(** ** Calls *)

Definition wrap_pha (origin : Origin) (amount : Balance) : H X unit :=
  transactional (
    user ← ensure_signed origin;
    ext_try (pha_transfer_keep_alive user WrappedBalancesAccountId amount);;
    mint_into user amount;;
    w ← gets wb;
    (if bool_decide (is_Some (staker_accounts w !! user)) then mret tt
     else put_staker user (mkFinance [] 0));;
    wb_event (Wrapped user amount)).

Definition locked_of (w : WbState) (user : Account) : Balance :=
  match staker_accounts w !! user with Some st => fa_locked st | None => 0 end.

Definition unwrap_all (origin : Origin) : H X unit :=
  transactional (
    user ← ensure_signed origin;
    active_stakes ← get_net_value user;
    s ← get_st;
    let free_stakes := wpha_balance (ext s) user in
    let locked := locked_of (wb s) user in
    let withdraw_amount := Z.min (active_stakes -[128] locked) free_stakes in
    ext_try (pha_transfer_allow_death WrappedBalancesAccountId user withdraw_amount);;
    burn_from user withdraw_amount).

Definition unwrap (origin : Origin) (amount : Balance) : H X unit :=
  transactional (
    user ← ensure_signed origin;
    x ← gets ext;
    let free_stakes := wpha_balance x user in
    ensure (amount <=? free_stakes) (WbErr UnwrapAmountExceedsAvaliableStake);;
    active_stakes ← get_net_value user;
    w ← gets wb;
    let locked := locked_of w user in
    ensure ((amount +[128] locked) <=? active_stakes) (WbErr UnwrapAmountExceedsAvaliableStake);;
    ext_try (pha_transfer_allow_death WrappedBalancesAccountId user amount);;
    burn_from user amount;;
    wb_event (Unwrapped user amount)).

Definition vote (origin : Origin) (aye_amount nay_amount : Balance) (vote_id : Z) : H X unit :=
  transactional (
    user ← ensure_signed origin;
    x ← gets ext;
    ensure (referendum_ongoing x vote_id) (WbErr ReferendumInvalid);;
    active_stakes ← get_net_value user;
    ensure ((aye_amount +[128] nay_amount) <=? active_stakes) (WbErr VoteAmountLargerThanTotalStakes);;
    put_vote vote_id user (Some (aye_amount, nay_amount));;
    set_voted user (fun l => {[ vote_id ]} ∪ l);;
    w ← gets wb;
    ext_try (democracy_vote WrappedBalancesAccountId vote_id (accumulate_account_vote vote_id w));;
    update_user_locked user;;
    wb_event (Voted user vote_id aye_amount nay_amount)).

Definition unlock (origin : Origin) (vote_id max_iterations : Z) : H X unit :=
  transactional (
    ensure_signed origin;;
    x ← gets ext;
    ensure (negb (referendum_ongoing x vote_id)) (WbErr ReferendumOngoing);;
    ensure ((0 <? max_iterations) && (max_iterations <=? MAX_ITERRATIONS)) (WbErr IterationsIsNotVaild);;
    w ← gets wb;
    for_each (take (Z.to_nat max_iterations) (iter_votes (votes_of vote_id w))) (fun e =>
      put_vote vote_id e.1 None;;
      set_voted e.1 (fun l => l ∖ {[ vote_id ]});;
      expect_ok (update_user_locked e.1))).

(** [TransferHooks] *)
Definition pre_check (cid : CollectionId) (b : BpState) : bool :=
  bool_decide (pool_collections b !! cid = None).
Definition post_transfer (recipient : Account) (cid : CollectionId) : H X bool :=
  b ← gets bp;
  (match pool_collections b !! cid with
   | Some pid => expect_ok (merge_nft_for_staker cid recipient pid);; mret tt
   | None => mret tt
   end);;
  mret true.
End wrapped_balances.
