(* ===== verification/StakePoolV2.v ===== *)
(** * The stake pool (pallets/phala/src/compute/stake_pool_v2.rs)

    Workers join a pool and compute with its stake; contributors share the
    rewards. The pallet implements the callbacks of the computation pallet
    ([on_reward], [on_unbound], [on_stopped]), given here as an instance of
    [CompHooks]; its calls run the computation pallet with that instance. *)

From stdpp Require Import pretty.
From S2P Require Import Prelude MqTypes Storage MqPallet PalletMsg FixedPoint Registry Computation PoolExt BasePool WrappedBalances.

Class StakeConfig := {
  MinContribution : Balance;
  GracePeriod : Z;
  MaxPoolWorkers : Z;
  InitialPriceCheckPoint : Balance;
  VaultQueuePeriod : Z;
}.

Section accounts.
Context {X : Type} `{PC : !PoolConfig X}.

Definition pool_sub_account (pid : Z) (pubkey : WorkerPublicKey) : Account :=
  decode_account (bs "spm/" ++ blake2_256 (encode_pid_worker pid pubkey)).
Definition generate_owner_and_lock_account (pid : Z) (owner : Account) : Account * Account :=
  let hash := blake2_256 (encode_pid_account pid owner) in
  (decode_account (bs "so/" ++ hash), decode_account (bs "sl/" ++ hash)).
End accounts.

(** ** [impl StakePool] (pool_proxy.rs) *)

Definition remove_worker_of (w : WorkerPublicKey) (p : StakePool) : StakePool :=
  put_sp_workers (filter (fun v => v <> w) (sp_workers p)) p.
Definition remove_cd_worker (w : WorkerPublicKey) (p : StakePool) : StakePool :=
  put_cd_workers (filter (fun v => v <> w) (cd_workers p)) p.

Section stake_pool_hooks.
Context {X : Type} `{BE : !BlockEnv} `{FC : !FixedCrate} `{CF : !CompConfig X} `{PC : !PoolConfig X}
  `{WC : !WrapConfig X}.

Definition sp_event (e : SpEvent) : H X unit := deposit_event (EvSp e).
Definition mod_sp (f : SpState -> SpState) : H X unit := modify (upd_sp f).
Definition insert_stake_pool (pid : Z) (p : StakePool) : H X unit := insert_pool pid (PStakePool p).

Definition get_owner_stakes (p : StakePool) : H X Balance :=
  x ← gets ext; mret (wpha_balance x (owner_reward_account p)).

(** ** Rewards and unbinding *)

Definition handle_pool_new_reward (p : StakePool) (rewards : Balance) : H X StakePool :=
  let pid := b_pid (sp_basepool p) in
  if rewards =? 0 then mret p
  else if balance_close_to_zero rewards then sp_event (RewardDismissedDust pid rewards);; mret p
  else if balance_close_to_zero (total_shares (sp_basepool p)) then
    sp_event (RewardDismissedNoShare pid rewards);; mret p
  else
    expect_ok (withdraw_subsidy_pool WrappedBalancesAccountId rewards);;
    let commission := permill_mul (default 0 (payout_commission p)) rewards in
    owner_minted ← expect_ok (mint_into (owner_reward_account p) commission);
    (if owner_minted : bool then mret tt else sp_event (RewardToOwnerDismissedDust pid commission));;
    let to_distribute := rewards -[128] commission in
    to_distribute_minted ← expect_ok (mint_into (pool_account_id (sp_basepool p)) to_distribute);
    '(distributed, p) ←
      (if to_distribute_minted && is_nondust_balance to_distribute then
         basepool ← distribute_reward (sp_basepool p) to_distribute;
         mret (true, put_sp_basepool basepool p)
       else if 0 <? to_distribute then
         sp_event (RewardToDistributionDismissedDust pid to_distribute);; mret (false, p)
       else mret (false, p));
    (if distributed || owner_minted then sp_event (RewardReceived pid commission to_distribute)
     else mret tt);;
    mret p.

Definition sp_on_reward (settle : list SettleInfo) : H X unit :=
  for_each settle (fun info =>
    reward ← expect (from_fixed (st_payout info));
    q ← gets sp;
    match worker_assignments q !! st_pubkey info with
    | Some pid =>
        p ← expect_ok (ensure_stake_pool pid);
        p ← handle_pool_new_reward p reward;
        insert_stake_pool pid p
    | None => sp_event (RewardDismissedNotInPool (st_pubkey info) reward)
    end).

Definition remove_worker_from_pool (worker : WorkerPublicKey) : H X unit :=
  q ← gets sp;
  pid ← expect (worker_assignments q !! worker);
  mod_sp (fun q => put_worker_assignments (delete worker (worker_assignments q)) q);;
  b ← gets bp;
  match pools b !! pid with
  | Some (PStakePool pool) =>
      insert_stake_pool pid (remove_worker_of worker pool);;
      sp_event (PoolWorkerRemoved pid worker)
  | _ => mret tt
  end.

Definition sp_on_unbound (worker : WorkerPublicKey) (force : bool) : H X unit :=
  remove_worker_from_pool worker.

Definition sp_on_stopped (worker : WorkerPublicKey) (orig_stake slashed : Balance) : H X unit :=
  mret tt.

#[global] Instance stake_pool_hooks : CompHooks X := {|
  on_reward := sp_on_reward;
  on_unbound := sp_on_unbound;
  on_stopped := sp_on_stopped;
|}.
End stake_pool_hooks.

Section stake_pool.
Context {X : Type} `{QN : !QueueNotifyConfig X} `{CC : !ChainCodec} `{RC : !RegConfig}
  `{BE : !BlockEnv} `{FC : !FixedCrate} `{CF : !CompConfig X} `{PC : !PoolConfig X}
  `{WC : !WrapConfig X} `{SC : !StakeConfig}.

(** [ensure!(pool_info.basepool.owner == who, ..)] *)
Definition ensure_owner (p : StakePool) (who : Account) : H X unit :=
  ensure (b_owner (sp_basepool p) =? who) (SpErr SpUnauthorizedPoolOwner).

(** [let mut who = ..; if let Some(vault_pid) = as_vault { .. }]: who acts, and
    the vault it acts for *)
Definition acting_as (who : Account) (as_vault : option Z) : H X (Account * option (Z * Vault)) :=
  match as_vault with
  | None => mret (who, None)
  | Some vault_pid =>
      vault_info ← ensure_vault vault_pid;
      locks ← gets vault_locks;
      ensure (bool_decide (vault_pid ∉ locks)) (SpErr VaultIsLocked);;
      ensure (who =? b_owner (v_basepool vault_info)) (SpErr SpUnauthorizedPoolOwner);;
      mret (pool_account_id (v_basepool vault_info), Some (vault_pid, vault_info))
  end.

(** ** Workers of the pool *)

Definition do_start_computing (owner : Account) (pid : Z) (worker : WorkerPublicKey) (stake : Balance) : H X unit :=
  p ← ensure_stake_pool pid;
  ensure_owner p owner;;
  free ← get_free_stakes (sp_basepool p);
  ensure (stake <=? free) (SpErr InsufficientFreeStake);;
  ensure (bool_decide (worker ∈ sp_workers p)) (SpErr WorkerDoesNotExist);;
  start_computing (pool_sub_account pid worker) stake;;
  ext_try (wpha_transfer (pool_account_id (sp_basepool p)) (lock_account p) stake);;
  insert_stake_pool pid p;;
  sp_event (WorkingStarted pid worker stake).

Definition do_stop_computing (owner : Account) (pid : Z) (worker : WorkerPublicKey) : H X unit :=
  p ← ensure_stake_pool pid;
  ensure_owner p owner;;
  ensure (bool_decide (worker ∈ sp_workers p)) (SpErr WorkerDoesNotExist);;
  ensure (bool_decide (worker ∉ cd_workers p)) (SpErr WorkerAlreadyStopped);;
  stop_computing (pool_sub_account pid worker);;
  insert_stake_pool pid (put_cd_workers (cd_workers p ++ [worker]) p).

Definition handle_reclaim (pid : Z) (orig_stake slashed : Balance) : H X unit :=
  p ← expect_ok (ensure_stake_pool pid);
  let returned := orig_stake -[128] slashed in
  p ← (if slashed =? 0 then mret p
       else
         sp_event (PoolSlashed pid slashed);;
         mret (put_sp_basepool (slash slashed (sp_basepool p)) p));
  expect_ok (ext_try (wpha_transfer (lock_account p) (pool_account_id (sp_basepool p)) returned));;
  basepool ← try_process_withdraw_queue (sp_basepool p);
  insert_stake_pool pid (put_sp_basepool basepool p).

Definition do_reclaim (pid : Z) (sub_account : Account) (worker : WorkerPublicKey) (check_cooldown : bool) :
    H X (Balance * Balance) :=
  '(orig_stake, slashed) ← reclaim sub_account check_cooldown;
  handle_reclaim pid orig_stake slashed;;
  sp_event (SpWorkerReclaimed pid worker);;
  p ← ensure_stake_pool pid;
  insert_stake_pool pid (remove_cd_worker worker p);;
  mret (orig_stake, slashed).

(** ** Calls *)

Definition sp_create (origin : Origin) : H X unit :=
  transactional (
    owner ← ensure_signed origin;
    pid ← consume_new_pid;
    cid ← consume_new_cid;
    symbol ← expect (bvec CollectionSymbolLimit (bs ("STAKEPOOL-" +:+ pretty pid)));
    ext_try (rmrk_create_collection pallet_id cid symbol);;
    let account_id := generate_staker_account pid owner in
    let '(owner_reward_account, lock_account) := generate_owner_and_lock_account pid owner in
    insert_stake_pool pid
      (mkStakePool (mkBasePool pid owner 0 0 [] [] cid account_id) None None [] []
         lock_account owner_reward_account);;
    mod_bp (fun b => put_pool_collections (<[ cid := pid ]> (pool_collections b)) b);;
    sp_event (SpPoolCreated owner pid cid account_id)).

Definition add_worker (origin : Origin) (pid : Z) (pubkey : WorkerPublicKey) : H X unit :=
  owner ← ensure_signed origin;
  r ← gets reg;
  worker_info ← ok_or (workers r !! pubkey) (SpErr SpWorkerNotRegistered);
  ensure (bool_decide (w_operator worker_info = Some owner)) (SpErr UnauthorizedOperator);;
  ensure (bool_decide (w_initial_score worker_info <> None)) (SpErr SpBenchmarkMissing);;
  p ← ensure_stake_pool pid;
  ensure_owner p owner;;
  ensure (bool_decide (pubkey ∉ sp_workers p)) (SpErr WorkerExists);;
  ensure (Z.of_nat (length (sp_workers p)) <? MaxPoolWorkers) (SpErr WorkersExceedLimit);;
  let session := pool_sub_account pid pubkey in
  or_err (bind session pubkey) (SpErr FailedToBindSessionAndWorker);;
  mod_sp (fun q => put_sub_account_preimages (<[ session := (pid, pubkey) ]> (sub_account_preimages q)) q);;
  insert_stake_pool pid (put_sp_workers (sp_workers p ++ [pubkey]) p);;
  mod_sp (fun q => put_worker_assignments (<[ pubkey := pid ]> (worker_assignments q)) q);;
  sp_event (PoolWorkerAdded pid pubkey session).

Definition remove_worker (origin : Origin) (pid : Z) (worker : WorkerPublicKey) : H X unit :=
  who ← ensure_signed origin;
  pool ← ensure_stake_pool pid;
  ensure_owner pool who;;
  q ← gets sp;
  lookup_pid ← ok_or (worker_assignments q !! worker) (SpErr WorkerDoesNotExist);
  ensure (pid =? lookup_pid) (SpErr WorkerInAnotherPool);;
  let sub_account := pool_sub_account pid worker in
  c ← gets comp;
  session ← ok_or (sessions c !! sub_account) (SpErr SessionDoesNotExist);
  ensure (bool_decide (s_state session = Ready)) (SpErr WorkerIsNotReady);;
  unbind_session sub_account false;;
  remove_worker_from_pool worker.

Definition set_cap (origin : Origin) (pid : Z) (new_cap : Balance) : H X unit :=
  owner ← ensure_signed origin;
  p ← ensure_stake_pool pid;
  ensure_owner p owner;;
  ensure (total_value (sp_basepool p) <=? new_cap) (SpErr InadequateCapacity);;
  insert_stake_pool pid (put_cap (Some new_cap) p);;
  sp_event (PoolCapacitySet pid new_cap).

Definition sp_set_payout_pref (origin : Origin) (pid : Z) (payout : option Permill) : H X unit :=
  owner ← ensure_signed origin;
  p ← ensure_stake_pool pid;
  ensure_owner p owner;;
  insert_stake_pool pid (put_payout_commission payout p);;
  sp_event (PoolCommissionSet pid (default 0 payout)).

Definition claim_legacy_rewards (origin : Origin) (pid : Z) (target : Account) : H X unit :=
  transactional (
    who ← ensure_signed origin;
    q ← gets sp;
    rewards ← ok_or (legacy_rewards q !! (who, pid)) (SpErr NoLegacyRewardToClaim);
    mod_sp (fun q => put_legacy_rewards (delete (who, pid) (legacy_rewards q)) q);;
    or_err (withdraw_subsidy_pool target rewards) (SpErr SpInternalSubsidyPoolCannotWithdraw)).

Definition claim_owner_rewards (origin : Origin) (pid : Z) (target : Account) : H X unit :=
  who ← ensure_signed origin;
  p ← ensure_stake_pool pid;
  ensure_owner p who;;
  rewards ← get_owner_stakes p;
  ensure (0 <? rewards) (SpErr NoRewardToClaim);;
  ext_try (wpha_transfer (owner_reward_account p) target rewards);;
  sp_event (OwnerRewardsWithdrawn pid who rewards).

(** The stake of the workers that cool down; [None] is the failed [expect]. *)
Fixpoint releasing (pid : Z) (l : list WorkerPublicKey) (c : CompState) (acc : Balance) : option Balance :=
  match l with
  | [] => Some acc
  | w :: l' => st ← stakes c !! pool_sub_account pid w; releasing pid l' c (acc +[128] st)
  end.

Definition sp_check_and_maybe_force_withdraw (origin : Origin) (pid : Z) : H X unit :=
  transactional (
    ensure_signed origin;;
    let now := now_sec in
    pool ← ensure_stake_pool pid;
    basepool ← try_process_withdraw_queue (sp_basepool pool);
    let pool := put_sp_basepool basepool pool in
    c ← gets comp;
    releasing_stake ← expect (releasing pid (cd_workers pool) c 0);
    insert_stake_pool pid pool;;
    expired ← has_expired_withdrawal (sp_basepool pool) now GracePeriod None releasing_stake;
    if expired : bool then
      for_each (sp_workers pool) (fun worker =>
        c ← gets comp;
        match sessions c !! pool_sub_account pid worker with
        | None => mret tt
        | Some worker_info =>
            if negb (is_computing (s_state worker_info)) then mret tt
            else if bool_decide (worker ∈ cd_workers pool) then mret tt
            else do_stop_computing (b_owner (sp_basepool pool)) pid worker
        end)
    else mret tt).

Definition sp_contribute (origin : Origin) (pid : Z) (amount : Balance) (as_vault : option Z) : H X unit :=
  transactional (
    who ← ensure_signed origin;
    '(who, maybe_vault) ← acting_as who as_vault;
    p ← ensure_stake_pool pid;
    ensure (MinContribution <=? amount) (SpErr InsufficientContribution);;
    free ← match maybe_vault with
           | Some (_, vault_info) => get_free_stakes (v_basepool vault_info)
           | None => x ← gets ext; mret (wpha_balance x who)
           end;
    ensure (amount <=? free) (SpErr InsufficientBalance);;
    '(sh, basepool) ← contribute (sp_basepool p) who amount;
    basepool ← match maybe_vault with
        | Some (vault_pid, vault_info) =>
            let vault_info := if bool_decide (pid ∈ invest_pools vault_info) then vault_info
                              else put_invest_pools (invest_pools vault_info ++ [pid]) vault_info in
            insert_pool vault_pid (PVault vault_info);;
            mret (if bool_decide (vault_pid ∈ value_subscribers basepool) then basepool
                  else put_value_subscribers (value_subscribers basepool ++ [vault_pid]) basepool)
        | None => mret basepool
        end;
    basepool ← try_process_withdraw_queue basepool;
    let p := put_sp_basepool basepool p in
    (match cap p with
     | Some cap => ensure (total_value basepool <=? cap) (SpErr StakeExceedsCapacity)
     | None => mret tt
     end);;
    insert_stake_pool pid p;;
    merge_nft_for_staker (b_cid basepool) who (b_pid basepool);;
    (match as_vault with
     | None => maybe_subscribe_to_pool who pid (b_cid basepool)
     | Some _ => mret tt
     end);;
    sp_event (SpContribution pid who amount sh as_vault)).

(** What [withdraw] of both pools does once the pool is loaded: the user's
    NFTs are merged, the request is queued and the queue processed. *)
Definition withdraw_from (basepool : BasePool) (who : Account) (sh : Balance) (as_vault : option Z)
    (no_nft bad_amount : DispatchError) : H X BasePool :=
  maybe_nft_id ← merge_nft_for_staker (b_cid basepool) who (b_pid basepool);
  nft_id ← ok_or maybe_nft_id no_nft;
  nft ← get_nft_attr_guard (b_cid basepool) nft_id;
  in_queue_shares ←
    match filter (fun w => wd_user w = who) (withdraw_queue basepool) with
    | w :: _ => q ← expect_ok (read_nft (b_cid basepool) (wd_nft_id w)); mret (shares q)
    | [] => mret 0
    end;
  ensure (is_nondust_balance sh && (sh <=? (shares nft +[128] in_queue_shares))) bad_amount;;
  '(basepool, nft) ← try_withdraw basepool nft who sh nft_id as_vault;
  guard_save (b_cid basepool) nft_id nft;;
  merge_nft_for_staker (b_cid basepool) who (b_pid basepool);;
  mret basepool.

Definition sp_withdraw (origin : Origin) (pid : Z) (sh : Balance) (as_vault : option Z) : H X unit :=
  transactional (
    who ← ensure_signed origin;
    '(who, _) ← acting_as who as_vault;
    p ← ensure_stake_pool pid;
    basepool ← withdraw_from (sp_basepool p) who sh as_vault
                 (SpErr NoNftToWithdraw) (SpErr SpInvalidWithdrawalAmount);
    insert_stake_pool pid (put_sp_basepool basepool p)).

Definition sp_start_computing (origin : Origin) (pid : Z) (worker : WorkerPublicKey) (stake : Balance) : H X unit :=
  owner ← ensure_signed origin;
  do_start_computing owner pid worker stake.

Definition sp_stop_computing (origin : Origin) (pid : Z) (worker : WorkerPublicKey) : H X unit :=
  owner ← ensure_signed origin;
  do_stop_computing owner pid worker.

Definition reclaim_pool_worker (origin : Origin) (pid : Z) (worker : WorkerPublicKey) : H X unit :=
  ensure_signed origin;;
  ensure_stake_pool pid;;
  do_reclaim pid (pool_sub_account pid worker) worker true;;
  mret tt.

Definition restart_computing (origin : Origin) (pid : Z) (worker : WorkerPublicKey) (stake : Balance) : H X unit :=
  transactional (
    owner ← ensure_signed origin;
    pool ← ensure_stake_pool pid;
    ensure (wrap 32 (Z.of_nat (length (withdraw_queue (sp_basepool pool)))) <=? 0)
      (SpErr WithdrawQueueNotEmpty);;
    do_stop_computing owner pid worker;;
    '(orig_stake, slashed) ← do_reclaim pid (pool_sub_account pid worker) worker false;
    let released := orig_stake -[128] slashed in
    ensure (released <? stake) (SpErr CannotRestartWithLessStake);;
    do_start_computing owner pid worker stake).
End stake_pool.
