(* ===== verification/VaultPool.v ===== *)
(** * The vault (pallets/phala/src/compute/vault.rs)

    A pool whose owner delegates its free stake to stake pools and is paid in
    newly issued shares. *)

From stdpp Require Import pretty.
From S2P Require Import Prelude MqTypes Storage MqPallet PalletMsg FixedPoint Registry Computation PoolExt BasePool WrappedBalances StakePoolV2.

Section vault.
Context {X : Type} `{QN : !QueueNotifyConfig X} `{CC : !ChainCodec} `{RC : !RegConfig}
  `{BE : !BlockEnv} `{FC : !FixedCrate} `{CF : !CompConfig X} `{PC : !PoolConfig X}
  `{WC : !WrapConfig X} `{SC : !StakeConfig}.

Definition vt_event (e : VaultEvent) : H X unit := deposit_event (EvVt e).
Definition insert_vault (pid : Z) (v : Vault) : H X unit := insert_pool pid (PVault v).

(** ** Owner shares *)

(** The settlement itself: the shares to issue and the new checkpoint. *)
Definition owner_share_terms (v : Vault) (current_price : Balance) : option (Balance * Balance) :=
  let delta_price :=
    permill_mul (default 0 (commission v)) (current_price -[128] last_share_price_checkpoint v) in
  let new_price := current_price -[128] delta_price in
  fixed_price ← to_fixed new_price;
  n ← bdiv (total_value (v_basepool v)) fixed_price;
  Some (default 0 (checked_sub n (total_shares (v_basepool v))), new_price).

Definition do_gain_owner_share (vault_pid : Z) : H X unit :=
  v ← ensure_vault vault_pid;
  price ← expect (share_price (v_basepool v));
  match price with
  | None => mret tt
  | Some price =>
      current_price ← expect (from_fixed price);
      if last_share_price_checkpoint v =? 0 then
        insert_vault vault_pid (put_last_share_price_checkpoint current_price v)
      else if current_price <=? last_share_price_checkpoint v then mret tt
      else
        '(adjust_shares, new_price) ← expect (owner_share_terms v current_price);
        let b := v_basepool v in
        let v := put_v_basepool (put_total_shares (total_shares b +[128] adjust_shares) b) v in
        let v := put_owner_shares (owner_shares v +[128] adjust_shares) v in
        let v := put_last_share_price_checkpoint new_price v in
        insert_vault vault_pid v;;
        vt_event (OwnerSharesGained vault_pid adjust_shares new_price)
  end.

(** ** Calls *)

Definition vt_create (origin : Origin) : H X unit :=
  transactional (
    owner ← ensure_signed origin;
    pid ← consume_new_pid;
    cid ← consume_new_cid;
    symbol ← expect (bvec CollectionSymbolLimit (bs ("VAULT-" +:+ pretty pid)));
    ext_try (rmrk_create_collection pallet_id cid symbol);;
    let account_id := generate_staker_account pid owner in
    insert_vault pid
      (mkVault (mkBasePool pid owner 0 0 [] [] cid account_id) InitialPriceCheckPoint None 0 []);;
    mod_bp (fun b => put_pool_collections (<[ cid := pid ]> (pool_collections b)) b);;
    vt_event (VtPoolCreated owner pid cid account_id)).

Definition maybe_gain_owner_shares (origin : Origin) (vault_pid : Z) : H X unit :=
  who ← ensure_signed origin;
  v ← ensure_vault vault_pid;
  ensure (who =? b_owner (v_basepool v)) (VtErr VtUnauthorizedPoolOwner);;
  do_gain_owner_share vault_pid.

Definition vt_set_payout_pref (origin : Origin) (pid : Z) (payout : option Permill) : H X unit :=
  owner ← ensure_signed origin;
  v ← ensure_vault pid;
  ensure (b_owner (v_basepool v) =? owner) (VtErr VtUnauthorizedPoolOwner);;
  ensure (negb (bool_decide (commission v = payout))) (VtErr CommissionNotChanged);;
  maybe_gain_owner_shares origin pid;;
  v ← expect_ok (ensure_vault pid);
  insert_vault pid (put_commission payout v);;
  vt_event (VaultCommissionSet pid (default 0 payout)).

Definition claim_owner_shares (origin : Origin) (vault_pid : Z) (target : Account) (sh : Balance) : H X unit :=
  who ← ensure_signed origin;
  v ← ensure_vault vault_pid;
  ensure (who =? b_owner (v_basepool v)) (VtErr VtUnauthorizedPoolOwner);;
  ensure (sh <=? owner_shares v) (VtErr NoEnoughShareToClaim);;
  ensure (0 <? sh) (VtErr VtNoRewardToClaim);;
  mint_nft (b_cid (v_basepool v)) target sh vault_pid;;
  merge_nft_for_staker (b_cid (v_basepool v)) target (b_pid (v_basepool v));;
  let v := put_owner_shares (owner_shares v -[128] sh) v in
  maybe_subscribe_to_pool who vault_pid (b_cid (v_basepool v));;
  insert_vault vault_pid v;;
  vt_event (OwnerSharesClaimed vault_pid who sh).

Definition vt_contribute (origin : Origin) (pid : Z) (amount : Balance) : H X unit :=
  transactional (
    who ← ensure_signed origin;
    ensure (MinContribution <=? amount) (VtErr VtInsufficientContribution);;
    x ← gets ext;
    free ← ok_or (wpha_maybe_balance x who) (VtErr AssetAccountNotExist);
    ensure (amount <=? free) (VtErr VtInsufficientBalance);;
    do_gain_owner_share pid;;
    v ← ensure_vault pid;
    '(sh, basepool) ← contribute (v_basepool v) who amount;
    basepool ← try_process_withdraw_queue basepool;
    insert_vault pid (put_v_basepool basepool v);;
    merge_nft_for_staker (b_cid basepool) who (b_pid basepool);;
    maybe_subscribe_to_pool who pid (b_cid basepool);;
    vt_event (VtContribution pid who amount sh)).

Definition vt_withdraw (origin : Origin) (pid : Z) (sh : Balance) : H X unit :=
  transactional (
    who ← ensure_signed origin;
    do_gain_owner_share pid;;
    v ← ensure_vault pid;
    basepool ← withdraw_from (v_basepool v) who sh None
                 (VtErr VtNoNftToWithdraw) (VtErr NoEnoughShareToClaim);
    insert_vault pid (put_v_basepool basepool v)).

(** ** Forced shutdown *)

Definition queued_by (account : Account) (pool : BasePool) : list WithdrawInfo :=
  filter (fun w => wd_user w = account) (withdraw_queue pool).

(** The value of the vault's requests in one upstream pool, added to [acc] *)
Fixpoint releasing_in (pool : BasePool) (l : list WithdrawInfo) (acc : Balance) : H X Balance :=
  match l with
  | [] => mret acc
  | w :: l' =>
      nft ← get_nft_attr_guard (b_cid pool) (wd_nft_id w);
      price ← expect (share_price pool);
      price ← ok_or price (VtErr VaultBankrupt);
      v ← expect (bmul (shares nft) price);
      guard_drop (b_cid pool) (wd_nft_id w);;
      releasing_in pool l' (acc +[128] v)
  end.
Fixpoint releasing_upstream (account : Account) (pids : list Z) (acc : Balance) : H X Balance :=
  match pids with
  | [] => mret acc
  | pid :: pids' =>
      p ← ensure_stake_pool pid;
      acc ← releasing_in (sp_basepool p) (queued_by account (sp_basepool p)) acc;
      releasing_upstream account pids' acc
  end.

(** The shares of the vault's requests in one upstream pool, added to [acc] *)
Fixpoint queued_shares (cid : CollectionId) (l : list WithdrawInfo) (acc : Balance) : H X Balance :=
  match l with
  | [] => mret acc
  | w :: l' =>
      nft ← expect_ok (read_nft cid (wd_nft_id w));
      queued_shares cid l' (acc +[128] shares nft)
  end.

(** [let _ = burn_nft(..)]: its error is dropped (it is transactional). *)
Definition burn_nft_ignored (owner : Account) (cid : CollectionId) (nft_id : NftId) : H X unit := fun s =>
  match burn_nft owner cid nft_id s with
  | Ok _ s' => Ok tt s'
  | Err _ s' => Ok tt s'
  | Panic => Panic
  end.

(** One upstream pool: everything the vault has there is withdrawn; [true] if
    the vault has nothing there and the pool leaves its list. *)
Definition force_withdraw_from (vault_pid : Z) (account owner : Account) (pid : Z) : H X bool :=
  p ← ensure_stake_pool pid;
  let pool := sp_basepool p in
  total ← queued_shares (b_cid pool) (queued_by account pool) 0;
  maybe_nft ← merge_nft_for_staker (b_cid pool) account (b_pid pool);
  '(should_withdraw, total) ←
    match maybe_nft with
    | None => mret (false, total)
    | Some nft_id =>
        nft ← expect_ok (get_nft_attr_guard (b_cid pool) nft_id);
        r ← (if negb (is_nondust_balance (shares nft)) then
               burn_nft_ignored pallet_id (b_cid pool) nft_id;;
               mret (false, total)
             else
               let total := total +[128] shares nft in
               mret (is_nondust_balance total, total));
        guard_drop (b_cid pool) nft_id;;
        mret r
    end;
  if negb should_withdraw then mret true
  else sp_withdraw (Signed owner) (b_pid pool) total (Some vault_pid);; mret false.

(** [for pid in vault.invest_pools.iter() { .. }]: the pools to remove *)
Fixpoint force_withdraw_all (vault_pid : Z) (account owner : Account) (pids : list Z)
    (to_remove : list Z) : H X (list Z) :=
  match pids with
  | [] => mret to_remove
  | pid :: pids' =>
      gone ← force_withdraw_from vault_pid account owner pid;
      force_withdraw_all vault_pid account owner pids'
        (if gone : bool then to_remove ++ [pid] else to_remove)
  end.

Definition shutdown_reason (v : Vault) : H X (option ForceShutdownReason) :=
  let now := now_sec in
  let expired_3x :=
    match withdraw_queue (v_basepool v) with
    | w :: _ => (start_time w +[64] (3 *[64] GracePeriod)) <? now
    | [] => false
    end in
  if expired_3x then mret (Some Waiting3xGracePeriod)
  else
    releasing_stake ← releasing_upstream (pool_account_id (v_basepool v)) (invest_pools v) 0;
    expired ← has_expired_withdrawal (v_basepool v) now GracePeriod (Some VaultQueuePeriod) releasing_stake;
    mret (if expired : bool then Some NoEnoughReleasingStake else None).

Definition vt_check_and_maybe_force_withdraw (origin : Origin) (vault_pid : Z) : H X unit :=
  transactional (
    ensure_signed origin;;
    v ← ensure_vault vault_pid;
    basepool ← try_process_withdraw_queue (v_basepool v);
    let v := put_v_basepool basepool v in
    (match withdraw_queue basepool with
     | [] => modify (fun s => put_vault_locks (vault_locks s ∖ {[ vault_pid ]}) s)
     | _ => mret tt
     end);;
    insert_vault vault_pid v;;
    locks ← gets vault_locks;
    if bool_decide (vault_pid ∈ locks) then mret tt
    else
      reason ← shutdown_reason v;
      match reason with
      | None => mret tt
      | Some reason =>
          to_remove ← force_withdraw_all vault_pid (pool_account_id basepool) (b_owner basepool)
                        (invest_pools v) [];
          (match to_remove with
           | [] => mret tt
           | _ => insert_vault vault_pid
                    (put_invest_pools (filter (fun pid => pid ∉ to_remove) (invest_pools v)) v)
           end);;
          modify (fun s => put_vault_locks ({[ vault_pid ]} ∪ vault_locks s) s);;
          vt_event (ForceShutdown vault_pid reason)
      end).
End vault.
