(* ===== verification/PoolInstances.v ===== *)
(** * A concrete model of the pallets outside the repository

    Executable stand-ins for [pallet_assets], [pallet_rmrk_core],
    [pallet_democracy] and the currency, which satisfy [PoolLaws]; the
    theorems on pools are evaluated on them. *)

From S2P Require Import Prelude MqTypes Storage MqPallet PalletMsg FixedPoint Computation PoolExt BasePool WrappedBalances StakePoolV2.

Record Toy := mkToy {
  t_wpha : gmap Account Balance;
  t_nfts : gmap (CollectionId * NftId) NftView;
  t_props : gmap (CollectionId * NftId * bytes) bytes;
  t_locks : gset (CollectionId * NftId);
  t_colls : gmap CollectionId Account;
  t_pha : gmap Account Balance;
  t_ongoing : gset Z;
  t_votes : gmap Z SplitVote;
}.

Definition empty_toy : Toy := mkToy ∅ ∅ ∅ ∅ ∅ ∅ ∅ ∅.
Definition toy_min : Balance := 10000000000.

Definition toy_maybe_balance (x : Toy) (a : Account) : option Balance := wrap 128 <$> (t_wpha x !! a).
Definition toy_balance (x : Toy) (a : Account) : Balance := default 0 (toy_maybe_balance x a).

Definition toy_put_wpha (m : gmap Account Balance) (x : Toy) : Toy :=
  mkToy m (t_nfts x) (t_props x) (t_locks x) (t_colls x) (t_pha x) (t_ongoing x) (t_votes x).
Definition toy_put_nfts (m : gmap (CollectionId * NftId) NftView) (x : Toy) : Toy :=
  mkToy (t_wpha x) m (t_props x) (t_locks x) (t_colls x) (t_pha x) (t_ongoing x) (t_votes x).
Definition toy_put_props (m : gmap (CollectionId * NftId * bytes) bytes) (x : Toy) : Toy :=
  mkToy (t_wpha x) (t_nfts x) m (t_locks x) (t_colls x) (t_pha x) (t_ongoing x) (t_votes x).
Definition toy_put_locks (m : gset (CollectionId * NftId)) (x : Toy) : Toy :=
  mkToy (t_wpha x) (t_nfts x) (t_props x) m (t_colls x) (t_pha x) (t_ongoing x) (t_votes x).
Definition toy_put_colls (m : gmap CollectionId Account) (x : Toy) : Toy :=
  mkToy (t_wpha x) (t_nfts x) (t_props x) (t_locks x) m (t_pha x) (t_ongoing x) (t_votes x).
Definition toy_put_pha (m : gmap Account Balance) (x : Toy) : Toy :=
  mkToy (t_wpha x) (t_nfts x) (t_props x) (t_locks x) (t_colls x) m (t_ongoing x) (t_votes x).
Definition toy_put_votes (m : gmap Z SplitVote) (x : Toy) : Toy :=
  mkToy (t_wpha x) (t_nfts x) (t_props x) (t_locks x) (t_colls x) (t_pha x) (t_ongoing x) m.

(** Takes [d], which is [v] or, if less than the minimum would be left, everything,
    and credits [v]. *)
Definition toy_transfer (a b : Account) (v : Balance) (x : Toy) : option Toy :=
  if (v <? 0) || (toy_balance x a <? v) then None
  else if (v =? 0) || (a =? b) then Some x
  else
    let d := if toy_balance x a - v <? toy_min then toy_balance x a else v in
    if (2 ^ 128 <=? toy_balance x b + v)
       || bool_decide (t_wpha x !! b = None) && (v <? toy_min) then None
    else
      let m := if toy_balance x a =? d then delete a (t_wpha x)
               else <[ a := toy_balance x a - d ]> (t_wpha x) in
      Some (toy_put_wpha (<[ b := toy_balance x b + v ]> m) x).

Definition toy_mint_into (a : Account) (v : Balance) (x : Toy) : MintResult Toy :=
  if (v <? 0) || (2 ^ 128 <=? toy_balance x a + v) then MintFailed
  else if v =? 0 then Minted x
  else if toy_balance x a + v <? toy_min then BelowMinimum
  else Minted (toy_put_wpha (<[ a := toy_balance x a + v ]> (t_wpha x)) x).

Definition toy_burn_from (a : Account) (v : Balance) (x : Toy) : option (Balance * Toy) :=
  let d := Z.min v (toy_balance x a) in
  let d := if toy_balance x a - d <? toy_min then toy_balance x a else d in
  Some (d, toy_put_wpha (if toy_balance x a =? d then delete a (t_wpha x)
                         else <[ a := toy_balance x a - d ]> (t_wpha x)) x).

(** Only NFTs of a known collection are there. *)
Definition toy_nfts (x : Toy) : gmap (CollectionId * NftId) NftView :=
  filter (fun e => is_Some (t_colls x !! e.1.1)) (t_nfts x).

Definition toy_create_collection (who : Account) (c : CollectionId) (sym : bytes) (x : Toy) : option Toy :=
  match t_colls x !! c with
  | Some _ => None
  | None => Some (toy_put_colls (<[ c := who ]> (t_colls x)) (toy_put_nfts (toy_nfts x) x))
  end.

Definition toy_mint_nft (who o : Account) (n : NftId) (c : CollectionId) (x : Toy) : option Toy :=
  if bool_decide (t_colls x !! c = Some who) && bool_decide (t_nfts x !! (c, n) = None) then
    Some (toy_put_nfts (<[ (c, n) := mkNft o false ]> (t_nfts x)) x)
  else None.

Definition toy_nft_burn (o : Account) (c : CollectionId) (n : NftId) (budget : Z) (x : Toy) : option Toy :=
  match toy_nfts x !! (c, n) with
  | Some w =>
      if (nft_owner w =? o) && negb (nft_children w) && bool_decide ((c, n) ∉ t_locks x) then
        Some (toy_put_nfts (delete (c, n) (t_nfts x)) x)
      else None
  | None => None
  end.

Definition toy_set_lock (c : CollectionId) (n : NftId) (b : bool) (x : Toy) : Toy :=
  toy_put_locks (if b then {[ (c, n) ]} ∪ t_locks x else t_locks x ∖ {[ (c, n) ]}) x.

Definition toy_set_property (c : CollectionId) (n : NftId) (k v : bytes) (x : Toy) : option Toy :=
  if bool_decide (is_Some (t_colls x !! c)) && bool_decide (is_Some (toy_nfts x !! (c, n)))
     && bool_decide ((c, n) ∉ t_locks x) then
    Some (toy_put_props (<[ (c, n, k) := v ]> (t_props x)) x)
  else None.

Definition toy_owned (x : Toy) (c : CollectionId) (a : Account) : list NftId :=
  map_to_list (toy_nfts x) ≫= fun e =>
    if (e.1.1 =? c) && (nft_owner e.2 =? a) then [e.1.2] else [].

Definition toy_pha (x : Toy) (a : Account) : Balance := default 0 (t_pha x !! a).
Definition toy_pha_transfer (a b : Account) (v : Balance) (x : Toy) : option Toy :=
  if toy_pha x a <? v then None
  else
    let m := <[ a := toy_pha x a - v ]> (t_pha x) in
    Some (toy_put_pha (<[ b := default 0 (m !! b) + v ]> m) x).

(** A vote needs the balance it votes with, the two sides added with saturation. *)
Definition toy_democracy_vote (who : Account) (id : Z) (v : SplitVote) (x : Toy) : option Toy :=
  if bool_decide (id ∈ t_ongoing x) && (Z.min (2 ^ 128 - 1) (aye v + nay v) <=? toy_pha x who) then
    Some (toy_put_votes (<[ id := v ]> (t_votes x)) x)
  else None.

#[global] Instance toy_pool_config : PoolConfig Toy := {|
  wpha_exists _ := true;
  wpha_minimum_balance _ := toy_min;
  wpha_maybe_balance := toy_maybe_balance;
  wpha_transfer := toy_transfer;
  wpha_mint_into := toy_mint_into;
  wpha_burn_from := toy_burn_from;
  collection_issuer x c := t_colls x !! c;
  rmrk_create_collection := toy_create_collection;
  rmrk_mint_nft := toy_mint_nft;
  rmrk_nft_burn := toy_nft_burn;
  rmrk_set_lock := toy_set_lock;
  rmrk_remove_lock c n := toy_set_lock c n false;
  rmrk_properties x c n k := t_props x !! (c, n, k);
  rmrk_set_property := toy_set_property;
  rmrk_remove_property c n k x := toy_put_props (delete (c, n, k) (t_props x)) x;
  owned_in_collection := toy_owned;
  KeyLimit := 32;
  ValueLimit := 64;
  CollectionSymbolLimit := 100;
  encode_attr a := [shares a];
  decode_attr b := match b with [z] => Some (mkAttr z) | _ => None end;
  encode_pid_account p a := [p; a];
  encode_pid_worker p w := [p; w];
  blake2_256 b := b;
  decode_account b := Z.pos (encode b);
  permill_mul p b := p * b / 1000000;
  MigrationAccountId := 77;
  loop_fuel := 100%nat;
|}.

#[global] Instance toy_view : PoolView Toy := {|
  nfts := toy_nfts;
  nft_locked x c n := bool_decide ((c, n) ∈ t_locks x);
|}.

#[global] Instance toy_wrap_config : WrapConfig Toy := {|
  WrappedBalancesAccountId := 888;
  pha_transfer_keep_alive := toy_pha_transfer;
  pha_transfer_allow_death := toy_pha_transfer;
  pha_slash a v x := toy_put_pha (<[ a := Z.max 0 (toy_pha x a - v) ]> (t_pha x)) x;
  referendum_ongoing x id := bool_decide (id ∈ t_ongoing x);
  democracy_vote := toy_democracy_vote;
  iter_votes := map_to_list;
|}.

#[global] Instance toy_stake_config : StakeConfig := {|
  MinContribution := 1000000000000;
  GracePeriod := 604800;
  MaxPoolWorkers := 10;
  InitialPriceCheckPoint := 1000000000000;
  VaultQueuePeriod := 1814400;
|}.

#[global] Instance toy_pool_comp : CompConfig Toy := {|
  ExpectedBlockTimeSec := 12;
  MinInitP := 50;
  CheckWorkerRegisterTime := true;
  update_tokenomic_origin o := match o with Root => true | _ => false end;
  set_budget_origin o := match o with Root => true | _ => false end;
  set_contract_root_origin o := match o with Root => true | _ => false end;
  random_seed _ := 42;
  computing_account := 999;
  Imbalance := Z;
  currency_withdraw a v :=
    ext_try (fun x => if toy_pha x a <? v then None
                      else Some (toy_put_pha (<[ a := toy_pha x a - v ]> (t_pha x)) x));; mret v;
  currency_transfer a b v := ext_try (toy_pha_transfer a b v);
  on_treasury_settled _ := mret tt;
|}.

(** ** The laws *)

Lemma toy_balance_range x a : 0 <= toy_balance x a < 2 ^ 128.
Proof.
  unfold toy_balance, toy_maybe_balance. destruct (t_wpha x !! a); cbn; [|done].
  by apply wrap_range.
Qed.

Lemma toy_balance_insert x m a v :
  0 <= v < 2 ^ 128 -> toy_balance (toy_put_wpha (<[ a := v ]> m) x) a = v.
Proof.
  intros Hv. unfold toy_balance, toy_maybe_balance. cbn. rewrite lookup_insert_eq. cbn.
  by apply wrap_small.
Qed.

Lemma toy_transfer_spec a b v x x' : toy_transfer a b v x = Some x' ->
  t_nfts x' = t_nfts x /\ t_colls x' = t_colls x /\ t_props x' = t_props x /\
  (forall c, c <> a -> c <> b -> toy_maybe_balance x' c = toy_maybe_balance x c) /\
  (a <> b -> exists d, (d = v \/ d = toy_balance x a /\ toy_balance x a - v < toy_min) /\
     toy_balance x' a = toy_balance x a - d /\ toy_balance x' b = toy_balance x b + v).
Proof.
  unfold toy_transfer. case_match eqn:E1; [done|]. case_match eqn:E2.
  { intros [= <-]. split_and!; [done..|]. intros Hab. exists 0. b2p. lia. }
  case_match eqn:E3; [done|]. intros [= <-]. split_and!; [done..| |].
  - intros c Hca Hcb. unfold toy_maybe_balance. cbn. rewrite lookup_insert_ne by done.
    repeat case_match; first [by rewrite lookup_delete_ne|by rewrite lookup_insert_ne].
  - intros Hab. pose proof (toy_balance_range x a). pose proof (toy_balance_range x b). b2p.
    set (d := if _ <? _ then _ else v) in *. exists d.
    assert (v <= d <= toy_balance x a) by (subst d; case_match; b2p; lia).
    split_and!; [subst d; case_match; b2p; auto; lia| |].
    + unfold toy_balance at 1, toy_maybe_balance. cbn. rewrite lookup_insert_ne by done.
      destruct (toy_balance x a =? d) eqn:E4; b2p; [rewrite lookup_delete_eq; cbn; lia|].
      rewrite lookup_insert_eq. cbn. apply wrap_small. unfold in_width. lia.
    + apply toy_balance_insert. destruct E3. lia.
Qed.

Lemma toy_same_nfts (x x' : Toy) :
  t_nfts x' = t_nfts x -> t_colls x' = t_colls x -> t_props x' = t_props x -> same_nfts x x'.
Proof. intros Hn Hc Hp. split_and!; cbn; [unfold toy_nfts; by rewrite Hn, Hc|by rewrite Hc|by rewrite Hp]. Qed.

Lemma toy_owned_spec x c a n :
  n ∈ toy_owned x c a <-> exists w, toy_nfts x !! (c, n) = Some w /\ nft_owner w = a.
Proof.
  unfold toy_owned. rewrite list_elem_of_bind. split.
  - intros ([[c' n'] w] & Hn & Hw). cbn in Hn. case_match eqn:E; [|by apply elem_of_nil in Hn].
    b2p. destruct E as [-> <-]. apply list_elem_of_singleton in Hn as ->. exists w.
    split; [by apply elem_of_map_to_list|done].
  - intros (w & Hw & <-). exists (c, n, w). cbn. rewrite !Z.eqb_refl. cbn.
    split; [by apply list_elem_of_singleton|by apply elem_of_map_to_list].
Qed.

Lemma toy_owned_NoDup x c a : NoDup (toy_owned x c a).
Proof.
  unfold toy_owned. pose proof (NoDup_fst_map_to_list (toy_nfts x)) as H.
  induction (map_to_list (toy_nfts x)) as [|[[c' n'] w] l IH]; cbn; [apply NoDup_nil_2|].
  cbn in H. apply NoDup_cons in H as [Hnin H]. case_match eqn:E; cbn; [|by apply IH].
  apply NoDup_cons. split; [|by apply IH]. b2p. destruct E as [-> <-].
  intros ([[c2 n2] w2] & Hn & Hw2)%list_elem_of_bind. cbn in Hn.
  case_match eqn:E; [|by apply elem_of_nil in Hn]. b2p. destruct E as [-> _].
  apply list_elem_of_singleton in Hn as ->. apply Hnin.
  by apply (list_elem_of_fmap_2 fst l (c, n2, w2)).
Qed.

Lemma toy_lookup x k : toy_nfts x !! k = if decide (is_Some (t_colls x !! k.1)) then t_nfts x !! k else None.
Proof.
  unfold toy_nfts. case_decide as Hc.
  - destruct (t_nfts x !! k) as [w|] eqn:E; [by apply map_lookup_filter_Some|].
    apply map_lookup_filter_None. by left.
  - apply map_lookup_filter_None. right. intros w _. done.
Qed.

#[global] Instance toy_pool_laws : PoolLaws Toy.
Proof.
  split.
  - done.
  - cbn. intros x a b. unfold toy_maybe_balance. destruct (t_wpha x !! a); cbn; [|done].
    intros [= <-]. by apply wrap_range.
  - intros a b v x x' (Hn & Hc & Hp & Hb & Hd)%toy_transfer_spec.
    split; [by apply toy_same_nfts|]. split_and!; try done.
  - intros a b v x Hv Hor Hb. change (wpha_balance x a) with (toy_balance x a) in *.
    change (wpha_balance x b) with (toy_balance x b) in *.
    change (wpha_maybe_balance x b) with (toy_maybe_balance x b) in *.
    change (wpha_minimum_balance x) with toy_min in *.
    change (is_Some (toy_transfer a b v x)). unfold toy_transfer.
    pose proof (toy_balance_range x a).
    destruct ((v <? 0) || _) eqn:E1; b2p; [lia|]. case_match; [by eexists|].
    set (d := if _ <? _ then _ else v) in *.
    assert (v <= d <= toy_balance x a) by (subst d; case_match; b2p; lia).
    case_match eqn:E3; [|by eexists]. exfalso. b2p. destruct E3 as [|[E3 ?]]; [lia|].
    destruct Hor as [Hs|]; [|lia]. unfold toy_maybe_balance in Hs. rewrite E3 in Hs. by destruct Hs.
  - intros a v x x' H. change (toy_mint_into a v x = Minted x') in H. revert H. unfold toy_mint_into.
    destruct (_ || _) eqn:E1; [done|]. b2p. destruct (v =? 0) eqn:E2.
    { intros [= <-]. b2p. split; [by apply toy_same_nfts|]. split_and!; try done. lia. }
    destruct (_ <? _); [done|]. intros [= <-]. split; [by apply toy_same_nfts|]. split_and!; try done.
    + intros c Hc. cbn. unfold toy_maybe_balance. cbn. by rewrite lookup_insert_ne.
    + pose proof (toy_balance_range x a). apply (toy_balance_insert x).
      change (wpha_balance x a) with (toy_balance x a). lia.
  - intros a v x d x'. cbn. unfold toy_burn_from. intros [= <- <-]. by apply toy_same_nfts.
  - intros who c sym x x'. cbn. unfold toy_create_collection. destruct (t_colls x !! c) eqn:E; [done|].
    intros [= <-]. split_and!; try done.
    + apply map_eq. intros [c' n]. cbn. rewrite !toy_lookup. cbn. rewrite toy_lookup. cbn.
      destruct (decide (c' = c)) as [->|Hne].
      * rewrite lookup_insert_eq, E. repeat case_decide; try done; naive_solver.
      * rewrite lookup_insert_ne by done. repeat case_decide; done.
    + intros c'. cbn. case_decide; [subst; apply lookup_insert_eq|by rewrite lookup_insert_ne].
  - intros who o n c x x'. cbn. unfold toy_mint_nft. case_match eqn:E; [|done]. b2p. destruct E as [E1 E2].
    intros [= <-]. split_and!; try done.
    + rewrite toy_lookup. cbn. by case_decide.
    + apply map_eq. intros [c' n']. rewrite toy_lookup. cbn.
      destruct (decide ((c, n) = (c', n'))) as [[= <- <-]|Hne].
      * by rewrite !lookup_insert_eq, decide_True by (by rewrite E1; eexists).
      * by rewrite !lookup_insert_ne, toy_lookup by done.
  - intros who o n c x Hi Hn. cbn in *. unfold toy_mint_nft. rewrite toy_lookup in Hn. cbn in Hn.
    rewrite decide_True in Hn by (rewrite Hi; by eexists).
    rewrite !bool_decide_true by done. by eexists.
  - intros o c n x x'. cbn. unfold toy_nft_burn. destruct (toy_nfts x !! (c, n)) as [w|] eqn:Ew; [|done].
    case_match eqn:E; [|done]. b2p. destruct E as [[Ho _] _]. intros [= <-]. split_and!; try done.
    + by exists w.
    + apply map_eq. intros [c' n']. rewrite toy_lookup. cbn.
      destruct (decide ((c, n) = (c', n'))) as [[= <- <-]|Hne].
      * rewrite !lookup_delete_eq. by case_decide.
      * by rewrite !lookup_delete_ne, toy_lookup by done.
  - intros o c n x Hn Hl. cbn in *. unfold toy_nft_burn. rewrite Hn. cbn. rewrite Z.eqb_refl. cbn.
    apply bool_decide_eq_false in Hl. rewrite bool_decide_true by done. by eexists.
  - intros c n b x. cbn. split_and!; [by apply toy_same_nfts|done..|]. unfold toy_set_lock. cbn.
    destruct b; [apply bool_decide_true|apply bool_decide_false]; set_solver.
  - intros c n x. cbn. split; [by apply toy_same_nfts|done].
  - intros c n k v x x'. cbn. unfold toy_set_property. case_match; [|done]. intros [= <-].
    split_and!; try done. intros c' n' k'. cbn.
    destruct (decide ((c', n', k') = (c, n, k))) as [[= -> -> ->]|Hne].
    + apply lookup_insert_eq.
    + apply lookup_insert_ne. congruence.
  - intros c n k v x Hc Hn Hl. cbn in *. unfold toy_set_property.
    apply bool_decide_eq_false in Hl. rewrite !bool_decide_true by done. by eexists.
  - intros c n k x. cbn. split_and!; try done. intros c' n' k' Hne. cbn. apply lookup_delete_ne. congruence.
  - apply toy_owned_NoDup.
  - apply toy_owned_spec.
  - intros x c n w. cbn. rewrite toy_lookup. cbn. by case_decide.
  - intros p q b b' Hp Hq E. cbn in E. injection E as E%encode_inj.
    by apply app_inj_1 in E as [-> _]; [|congruence].
  - by intros [].
  - by intros [].
  - done.
  - done.
  - intros p b Hp Hb. cbn. split; [apply Z.div_pos; nia|]. apply Z.div_le_upper_bound; nia.
Qed.
