(* ===== verification/PoolNfts.v ===== *)
(** * Shares in NFTs: what each NFT operation of the base pool does

    A collection's shares are the sum of the ["stake-info"] attributes of its
    NFTs. Every operation that succeeds changes that sum, the NFTs and the
    guards in a way stated here once, for the pools' theorems to use. *)

From S2P Require Import Prelude MqTypes Storage MqPallet FixedPoint Registry Computation PoolExt BasePool.

(** The steps of the pools, beside those of the prelude *)
Ltac mok_prim E :=
  lazymatch type of E with
  | ext_upd _ _ = Ok _ _ => unfold ext_upd, modify in E; mok_eq E
  | mod_bp _ _ = Ok _ _ => unfold mod_bp, modify in E; mok_eq E
  | deposit_event _ _ = Ok _ _ => unfold deposit_event, modify in E; mok_eq E
  | bp_event _ _ = Ok _ _ => unfold bp_event, deposit_event, modify in E; mok_eq E
  | _ => run_prim E
  end.
Ltac mok H :=
  let a := fresh "a" in let s := fresh "s" in let E := fresh "E" in
  apply bind_Ok in H as (a & s & E & H); mok_prim E.

Ltac mok_as H a s E := apply bind_Ok in H as (a & s & E & H); mok_prim E.

Section primitives.
Context {X : Type} `{BE : !BlockEnv} `{FC : !FixedCrate} `{CF : !CompConfig X} `{PC : !PoolConfig X}
  `{PV : !PoolView X} `{PL : !PoolLaws X}.
Implicit Types (s : Storage X) (x : X) (c : CollectionId) (n : NftId).

(** ** The view *)

Definition attr_of x c n : option NftAttr := rmrk_properties x c n NFT_PROPERTY_KEY ≫= decode_attr.
Definition nft_sh x c n : Balance := match attr_of x c n with Some a => shares a | None => 0 end.
(** The shares of a collection *)
Definition nft_shares x c : Z :=
  msum (fun k _ => if k.1 =? c then nft_sh x c k.2 else 0) (nfts x).

(** The NFTs and attributes of [x] outside [K] are those of [x']. *)
Definition nfts_same_but (K : CollectionId -> NftId -> Prop) x x' : Prop :=
  forall c n, ~ K c n -> nfts x' !! (c, n) = nfts x !! (c, n) /\ attr_of x' c n = attr_of x c n.

Definition same_issuers x x' : Prop := forall c, collection_issuer x' c = collection_issuer x c.

Lemma same_nfts_attr x x' c n : same_nfts x x' -> attr_of x' c n = attr_of x c n.
Proof. intros (_ & _ & H). unfold attr_of. by rewrite H. Qed.

Lemma nft_sh_eq x x' c n : attr_of x' c n = attr_of x c n -> nft_sh x' c n = nft_sh x c n.
Proof. unfold nft_sh. by intros ->. Qed.

Lemma nft_shares_ext x x' c :
  nfts x' = nfts x -> (forall n, is_Some (nfts x !! (c, n)) -> attr_of x' c n = attr_of x c n) ->
  nft_shares x' c = nft_shares x c.
Proof.
  intros Hn Ha. unfold nft_shares. rewrite Hn. apply msum_ext. intros [c' n] w Hw. cbn.
  case_match; b2p; [|done]. subst. apply nft_sh_eq, Ha. by eexists.
Qed.

Lemma nft_shares_same x x' c : same_nfts x x' -> nft_shares x' c = nft_shares x c.
Proof. intros H. apply nft_shares_ext; [apply H|]. intros n _. by apply same_nfts_attr. Qed.

Lemma key_of_stake : bvec KeyLimit NFT_PROPERTY_KEY = Some NFT_PROPERTY_KEY.
Proof.
  unfold bvec. replace (Z.of_nat (length NFT_PROPERTY_KEY)) with 10 by done.
  pose proof key_fits. by case_match; b2p; [|lia].
Qed.
Lemma key_of_time : bvec KeyLimit (bs "createtime") = Some (bs "createtime").
Proof.
  unfold bvec. replace (Z.of_nat (length (bs "createtime"))) with 10 by done.
  pose proof key_fits. by case_match; b2p; [|lia].
Qed.
Lemma value_of_attr a : bvec ValueLimit (encode_attr a) = Some (encode_attr a).
Proof. unfold bvec. pose proof (attr_fits a). by case_match; b2p; [|lia]. Qed.

(** ** Frames: what an NFT operation may change besides [ext] *)

Definition framed s s' : Prop := exists L N ev x,
  s' = put_ext x (put_events ev (upd_bp (fun b => put_nft_locks L (put_next_nft_ids N b)) s)).

Lemma framed_refl s : framed s s.
Proof. exists (nft_locks (bp s)), (next_nft_ids (bp s)), (events s), (ext s). by destruct s as [??? [] ?????]. Qed.
Lemma framed_trans s1 s2 s3 : framed s1 s2 -> framed s2 s3 -> framed s1 s3.
Proof. intros (L1&N1&ev1&x1&->) (L&N&ev&x&->). by exists L, N, ev, x. Qed.
Lemma framed_ext x s : framed s (put_ext x s).
Proof. exists (nft_locks (bp s)), (next_nft_ids (bp s)), (events s), x. by destruct s as [??? [] ?????]. Qed.

Lemma framed_pools s s' : framed s s' -> pools (bp s') = pools (bp s).
Proof. by intros (?&?&?&?&->). Qed.

(** ** The effect of each operation *)

(** [c, n] is new, belongs to [o] and holds [sh]. *)
Record minted c n (o : Account) (sh : Balance) x x' : Prop := {
  minted_fresh : nfts x !! (c, n) = None;
  minted_nfts : nfts x' = <[ (c, n) := mkNft o false ]> (nfts x);
  minted_attr : attr_of x' c n = Some (mkAttr sh);
  minted_rest : forall c' n', (c', n') <> (c, n) -> attr_of x' c' n' = attr_of x c' n';
  minted_assets : same_assets x x';
  minted_issuers : same_issuers x x';
}.
Record burnt c n (o : Account) x x' : Prop := {
  burnt_owned : exists w, nfts x !! (c, n) = Some w /\ nft_owner w = o;
  burnt_nfts : nfts x' = delete (c, n) (nfts x);
  burnt_rest : forall c' n', (c', n') <> (c, n) -> attr_of x' c' n' = attr_of x c' n';
  burnt_assets : same_assets x x';
  burnt_issuers : same_issuers x x';
}.
Record saved c n (a : NftAttr) x x' : Prop := {
  saved_nfts : nfts x' = nfts x;
  saved_attr : attr_of x' c n = Some a;
  saved_rest : forall c' n', (c', n') <> (c, n) -> attr_of x' c' n' = attr_of x c' n';
  saved_assets : same_assets x x';
  saved_issuers : same_issuers x x';
}.

Lemma nft_shares_minted c n o sh x x' c' :
  minted c n o sh x x' -> nft_shares x' c' = nft_shares x c' + (if c =? c' then sh else 0).
Proof.
  intros []. unfold nft_shares. rewrite minted_nfts0, msum_insert by done. cbn.
  assert (msum (fun k _ => if k.1 =? c' then nft_sh x' c' k.2 else 0) (nfts x) =
          msum (fun k _ => if k.1 =? c' then nft_sh x c' k.2 else 0) (nfts x)) as ->.
  { apply msum_ext. intros [c1 n1] w Hw. cbn. case_match; b2p; [|done]. subst.
    apply nft_sh_eq, minted_rest0. intros [= -> ->]. congruence. }
  case_match; b2p; [|lia]. subst. unfold nft_sh at 1. rewrite minted_attr0. cbn. lia.
Qed.

Lemma nft_shares_burnt c n o x x' c' :
  burnt c n o x x' -> nft_shares x' c' = nft_shares x c' - (if c =? c' then nft_sh x c n else 0).
Proof.
  intros []. destruct burnt_owned0 as (w & Hw & _). unfold nft_shares.
  rewrite burnt_nfts0, (msum_delete _ (nfts x) (c, n) w Hw). cbn.
  assert (msum (fun k _ => if k.1 =? c' then nft_sh x' c' k.2 else 0) (delete (c, n) (nfts x)) =
          msum (fun k _ => if k.1 =? c' then nft_sh x c' k.2 else 0) (delete (c, n) (nfts x))) as ->.
  { apply msum_ext. intros [c1 n1] w' [Hne Hw']%lookup_delete_Some. cbn. case_match; b2p; [|done].
    subst. apply nft_sh_eq, burnt_rest0. congruence. }
  case_match; b2p; [subst|]; lia.
Qed.

Lemma nft_shares_saved c n a x x' c' :
  saved c n a x x' -> is_Some (nfts x !! (c, n)) ->
  nft_shares x' c' = nft_shares x c' + (if c =? c' then shares a - nft_sh x c n else 0).
Proof.
  intros [] [w Hw]. unfold nft_shares.
  rewrite saved_nfts0, !(msum_delete _ (nfts x) (c, n) w Hw). cbn.
  assert (msum (fun k _ => if k.1 =? c' then nft_sh x' c' k.2 else 0) (delete (c, n) (nfts x)) =
          msum (fun k _ => if k.1 =? c' then nft_sh x c' k.2 else 0) (delete (c, n) (nfts x))) as ->.
  { apply msum_ext. intros [c1 n1] w' [Hne Hw']%lookup_delete_Some. cbn. case_match; b2p; [|done].
    subst. apply nft_sh_eq, saved_rest0. congruence. }
  case_match; b2p; [|lia]. subst. unfold nft_sh at 1. rewrite saved_attr0. lia.
Qed.

(** ** The operations *)

(** Nothing the pools look at changes. *)
Definition neutral x x' : Prop :=
  nfts x' = nfts x /\ (forall c n, attr_of x' c n = attr_of x c n) /\ same_assets x x' /\ same_issuers x x'.

Lemma same_assets_trans x1 x2 x3 : same_assets x1 x2 -> same_assets x2 x3 -> same_assets x1 x3.
Proof. intros (E1 & M1 & B1) (E2 & M2 & B2). split_and!; [congruence..|]. intros a. by rewrite B2, B1. Qed.
Lemma same_issuers_trans x1 x2 x3 : same_issuers x1 x2 -> same_issuers x2 x3 -> same_issuers x1 x3.
Proof. intros H1 H2 c. by rewrite H2, H1. Qed.
Lemma neutral_trans x1 x2 x3 : neutral x1 x2 -> neutral x2 x3 -> neutral x1 x3.
Proof.
  intros (N1 & A1 & S1 & I1) (N2 & A2 & S2 & I2). split_and!; [congruence| | |].
  - intros c n. by rewrite A2, A1.
  - by eapply same_assets_trans.
  - by eapply same_issuers_trans.
Qed.

Lemma neutral_set_lock c n b x : neutral x (rmrk_set_lock c n b x).
Proof.
  destruct (set_lock_spec c n b x) as (Hn & Ha & _). split_and!; [apply Hn| |done|exact (proj1 (proj2 Hn))].
  intros. by apply same_nfts_attr.
Qed.
Lemma neutral_remove_lock c n x : neutral x (rmrk_remove_lock c n x).
Proof.
  destruct (remove_lock_spec c n x) as (Hn & Ha). split_and!; [apply Hn| |done|exact (proj1 (proj2 Hn))].
  intros. by apply same_nfts_attr.
Qed.
Lemma neutral_remove_time c n x : neutral x (rmrk_remove_property c n (bs "createtime") x).
Proof.
  destruct (remove_property_spec c n (bs "createtime") x) as (Hn & Ha & Hi & Hp).
  split_and!; [done| |done|done]. intros c' n'. unfold attr_of. by rewrite Hp.
Qed.
Lemma neutral_set_time c n v x x' :
  rmrk_set_property c n (bs "createtime") v x = Some x' -> neutral x x'.
Proof.
  intros (Hn & Ha & Hi & Hp)%set_property_spec. split_and!; [done| |done|done].
  intros c' n'. unfold attr_of. rewrite Hp. case_decide as E; [|done].
  exfalso. injection E as _ _ E. vm_compute in E. discriminate E.
Qed.

Lemma saved_set_property c n a x x' :
  rmrk_set_property c n NFT_PROPERTY_KEY (encode_attr a) x = Some x' -> saved c n a x x'.
Proof.
  intros (Hn & Ha & Hi & Hp)%set_property_spec. split; [done| | |done|done].
  - unfold attr_of. rewrite Hp, decide_True by done. cbn. apply attr_roundtrip.
  - intros c' n' Hne. unfold attr_of. rewrite Hp, decide_False; [done|]. congruence.
Qed.

Lemma saved_neutral c n a x1 x2 x3 x4 :
  neutral x1 x2 -> saved c n a x2 x3 -> neutral x3 x4 -> saved c n a x1 x4.
Proof.
  intros (N1 & A1 & S1 & I1) [] (N2 & A2 & S2 & I2). split.
  - congruence.
  - by rewrite A2.
  - intros. by rewrite A2, saved_rest0, A1.
  - eapply same_assets_trans; [done|]. by eapply same_assets_trans.
  - eapply same_issuers_trans; [done|]. by eapply same_issuers_trans.
Qed.

Lemma ext_try_Ok f s u s' : ext_try f s = Ok u s' -> exists x, f (ext s) = Some x /\ s' = put_ext x s.
Proof. unfold ext_try. intros H. mok H. mok H. unfold modify in H. simplify_eq. by eexists. Qed.

Lemma set_nft_attr_Ok c n a s u s' :
  set_nft_attr c n a s = Ok u s' -> exists x, s' = put_ext x s /\ saved c n a (ext s) x.
Proof.
  unfold set_nft_attr. intros H%transactional_Ok. rewrite key_of_stake, value_of_attr in H.
  mok H. mok H. mok H. mok H. apply ext_try_Ok in E as (x & Hx & ->).
  unfold ext_upd, modify in H. simplify_eq/=. eexists. split; [by destruct s|].
  eapply saved_neutral; [apply neutral_set_lock| |apply neutral_set_lock].
  by apply saved_set_property.
Qed.

Lemma set_nft_desc_attr_Ok c n s u s' :
  set_nft_desc_attr c n s = Ok u s' -> exists x, s' = put_ext x s /\ neutral (ext s) x.
Proof.
  unfold set_nft_desc_attr. rewrite key_of_time. intros H. mok H. mok H. mok H. mok H.
  apply ext_try_Ok in E as (x & Hx & ->). unfold ext_upd, modify in H. simplify_eq/=.
  apply neutral_set_time in Hx. eexists. split; [by destruct s|].
  eapply neutral_trans; [apply neutral_set_lock|]. eapply neutral_trans; [done|apply neutral_set_lock].
Qed.

Lemma minted_saved c n o sh a x1 x2 x3 :
  minted c n o sh x1 x2 -> saved c n (mkAttr a) x2 x3 -> minted c n o a x1 x3.
Proof.
  intros [] []. split; [done|congruence|done| | |].
  - intros c' n' Hne. by rewrite saved_rest0, minted_rest0.
  - by eapply same_assets_trans.
  - by eapply same_issuers_trans.
Qed.
Lemma minted_neutral c n o sh x1 x2 x3 : minted c n o sh x1 x2 -> neutral x2 x3 -> minted c n o sh x1 x3.
Proof.
  intros [] (N & A & S & I). split; [done|congruence|by rewrite A| | |].
  - intros c' n' Hne. by rewrite A, minted_rest0.
  - by eapply same_assets_trans.
  - by eapply same_issuers_trans.
Qed.
Lemma burnt_neutral c n o x1 x2 x3 x4 :
  neutral x1 x2 -> burnt c n o x2 x3 -> neutral x3 x4 -> burnt c n o x1 x4.
Proof.
  intros (N1 & A1 & S1 & I1) [] (N2 & A2 & S2 & I2). rewrite N1 in *. split; [done|congruence| | |].
  - intros. by rewrite A2, burnt_rest0, A1.
  - eapply same_assets_trans; [done|]. by eapply same_assets_trans.
  - eapply same_issuers_trans; [done|]. by eapply same_issuers_trans.
Qed.

(** The state after minting [n] in [c]: the next id is taken, the creation announced. *)
Definition after_mint c n (ev : Event) x s : Storage X :=
  put_ext x (put_events (events s ++ [ev])
    (upd_bp (fun b => put_next_nft_ids (<[ c := n + 1 ]> (next_nft_ids b)) b) s)).

Lemma mint_nft_Ok c o sh pid s n s' :
  mint_nft c o sh pid s = Ok n s' ->
  exists x, s' = after_mint c n (EvBp (NftCreated pid c n o sh)) x s /\
    minted c n o sh (ext s) x /\ n = default 0 (next_nft_ids (bp s) !! c) /\ n + 1 < 2 ^ 32.
Proof.
  unfold mint_nft. intros H%transactional_Ok. mok H. mok H. mok H.
  unfold get_next_nft_id in E. mok E. mok E. mok E. mok_prim E.
  apply checked_add_Some in Ho0 as [Hlt ->].
  mok H. apply ext_try_Ok in E as (x1 & Hx1 & ->).
  mok H. apply set_nft_attr_Ok in E as (x2 & -> & Hx2).
  mok H. apply set_nft_desc_attr_Ok in E as (x3 & -> & Hx3).
  mok H. mok H. mok_prim H. cbn in *.
  exists (rmrk_set_lock c (default 0 (next_nft_ids (bp s) !! c)) true x3).
  split; [by destruct s|]. split_and!; [|done|done].
  eapply minted_neutral; [|apply neutral_set_lock]. eapply minted_neutral; [|done].
  apply rmrk_mint_spec in Hx1 as (Hf & Hn & Ha & Hi & Hp).
  destruct Hx2. split; [done|congruence|done| | |].
  - intros c' n' Hne. rewrite saved_rest0 by done. unfold attr_of. by rewrite Hp.
  - by eapply same_assets_trans.
  - by eapply same_issuers_trans.
Qed.

Lemma burn_nft_Ok o c n s u s' :
  burn_nft o c n s = Ok u s' -> exists x, s' = put_ext x s /\ burnt c n o (ext s) x.
Proof.
  unfold burn_nft, remove_properties. intros H%transactional_Ok. rewrite key_of_time in H.
  mok H. mok H. apply or_err_Ok, ext_try_Ok in E as (x & Hx & ->).
  mok H. mok E. unfold ext_upd, modify in *. simplify_eq/=. eexists. split; [by destruct s|].
  eapply burnt_neutral; [apply neutral_set_lock| |].
  - apply rmrk_burn_spec in Hx as (Ho' & Hn & Ha & Hi & Hp). split; [done|done| |done|done].
    intros c' n' Hne. unfold attr_of. by rewrite Hp.
  - eapply neutral_trans; [apply neutral_remove_time|apply neutral_remove_lock].
Qed.

(** [s] with the guard of [c, n] taken, or dropped *)
Definition lock_nft c n s : Storage X :=
  upd_bp (fun b => put_nft_locks ({[ (c, n) ]} ∪ nft_locks b) b) s.
Definition unlock_nft c n s : Storage X :=
  upd_bp (fun b => put_nft_locks (nft_locks b ∖ {[ (c, n) ]}) b) s.

Lemma unlock_lock c n s : (c, n) ∉ nft_locks (bp s) -> unlock_nft c n (lock_nft c n s) = s.
Proof.
  intros Hn. unfold unlock_nft, lock_nft, upd_bp. destruct s as [m r cp b p v w e x], b as [nn li pc pcs ci ps L wl de re].
  cbn in *. unfold put_bp, put_nft_locks. cbn. do 2 f_equal. set_solver.
Qed.

Lemma get_nft_attr_Ok c n s a s' :
  get_nft_attr c n s = Ok a s' <-> attr_of (ext s) c n = Some a /\ s' = s.
Proof.
  unfold get_nft_attr, attr_of. rewrite key_of_stake. mred.
  destruct (rmrk_properties (ext s) c n NFT_PROPERTY_KEY) as [raw|]; cbn; [|naive_solver].
  destruct (decode_attr raw); naive_solver.
Qed.

Lemma get_nft_attr_guard_Ok c n s a s' :
  get_nft_attr_guard c n s = Ok a s' <->
  attr_of (ext s) c n = Some a /\ ((c, n) ∉ nft_locks (bp s)) /\ s' = lock_nft c n s.
Proof.
  unfold get_nft_attr_guard. rewrite bind_Ok. setoid_rewrite get_nft_attr_Ok.
  mred. unfold mod_bp, modify. split.
  - intros (a' & s1 & (Ha & ->) & H). case_bool_decide; simplify_eq. done.
  - intros (Ha & Hn & ->). exists a, s. split; [done|]. by rewrite bool_decide_true.
Qed.

Lemma read_nft_Ok c n s a s' :
  read_nft c n s = Ok a s' <->
  attr_of (ext s) c n = Some a /\ ((c, n) ∉ nft_locks (bp s)) /\ s' = s.
Proof.
  unfold read_nft. rewrite bind_Ok. setoid_rewrite get_nft_attr_guard_Ok. mred.
  unfold guard_drop, mod_bp, modify. split.
  - intros (a' & s1 & (Ha & Hn & ->) & H). simplify_eq. split_and!; [done..|]. by apply unlock_lock.
  - intros (Ha & Hn & ->). exists a, (lock_nft c n s). split; [done|]. f_equal. by apply unlock_lock.
Qed.

Lemma guard_save_Ok c n a s u s' :
  guard_save c n a s = Ok u s' -> exists x, s' = unlock_nft c n (put_ext x s) /\ saved c n a (ext s) x.
Proof.
  unfold guard_save. intros H. mok H. apply set_nft_attr_Ok in E as (x & -> & Hx).
  unfold guard_drop, mod_bp, modify in H. simplify_eq. by exists x.
Qed.
End primitives.
