(* ===== verification/PoolShares.v ===== *)
(** * Every share in an NFT is a share of the pool

    What the operations on a pool's NFTs do to the collection as a whole:
    which NFTs they may touch, and how the sum of the shares moves. *)

From S2P Require Import Prelude MqTypes Storage MqPallet FixedPoint Registry Computation PoolExt BasePool PoolNfts.

Section shares.
Context {X : Type} `{BE : !BlockEnv} `{FC : !FixedCrate} `{CF : !CompConfig X} `{PC : !PoolConfig X}
  `{PV : !PoolView X} `{PL : !PoolLaws X}.
Implicit Types (s : Storage X) (x : X) (c : CollectionId) (n : NftId).

(** The NFTs of a collection have attributes in range and ids already given out. *)
Definition coll_ok s c : Prop := forall n w, nfts (ext s) !! (c, n) = Some w ->
  (exists a, attr_of (ext s) c n = Some a /\ u128 (shares a)) /\
  0 <= n < default 0 (next_nft_ids (bp s) !! c).

Lemma coll_ok_sh s c n w :
  coll_ok s c -> nfts (ext s) !! (c, n) = Some w -> u128 (nft_sh (ext s) c n).
Proof. intros Hc Hw. destruct (Hc n w Hw) as ((a & Ha & Hr) & _). unfold nft_sh. by rewrite Ha. Qed.

Lemma coll_ok_nonneg s c k w :
  coll_ok s c -> nfts (ext s) !! k = Some w -> 0 <= (if k.1 =? c then nft_sh (ext s) c k.2 else 0).
Proof.
  intros Hc Hw. case_match; b2p; [|done]. destruct k as [c' n]; cbn in *. subst.
  by apply (coll_ok_sh s c n w).
Qed.

Lemma nft_shares_nonneg s c : coll_ok s c -> 0 <= nft_shares (ext s) c.
Proof. intros Hc. apply msum_nonneg. intros k w Hw. by eapply coll_ok_nonneg. Qed.

Lemma nft_sh_le s c n w :
  coll_ok s c -> nfts (ext s) !! (c, n) = Some w -> nft_sh (ext s) c n <= nft_shares (ext s) c.
Proof.
  intros Hc Hw.
  pose proof (msum_ge (fun k _ => if k.1 =? c then nft_sh (ext s) c k.2 else 0) (nfts (ext s)) (c, n) w) as H.
  cbn in H. rewrite Z.eqb_refl in H. apply H; [|done]. intros k w' Hw'. by eapply coll_ok_nonneg.
Qed.

(** The next ids are ids. *)
Definition ids_ok s : Prop := forall c, 0 <= default 0 (next_nft_ids (bp s) !! c).

(** ** What may change

    From [s] to [s'] only NFTs of [c] that are unlocked and belong to [O] are
    touched, new ones may appear in [c], and the guards are as before. *)
Record evolves c (O : Account -> Prop) s s' : Prop := {
  ev_framed : framed s s';
  ev_locks : nft_locks (bp s') = nft_locks (bp s);
  ev_issuers : same_issuers (ext s) (ext s');
  ev_same : forall c' n w, nfts (ext s) !! (c', n) = Some w ->
    c' <> c \/ (c', n) ∈ nft_locks (bp s) \/ ~ O (nft_owner w) ->
    nfts (ext s') !! (c', n) = Some w /\ attr_of (ext s') c' n = attr_of (ext s) c' n;
  ev_ok : forall c', coll_ok s c' -> coll_ok s' c';
  ev_other : forall c', c' <> c -> nft_shares (ext s') c' = nft_shares (ext s) c';
  ev_ids : ids_ok s -> ids_ok s';
}.

Lemma evolves_refl c O s : evolves c O s s.
Proof. split; try done. apply framed_refl. Qed.

Lemma evolves_trans c O s1 s2 s3 : evolves c O s1 s2 -> evolves c O s2 s3 -> evolves c O s1 s3.
Proof.
  intros [] []. split.
  - by eapply framed_trans.
  - congruence.
  - by eapply same_issuers_trans.
  - intros c' n w Hw Hor. destruct (ev_same0 c' n w Hw Hor) as [Hw2 Ha2].
    destruct (ev_same1 c' n w Hw2) as [Hw3 Ha3]; [by rewrite ev_locks0|]. split; [done|congruence].
  - auto.
  - intros c' Hc'. by rewrite ev_other1, ev_other0.
  - auto.
Qed.

Lemma evolves_weaken c (O O' : Account -> Prop) s s' :
  (forall a, O a -> O' a) -> evolves c O s s' -> evolves c O' s s'.
Proof.
  intros HO []. split; try done. intros c' n w Hw Hor. apply ev_same0; [done|].
  destruct Hor as [|[|]]; [by left|by right; left|right; right; auto].
Qed.

(** A change of [ext] the NFTs do not see *)
Lemma evolves_ext c O s x :
  nfts x = nfts (ext s) -> (forall c n, attr_of x c n = attr_of (ext s) c n) ->
  same_issuers (ext s) x -> evolves c O s (put_ext x s).
Proof.
  intros Hn Ha Hi. split; [apply framed_ext|done|done| | | |done].
  - intros c' n w Hw _. cbn. by rewrite Hn, Ha.
  - intros c' Hc n w Hw. cbn in *. rewrite Hn in Hw. rewrite Ha. by apply (Hc n w).
  - intros c' _. apply nft_shares_ext; [done|]. auto.
Qed.

Lemma evolves_mint c O s n o sh ev x :
  minted c n o sh (ext s) x -> n = default 0 (next_nft_ids (bp s) !! c) -> 0 <= n -> u128 sh ->
  evolves c O s (after_mint c n ev x s).
Proof.
  intros Hm Hn Hpos Hsh. pose proof Hm as []. split; [|done|done| | | |].
  - exists (nft_locks (bp s)), (<[ c := n + 1 ]> (next_nft_ids (bp s))), (events s ++ [ev]), x.
    by destruct s as [??? [] ?????].
  - intros c' n' w Hw _. cbn.
    assert ((c', n') <> (c, n)) as Hne by congruence.
    rewrite minted_nfts, minted_rest by done. by rewrite lookup_insert_ne by congruence.
  - intros c' Hc n' w Hw. cbn in *. rewrite minted_nfts in Hw.
    destruct (decide ((c', n') = (c, n))) as [[= -> ->]|Hne].
    + rewrite lookup_insert_eq. cbn. split; [|lia]. by exists (mkAttr sh).
    + rewrite lookup_insert_ne in Hw by congruence. rewrite minted_rest by done.
      destruct (Hc n' w Hw) as [? ?]. split; [done|].
      destruct (decide (c' = c)) as [->|]; [rewrite lookup_insert_eq; cbn; lia|].
      by rewrite lookup_insert_ne by congruence.
  - intros c' Hc'. cbn. rewrite (nft_shares_minted _ _ _ _ _ _ c' Hm).
    case_match; b2p; [congruence|lia].
  - intros Hi c'. cbn. destruct (decide (c' = c)) as [->|]; [rewrite lookup_insert_eq; cbn; lia|].
    rewrite lookup_insert_ne by congruence. apply Hi.
Qed.

Lemma evolves_burn c s n o x :
  burnt c n o (ext s) x -> (c, n) ∉ nft_locks (bp s) -> evolves c (eq o) s (put_ext x s).
Proof.
  intros Hb Hl. pose proof Hb as []. split; [apply framed_ext|done|done| | | |done].
  - intros c' n' w Hw Hor. cbn. destruct burnt_owned as (w0 & Hw0 & Hown).
    assert ((c', n') <> (c, n)) as Hne.
    { intros [= -> ->]. destruct Hor as [|[|HO]]; [done|done|]. apply HO. congruence. }
    rewrite burnt_nfts, burnt_rest by done. by rewrite lookup_delete_ne by congruence.
  - intros c' Hc n' w Hw. cbn in *. rewrite burnt_nfts in Hw.
    apply lookup_delete_Some in Hw as [Hne Hw]. rewrite burnt_rest by congruence. by apply (Hc n' w).
  - intros c' Hc'. cbn. rewrite (nft_shares_burnt _ _ _ _ _ c' Hb). case_match; b2p; [congruence|lia].
Qed.

Lemma evolves_save c s n a o b x :
  saved c n a (ext s) x -> nfts (ext s) !! (c, n) = Some (mkNft o b) ->
  (c, n) ∉ nft_locks (bp s) -> u128 (shares a) -> evolves c (eq o) s (put_ext x s).
Proof.
  intros Hs Hn Hl Ha. pose proof Hs as []. split; [apply framed_ext|done|done| | | |done].
  - intros c' n' w Hw Hor. cbn.
    assert ((c', n') <> (c, n)) as Hne.
    { intros [= -> ->]. rewrite Hn in Hw. simplify_eq. by destruct Hor as [|[|HO]]. }
    by rewrite saved_nfts, saved_rest.
  - intros c' Hc n' w Hw. cbn in *. rewrite saved_nfts in Hw. destruct (Hc n' w Hw) as [? ?].
    split; [|done]. destruct (decide ((c', n') = (c, n))) as [[= -> ->]|Hne].
    + by exists a.
    + by rewrite saved_rest.
  - intros c' Hc'. cbn. rewrite (nft_shares_saved _ _ _ _ _ c' Hs) by (by eexists).
    case_match; b2p; [congruence|lia].
Qed.

(** ** Merging *)

(** The shares of the burnt NFTs go into the total. *)
Lemma burn_all_Ok o c l : forall t s t' s',
  burn_all o c l t s = Ok t' s' -> coll_ok s c -> 0 <= t -> t + nft_shares (ext s) c < 2 ^ 128 ->
  evolves c (eq o) s s' /\ same_assets (ext s) (ext s') /\ next_nft_ids (bp s') = next_nft_ids (bp s) /\
  0 <= t' /\ t' + nft_shares (ext s') c = t + nft_shares (ext s) c.
Proof.
  induction l as [|n l IH]; intros t s t' s' H Hc Ht Hb; cbn [burn_all] in H.
  - mok_prim H. split_and!; [apply evolves_refl|done..].
  - mok H. apply read_nft_Ok in E as (Ha & Hl & ->).
    mok H. apply burn_nft_Ok in E as (x & -> & Hx).
    pose proof (evolves_burn c s n o x Hx Hl) as Hev.
    destruct (burnt_owned _ _ _ _ _ Hx) as (w & Hw & _).
    pose proof (coll_ok_sh s c n w Hc Hw) as Hr. pose proof (nft_sh_le s c n w Hc Hw) as Hle.
    assert (nft_sh (ext s) c n = shares a) as Hsh by (unfold nft_sh; by rewrite Ha).
    rewrite Hsh in *. unfold in_width in Hr.
    pose proof (nft_shares_burnt _ _ _ _ _ c Hx) as Hsum. rewrite Z.eqb_refl, Hsh in Hsum.
    rewrite wrap_add_small in H by lia.
    apply IH in H as (Hev' & Has & Hnx & Ht' & Heq); [|by apply Hev|lia|cbn; lia].
    cbn in *. split_and!; [by eapply evolves_trans| |done|done|lia].
    eapply same_assets_trans; [by apply (burnt_assets _ _ _ _ _ Hx)|done].
Qed.

(** The pool's own view of the assets: merging only moves shares between NFTs
    of one owner. *)
Lemma merge_nft_Ok c o pid s r s' :
  merge_nft_for_staker c o pid s = Ok r s' -> coll_ok s c -> nft_shares (ext s) c < 2 ^ 128 ->
  ids_ok s ->
  evolves c (eq o) s s' /\ same_assets (ext s) (ext s') /\
  nft_shares (ext s') c = nft_shares (ext s) c /\
  (forall n, r = Some n -> exists w, nfts (ext s') !! (c, n) = Some w /\ nft_owner w = o).
Proof.
  unfold merge_nft_for_staker. intros H Hc Hb Hnx. mok H.
  destruct (owned_in_collection (ext s) c o) as [|n [|n2 l]] eqn:Eo.
  - mok_prim H. split_and!; [apply evolves_refl|done..].
  - mok_prim H. split_and!; [apply evolves_refl|done..|]. intros n' [= <-].
    apply owned_spec. rewrite Eo. by left.
  - rewrite <- Eo in H. mok H.
    apply burn_all_Ok in E as (Hev & Has & Hnn & Ht & Heq); [|done|lia|lia].
    mok H. apply mint_nft_Ok in E as (x & -> & Hm & Hn & Hlt). mok_prim H.
    pose proof (nft_shares_nonneg _ _ (ev_ok _ _ _ _ Hev c Hc)).
    assert (u128 a) by (unfold in_width; lia).
    assert (0 <= a0) by (subst a0; rewrite Hnn; apply Hnx).
    split_and!.
    + eapply evolves_trans; [done|]. by apply (evolves_mint _ _ _ _ o a).
    + eapply same_assets_trans; [done|]. apply Hm.
    + cbn. rewrite (nft_shares_minted _ _ _ _ _ _ c Hm), Z.eqb_refl. lia.
    + intros n' [= <-]. cbn. rewrite (minted_nfts _ _ _ _ _ _ Hm), lookup_insert_eq. by eexists.
Qed.

(** ** Requests taken back *)
Lemma return_queued_Ok c l : forall nft s nft' s',
  return_queued c l nft s = Ok nft' s' -> coll_ok s c -> 0 <= shares nft ->
  shares nft + nft_shares (ext s) c < 2 ^ 128 ->
  evolves c (eq pallet_id) s s' /\ same_assets (ext s) (ext s') /\
  next_nft_ids (bp s') = next_nft_ids (bp s) /\
  (forall n w, nfts (ext s') !! (c, n) = Some w <->
     nfts (ext s) !! (c, n) = Some w /\ n ∉ (wd_nft_id <$> l)) /\
  0 <= shares nft' /\ shares nft' + nft_shares (ext s') c = shares nft + nft_shares (ext s) c.
Proof.
  induction l as [|q l IH]; intros nft s nft' s' H Hc Ht Hb; cbn [return_queued] in H.
  - mok_prim H. split_and!; [apply evolves_refl|done..| |done|done]. intros n w. cbn. set_solver.
  - mok H. apply read_nft_Ok in E as (Ha & Hl & ->).
    mok H. apply burn_nft_Ok in E as (x & -> & Hx). set (n := wd_nft_id q) in *.
    pose proof (evolves_burn c s n _ x Hx Hl) as Hev.
    destruct (burnt_owned _ _ _ _ _ Hx) as (w & Hw & _).
    pose proof (coll_ok_sh s c n w Hc Hw) as Hr. pose proof (nft_sh_le s c n w Hc Hw) as Hle.
    assert (nft_sh (ext s) c n = shares a) as Hsh by (unfold nft_sh; by rewrite Ha).
    rewrite Hsh in *. unfold in_width in Hr.
    pose proof (nft_shares_burnt _ _ _ _ _ c Hx) as Hsum. rewrite Z.eqb_refl, Hsh in Hsum.
    rewrite wrap_add_small in H by lia.
    apply IH in H as (Hev' & Has & Hnx & Hmem & Ht' & Heq); [|by apply Hev|cbn; lia|cbn; lia].
    cbn in *. split_and!; [by eapply evolves_trans| |done| |done|lia].
    + eapply same_assets_trans; [by apply (burnt_assets _ _ _ _ _ Hx)|done].
    + intros n' w'. rewrite Hmem, (burnt_nfts _ _ _ _ _ Hx), lookup_delete_Some, not_elem_of_cons.
      naive_solver.
Qed.
End shares.
