(* ===== verification/PoolQueue.v ===== *)
(** * Contribution and the withdraw queue

    [pool_ok]: the NFTs of a pool's collection never hold more shares than the
    pool counts, and each queued request owns an NFT of the pallet. Every
    operation on a pool that succeeds keeps it and keeps the difference
    between the two sums. *)

From S2P Require Import Prelude MqTypes Storage MqPallet FixedPoint Registry Computation PoolExt BasePool PoolNfts PoolShares.

Lemma extract_dust_spec n a d :
  extract_dust n = (a, d) -> a + d = n /\ (a = 0 \/ d = 0) /\ (0 <= n -> 0 <= a /\ 0 <= d) /\ (a = 0 \/ 1000 < a).
Proof. unfold extract_dust, balance_close_to_zero. case_match; b2p; intros [= <- <-]; lia. Qed.

Section queue.
Context {X : Type} `{BE : !BlockEnv} `{FC : !FixedCrate} `{CF : !CompConfig X} `{PC : !PoolConfig X}
  `{PV : !PoolView X} `{PL : !PoolLaws X} `{FD : !FixedDoc}.
Implicit Types (s : Storage X) (x : X) (c : CollectionId) (n : NftId) (b : BasePool).

(** [b'] is the pool [b], with other amounts. *)
Definition same_pool b b' : Prop :=
  b_pid b' = b_pid b /\ b_owner b' = b_owner b /\ b_cid b' = b_cid b /\
  pool_account_id b' = pool_account_id b /\ value_subscribers b' = value_subscribers b.

Lemma same_pool_trans b1 b2 b3 : same_pool b1 b2 -> same_pool b2 b3 -> same_pool b1 b3.
Proof. intros (?&?&?&?&?) (?&?&?&?&?). split_and!; congruence. Qed.

(** The shares of the NFT [h], whose new attribute is still in memory *)
Definition held x c (h : option NftId) : Z := match h with Some n => nft_sh x c n | None => 0 end.

(** What the pool counts beyond the shares in its NFTs other than [h] *)
Definition slack s b (h : option NftId) : Z :=
  total_shares b - (nft_shares (ext s) (b_cid b) - held (ext s) (b_cid b) h).

(** The pool counts every share in the NFTs other than [h], and [e] more. *)
Record pool_ok s b (h : option NftId) (e : Z) : Prop := {
  po_coll : coll_ok s (b_cid b);
  po_shares_range : u128 (total_shares b);
  po_value_range : u128 (total_value b);
  po_extra : 0 <= e;
  po_covered : e <= slack s b h;
  po_held : forall n, h = Some n -> (b_cid b, n) ∈ nft_locks (bp s) /\
    exists w, nfts (ext s) !! (b_cid b, n) = Some w /\ nft_owner w <> pallet_id;
  po_queue : forall w, w ∈ withdraw_queue b ->
    nfts (ext s) !! (b_cid b, wd_nft_id w) = Some (mkNft pallet_id false);
  po_nodup : NoDup (wd_nft_id <$> withdraw_queue b);
  po_users : NoDup (wd_user <$> withdraw_queue b);
}.

Lemma pool_ok_bound s b e : pool_ok s b None e -> nft_shares (ext s) (b_cid b) < 2 ^ 128.
Proof. intros []. unfold slack, held, in_width in *. lia. Qed.

Lemma pool_ok_mono s b h e e' : pool_ok s b h e -> 0 <= e' <= e -> pool_ok s b h e'.
Proof. intros [] He. split; try done; lia. Qed.

(** A locked NFT keeps its attribute. *)
Lemma held_evolves c O s s' h :
  evolves c O s s' ->
  (forall n, h = Some n -> (c, n) ∈ nft_locks (bp s) /\
     exists w, nfts (ext s) !! (c, n) = Some w /\ nft_owner w <> pallet_id) ->
  held (ext s') c h = held (ext s) c h /\
  (forall n, h = Some n -> (c, n) ∈ nft_locks (bp s') /\
     exists w, nfts (ext s') !! (c, n) = Some w /\ nft_owner w <> pallet_id).
Proof.
  intros [] Hh. destruct h as [n|]; [|done]. destruct (Hh n eq_refl) as (Hl & w & Hw & Hne).
  destruct (ev_same c n w Hw) as [Hw' Ha]; [by right; left|]. split; [by apply nft_sh_eq|].
  intros n' [= <-]. rewrite ev_locks. split; [done|]. by exists w.
Qed.

(** The shares of one NFT are among those of the others. *)
Lemma nft_sh_le_held s b h e n w :
  pool_ok s b h e -> nfts (ext s) !! (b_cid b, n) = Some w -> (b_cid b, n) ∉ nft_locks (bp s) ->
  0 <= nft_sh (ext s) (b_cid b) n /\
  nft_sh (ext s) (b_cid b) n <= nft_shares (ext s) (b_cid b) - held (ext s) (b_cid b) h.
Proof.
  intros [] Hw Hl. pose proof (coll_ok_sh _ _ _ _ po_coll0 Hw) as Hr. unfold in_width in Hr. split; [lia|].
  destruct h as [n'|]; cbn; [|pose proof (nft_sh_le _ _ _ _ po_coll0 Hw); lia].
  destruct (po_held0 n' eq_refl) as (Hl' & w' & Hw' & _).
  set (f := fun (k : CollectionId * NftId) (_ : NftView) =>
              if k.1 =? b_cid b then nft_sh (ext s) (b_cid b) k.2 else 0).
  unfold nft_shares. fold f. rewrite (msum_delete f _ _ _ Hw').
  assert (f (b_cid b, n') w' = nft_sh (ext s) (b_cid b) n') as -> by (unfold f; cbn; by rewrite Z.eqb_refl).
  assert (f (b_cid b, n) w <= msum f (delete (b_cid b, n') (nfts (ext s)))) as Hle.
  { apply msum_ge; [|rewrite lookup_delete_ne; [done|congruence]].
    intros k v [_ Hv]%lookup_delete_Some. by eapply coll_ok_nonneg. }
  unfold f in Hle at 1. cbn in Hle. rewrite Z.eqb_refl in Hle. lia.
Qed.

(** Operations on other collections leave a pool alone. *)
Lemma pool_ok_other c O s s' b e :
  evolves c O s s' -> b_cid b <> c -> pool_ok s b None e ->
  pool_ok s' b None e /\ slack s' b None = slack s b None.
Proof.
  intros [] Hc []. assert (slack s' b None = slack s b None) as Hsl.
  { unfold slack, held. by rewrite ev_other. }
  split; [|done]. split; try done.
  - auto.
  - lia.
  - intros w Hw. by apply (ev_same _ _ _ (po_queue0 w Hw)); left.
Qed.

(** Operations on NFTs of the pool's own collection that belong to others
    than the pallet keep the queue. *)
Lemma pool_ok_evolves O s s' b b' h e :
  evolves (b_cid b) O s s' -> ~ O pallet_id -> pool_ok s b h e ->
  b_cid b' = b_cid b -> withdraw_queue b' = withdraw_queue b ->
  u128 (total_shares b') -> u128 (total_value b') -> slack s' b' h = slack s b h -> pool_ok s' b' h e.
Proof.
  intros Hev HO [] Hc Hq Hs Hv Hsl. split; rewrite ?Hc, ?Hq; try done.
  - by apply Hev.
  - lia.
  - by apply (held_evolves _ _ _ _ h Hev).
  - intros w Hw. apply (ev_same _ _ _ _ Hev _ _ _ (po_queue0 w Hw)). by right; right.
Qed.

(** ** Arithmetic of prices *)

Lemma to_fixed_Some z f : u128 z -> to_fixed z = Some f -> z < 2 ^ 80 /\ u128 f.
Proof.
  intros Hz. rewrite to_fixed_spec by done. case_match eqn:E; [|done]. b2p. intros [= <-].
  split; [done|]. unfold in_width, PHA in *.
  assert (0 <= z * 2 ^ 48 / 1000000000000 < 2 ^ 112).
  { split; [apply Z.div_pos; lia|]. apply Z.div_lt_upper_bound; lia. }
  lia.
Qed.

Lemma from_fixed_range v r : u128 v -> from_fixed v = Some r -> 0 <= r < 2 ^ 80.
Proof.
  intros Hv. rewrite from_fixed_spec by done. case_match eqn:E; [|done]. b2p. intros [= <-].
  unfold in_width in Hv. split.
  - apply Z.div_pos; [|lia]. apply Z.mul_nonneg_nonneg; [|unfold PHA; lia]. apply Z.div_pos; lia.
  - apply Z.div_lt_upper_bound; lia.
Qed.

Lemma bdiv_range a p r : u128 a -> bdiv a p = Some r -> 0 <= r < 2 ^ 80.
Proof.
  intros Ha. unfold bdiv. destruct (to_fixed a) as [f|] eqn:Ef; [|done]. cbn.
  rewrite u64f64_div_doc. case_match; [done|]. cbn. apply from_fixed_range. by apply wrap_range.
Qed.

Lemma bmul_range a p r : u128 a -> bmul a p = Some r -> 0 <= r < 2 ^ 80.
Proof.
  intros Ha. unfold bmul. destruct (to_fixed a) as [f|] eqn:Ef; [|done]. cbn.
  rewrite u64f64_mul_doc. apply from_fixed_range. by apply wrap_range.
Qed.

Lemma share_price_bounds s b h e p :
  pool_ok s b h e -> share_price b = Some p -> total_shares b < 2 ^ 80 /\ total_value b < 2 ^ 80.
Proof.
  intros [] H. unfold share_price in H.
  destruct (to_fixed (total_value b)) as [v|] eqn:Ev; [|done]. cbn in H.
  destruct (to_fixed (total_shares b)) as [sh|] eqn:Es; [|done].
  apply to_fixed_Some in Ev as [? _]; [|done]. apply to_fixed_Some in Es as [? _]; done.
Qed.

(** ** Contribution *)

Lemma transfer_neutral a a' v x x' c O s :
  wpha_transfer a a' v x = Some x' -> ext s = x -> evolves c O s (put_ext x' s).
Proof.
  intros (Hn & _)%transfer_spec <-. apply evolves_ext; [apply Hn| |exact (proj1 (proj2 Hn))].
  intros. by apply same_nfts_attr.
Qed.

Lemma add_stake_Ok b a amount s sh b' s' e :
  add_stake_to_new_nft b a amount s = Ok (sh, b') s' ->
  pool_ok s b None e -> ids_ok s -> a <> pallet_id -> 0 <= amount < 2 ^ 127 ->
  evolves (b_cid b) (eq a) s s' /\ pool_ok s' b' None e /\ slack s' b' None = slack s b None /\ same_pool b b' /\
  withdraw_queue b' = withdraw_queue b /\ 0 <= sh /\
  total_shares b' = total_shares b + sh /\ total_value b' = total_value b + amount.
Proof.
  unfold add_stake_to_new_nft. intros H Hok Hids Ha Hamt. mok H.
  pose proof (share_price_bounds s b _ _ _ Hok Ho) as [Hs80 Hv80].
  mok_as H a1 s0 E. assert (0 <= a1 < 2 ^ 127 /\ s0 = s) as [Ha1 ->].
  { repeat case_match; mok_prim E; (split; [|done]); try lia.
    match goal with Hd : bdiv _ _ = Some _ |- _ => apply bdiv_range in Hd end;
      unfold in_width; lia. }
  clear E. mok_as H a2 s0 E. apply mint_nft_Ok in E as (x1 & -> & Hm & Hn & _).
  mok H. apply ext_try_Ok in E as (x2 & Hx2 & ->). mok_prim H. cbn in Hx2.
  destruct (po_shares_range _ _ _ _ Hok), (po_value_range _ _ _ _ Hok).
  cbn [total_value put_total_shares]. rewrite !wrap_add_small by lia.
  set (s1 := after_mint _ _ _ _ _) in *.
  assert (evolves (b_cid b) (eq a) s s1) as Hev.
  { apply (evolves_mint _ _ _ _ a sh); [done|done|apply Hids|unfold in_width; lia]. }
  assert (evolves (b_cid b) (eq a) s (put_ext x2 s1)) as Hev'.
  { eapply evolves_trans; [done|]. by eapply transfer_neutral. }
  assert (nft_shares x2 (b_cid b) = nft_shares (ext s) (b_cid b) + sh) as Hsum.
  { apply transfer_spec in Hx2 as (Hx2 & _). rewrite (nft_shares_same _ _ _ Hx2).
    by rewrite (nft_shares_minted _ _ _ _ _ _ (b_cid b) Hm), Z.eqb_refl. }
  assert (slack (put_ext x2 s1) (put_total_value (total_value b + amount)
            (put_total_shares (total_shares b + sh) b)) None = slack s b None) as Hsl.
  { unfold slack, held. cbn. lia. }
  split_and!; [done| |done|by split_and!|done|lia|done|done].
  eapply pool_ok_evolves; [done|by intros ->|done|done|done| | |done]; unfold in_width; cbn; lia.
Qed.

Lemma contribute_Ok b a amount s sh b' s' e :
  contribute b a amount s = Ok (sh, b') s' ->
  pool_ok s b None e -> ids_ok s -> a <> pallet_id -> 0 <= amount < 2 ^ 127 ->
  evolves (b_cid b) (eq a) s s' /\ pool_ok s' b' None e /\ slack s' b' None = slack s b None /\ same_pool b b' /\
  withdraw_queue b' = withdraw_queue b /\ 0 <= sh /\
  total_shares b' = total_shares b + sh /\ total_value b' = total_value b + amount.
Proof.
  unfold contribute. intros H%transactional_Ok Hok Hids Ha Hamt. mok H. mok H. mok_as H u s0 E.
  assert (s0 = s) as ->.
  { case_match; mok_prim E; done. }
  clear E. mok_as H r s0 E. apply merge_nft_Ok in E as (Hev & _ & Hsum & _);
    [|apply Hok|by eapply pool_ok_bound|done].
  assert (pool_ok s0 b None e /\ slack s0 b None = slack s b None) as [Hok0 Hsl].
  { assert (slack s0 b None = slack s b None) by (unfold slack, held; lia). split; [|done].
    eapply pool_ok_evolves; [done|by intros ->|done..|apply Hok|apply Hok|done]. }
  apply (add_stake_Ok _ _ _ _ _ _ _ e) in H as (Hev' & Hok' & Hsl' & ?); [|done|by apply (ev_ids _ _ _ _ Hev)|done|done].
  split; [by eapply evolves_trans|]. split; [done|]. split; [lia|done].
Qed.

(** ** Queueing a request *)

Lemma filter_ids_disjoint (q : list WithdrawInfo) a w :
  NoDup (wd_nft_id <$> q) -> w ∈ filter (fun w => wd_user w <> a) q ->
  wd_nft_id w ∉ (wd_nft_id <$> filter (fun w => wd_user w = a) q).
Proof.
  intros Hnd [Hne Hw]%list_elem_of_filter (w' & Heq & [Hu Hw']%list_elem_of_filter)%list_elem_of_fmap.
  apply Hne. enough (w = w') by congruence.
  apply list_elem_of_lookup in Hw as [i Hi], Hw' as [j Hj].
  assert (i = j) as ->; [|congruence].
  eapply NoDup_lookup; [exact Hnd|by rewrite list_lookup_fmap, Hi|rewrite list_lookup_fmap, Hj]. cbn. congruence.
Qed.

Lemma NoDup_fmap_filter {A B} (f : A -> B) (P : A -> Prop) `{!forall y, Decision (P y)} l :
  NoDup (f <$> l) -> NoDup (f <$> filter P l).
Proof. intros Hl. eapply sublist_NoDup; [exact Hl|]. apply fmap_sublist, sublist_filter. Qed.

Lemma push_queue_ok (k : bool) c (q : list WithdrawInfo) a t n x1 x2 sh :
  NoDup (wd_nft_id <$> q) -> NoDup (wd_user <$> q) ->
  (forall w, w ∈ q -> nfts x1 !! (c, wd_nft_id w) = Some (mkNft pallet_id k)) ->
  ~ a ∈ (wd_user <$> q) -> minted c n pallet_id sh x1 x2 ->
  NoDup (wd_nft_id <$> (q ++ [mkWithdraw a t n])) /\ NoDup (wd_user <$> (q ++ [mkWithdraw a t n])).
Proof.
  intros Hids Hus Hq Ha Hm. rewrite !fmap_app, !NoDup_app. cbn.
  split; (split; [done|split; [|apply NoDup_singleton]]).
  - intros i (w & -> & Hw)%list_elem_of_fmap Hi%list_elem_of_singleton.
    pose proof (minted_fresh _ _ _ _ _ _ Hm) as Hf. rewrite <- Hi, (Hq w Hw) in Hf. done.
  - intros u Hu ->%list_elem_of_singleton. done.
Qed.

Lemma push_withdraw_Ok b nft a sh s r b' nft' s' n e :
  push_withdraw_in_queue b nft a sh s = Ok (r, b', nft') s' ->
  pool_ok s b (Some n) (e + shares nft) -> ids_ok s -> 0 <= e -> 0 <= shares nft -> 0 <= sh ->
  held (ext s) (b_cid b) (Some n) <= shares nft ->
  match r with
  | None => share_price b = Some None /\ s' = s /\ b' = b /\ shares nft' = shares nft - sh /\ 0 <= shares nft'
  | Some k =>
      is_Some (share_price b) /\ share_price b <> Some None /\
      evolves (b_cid b) (eq pallet_id) s s' /\ pool_ok s' b' (Some n) (e + shares nft') /\
      slack s' b' (Some n) - shares nft' = slack s b (Some n) - shares nft /\ same_pool b b' /\
      0 <= shares nft' /\ total_shares b' = total_shares b /\ total_value b' = total_value b /\
      withdraw_queue b' = filter (fun w => wd_user w <> a) (withdraw_queue b) ++ [mkWithdraw a now_sec k]
  end.
Proof.
  unfold push_withdraw_in_queue. intros H%transactional_Ok Hok Hids He Hnft Hsh Hheld.
  mok H. destruct o as [p|].
  2: { mok H. mok_prim H. apply checked_sub_Some in Ho0 as [? ->]. cbn. split_and!; try done; lia. }
  pose proof (share_price_bounds _ _ _ _ _ Hok Ho) as [Hs80 _].
  pose proof (po_covered _ _ _ _ Hok) as Hcov. pose proof (po_coll _ _ _ _ Hok) as Hcoll.
  assert (nft_shares (ext s) (b_cid b) < 2 ^ 82) by (unfold slack in Hcov; lia).
  assert (shares nft < 2 ^ 82).
  { pose proof (nft_shares_nonneg _ _ Hcoll).
    destruct (po_held _ _ _ _ Hok n eq_refl) as (_ & w & Hw & _).
    pose proof (nft_sh_le _ _ _ _ Hcoll Hw). unfold slack, held in *. lia. }
  mok_as H nft1 s1 E. cbn [b_cid put_withdraw_queue] in E.
  apply return_queued_Ok in E as (Hev1 & Has1 & Hnx1 & Hmem & Hn1 & Hsum1); [|done..|lia].
  mok_as H k s2 E. apply mint_nft_Ok in E as (x2 & -> & Hm & Hk & _).
  cbn [b_cid b_pid put_withdraw_queue] in *.
  mok H. mok_prim H. apply checked_sub_Some in Ho0 as [Hle ->].
  set (s2 := after_mint _ _ _ _ _) in *.
  assert (evolves (b_cid b) (eq pallet_id) s1 s2) as Hev2.
  { apply (evolves_mint _ _ _ _ pallet_id sh); [done|done| |].
    - by apply (ev_ids _ _ _ _ Hev1).
    - pose proof (nft_shares_nonneg _ _ (ev_ok _ _ _ _ Hev1 _ Hcoll)). unfold in_width. lia. }
  pose proof (evolves_trans _ _ _ _ _ Hev1 Hev2) as Hev.
  destruct (held_evolves _ _ _ _ _ Hev (po_held _ _ _ _ Hok)) as [Hh2 Hheld2].
  pose proof (nft_shares_minted _ _ _ _ _ _ (b_cid b) Hm) as Hsum2. rewrite Z.eqb_refl in Hsum2.
  assert (forall w, w ∈ filter (fun w => wd_user w <> a) (withdraw_queue b) ->
            nfts (ext s1) !! (b_cid b, wd_nft_id w) = Some (mkNft pallet_id false)) as Hq1.
  { intros w Hw. apply Hmem. split; [|by eapply filter_ids_disjoint; [apply Hok|]].
    apply Hok. by apply list_elem_of_filter in Hw as [_ Hw]. }
  destruct (push_queue_ok false (b_cid b) (filter (fun w => wd_user w <> a) (withdraw_queue b))
    a now_sec (default 0 (next_nft_ids (bp s1) !! b_cid b)) (ext s1) x2 sh) as [Hnd1 Hnd2]; [apply NoDup_fmap_filter, Hok|apply NoDup_fmap_filter, Hok|done| |done|].
  { intros (w & -> & [Hw _]%list_elem_of_filter)%list_elem_of_fmap. done. }
  split_and!; try done; cbn [shares withdraw_queue put_withdraw_queue]; try lia.
  - split; cbn [b_cid withdraw_queue put_withdraw_queue total_shares total_value shares]; try done.
    + by apply Hev.
    + apply Hok.
    + apply Hok.
    + lia.
    + unfold slack, held in *. cbn [b_cid put_withdraw_queue total_shares].
      change (ext s2) with x2 in *. lia.
    + change (ext s2) with x2. intros w [Hw|Hw]%elem_of_app.
      * rewrite (minted_nfts _ _ _ _ _ _ Hm), lookup_insert_ne; [by apply Hq1|].
        intros [= Heq]. pose proof (minted_fresh _ _ _ _ _ _ Hm) as Hf. rewrite Heq, (Hq1 w Hw) in Hf. done.
      * apply list_elem_of_singleton in Hw as ->. cbn.
        by rewrite (minted_nfts _ _ _ _ _ _ Hm), lookup_insert_eq.
  - unfold slack, held in *. cbn [b_cid put_withdraw_queue total_shares].
    change (ext s2) with x2 in *. lia.
Qed.
End queue.
