(* ===== verification/PoolProcess.v ===== *)
(** * Processing the withdraw queue

    A round of the loop either removes the first request or pays part of it;
    in both cases the pool and its NFTs lose the same shares. *)

From S2P Require Import Prelude MqTypes Storage MqPallet FixedPoint Registry Computation PoolExt BasePool PoolNfts PoolShares PoolQueue.

Section process.
Context {X : Type} `{BE : !BlockEnv} `{FC : !FixedCrate} `{CF : !CompConfig X} `{PC : !PoolConfig X}
  `{PV : !PoolView X} `{PL : !PoolLaws X} `{FD : !FixedDoc}.
Implicit Types (s : Storage X) (x : X) (c : CollectionId) (n : NftId) (b : BasePool).

Lemma unlock_put_lock c n x s :
  (c, n) ∉ nft_locks (bp s) -> unlock_nft c n (put_ext x (lock_nft c n s)) = put_ext x s.
Proof. intros Hn. rewrite <- (unlock_lock c n s Hn) at 2. by destruct s. Qed.

Lemma put_total_shares_id b : put_total_shares (total_shares b) b = b.
Proof. by destruct b. Qed.

Lemma maybe_remove_dust_Ok b nft s d b' s' :
  maybe_remove_dust b nft s = Ok (d, b') s' ->
  s' = s /\ (d = false /\ b' = b \/
    d = true /\ b' = put_total_shares (total_shares b -[128] shares nft) b /\
    exists p v, share_price b = Some (Some p) /\ bmul (shares nft) p = Some v /\
      v <= wpha_minimum_balance (ext s)).
Proof.
  unfold maybe_remove_dust, min_balance. intros H. mok H. destruct o as [p|]; [|mok_prim H; auto].
  mok H. mok H. mok E. destruct (wpha_exists (ext s)); [|done]. mok_prim E.
  case_match eqn:El; mok_prim H; [auto|]. b2p. split; [done|]. right. split_and!; [done..|]. eauto.
Qed.

Lemma remove_stake_Ok b sh nft u s am rm b' nft' s' :
  remove_stake_from_nft b sh nft u s = Ok (Some (am, rm, b', nft')) s' ->
  exists p am0 x dust, share_price b = Some (Some p) /\ bmul sh p = Some am0 /\
    am = Z.min am0 (wpha_balance (ext s) (pool_account_id b)) /\
    sh <= shares nft /\ extract_dust (shares nft - sh) = (shares nft', dust) /\
    rm = sh +[128] dust /\ rm <= total_shares b /\
    wpha_transfer (pool_account_id b) u am (ext s) = Some x /\ s' = put_ext x s /\
    b' = put_total_shares (total_shares b - rm)
           (put_total_value (if 0 <? (extract_dust (total_value b -[128] am)).1
                             then total_value b -[128] am else 0) b).
Proof.
  unfold remove_stake_from_nft, get_free_stakes. intros H. mok H. destruct o as [p|]; [|mok_prim H; done].
  mok H. mok H. mok E. mok_prim E.
  destruct (checked_sub (shares nft) sh) as [us|] eqn:Eus; [|mok_prim H; done].
  apply checked_sub_Some in Eus as [Hle ->].
  destruct (extract_dust (shares nft - sh)) as [us dust] eqn:Ed.
  destruct (checked_sub (total_shares b) (sh +[128] dust)) as [tot|] eqn:Et; [|mok_prim H; done].
  apply checked_sub_Some in Et as [Hle' ->].
  destruct (extract_dust (total_value b -[128] _)) as [ts dd] eqn:Ets.
  mok H. apply ext_try_Ok in E as (x & Hx & ->). mok_prim H.
  exists p, z, x, dust. rewrite Ets. split_and!; done.
Qed.

(** Removing the first request and its NFT, whose shares were already taken
    from the pool *)
Lemma pop_request_Ok b w q nft s b' s' h e :
  pop_request (put_total_shares (total_shares b - shares nft) b) (wd_nft_id w) s = Ok b' s' ->
  pool_ok s b h e -> withdraw_queue b = w :: q -> attr_of (ext s) (b_cid b) (wd_nft_id w) = Some nft ->
  (b_cid b, wd_nft_id w) ∉ nft_locks (bp s) ->
  evolves (b_cid b) (eq pallet_id) s s' /\ same_assets (ext s) (ext s') /\ pool_ok s' b' h e /\
  slack s' b' h = slack s b h /\ same_pool b b' /\ withdraw_queue b' = q /\
  total_shares b' = total_shares b - shares nft /\ total_value b' = total_value b.
Proof.
  unfold pop_request. intros H Hok Hq Ha Hl. cbn [b_cid put_total_shares put_withdraw_queue] in H.
  mok H. apply burn_nft_Ok in E as (x & -> & Hb). mok_prim H.
  pose proof (evolves_burn _ _ _ _ _ Hb Hl) as Hev.
  destruct (held_evolves _ _ _ _ _ Hev (po_held _ _ _ _ Hok)) as [Hh Hheld].
  pose proof (nft_shares_burnt _ _ _ _ _ (b_cid b) Hb) as Hsum. rewrite Z.eqb_refl in Hsum.
  assert (nft_sh (ext s) (b_cid b) (wd_nft_id w) = shares nft) as Hsh by (unfold nft_sh; by rewrite Ha).
  assert (nfts (ext s) !! (b_cid b, wd_nft_id w) = Some (mkNft pallet_id false)) as Hw.
  { apply Hok. rewrite Hq. left. }
  destruct (nft_sh_le_held _ _ _ _ _ _ Hok Hw Hl) as [Hpos Hle].
  pose proof Hok as []. unfold slack, in_width in *. rewrite Hsh in Hsum, Hpos, Hle.
  pose proof po_nodup as Hnd. rewrite Hq in Hnd. cbn in Hnd. apply NoDup_cons in Hnd as [Hnin Hnd].
  split_and!; try done; [apply Hb| |cbn in *; lia|cbn; by rewrite Hq].
  split; cbn [b_cid withdraw_queue put_withdraw_queue put_total_shares total_shares total_value]; try done.
  - by apply Hev.
  - unfold in_width. lia.
  - unfold slack. cbn in *. lia.
  - rewrite Hq. cbn. intros w' Hw'. rewrite (burnt_nfts _ _ _ _ _ Hb), lookup_delete_ne.
    + apply po_queue. rewrite Hq. by right.
    + intros [= Heq]. apply Hnin. rewrite Heq. by apply list_elem_of_fmap_2.
  - by rewrite Hq.
  - rewrite Hq in *. cbn in *. by apply NoDup_cons in po_users as [_ ?].
Qed.

(** Paying [sh] of the first request's shares, with its attribute saved *)
Lemma pay_Ok b w sh nft s am rm b1 nft' s1 u s2 h e :
  remove_stake_from_nft b sh nft (wd_user w) (lock_nft (b_cid b) (wd_nft_id w) s) =
    Ok (Some (am, rm, b1, nft')) s1 ->
  guard_save (b_cid b) (wd_nft_id w) nft' s1 = Ok u s2 ->
  pool_ok s b h e -> w ∈ withdraw_queue b -> 0 <= sh ->
  attr_of (ext s) (b_cid b) (wd_nft_id w) = Some nft -> (b_cid b, wd_nft_id w) ∉ nft_locks (bp s) ->
  evolves (b_cid b) (eq pallet_id) s s2 /\ pool_ok s2 b1 h e /\ slack s2 b1 h = slack s b h /\
  same_pool b b1 /\ withdraw_queue b1 = withdraw_queue b /\ 0 <= shares nft' <= shares nft - sh /\
  attr_of (ext s2) (b_cid b) (wd_nft_id w) = Some nft'.
Proof.
  intros Hr Hg Hok Hw Hsh Ha Hl.
  apply remove_stake_Ok in Hr as (p & am0 & x & dust & Hp & Ham0 & -> & Hle & Hd & -> & Hrm & Hx & -> & ->).
  apply guard_save_Ok in Hg as (x' & -> & Hs). cbn [ext put_ext lock_nft upd_bp put_bp] in *.
  replace (put_ext x' (put_ext x (lock_nft (b_cid b) (wd_nft_id w) s)))
    with (put_ext x' (lock_nft (b_cid b) (wd_nft_id w) s)) by (by destruct s).
  rewrite unlock_put_lock by done.
  pose proof (po_queue _ _ _ _ Hok _ Hw) as Hn.
  destruct (nft_sh_le_held _ _ _ _ _ _ Hok Hn Hl) as [Hpos Hle'].
  pose proof (coll_ok_sh _ _ _ _ (po_coll _ _ _ _ Hok) Hn) as Hr.
  assert (nft_sh (ext s) (b_cid b) (wd_nft_id w) = shares nft) as Hsn by (unfold nft_sh; by rewrite Ha).
  rewrite Hsn in Hpos, Hle', Hr. unfold in_width in Hr.
  apply extract_dust_spec in Hd as (Hd & _ & Hd' & _). specialize (Hd' ltac:(lia)).
  rewrite wrap_add_small in Hrm |- * by lia.
  pose proof (transfer_neutral _ _ _ _ _ (b_cid b) (eq pallet_id) s Hx eq_refl) as Hev1.
  apply transfer_spec in Hx as (Hsame & _).
  assert (evolves (b_cid b) (eq pallet_id) (put_ext x s) (put_ext x' (put_ext x s))) as Hev2.
  { apply (evolves_save _ _ (wd_nft_id w) nft' pallet_id false); [done| |done|unfold in_width; lia].
    cbn. by rewrite (proj1 Hsame). }
  pose proof (evolves_trans _ _ _ _ _ Hev1 Hev2) as Hev.
  replace (put_ext x' (put_ext x s)) with (put_ext x' s) in Hev by (by destruct s).
  pose proof (nft_shares_saved _ _ _ _ _ (b_cid b) Hs) as Hsum. rewrite Z.eqb_refl in Hsum.
  rewrite (nft_shares_same _ _ _ Hsame) in Hsum.
  assert (nft_sh x (b_cid b) (wd_nft_id w) = shares nft) as Hsx.
  { rewrite <- Hsn. by apply nft_sh_eq, same_nfts_attr. }
  rewrite Hsx in Hsum. specialize (Hsum ltac:(rewrite (proj1 Hsame); by eexists)).
  destruct (held_evolves _ _ _ _ _ Hev (po_held _ _ _ _ Hok)) as [Hh Hheld].
  split_and!; try done; [| |lia|lia|apply Hs].
  2: { unfold slack in *. cbn in *. lia. }
  destruct Hok. split; cbn; try done.
  - by apply Hev.
  - unfold in_width in *. lia.
  - case_match; [by apply wrap_range|done].
  - unfold slack in *. cbn in *. lia.
  - intros w' Hw'. rewrite (saved_nfts _ _ _ _ _ Hs), (proj1 Hsame). by apply po_queue.
Qed.

(** What a round, or several, does to the pool *)
Record processed s b h e s' b' : Prop := {
  pr_evolves : evolves (b_cid b) (eq pallet_id) s s';
  pr_ok : pool_ok s' b' h e;
  pr_slack : slack s' b' h = slack s b h;
  pr_same : same_pool b b';
  pr_queue : exists k, withdraw_queue b' = drop k (withdraw_queue b);
}.

Lemma processed_refl s b h e : pool_ok s b h e -> processed s b h e s b.
Proof. intros Hok. split; try done; [apply evolves_refl|by exists 0%nat]. Qed.

Lemma processed_trans s1 b1 h e s2 b2 s3 b3 :
  processed s1 b1 h e s2 b2 -> processed s2 b2 h e s3 b3 -> processed s1 b1 h e s3 b3.
Proof.
  intros [] []. pose proof pr_same0 as (_ & _ & Hc & _). rewrite Hc in *. split.
  - by eapply evolves_trans.
  - done.
  - congruence.
  - by eapply same_pool_trans.
  - destruct pr_queue0 as [i Hi], pr_queue1 as [j Hj]. exists (i + j)%nat.
    by rewrite Hj, Hi, drop_drop.
Qed.

Lemma fulfil_Ok price b w q nft st s b' st' s' h e :
  fulfil price b w nft st (lock_nft (b_cid b) (wd_nft_id w) s) = Ok (b', st') s' ->
  pool_ok s b h e -> withdraw_queue b = w :: q ->
  attr_of (ext s) (b_cid b) (wd_nft_id w) = Some nft -> (b_cid b, wd_nft_id w) ∉ nft_locks (bp s) ->
  processed s b h e s' b'.
Proof.
  unfold fulfil, get_free_stakes. intros H Hok Hq Ha Hl. mok H. mok E. mok_prim E.
  pose proof (po_queue _ _ _ _ Hok w ltac:(rewrite Hq; left)) as Hn.
  pose proof (coll_ok_sh _ _ _ _ (po_coll _ _ _ _ Hok) Hn) as Hr.
  assert (nft_sh (ext s) (b_cid b) (wd_nft_id w) = shares nft) as Hsn by (unfold nft_sh; by rewrite Ha).
  rewrite Hsn in Hr. unfold in_width in Hr.
  mok_as H fs s1 E. assert (0 <= fs /\ s1 = lock_nft (b_cid b) (wd_nft_id w) s) as [Hfs ->].
  { case_match; mok_prim E; (split; [|done]); [lia|].
    eapply bdiv_range; [|done]. unfold wpha_balance. cbn.
    destruct (wpha_maybe_balance (ext s) (pool_account_id b)) eqn:Eb; cbn; [|done].
    by eapply wpha_balance_range. }
  clear E. mok_as H r s1 Er.
  destruct r as [[[[am rm] b1] nft1]|]; [|by apply bind_Ok in H as (? & ? & ? & _)].
  mok H. mok_as H u s2 Eg.
  assert (b_cid b1 = b_cid b) as Hc1.
  { apply remove_stake_Ok in Er as (?&?&?&?&?&?&?&?&?&?&?&?&?&->). done. }
  rewrite Hc1 in Eg.
  destruct (pay_Ok _ _ _ _ _ _ _ _ _ _ _ _ _ _ Er Eg Hok) as (Hev & Hok1 & Hsl1 & Hsp1 & Hq1 & Hn1 & Ha1);
    [rewrite Hq; left|lia|done|done|].
  assert (processed s b h e s2 b1) as Hp1.
  { split; [done..|]. by exists 0%nat. }
  mok_as H d s3 Ed. assert ((b_cid b1, wd_nft_id w) ∉ nft_locks (bp s2)) as Hl1.
  { by rewrite Hc1, (ev_locks _ _ _ _ Hev). }
  assert (exists d' b2, d = (d', b2) /\ s3 = s2 /\
    (d' = false /\ b2 = b1 \/ d' = true /\ b2 = put_total_shares (total_shares b1 - shares nft1) b1))
    as (d' & b2 & -> & -> & Hcase).
  { destruct (shares nft1 =? 0) eqn:Ez; b2p.
    - mok_prim Ed. exists true, b1. split; [done|]. split; [done|]. right. split; [done|].
      rewrite Ez, Z.sub_0_r. symmetry. apply put_total_shares_id.
    - destruct d as [d' b2]. apply maybe_remove_dust_Ok in Ed as (-> & Hd).
      exists d', b2. split; [done|]. split; [done|]. destruct Hd as [|(-> & -> & _)]; [by left|]. right. split; [done|].
      rewrite wrap_sub_small; [done|]. pose proof (po_queue _ _ _ _ Hok1 w ltac:(rewrite Hq1, Hq; left)) as Hn2.
      destruct (nft_sh_le_held _ _ _ _ _ _ Hok1 Hn2 Hl1) as [_ Hle]. unfold nft_sh in Hle at 1.
      rewrite Hc1, Ha1 in Hle. destruct Hok1. unfold slack, in_width in *. rewrite Hc1 in *. lia. }
  destruct Hcase as [[-> ->]|[-> ->]].
  - mok_prim H. rewrite Hq1, Hq. cbn.
    replace (put_withdraw_queue (w :: q) b1) with b1; [done|]. rewrite <- Hq, <- Hq1. by destruct b1.
  - mok_as H b3 s4 Ep. mok_prim H.
    destruct (pop_request_Ok _ w q _ _ _ _ _ _ Ep Hok1) as (Hev3 & _ & Hok3 & Hsl3 & Hsp3 & Hq3 & _);
      [congruence|congruence|done|].
    eapply processed_trans; [done|]. split; [done..|]. exists 1%nat. by rewrite Hq1, Hq.
Qed.

Lemma process_round_Ok price m b st s r s' h e :
  process_round price m b st s = Ok r s' -> pool_ok s b h e ->
  match r with
  | None => s' = s /\ (wpha_balance (ext s) (pool_account_id b) <= m \/ withdraw_queue b = [])
  | Some (b', _) => processed s b h e s' b'
  end.
Proof.
  unfold process_round, get_free_stakes. intros H Hok. mok H. mok E. mok_prim E.
  case_match eqn:El; b2p; [mok_prim H; auto|].
  destruct (withdraw_queue b) as [|w q] eqn:Hq; [mok_prim H; auto|].
  mok_as H nft s1 E. apply get_nft_attr_guard_Ok in E as (Ha & Hl & ->).
  mok_as H d s2 Ed. destruct d as [d b1]. apply maybe_remove_dust_Ok in Ed as (-> & Hd).
  pose proof (po_queue _ _ _ _ Hok w ltac:(rewrite Hq; left)) as Hn.
  destruct (nft_sh_le_held _ _ _ _ _ _ Hok Hn Hl) as [Hpos Hle]. unfold nft_sh in Hpos, Hle at 1.
  rewrite Ha in Hpos, Hle.
  destruct Hd as [[-> ->]|(-> & -> & _)].
  - mok_as H r1 s3 Ef. mok_prim H. destruct r1 as [b' st']. by eapply fulfil_Ok.
  - mok_as H u s3 E. unfold guard_drop, mod_bp, modify in E. mok_eq E.
    cbn [b_cid put_total_shares] in H. fold (unlock_nft (b_cid b) (wd_nft_id w) (lock_nft (b_cid b) (wd_nft_id w) s)) in H.
    rewrite unlock_lock in H by done.
    mok_as H b2 s3 Ep. mok_prim H.
    rewrite wrap_sub_small in Ep by (destruct Hok; unfold slack, in_width in *; lia).
    destruct (pop_request_Ok _ w q _ _ _ _ _ _ Ep Hok) as (Hev3 & _ & Hok3 & Hsl3 & Hsp3 & Hq3 & _);
      [done..|]. split; [done..|]. exists 1%nat. by rewrite Hq.
Qed.

Lemma process_loop_Ok fuel price m : forall b st s b' st' s' h e,
  process_loop fuel price m b st s = Ok (b', st') s' -> pool_ok s b h e ->
  processed s b h e s' b' /\
  (wpha_balance (ext s') (pool_account_id b') <= m \/ withdraw_queue b' = []).
Proof.
  induction fuel as [|fuel IH]; intros b st s b' st' s' h e H Hok; cbn [process_loop] in H; [done|].
  mok_as H r s1 Er. apply (process_round_Ok _ _ _ _ _ _ _ h e) in Er; [|done].
  destruct r as [[b1 st1]|].
  - apply (IH _ _ _ _ _ _ h e) in H as [Hp Hend]; [|apply Er]. split; [|done].
    by eapply processed_trans.
  - destruct Er as [-> Hend]. mok_prim H. split; [by apply processed_refl|done].
Qed.

Lemma evolves_events c O s ev : evolves c O s (put_events ev s).
Proof.
  split; try done. exists (nft_locks (bp s)), (next_nft_ids (bp s)), ev, (ext s).
  by destruct s as [??? [] ?????].
Qed.

Lemma pool_ok_events s b h e ev : pool_ok s b h e -> pool_ok (put_events ev s) b h e.
Proof. by intros []. Qed.

Lemma for_each_events {A} (f : A -> Event) l : forall s u s',
  for_each l (fun a => deposit_event (f a)) s = Ok u s' -> exists ev, s' = put_events ev s.
Proof.
  induction l as [|a l IH]; intros s u s' H; cbn [for_each] in H.
  - mok_prim H. exists (events s). by destruct s.
  - mok H. apply IH in H as [ev ->]. exists ev. by destruct s.
Qed.

Lemma try_process_Ok b s b' s' h e :
  try_process_withdraw_queue b s = Ok b' s' -> pool_ok s b h e ->
  processed s b h e s' b' /\
  (share_price b <> Some None ->
   wpha_balance (ext s') (pool_account_id b') <= wpha_minimum_balance (ext s) \/ withdraw_queue b' = []).
Proof.
  unfold try_process_withdraw_queue, min_balance. intros H Hok. mok H.
  destruct o as [p|]; [|mok_prim H; split; [by apply processed_refl|done]].
  mok H. mok E. destruct (wpha_exists (ext s)); [|done]. mok_prim E.
  mok_as H r s1 El. destruct r as [b1 st].
  apply (process_loop_Ok _ _ _ _ _ _ _ _ _ h e) in El as [[] Hend]; [|done].
  mok_as H u s2 Ev. mok_prim H. apply for_each_events in Ev as [ev ->]. split; [|by intros _].
  split; try done; [|by apply pool_ok_events].
  eapply evolves_trans; [done|apply evolves_events].
Qed.

Lemma try_withdraw_Ok b nft a sh nft_id as_vault s b' nft' s' n e :
  try_withdraw b nft a sh nft_id as_vault s = Ok (b', nft') s' ->
  pool_ok s b (Some n) (e + shares nft) -> ids_ok s -> 0 <= e -> 0 <= shares nft -> 0 <= sh ->
  held (ext s) (b_cid b) (Some n) <= shares nft ->
  evolves (b_cid b) (eq pallet_id) s s' /\ pool_ok s' b' (Some n) (e + shares nft') /\
  0 <= shares nft' /\ same_pool b b' /\
  (share_price b <> Some None ->
   slack s' b' (Some n) - shares nft' = slack s b (Some n) - shares nft).
Proof.
  unfold try_withdraw. intros H Hok Hids He Hnft Hsh Hheld. mok_as H r s1 Ep. destruct r as [[r b1] nft1].
  pose proof (push_withdraw_Ok _ _ _ _ _ _ _ _ _ _ _ Ep Hok Hids He Hnft Hsh Hheld) as Hp.
  destruct r as [k|].
  - destruct Hp as (_ & Hpr & Hev & Hok1 & Hsl & Hsp & Hn1 & _).
    mok H. mok_as H b2 s2 Eq2. mok_prim H.
    apply (try_process_Ok _ _ _ _ (Some n) (e + shares nft')) in Eq2 as [[] _]; [|by apply pool_ok_events].
    pose proof Hsp as (_ & _ & Hc & _). rewrite Hc in *. split_and!; [|done|done|by eapply same_pool_trans|].
    + eapply evolves_trans; [done|]. eapply evolves_trans; [apply evolves_events|done].
    + intros _. rewrite pr_slack0. done.
  - destruct Hp as (Hpr & -> & -> & Hn1 & Hpos). mok_prim H.
    split_and!; [apply evolves_refl| |done|done|done].
    apply (pool_ok_mono _ _ _ _ _ Hok). lia.
Qed.
End process.
