(* ===== verification/PoolQueueClaims.v ===== *)
(** * The withdraw queue: termination, and when it does not terminate *)

From S2P Require Import Prelude MqTypes Storage MqPallet FixedPoint Registry Computation PoolExt BasePool PoolNfts PoolShares PoolQueue PoolProcess.

(** * The withdraw queue is processed to the end

    Under bounds that hold on the chain (the PHA supply, a price between the
    minimum balance and the free stake), the loop of the withdraw queue neither
    panics nor runs forever: every round removes shares from the queue. *)

(** ** Prices *)
Section prices.
Context `{FC : !FixedCrate} `{FD : !FixedDoc}.

Lemma to_fixed_bits z : u128 z -> z < 2 ^ 80 -> to_fixed z = Some (z * 2 ^ 48 / PHA * 2 ^ 16).
Proof. intros Hz Hlt. rewrite to_fixed_spec by done. apply Z.ltb_lt in Hlt. by rewrite Hlt. Qed.

Lemma bits_range z : 0 <= z -> 0 <= z * 2 ^ 48 / PHA * 2 ^ 16 /\ z * 2 ^ 48 / PHA * 2 ^ 16 * PHA <= z * 2 ^ 64.
Proof.
  intros Hz. unfold PHA. pose proof (Z.mul_div_le (z * 2 ^ 48) 1000000000000 ltac:(lia)).
  assert (0 <= z * 2 ^ 48 / 1000000000000) by (apply Z.div_pos; lia). lia.
Qed.

Lemma bits_mono y z : y <= z -> y * 2 ^ 48 / PHA * 2 ^ 16 <= z * 2 ^ 48 / PHA * 2 ^ 16.
Proof.
  intros Hyz. apply Z.mul_le_mono_nonneg_r; [lia|]. apply Z.div_le_mono; unfold PHA; lia.
Qed.

Lemma from_fixed_le v z : 0 <= v -> v * PHA <= z * 2 ^ 64 -> z < 2 ^ 80 ->
  exists r, from_fixed v = Some r /\ 0 <= r <= z.
Proof.
  intros Hv Hle Hz. unfold PHA in *.
  pose proof (Z.mul_div_le v (2 ^ 16) ltac:(lia)) as H16.
  assert (0 <= v / 2 ^ 16) by (apply Z.div_pos; lia).
  assert (v / 2 ^ 16 * 1000000000000 <= z * 2 ^ 48) by lia.
  rewrite from_fixed_spec by (unfold in_width; lia). unfold PHA.
  assert (v / 2 ^ 16 * 1000000000000 < 2 ^ 128) as Hlt%Z.ltb_lt by lia. rewrite Hlt.
  eexists. split; [done|]. split; [apply Z.div_pos; lia|]. apply Z.div_le_upper_bound; lia.
Qed.

(** A pool with more than dust and a value below the PHA supply has a price. *)
Lemma share_price_defined b :
  1000 < total_shares b -> u128 (total_shares b) -> total_shares b < 2 ^ 80 ->
  u128 (total_value b) -> total_value b < 2 ^ 70 ->
  exists p, share_price b = Some (Some p).
Proof.
  intros Hs Hs' Hs80 Hv Hv70. unfold share_price.
  rewrite !to_fixed_bits by (done || lia). cbn. rewrite u64f64_checked_div_doc.
  destruct (bits_range (total_value b)) as [Hv0 Hv1]; [unfold in_width in Hv; lia|].
  pose proof (bits_mono 1001 (total_shares b) ltac:(lia)) as Hm.
  set (vb := total_value b * 2 ^ 48 / PHA * 2 ^ 16) in *. set (sb := total_shares b * 2 ^ 48 / PHA * 2 ^ 16) in *.
  assert (281700 * 2 ^ 16 <= sb) as Hsb by (etrans; [|exact Hm]; vm_compute; discriminate).
  destruct (sb =? 0) eqn:E; b2p; [lia|]. exists (vb * 2 ^ 64 / sb). f_equal. apply fits_Some. split.
  - apply Z.div_pos; lia.
  - apply Z.div_lt_upper_bound; [lia|]. unfold PHA in Hv1. lia.
Qed.

(** Shares of the pool at its price are worth at most the pool. *)
Lemma bmul_price b p sh :
  share_price b = Some (Some p) -> u128 (total_shares b) -> u128 (total_value b) -> 0 <= sh <= total_shares b ->
  exists v, bmul sh p = Some v /\ 0 <= v <= total_value b.
Proof.
  unfold share_price. intros Hp Hs Hv Hsh.
  destruct (to_fixed (total_value b)) as [vf|] eqn:Ev; [|done].
  destruct (to_fixed (total_shares b)) as [sf|] eqn:Es; [|done]. cbn in Hp.
  apply to_fixed_Some in Ev as Ev'; [|done]. apply to_fixed_Some in Es as Es'; [|done].
  destruct Ev' as [Hv80 _], Es' as [Hs80 _]. unfold in_width in *.
  rewrite to_fixed_bits in Ev, Es by (unfold in_width; lia). simplify_eq. simplify_option_eq.
  rewrite u64f64_checked_div_doc in Hp.
  destruct (bits_range (total_value b)) as [Hv0 Hv1]; [lia|].
  destruct (bits_range sh) as [Hf0 _]; [lia|].
  pose proof (bits_mono sh (total_shares b) ltac:(lia)) as Hm.
  unfold bmul. rewrite to_fixed_bits by (unfold in_width; lia). cbn. rewrite u64f64_mul_doc.
  set (vb := total_value b * 2 ^ 48 / PHA * 2 ^ 16) in *. set (sb := total_shares b * 2 ^ 48 / PHA * 2 ^ 16) in *.
  set (fb := sh * 2 ^ 48 / PHA * 2 ^ 16) in *.
  destruct (sb =? 0) eqn:E; [done|]. b2p. apply fits_inv in Hp as [-> Hp].
  pose proof (Z.mul_div_le (vb * 2 ^ 64) sb ltac:(lia)) as Hd.
  assert (fb * (vb * 2 ^ 64 / sb) <= sb * (vb * 2 ^ 64 / sb)) as Hfs by (apply Z.mul_le_mono_nonneg_r; lia).
  assert (fb * (vb * 2 ^ 64 / sb) / 2 ^ 64 <= vb) as Hq by (apply Z.div_le_upper_bound; lia).
  assert (0 <= fb * (vb * 2 ^ 64 / sb) / 2 ^ 64) by (apply Z.div_pos; [apply Z.mul_nonneg_nonneg; lia|lia]).
  unfold PHA in *. rewrite wrap_small by (unfold in_width; lia).
  apply from_fixed_le; unfold PHA; lia.
Qed.

(** A free stake above twice the price pays for a share at least. *)
Lemma bdiv_free f p :
  0 < f < 2 ^ 80 -> 0 < p -> 2 * p <= f * 2 ^ 64 -> f * 2 ^ 64 <= p * 2 ^ 79 ->
  exists n, bdiv f p = Some n /\ 1 <= n.
Proof.
  intros Hf Hp Hlo Hhi. unfold bdiv. rewrite to_fixed_bits by (unfold in_width; lia). cbn.
  rewrite u64f64_div_doc. destruct (p =? 0) eqn:E; b2p; [lia|]. cbn.
  destruct (bits_range f) as [Hf0 Hf1]; [lia|].
  assert ((f * 281 - 1) * 2 ^ 16 <= f * 2 ^ 48 / PHA * 2 ^ 16) as Hflo.
  { apply Z.mul_le_mono_nonneg_r; [lia|]. apply Z.div_le_lower_bound; unfold PHA; lia. }
  set (fb := f * 2 ^ 48 / PHA * 2 ^ 16) in *.
  assert (fb * 2 ^ 64 / p * p <= fb * 2 ^ 64) as Hq1 by (rewrite Z.mul_comm; apply Z.mul_div_le; lia).
  assert (300 * 2 ^ 16 <= fb * 2 ^ 64 / p) as Hqlo by (apply Z.div_le_lower_bound; lia).
  set (q := fb * 2 ^ 64 / p) in *. unfold PHA in *.
  assert (q * 1000000000000 <= 2 ^ 143) as Hqhi.
  { apply (Z.mul_le_mono_pos_r _ _ p); [lia|]. nia. }
  rewrite wrap_small by (unfold in_width; lia). rewrite from_fixed_spec by (unfold in_width; lia). unfold PHA.
  pose proof (Z.mul_div_le q (2 ^ 16) ltac:(lia)).
  assert (300 <= q / 2 ^ 16) by (apply Z.div_le_lower_bound; lia).
  assert (q / 2 ^ 16 * 1000000000000 < 2 ^ 128) as Hlt%Z.ltb_lt by lia. rewrite Hlt.
  eexists. split; [done|]. apply Z.div_le_lower_bound; lia.
Qed.
End prices.

(** ** The calls a round makes return *)
Section total.
Context {X : Type} `{BE : !BlockEnv} `{FC : !FixedCrate} `{CF : !CompConfig X} `{PC : !PoolConfig X}
  `{PV : !PoolView X} `{PL : !PoolLaws X} `{FD : !FixedDoc}.
Implicit Types (s : Storage X) (x : X) (c : CollectionId) (n : NftId) (b : BasePool).

Lemma bind_run {A B} (m : H X A) (f : A -> H X B) s a s' :
  m s = Ok a s' -> (m ≫= f) s = f a s'.
Proof. intros Hm. unfold mbind, M_bind. by rewrite Hm. Qed.

Lemma expect_ok_run {A} (m : H X A) s a s' : m s = Ok a s' -> (expect_ok m : H X A) s = Ok a s'.
Proof. intros Hm. unfold expect_ok. by rewrite Hm. Qed.

Lemma ext_try_run f s x : f (ext s) = Some x -> (ext_try f : H X unit) s = Ok tt (put_ext x s).
Proof. intros Hf. unfold ext_try. mred. by rewrite Hf. Qed.

Lemma get_free_stakes_run b s : get_free_stakes b s = Ok (wpha_balance (ext s) (pool_account_id b)) s.
Proof. done. Qed.

Lemma burn_nft_total o c n s :
  nfts (ext s) !! (c, n) = Some (mkNft o false) -> exists s', burn_nft o c n s = Ok tt s'.
Proof.
  intros Hn. destruct (set_lock_spec c n false (ext s)) as (Hs & _ & Hl).
  destruct (rmrk_burn_ok o c n (rmrk_set_lock c n false (ext s))) as [x Hx]; [by rewrite (proj1 Hs)|done|].
  unfold burn_nft, remove_properties, ext_upd, transactional, or_err, ext_try, MAX_RECURSIONS. rewrite key_of_time.
  mred. cbn. rewrite Hx. cbn. by eexists.
Qed.

Lemma set_nft_attr_total c n a s :
  is_Some (collection_issuer (ext s) c) -> is_Some (nfts (ext s) !! (c, n)) ->
  exists s', set_nft_attr c n a s = Ok tt s'.
Proof.
  intros Hc Hn. destruct (set_lock_spec c n false (ext s)) as (Hs & _ & Hl).
  destruct (set_property_ok c n NFT_PROPERTY_KEY (encode_attr a) (rmrk_set_lock c n false (ext s))) as [x Hx].
  { by rewrite (proj1 (proj2 Hs)). } { by rewrite (proj1 Hs). } { done. }
  unfold set_nft_attr, ext_upd, transactional, ext_try. rewrite key_of_stake, value_of_attr.
  mred. cbn [ext put_ext]. rewrite Hx. by eexists.
Qed.

Lemma guard_save_total c n a s :
  is_Some (collection_issuer (ext s) c) -> is_Some (nfts (ext s) !! (c, n)) ->
  exists s', guard_save c n a s = Ok tt s'.
Proof.
  intros Hc Hn. destruct (set_nft_attr_total c n a s Hc Hn) as [s1 H1].
  unfold guard_save. rewrite (bind_run _ _ _ _ _ H1). by eexists.
Qed.

Lemma unlock_put_lock_2 c n x x2 s :
  (c, n) ∉ nft_locks (bp s) -> unlock_nft c n (put_ext x2 (put_ext x (lock_nft c n s))) = put_ext x2 s.
Proof. intros Hn. rewrite <- (unlock_put_lock c n x2 s Hn). by destruct s. Qed.

(** ** What a round needs *)

Abbreviation bal s a := (wpha_balance (ext s) a).

Definition ready s b (w : WithdrawInfo) : Prop :=
  1000 < nft_sh (ext s) (b_cid b) (wd_nft_id w) /\ ((b_cid b, wd_nft_id w) ∉ nft_locks (bp s)) /\
  wd_user w <> pool_account_id b /\ 0 < bal s (wd_user w).

Record processable s b (m : Balance) (e : Z) : Prop := {
  pb_ok : pool_ok s b None e;
  pb_shares : total_shares b < 2 ^ 80;
  pb_value : total_value b < 2 ^ 70;
  pb_issuer : is_Some (collection_issuer (ext s) (b_cid b));
  pb_ready : forall w, w ∈ withdraw_queue b -> ready s b w;
  pb_supply : forall a, a <> pool_account_id b -> bal s a + bal s (pool_account_id b) < 2 ^ 128;
  pb_min : wpha_exists (ext s) = true /\ wpha_minimum_balance (ext s) = m;
}.

(** A price at most half the minimum balance, and not so small that the free
    stake is worth more shares than a balance can count *)
Definition price_fits s b (price : FixedBits) (m : Balance) : Prop :=
  0 < price /\ 2 * price <= m * 2 ^ 64 /\ bal s (pool_account_id b) < 2 ^ 80 /\
  bal s (pool_account_id b) * 2 ^ 64 <= price * 2 ^ 79.


(** The shares still queued *)
Definition queued s b : Z := foldr (fun w t => nft_sh (ext s) (b_cid b) (wd_nft_id w) + t) 0 (withdraw_queue b).

(** What a round on the request [w] leaves alone *)
Record touched b (w : WithdrawInfo) s s' : Prop := {
  tc_attr : forall n, n <> wd_nft_id w -> attr_of (ext s') (b_cid b) n = attr_of (ext s) (b_cid b) n;
  tc_locks : nft_locks (bp s') = nft_locks (bp s);
  tc_issuers : same_issuers (ext s) (ext s');
  tc_min : wpha_exists (ext s') = wpha_exists (ext s) /\ wpha_minimum_balance (ext s') = wpha_minimum_balance (ext s);
  tc_free : bal s' (pool_account_id b) <= bal s (pool_account_id b);
  tc_user : bal s (wd_user w) <= bal s' (wd_user w);
  tc_sum : bal s' (wd_user w) + bal s' (pool_account_id b) <= bal s (wd_user w) + bal s (pool_account_id b);
  tc_rest : forall a, a <> wd_user w -> a <> pool_account_id b -> bal s' a = bal s a;
}.

Lemma touched_trans b w s1 s2 s3 : touched b w s1 s2 -> touched b w s2 s3 -> touched b w s1 s3.
Proof.
  intros [] []. split; [|congruence| |naive_solver congruence|lia|lia|lia|].
  - intros n Hn. rewrite tc_attr1, tc_attr0 by done. done.
  - by eapply same_issuers_trans.
  - intros a H1 H2. rewrite tc_rest1, tc_rest0 by done. done.
Qed.

Lemma touched_nft b w s x :
  (forall n, n <> wd_nft_id w -> attr_of x (b_cid b) n = attr_of (ext s) (b_cid b) n) ->
  same_issuers (ext s) x -> same_assets (ext s) x -> touched b w s (put_ext x s).
Proof.
  intros Ha Hi (He & Hm & Hb). assert (forall a, bal (put_ext x s) a = bal s a) as Hbal.
  { intros a. unfold wpha_balance. cbn. by rewrite Hb. }
  split; cbn; try done; intros; rewrite ?Hbal; done.
Qed.

Lemma balance_nonneg x a : 0 <= wpha_balance x a.
Proof.
  unfold wpha_balance. destruct (wpha_maybe_balance x a) eqn:E; cbn; [|done]. by apply wpha_balance_range in E as [? _].
Qed.

Lemma touched_transfer b w v s x :
  wpha_transfer (pool_account_id b) (wd_user w) v (ext s) = Some x -> wd_user w <> pool_account_id b ->
  0 <= v <= bal s (pool_account_id b) -> touched b w s (put_ext x s).
Proof.
  intros (Hs & He & Hm & Hr & Hd)%transfer_spec Hne Hv. destruct (Hd (not_eq_sym Hne)) as (d & Hd' & Hfrom & Hto).
  assert (v <= d) by (destruct Hd' as [->|[-> _]]; lia).
  split; cbn; try done; [|exact (proj1 (proj2 Hs))|lia|lia|lia|].
  - intros n _. by apply same_nfts_attr.
  - intros a H1 H2. unfold wpha_balance. by rewrite Hr.
Qed.

(** The next round has what it needs. *)
Lemma processable_next s b m e s' b' w q :
  processable s b m e -> withdraw_queue b = w :: q -> touched b w s s' -> pool_ok s' b' None e ->
  same_pool b b' -> total_value b' <= total_value b -> total_shares b' <= total_shares b ->
  withdraw_queue b' = q \/ withdraw_queue b' = w :: q /\ 1000 < nft_sh (ext s') (b_cid b) (wd_nft_id w) ->
  processable s' b' m e.
Proof.
  intros [] Hq [] Hok' (_ & _ & Hc & Ha & _) Hv Hs Hq'.
  pose proof (po_nodup _ _ _ _ pb_ok0) as Hnd. rewrite Hq in Hnd. cbn in Hnd. apply NoDup_cons in Hnd as [Hnin _].
  destruct pb_min0, tc_min0.
  assert (forall a, 0 < bal s a -> a <> pool_account_id b -> 0 < bal s' a) as Hpos.
  { intros a Hba Hne. destruct (decide (a = wd_user w)) as [->|]; [lia|]. by rewrite tc_rest0. }
  split; rewrite ?Hc, ?Ha; try done; [lia|lia|by rewrite tc_issuers0| | |by split; congruence].
  - intros w' Hw'.
    assert (w' ∈ q \/ w' = w /\ 1000 < nft_sh (ext s') (b_cid b) (wd_nft_id w)) as Hcase.
    { destruct Hq' as [Hq'|[Hq' Hsh]]; rewrite Hq' in Hw'; [by left|].
      apply elem_of_cons in Hw' as [->|]; auto. }
    assert (w' ∈ withdraw_queue b) as Hin by (rewrite Hq; destruct Hcase as [|[-> _]]; [by right|left]).
    destruct (pb_ready0 w' Hin) as (Hsh & Hl & Hne & Hb). unfold ready. rewrite Hc, Ha, tc_locks0.
    split_and!; [|done|done|by apply Hpos]. destruct Hcase as [Hw2|[-> ?]]; [|done].
    rewrite (nft_sh_eq (ext s)); [done|]. apply tc_attr0. intros Heq. apply Hnin. rewrite <- Heq.
    by apply list_elem_of_fmap_2.
  - intros a Hne. destruct (decide (a = wd_user w)) as [->|Hnu].
    + eapply Z.le_lt_trans; [exact tc_sum0|]. by apply pb_supply0.
    + rewrite tc_rest0 by done. specialize (pb_supply0 a Hne). lia.
Qed.
Lemma queued_rest b w q s s' :
  withdraw_queue b = w :: q -> NoDup (wd_nft_id <$> withdraw_queue b) -> touched b w s s' ->
  foldr (fun w t => nft_sh (ext s') (b_cid b) (wd_nft_id w) + t) 0 q =
  foldr (fun w t => nft_sh (ext s) (b_cid b) (wd_nft_id w) + t) 0 q.
Proof.
  intros Hq Hnd Ht. rewrite Hq in Hnd. cbn in Hnd. apply NoDup_cons in Hnd as [Hnin _].
  assert (forall w', w' ∈ q -> wd_nft_id w' <> wd_nft_id w) as Hne.
  { intros w' Hw' Heq. apply Hnin. rewrite <- Heq. by apply list_elem_of_fmap_2. }
  clear Hq Hnin. induction q as [|w' q IH]; cbn; [done|]. rewrite IH by (intros; apply Hne; by right).
  f_equal. apply nft_sh_eq, Ht, Hne. left.
Qed.

(** Every round takes shares out of the queue. *)
Lemma queued_less b b' w q s s' :
  withdraw_queue b = w :: q -> NoDup (wd_nft_id <$> withdraw_queue b) -> touched b w s s' -> b_cid b' = b_cid b ->
  0 < nft_sh (ext s) (b_cid b) (wd_nft_id w) ->
  withdraw_queue b' = q \/ withdraw_queue b' = w :: q /\
    nft_sh (ext s') (b_cid b) (wd_nft_id w) < nft_sh (ext s) (b_cid b) (wd_nft_id w) ->
  queued s' b' < queued s b.
Proof.
  intros Hq Hnd Ht Hc Hpos Hq'. pose proof (queued_rest _ _ _ _ _ Hq Hnd Ht) as Hr. unfold queued.
  rewrite Hc, Hq. cbn. destruct Hq' as [->|[-> Hlt]]; cbn; lia.
Qed.

(** The first request: its NFT, its shares, the pool's price *)
Lemma head_request s b m e w q :
  processable s b m e -> withdraw_queue b = w :: q ->
  exists nft p, attr_of (ext s) (b_cid b) (wd_nft_id w) = Some nft /\
    1000 < shares nft <= total_shares b /\
    (nfts (ext s) !! (b_cid b, wd_nft_id w) = Some (mkNft pallet_id false)) /\ share_price b = Some (Some p).
Proof.
  intros [] Hq. assert (w ∈ withdraw_queue b) as Hin by (rewrite Hq; left).
  destruct (pb_ready0 w Hin) as (Hsh & Hl & _). pose proof (po_queue _ _ _ _ pb_ok0 w Hin) as Hn.
  destruct (nft_sh_le_held _ _ _ _ _ _ pb_ok0 Hn Hl) as [_ Hle]. destruct pb_ok0.
  destruct (po_coll _ _ Hn) as [(nft & Ha & _) _].
  assert (nft_sh (ext s) (b_cid b) (wd_nft_id w) = shares nft) as Hsn by (unfold nft_sh; by rewrite Ha).
  rewrite Hsn in *. unfold slack in po_covered.
  destruct (share_price_defined b) as [p Hp]; [lia|done..|]. exists nft, p. split_and!; [done|done|lia|done|done].
Qed.

Lemma maybe_remove_dust_total s b m e nft p s1 :
  processable s b m e -> share_price b = Some (Some p) -> 0 <= shares nft <= total_shares b ->
  wpha_exists (ext s1) = true -> exists d b', maybe_remove_dust b nft s1 = Ok (d, b') s1.
Proof.
  intros [] Hp Hsh He. destruct (bmul_price b p (shares nft) Hp) as (v & Hv & _); [apply pb_ok0..|done|].
  unfold maybe_remove_dust, min_balance. rewrite Hp. mred. rewrite Hv. rewrite He.
  case_match; by do 2 eexists.
Qed.

Lemma remove_stake_total s b m e w q nft p sh :
  processable s b m e -> withdraw_queue b = w :: q -> share_price b = Some (Some p) ->
  0 <= sh <= shares nft -> shares nft <= total_shares b ->
  exists am rm b1 nft1 s1, remove_stake_from_nft b sh nft (wd_user w) (lock_nft (b_cid b) (wd_nft_id w) s) =
    Ok (Some (am, rm, b1, nft1)) s1.
Proof.
  intros Hpb Hq Hp Hsh Hle. pose proof (pb_shares _ _ _ _ Hpb) as Hs80.
  destruct (pb_ready _ _ _ _ Hpb w ltac:(rewrite Hq; left)) as (_ & _ & Hne & Hb).
  destruct (bmul_price b p sh Hp) as (v & Hv & Hv0); [apply Hpb..|lia|].
  pose proof (balance_nonneg (ext s) (pool_account_id b)) as Hfree.
  destruct (transfer_ok (pool_account_id b) (wd_user w) (Z.min v (bal s (pool_account_id b))) (ext s)) as [x Hx].
  { lia. } { left. unfold wpha_balance in Hb. by destruct (wpha_maybe_balance _ (wd_user w)). }
  { by apply (pb_supply _ _ _ _ Hpb). }
  unfold remove_stake_from_nft, get_free_stakes. rewrite Hp. mred. rewrite Hv.
  change (ext (lock_nft (b_cid b) (wd_nft_id w) s)) with (ext s).
  destruct (extract_dust (shares nft - sh)) as [us dust] eqn:Ed.
  apply extract_dust_spec in Ed as Ed'. destruct Ed' as (Hd & _ & Hd' & _). specialize (Hd' ltac:(lia)).
  unfold checked_sub. assert ((sh <=? shares nft) = true) as -> by (apply Z.leb_le; lia). rewrite Ed.
  rewrite wrap_add_small by lia.
  assert ((sh + dust <=? total_shares b) = true) as -> by (apply Z.leb_le; lia).
  destruct (extract_dust (total_value b -[128] _)) as [ts dd].
  unfold ext_try. mred. change (ext (lock_nft (b_cid b) (wd_nft_id w) s)) with (ext s). rewrite Hx.
  by do 5 eexists.
Qed.
(** A request popped with its NFT *)
Lemma pop_total s b e w q nft :
  pool_ok s b None e -> withdraw_queue b = w :: q -> attr_of (ext s) (b_cid b) (wd_nft_id w) = Some nft ->
  (b_cid b, wd_nft_id w) ∉ nft_locks (bp s) ->
  exists b' s', pop_request (put_total_shares (total_shares b - shares nft) b) (wd_nft_id w) s = Ok b' s' /\
    touched b w s s' /\ pool_ok s' b' None e /\ same_pool b b' /\ withdraw_queue b' = q /\
    total_shares b' = total_shares b - shares nft /\ total_value b' = total_value b.
Proof.
  intros Hok Hq Ha Hl.
  destruct (burn_nft_total pallet_id (b_cid b) (wd_nft_id w) s) as [s1 H1];
    [apply (po_queue _ _ _ _ Hok); rewrite Hq; left|].
  pose proof H1 as (x & -> & Hx)%burn_nft_Ok.
  assert (pop_request (put_total_shares (total_shares b - shares nft) b) (wd_nft_id w) s =
    Ok (put_withdraw_queue (tail (withdraw_queue b)) (put_total_shares (total_shares b - shares nft) b)) (put_ext x s))
    as Hrun.
  { unfold pop_request. cbn [b_cid put_total_shares put_withdraw_queue]. erewrite bind_run; [|by apply expect_ok_run]. done. }
  do 2 eexists. split; [exact Hrun|].
  destruct (pop_request_Ok _ w q _ _ _ _ _ _ Hrun Hok Hq Ha Hl) as (_ & Has & Hok' & _ & Hsp & Hq' & Hts & Htv).
  split_and!; try done. apply touched_nft; [|apply Hx|apply Hx].
  intros n Hn. apply (burnt_rest _ _ _ _ _ Hx). congruence.
Qed.

Lemma touched_same b b1 w s s' : same_pool b b1 -> touched b1 w s s' -> touched b w s s'.
Proof. intros (_ & _ & Hc & Ha & _) []. rewrite Hc, Ha in *. by split. Qed.

(** The payment of [sh] shares of the first request *)
Lemma pay_total s b m e w q nft sh p :
  processable s b m e -> withdraw_queue b = w :: q -> attr_of (ext s) (b_cid b) (wd_nft_id w) = Some nft ->
  share_price b = Some (Some p) -> 0 <= sh <= shares nft -> shares nft <= total_shares b ->
  exists am rm b1 nft1 s1 s2,
    remove_stake_from_nft b sh nft (wd_user w) (lock_nft (b_cid b) (wd_nft_id w) s) =
      Ok (Some (am, rm, b1, nft1)) s1 /\
    guard_save (b_cid b1) (wd_nft_id w) nft1 s1 = Ok tt s2 /\
    pool_ok s2 b1 None e /\ same_pool b b1 /\ withdraw_queue b1 = w :: q /\ touched b w s s2 /\
    total_value b1 <= total_value b /\ total_shares b1 <= total_shares b /\
    attr_of (ext s2) (b_cid b) (wd_nft_id w) = Some nft1 /\ extract_dust (shares nft - sh) = (shares nft1, rm - sh) /\
    total_shares b1 = total_shares b - rm /\
    total_value b1 = (if 0 <? (extract_dust (total_value b - am)).1 then total_value b - am else 0) /\
    (exists v, bmul sh p = Some v /\ am = Z.min v (bal s (pool_account_id b))) /\
    (bal s2 (pool_account_id b) = bal s (pool_account_id b) - am \/ bal s (pool_account_id b) - am < m).
Proof.
  intros Hpb Hq Ha Hp Hsh Hle. pose proof (pb_ok _ _ _ _ Hpb) as Hok.
  assert (w ∈ withdraw_queue b) as Hin by (rewrite Hq; left).
  destruct (pb_ready _ _ _ _ Hpb w Hin) as (_ & Hl & Hne & Hb).
  destruct (remove_stake_total _ _ _ _ _ _ nft p sh Hpb Hq Hp) as (am & rm & b1 & nft1 & s1 & Hr); [lia|lia|].
  pose proof Hr as (p' & am0 & x & dust & Hp' & Ham0 & Ham & _ & Hd & Hrm & Hrm' & Hx & Hs1 & Hb1)%remove_stake_Ok.
  rewrite Hp in Hp'. simplify_eq. cbn [ext lock_nft upd_bp put_bp] in Hx.
  change (ext (lock_nft (b_cid b) (wd_nft_id w) s)) with (ext s) in *.
  destruct (bmul_price b p' sh Hp) as (v & Hv & Hv0); [apply Hok..|lia|]. rewrite Ham0 in Hv. simplify_eq.
  pose proof (balance_nonneg (ext s) (pool_account_id b)) as Hfree.
  pose proof (touched_transfer _ _ _ _ _ Hx Hne ltac:(lia)) as Ht1.
  pose proof Hx as (Hsame & _)%transfer_spec.
  destruct (guard_save_total (b_cid b) (wd_nft_id w) nft1 (put_ext x (lock_nft (b_cid b) (wd_nft_id w) s))) as [s2 Hg].
  { cbn. rewrite (proj1 (proj2 Hsame)). apply Hpb. }
  { cbn. rewrite (proj1 Hsame), (po_queue _ _ _ _ Hok w Hin). by eexists. }
  destruct (pay_Ok _ _ _ _ _ _ _ _ _ _ _ _ _ _ Hr Hg Hok Hin ltac:(lia) Ha Hl)
    as (_ & Hok1 & _ & Hsp & Hq1 & Hn1 & Ha1).
  pose proof Hg as (x2 & -> & Hs2)%guard_save_Ok.
  pose proof Hd as (Hd1 & _ & Hd' & _)%extract_dust_spec. specialize (Hd' ltac:(lia)).
  pose proof (po_value_range _ _ _ _ Hok) as Hvr. pose proof (po_shares_range _ _ _ _ Hok) as Hsr. unfold in_width in Hvr, Hsr.
  assert (sh +[128] dust = sh + dust) as Erm by (apply wrap_small; unfold in_width; lia).
  assert (total_value b -[128] (Z.min v (bal s (pool_account_id b))) =
    total_value b - Z.min v (bal s (pool_account_id b))) as Evv by (apply wrap_small; unfold in_width; lia).
  do 6 eexists. split_and!; [exact Hr|exact Hg|exact Hok1|done|by rewrite Hq1| | | |done| |done| |by eexists|].
  - rewrite unlock_put_lock_2 by done. eapply touched_trans; [exact Ht1|].
    replace (put_ext x2 s) with (put_ext x2 (put_ext x s)) by (by destruct s).
    apply touched_nft; [|apply Hs2|apply Hs2]. intros n Hn. cbn in Hs2. apply (saved_rest _ _ _ _ _ Hs2). congruence.
  - cbn. rewrite Evv. clear -Hvr Hv0 Hfree. case_match; lia.
  - cbn. lia.
  - rewrite Hd. f_equal. lia.
  - cbn. by rewrite Evv.
  - apply transfer_spec in Hx as (_ & _ & _ & _ & Hx). destruct (Hx (not_eq_sym Hne)) as (d & Hd2 & Hfrom & _).
    destruct (saved_assets _ _ _ _ _ Hs2) as (_ & _ & Hb2). rewrite unlock_put_lock_2 by done.
    unfold wpha_balance at 1. cbn. rewrite Hb2. cbn. fold (wpha_balance x (pool_account_id b)).
    pose proof (proj2 (pb_min _ _ _ _ Hpb)). lia.
Qed.

(** What a round that goes on leaves *)
Record stepped s b (m : Balance) e s' b' : Prop := {
  sd_next : processable s' b' m e;
  sd_less : queued s' b' < queued s b;
  sd_account : pool_account_id b' = pool_account_id b;
  sd_free : bal s' (pool_account_id b) <= bal s (pool_account_id b);
}.

Lemma stepped_by w q s b m e s' b' :
  processable s b m e -> withdraw_queue b = w :: q -> touched b w s s' -> pool_ok s' b' None e ->
  same_pool b b' -> total_value b' <= total_value b -> total_shares b' <= total_shares b ->
  0 < nft_sh (ext s) (b_cid b) (wd_nft_id w) ->
  withdraw_queue b' = q \/ withdraw_queue b' = w :: q /\
    1000 < nft_sh (ext s') (b_cid b) (wd_nft_id w) < nft_sh (ext s) (b_cid b) (wd_nft_id w) ->
  stepped s b m e s' b'.
Proof.
  intros Hpb Hq Ht Hok Hsp Hv Hs Hpos Hq'. split.
  - eapply (processable_next s b); try done. naive_solver.
  - eapply (queued_less b b'); try done; [apply Hpb|apply Hsp|naive_solver lia].
  - apply Hsp.
  - apply Ht.
Qed.

Lemma price_fits_stepped s b price m e s' b' : stepped s b m e s' b' -> price_fits s b price m -> price_fits s' b' price m.
Proof. intros [_ _ Ha Hle] (?&?&?&?). unfold price_fits. rewrite Ha. lia. Qed.

(** The rest of a round after a payment: the request stays, or is popped *)
Lemma settle_total s b m e w q nft s2 b1 nft1 (st1 st2 : list (Account * WithdrawEventStats)) :
  processable s b m e -> withdraw_queue b = w :: q -> attr_of (ext s) (b_cid b) (wd_nft_id w) = Some nft ->
  1000 < shares nft -> pool_ok s2 b1 None e -> same_pool b b1 -> withdraw_queue b1 = w :: q -> touched b w s s2 ->
  total_value b1 <= total_value b -> total_shares b1 <= total_shares b ->
  attr_of (ext s2) (b_cid b) (wd_nft_id w) = Some nft1 -> shares nft1 < shares nft ->
  shares nft1 = 0 \/ 1000 < shares nft1 ->
  exists b' st' s',
    ('(popped, pool) ← (if shares nft1 =? 0 then mret (true, b1) else maybe_remove_dust b1 nft1);
     if popped : bool then
       pool ← pop_request pool (wd_nft_id w); mret (pool, if shares nft1 =? 0 then st1 else st2)
     else mret (put_withdraw_queue (w :: tail (withdraw_queue pool)) pool, st1) : H X _) s2 = Ok (b', st') s' /\
    stepped s b m e s' b'.
Proof.
  intros Hpb Hq Ha Hsh Hok1 Hsp Hq1 Ht Htv Hts Ha1 Hlt Hn1. pose proof Hsp as (_ & _ & Hc & _).
  assert (nft_sh (ext s) (b_cid b) (wd_nft_id w) = shares nft) as Hsn by (unfold nft_sh; by rewrite Ha).
  assert (nft_sh (ext s2) (b_cid b) (wd_nft_id w) = shares nft1) as Hsn1 by (unfold nft_sh; by rewrite Ha1).
  pose proof (po_nodup _ _ _ _ (pb_ok _ _ _ _ Hpb)) as Hnd.
  assert ((b_cid b1, wd_nft_id w) ∉ nft_locks (bp s2)) as Hl1.
  { rewrite (tc_locks _ _ _ _ Ht), Hc. by apply (pb_ready _ _ _ _ Hpb w); rewrite Hq; left. }
  pose proof (po_queue _ _ _ _ Hok1 w ltac:(rewrite Hq1; left)) as Hn2.
  destruct (nft_sh_le_held _ _ _ _ _ _ Hok1 Hn2 Hl1) as [_ Hle1]. rewrite Hc, Hsn1 in Hle1.
  assert (shares nft1 <= total_shares b1) as Hle2.
  { pose proof (po_covered _ _ _ _ Hok1). pose proof (po_extra _ _ _ _ Hok1). unfold slack in *. rewrite Hc in *. lia. }
  destruct (pop_total s2 b1 e w q nft1 Hok1 Hq1) as (b3 & s3 & Hpop & Ht3 & Hok3 & Hsp3 & Hq3 & Hts3 & Htv3);
    [by rewrite Hc|done|].
  assert (stepped s b m e s3 b3) as Hst3.
  { pose proof (touched_trans _ _ _ _ _ Ht (touched_same _ _ _ _ _ Hsp Ht3)) as Ht'.
    pose proof (same_pool_trans _ _ _ Hsp Hsp3) as Hsp'. apply (stepped_by w q); try done; [lia|lia|lia|by left]. }
  destruct (shares nft1 =? 0) eqn:Ez; b2p.
  - erewrite bind_run; [|done]. cbn iota beta.
    rewrite Ez, Z.sub_0_r, put_total_shares_id in Hpop. erewrite bind_run; [|exact Hpop]. by do 3 eexists.
  - assert (stepped s b m e s2 b1) as Hst1.
    { apply (stepped_by w q); try done; [lia|]. right. split; [done|]. lia. }
    pose proof (sd_next _ _ _ _ _ _ Hst1) as Hpb1.
    destruct (head_request _ _ _ _ _ _ Hpb1 Hq1) as (nft' & p1 & Ha' & _ & _ & Hp1).
    destruct (maybe_remove_dust_total _ _ _ _ nft1 p1 s2 Hpb1 Hp1) as (d & b2 & Hd); [lia|by apply Hpb1|].
    erewrite bind_run; [|exact Hd]. cbn iota beta.
    apply maybe_remove_dust_Ok in Hd as (_ & [[-> ->]|(-> & -> & _)]); cbn iota.
    + do 3 eexists. split; [done|]. rewrite Hq1. cbn [tail].
      replace (put_withdraw_queue (w :: q) b1) with b1; [done|]. rewrite <- Hq1. by destruct b1.
    + rewrite wrap_sub_small by (destruct Hok1; unfold in_width in *; lia).
      erewrite bind_run; [|exact Hpop]. by do 3 eexists.
Qed.

Lemma fulfil_total s b price m e w q nft p st :
  processable s b m e -> price_fits s b price m -> withdraw_queue b = w :: q -> attr_of (ext s) (b_cid b) (wd_nft_id w) = Some nft ->
  share_price b = Some (Some p) -> 1000 < shares nft <= total_shares b -> m < bal s (pool_account_id b) ->
  exists b' st' s', fulfil price b w nft st (lock_nft (b_cid b) (wd_nft_id w) s) = Ok (b', st') s' /\
    stepped s b m e s' b'.
Proof.
  intros Hpb (Hp0 & Hplo & Hf80 & Hphi) Hq Ha Hp Hsh Hm.
  destruct (bdiv_free (bal s (pool_account_id b)) price) as (k & Hk & Hk1); [|done|lia|done|].
  { pose proof (wpha_min_pos (ext s)) as Hpos. rewrite (proj2 (pb_min _ _ _ _ Hpb)) in Hpos. lia. }
  destruct (pay_total s b m e w q nft (Z.min k (shares nft)) p)
    as (am & rm & b1 & nft1 & s1 & s2 & Hr & Hg & Hok1 & Hsp & Hq1 & Ht & Htv & Hts & Ha1 & Hd & _); [done..|lia|lia|].
  apply extract_dust_spec in Hd as (Hd & _ & Hd' & Hd3). specialize (Hd' ltac:(lia)).
  unfold fulfil. erewrite bind_run; [|apply get_free_stakes_run].
  change (wpha_balance (ext (lock_nft (b_cid b) (wd_nft_id w) s)) (pool_account_id b)) with (bal s (pool_account_id b)).
  destruct (price =? 0) eqn:E0; b2p; [lia|]. rewrite Hk. erewrite bind_run; [|done].
  erewrite bind_run; [|exact Hr]. erewrite bind_run; [|done]. cbv beta iota zeta.
  erewrite bind_run; [|apply expect_ok_run, Hg].
  eapply (settle_total s b m e w q nft); try done; lia.
Qed.

Lemma process_round_total s b price m e st :
  processable s b m e -> price_fits s b price m ->
  (exists s', process_round price m b st s = Ok None s') \/
  exists b' st' s', process_round price m b st s = Ok (Some (b', st')) s' /\
    stepped s b m e s' b'.
Proof.
  intros Hpb Hpf. unfold process_round. erewrite bind_run; [|apply get_free_stakes_run].
  destruct (m <? bal s (pool_account_id b)) eqn:Em; cbn [negb]; b2p; [|left; by eexists].
  destruct (withdraw_queue b) as [|w q] eqn:Hq; [left; by eexists|]. right.
  destruct (head_request _ _ _ _ _ _ Hpb Hq) as (nft & p & Ha & Hsh & Hn & Hp).
  assert (w ∈ withdraw_queue b) as Hin by (rewrite Hq; left).
  destruct (pb_ready _ _ _ _ Hpb w Hin) as (_ & Hl & _ & _).
  pose proof (pb_ok _ _ _ _ Hpb) as Hok.
  assert (nft_sh (ext s) (b_cid b) (wd_nft_id w) = shares nft) as Hsn by (unfold nft_sh; by rewrite Ha).
  erewrite bind_run; [|apply expect_ok_run, get_nft_attr_guard_Ok; by split_and!].
  destruct (maybe_remove_dust_total _ _ _ _ nft p (lock_nft (b_cid b) (wd_nft_id w) s) Hpb Hp)
    as (d & b1 & Hd); [lia|by apply Hpb|].
  erewrite bind_run; [|exact Hd]. apply maybe_remove_dust_Ok in Hd as (_ & [[-> ->]|(-> & -> & _)]); cbn iota beta.
  - destruct (fulfil_total s b price m e w q nft p st) as (b' & st' & s' & Hf & Hst); try done.
    erewrite bind_run; [|exact Hf]. by do 3 eexists.
  - rewrite wrap_sub_small by (destruct Hok; unfold in_width in *; lia). cbn [b_cid put_total_shares].
    erewrite bind_run; [|unfold guard_drop, mod_bp, modify; done].
    change (upd_bp _ (lock_nft _ _ s)) with (unlock_nft (b_cid b) (wd_nft_id w) (lock_nft (b_cid b) (wd_nft_id w) s)).
    rewrite unlock_lock by done.
    destruct (pop_total s b e w q nft Hok Hq Ha Hl) as (b3 & s3 & Hpop & Ht & Hok3 & Hsp & Hq3 & Hts & Htv).
    erewrite bind_run; [|exact Hpop]. do 3 eexists. split; [done|].
    apply (stepped_by w q); try done; [lia|lia|lia|by left].
Qed.

Lemma queued_nonneg s b e : pool_ok s b None e -> 0 <= queued s b.
Proof.
  intros [Hc _ _ _ _ _ Hq _ _]. unfold queued. induction (withdraw_queue b) as [|w l IH]; cbn; [done|].
  pose proof (coll_ok_sh _ _ _ _ Hc (Hq w ltac:(left))) as Hr. unfold in_width in Hr.
  specialize (IH ltac:(intros; apply Hq; by right)). lia.
Qed.

(** Enough rounds: one for each share queued. *)
Lemma process_loop_total price m e k : forall s b st,
  processable s b m e -> price_fits s b price m -> queued s b < Z.of_nat k ->
  exists r s', forall fuel, (k <= fuel)%nat -> process_loop fuel price m b st s = Ok r s'.
Proof.
  induction k as [|k IH]; intros s b st Hpb Hpf Hlt.
  { pose proof (queued_nonneg _ _ _ (pb_ok _ _ _ _ Hpb)). lia. }
  destruct (process_round_total _ _ _ _ _ st Hpb Hpf) as [[s' Hr]|(b' & st' & s' & Hr & Hst)].
  - do 2 eexists. intros [|fuel] Hf; [lia|]. cbn [process_loop]. by erewrite bind_run; [|exact Hr].
  - destruct (IH s' b' st') as (r & s2 & Hloop);
      [apply Hst|by eapply price_fits_stepped|pose proof (sd_less _ _ _ _ _ _ Hst); lia|].
    exists r, s2. intros [|fuel] Hf; [lia|]. cbn [process_loop]. erewrite bind_run; [|exact Hr]. apply Hloop. lia.
Qed.

End total.

Section queue_claims.
Context {X : Type} `{BE : !BlockEnv} `{FC : !FixedCrate} `{CF : !CompConfig X} `{PC : !PoolConfig X}
  `{PV : !PoolView X} `{PL : !PoolLaws X} `{FD : !FixedDoc}.
Implicit Types (s : Storage X) (b : BasePool).

Abbreviation bal s a := (wpha_balance (ext s) a).

(** C7: the loop of the withdraw queue returns. For a well-formed pool whose queued NFTs
    are not locked and hold more than 1000 shares each, whose queued users hold
    W-PHA already and are not the pool itself, with fewer than 2^80 shares, a value
    below 2^70 and a free stake below 2^80, at a price above zero, of at most
    half the minimum balance, at which the free stake buys at most 2^79 shares:
    any number of rounds above the number of
    queued shares gives one and the same result, without a panic; requests
    leave the queue from the front, no shares are lost to the pool, and the
    loop stops only with an empty queue or with the free stake used up. *)
Theorem withdraw_queue_terminates s b price e :
  let m := wpha_minimum_balance (ext s) in
  processable s b m e -> price_fits s b price m ->
  exists b' st s',
    (forall fuel, queued s b < Z.of_nat fuel -> process_loop fuel price m b [] s = Ok (b', st) s') /\
    pool_ok s' b' None e /\ slack s' b' None = slack s b None /\
    (exists k, withdraw_queue b' = drop k (withdraw_queue b)) /\
    (withdraw_queue b' = [] \/ bal s' (pool_account_id b') <= m).
Proof.
  intros m Hpb Hpf. pose proof (queued_nonneg _ _ _ (pb_ok _ _ _ _ Hpb)) as Hpos.
  destruct (process_loop_total price m e (S (Z.to_nat (queued s b))) s b []) as ([b' st] & s' & Hrun); [done|done|lia|].
  exists b', st, s'. split; [intros fuel Hf; apply Hrun; lia|].
  specialize (Hrun _ (le_n _)). apply (process_loop_Ok _ _ _ _ _ _ _ _ _ None e) in Hrun as [[] Hend]; [|apply Hpb].
  split_and!; [done|done|done|]. destruct Hend; auto.
Qed.

(** ** Rounds that change nothing *)

(** The free stake buys less than one share of the first request. *)
Record stuck s b (price : FixedBits) (m : Balance) (e : Z) : Prop := {
  sk_pool : processable s b m e;
  sk_queue : withdraw_queue b <> [];
  sk_value : 1000 < total_value b;
  sk_free : m < bal s (pool_account_id b);
  sk_price : price <> 0 /\ bdiv (bal s (pool_account_id b)) price = Some 0;
  sk_head : forall w q nft p v, withdraw_queue b = w :: q ->
    attr_of (ext s) (b_cid b) (wd_nft_id w) = Some nft -> share_price b = Some (Some p) ->
    bmul (shares nft) p = Some v -> m < v;
}.

Lemma basepool_eq b b' :
  same_pool b b' -> total_shares b' = total_shares b -> total_value b' = total_value b ->
  withdraw_queue b' = withdraw_queue b -> b' = b.
Proof. intros (?&?&?&?&?) ???. destruct b, b'; cbn in *; congruence. Qed.

Lemma extract_nondust z : 1000 < z -> extract_dust z = (z, 0).
Proof.
  intros Hz. unfold extract_dust, balance_close_to_zero. destruct (z <=? 1000) eqn:E; b2p; [lia|done].
Qed.

Lemma bmul_zero p : bmul 0 p = Some 0.
Proof.
  unfold bmul. rewrite to_fixed_bits by done. cbn. rewrite u64f64_mul_doc, from_fixed_spec by (by apply wrap_range).
  done.
Qed.

Lemma not_dust s b m e w q nft p s1 :
  processable s b m e -> withdraw_queue b = w :: q -> attr_of (ext s) (b_cid b) (wd_nft_id w) = Some nft ->
  share_price b = Some (Some p) -> 0 <= shares nft <= total_shares b ->
  (forall v, bmul (shares nft) p = Some v -> m < v) ->
  wpha_exists (ext s1) = true -> wpha_minimum_balance (ext s1) = m ->
  maybe_remove_dust b nft s1 = Ok (false, b) s1.
Proof.
  intros Hpb Hq Ha Hp Hsh Hv He Hm.
  destruct (bmul_price b p (shares nft) Hp) as (v & Hbm & _); [apply Hpb..|done|].
  unfold maybe_remove_dust, min_balance. rewrite Hp. mred. rewrite Hbm, He, Hm.
  specialize (Hv v Hbm). apply Z.ltb_lt in Hv. by rewrite Hv.
Qed.

Lemma stuck_round s b price m e st :
  stuck s b price m e ->
  exists st' s', process_round price m b st s = Ok (Some (b, st')) s' /\ stuck s' b price m e.
Proof.
  intros [Hpb Hne Hval Hfree [Hp0 Hk] Hhead].
  destruct (withdraw_queue b) as [|w q] eqn:Hq; [done|]. clear Hne.
  destruct (head_request _ _ _ _ _ _ Hpb Hq) as (nft & p & Ha & Hsh & Hn & Hp).
  assert (w ∈ withdraw_queue b) as Hin by (rewrite Hq; left).
  destruct (pb_ready _ _ _ _ Hpb w Hin) as (_ & Hl & Hnu & _).
  destruct (pb_min _ _ _ _ Hpb) as [Hex Hmin].
  destruct (pay_total s b m e w q nft 0 p)
    as (am & rm & b1 & nft1 & s1 & s2 & Hr & Hg & Hok1 & Hsp & Hq1 & Ht & _ & _ & Ha1 & Hd & Hts & Htv & Hv & Hbal);
    [done..|lia|lia|].
  destruct Hv as (v & Hv0 & ->). rewrite bmul_zero in Hv0. injection Hv0 as <-.
  pose proof (balance_nonneg (ext s) (pool_account_id b)) as Hbn.
  rewrite Z.sub_0_r, extract_nondust in Hd by lia. injection Hd as Hsh1 Hrm.
  assert (nft1 = nft) as -> by (destruct nft, nft1; cbn in *; congruence).
  assert (Z.min 0 (bal s (pool_account_id b)) = 0) as Ham by lia. rewrite Ham in *.
  rewrite Z.sub_0_r, extract_nondust in Htv by lia. cbn in Htv.
  assert ((0 <? total_value b) = true) as E0 by (apply Z.ltb_lt; lia). rewrite E0 in Htv.
  assert (b1 = b) as -> by (apply basepool_eq; [done|lia|done|congruence]).
  assert (bal s2 (pool_account_id b) = bal s (pool_account_id b)) as Hb2 by lia.
  destruct (tc_min _ _ _ _ Ht) as [Hex2 Hmin2].
  assert (processable s2 b m e) as Hpb2.
  { eapply (processable_next s b); try done. right. split; [done|]. unfold nft_sh. rewrite Ha1. lia. }
  assert (exists st', process_round price m b st s = Ok (Some (b, st')) s2) as [st' Hrun].
  { unfold process_round. erewrite bind_run; [|apply get_free_stakes_run].
    apply Z.ltb_lt in Hfree. rewrite Hfree, Hq. cbn [negb].
    erewrite bind_run; [|apply expect_ok_run, get_nft_attr_guard_Ok; by split_and!].
    erewrite bind_run; [|eapply (not_dust s b m e w q); try done; [lia|naive_solver]]. cbv beta iota zeta.
    erewrite bind_run; [by eexists|]. unfold fulfil. erewrite bind_run; [|apply get_free_stakes_run].
    change (wpha_balance (ext (lock_nft (b_cid b) (wd_nft_id w) s)) (pool_account_id b)) with (bal s (pool_account_id b)).
    destruct (price =? 0) eqn:E; b2p; [done|]. rewrite Hk. erewrite bind_run; [|done].
    rewrite Z.min_l by lia. erewrite bind_run; [|exact Hr]. erewrite bind_run; [|done]. cbv beta iota zeta.
    erewrite bind_run; [|apply expect_ok_run, Hg].
    destruct (shares nft =? 0) eqn:E2; b2p; [lia|].
    erewrite bind_run; [|eapply (not_dust s2 b m e w q); try done; [lia|naive_solver|congruence|congruence]].
    cbn iota beta. rewrite Hq. cbn [tail]. replace (put_withdraw_queue (w :: q) b) with b; [done|].
    rewrite <- Hq. by destruct b. }
  exists st', s2. split; [done|]. split; try done; [by rewrite Hq|lia|by rewrite Hb2|].
  intros w' q' nft' p' v Hq' Ha' Hp' Hv. rewrite Hq in Hq'. simplify_eq. eapply Hhead; try done.
Qed.

(** C39: when the queue is not empty, the free stake is above the minimum
    balance but buys no share at the price, the first request is worth more than
    the minimum balance, the pool is worth more than 1000 units, and the queued
    requests are as above (unlocked NFTs of more than 1000 shares, users that
    hold W-PHA, the same bounds on shares, value and supply), a round of the withdraw queue changes neither the pool
    nor the free stake: the loop never ends, whatever the number of rounds. *)
Theorem withdraw_queue_diverges s b price m e st :
  stuck s b price m e ->
  (exists st' s', process_round price m b st s = Ok (Some (b, st')) s' /\ stuck s' b price m e) /\
  forall fuel, process_loop fuel price m b st s = Panic.
Proof.
  intros Hst. split; [by apply stuck_round|]. intros fuel. revert s st Hst.
  induction fuel as [|fuel IH]; intros s st Hst; [done|]. cbn [process_loop].
  destruct (stuck_round _ _ _ _ _ st Hst) as (st' & s' & Hr & Hst'). erewrite bind_run; [|exact Hr]. by apply IH.
Qed.
End queue_claims.
