(* ===== verification/PoolInv.v ===== *)
(** * The invariant of all pools

    Every pool of the chain counts the shares in its NFTs (and, for a vault,
    the owner's unclaimed shares), its collection belongs to it alone, and no
    guard is left. A call takes one pool out of storage, works on it and puts
    it back: [inflight] is the invariant in between. *)

From S2P Require Import Prelude MqTypes Storage MqPallet FixedPoint Registry Computation PoolExt BasePool WrappedBalances StakePoolV2 PoolNfts PoolShares PoolQueue PoolProcess.

(** * Withdrawals and rewards on a whole pool

    The two operations that combine the guarded attribute of a user with the
    queue ([withdraw_from]), and a reward that reaches the vaults subscribed to
    a pool ([distribute_reward]). *)

Section calls.
Context {X : Type} `{BE : !BlockEnv} `{FC : !FixedCrate} `{CF : !CompConfig X} `{PC : !PoolConfig X}
  `{PV : !PoolView X} `{PL : !PoolLaws X} `{FD : !FixedDoc}.
Implicit Types (s : Storage X) (x : X) (c : CollectionId) (n : NftId) (b : BasePool).

Lemma framed_lock c n s : framed s (lock_nft c n s).
Proof.
  exists ({[ (c, n) ]} ∪ nft_locks (bp s)), (next_nft_ids (bp s)), (events s), (ext s).
  by destruct s as [??? [] ?????].
Qed.
Lemma framed_unlock c n s : framed s (unlock_nft c n s).
Proof.
  exists (nft_locks (bp s) ∖ {[ (c, n) ]}), (next_nft_ids (bp s)), (events s), (ext s).
  by destruct s as [??? [] ?????].
Qed.

(** The guard of [n] is taken, others' NFTs evolve, and the attribute is saved. *)
Lemma evolves_guarded c n o w a s1 s2 x :
  evolves c (eq pallet_id) (lock_nft c n s1) s2 ->
  (c, n) ∉ nft_locks (bp s1) -> nfts (ext s1) !! (c, n) = Some w -> nft_owner w = o ->
  saved c n a (ext s2) x -> u128 (shares a) ->
  evolves c (fun u => u = o \/ u = pallet_id) s1 (unlock_nft c n (put_ext x s2)).
Proof.
  intros Hev Hl Hw Ho Hs Ha. pose proof Hev as []. pose proof Hs as [].
  destruct (ev_same c n w Hw) as [Hw2 Ha2]; [right; left; cbn; set_solver|].
  split.
  - eapply framed_trans; [apply framed_lock|]. eapply framed_trans; [done|].
    eapply framed_trans; [apply framed_ext|apply framed_unlock].
  - cbn in *. rewrite ev_locks. set_solver.
  - by eapply same_issuers_trans.
  - intros c' n' w' Hw' Hor. cbn.
    assert ((c', n') <> (c, n)) as Hne.
    { intros [= -> ->]. rewrite Hw in Hw'. simplify_eq. destruct Hor as [|[|HO]]; [done|done|]. auto. }
    rewrite saved_nfts, saved_rest by done. apply (ev_same c' n' w' Hw').
    destruct Hor as [|[|HO]]; [by left|right; left; cbn; set_solver|right; right; auto].
  - intros c' Hc n' w' Hw'. cbn in *. rewrite saved_nfts in Hw'.
    destruct (ev_ok c' Hc n' w' Hw') as [? ?]. split; [|done].
    destruct (decide ((c', n') = (c, n))) as [[= -> ->]|]; [by exists a|by rewrite saved_rest].
  - intros c' Hc'. cbn. rewrite (nft_shares_saved _ _ _ _ _ c' Hs) by (by eexists).
    rewrite (proj2 (Z.eqb_neq c c')) by congruence. rewrite Z.add_0_r. by apply ev_other.
  - intros Hids. by apply ev_ids.
Qed.

Lemma slack_le s b h e : pool_ok s b h e -> slack s b h <= total_shares b.
Proof.
  intros []. unfold slack. enough (held (ext s) (b_cid b) h <= nft_shares (ext s) (b_cid b)) by lia.
  destruct h as [n|]; cbn; [|by apply nft_shares_nonneg].
  destruct (po_held n eq_refl) as (_ & w & Hw & _). by eapply nft_sh_le.
Qed.

(** A pool's own NFTs, locked and superseded by the attribute in memory *)
Lemma pool_ok_lock s b e n w a :
  pool_ok s b None e -> (b_cid b, n) ∉ nft_locks (bp s) ->
  nfts (ext s) !! (b_cid b, n) = Some w -> nft_owner w <> pallet_id ->
  attr_of (ext s) (b_cid b) n = Some a ->
  pool_ok (lock_nft (b_cid b) n s) b (Some n) (e + shares a) /\
  slack (lock_nft (b_cid b) n s) b (Some n) - shares a = slack s b None /\
  0 <= shares a /\ held (ext s) (b_cid b) (Some n) = shares a.
Proof.
  intros [] Hl Hw Hne Ha. pose proof (coll_ok_sh _ _ _ _ po_coll Hw) as Hr.
  assert (nft_sh (ext s) (b_cid b) n = shares a) as Hsh by (unfold nft_sh; by rewrite Ha).
  unfold in_width in Hr. rewrite Hsh in Hr.
  assert (slack (lock_nft (b_cid b) n s) b (Some n) - shares a = slack s b None) as Hsl.
  { unfold slack, held. cbn. lia. }
  split_and!; [|done|lia|done]. split; try done; [lia|lia|].
  intros n' [= <-]. cbn. split; [set_solver|]. by exists w.
Qed.

Lemma withdraw_from_Ok b who sh av e1 e2 s b' s' e :
  withdraw_from b who sh av e1 e2 s = Ok b' s' ->
  pool_ok s b None e -> ids_ok s -> who <> pallet_id ->
  evolves (b_cid b) (fun u => u = who \/ u = pallet_id) s s' /\ pool_ok s' b' None e /\ same_pool b b' /\
  (share_price b <> Some None -> slack s' b' None = slack s b None).
Proof.
  unfold withdraw_from. intros H Hok Hids Hwho.
  mok_as H r s1 E. apply merge_nft_Ok in E as (Hev1 & _ & Hsum1 & Hr);
    [|apply Hok|by eapply pool_ok_bound|done].
  mok H. destruct (Hr z eq_refl) as (w & Hw & Hown). clear Hr.
  assert (slack s1 b None = slack s b None) as Hsl1 by (unfold slack, held; lia).
  assert (pool_ok s1 b None e) as Hok1.
  { eapply pool_ok_evolves; [done|by intros ->|done..|apply Hok|apply Hok|done]. }
  mok_as H nft s2 E. apply get_nft_attr_guard_Ok in E as (Ha & Hl & ->).
  destruct (pool_ok_lock _ _ _ _ _ _ Hok1 Hl Hw ltac:(congruence) Ha) as (Hok2 & Hsl2 & Hpos & Hheld).
  mok_as H iq s3 E. assert (s3 = lock_nft (b_cid b) z s1) as ->.
  { destruct (filter _ _) as [|q ?]; [by mok_prim E|].
    mok E. apply read_nft_Ok in E0 as (_ & _ & ->). by mok_prim E. }
  clear E. mok H. apply andb_true_iff in Hb as [Hnd _].
  unfold is_nondust_balance, balance_close_to_zero in Hnd. b2p.
  mok_as H r3 s3 Et. destruct r3 as [b3 nft3].
  apply (try_withdraw_Ok _ _ _ _ _ _ _ _ _ _ z e) in Et as (Hev3 & Hok3 & Hpos3 & Hsp3 & Hsl3);
    [|done|by apply Hev1|apply Hok|done|lia|cbn in *; lia].
  mok_as H u s4 Es. apply guard_save_Ok in Es as (x & -> & Hsv).
  pose proof Hsp3 as (_ & _ & Hc3 & _). rewrite Hc3 in *.
  assert (u128 (shares nft3)) as Hr3.
  { pose proof (slack_le _ _ _ _ Hok3). destruct Hok3, Hok. unfold in_width in *. lia. }
  pose proof (evolves_guarded _ _ _ _ _ _ _ _ Hev3 Hl Hw Hown Hsv Hr3) as Hev4.
  set (s4 := unlock_nft _ _ _) in *.
  assert (slack s4 b3 None = slack s3 b3 (Some z) - shares nft3) as Hsl4.
  { pose proof (nft_shares_saved _ _ _ _ _ (b_cid b) Hsv) as Hsum. rewrite Z.eqb_refl in Hsum.
    destruct (po_held _ _ _ _ Hok3 z eq_refl) as (_ & w3 & Hw3 & _). rewrite Hc3 in Hw3.
    specialize (Hsum ltac:(by eexists)). unfold slack, held. rewrite Hc3. cbn. lia. }
  assert (pool_ok s4 b3 None e) as Hok4.
  { pose proof Hok3 as []. split; rewrite ?Hc3 in *; try done.
    - apply Hev4. apply Hok1.
    - apply Hok.
    - lia.
    - cbn. by rewrite (saved_nfts _ _ _ _ _ Hsv). }
  mok_as H r5 s5 E. mok_prim H. rewrite <- Hc3 in E.
  apply merge_nft_Ok in E as (Hev5 & _ & Hsum5 & _);
    [|apply Hok4|by eapply pool_ok_bound|by apply Hev4, Hev1].
  assert (slack s5 b3 None = slack s4 b3 None) as Hsl5 by (unfold slack, held; lia).
  split_and!.
  - eapply evolves_trans; [eapply evolves_weaken; [|exact Hev1]; by left|].
    eapply evolves_trans; [done|]. rewrite Hc3 in Hev5. eapply evolves_weaken; [|exact Hev5]. by left.
  - eapply pool_ok_evolves; [exact Hev5|by intros ->|exact Hok4|done|done|apply Hok4|apply Hok4|done].
  - done.
  - intros Hp. specialize (Hsl3 Hp). lia.
Qed.
End calls.

Section pool_inv.
Context {X : Type} `{BE : !BlockEnv} `{FC : !FixedCrate} `{CF : !CompConfig X} `{PC : !PoolConfig X}
  `{PV : !PoolView X} `{PL : !PoolLaws X} `{FD : !FixedDoc}.
Implicit Types (s : Storage X) (x : X) (c : CollectionId) (n : NftId) (b : BasePool) (p : PoolProxy).

Definition extra_of p : Z := match p with PVault v => owner_shares v | PStakePool _ => 0 end.

(** Two pools of the same kind *)
Definition same_kind p q : Prop :=
  match p, q with PVault _, PVault _ | PStakePool _, PStakePool _ => True | _, _ => False end.

(** The pool's identity agrees with the indices. *)
Record wf_pool s (pid : Z) b : Prop := {
  wf_pid : b_pid b = pid;
  wf_coll : pool_collections (bp s) !! b_cid b = Some pid;
  wf_issuer : collection_issuer (ext s) (b_cid b) = Some pallet_id;
  wf_account : pool_account_id b <> pallet_id;
  wf_count : pid < pool_count (bp s);
}.

(** Subscribers of a stake pool are vaults; a vault has none. *)
Definition subs_ok s p : Prop :=
  match p with
  | PVault v => value_subscribers (v_basepool v) = []
  | PStakePool q => forall v, v ∈ value_subscribers (sp_basepool q) ->
      exists va, pools (bp s) !! v = Some (PVault va)
  end.

Record pool_good s (pid : Z) p : Prop := {
  pg_ok : pool_ok s (basepool_of p) None (extra_of p);
  pg_wf : wf_pool s pid (basepool_of p);
  pg_subs : subs_ok s p;
}.

Definition others_good s (pid : Z) : Prop := forall pid' p,
  pid' <> pid -> pools (bp s) !! pid' = Some p -> pool_good s pid' p.

Record pools_inv s : Prop := {
  pi_ids : ids_ok s;
  pi_locks : nft_locks (bp s) = ∅;
  pi_good : forall pid p, pools (bp s) !! pid = Some p -> pool_good s pid p;
}.

Record inflight s (pid : Z) p : Prop := {
  if_ids : ids_ok s;
  if_locks : nft_locks (bp s) = ∅;
  if_others : others_good s pid;
  if_good : pool_good s pid p;
  if_stored : exists q, pools (bp s) !! pid = Some q /\ same_kind q p;
}.

Lemma same_kind_refl p : same_kind p p.
Proof. by destruct p. Qed.
Lemma same_kind_trans p q r : same_kind p q -> same_kind q r -> same_kind p r.
Proof. by destruct p, q, r. Qed.
Lemma same_kind_sym p q : same_kind p q -> same_kind q p.
Proof. by destruct p, q. Qed.

Lemma inflight_load s pid p : pools_inv s -> pools (bp s) !! pid = Some p -> inflight s pid p.
Proof.
  intros [] Hp. split; [done|done| |by apply pi_good0|exists p; split; [done|apply same_kind_refl]].
  intros pid' q _ Hq. by apply pi_good0.
Qed.

(** What the invariant looks at: the NFTs, and the pools' part of the storage. *)
Definition pools_same s s' : Prop :=
  nfts (ext s') = nfts (ext s) /\ (forall c n, attr_of (ext s') c n = attr_of (ext s) c n) /\
  same_issuers (ext s) (ext s') /\ pools (bp s') = pools (bp s) /\
  pool_collections (bp s') = pool_collections (bp s) /\ pool_count (bp s') = pool_count (bp s) /\
  next_nft_ids (bp s') = next_nft_ids (bp s) /\ nft_locks (bp s') = nft_locks (bp s).

Lemma pools_same_ok s s' b h e : pools_same s s' -> pool_ok s b h e -> pool_ok s' b h e.
Proof.
  intros (Hn & Ha & Hi & Hp & Hc & Hk & Hx & Hl) [].
  assert (nft_shares (ext s') (b_cid b) = nft_shares (ext s) (b_cid b)) as Hsum by (by apply nft_shares_ext).
  assert (held (ext s') (b_cid b) h = held (ext s) (b_cid b) h) as Hh.
  { destruct h; [|done]. by apply nft_sh_eq. }
  split; try done.
  - intros n w. rewrite Hn, Ha, Hx. apply po_coll.
  - unfold slack. by rewrite Hsum, Hh.
  - intros n Hhn. rewrite Hl, Hn. by apply po_held.
  - intros w Hw. rewrite Hn. by apply po_queue.
Qed.

Lemma pools_same_good s s' pid p : pools_same s s' -> pool_good s pid p -> pool_good s' pid p.
Proof.
  intros Hs [Hok [] Hsub]. split; [by eapply pools_same_ok| |];
    destruct Hs as (Hn & Ha & Hi & Hp & Hc & Hk & Hx & Hl).
  - split; rewrite ?Hc, ?Hk; try done. by rewrite Hi.
  - destruct p; [|done]. cbn in *. by rewrite Hp.
Qed.

Lemma pools_same_inv s s' : pools_same s s' -> pools_inv s -> pools_inv s'.
Proof.
  intros Hs []. pose proof Hs as (Hn & Ha & Hi & Hp & Hc & Hk & Hx & Hl). split.
  - intros c. rewrite Hx. apply pi_ids0.
  - by rewrite Hl.
  - intros pid p. rewrite Hp. intros Hq. by eapply pools_same_good, pi_good0.
Qed.

Lemma pools_same_inflight s s' pid p : pools_same s s' -> inflight s pid p -> inflight s' pid p.
Proof.
  intros Hs []. pose proof Hs as (Hn & Ha & Hi & Hp & Hc & Hk & Hx & Hl). split.
  - intros c. rewrite Hx. apply if_ids0.
  - by rewrite Hl.
  - intros pid' q Hne. rewrite Hp. intros Hq. by eapply pools_same_good, if_others0.
  - by eapply pools_same_good.
  - by rewrite Hp.
Qed.

#[global] Instance pools_same_preorder : PreOrder pools_same.
Proof.
  split; [done|]. intros s1 s2 s3 (?&H1&H2&?) (?&H3&H4&?).
  repeat split; try congruence; naive_solver congruence.
Qed.

(** ** Stepping on the NFTs of one pool *)

Lemma wf_pool_mono s s' pid b b' :
  wf_pool s pid b -> same_pool b b' \/ b_pid b' = b_pid b /\ b_cid b' = b_cid b /\ pool_account_id b' = pool_account_id b ->
  pool_collections (bp s') = pool_collections (bp s) -> same_issuers (ext s) (ext s') ->
  pool_count (bp s') = pool_count (bp s) -> wf_pool s' pid b'.
Proof.
  intros [] Hsp Hc Hi Hk.
  assert (b_pid b' = b_pid b /\ b_cid b' = b_cid b /\ pool_account_id b' = pool_account_id b) as (E1 & E2 & E3).
  { destruct Hsp as [(?&?&?&?&?)|]; done. }
  split; rewrite ?E1, ?E2, ?E3, ?Hc, ?Hk; try done. by rewrite Hi.
Qed.

Lemma framed_fields s s' : framed s s' ->
  pools (bp s') = pools (bp s) /\ pool_collections (bp s') = pool_collections (bp s) /\
  pool_count (bp s') = pool_count (bp s).
Proof. by intros (?&?&?&?&->). Qed.

Lemma others_good_evolves c O s s' pid :
  evolves c O s s' -> pool_collections (bp s) !! c = Some pid -> others_good s pid -> others_good s' pid.
Proof.
  intros Hev Hc Ho pid' p Hne Hp. destruct (framed_fields _ _ (ev_framed _ _ _ _ Hev)) as (E1 & E2 & E3).
  rewrite E1 in Hp. destruct (Ho pid' p Hne Hp) as [Hok Hwf Hsub]. split.
  - apply (pool_ok_other c O s s'); [done| |done].
    intros Hcc. pose proof (wf_coll _ _ _ Hwf). rewrite Hcc in *. congruence.
  - eapply wf_pool_mono; [done|by right|done|apply Hev|done].
  - destruct p; [|done]. cbn in *. by rewrite E1.
Qed.

(** The pool in flight after an operation on its own NFTs *)
Lemma inflight_step O s s' pid p p' :
  inflight s pid p -> evolves (b_cid (basepool_of p)) O s s' ->
  pool_ok s' (basepool_of p') None (extra_of p') -> same_pool (basepool_of p) (basepool_of p') ->
  same_kind p p' -> inflight s' pid p'.
Proof.
  intros [] Hev Hok Hsp Hk. destruct (framed_fields _ _ (ev_framed _ _ _ _ Hev)) as (E1 & E2 & E3).
  destruct if_good0 as [Hok0 Hwf0 Hsub0].
  split.
  - by apply Hev.
  - by rewrite (ev_locks _ _ _ _ Hev).
  - eapply others_good_evolves; [done|apply Hwf0|done].
  - split; [done|eapply wf_pool_mono; [done|by left|done|apply Hev|done]|].
    destruct Hsp as (_ & _ & _ & _ & Hs). destruct p, p'; cbn in *; try done; by rewrite ?Hs, ?E1.
  - rewrite E1. destruct if_stored0 as (q & Hq & Hkq). exists q. split; [done|]. by eapply same_kind_trans.
Qed.

(** A change of the pool that touches neither its shares nor its identity *)
Lemma inflight_put s pid p p' :
  inflight s pid p -> same_kind p p' -> extra_of p' = extra_of p -> same_pool (basepool_of p) (basepool_of p') ->
  total_shares (basepool_of p') = total_shares (basepool_of p) -> u128 (total_value (basepool_of p')) ->
  withdraw_queue (basepool_of p') = withdraw_queue (basepool_of p) -> inflight s pid p'.
Proof.
  intros Hin Hk He Hsp Hts Htv Hq. pose proof (if_good _ _ _ Hin) as [Hok _ _].
  eapply inflight_step; [done|apply (evolves_refl _ (fun _ => False))| |done|done].
  destruct Hsp as (_ & _ & Hc & _ & _). destruct Hok.
  split; unfold slack in *; rewrite ?Hts, ?Hc, ?Hq, ?He; done.
Qed.

(** [Pools::insert] puts the pool back. *)
Definition store_pool (pid : Z) p s : Storage X :=
  upd_bp (fun st => put_pools (<[ pid := p ]> (pools st)) st) s.

Lemma pool_good_store s pid p pid' q q0 :
  pools (bp s) !! pid = Some q0 -> same_kind q0 p -> pool_good s pid' q -> pool_good (store_pool pid p s) pid' q.
Proof.
  intros Hq0 Hk [Hok Hwf Hsub]. split; [destruct Hok; by split|destruct Hwf; by split|].
  destruct q as [q|]; [|done]. cbn in *. intros v Hv. destruct (Hsub v Hv) as [va Hva].
  destruct (decide (v = pid)) as [->|]; [|exists va; by rewrite lookup_insert_ne].
  rewrite lookup_insert_eq. rewrite Hq0 in Hva. simplify_eq. destruct p; [done|by eexists].
Qed.

Lemma inflight_store s pid p : inflight s pid p -> pools_inv (store_pool pid p s).
Proof.
  intros []. destruct if_stored0 as (q0 & Hq0 & Hk). split; [done|done|].
  intros pid' q Hq. cbn in Hq. eapply pool_good_store; [done|done|].
  destruct (decide (pid = pid')) as [<-|Hne].
  - rewrite lookup_insert_eq in Hq. by simplify_eq.
  - rewrite lookup_insert_ne in Hq by done. by apply if_others0.
Qed.

(** Storing another pool while one is in flight *)
Lemma inflight_store_other s pid p pid' q :
  inflight s pid p -> pid' <> pid -> pool_good s pid' q ->
  (exists q0, pools (bp s) !! pid' = Some q0 /\ same_kind q0 q) -> inflight (store_pool pid' q s) pid p.
Proof.
  intros [] Hne Hq (q0 & Hq0 & Hk). split; [done|done| | |].
  - intros pid2 r Hne2 Hr. cbn in Hr. eapply pool_good_store; [done|done|].
    destruct (decide (pid' = pid2)) as [<-|Hne3].
    + rewrite lookup_insert_eq in Hr. by simplify_eq.
    + rewrite lookup_insert_ne in Hr by done. by apply if_others0.
  - by eapply pool_good_store.
  - cbn. by rewrite lookup_insert_ne.
Qed.

(** ** Operations that see nothing of a pool *)

Lemma pools_same_bp s s' :
  nfts (ext s') = nfts (ext s) -> (forall c n, attr_of (ext s') c n = attr_of (ext s) c n) ->
  same_issuers (ext s) (ext s') -> bp s' = bp s -> pools_same s s'.
Proof. intros Hn Ha Hi Hb. unfold pools_same. by rewrite Hb. Qed.

Lemma pools_same_ext s x : same_nfts (ext s) x -> pools_same s (put_ext x s).
Proof.
  intros Hs. apply pools_same_bp; [apply Hs| |exact (proj1 (proj2 Hs))|done].
  intros. by apply same_nfts_attr.
Qed.
End pool_inv.
