(* ===== verification/PoolSteps.v ===== *)
(** * Every step of a pool call keeps the invariant *)

From S2P Require Import Prelude MqTypes Storage MqPallet PalletMsg FixedPoint Registry Computation PoolExt BasePool WrappedBalances StakePoolV2 PoolNfts PoolShares PoolQueue PoolProcess PoolInv.

(** The currency and the democracy pallet do not touch NFTs, and leave the
    storage of the repository's pallets alone. *)
Class PoolFrame (X : Type) `{CF : !CompConfig X} `{PC : !PoolConfig X} `{PV : !PoolView X}
    `{WC : !WrapConfig X} : Prop := {
  pf_transfer : forall a b v (s : Storage X) u s', currency_transfer a b v s = Ok u s' ->
    exists x, s' = put_ext x s /\ same_nfts (ext s) x;
  pf_keep_alive : forall a b v (x x' : X), pha_transfer_keep_alive a b v x = Some x' -> same_nfts x x';
  pf_allow_death : forall a b v (x x' : X), pha_transfer_allow_death a b v x = Some x' -> same_nfts x x';
  pf_slash : forall a v (x : X), same_nfts x (pha_slash a v x);
  pf_vote : forall a i v (x x' : X), democracy_vote a i v x = Some x' -> same_nfts x x';
}.

Section steps.
Context {X : Type} `{QN : !QueueNotifyConfig X} `{PT : !PalletTopicsUnrouted X} `{CC : !ChainCodec}
  `{RC : !RegConfig} `{BE : !BlockEnv} `{FC : !FixedCrate} `{CF : !CompConfig X} `{PC : !PoolConfig X}
  `{PV : !PoolView X} `{PL : !PoolLaws X} `{FD : !FixedDoc} `{WC : !WrapConfig X} `{SC : !StakeConfig}
  `{PF : !PoolFrame X}.
Implicit Types (s : Storage X) (x : X) (c : CollectionId) (n : NftId) (b : BasePool) (p : PoolProxy).

(** ** Operations outside the pools *)

Abbreviation quiet := (moves (E := DispatchError) (pools_same (X := X))).

Lemma quiet_modify (f : Storage X -> Storage X) :
  (forall s, bp (f s) = bp s) -> (forall s, ext (f s) = ext s) -> quiet (modify f).
Proof.
  intros Hb He. apply moves_modify. intros s. apply pools_same_bp; rewrite ?He, ?Hb; try done.
Qed.

Lemma quiet_event e : quiet (deposit_event e).
Proof. by apply quiet_modify. Qed.
Lemma quiet_comp f : quiet (mod_comp f).
Proof. by apply quiet_modify. Qed.
Lemma quiet_sp f : quiet (mod_sp f).
Proof. by apply quiet_modify. Qed.
Lemma quiet_wb f : quiet (mod_wb f).
Proof. by apply quiet_modify. Qed.
Lemma quiet_push e : quiet (push_comp e).
Proof.
  intros s. unfold push_comp. rewrite push_system_run.
  unfold emit, upd_mq. by apply pools_same_bp.
Qed.
Lemma quiet_signed o : quiet (ensure_signed o).
Proof. by destruct o; apply moves_pure; try apply _. Qed.
Lemma quiet_session a si : quiet (insert_session a si).
Proof. apply quiet_comp. Qed.

Hint Resolve quiet_event quiet_comp quiet_sp quiet_wb quiet_push quiet_signed quiet_session : moves.
Hint Unfold comp_event sp_event bp_event wb_event : moves.

Lemma quiet_comp_event e : quiet (comp_event e).
Proof. apply quiet_event. Qed.
Lemma quiet_sp_event e : quiet (sp_event e).
Proof. apply quiet_event. Qed.
Lemma quiet_wb_event e : quiet (wb_event e).
Proof. apply quiet_event. Qed.
Lemma quiet_bp_event e : quiet (bp_event e).
Proof. apply quiet_event. Qed.
Hint Resolve quiet_comp_event quiet_sp_event quiet_wb_event quiet_bp_event : moves.

Lemma quiet_start a st : quiet (start_computing a st).
Proof. unfold start_computing, tokenomic. moves. Qed.
Lemma quiet_stop a : quiet (stop_computing a).
Proof. unfold stop_computing, sp_on_stopped. cbn. moves. Qed.
Lemma quiet_reclaim a k : quiet (reclaim a k).
Proof. unfold reclaim. moves. Qed.
Lemma quiet_bind a w : quiet (bind a w).
Proof. unfold bind. moves. Qed.
Lemma quiet_unbind a : quiet (unbind_session a false).
Proof. unfold unbind_session, ensure_session_bound. moves. apply quiet_stop. Qed.

(** ** Calls and the invariant *)

(** The invariant is kept. *)
Definition inv_kept s s' : Prop := pools_inv s -> pools_inv s'.

#[global] Instance inv_kept_preorder : PreOrder inv_kept.
Proof. split; unfold inv_kept, Reflexive, Transitive; auto. Qed.

Abbreviation safe := (ok_moves (E := DispatchError) inv_kept).

Lemma quiet_safe {A} (m : H X A) : quiet m -> safe m.
Proof. intros Hm s a s' H Hi. apply (pools_same_inv s); [|done]. by eapply moves_ok. Qed.

Lemma quiet_Ok {A} (m : H X A) s a s' : quiet m -> m s = Ok a s' -> pools_same s s'.
Proof. intros Hm. by apply moves_ok. Qed.

Lemma ensure_stake_pool_Ok pid s q s' :
  ensure_stake_pool pid s = Ok q s' -> s' = s /\ pools (bp s) !! pid = Some (PStakePool q).
Proof.
  unfold ensure_stake_pool. intros H. mok H. mok H. destruct p; [|done]. mok_prim H. done.
Qed.
Lemma ensure_vault_Ok pid s v s' :
  ensure_vault pid s = Ok v s' -> s' = s /\ pools (bp s) !! pid = Some (PVault v).
Proof.
  unfold ensure_vault. intros H. mok H. mok H. destruct p; [done|]. mok_prim H. done.
Qed.

Lemma inflight_unload s pid p : inflight s pid p -> pools (bp s) !! pid = Some p -> pools_inv s.
Proof.
  intros [] Hp. split; [done|done|]. intros pid' q Hq. destruct (decide (pid' = pid)) as [->|].
  - by simplify_eq.
  - by apply if_others.
Qed.

(** An operation on the NFTs of one pool, with the pool itself untouched *)
Lemma inv_evolves O s s' pid p :
  pools_inv s -> pools (bp s) !! pid = Some p -> evolves (b_cid (basepool_of p)) O s s' ->
  pool_ok s' (basepool_of p) None (extra_of p) -> pools_inv s'.
Proof.
  intros Hi Hp Hev Hok. apply (inflight_unload s' pid p).
  - eapply inflight_step; [by eapply inflight_load|done|done|done|apply same_kind_refl].
  - by rewrite (framed_pools _ _ (ev_framed _ _ _ _ Hev)).
Qed.

Lemma merge_pool_ok s b e who pid r s' :
  merge_nft_for_staker (b_cid b) who pid s = Ok r s' -> pool_ok s b None e -> ids_ok s ->
  who <> pallet_id -> evolves (b_cid b) (eq who) s s' /\ pool_ok s' b None e.
Proof.
  intros H Hok Hids Hwho. apply merge_nft_Ok in H as (Hev & _ & Hsum & _);
    [|apply Hok|by eapply pool_ok_bound|done].
  split; [done|]. eapply pool_ok_evolves; [done|by intros ->|done|done|done|apply Hok|apply Hok|].
  unfold slack, held. lia.
Qed.

Lemma merge_inv s p pid who pid' r s' :
  merge_nft_for_staker (b_cid (basepool_of p)) who pid' s = Ok r s' -> pools_inv s ->
  pools (bp s) !! pid = Some p -> who <> pallet_id -> pools_inv s'.
Proof.
  intros H Hi Hp Hwho. pose proof (pi_good _ Hi _ _ Hp) as [Hok _ _].
  apply (merge_pool_ok _ _ (extra_of p)) in H as [Hev Hok']; [|done|apply Hi|done].
  by eapply inv_evolves.
Qed.

Lemma inflight_process s pid p b' s' p' :
  inflight s pid p -> try_process_withdraw_queue (basepool_of p) s = Ok b' s' ->
  basepool_of p' = b' -> extra_of p' = extra_of p -> same_kind p p' -> inflight s' pid p'.
Proof.
  intros Hin H <- He Hk. apply (try_process_Ok _ _ _ _ None (extra_of p)) in H as [[] _]; [|apply Hin].
  eapply inflight_step; [done|done| |done|done]. by rewrite He.
Qed.

(** What a signer may be, and what the runtime guarantees of amounts *)
Definition supply_ok s : Prop := forall a v, wpha_maybe_balance (ext s) a = Some v -> v < 2 ^ 127.

Lemma supply_balance s a : supply_ok s -> wpha_balance (ext s) a < 2 ^ 127.
Proof.
  intros Hs. unfold wpha_balance. destruct (wpha_maybe_balance (ext s) a) eqn:E; cbn; [by eapply Hs|done].
Qed.

Lemma inflight_contribute s pid p who amount sh b' s' p' :
  inflight s pid p -> contribute (basepool_of p) who amount s = Ok (sh, b') s' ->
  who <> pallet_id -> 0 <= amount < 2 ^ 127 ->
  basepool_of p' = b' -> extra_of p' = extra_of p -> same_kind p p' -> inflight s' pid p'.
Proof.
  intros Hin H Hw Ha <- He Hk.
  apply (contribute_Ok _ _ _ _ _ _ _ (extra_of p)) in H as (Hev & Hok & _ & Hsp & _);
    [|apply Hin|apply Hin|done|done].
  eapply inflight_step; [done|done| |done|done]. by rewrite He.
Qed.

Lemma inflight_withdraw s pid p who sh av e1 e2 b' s' p' :
  inflight s pid p -> withdraw_from (basepool_of p) who sh av e1 e2 s = Ok b' s' ->
  who <> pallet_id -> basepool_of p' = b' -> extra_of p' = extra_of p -> same_kind p p' -> inflight s' pid p'.
Proof.
  intros Hin H Hw <- He Hk.
  apply (withdraw_from_Ok _ _ _ _ _ _ _ _ _ (extra_of p)) in H as (Hev & Hok & Hsp & _);
    [|apply Hin|apply Hin|done].
  eapply inflight_step; [done|done| |done|done]. by rewrite He.
Qed.

(** [insert_pool] of the pool in flight *)
Lemma insert_inflight s pid p u s' : insert_pool pid p s = Ok u s' -> inflight s pid p -> pools_inv s'.
Proof. unfold insert_pool, mod_bp, modify. intros H Hin. mok_eq H. by apply inflight_store. Qed.

(** The vault a call acts for *)
Lemma acting_as_Ok who av s r s' :
  acting_as who av s = Ok r s' -> pools_inv s -> (av = None -> who <> pallet_id) ->
  s' = s /\ r.1 <> pallet_id /\
  match r.2 with
  | None => av = None
  | Some (vpid, va) => av = Some vpid /\ pools (bp s) !! vpid = Some (PVault va) /\
      r.1 = pool_account_id (v_basepool va)
  end.
Proof.
  unfold acting_as. intros H Hi Hw. destruct av as [vpid|]; [|mok_prim H; naive_solver].
  mok_as H va s1 E. apply ensure_vault_Ok in E as [-> Hva]. mok H. mok H. mok H. mok_prim H.
  split_and!; [done| |done]. pose proof (pi_good _ Hi _ _ Hva) as [_ Hwf _]. apply Hwf.
Qed.
End steps.

#[export] Hint Resolve quiet_event quiet_comp quiet_sp quiet_wb quiet_push quiet_signed quiet_session
  quiet_comp_event quiet_sp_event quiet_wb_event quiet_bp_event quiet_start quiet_stop quiet_reclaim
  quiet_bind quiet_unbind : moves.

(** * The stake pool's calls keep the invariant of the pools *)

Section stake_calls.
Context {X : Type} `{QN : !QueueNotifyConfig X} `{PT : !PalletTopicsUnrouted X} `{CC : !ChainCodec}
  `{RC : !RegConfig} `{BE : !BlockEnv} `{FC : !FixedCrate} `{CF : !CompConfig X} `{PC : !PoolConfig X}
  `{PV : !PoolView X} `{PL : !PoolLaws X} `{FD : !FixedDoc} `{WC : !WrapConfig X} `{SC : !StakeConfig}
  `{PF : !PoolFrame X}.
Implicit Types (s : Storage X) (x : X) (c : CollectionId) (n : NftId) (b : BasePool) (p : PoolProxy).

(** A stake pool loaded, changed outside its base pool and stored again *)
Lemma stake_put_inv s pid q q' :
  pools_inv s -> pools (bp s) !! pid = Some (PStakePool q) -> sp_basepool q' = sp_basepool q ->
  pools_inv (store_pool pid (PStakePool q') s).
Proof.
  intros Hi Hq He. apply inflight_store. eapply inflight_put; [by apply inflight_load| |..]; cbn; rewrite ?He; try done.
  pose proof (pi_good _ Hi _ _ Hq) as [Hok _ _]. apply Hok.
Qed.

Lemma ensure_signed_Ok o s who s' : ensure_signed o s = Ok who s' -> s' = s /\ o = Signed who.
Proof. destruct o; unfold ensure_signed; intros H; mok_prim H; done. Qed.

Lemma transfer_same a a' v s u s' : ext_try (wpha_transfer a a' v) s = Ok u s' -> pools_same s s'.
Proof. intros (x & Hx & ->)%ext_try_Ok. apply pools_same_ext. by apply transfer_spec in Hx as [? _]. Qed.

Lemma pools_same_lookup s s' pid : pools_same s s' -> pools (bp s') !! pid = pools (bp s) !! pid.
Proof. intros (_ & _ & _ & -> & _). done. Qed.

Lemma do_start_inv owner pid w st s u s' :
  do_start_computing owner pid w st s = Ok u s' -> pools_inv s -> pools_inv s'.
Proof.
  unfold do_start_computing, ensure_owner, get_free_stakes. intros H Hi.
  mok_as H q s1 E. apply ensure_stake_pool_Ok in E as [-> Hq].
  mok H. mok_as H f s1 E. mok E. mok_prim E. mok H. mok H.
  mok_as H u1 s1 E. apply (quiet_Ok _ _ _ _ (quiet_start _ _)) in E as Hs1.
  mok_as H u2 s2 E2. apply transfer_same in E2 as Hs2.
  mok_as H u3 s3 E3. unfold insert_stake_pool, insert_pool, mod_bp, modify in E3. mok_eq E3.
  eapply pools_same_inv; [by eapply quiet_Ok; [apply quiet_sp_event|]|].
  assert (pools_same s s2) as Hs by (by etrans).
  apply (stake_put_inv s2 pid q q); [by eapply pools_same_inv|by rewrite (pools_same_lookup _ _ _ Hs)|done].
Qed.

Lemma do_stop_inv owner pid w s u s' :
  do_stop_computing owner pid w s = Ok u s' -> pools_inv s -> pools_inv s'.
Proof.
  unfold do_stop_computing, ensure_owner. intros H Hi.
  mok_as H q s1 E. apply ensure_stake_pool_Ok in E as [-> Hq].
  mok H. mok H. mok H. mok_as H u1 s1 E. apply (quiet_Ok _ _ _ _ (quiet_stop _)) in E as Hs.
  unfold insert_stake_pool, insert_pool, mod_bp, modify in H. mok_eq H.
  apply (stake_put_inv s1 pid q); [by eapply pools_same_inv|by rewrite (pools_same_lookup _ _ _ Hs)|done].
Qed.

Lemma slash_ok s b h e v : pool_ok s b h e -> pool_ok s (slash v b) h e.
Proof.
  intros []. unfold slash. destruct (extract_dust _) as [a d] eqn:Ed.
  apply extract_dust_spec in Ed as (Hsum & _ & Hpos & _). split; try done. cbn.
  pose proof (wrap_range 128 (total_value b - total_value b `min` v) ltac:(lia)) as Hr.
  unfold in_width in *. lia.
Qed.

Lemma slash_frame v b :
  same_pool b (slash v b) /\ total_shares (slash v b) = total_shares b /\
  withdraw_queue (slash v b) = withdraw_queue b.
Proof. unfold slash. by destruct (extract_dust _). Qed.

Lemma handle_reclaim_inv pid o sl s u s' :
  handle_reclaim pid o sl s = Ok u s' -> pools_inv s -> pools_inv s'.
Proof.
  unfold handle_reclaim. intros H Hi. mok_as H q s1 E. apply ensure_stake_pool_Ok in E as [-> Hq].
  pose proof (inflight_load _ _ _ Hi Hq) as Hin.
  mok_as H q1 s1 E.
  assert (inflight s1 pid (PStakePool q1)) as Hin1.
  { destruct (sl =? 0); [by mok_prim E|]. mok_as E u1 s2 E1.
    apply (quiet_Ok _ _ _ _ (quiet_sp_event _)) in E1. mok_prim E.
    apply (pools_same_inflight _ _ _ _ E1) in Hin. pose proof (if_good _ _ _ Hin) as [Hok _ _].
    apply (slash_ok _ _ _ _ sl) in Hok as Hok'.
    destruct (slash_frame sl (sp_basepool q)) as (? & ? & ?).
    eapply inflight_put; [done..|apply Hok'|done]. }
  mok_as H u2 s2 E2. apply transfer_same, pools_same_inflight with (pid := pid) (p := PStakePool q1) in E2; [|done].
  mok_as H b3 s3 E3. eapply insert_inflight; [exact H|].
  eapply (inflight_process s2 _ (PStakePool q1)); [exact E2|exact E3|done..].
Qed.

Lemma do_reclaim_inv pid a w k s r s' :
  do_reclaim pid a w k s = Ok r s' -> pools_inv s -> pools_inv s'.
Proof.
  unfold do_reclaim. intros H Hi. mok_as H r1 s1 E. destruct r1 as [o sl].
  apply (quiet_Ok _ _ _ _ (quiet_reclaim _ _)) in E as Hs1.
  mok_as H u1 s2 E2. apply handle_reclaim_inv in E2; [|by eapply pools_same_inv].
  mok_as H u2 s3 E3. apply (quiet_Ok _ _ _ _ (quiet_sp_event _)) in E3.
  apply (pools_same_inv _ _ E3) in E2.
  mok_as H q s4 E4. apply ensure_stake_pool_Ok in E4 as [-> Hq].
  mok_as H u5 s5 E5. mok_prim H. unfold insert_stake_pool, insert_pool, mod_bp, modify in E5. mok_eq E5.
  by eapply stake_put_inv.
Qed.

Lemma inflight_subscribe s pid q vpid va :
  inflight s pid (PStakePool q) -> pools (bp s) !! vpid = Some (PVault va) ->
  inflight s pid (PStakePool (put_sp_basepool
    (put_value_subscribers (value_subscribers (sp_basepool q) ++ [vpid]) (sp_basepool q)) q)).
Proof.
  intros [] Hva. destruct if_good as [[] [] Hsub]. split; try done. split; [by split|by split|].
  cbn in *. intros v [Hv|Hv]%elem_of_app; [by apply Hsub|].
  apply list_elem_of_singleton in Hv as ->. by eexists.
Qed.

Lemma pool_good_invest s pid va l : pool_good s pid (PVault va) -> pool_good s pid (PVault (put_invest_pools l va)).
Proof. intros [Hok Hwf Hsub]. split; [exact Hok|exact Hwf|exact Hsub]. Qed.

Lemma sp_contribute_inv o pid amount av s u s' :
  sp_contribute o pid amount av s = Ok u s' -> pools_inv s -> supply_ok s ->
  o <> Signed pallet_id -> 0 <= amount -> pools_inv s'.
Proof.
  unfold sp_contribute. intros H%transactional_Ok Hi Hsup Ho Ham.
  mok_as H who s1 E. apply ensure_signed_Ok in E as [-> ->].
  mok_as H r s1 E. apply acting_as_Ok in E as (-> & Hwho & Hr); [|done|congruence]. destruct r as [who' mv].
  cbn [fst snd] in *. mok_as H q s1 E. apply ensure_stake_pool_Ok in E as [-> Hq]. mok H.
  mok_as H free s1 E. assert (s1 = s /\ free < 2 ^ 127) as [-> Hfree].
  { unfold get_free_stakes in E. destruct mv as [[vpid va]|]; mok E; mok_prim E; (split; [done|]);
      by apply supply_balance. }
  clear E. mok H. b2p. mok_as H r s1 E. destruct r as [sh b1].
  pose proof (inflight_load _ _ _ Hi Hq) as Hin.
  pose proof E as (_ & _ & _ & Hsp1 & _)%(contribute_Ok _ _ _ _ _ _ _ 0); [|apply Hin|apply Hin|done|lia].
  assert (pools (bp s1) = pools (bp s)) as Hps.
  { apply (contribute_Ok _ _ _ _ _ _ _ 0) in E as (Hev & _); [|apply Hin|apply Hin|done|lia].
    apply framed_pools, Hev. }
  apply (inflight_contribute _ pid (PStakePool q) _ _ _ _ _ (PStakePool (put_sp_basepool b1 q))) in E as Hin1;
    [|done|done|lia|done..].
  mok_as H b2 s2 E2.
  assert (inflight s2 pid (PStakePool (put_sp_basepool b2 q))) as Hin2.
  { destruct mv as [[vpid va]|]; [|by mok_prim E2]. destruct Hr as (-> & Hva & ->). mok_as E2 u2 s3 E3.
    unfold insert_pool, mod_bp, modify in E3. mok_eq E3. mok_prim E2.
    assert (vpid <> pid) as Hne by congruence. rewrite <- Hps in Hva.
    pose proof (if_others _ _ _ Hin1 vpid _ Hne Hva) as Hgood.
    set (va' := if bool_decide _ then va else _).
    assert (inflight (store_pool vpid (PVault va') s1) pid (PStakePool (put_sp_basepool b1 q))) as Hin3.
    { apply inflight_store_other; [done|done| |by eexists].
      subst va'. clear H. case_bool_decide; [done|by apply pool_good_invest]. }
    destruct (bool_decide (vpid ∈ value_subscribers b1)); [exact Hin3|].
    eapply (inflight_subscribe _ _ (put_sp_basepool b1 q)); [exact Hin3|]. cbn. by rewrite lookup_insert_eq. }
  clear E2 Hr. mok_as H b3 s3 E3.
  pose proof (inflight_process _ _ _ _ _ (PStakePool (put_sp_basepool b3 q)) Hin2 E3 eq_refl eq_refl I) as Hin3.
  mok_as H u4 s4 E4. assert (s4 = s3) as ->.
  { destruct (cap _); [mok_prim E4|mok_prim E4]; done. }
  mok_as H u5 s5 E5. unfold insert_stake_pool, insert_pool, mod_bp, modify in E5. mok_eq E5.
  apply inflight_store in Hin3 as Hi5. mok_as H r6 s6 E6.
  apply (merge_inv _ (PStakePool (put_sp_basepool b3 q)) pid) in E6;
    [|done|cbn; by rewrite lookup_insert_eq|done].
  mok_as H u7 s7 E7. assert (pools_same s6 s7) as Hs7.
  { destruct av; [by mok_prim E7|]. eapply quiet_Ok; [|done]. unfold maybe_subscribe_to_pool, put_staker.
    moves. }
  eapply pools_same_inv; [by eapply quiet_Ok; [apply quiet_sp_event|]|]. by eapply pools_same_inv.
Qed.
End stake_calls.
