(* ===== verification/PoolStakeCalls.v ===== *)
(** * The other calls and the callbacks of the stake pool keep the invariant *)

From S2P Require Import Prelude MqTypes Storage MqPallet PalletMsg FixedPoint Registry Computation PoolExt BasePool WrappedBalances StakePoolV2 VaultPool PoolNfts PoolShares PoolQueue PoolProcess PoolInv PoolSteps.

(** Goes back from the invariant of a state to that of a state before it. *)
Ltac inv_back :=
  repeat match goal with
  | H : pools_same ?s ?s' |- pools_inv ?s' => apply (pools_same_inv _ _ H); clear H
  | H : pools_same ?s ?s' |- inflight ?s' _ _ => apply (pools_same_inflight _ _ _ _ H); clear H
  end; try done.

Section stake_calls.
Context {X : Type} `{QN : !QueueNotifyConfig X} `{PT : !PalletTopicsUnrouted X} `{CC : !ChainCodec}
  `{RC : !RegConfig} `{BE : !BlockEnv} `{FC : !FixedCrate} `{CF : !CompConfig X} `{PC : !PoolConfig X}
  `{PV : !PoolView X} `{PL : !PoolLaws X} `{FD : !FixedDoc} `{WC : !WrapConfig X} `{SC : !StakeConfig}
  `{PF : !PoolFrame X}.
Implicit Types (s : Storage X) (x : X) (c : CollectionId) (n : NftId) (b : BasePool) (p : PoolProxy).

Abbreviation quiet := (moves (E := DispatchError) (pools_same (X := X))).
Abbreviation safe := (ok_moves (E := DispatchError) (inv_kept (X := X))).

Lemma quiet_transfer a a' v : quiet (ext_try (wpha_transfer a a' v)).
Proof.
  intros s. unfold ext_try, modify. mred. destruct (wpha_transfer a a' v (ext s)) as [x|] eqn:E; [|done].
  apply pools_same_ext. by apply transfer_spec in E as [? _].
Qed.

(** A pool loaded in [s], other parts of the storage changed, the pool stored *)
Lemma stake_put_same s s1 pid q q' u s2 :
  pools_inv s -> pools (bp s) !! pid = Some (PStakePool q) -> pools_same s s1 ->
  sp_basepool q' = sp_basepool q -> insert_stake_pool pid q' s1 = Ok u s2 -> pools_inv s2.
Proof.
  intros Hi Hq Hs He H. unfold insert_stake_pool, insert_pool, mod_bp, modify in H. mok_eq H.
  apply (stake_put_inv s1 pid q); [by eapply pools_same_inv|by rewrite (pools_same_lookup _ _ _ Hs)|done].
Qed.

Lemma safe_start o pid w st : safe (sp_start_computing o pid w st).
Proof.
  unfold sp_start_computing. intros s u s' H Hi. mok_as H a s1 E. apply ensure_signed_Ok in E as [-> _].
  by eapply do_start_inv.
Qed.
Lemma safe_do_stop a pid w : safe (do_stop_computing a pid w).
Proof. intros s u s' H Hi. by eapply do_stop_inv. Qed.
Lemma safe_stop o pid w : safe (sp_stop_computing o pid w).
Proof.
  unfold sp_stop_computing. intros s u s' H Hi. mok_as H a s1 E. apply ensure_signed_Ok in E as [-> _].
  by eapply do_stop_inv.
Qed.
Lemma safe_reclaim o pid w : safe (reclaim_pool_worker o pid w).
Proof.
  unfold reclaim_pool_worker. intros s u s' H Hi. mok_as H a s1 E. apply ensure_signed_Ok in E as [-> _].
  mok_as H q s1 E. apply ensure_stake_pool_Ok in E as [-> Hq]. mok_as H r s1 E. mok_prim H.
  by eapply do_reclaim_inv.
Qed.

Lemma safe_restart o pid w st : safe (restart_computing o pid w st).
Proof.
  unfold restart_computing. intros s u s' H%transactional_Ok Hi.
  mok_as H a s1 E. apply ensure_signed_Ok in E as [-> _].
  mok_as H q s1 E. apply ensure_stake_pool_Ok in E as [-> Hq]. mok H.
  mok_as H u1 s1 E. apply do_stop_inv in E; [|done]. mok_as H r s2 E2. apply do_reclaim_inv in E2; [|done].
  destruct r as [o1 sl]. mok H. by eapply do_start_inv.
Qed.

Lemma safe_set_cap o pid v : safe (set_cap o pid v).
Proof.
  unfold set_cap, ensure_owner. intros s u s' H Hi. mok_as H a s1 E. apply ensure_signed_Ok in E as [-> _].
  mok_as H q s1 E. apply ensure_stake_pool_Ok in E as [-> Hq]. mok H. mok H. mok_as H u1 s1 E.
  eapply pools_same_inv; [by eapply quiet_Ok; [apply quiet_sp_event|]|]. eapply (stake_put_same s s); [done|exact Hq|done| |exact E]; done.
Qed.

Lemma safe_sp_payout o pid v : safe (sp_set_payout_pref o pid v).
Proof.
  unfold sp_set_payout_pref, ensure_owner. intros s u s' H Hi. mok_as H a s1 E. apply ensure_signed_Ok in E as [-> _].
  mok_as H q s1 E. apply ensure_stake_pool_Ok in E as [-> Hq]. mok H. mok_as H u1 s1 E.
  eapply pools_same_inv; [by eapply quiet_Ok; [apply quiet_sp_event|]|]. eapply (stake_put_same s s); [done|exact Hq|done| |exact E]; done.
Qed.

Lemma safe_add_worker o pid w : safe (add_worker o pid w).
Proof.
  unfold add_worker, ensure_owner. intros s u s' H Hi. mok_as H a s1 E. apply ensure_signed_Ok in E as [-> _].
  mok H. mok H. mok H. mok H. mok_as H q s1 E. apply ensure_stake_pool_Ok in E as [-> Hq]. mok H. mok H. mok H.
  mok_as H u1 s1 E. apply or_err_Ok, (quiet_Ok _ _ _ _ (quiet_bind _ _)) in E as Hs1.
  mok_as H u2 s2 E2. apply (quiet_Ok _ _ _ _ (quiet_sp _)) in E2 as Hs2.
  mok_as H u3 s3 E3. eapply (stake_put_same s s2) in E3; [|done|exact Hq|etrans; eassumption|done].
  mok_as H u4 s4 E4. apply (quiet_Ok _ _ _ _ (quiet_sp _)) in E4.
  apply (quiet_Ok _ _ _ _ (quiet_sp_event _)) in H.
  inv_back.
Qed.

Lemma safe_remove_from_pool w : safe (remove_worker_from_pool w).
Proof.
  unfold remove_worker_from_pool. intros s u s' H Hi. mok H. mok H.
  mok_as H u1 s1 E. apply (quiet_Ok _ _ _ _ (quiet_sp _)) in E as Hs1.
  apply (pools_same_inv _ _ Hs1) in Hi. mok H.
  destruct (pools (bp s1) !! z) as [[q|v]|] eqn:Hq; [|by mok_prim H..].
  mok_as H u3 s3 E3. eapply (stake_put_same s1 s1) in E3; [|done|done|done|done].
  eapply pools_same_inv; [by eapply quiet_Ok; [apply quiet_sp_event|]|done].
Qed.

Lemma safe_remove_worker o pid w : safe (remove_worker o pid w).
Proof.
  unfold remove_worker, ensure_owner. intros s u s' H Hi. mok_as H a s1 E. apply ensure_signed_Ok in E as [-> _].
  mok_as H q s1 E. apply ensure_stake_pool_Ok in E as [-> Hq]. mok H. mok H. mok H. mok H. mok H. mok H. mok H.
  mok_as H u1 s9 E9. apply (quiet_Ok _ _ _ _ (quiet_unbind _)) in E9 as Hs1.
  eapply safe_remove_from_pool; [done|]. by eapply pools_same_inv.
Qed.

Lemma subsidy_same a v s u s' : withdraw_subsidy_pool a v s = Ok u s' -> pools_same s s'.
Proof. intros (x & -> & Hx)%pf_transfer. by apply pools_same_ext. Qed.

Lemma safe_claim_legacy o pid a : safe (claim_legacy_rewards o pid a).
Proof.
  unfold claim_legacy_rewards. intros s u s' H%transactional_Ok Hi.
  mok_as H w s1 E. apply ensure_signed_Ok in E as [-> _]. mok H. mok H.
  mok_as H u1 s1 E. apply (quiet_Ok _ _ _ _ (quiet_sp _)) in E as Hs1.
  apply or_err_Ok, subsidy_same in H. inv_back.
Qed.

Lemma safe_claim_owner_rewards o pid a : safe (claim_owner_rewards o pid a).
Proof.
  unfold claim_owner_rewards, ensure_owner, get_owner_stakes. intros s u s' H Hi.
  mok_as H w s1 E. apply ensure_signed_Ok in E as [-> _].
  mok_as H q s1 E. apply ensure_stake_pool_Ok in E as [-> Hq]. mok H.
  mok_as H r s1 E. mok E. mok_prim E. mok H. mok_as H u1 s2 E2. apply transfer_same in E2.
  apply (quiet_Ok _ _ _ _ (quiet_sp_event _)) in H.
  inv_back.
Qed.
(** ** Creating a pool *)

Definition new_basepool (pid : Z) (owner : Account) c : BasePool :=
  mkBasePool pid owner 0 0 [] [] c (generate_staker_account pid owner).

Lemma staker_account_fresh pid owner : generate_staker_account pid owner <> pallet_id.
Proof.
  unfold generate_staker_account, pallet_id. intros H.
  apply (decode_account_head (bs "bp/") (bs "bas") _ (bs "epool")) in H; done.
Qed.

(** The state after the creation: the new pool, its collection and nothing else *)
Record created s (pid : Z) c p (x : X) s' : Prop := {
  cr_ext : ext s' = x;
  cr_pools : pools (bp s') = <[ pid := p ]> (pools (bp s));
  cr_colls : pool_collections (bp s') = <[ c := pid ]> (pool_collections (bp s));
  cr_count : pool_count (bp s') = pid + 1;
  cr_ids : next_nft_ids (bp s') = next_nft_ids (bp s);
  cr_locks : nft_locks (bp s') = nft_locks (bp s);
}.

Lemma created_good s pid c p x s' sym pid' q :
  created s pid c p x s' -> rmrk_create_collection pallet_id c sym (ext s) = Some x ->
  pool_count (bp s) = pid -> pools (bp s) !! pid = None -> pool_good s pid' q -> pool_good s' pid' q.
Proof.
  intros [] (Hfresh & Hn & _ & His & Hpr)%create_collection_spec Hk Hnone [Hok [] Hsub].
  assert (b_cid (basepool_of q) <> c) as Hc by congruence.
  assert (forall c n, attr_of x c n = attr_of (ext s) c n) as Ha by (intros; unfold attr_of; by rewrite Hpr).
  split.
  - destruct Hok. split; try done.
    + intros n w. rewrite cr_ext0, cr_ids0, Hn, Ha. apply po_coll.
    + unfold slack, held in *. rewrite cr_ext0, (nft_shares_ext (ext s) x) by done. done.
    + intros w Hw. rewrite cr_ext0, Hn. by apply po_queue.
  - split; rewrite ?cr_colls0, ?cr_count0, ?cr_ext0; try done; [by rewrite lookup_insert_ne|..|lia].
    rewrite His. by rewrite decide_False.
  - destruct q; [|done]. cbn in *. intros v Hv. destruct (Hsub v Hv) as [va Hva].
    exists va. rewrite cr_pools0, lookup_insert_ne; [done|congruence].
Qed.

Lemma created_inv s pid c p x s' sym owner :
  created s pid c p x s' -> rmrk_create_collection pallet_id c sym (ext s) = Some x ->
  pools_inv s -> pool_count (bp s) = pid -> basepool_of p = new_basepool pid owner c -> extra_of p = 0 ->
  pools_inv s'.
Proof.
  intros Hcr Hx Hi Hk Hb He.
  assert (pools (bp s) !! pid = None) as Hnone.
  { destruct (pools (bp s) !! pid) as [q|] eqn:Hq; [|done].
    pose proof (wf_count _ _ _ (pg_wf _ _ _ (pi_good _ Hi _ _ Hq))). lia. }
  split.
  - intros c'. rewrite (cr_ids _ _ _ _ _ _ Hcr). apply Hi.
  - rewrite (cr_locks _ _ _ _ _ _ Hcr). apply Hi.
  - intros pid' q Hq. rewrite (cr_pools _ _ _ _ _ _ Hcr) in Hq.
    apply lookup_insert_Some in Hq as [[<- <-]|[Hne Hq]]; [|by eapply created_good, (pi_good _ Hi)].
    pose proof Hx as (Hfresh & Hn & _ & His & _)%create_collection_spec. destruct Hcr.
    assert (forall n, nfts (ext s') !! (c, n) = None) as Hempty.
    { intros n. rewrite cr_ext0, Hn. destruct (nfts (ext s) !! (c, n)) eqn:E; [|done].
      apply nft_collection in E as [? E]. congruence. }
    assert (coll_ok s' c) as Hc by (intros n w Hw; by rewrite Hempty in Hw).
    assert (nft_shares (ext s') c = 0) as Hz.
    { apply msum_zero. intros [c' n] w Hw. cbn. destruct (Z.eqb_spec c' c) as [->|]; [|done].
      by rewrite Hempty in Hw. }
    split; rewrite ?Hb, ?He.
    + split; try done; cbn; unfold slack, held; cbn; rewrite ?Hz; try done; try by constructor. by intros w ?%elem_of_nil.
    + split; cbn; rewrite ?cr_colls0, ?cr_count0, ?cr_ext0; [done|by rewrite lookup_insert_eq| | |lia].
      * rewrite His. by rewrite decide_True.
      * apply staker_account_fresh.
    + destruct p; cbn in *; rewrite Hb; [by intros v ?%elem_of_nil|done].
Qed.

Lemma sp_create_inv o s u s' :
  sp_create o s = Ok u s' -> pools_inv s -> 0 <= pool_count (bp s) < 2 ^ 64 - 1 -> pools_inv s'.
Proof.
  unfold sp_create, consume_new_pid, consume_new_cid. intros H%transactional_Ok Hi Hk.
  mok_as H owner s1 E. apply ensure_signed_Ok in E as [-> _].
  mok_as H pid s1 E. mok E. mok E. mok_prim E.
  mok_as H cid s1 E. mok E. mok E. mok_prim E. mok H.
  mok_as H u1 s1 E. apply ext_try_Ok in E as (x & Hx & ->).
  destruct (generate_owner_and_lock_account _ _) as [oa la].
  mok_as H u2 s2 E. unfold insert_stake_pool, insert_pool in E. mok_prim E. mok H.
  unfold sp_event in H. mok_prim H. cbn in Hx.
  eapply (created_inv s); [split; cbn; [done|done|done| |done|done]|exact Hx|done..].
  apply wrap_small. unfold in_width. lia.
Qed.
End stake_calls.

(** * Withdrawals and rewards of stake pools keep the invariant *)

Section rewards.
Context {X : Type} `{QN : !QueueNotifyConfig X} `{PT : !PalletTopicsUnrouted X} `{CC : !ChainCodec}
  `{RC : !RegConfig} `{BE : !BlockEnv} `{FC : !FixedCrate} `{CF : !CompConfig X} `{PC : !PoolConfig X}
  `{PV : !PoolView X} `{PL : !PoolLaws X} `{FD : !FixedDoc} `{WC : !WrapConfig X} `{SC : !StakeConfig}
  `{PF : !PoolFrame X}.
Implicit Types (s : Storage X) (x : X) (c : CollectionId) (n : NftId) (b : BasePool) (p : PoolProxy).

Abbreviation safe := (ok_moves (E := DispatchError) (inv_kept (X := X))).

Lemma sp_withdraw_inv o pid sh av s u s' :
  sp_withdraw o pid sh av s = Ok u s' -> pools_inv s -> (av = None -> o <> Signed pallet_id) ->
  pools_inv s' /\ forall v va, pools (bp s) !! v = Some (PVault va) -> pools (bp s') !! v = Some (PVault va).
Proof.
  unfold sp_withdraw. intros H%transactional_Ok Hi Ho.
  mok_as H who s1 E. apply ensure_signed_Ok in E as [-> ->].
  mok_as H r s1 E. apply acting_as_Ok in E as (-> & Hwho & _); [|done|naive_solver]. destruct r as [who' mv].
  mok_as H q s1 E. apply ensure_stake_pool_Ok in E as [-> Hq].
  mok_as H b s1 E. pose proof (inflight_load _ _ _ Hi Hq) as Hin. split.
  - eapply insert_inflight; [exact H|]. by eapply (inflight_withdraw s pid (PStakePool q)).
  - unfold insert_stake_pool, insert_pool in H. mok_prim H. intros v va Hv. cbn.
    apply (withdraw_from_Ok _ _ _ _ _ _ _ _ _ 0) in E as (Hev & _); [|apply Hin|apply Hin|done].
    rewrite (framed_pools _ _ (ev_framed _ _ _ _ Hev)). rewrite lookup_insert_ne; [done|congruence].
Qed.

(** ** Reading the queue *)

Lemma read_same c n s a s' : read_nft c n s = Ok a s' -> s' = s.
Proof. by intros (_ & _ & ->)%read_nft_Ok. Qed.

Lemma expired_same c price now g mv l : forall budget s r s',
  expired_from c price now g mv l budget s = Ok r s' -> s' = s.
Proof.
  induction l as [|w l IH]; cbn; intros budget s r s' H; [by mok_prim H|].
  case_match; [by mok_prim H|]. mok_as H nft s1 E. apply read_same in E as ->. mok H.
  case_match; [by mok_prim H|]. by eapply IH.
Qed.

Lemma has_expired_same b now g mv v s r s' : has_expired_withdrawal b now g mv v s = Ok r s' -> s' = s.
Proof.
  unfold has_expired_withdrawal, get_free_stakes. intros H. mok H. case_match; [|by mok_prim H].
  case_match; [by mok_prim H|]. mok_as H f s1 E. mok E. mok_prim E. by apply expired_same in H.
Qed.

Lemma safe_sp_force o pid : safe (sp_check_and_maybe_force_withdraw o pid).
Proof.
  unfold sp_check_and_maybe_force_withdraw. intros s u s' H%transactional_Ok Hi.
  mok_as H a s1 E. apply ensure_signed_Ok in E as [-> _].
  mok_as H q s1 E. apply ensure_stake_pool_Ok in E as [-> Hq].
  mok_as H b s1 E. mok H. mok H. mok_as H u2 s2 E2. apply insert_inflight in E2.
  2:{ eapply (inflight_process s pid (PStakePool q)); [by apply inflight_load|exact E|done..]. }
  mok_as H r s3 E3. apply has_expired_same in E3 as ->. destruct r; [|by mok_prim H].
  revert H E2. apply (ok_moves_for_each inv_kept). intros w. ok_moves; try apply safe_do_stop.
Qed.

(** ** Distribution *)

Lemma add_queued_same c l : forall acc s r s', add_queued c l acc s = Ok r s' -> s' = s.
Proof.
  induction l as [|w l IH]; cbn; intros acc s r s' H; [by mok_prim H|].
  mok_as H nft s1 E. apply read_same in E as ->. mok H. by eapply IH.
Qed.

Definition credit (rewards : Balance) b : BasePool := put_total_value (total_value b +[128] rewards) b.

(** A vault has no subscribers: the recursion stops there. *)
Lemma distribute_leaf fuel b rewards s b' s' :
  distribute_reward_ fuel b rewards s = Ok b' s' -> value_subscribers b = [] ->
  s' = s /\ b' = credit rewards b.
Proof.
  destruct fuel; cbn [distribute_reward_]; intros H Hl; [done|]. cbn in H. rewrite Hl in H.
  mok H. cbn in E. by mok_prim E; mok_prim H.
Qed.

Lemma pool_ok_credit s b h e rewards : pool_ok s b h e -> pool_ok s (credit rewards b) h e.
Proof. intros []. split; try done. cbn. apply wrap_range. lia. Qed.

Lemma inflight_credit s pid p rewards p' :
  inflight s pid p -> basepool_of p' = credit rewards (basepool_of p) -> extra_of p' = extra_of p ->
  same_kind p p' -> inflight s pid p'.
Proof.
  intros Hin Hb He Hk. eapply inflight_step; [done|apply (evolves_refl _ (fun _ => False))| |by rewrite Hb|done].
  rewrite Hb, He. apply pool_ok_credit, Hin.
Qed.

Lemma vault_credit_good s pid va rewards :
  pool_good s pid (PVault va) -> pool_good s pid (PVault (put_v_basepool (credit rewards (v_basepool va)) va)).
Proof. intros [Hok [] Hsub]. split; [by apply pool_ok_credit|by split|done]. Qed.

(** The vault of a subscriber while the stake pool is in flight *)
Lemma inflight_vault s pid q v va :
  inflight s pid (PStakePool q) -> pools (bp s) !! v = Some (PVault va) ->
  v <> pid /\ pool_good s v (PVault va).
Proof.
  intros [] Hva. assert (v <> pid) as Hne.
  { intros ->. destruct if_stored as (r & Hr & Hk). rewrite Hva in Hr. by simplify_eq. }
  split; [done|]. by apply if_others.
Qed.

Lemma inflight_merge s pid p who pid' r s' :
  inflight s pid p -> merge_nft_for_staker (b_cid (basepool_of p)) who pid' s = Ok r s' ->
  who <> pallet_id -> inflight s' pid p /\ pools (bp s') = pools (bp s).
Proof.
  intros Hin H Hwho. apply (merge_pool_ok _ _ (extra_of p)) in H as [Hev Hok]; [|apply Hin..|done].
  split; [|apply framed_pools, Hev].
  eapply inflight_step; [done|done|done|done|apply same_kind_refl].
Qed.

Lemma distribute_reward_Ok fuel pid q rewards s b' s' :
  distribute_reward_ fuel (sp_basepool q) rewards s = Ok b' s' -> inflight s pid (PStakePool q) ->
  inflight s' pid (PStakePool (put_sp_basepool b' q)).
Proof.
  destruct fuel as [|fuel]; cbn [distribute_reward_]; [done|]. fold (credit rewards (sp_basepool q)).
  set (b := credit rewards (sp_basepool q)). intros H Hin.
  apply (inflight_credit _ _ _ rewards (PStakePool (put_sp_basepool b q))) in Hin; [|done..].
  mok_as H u s1 E. mok_prim H.
  pose (R := fun s s' => inflight s pid (PStakePool (put_sp_basepool b q)) ->
    inflight s' pid (PStakePool (put_sp_basepool b q))).
  assert (PreOrder R) as HR by (split; unfold R, Reflexive, Transitive; auto).
  refine (ok_moves_for_each R _ _ _ _ _ _ E Hin).
  clear dependent s. clear s1. intros v s u2 s' H Hin. mok_as H va s1 E. apply ensure_vault_Ok in E as [-> Hva].
  destruct (inflight_vault _ _ _ _ _ Hin Hva) as [Hne Hgood].
  mok_as H r s1 E. apply (inflight_merge _ _ _ _ _ _ _ Hin) in E as [Hin1 Hp1]; [|apply Hgood].
  rewrite <- Hp1 in Hva. clear Hgood. destruct (inflight_vault _ _ _ _ _ Hin1 Hva) as [_ Hgood].
  destruct r as [n|]; [|by mok_prim H]. mok_as H nft s2 E2. apply read_same in E2 as ->. mok H.
  mok_as H vs s3 E3. apply add_queued_same in E3 as ->. mok H.
  case_match; [|by mok_prim H]. mok H. mok H. mok H.
  mok_as H b4 s4 E4. apply distribute_leaf in E4 as [-> ->]; [|apply Hgood].
  unfold insert_pool in H. mok_prim H. apply inflight_store_other; [done|done|by apply vault_credit_good|by eexists].
Qed.

Lemma mint_into_same a v s r s' : mint_into a v s = Ok r s' -> pools_same s s'.
Proof.
  unfold mint_into. intros H. mok H. destruct (wpha_mint_into a v (ext s)) as [x| |] eqn:E; [|mok H|done].
  - mok H. mok_prim H. apply pools_same_ext. by apply mint_into_spec in E as [? _].
  - mok_prim H. eapply quiet_Ok; [apply quiet_wb|done].
Qed.

Lemma pool_new_reward_Ok pid q rewards s q' s' :
  handle_pool_new_reward q rewards s = Ok q' s' -> inflight s pid (PStakePool q) ->
  inflight s' pid (PStakePool q').
Proof.
  unfold handle_pool_new_reward. intros H Hin.
  case_match; [by mok_prim H|]. case_match; [|case_match].
  { mok_as H u s1 E. mok_prim H. apply (quiet_Ok _ _ _ _ (quiet_sp_event _)) in E. inv_back. }
  { mok_as H u s1 E. mok_prim H. apply (quiet_Ok _ _ _ _ (quiet_sp_event _)) in E. inv_back. }
  mok_as H u1 s1 E1. apply subsidy_same in E1. mok_as H om s2 E2. apply mint_into_same in E2.
  mok_as H u3 s3 E3. assert (pools_same s2 s3) as Hs3.
  { destruct om; [by mok_prim E3|]. by eapply quiet_Ok; [apply quiet_sp_event|]. }
  mok_as H m s4 E4. apply mint_into_same in E4.
  assert (inflight s4 pid (PStakePool q)) as Hin4 by inv_back.
  mok_as H r s5 E5. destruct r as [d q5].
  assert (inflight s5 pid (PStakePool q5)) as Hin5.
  { clear H. case_match; [|case_match].
    - mok_as E5 b s6 E6. mok_prim E5. by eapply distribute_reward_Ok.
    - mok_as E5 u6 s6 E6. mok_prim E5. apply (quiet_Ok _ _ _ _ (quiet_sp_event _)) in E6. inv_back.
    - by mok_prim E5. }
  mok_as H u6 s6 E6. mok_prim H. case_match; [|by mok_prim E6].
  apply (quiet_Ok _ _ _ _ (quiet_sp_event _)) in E6. inv_back.
Qed.

Lemma safe_on_reward l : safe (sp_on_reward l).
Proof.
  unfold sp_on_reward. apply ok_moves_for_each; [apply _|]. intros i s u s' H Hi. mok H. mok H.
  case_match; [|by apply (quiet_Ok _ _ _ _ (quiet_sp_event _)) in H; inv_back].
  mok_as H q s1 E. apply ensure_stake_pool_Ok in E as [-> Hq].
  mok_as H q1 s1 E. eapply insert_inflight; [exact H|].
  eapply pool_new_reward_Ok; [done|by apply inflight_load].
Qed.

Lemma safe_on_unbound w k : safe (sp_on_unbound w k).
Proof. apply safe_remove_from_pool. Qed.
End rewards.

(** * The vault's calls keep the invariant of the pools *)

Section vault_calls.
Context {X : Type} `{QN : !QueueNotifyConfig X} `{PT : !PalletTopicsUnrouted X} `{CC : !ChainCodec}
  `{RC : !RegConfig} `{BE : !BlockEnv} `{FC : !FixedCrate} `{CF : !CompConfig X} `{PC : !PoolConfig X}
  `{PV : !PoolView X} `{PL : !PoolLaws X} `{FD : !FixedDoc} `{WC : !WrapConfig X} `{SC : !StakeConfig}
  `{PF : !PoolFrame X}.
Implicit Types (s : Storage X) (x : X) (c : CollectionId) (n : NftId) (b : BasePool) (p : PoolProxy).

Abbreviation quiet := (moves (E := DispatchError) (pools_same (X := X))).
Abbreviation safe := (ok_moves (E := DispatchError) (inv_kept (X := X))).

Lemma quiet_vt_event e : quiet (vt_event e).
Proof. apply quiet_event. Qed.
Lemma quiet_subscribe who pid c : quiet (maybe_subscribe_to_pool who pid c).
Proof. unfold maybe_subscribe_to_pool, put_staker. moves. Qed.

(** A vault loaded, changed outside its shares and its base pool, and stored *)
Lemma vault_put_same s s1 pid v v' u s2 :
  pools_inv s -> pools (bp s) !! pid = Some (PVault v) -> pools_same s s1 ->
  v_basepool v' = v_basepool v -> owner_shares v' = owner_shares v ->
  insert_vault pid v' s1 = Ok u s2 -> pools_inv s2.
Proof.
  intros Hi Hv Hs Hb Ho H. eapply insert_inflight; [exact H|].
  apply (pools_same_inflight _ _ _ _ Hs). eapply (inflight_put _ _ (PVault v)); cbn; rewrite ?Hb; try done.
  - by apply inflight_load.
  - pose proof (pi_good _ Hi _ _ Hv) as [Hok _ _]. apply Hok.
Qed.

(** ** Owner shares *)

(** The shares issued keep the pool's total at what the settled value is worth. *)
Lemma owner_share_terms_bounds v cur sh price :
  owner_share_terms v cur = Some (sh, price) -> u128 (total_value (v_basepool v)) ->
  0 <= sh /\ (sh = 0 \/ total_shares (v_basepool v) + sh < 2 ^ 80).
Proof.
  unfold owner_share_terms. intros H Hv.
  destruct (to_fixed _) as [f|]; [|done]. cbn in H.
  destruct (bdiv _ _) as [m|] eqn:Em; [|done]. apply bdiv_range in Em; [|done].
  cbn in H. simplify_eq. destruct (checked_sub m _) as [d|] eqn:Ed; cbn; [|lia].
  apply checked_sub_Some in Ed as [? ->]. lia.
Qed.

Lemma inflight_gain s pid v sh price :
  inflight s pid (PVault v) -> 0 <= sh -> sh = 0 \/ total_shares (v_basepool v) + sh < 2 ^ 80 ->
  inflight s pid (PVault (put_last_share_price_checkpoint price
    (put_owner_shares (owner_shares v +[128] sh)
      (put_v_basepool (put_total_shares (total_shares (v_basepool v) +[128] sh) (v_basepool v)) v)))).
Proof.
  intros Hin Hsh Hlt. pose proof (if_good _ _ _ Hin) as [Hok _ _].
  eapply inflight_step; [done|apply (evolves_refl _ (fun _ => False))| |done|done].
  pose proof (slack_le _ _ _ _ Hok) as Hle. cbn in Hok. destruct Hok. cbn in *.
  unfold in_width in *.
  assert (owner_shares v +[128] sh = owner_shares v + sh) as -> by (apply wrap_small; unfold in_width; lia).
  assert (total_shares (v_basepool v) +[128] sh = total_shares (v_basepool v) + sh) as ->
    by (apply wrap_small; unfold in_width; lia).
  split; unfold slack, held, in_width in *; cbn; try done; lia.
Qed.

Lemma safe_gain pid : safe (do_gain_owner_share pid).
Proof.
  unfold do_gain_owner_share. intros s u s' H Hi.
  mok_as H v s1 E. apply ensure_vault_Ok in E as [-> Hv]. mok H.
  case_match; [|by mok_prim H]. mok H. case_match; [|case_match; [by mok_prim H|]].
  - eapply (vault_put_same s s pid v); [done|done|done| | |exact H]; done.
  - mok H. case_match. mok_as H u1 s1 E.
    pose proof (inflight_load _ _ _ Hi Hv) as Hin.
    match goal with Ht : owner_share_terms _ _ = Some _ |- _ =>
      apply owner_share_terms_bounds in Ht as [? ?]; [|apply Hin] end.
    apply insert_inflight in E; [|by apply (inflight_gain s pid v)].
    apply (quiet_Ok _ _ _ _ (quiet_vt_event _)) in H. inv_back.
Qed.

Lemma safe_maybe_gain o pid : safe (maybe_gain_owner_shares o pid).
Proof.
  unfold maybe_gain_owner_shares. intros s u s' H Hi.
  mok_as H who s1 E. apply ensure_signed_Ok in E as [-> _].
  mok_as H v s1 E. apply ensure_vault_Ok in E as [-> Hv]. mok H. by eapply safe_gain.
Qed.

Lemma safe_vt_payout o pid pay : safe (vt_set_payout_pref o pid pay).
Proof.
  unfold vt_set_payout_pref. intros s u s' H Hi.
  mok_as H who s1 E. apply ensure_signed_Ok in E as [-> _].
  mok_as H v s1 E. apply ensure_vault_Ok in E as [-> Hv]. mok H. mok H.
  mok_as H u1 s1 E. apply safe_maybe_gain in E; specialize (E Hi).
  mok_as H v2 s2 E2. apply ensure_vault_Ok in E2 as [-> Hv2].
  mok_as H u3 s3 E3. eapply (vault_put_same s1 s1 pid v2) in E3; [|done|done|done|done|done].
  apply (quiet_Ok _ _ _ _ (quiet_vt_event _)) in H. inv_back.
Qed.

(** Shares the owner claims leave the unclaimed ones for an NFT. *)
Lemma claim_owner_shares_inv o pid target sh s u s' :
  claim_owner_shares o pid target sh s = Ok u s' -> pools_inv s -> target <> pallet_id -> pools_inv s'.
Proof.
  unfold claim_owner_shares. intros H Hi Ht.
  mok_as H who s1 E. apply ensure_signed_Ok in E as [-> _].
  mok_as H v s1 E. apply ensure_vault_Ok in E as [-> Hv]. mok H. mok H. mok H. b2p.
  pose proof (inflight_load _ _ _ Hi Hv) as Hin. pose proof (if_good _ _ _ Hin) as [Hok _ _].
  pose proof (slack_le _ _ _ _ Hok) as Hle. pose proof (po_shares_range _ _ _ _ Hok) as Hr.
  pose proof (po_covered _ _ _ _ Hok) as Hcov. cbn in Hle, Hr, Hcov. unfold in_width in Hr.
  mok_as H n s1 E. apply mint_nft_Ok in E as (x & -> & Hm & Hn & _).
  set (v' := put_owner_shares (owner_shares v -[128] sh) v) in *.
  set (s1 := after_mint _ _ _ _ _) in *.
  assert (owner_shares v' = owner_shares v - sh) as Ho by (apply wrap_small; unfold in_width; lia).
  assert (evolves (b_cid (v_basepool v)) (eq target) s s1) as Hev.
  { apply (evolves_mint _ _ _ _ target sh); [done|done|rewrite Hn; apply (pi_ids _ Hi)|unfold in_width; lia]. }
  assert (inflight s1 pid (PVault v')) as Hin1.
  { eapply inflight_step; [done|exact Hev| |done|done]. cbn [extra_of basepool_of]. rewrite Ho.
    assert (slack s1 (v_basepool v') None = slack s (v_basepool v) None - sh) as Hsl.
    { unfold slack, held. cbn. rewrite (nft_shares_minted _ _ _ _ _ _ (b_cid (v_basepool v)) Hm), Z.eqb_refl. lia. }
    destruct Hok. split; try done; [by apply Hev|lia|rewrite Hsl; lia|].
    intros w Hw. apply (ev_same _ _ _ _ Hev _ _ _ (po_queue w Hw)). right. right. cbn. congruence. }
  mok_as H r s2 E2. apply (inflight_merge _ _ _ _ _ _ _ Hin1) in E2 as [Hin2 _]; [|done].
  mok_as H u3 s3 E3. apply (quiet_Ok _ _ _ _ (quiet_subscribe _ _ _)) in E3.
  mok_as H u4 s4 E4. apply insert_inflight in E4; [|by eapply pools_same_inflight].
  apply (quiet_Ok _ _ _ _ (quiet_vt_event _)) in H. inv_back.
Qed.

(** ** Creation, contribution, withdrawal *)

Lemma vt_create_inv o s u s' :
  vt_create o s = Ok u s' -> pools_inv s -> 0 <= pool_count (bp s) < 2 ^ 64 - 1 -> pools_inv s'.
Proof.
  unfold vt_create, consume_new_pid, consume_new_cid. intros H%transactional_Ok Hi Hk.
  mok_as H owner s1 E. apply ensure_signed_Ok in E as [-> _].
  mok_as H pid s1 E. mok E. mok E. mok_prim E.
  mok_as H cid s1 E. mok E. mok E. mok_prim E. mok H.
  mok_as H u1 s1 E. apply ext_try_Ok in E as (x & Hx & ->).
  mok_as H u2 s2 E. unfold insert_vault, insert_pool in E. mok_prim E. mok H.
  unfold vt_event in H. mok_prim H. cbn in Hx.
  eapply (created_inv s); [split; cbn; [done|done|done| |done|done]|exact Hx|done..].
  apply wrap_small. unfold in_width. lia.
Qed.

Lemma vt_contribute_inv o pid amount s u s' :
  vt_contribute o pid amount s = Ok u s' -> pools_inv s -> supply_ok s ->
  o <> Signed pallet_id -> 0 <= amount -> pools_inv s'.
Proof.
  unfold vt_contribute. intros H%transactional_Ok Hi Hsup Ho Ha.
  mok_as H who s1 E. apply ensure_signed_Ok in E as [-> ->]. mok H. mok H. mok H. mok H. b2p.
  match goal with Hm : wpha_maybe_balance _ _ = Some _ |- _ => apply Hsup in Hm end.
  mok_as H u1 s1 E. apply safe_gain in E; specialize (E Hi).
  mok_as H v s2 E2. apply ensure_vault_Ok in E2 as [-> Hv].
  mok_as H r s2 E2. destruct r as [sh b2].
  pose proof (inflight_load _ _ _ E Hv) as Hin.
  apply (inflight_contribute _ pid (PVault v) _ _ _ _ _ (PVault (put_v_basepool b2 v))) in E2;
    [|done|congruence|lia|done..].
  mok_as H b3 s3 E3.
  pose proof (inflight_process _ _ _ _ _ (PVault (put_v_basepool b3 v)) E2 E3 eq_refl eq_refl I) as Hin3.
  mok_as H u4 s4 E4. unfold insert_vault, insert_pool in E4. mok_prim E4.
  apply inflight_store in Hin3. mok_as H r5 s5 E5.
  apply (merge_inv _ (PVault (put_v_basepool b3 v)) pid) in E5; [|done|cbn; by rewrite lookup_insert_eq|congruence].
  mok_as H u6 s6 E6. apply (quiet_Ok _ _ _ _ (quiet_subscribe _ _ _)) in E6.
  apply (quiet_Ok _ _ _ _ (quiet_vt_event _)) in H. inv_back.
Qed.

Lemma vt_withdraw_inv o pid sh s u s' :
  vt_withdraw o pid sh s = Ok u s' -> pools_inv s -> o <> Signed pallet_id -> pools_inv s'.
Proof.
  unfold vt_withdraw. intros H%transactional_Ok Hi Ho.
  mok_as H who s1 E. apply ensure_signed_Ok in E as [-> ->].
  mok_as H u1 s1 E. apply safe_gain in E; specialize (E Hi).
  mok_as H v s2 E2. apply ensure_vault_Ok in E2 as [-> Hv].
  mok_as H b s2 E2. eapply insert_inflight; [exact H|].
  eapply (inflight_withdraw s1 pid (PVault v)); [by apply inflight_load|exact E2|congruence|done..].
Qed.
End vault_calls.
