(* ===== verification/PoolForce.v ===== *)
(** * Forced withdrawals of vaults, and the calls of wrapped balances and the
      base pool, keep the invariant *)

From S2P Require Import Prelude MqTypes Storage MqPallet PalletMsg FixedPoint Registry Computation PoolExt BasePool WrappedBalances StakePoolV2 VaultPool PoolNfts PoolShares PoolQueue PoolProcess PoolInv PoolSteps PoolStakeCalls.

Section force.
Context {X : Type} `{QN : !QueueNotifyConfig X} `{PT : !PalletTopicsUnrouted X} `{CC : !ChainCodec}
  `{RC : !RegConfig} `{BE : !BlockEnv} `{FC : !FixedCrate} `{CF : !CompConfig X} `{PC : !PoolConfig X}
  `{PV : !PoolView X} `{PL : !PoolLaws X} `{FD : !FixedDoc} `{WC : !WrapConfig X} `{SC : !StakeConfig}
  `{PF : !PoolFrame X}.
Implicit Types (s : Storage X) (x : X) (c : CollectionId) (n : NftId) (b : BasePool) (p : PoolProxy).

Abbreviation quiet := (moves (E := DispatchError) (pools_same (X := X))).
Abbreviation safe := (ok_moves (E := DispatchError) (inv_kept (X := X))).

(** ** Guards taken to read *)

Lemma guard_drop_lock c n s u s' :
  (c, n) ∉ nft_locks (bp s) -> guard_drop c n (lock_nft c n s) = Ok u s' -> s' = s.
Proof. intros Hn H. unfold guard_drop in H. mok_prim H. by apply unlock_lock. Qed.

Lemma releasing_in_same b l : forall acc s r s', releasing_in b l acc s = Ok r s' -> s' = s.
Proof.
  induction l as [|w l IH]; cbn; intros acc s r s' H; [by mok_prim H|].
  mok_as H nft s1 E. apply get_nft_attr_guard_Ok in E as (_ & Hn & ->). mok H. mok H. mok H.
  mok_as H u s2 E. apply guard_drop_lock in E as ->; [|done]. by eapply IH.
Qed.
Lemma releasing_upstream_same a l : forall acc s r s', releasing_upstream a l acc s = Ok r s' -> s' = s.
Proof.
  induction l as [|w l IH]; cbn; intros acc s r s' H; [by mok_prim H|].
  mok_as H q s1 E. apply ensure_stake_pool_Ok in E as [-> _].
  mok_as H acc1 s1 E. apply releasing_in_same in E as ->. by eapply IH.
Qed.
Lemma shutdown_reason_same v s r s' : shutdown_reason v s = Ok r s' -> s' = s.
Proof.
  unfold shutdown_reason. intros H. case_match; [by mok_prim H|].
  mok_as H f s1 E. apply releasing_upstream_same in E as ->.
  mok_as H k s1 E. apply has_expired_same in E as ->. by mok_prim H.
Qed.
Lemma queued_shares_same c l : forall acc s r s', queued_shares c l acc s = Ok r s' -> s' = s.
Proof.
  induction l as [|w l IH]; cbn; intros acc s r s' H; [by mok_prim H|].
  mok_as H nft s1 E. apply read_same in E as ->. by eapply IH.
Qed.

(** The pallet cannot burn an NFT it does not own: the dust stays. *)
Lemma burn_ignored_same c n w s u s' :
  burn_nft_ignored pallet_id c n s = Ok u s' -> nfts (ext s) !! (c, n) = Some w -> nft_owner w <> pallet_id ->
  s' = s.
Proof.
  unfold burn_nft_ignored. intros H Hw Ho. destruct (burn_nft pallet_id c n s) as [a s1|e s1|] eqn:E; [| |done].
  - apply burn_nft_Ok in E as (x & _ & [(w' & Hw' & Hp) _ _]). congruence.
  - unfold burn_nft, transactional in E. case_match; simplify_eq. done.
Qed.

(** ** One upstream pool *)

(** The invariant, with the vault [va] stored at [vpid] *)
Definition with_vault (vpid : Z) (va : Vault) s : Prop :=
  pools_inv s /\ pools (bp s) !! vpid = Some (PVault va).

Lemma force_from_Ok vpid va account owner pid s r s' :
  force_withdraw_from vpid account owner pid s = Ok r s' -> account <> pallet_id ->
  with_vault vpid va s -> with_vault vpid va s'.
Proof.
  unfold force_withdraw_from. intros H Ha [Hi Hva].
  mok_as H q s1 E. apply ensure_stake_pool_Ok in E as [-> Hq].
  mok_as H t s1 E. apply queued_shares_same in E as ->.
  pose proof (inflight_load _ _ _ Hi Hq) as Hin. pose proof (if_good _ _ _ Hin) as [Hok _ _].
  mok_as H r1 s1 E. pose proof E as (_ & _ & _ & Hown)%merge_nft_Ok;
    [|apply (po_coll _ _ _ _ Hok)|by apply (pool_ok_bound _ _ _ Hok)|apply (pi_ids _ Hi)].
  pose proof (merge_inv _ (PStakePool q) _ _ _ _ _ E Hi Hq Ha) as Hi1.
  apply (inflight_merge _ _ _ _ _ _ _ Hin) in E as [_ Hp]; [|done]. rewrite <- Hp in Hva.
  mok_as H r2 s2 E2. assert (s2 = s1) as ->.
  { clear H. destruct r1 as [n|]; [|by mok_prim E2]. destruct (Hown n eq_refl) as (w & Hw & Hwo).
    mok_as E2 nft s3 E3. apply get_nft_attr_guard_Ok in E3 as (_ & Hn & ->).
    mok_as E2 r3 s3 E3. assert (s3 = lock_nft (b_cid (sp_basepool q)) n s1) as ->.
    { case_match; [|by mok_prim E3]. mok_as E3 u4 s4 E4. mok_prim E3.
      eapply burn_ignored_same; [exact E4|exact Hw|congruence]. }
    mok_as E2 u4 s4 E4. mok_prim E2. by eapply guard_drop_lock. }
  destruct r2 as [[] t2]; cbn [negb] in H; [|mok_prim H; by split]. mok_as H u3 s3 E3. mok_prim H.
  apply sp_withdraw_inv in E3 as [Hi3 Hv3]; [|done|done]. split; [done|by apply Hv3].
Qed.

Lemma force_all_Ok vpid va account owner l : forall gone s r s',
  force_withdraw_all vpid account owner l gone s = Ok r s' -> account <> pallet_id ->
  with_vault vpid va s -> with_vault vpid va s'.
Proof.
  induction l as [|pid l IH]; cbn; intros gone s r s' H Ha Hv; [by mok_prim H|].
  mok_as H k s1 E. eapply force_from_Ok in E; [|done|done]. by eapply IH.
Qed.

Lemma safe_vt_force o pid : safe (vt_check_and_maybe_force_withdraw o pid).
Proof.
  unfold vt_check_and_maybe_force_withdraw. intros s u s' H%transactional_Ok Hi.
  mok_as H a s1 E. apply ensure_signed_Ok in E as [-> _].
  mok_as H v s1 E. apply ensure_vault_Ok in E as [-> Hv].
  mok_as H b s1 E. set (v1 := put_v_basepool b v) in *.
  pose proof (inflight_process _ _ _ _ _ (PVault v1) (inflight_load _ _ _ Hi Hv) E eq_refl eq_refl I) as Hin.
  mok_as H u2 s2 E2. assert (pools_same s1 s2) as Hs2.
  { destruct (withdraw_queue b); mok_prim E2; by apply pools_same_bp. }
  apply (pools_same_inflight _ _ _ _ Hs2) in Hin. clear E2.
  mok_as H u3 s3 E3. unfold insert_vault, insert_pool in E3. mok_prim E3.
  assert (with_vault pid v1 (store_pool pid (PVault v1) s2)) as Hv3.
  { split; [by apply inflight_store|]. cbn. by rewrite lookup_insert_eq. }
  mok H. case_match; [mok_prim H; apply Hv3|].
  mok_as H r s4 E4. apply shutdown_reason_same in E4 as ->. destruct r as [reason|]; [|mok_prim H; apply Hv3].
  mok_as H gone s4 E4.
  apply (force_all_Ok _ v1) in E4 as [Hi4 Hv4]; [|apply (wf_account _ _ _ (pg_wf _ _ _ (if_good _ _ _ Hin)))|exact Hv3].
  mok_as H u5 s5 E5. assert (pools_inv s5) as Hi5.
  { destruct gone; [by mok_prim E5|]. eapply (vault_put_same s4 s4); [done|exact Hv4|done| | |exact E5]; done. }
  mok_as H u6 s6 E6. apply (quiet_Ok _ _ _ _ (quiet_vt_event _)) in H.
  apply (pools_same_inv _ _ H), (pools_same_inv s5); [|done]. by cbn.
Qed.
End force.

(** * The calls of wrapped balances and of the base pool keep the invariant *)

Section wrap.
Context {X : Type} `{QN : !QueueNotifyConfig X} `{PT : !PalletTopicsUnrouted X} `{CC : !ChainCodec}
  `{RC : !RegConfig} `{BE : !BlockEnv} `{FC : !FixedCrate} `{CF : !CompConfig X} `{PC : !PoolConfig X}
  `{PV : !PoolView X} `{PL : !PoolLaws X} `{FD : !FixedDoc} `{WC : !WrapConfig X} `{SC : !StakeConfig}
  `{PF : !PoolFrame X}.
Implicit Types (s : Storage X) (x : X) (c : CollectionId) (n : NftId) (b : BasePool) (p : PoolProxy).

(** Runs that succeed and see nothing of a pool *)
Abbreviation still := (ok_moves (E := DispatchError) (pools_same (X := X))).

Lemma still_quiet {A} (m : H X A) : moves pools_same m -> still m.
Proof. apply moves_ok. Qed.
Lemma still_id {A} (m : H X A) : (forall s a s', m s = Ok a s' -> s' = s) -> still m.
Proof. intros Hm s a s' E. by rewrite (Hm _ _ _ E). Qed.

Lemma still_ext_try f : (forall x x', f x = Some x' -> same_nfts x x') -> still (ext_try f).
Proof. intros Hf s u s' (x & Hx & ->)%ext_try_Ok. apply pools_same_ext. by apply Hf. Qed.
Lemma still_mint a v : still (mint_into a v).
Proof. intros s r s'. apply mint_into_same. Qed.
Lemma still_burn a v : still (burn_from a v).
Proof.
  unfold burn_from. intros s u s' H. mok H. mok H. mok_prim H. apply pools_same_ext.
  destruct p as [d x]. by apply burn_from_spec in Ho.
Qed.
Lemma still_subsidy a v : still (withdraw_subsidy_pool a v).
Proof. intros s u s'. apply subsidy_same. Qed.
Lemma still_or_err {A} (m : H X A) e : still m -> still (or_err m e).
Proof. intros Hm s a s' E%or_err_Ok. by eapply Hm. Qed.

(** The net value only reads, though it takes guards. *)
Lemma value_of_nfts_same pid c l : forall acc s r s', value_of_nfts pid c l acc s = Ok r s' -> s' = s.
Proof.
  induction l as [|n l IH]; cbn; intros acc s r s' H; [by mok_prim H|].
  mok_as H nft s1 E. apply get_nft_attr_guard_Ok in E as (_ & Hn & ->). mok H. mok H. mok H.
  mok_as H acc2 s2 E. assert (s2 = lock_nft c n s) as ->.
  { clear H. case_match; [mok E|]; by mok_prim E. }
  mok_as H u s3 E3. apply guard_drop_lock in E3 as ->; [|done]. by eapply IH.
Qed.
Lemma value_of_pools_same a l : forall acc s r s', value_of_pools a l acc s = Ok r s' -> s' = s.
Proof.
  induction l as [|[pid c] l IH]; cbn; intros acc s r s' H; [by mok_prim H|]. mok H.
  mok_as H acc1 s1 E. apply value_of_nfts_same in E as ->. by eapply IH.
Qed.
Lemma still_net_value a : still (get_net_value a).
Proof.
  apply still_id. unfold get_net_value. intros s r s' H. mok H. case_match; [|by mok_prim H].
  by eapply value_of_pools_same.
Qed.

Lemma quiet_update_locked a : moves (E := DispatchError) pools_same (update_user_locked (X := X) a).
Proof. unfold update_user_locked, put_staker. moves. Qed.
Lemma quiet_put_vote i a e : moves (E := DispatchError) pools_same (put_vote (X := X) i a e).
Proof. apply quiet_wb. Qed.
Lemma quiet_set_voted a f : moves (E := DispatchError) pools_same (set_voted (X := X) a f).
Proof. apply quiet_wb. Qed.
Lemma quiet_put_staker a f : moves (E := DispatchError) pools_same (put_staker (X := X) a f).
Proof. apply quiet_wb. Qed.

Hint Resolve quiet_update_locked quiet_put_vote quiet_set_voted quiet_put_staker : moves.
Hint Resolve still_mint still_burn still_net_value still_subsidy still_or_err : ok_moves.

Lemma still_wrap o v : still (wrap_pha o v).
Proof. unfold wrap_pha. ok_moves. apply still_ext_try. apply pf_keep_alive. Qed.
Lemma still_unwrap_all o : still (unwrap_all o).
Proof. unfold unwrap_all. ok_moves. apply still_ext_try. apply pf_allow_death. Qed.
Lemma still_unwrap o v : still (unwrap o v).
Proof. unfold unwrap. ok_moves. apply still_ext_try. apply pf_allow_death. Qed.
Lemma still_vote o y z i : still (vote o y z i).
Proof. unfold vote. ok_moves. apply still_ext_try. apply pf_vote. Qed.
Lemma still_unlock o i k : still (unlock o i k).
Proof. unfold unlock. ok_moves. Qed.

(** ** The base pool's own calls *)

Lemma quiet_bp_other f :
  (forall st, pools (f st) = pools st /\ pool_collections (f st) = pool_collections st /\
    pool_count (f st) = pool_count st /\ next_nft_ids (f st) = next_nft_ids st /\ nft_locks (f st) = nft_locks st) ->
  moves (E := DispatchError) pools_same (mod_bp (X := X) f).
Proof. intros Hf. apply moves_modify. intros s. destruct (Hf (bp s)) as (?&?&?&?&?). by split_and!. Qed.
Lemma quiet_put_whitelist pid l : moves (E := DispatchError) pools_same (put_whitelist (X := X) pid l).
Proof. by apply quiet_bp_other. Qed.
Lemma quiet_pool_owner o pid : moves (E := DispatchError) pools_same (ensure_pool_owner (X := X) o pid).
Proof. unfold ensure_pool_owner. moves. Qed.
Hint Resolve quiet_put_whitelist quiet_pool_owner : moves.

Lemma still_wl_add o pid a : still (add_staker_to_whitelist o pid a).
Proof. unfold add_staker_to_whitelist. ok_moves. Qed.
Lemma still_wl_remove o pid a : still (remove_staker_from_whitelist o pid a).
Proof. unfold remove_staker_from_whitelist. ok_moves. apply moves_ok. by apply quiet_bp_other. Qed.
Lemma still_description o pid d : still (set_pool_description o pid d).
Proof. unfold set_pool_description. ok_moves. apply moves_ok. by apply quiet_bp_other. Qed.
Lemma still_claim_reimbursement o pid a : still (claim_reimbursement o pid a).
Proof. unfold claim_reimbursement. ok_moves. apply moves_ok. by apply quiet_bp_other. Qed.
Lemma still_set_reimbursements o l k : still (set_reimbursements o l k).
Proof. unfold set_reimbursements, ensure_migration_root. ok_moves. apply moves_ok. by apply quiet_bp_other. Qed.
End wrap.
