(* ===== verification/PoolSystem.v ===== *)
(** * All calls of the pools

    The calls of the base pool, the stake pool, the vault and wrapped
    balances, and the callbacks of the stake pool, as one step relation. A call
    that returns an error is rolled back by the runtime and is no step. Between
    two calls the rest of the chain may do anything that leaves the pools'
    storage and the NFTs alone. *)

From S2P Require Import Prelude MqTypes Storage MqPallet PalletMsg FixedPoint Registry Computation PoolExt BasePool WrappedBalances StakePoolV2 VaultPool PoolNfts PoolShares PoolQueue PoolProcess PoolInv PoolSteps PoolStakeCalls PoolForce.

Create HintDb pools discriminated.

Inductive pool_op :=
  | SpCreate (o : Origin)
  | SpAddWorker (o : Origin) (pid : Z) (w : WorkerPublicKey)
  | SpRemoveWorker (o : Origin) (pid : Z) (w : WorkerPublicKey)
  | SpSetCap (o : Origin) (pid : Z) (cap : Balance)
  | SpSetPayout (o : Origin) (pid : Z) (payout : option Permill)
  | SpClaimLegacy (o : Origin) (pid : Z) (target : Account)
  | SpClaimOwner (o : Origin) (pid : Z) (target : Account)
  | SpForceWithdraw (o : Origin) (pid : Z)
  | SpContribute (o : Origin) (pid : Z) (amount : Balance) (as_vault : option Z)
  | SpWithdraw (o : Origin) (pid : Z) (sh : Balance) (as_vault : option Z)
  | SpStart (o : Origin) (pid : Z) (w : WorkerPublicKey) (stake : Balance)
  | SpStop (o : Origin) (pid : Z) (w : WorkerPublicKey)
  | SpReclaim (o : Origin) (pid : Z) (w : WorkerPublicKey)
  | SpRestart (o : Origin) (pid : Z) (w : WorkerPublicKey) (stake : Balance)
  | SpOnReward (settle : list SettleInfo)
  | SpOnUnbound (w : WorkerPublicKey) (force : bool)
  | VtCreate (o : Origin)
  | VtSetPayout (o : Origin) (pid : Z) (payout : option Permill)
  | VtGain (o : Origin) (pid : Z)
  | VtClaimShares (o : Origin) (pid : Z) (target : Account) (sh : Balance)
  | VtForceWithdraw (o : Origin) (pid : Z)
  | VtContribute (o : Origin) (pid : Z) (amount : Balance)
  | VtWithdraw (o : Origin) (pid : Z) (sh : Balance)
  | WbWrap (o : Origin) (amount : Balance)
  | WbUnwrapAll (o : Origin)
  | WbUnwrap (o : Origin) (amount : Balance)
  | WbVote (o : Origin) (aye nay : Balance) (vote_id : Z)
  | WbUnlock (o : Origin) (vote_id iterations : Z)
  | BpAddWhitelist (o : Origin) (pid : Z) (staker : Account)
  | BpRemoveWhitelist (o : Origin) (pid : Z) (staker : Account)
  | BpDescription (o : Origin) (pid : Z) (description : bytes)
  | BpClaimReimbursement (o : Origin) (pid : Z) (target : Account)
  | BpSetReimbursements (o : Origin) (input : list (Account * Z * Balance)) (add : bool).

Section system.
Context {X : Type} `{QN : !QueueNotifyConfig X} `{CC : !ChainCodec}
  `{RC : !RegConfig} `{FC : !FixedCrate} `{CF : !CompConfig X} `{PC : !PoolConfig X}
  `{WC : !WrapConfig X} `{SC : !StakeConfig}.

Definition pool_exec {BE : BlockEnv} (op : pool_op) : H X unit :=
  match op with
  | SpCreate o => sp_create o
  | SpAddWorker o pid w => add_worker o pid w
  | SpRemoveWorker o pid w => remove_worker o pid w
  | SpSetCap o pid v => set_cap o pid v
  | SpSetPayout o pid v => sp_set_payout_pref o pid v
  | SpClaimLegacy o pid a => claim_legacy_rewards o pid a
  | SpClaimOwner o pid a => claim_owner_rewards o pid a
  | SpForceWithdraw o pid => sp_check_and_maybe_force_withdraw o pid
  | SpContribute o pid v av => sp_contribute o pid v av
  | SpWithdraw o pid sh av => sp_withdraw o pid sh av
  | SpStart o pid w st => sp_start_computing o pid w st
  | SpStop o pid w => sp_stop_computing o pid w
  | SpReclaim o pid w => reclaim_pool_worker o pid w
  | SpRestart o pid w st => restart_computing o pid w st
  | SpOnReward l => sp_on_reward l
  | SpOnUnbound w k => sp_on_unbound w k
  | VtCreate o => vt_create o
  | VtSetPayout o pid v => vt_set_payout_pref o pid v
  | VtGain o pid => maybe_gain_owner_shares o pid
  | VtClaimShares o pid a sh => claim_owner_shares o pid a sh
  | VtForceWithdraw o pid => vt_check_and_maybe_force_withdraw o pid
  | VtContribute o pid v => vt_contribute o pid v
  | VtWithdraw o pid sh => vt_withdraw o pid sh
  | WbWrap o v => wrap_pha o v
  | WbUnwrapAll o => unwrap_all o
  | WbUnwrap o v => unwrap o v
  | WbVote o y z i => vote o y z i
  | WbUnlock o i k => unlock o i k
  | BpAddWhitelist o pid a => add_staker_to_whitelist o pid a
  | BpRemoveWhitelist o pid a => remove_staker_from_whitelist o pid a
  | BpDescription o pid d => set_pool_description o pid d
  | BpClaimReimbursement o pid a => claim_reimbursement o pid a
  | BpSetReimbursements o l k => set_reimbursements o l k
  end.

(** Nobody signs for the pallet's account; amounts are unsigned; the W-PHA
    supply is below half of [u128]; fewer than 2^64 pools are created. *)
Definition op_ok (s : Storage X) (op : pool_op) : Prop :=
  match op with
  | SpCreate _ | VtCreate _ => 0 <= pool_count (bp s) < 2 ^ 64 - 1
  | SpContribute o _ v _ | VtContribute o _ v => o <> Signed pallet_id /\ 0 <= v /\ supply_ok s
  | SpWithdraw o _ _ _ | VtWithdraw o _ _ => o <> Signed pallet_id
  | VtClaimShares _ _ target _ => target <> pallet_id
  | _ => True
  end.

Inductive pool_step `{PV : !PoolView X} (s s' : Storage X) : Prop :=
  | step_call (BE : BlockEnv) op : op_ok s op -> pool_exec op s = Ok tt s' -> pool_step s s'
  | step_other : bp s' = bp s -> same_nfts (ext s) (ext s') -> pool_step s s'.
End system.

Section preservation.
Context {X : Type} `{QN : !QueueNotifyConfig X} `{PT : !PalletTopicsUnrouted X} `{CC : !ChainCodec}
  `{RC : !RegConfig} `{FC : !FixedCrate} `{CF : !CompConfig X} `{PC : !PoolConfig X}
  `{PV : !PoolView X} `{PL : !PoolLaws X} `{FD : !FixedDoc} `{WC : !WrapConfig X} `{SC : !StakeConfig}
  `{PF : !PoolFrame X}.
Implicit Types s : Storage X.

Lemma still_safe {A} (m : H X A) : ok_moves pools_same m -> ok_moves inv_kept m.
Proof. intros Hm s a s' H Hi. eapply pools_same_inv; [by eapply Hm|done]. Qed.

Lemma inv_kept_run {A} (m : H X A) s a s' : ok_moves inv_kept m -> m s = Ok a s' -> pools_inv s -> pools_inv s'.
Proof. intros Hm H. by apply Hm in H. Qed.

Hint Resolve safe_start safe_stop safe_reclaim safe_restart safe_set_cap safe_sp_payout safe_add_worker
  safe_remove_worker safe_claim_legacy safe_claim_owner_rewards safe_sp_force safe_on_reward safe_on_unbound
  safe_maybe_gain safe_vt_payout safe_vt_force : pools.
Hint Resolve still_safe still_wrap still_unwrap_all still_unwrap still_vote still_unlock still_wl_add
  still_wl_remove still_description still_claim_reimbursement still_set_reimbursements : pools.

Lemma pool_exec_inv {BE : BlockEnv} op s s' :
  pool_exec op s = Ok tt s' -> op_ok s op -> pools_inv s -> pools_inv s'.
Proof.
  intros H Hop Hi.
  destruct op; cbn in H, Hop; try (solve [eapply inv_kept_run; [|exact H|exact Hi]; eauto with pools]).
  - by eapply sp_create_inv.
  - destruct Hop as (?&?&?). by eapply sp_contribute_inv.
  - by eapply sp_withdraw_inv.
  - by eapply vt_create_inv.
  - by eapply claim_owner_shares_inv.
  - destruct Hop as (?&?&?). by eapply vt_contribute_inv.
  - by eapply vt_withdraw_inv.
Qed.

Lemma pool_step_inv s s' : pools_inv s -> pool_step s s' -> pools_inv s'.
Proof.
  intros Hi [BE op Hop H|Hb Hn].
  - by eapply pool_exec_inv.
  - eapply pools_same_inv; [|done]. apply pools_same_bp; [apply Hn| |exact (proj1 (proj2 Hn))|done].
    intros. by apply same_nfts_attr.
Qed.

(** A chain without pools *)
Definition no_pools s : Prop := pools (bp s) = ∅ /\ next_nft_ids (bp s) = ∅ /\ nft_locks (bp s) = ∅.

Lemma no_pools_inv s : no_pools s -> pools_inv s.
Proof.
  intros (Hp & Hn & Hl). split; [|done|].
  - intros c. by rewrite Hn, lookup_empty.
  - intros pid p. by rewrite Hp, lookup_empty.
Qed.

(** What the shares of a pool's users add up to *)
Definition shares_covered s : Prop := forall pid p, pools (bp s) !! pid = Some p ->
  0 <= extra_of p /\
  nft_shares (ext s) (b_cid (basepool_of p)) + extra_of p <= total_shares (basepool_of p) < 2 ^ 128.

(** Each queued request has the NFT of the pallet it stands for, no two the same. *)
Definition queues_backed s : Prop := forall pid p, pools (bp s) !! pid = Some p ->
  NoDup (wd_user <$> withdraw_queue (basepool_of p)) /\ NoDup (wd_nft_id <$> withdraw_queue (basepool_of p)) /\
  forall w, w ∈ withdraw_queue (basepool_of p) ->
    nfts (ext s) !! (b_cid (basepool_of p), wd_nft_id w) = Some (mkNft pallet_id false).

Lemma inv_shares_covered s : pools_inv s -> shares_covered s.
Proof.
  intros Hi pid p Hp. destruct (pg_ok _ _ _ (pi_good _ Hi _ _ Hp)). unfold slack, held, in_width in *. lia.
Qed.
Lemma inv_queues_backed s : pools_inv s -> queues_backed s.
Proof. intros Hi pid p Hp. by destruct (pg_ok _ _ _ (pi_good _ Hi _ _ Hp)). Qed.
Lemma inv_collections s : pools_inv s -> forall pid pid' p p',
  pools (bp s) !! pid = Some p -> pools (bp s) !! pid' = Some p' ->
  b_cid (basepool_of p) = b_cid (basepool_of p') -> pid = pid'.
Proof.
  intros Hi pid pid' p p' Hp Hp' Hc.
  pose proof (wf_coll _ _ _ (pg_wf _ _ _ (pi_good _ Hi _ _ Hp))).
  pose proof (wf_coll _ _ _ (pg_wf _ _ _ (pi_good _ Hi _ _ Hp'))). congruence.
Qed.

(** C3: along every history of calls of the pools, from a chain without
    pools, in which no vault owner claims shares for the account of the pallet
    (see [claim_to_pallet_orphans_queue]), nobody signs for that account, fewer
    than 2^64 pools are created and balances of W-PHA are below 2^127 when
    somebody contributes: no pool's NFTs hold more shares than the pool counts (with the
    unclaimed shares of a vault's owner on top), every queued withdrawal is
    backed by an NFT the pallet owns, no user and no NFT is queued twice in one
    pool, two pools never share an NFT collection, and no NFT guard is left. *)
Theorem pools_invariant s0 s :
  no_pools s0 -> rtc pool_step s0 s ->
  shares_covered s /\ queues_backed s /\ nft_locks (bp s) = ∅ /\
  (forall pid pid' p p', pools (bp s) !! pid = Some p -> pools (bp s) !! pid' = Some p' ->
     b_cid (basepool_of p) = b_cid (basepool_of p') -> pid = pid').
Proof.
  intros H0 Hr.
  assert (pools_inv s) as Hi by (eapply rtc_invariant; [apply pool_step_inv|done|by apply no_pools_inv]).
  split_and!; [by apply inv_shares_covered|by apply inv_queues_backed|apply Hi|by apply inv_collections].
Qed.
End preservation.
