(* ===== verification/PoolLedger.v ===== *)
(** * The pools on top of the computation pallet

    The stake pool's callbacks satisfy the interface the computation pallet
    was verified against ([CompFrame]), and every call of the pools, whatever
    it returns, is a sequence of steps of the computation pallet's session
    ledger. *)

From S2P Require Import Prelude MqTypes Storage MqPallet PalletMsg FixedPoint Registry Computation CompLedger CompRefine PoolExt BasePool WrappedBalances StakePoolV2 VaultPool PoolNfts PoolShares PoolSystem.

(** The currency leaves the storage of the computation pallet and the registry alone. *)
Class CurrencyFrame (X : Type) `{CF : !CompConfig X} : Prop := {
  cf_withdraw : forall a b, frames (currency_withdraw a b);
  cf_transfer : forall a b v, frames (currency_transfer a b v);
  cf_treasury : forall i, frames (on_treasury_settled i);
}.

Section frames.
Context {X : Type} `{BE : !BlockEnv} `{FC : !FixedCrate} `{CF : !CompConfig X} `{PC : !PoolConfig X}
  `{WC : !WrapConfig X} `{SC : !StakeConfig} `{CRF : !CurrencyFrame X}.

Definition apart (s s' : Storage X) : Prop := comp s' = comp s /\ reg s' = reg s /\ mq s' = mq s.
#[global] Instance apart_preorder : PreOrder apart.
Proof. split; unfold apart; [done|]. intros s1 s2 s3 (? & ? & ?) (? & ? & ?). split_and!; congruence. Qed.

Abbreviation aside := (moves (E := DispatchError) apart).

Lemma aside_frames {A} (m : H X A) : aside m -> frames m.
Proof. done. Qed.

Lemma aside_modify f : (forall s : Storage X, apart s (f s)) -> aside (modify f).
Proof. apply moves_modify. Qed.
Lemma aside_mod_bp f : aside (mod_bp f).
Proof. by apply aside_modify. Qed.
Lemma aside_mod_sp f : aside (mod_sp f).
Proof. by apply aside_modify. Qed.
Lemma aside_mod_wb f : aside (mod_wb f).
Proof. by apply aside_modify. Qed.
Lemma aside_deposit e : aside (deposit_event e).
Proof. by apply aside_modify. Qed.
Lemma aside_bp_event e : aside (bp_event e).
Proof. by apply aside_modify. Qed.
Lemma aside_sp_event e : aside (sp_event e).
Proof. by apply aside_modify. Qed.
Lemma aside_vt_event e : aside (vt_event e).
Proof. by apply aside_modify. Qed.
Lemma aside_wb_event e : aside (wb_event e).
Proof. by apply aside_modify. Qed.
Lemma aside_ext_upd f : aside (ext_upd f).
Proof. by apply aside_modify. Qed.
Lemma aside_put_ext x : aside (modify (put_ext x)).
Proof. by apply aside_modify. Qed.
Lemma aside_signed o : aside (ensure_signed o).
Proof. destruct o; apply moves_pure; try apply _; done. Qed.
Lemma aside_vault_locks f : aside (modify (fun s => put_vault_locks (f s) s)).
Proof. by apply aside_modify. Qed.
Lemma aside_subsidy a v : aside (withdraw_subsidy_pool a v).
Proof. apply cf_transfer. Qed.

Hint Resolve aside_mod_bp aside_mod_sp aside_mod_wb aside_deposit aside_bp_event aside_sp_event aside_vt_event
  aside_wb_event aside_ext_upd aside_put_ext aside_signed aside_subsidy : moves.

Lemma aside_ext_try f : aside (ext_try f).
Proof. unfold ext_try. moves. Qed.
Lemma aside_stake_pool pid : aside (ensure_stake_pool pid).
Proof. unfold ensure_stake_pool. moves. Qed.
Lemma aside_vault pid : aside (ensure_vault pid).
Proof. unfold ensure_vault. moves. Qed.
Lemma aside_min : aside min_balance.
Proof. unfold min_balance. moves. Qed.
Lemma aside_free b : aside (get_free_stakes b).
Proof. unfold get_free_stakes. moves. Qed.
Lemma aside_insert_pool pid p : aside (insert_pool pid p).
Proof. apply aside_mod_bp. Qed.
Lemma aside_insert_stake_pool pid p : aside (insert_stake_pool pid p).
Proof. apply aside_mod_bp. Qed.
Lemma aside_insert_vault pid p : aside (insert_vault pid p).
Proof. apply aside_mod_bp. Qed.
Hint Resolve aside_ext_try aside_stake_pool aside_vault aside_min aside_free aside_insert_pool
  aside_insert_stake_pool aside_insert_vault : moves.

(** ** NFTs *)

Lemma aside_set_attr c n a : aside (set_nft_attr c n a).
Proof. unfold set_nft_attr. moves. Qed.
Lemma aside_desc c n : aside (set_nft_desc_attr c n).
Proof. unfold set_nft_desc_attr. moves. Qed.
Lemma aside_next_id c : aside (get_next_nft_id c).
Proof. unfold get_next_nft_id. moves. Qed.
Lemma aside_guard_drop c n : aside (guard_drop c n).
Proof. apply aside_mod_bp. Qed.
Lemma aside_guard c n : aside (get_nft_attr_guard c n).
Proof. unfold get_nft_attr_guard, get_nft_attr. moves. Qed.
Hint Resolve aside_set_attr aside_desc aside_next_id aside_guard_drop aside_guard : moves.

Lemma aside_mint c a sh pid : aside (mint_nft c a sh pid).
Proof. unfold mint_nft. moves. Qed.
Lemma aside_burn a c n : aside (burn_nft a c n).
Proof. unfold burn_nft, remove_properties. moves. Qed.
Lemma aside_save c n a : aside (guard_save c n a).
Proof. unfold guard_save. moves. Qed.
Lemma aside_read c n : aside (read_nft c n).
Proof. unfold read_nft. moves. Qed.
Hint Resolve aside_mint aside_burn aside_save aside_read : moves.

Lemma aside_burn_all a c l : forall t, aside (burn_all a c l t).
Proof. induction l; intros t; cbn; moves. Qed.
Hint Resolve aside_burn_all : moves.
Lemma aside_merge c a pid : aside (merge_nft_for_staker c a pid).
Proof. unfold merge_nft_for_staker. moves. Qed.
Hint Resolve aside_merge : moves.

(** ** The base pool *)

Lemma aside_add_stake b a v : aside (add_stake_to_new_nft b a v).
Proof. unfold add_stake_to_new_nft. moves. Qed.
Lemma aside_remove_stake b sh nft a : aside (remove_stake_from_nft b sh nft a).
Proof. unfold remove_stake_from_nft. moves. Qed.
Lemma aside_return_queued c l : forall nft, aside (return_queued c l nft).
Proof. induction l; intros nft; cbn; moves. Qed.
Lemma aside_dust b nft : aside (maybe_remove_dust b nft).
Proof. unfold maybe_remove_dust. moves. Qed.
Lemma aside_pop b n : aside (pop_request b n).
Proof. unfold pop_request. moves. Qed.
Hint Resolve aside_add_stake aside_remove_stake aside_return_queued aside_dust aside_pop : moves.

Lemma aside_contribute b a v : aside (contribute b a v).
Proof. unfold contribute. moves. Qed.
Lemma aside_push b nft a sh : aside (push_withdraw_in_queue b nft a sh).
Proof. unfold push_withdraw_in_queue. moves. Qed.
Lemma aside_fulfil p b w nft st : aside (fulfil p b w nft st).
Proof. unfold fulfil. moves. Qed.
Hint Resolve aside_contribute aside_push aside_fulfil : moves.
Lemma aside_round p m b st : aside (process_round p m b st).
Proof. unfold process_round. moves. Qed.
Hint Resolve aside_round : moves.
Lemma aside_loop fuel p m : forall b st, aside (process_loop fuel p m b st).
Proof. induction fuel; intros b st; cbn; moves. Qed.
Hint Resolve aside_loop : moves.
Lemma aside_process b : aside (try_process_withdraw_queue b).
Proof. unfold try_process_withdraw_queue. moves. Qed.
Hint Resolve aside_process : moves.
Lemma aside_try_withdraw b nft a sh n av : aside (try_withdraw b nft a sh n av).
Proof. unfold try_withdraw. moves. Qed.
Lemma aside_expired_from c p now g mv l : forall v, aside (expired_from c p now g mv l v).
Proof. induction l; intros v; cbn; moves. Qed.
Hint Resolve aside_try_withdraw aside_expired_from : moves.
Lemma aside_has_expired b now g mv v : aside (has_expired_withdrawal b now g mv v).
Proof. unfold has_expired_withdrawal. moves. Qed.
Lemma aside_add_queued c l : forall v, aside (add_queued c l v).
Proof. induction l; intros v; cbn; moves. Qed.
Hint Resolve aside_has_expired aside_add_queued : moves.
Lemma aside_distribute fuel : forall b r, aside (distribute_reward_ fuel b r).
Proof. induction fuel; intros b r; cbn [distribute_reward_]; moves. Qed.
Lemma aside_distribute_reward b r : aside (distribute_reward b r).
Proof. apply aside_distribute. Qed.
Lemma aside_mint_into a v : aside (mint_into a v).
Proof. unfold mint_into. moves. Qed.
Hint Resolve aside_distribute_reward aside_mint_into : moves.

(** ** The callbacks *)

Lemma aside_new_reward q r : aside (handle_pool_new_reward q r).
Proof. unfold handle_pool_new_reward. moves. Qed.
Hint Resolve aside_new_reward : moves.
Lemma aside_on_reward l : aside (sp_on_reward l).
Proof. unfold sp_on_reward. moves. Qed.
Lemma aside_remove_from_pool w : aside (remove_worker_from_pool w).
Proof. unfold remove_worker_from_pool. moves. Qed.

#[global] Instance stake_pool_frame : CompFrame X.
Proof.
  split.
  - intros l. apply aside_on_reward.
  - intros w k. apply aside_remove_from_pool.
  - intros w a b. apply aside_frames, moves_ret, _.
  - apply cf_withdraw.
  - apply cf_transfer.
  - apply cf_treasury.
Qed.
End frames.

#[export] Hint Resolve aside_mod_bp aside_mod_sp aside_mod_wb aside_bp_event aside_sp_event aside_vt_event
  aside_wb_event aside_ext_upd aside_put_ext aside_signed aside_subsidy aside_ext_try aside_stake_pool aside_vault
  aside_min aside_free aside_insert_pool aside_insert_stake_pool aside_insert_vault aside_guard_drop aside_guard
  aside_mint aside_burn aside_save aside_read aside_merge aside_contribute aside_process aside_try_withdraw
  aside_has_expired aside_mint_into aside_on_reward aside_remove_from_pool : moves.

(** ** Calls without a computation step *)
Section asides.
Context {X : Type} `{QN : !QueueNotifyConfig X} `{CC : !ChainCodec} `{RC : !RegConfig}
  `{BE : !BlockEnv} `{FC : !FixedCrate} `{CF : !CompConfig X} `{PC : !PoolConfig X}
  `{WC : !WrapConfig X} `{SC : !StakeConfig} `{CRF : !CurrencyFrame X}.
Abbreviation aside := (moves (E := DispatchError) (apart (X := X))).

Lemma aside_acting_as a av : aside (acting_as a av).
Proof. unfold acting_as. moves. Qed.
Lemma aside_subscribe a pid c : aside (maybe_subscribe_to_pool a pid c).
Proof. unfold maybe_subscribe_to_pool, put_staker. moves. Qed.
Lemma aside_new_pid : aside consume_new_pid.
Proof. unfold consume_new_pid. moves. Qed.
Lemma aside_new_cid : aside consume_new_cid.
Proof. unfold consume_new_cid. moves. Qed.
Lemma aside_withdraw_from b a sh av e1 e2 : aside (withdraw_from b a sh av e1 e2).
Proof. unfold withdraw_from. moves. Qed.
Lemma aside_gain pid : aside (do_gain_owner_share pid).
Proof. unfold do_gain_owner_share. moves. Qed.
Lemma aside_pool_owner o pid : aside (ensure_pool_owner o pid).
Proof. unfold ensure_pool_owner. moves. Qed.
Hint Resolve aside_acting_as aside_subscribe aside_new_pid aside_new_cid aside_withdraw_from aside_gain
  aside_pool_owner : moves.

Lemma aside_sp_withdraw o pid sh av : aside (sp_withdraw o pid sh av).
Proof. unfold sp_withdraw. moves. Qed.
Lemma aside_maybe_gain o pid : aside (maybe_gain_owner_shares o pid).
Proof. unfold maybe_gain_owner_shares. moves. Qed.
Lemma aside_releasing_in b l : forall v, aside (releasing_in b l v).
Proof. induction l; intros v; cbn; moves. Qed.
Lemma aside_queued_shares c l : forall v, aside (queued_shares c l v).
Proof. induction l; intros v; cbn; moves. Qed.
Lemma aside_burn_ignored a c n : aside (burn_nft_ignored a c n).
Proof. intros s. pose proof (aside_burn a c n s). unfold burn_nft_ignored. by destruct (burn_nft a c n s). Qed.
Hint Resolve aside_sp_withdraw aside_maybe_gain aside_releasing_in aside_queued_shares aside_burn_ignored : moves.
Lemma aside_releasing_upstream a l : forall v, aside (releasing_upstream a l v).
Proof. induction l; intros v; cbn; moves. Qed.
Lemma aside_force_from v a o pid : aside (force_withdraw_from v a o pid).
Proof. unfold force_withdraw_from. moves. Qed.
Hint Resolve aside_releasing_upstream aside_force_from : moves.
Lemma aside_force_all v a o l : forall gone, aside (force_withdraw_all v a o l gone).
Proof. induction l; intros gone; cbn; moves. Qed.
Lemma aside_shutdown v : aside (shutdown_reason v).
Proof. unfold shutdown_reason. moves. Qed.
Lemma aside_value_of_nfts pid c l : forall v, aside (value_of_nfts pid c l v).
Proof. induction l; intros v; cbn; moves. Qed.
Hint Resolve aside_force_all aside_shutdown aside_value_of_nfts : moves.
Lemma aside_value_of_pools a l : forall v, aside (value_of_pools a l v).
Proof. induction l as [|[pid c] l IH]; intros v; cbn; moves. Qed.
Hint Resolve aside_value_of_pools : moves.
Lemma aside_net_value a : aside (get_net_value a).
Proof. unfold get_net_value. moves. Qed.
Lemma aside_burn_from a v : aside (burn_from a v).
Proof. unfold burn_from. moves. Qed.
Lemma aside_update_locked a : aside (update_user_locked a).
Proof. unfold update_user_locked, put_staker. moves. Qed.
Hint Resolve aside_net_value aside_burn_from aside_update_locked : moves.

(** The calls that do not reach the computation pallet *)
Definition computes (op : pool_op) : bool :=
  match op with
  | SpAddWorker _ _ _ | SpRemoveWorker _ _ _ | SpForceWithdraw _ _ | SpStart _ _ _ _ | SpStop _ _ _
  | SpReclaim _ _ _ | SpRestart _ _ _ _ => true
  | _ => false
  end.

Lemma aside_exec op : computes op = false -> aside (pool_exec op).
Proof.
  destruct op; cbn [computes pool_exec]; intros Hc; try discriminate Hc; clear Hc;
    unfold sp_create, set_cap, sp_set_payout_pref, claim_legacy_rewards, claim_owner_rewards, get_owner_stakes,
      sp_contribute, sp_on_unbound, vt_create, vt_set_payout_pref, claim_owner_shares,
      vt_check_and_maybe_force_withdraw, vt_contribute, vt_withdraw, wrap_pha, unwrap_all, unwrap, vote, unlock,
      put_staker, put_vote, set_voted, add_staker_to_whitelist, remove_staker_from_whitelist, put_whitelist,
      set_pool_description, claim_reimbursement, set_reimbursements, ensure_migration_root, ensure_owner; moves.
  all: by apply aside_modify.
Qed.
End asides.

(** ** Calls on workers *)
Section sim_asides.
Context {X : Type} `{QN : !QueueNotifyConfig X} `{PT : !PalletTopicsUnrouted X} `{CC : !ChainCodec}
  `{RC : !RegConfig} `{BE : !BlockEnv} `{FC : !FixedCrate} `{CF : !CompConfig X} `{PC : !PoolConfig X}
  `{WC : !WrapConfig X} `{SC : !StakeConfig} `{CRF : !CurrencyFrame X}.
Context (may : action -> Prop).
Implicit Types s : Storage X.

Lemma sim_aside {A} (m : H X A) : moves apart m -> sim may m.
Proof. intros Hm. apply sim_frames. exact Hm. Qed.
Lemma sim_or_err {A} (m : H X A) e : sim may m -> sim may (or_err m e).
Proof. intros Hm s. specialize (Hm s). unfold post, or_err in *. by destruct (m s). Qed.

End sim_asides.

Create HintDb sims discriminated.

(** Walks through a call: the computation pallet's functions by their own
    lemmas, everything else aside. *)
Ltac sims :=
  repeat lazymatch goal with
  | |- sim _ (mbind _ (mbind _ _)) => apply sim_bind; [|intros ?]
  | |- sim _ (mbind _ _) => apply sim_bind; [|intros ?]
  | |- sim _ (transactional _) => apply sim_transactional
  | |- sim _ (for_each _ _) => apply sim_for_each; intros ?
  | |- sim _ (match ?x with _ => _ end) => destruct x
  | |- sim _ (let '_ := ?x in _) => destruct x
  | |- sim _ _ => first [solve [eauto 4 with sims] | solve [apply sim_aside; moves]]
  end.

Section worker_calls.
Context {X : Type} `{QN : !QueueNotifyConfig X} `{PT : !PalletTopicsUnrouted X} `{CC : !ChainCodec}
  `{RC : !RegConfig} `{BE : !BlockEnv} `{FC : !FixedCrate} `{CF : !CompConfig X} `{PC : !PoolConfig X}
  `{WC : !WrapConfig X} `{SC : !StakeConfig} `{CRF : !CurrencyFrame X}.
Context (may : action -> Prop).

Lemma sim_do_start a pid w st :
  may (Locks (pool_sub_account pid w) st) -> sim may (do_start_computing (X := X) a pid w st).
Proof. intros Hm. unfold do_start_computing, ensure_owner. pose proof (sim_start (X := X) may _ _ Hm). sims. Qed.
Lemma sim_do_stop a pid w : sim may (do_stop_computing (X := X) a pid w).
Proof. unfold do_stop_computing, ensure_owner. pose proof (sim_stop (X := X) may). sims. Qed.
Lemma sim_do_reclaim pid a w k : may (Releases a) -> sim may (do_reclaim (X := X) pid a w k).
Proof.
  intros Hm. unfold do_reclaim. pose proof (sim_reclaim (X := X) may a k Hm). sims.
  unfold handle_reclaim. sims.
Qed.
End worker_calls.

(** The stake actions a call may perform *)
Definition pool_may `{PC : PoolConfig X} (op : pool_op) (act : action) : Prop :=
  match op, act with
  | SpStart _ pid w st, Locks a st' => a = pool_sub_account pid w /\ st' = st
  | SpRestart _ pid w st, Locks a st' => a = pool_sub_account pid w /\ st' = st
  | SpRestart _ pid w _, Releases a | SpReclaim _ pid w, Releases a => a = pool_sub_account pid w
  | _, _ => False
  end.

Section refinement.
Context {X : Type} `{QN : !QueueNotifyConfig X} `{PT : !PalletTopicsUnrouted X} `{CC : !ChainCodec}
  `{RC : !RegConfig} `{BE : !BlockEnv} `{FC : !FixedCrate} `{CF : !CompConfig X} `{PC : !PoolConfig X}
  `{WC : !WrapConfig X} `{SC : !StakeConfig} `{CRF : !CurrencyFrame X}.
Implicit Types s : Storage X.

Lemma pool_exec_sim op : sim (X := X) (pool_may op) (pool_exec op).
Proof.
  destruct (computes op) eqn:Hc; [|apply sim_aside; by apply aside_exec].
  pose proof (sim_do_stop (X := X) (pool_may op)) as Hstop.
  destruct op; try discriminate Hc; cbn [pool_exec].
  - unfold add_worker, ensure_owner. sims. apply sim_or_err, sim_bind_session.
  - unfold remove_worker, ensure_owner. sims. apply sim_unbind_session.
  - unfold sp_check_and_maybe_force_withdraw. sims.
  - unfold sp_start_computing. sims. by apply sim_do_start.
  - unfold sp_stop_computing. sims.
  - unfold reclaim_pool_worker. sims. by apply sim_do_reclaim.
  - unfold restart_computing. sims; [by apply sim_do_reclaim|by apply sim_do_start].
Qed.

(** C5: every call of the pools, whether it succeeds or fails, is a sequence
    of steps of the session ledger that the computation pallet implements, and
    leaves the registry alone; a stake is locked only by a start or a restart,
    in the amount given, and released only by a reclaim or a restart, each for
    the sub-account of the worker named in the call. *)
Theorem pools_refine_ledger op s :
  match pool_exec op s with
  | Ok _ s' | Err _ s' =>
      rtc (ledger_step now_sec (workers (reg s)) (pool_may op)) (ledger (comp s)) (ledger (comp s')) /\
      reg s' = reg s
  | Panic => True
  end.
Proof. exact (pool_exec_sim op s). Qed.
End refinement.
