(* ===== verification/PoolFindings.v ===== *)
(** * What the pools do not prevent

    Claims on calls that succeed although they should not, or that can never
    succeed again. *)

From S2P Require Import Prelude MqTypes Storage MqPallet PalletMsg FixedPoint Registry Computation PoolExt BasePool WrappedBalances StakePoolV2 VaultPool PoolNfts PoolShares PoolQueue PoolProcess PoolQueueClaims PoolInv PoolSteps.

Section findings.
Context {X : Type} `{QN : !QueueNotifyConfig X} `{CC : !ChainCodec}
  `{RC : !RegConfig} `{BE : !BlockEnv} `{FC : !FixedCrate} `{CF : !CompConfig X} `{PC : !PoolConfig X}
  `{PV : !PoolView X} `{PL : !PoolLaws X} `{FD : !FixedDoc} `{WC : !WrapConfig X} `{SC : !StakeConfig}.
Implicit Types (s : Storage X) (x : X) (c : CollectionId) (n : NftId) (b : BasePool).

(** ** Claiming owner shares to the pallet's account *)

(** Burning never brings an NFT back, and removes all that are listed. *)
Lemma burn_all_gone o c l : forall t s t' s',
  burn_all o c l t s = Ok t' s' ->
  (forall n, nfts (ext s) !! (c, n) = None \/ n ∈ l -> nfts (ext s') !! (c, n) = None) /\
  next_nft_ids (bp s') = next_nft_ids (bp s).
Proof.
  induction l as [|k l IH]; cbn; intros t s t' s' H.
  { mok_prim H. split; [|done]. intros n [|Hn%elem_of_nil]; done. }
  mok_as H nft s1 E. apply read_nft_Ok in E as (_ & _ & ->).
  mok_as H u s1 E. apply burn_nft_Ok in E as (x & -> & Hx).
  apply IH in H as [Hgone Hids]. split; [|done]. intros n Hn. apply Hgone. cbn.
  rewrite (burnt_nfts _ _ _ _ _ Hx). destruct (decide (n = k)) as [->|Hne].
  - left. apply lookup_delete_eq.
  - rewrite lookup_delete_ne by congruence. destruct Hn as [|Hn%elem_of_cons]; [by left|]. right. naive_solver.
Qed.

(** Merging leaves nothing of the NFTs the account had when there are two. *)
Lemma merge_gone c o pid s r s' n k :
  merge_nft_for_staker c o pid s = Ok r s' -> coll_ok s c -> n <> k ->
  (exists w, nfts (ext s) !! (c, n) = Some w /\ nft_owner w = o) ->
  (exists w, nfts (ext s) !! (c, k) = Some w /\ nft_owner w = o) ->
  nfts (ext s') !! (c, n) = None.
Proof.
  unfold merge_nft_for_staker. intros H Hc Hnk Hn Hk. mok H.
  pose proof (proj2 (owned_spec (ext s) c o n) Hn) as Hin. pose proof (proj2 (owned_spec (ext s) c o k) Hk) as Hik.
  destruct (owned_in_collection (ext s) c o) as [|n1 [|n2 l]] eqn:Eo.
  - by apply elem_of_nil in Hin.
  - apply list_elem_of_singleton in Hin, Hik. congruence.
  - mok_as H t s1 E. apply burn_all_gone in E as [Hgone Hids].
    mok_as H i s2 E. apply mint_nft_Ok in E as (x & -> & Hm & Hi & _). mok_prim H. cbn.
    rewrite (minted_nfts _ _ _ _ _ _ Hm), lookup_insert_ne; [by apply Hgone; right|].
    intros [= ->]. rewrite Hids in Hi. destruct Hn as (w & Hw & _). destruct (Hc _ _ Hw) as [_ Hlt]. lia.
Qed.

(** A vault's owner who claims owner shares with the base pool's own
    account as the target destroys the NFTs of every withdrawal queued in the
    vault: the requests stay in the queue, but nothing backs them any more. *)
Theorem claim_to_pallet_orphans_queue o pid sh s u s' v w :
  claim_owner_shares o pid pallet_id sh s = Ok u s' -> pools_inv s ->
  pools (bp s) !! pid = Some (PVault v) -> w ∈ withdraw_queue (v_basepool v) ->
  nfts (ext s) !! (b_cid (v_basepool v), wd_nft_id w) = Some (mkNft pallet_id false) /\
  nfts (ext s') !! (b_cid (v_basepool v), wd_nft_id w) = None /\
  exists v', pools (bp s') !! pid = Some (PVault v') /\ withdraw_queue (v_basepool v') = withdraw_queue (v_basepool v).
Proof.
  unfold claim_owner_shares. intros H Hi Hv Hw. pose proof (pi_good _ Hi _ _ Hv) as [Hok _ _].
  pose proof (po_queue _ _ _ _ Hok w Hw) as Hq. split; [exact Hq|].
  mok_as H who s1 E. apply ensure_signed_Ok in E as [-> _].
  mok_as H v1 s1 E. apply ensure_vault_Ok in E as [-> Hv1]. rewrite Hv in Hv1. injection Hv1 as <-. mok H. mok H. mok H. b2p.
  mok_as H n s1 E. apply mint_nft_Ok in E as (x & -> & Hm & Hn & _). mok_as H r s2 E2.
  set (s1 := after_mint _ _ _ _ _) in *. set (c := b_cid (v_basepool v)) in *.
  assert (u128 sh) as Hsh.
  { pose proof (slack_le _ _ _ _ Hok). pose proof (po_covered _ _ _ _ Hok). pose proof (po_shares_range _ _ _ _ Hok).
    cbn in *. unfold in_width in *. lia. }
  pose proof (po_coll _ _ _ _ Hok _ _ Hq) as [_ Hlt].
  change (b_cid (basepool_of (PVault v))) with c in Hlt.
  assert (0 <= n) as Hn0 by (rewrite Hn; apply (pi_ids _ Hi)).
  assert (evolves c (eq pallet_id) s s1) as Hev by (by apply (evolves_mint _ _ _ _ pallet_id sh)).
  mok_as H u3 s3 E3. unfold maybe_subscribe_to_pool, put_staker, mod_wb, modify in E3. mok E3. mok_eq E3.
  mok_as H u4 s4 E4. unfold insert_vault, insert_pool in E4. mok_prim E4.
  unfold vt_event in H. mok_prim H. cbn. split.
  - eapply (merge_gone _ _ _ _ _ _ _ n); [exact E2|apply Hev, Hok|lia| |].
    + exists (mkNft pallet_id false). split; [|done]. cbn. rewrite (minted_nfts _ _ _ _ _ _ Hm), lookup_insert_ne; [done|].
      intros [= Heq]. lia.
    + exists (mkNft pallet_id false). split; [|done]. cbn. by rewrite (minted_nfts _ _ _ _ _ _ Hm), lookup_insert_eq.
  - rewrite lookup_insert_eq. by eexists.
Qed.
(** ** Pools frozen by dust *)

(** Nobody withdraws dust, or more than the pool counts. *)
Lemma withdraw_within b who sh av e1 e2 s b' s' e :
  withdraw_from b who sh av e1 e2 s = Ok b' s' -> pool_ok s b None e -> ids_ok s -> who <> pallet_id ->
  1000 < sh <= total_shares b.
Proof.
  unfold withdraw_from. intros H Hok Hids Hwho.
  mok_as H r s1 E. pose proof E as (_ & _ & _ & Hr)%merge_nft_Ok; [|apply Hok|by eapply pool_ok_bound|done].
  apply (merge_pool_ok _ _ e) in E as [_ Hok1]; [|done..].
  mok H. destruct (Hr z eq_refl) as (w & Hw & Hown).
  mok_as H nft s2 E. apply get_nft_attr_guard_Ok in E as (Ha & Hl & ->).
  destruct (pool_ok_lock _ _ _ _ _ _ Hok1 Hl Hw ltac:(congruence) Ha) as (Hok2 & Hsl & Hpos & _).
  pose proof (slack_le _ _ _ _ Hok2) as Hle. pose proof (po_covered _ _ _ _ Hok2) as Hcov.
  pose proof (po_extra _ _ _ _ Hok1) as He. pose proof (po_shares_range _ _ _ _ Hok1) as Hsr. unfold in_width in Hsr.
  mok_as H iq s3 E.
  assert (0 <= iq /\ shares nft + iq <= total_shares b) as [Hiq Hsum].
  { destruct (filter _ _) as [|w1 l] eqn:Hf; [mok_prim E; lia|].
    mok_as E nq s4 E4. apply read_nft_Ok in E4 as (Hq & Hlq & ->). mok_prim E.
    assert (w1 ∈ withdraw_queue b) as Hw1.
    { assert (w1 ∈ w1 :: l) as Hin by left. rewrite <- Hf in Hin. by apply list_elem_of_filter in Hin as [_ ?]. }
    pose proof (po_queue _ _ _ _ Hok2 w1 Hw1) as Hn1.
    destruct (nft_sh_le_held _ _ _ _ _ _ Hok2 Hn1 Hlq) as [Hq0 Hq1].
    unfold slack in Hcov. unfold nft_sh in Hq0, Hq1 at 1. rewrite Hq in Hq0, Hq1. lia. }
  mok H. apply andb_true_iff in Hb as [Hb1 Hb2]. rewrite wrap_add_small in Hb2 by lia.
  unfold is_nondust_balance, balance_close_to_zero in Hb1. b2p. lia.
Qed.

(** Shares left, but none that could be withdrawn, and no value *)
Definition frozen b : Prop := 0 < total_shares b <= 1000 /\ total_value b = 0.

(** A pool left with at most 1000 shares and no value stays so: every
    contribution is refused with PoolBankrupt, no withdrawal succeeds, and
    rewards are dismissed. One user reaches it by withdrawing all but 1000
    shares of the pool's last stake. *)
Theorem dust_withdrawal_freezes_pool b :
  frozen b ->
  (forall a amount s, contribute b a amount s = Err (BpErr PoolBankrupt) s) /\
  (forall who sh av e1 e2 e s b' s', pool_ok s b None e -> ids_ok s -> who <> pallet_id ->
     withdraw_from b who sh av e1 e2 s <> Ok b' s') /\
  (forall q rewards s, sp_basepool q = b -> exists s', handle_pool_new_reward q rewards s = Ok q s').
Proof.
  intros [Hs Hv]. split_and!.
  - intros a amount s. unfold contribute, transactional. mred. rewrite Hv.
    destruct (total_shares b =? 0) eqn:E; b2p; [lia|]. done.
  - intros who sh av e1 e2 e s b' s' Hok Hids Hwho H. apply (withdraw_within _ _ _ _ _ _ _ _ _ e) in H; [lia|done..].
  - intros q rewards s <-. unfold handle_pool_new_reward. destruct (rewards =? 0); [by eexists|].
    destruct (balance_close_to_zero rewards); [by eexists|].
    unfold balance_close_to_zero. destruct (_ <=? 1000) eqn:E; b2p; [by eexists|lia].
Qed.
End findings.

(** * Votes and locks of wrapped balances

    The amounts of a vote are added with wrap-around before they are compared
    with the user's stakes, and [unwrap_all] subtracts the locked amount the
    same way. *)

(** [iter_prefix] visits every entry of a storage map once. *)
Class VoteLaws (X : Type) `{WC : !WrapConfig X} : Prop := {
  iter_votes_perm : forall m, iter_votes m ≡ₚ map_to_list m;
}.

Section votes.
Context {X : Type} `{BE : !BlockEnv} `{FC : !FixedCrate} `{CF : !CompConfig X} `{PC : !PoolConfig X}
  `{WC : !WrapConfig X} `{VL : !VoteLaws X}.
Implicit Types (s : Storage X) (user : Account).

(** ** The pooled vote *)

Definition aye_sum (m : gmap Account (Balance * Balance)) : Z := msum (fun _ e => e.1) m.
Definition nay_sum (m : gmap Account (Balance * Balance)) : Z := msum (fun _ e => e.2) m.

Lemma wrap_wrap_add w x y : wrap w (wrap w x + y) = wrap w (x + y).
Proof. unfold wrap. apply Zplus_mod_idemp_l. Qed.

Lemma accumulate_list (l : list (Account * (Balance * Balance))) : forall a n,
  foldl (fun t e => mkSplit (aye t +[128] e.2.1) (nay t +[128] e.2.2)) (mkSplit (wrap 128 a) (wrap 128 n)) l =
  mkSplit (wrap 128 (a + foldr (fun e t => e.2.1 + t) 0 l)) (wrap 128 (n + foldr (fun e t => e.2.2 + t) 0 l)).
Proof.
  induction l as [|e l IH]; intros a n; cbn; [by rewrite !Z.add_0_r|].
  rewrite !wrap_wrap_add, IH. by rewrite !Z.add_assoc.
Qed.

Lemma msum_list {K A} `{Countable K} (f : K -> A -> Z) (m : gmap K A) l :
  l ≡ₚ map_to_list m -> msum f m = foldr (fun e t => f e.1 e.2 + t) 0 l.
Proof.
  intros Hl. unfold msum. rewrite map_fold_foldr. symmetry.
  etrans; [apply (foldr_permutation eq); [intros e z ? <-; done|intros; lia|exact Hl]|]. clear Hl.
  induction (map_to_list m) as [|[k a] l' IH]; cbn; [done|]. by rewrite IH.
Qed.

(** The pooled vote is the sum of the users' votes, modulo 2^128. *)
Lemma accumulate_sum id (w : WbState) :
  accumulate_account_vote id w = mkSplit (wrap 128 (aye_sum (votes_of id w))) (wrap 128 (nay_sum (votes_of id w))).
Proof.
  unfold accumulate_account_vote. pose proof (accumulate_list (iter_votes (votes_of id w)) 0 0) as H.
  cbn in H. unfold aye_sum, nay_sum. by rewrite !(msum_list _ _ _ (iter_votes_perm (votes_of id w))).
Qed.

(** A new vote of [user] *)
Lemma sums_insert (m : gmap Account (Balance * Balance)) user e :
  m !! user = None ->
  aye_sum (<[ user := e ]> m) = e.1 + aye_sum m /\ nay_sum (<[ user := e ]> m) = e.2 + nay_sum m.
Proof. intros Hm. split; [apply (msum_insert (fun _ p => p.1))|apply (msum_insert (fun _ p => p.2))]; done. Qed.

Lemma wrap_plus_width x : 0 <= x < 2 ^ 128 -> wrap 128 (2 ^ 128 + x) = x.
Proof. intros Hx. unfold wrap. symmetry. apply (Z.mod_unique _ _ 1); lia. Qed.
Lemma wrap_below x : - 2 ^ 128 <= x < 0 -> wrap 128 x = 2 ^ 128 + x.
Proof. intros Hx. unfold wrap. symmetry. apply (Z.mod_unique _ _ (-1)); lia. Qed.

(** The storage with the vote recorded *)
Definition voted (id : Z) (user : Account) (e : Balance * Balance) (w : WbState) : WbState :=
  let w := put_vote_account_map (<[ id := <[ user := e ]> (votes_of id w) ]> (vote_account_map w)) w in
  put_account_vote_map (<[ user := {[ id ]} ∪ default ∅ (account_vote_map w !! user) ]> (account_vote_map w)) w.

Lemma votes_of_voted id user e w : votes_of id (voted id user e w) = <[ user := e ]> (votes_of id w).
Proof. unfold votes_of at 1. cbn. by rewrite lookup_insert_eq. Qed.

(** A vote that passes the checks and is accepted by the democracy pallet *)
Lemma vote_run s s2 user a n v id x :
  referendum_ongoing (ext s) id = true -> get_net_value user s = Ok v s -> a +[128] n <= v ->
  democracy_vote WrappedBalancesAccountId id (accumulate_account_vote id (voted id user (a, n) (wb s))) (ext s) = Some x ->
  update_user_locked user (put_ext x (upd_wb (voted id user (a, n)) s)) = Ok tt s2 ->
  exists s', vote (Signed user) a n id s = Ok tt s' /\ ext s' = ext s2 /\ wb s' = wb s2.
Proof.
  intros Hr Hv Hle Hd Hu. unfold vote, transactional.
  do 2 (erewrite bind_run by reflexivity). rewrite Hr. erewrite bind_run by reflexivity.
  erewrite bind_run by exact Hv. rewrite (proj2 (Z.leb_le _ _) Hle).
  do 4 (erewrite bind_run by reflexivity). erewrite bind_run by (apply ext_try_run; exact Hd).
  erewrite bind_run by exact Hu. by eexists.
Qed.

Lemma first_lock_run user id e fa w (s : Storage X) :
  wb s = voted id user e w -> account_vote_map w !! user = None -> staker_accounts w !! user = Some fa ->
  update_user_locked user s =
    Ok tt (upd_wb (put_staker_accounts (<[ user := mkFinance (fa_invest_pools fa) (Z.max 0 (e.1 +[128] e.2)) ]>
      (staker_accounts w))) s).
Proof.
  intros Hw Hna Hfa. unfold update_user_locked. erewrite bind_run by reflexivity. rewrite Hw. cbn.
  rewrite lookup_insert_eq, Hna. cbn. rewrite (right_id_L ∅ (∪)), elements_singleton. cbn.
  unfold mbind, option_bind.
  rewrite votes_of_voted, lookup_insert_eq. cbn. rewrite Hfa. cbn.
  unfold put_staker, mod_wb, upd_wb. cbn. unfold modify. by rewrite Hw.
Qed.

(** C40: the two amounts of a vote are added with wrap-around before they are
    compared with the user's stakes, and so are the users' amounts. A user with
    no stake at all who votes 2^128 - k aye and k nay passes the check, moves k
    of the other users' aye votes to the nay side of the pooled vote, and has
    nothing locked. *)
Theorem vote_overflow_moves_votes s user fa v k id x :
  referendum_ongoing (ext s) id = true -> get_net_value user s = Ok v s -> 0 <= v ->
  votes_of id (wb s) !! user = None -> account_vote_map (wb s) !! user = None ->
  staker_accounts (wb s) !! user = Some fa ->
  0 < k <= aye_sum (votes_of id (wb s)) -> aye_sum (votes_of id (wb s)) < 2 ^ 128 ->
  0 <= nay_sum (votes_of id (wb s)) -> nay_sum (votes_of id (wb s)) + k < 2 ^ 128 ->
  democracy_vote WrappedBalancesAccountId id
    (mkSplit (aye_sum (votes_of id (wb s)) - k) (nay_sum (votes_of id (wb s)) + k)) (ext s) = Some x ->
  exists s', vote (Signed user) (2 ^ 128 - k) k id s = Ok tt s' /\ ext s' = x /\
    staker_accounts (wb s') !! user = Some (mkFinance (fa_invest_pools fa) 0).
Proof.
  intros Hr Hv Hv0 Hno Hna Hfa Hk HA HN0 HN Hd.
  destruct (sums_insert _ user (2 ^ 128 - k, k) Hno) as [Ha Hn]. cbn in Ha, Hn.
  assert ((2 ^ 128 - k) +[128] k = 0) as Hz by (rewrite Z.sub_add; reflexivity).
  pose proof (first_lock_run user id (2 ^ 128 - k, k) fa (wb s)
    (put_ext x (upd_wb (voted id user (2 ^ 128 - k, k)) s)) eq_refl Hna Hfa) as Hu.
  eapply vote_run in Hu as (s' & Hs' & Hx & Hw); [|exact Hr|exact Hv|by rewrite Hz|].
  - exists s'. split_and!; [done|done|]. rewrite Hw. cbn [fst snd]. rewrite Hz. apply lookup_insert_eq.
  - rewrite accumulate_sum, votes_of_voted, Ha, Hn, <- Hd.
    rewrite (Z.add_comm k), (wrap_small _ (nay_sum _ + k)) by (unfold in_width; lia).
    by rewrite <- Z.add_sub_swap, <- Z.add_sub_assoc, wrap_plus_width by lia.
Qed.

(** ** Unwrapping *)

(** The amount a user may unwrap keeps the locked amount in the user's net
    value: [unwrap] refuses every other amount. [unwrap_all] computes the
    difference with wrap-around instead: once slashes or a falling share price
    have brought the net value below the locked amount, it pays out the whole
    free balance, while [unwrap] refuses even a single unit. *)
Theorem unwrap_all_ignores_lock s user v x d x' :
  get_net_value user s = Ok v s -> 0 <= v < locked_of (wb s) user -> locked_of (wb s) user < 2 ^ 128 ->
  0 <= wpha_balance (ext s) user <= v ->
  pha_transfer_allow_death WrappedBalancesAccountId user (wpha_balance (ext s) user) (ext s) = Some x ->
  wpha_burn_from user (wpha_balance (ext s) user) x = Some (d, x') ->
  unwrap_all (Signed user) s = Ok tt (put_ext x' s) /\
  forall amount, 0 <= amount -> amount + locked_of (wb s) user < 2 ^ 128 ->
    unwrap (Signed user) amount s = Err (WbErr UnwrapAmountExceedsAvaliableStake) s.
Proof.
  intros Hv Hv0 HL Hf Ht Hb. split.
  - unfold unwrap_all, transactional. erewrite bind_run by reflexivity. erewrite bind_run by exact Hv.
    erewrite bind_run by reflexivity.
    assert (v -[128] locked_of (wb s) user = 2 ^ 128 + (v - locked_of (wb s) user)) as -> by (apply wrap_below; lia).
    rewrite Z.min_r by lia. erewrite bind_run by (apply ext_try_run; exact Ht).
    unfold burn_from. erewrite bind_run by reflexivity. cbn. rewrite Hb. cbn. by destruct s.
  - intros a Ha Hal. unfold unwrap, transactional. do 2 (erewrite bind_run by reflexivity).
    destruct (a <=? _) eqn:E; [|done]. erewrite bind_run by reflexivity. erewrite bind_run by exact Hv.
    erewrite bind_run by reflexivity. rewrite wrap_small by (unfold in_width; lia).
    by replace (_ <=? v) with false by lia.
Qed.
End votes.
