(* ===== verification/PoolRuns.v ===== *)
(** * Concrete runs of the pools

    A chain with one stake pool and one vault: users contribute to both, the
    vault delegates to the stake pool, and some withdraw; the theorems on
    pools at its states. *)

From S2P Require Import Prelude MqTypes SendQueue Storage MqPallet PalletMsg FixedPoint Instances Registry RegistryRuns Computation CompLedger CompRefine CompClaims CompRuns PoolExt BasePool WrappedBalances StakePoolV2 VaultPool PoolInstances PoolNfts PoolShares PoolQueue PoolProcess PoolQueueClaims PoolInv PoolSteps PoolSystem PoolLedger PoolFindings.

#[local] Existing Instance default_notify.

#[global] Instance toy_pool_frame : PoolFrame Toy.
Proof.
  split.
  - intros a b v s u s' (x & Hx & ->)%ext_try_Ok. exists x. split; [done|]. revert Hx.
    unfold toy_pha_transfer. case_match; [done|]. intros [= <-]. by apply toy_same_nfts.
  - intros a b v x x'. cbn. unfold toy_pha_transfer. case_match; [done|]. intros [= <-]. by apply toy_same_nfts.
  - intros a b v x x'. cbn. unfold toy_pha_transfer. case_match; [done|]. intros [= <-]. by apply toy_same_nfts.
  - intros a v x. by apply toy_same_nfts.
  - intros a i v x x'. cbn. unfold toy_democracy_vote. case_match; [|done]. intros [= <-]. by apply toy_same_nfts.
Qed.

(** What a call needs, decided *)
Definition toy_supply_ok (x : Toy) : bool :=
  bool_decide (map_Forall (fun _ v => wrap 128 v < 2 ^ 127) (t_wpha x)).
Definition not_pallet (o : Origin) : bool :=
  match o with Signed a => negb (a =? pallet_id (X := Toy)) | _ => true end.
Definition toy_op_ok (s : Storage Toy) (op : pool_op) : bool :=
  match op with
  | SpCreate _ | VtCreate _ => (0 <=? pool_count (bp s)) && (pool_count (bp s) <? 2 ^ 64 - 1)
  | SpContribute o _ v _ | VtContribute o _ v =>
      not_pallet o && (0 <=? v) && toy_supply_ok (ext s)
  | SpWithdraw o _ _ _ | VtWithdraw o _ _ => not_pallet o
  | VtClaimShares _ _ target _ => negb (target =? pallet_id)
  | _ => true
  end.

Lemma toy_supply_ok_spec (s : Storage Toy) : toy_supply_ok (ext s) = true -> supply_ok s.
Proof.
  unfold toy_supply_ok, supply_ok. rewrite bool_decide_eq_true. intros Hm a v. cbn.
  unfold toy_maybe_balance. destruct (t_wpha (ext s) !! a) as [w|] eqn:E; cbn; [|done].
  intros [= <-]. by apply (Hm a w).
Qed.

Lemma toy_op_ok_spec s op : toy_op_ok s op = true -> op_ok s op.
Proof.
  pose proof (toy_supply_ok_spec s) as Hs.
  assert (forall o, not_pallet o = true -> o <> Signed pallet_id) as Ho.
  { intros [|a|]; unfold not_pallet; [done| |done]. b2p. congruence. }
  destruct op; unfold toy_op_ok, op_ok; try done; b2p; naive_solver lia.
Qed.

Fixpoint pool_run (l : list pool_op) (s : Storage Toy) : option (Storage Toy) :=
  match l with
  | [] => Some s
  | op :: l' =>
      if toy_op_ok s op then
        match pool_exec op s with Ok _ s' => pool_run l' s' | _ => None end
      else None
  end.

Lemma pool_run_steps l : forall s s', pool_run l s = Some s' -> rtc pool_step s s'.
Proof.
  induction l as [|op l IH]; cbn; intros s s' H; [by simplify_eq|].
  destruct (toy_op_ok s op) eqn:Eo; [|done]. destruct (pool_exec op s) as [[] s1| |] eqn:Ee; [|done..].
  eapply rtc_l; [|by apply IH]. eapply step_call; [by apply toy_op_ok_spec|exact Ee].
Qed.

(** Accounts 1 and 2 own the pools, 3 and 4 contribute. *)
Definition toy_world : Toy :=
  mkToy ({[ 3 := 1000 * PHA ]} ∪ {[ 4 := 1000 * PHA ]}) ∅ ∅ ∅ ∅ ({[ 999 := 5000 * PHA ]}) ∅ ∅.

Definition pool_history : list pool_op :=
  [SpCreate (Signed 1); VtCreate (Signed 2);
   SpContribute (Signed 3) 0 (100 * PHA) None; VtContribute (Signed 4) 1 (50 * PHA);
   SpContribute (Signed 2) 0 (30 * PHA) (Some 1);
   SpWithdraw (Signed 3) 0 (40 * PHA) None; VtWithdraw (Signed 4) 1 (50 * PHA);
   VtForceWithdraw (Signed 9) 1].

Definition pool_world : Storage Toy :=
  Eval vm_compute in default (empty_chain toy_world) (pool_run pool_history (empty_chain toy_world)).
Lemma pool_world_eq : pool_run pool_history (empty_chain toy_world) = Some pool_world.
Proof. vm_compute. reflexivity. Qed.

(** The pool's view at a state: unclaimed shares, shares and value counted,
    requests queued, shares in NFTs, free stake. *)
Definition summary (s : Storage Toy) (pid : Z) : option (Z * Z * Z * nat * Z * Z) :=
  p ← pools (bp s) !! pid;
  let b := basepool_of p in
  Some (extra_of p, total_shares b, total_value b, length (withdraw_queue b),
    nft_shares (ext s) (b_cid b), wpha_balance (ext s) (pool_account_id b)).

Example pool_world_summary :
  summary pool_world 0 = Some (0, 90 * PHA, 90 * PHA, 0%nat, 90 * PHA, 90 * PHA) /\
  summary pool_world 1 = Some (0, 30 * PHA, 30 * PHA, 1%nat, 30 * PHA, 0) /\
  wpha_balance (ext pool_world) 3 = 940 * PHA /\ wpha_balance (ext pool_world) 4 = 970 * PHA.
Proof. vm_compute. repeat split. Qed.

Lemma pools_invariant_witness :
  no_pools (empty_chain toy_world) /\ rtc pool_step (empty_chain toy_world) pool_world /\
  shares_covered pool_world /\ queues_backed pool_world.
Proof.
  assert (no_pools (empty_chain toy_world)) as H0 by done.
  assert (rtc pool_step (empty_chain toy_world) pool_world) as Hr
    by (eapply pool_run_steps; apply pool_world_eq).
  split; [exact H0|]. split; [exact Hr|].
  destruct (pools_invariant _ _ H0 Hr) as (H1 & H2 & _). split; [exact H1|exact H2].
Defined.

(** * Concrete withdraw queues

    [paid_world]: the vault of [pool_world] got its stake back and can pay the
    queued request. [stuck_world]: a stake pool with 2000 shares left received
    a large reward, so that one share is worth more than the free stake. *)

#[local] Existing Instance default_notify.

(** What a round needs, decided *)
Definition toy_ready (s : Storage Toy) (b : BasePool) (w : WithdrawInfo) : bool :=
  (1000 <? nft_sh (ext s) (b_cid b) (wd_nft_id w)) && negb (wd_user w =? pool_account_id b)
  && (0 <? wpha_balance (ext s) (wd_user w)).
Definition toy_processable (s : Storage Toy) (b : BasePool) : bool :=
  (total_shares b <? 2 ^ 80) && (total_value b <? 2 ^ 70) && toy_supply_ok (ext s)
  && forallb (toy_ready s b) (withdraw_queue b).

Lemma toy_processable_spec s pid p :
  pools_inv s -> pools (bp s) !! pid = Some p -> toy_processable s (basepool_of p) = true ->
  processable s (basepool_of p) toy_min (extra_of p).
Proof.
  intros Hi Hp H. unfold toy_processable in H. b2p. destruct H as [[[H1 H2] H3] H4].
  pose proof (pi_good _ Hi _ _ Hp) as [Hok Hwf _]. apply toy_supply_ok_spec in H3.
  split; try done.
  - rewrite (wf_issuer _ _ _ Hwf). by eexists.
  - intros w Hw. rewrite forallb_forall in H4. apply list_elem_of_In in Hw as Hin. apply H4 in Hin.
    unfold toy_ready in Hin. b2p. destruct Hin as [[? ?] ?]. split_and!; try done.
    rewrite (pi_locks _ Hi). apply not_elem_of_empty.
  - intros a _. pose proof (supply_balance s a H3). pose proof (supply_balance s (pool_account_id (basepool_of p)) H3). lia.
Qed.

(** ** A vault that pays *)

Definition paid_history : list pool_op :=
  take 7 pool_history ++ [SpWithdraw (Signed 2) 0 (30 * PHA) (Some 1)].
Definition paid_world : Storage Toy :=
  Eval vm_compute in default (empty_chain toy_world) (pool_run paid_history (empty_chain toy_world)).
Lemma paid_world_eq : pool_run paid_history (empty_chain toy_world) = Some paid_world.
Proof. vm_compute. reflexivity. Qed.
Lemma paid_world_inv : pools_inv paid_world.
Proof.
  eapply rtc_invariant; [apply pool_step_inv|eapply pool_run_steps, paid_world_eq|by apply no_pools_inv].
Qed.

Definition pool_at (s : Storage Toy) (pid : Z) : PoolProxy :=
  default (PStakePool (mkStakePool (mkBasePool 0 0 0 0 [] [] 0 0) None None [] [] 0 0)) (pools (bp s) !! pid).

Example paid_world_summary :
  summary paid_world 1 = Some (0, 30 * PHA, 30 * PHA, 1%nat, 30 * PHA, 30 * PHA).
Proof. vm_compute. reflexivity. Qed.

Lemma withdraw_queue_terminates_witness :
  exists b' st s',
    (forall fuel, queued paid_world (basepool_of (pool_at paid_world 1)) < Z.of_nat fuel ->
       process_loop fuel (2 ^ 64) toy_min (basepool_of (pool_at paid_world 1)) [] paid_world = Ok (b', st) s') /\
    (withdraw_queue b' = [] \/ wpha_balance (ext s') (pool_account_id b') <= toy_min).
Proof.
  assert (pools (bp paid_world) !! 1 = Some (pool_at paid_world 1)) as Hp by (vm_compute; reflexivity).
  assert (processable paid_world (basepool_of (pool_at paid_world 1)) toy_min 0) as Hpb.
  { exact (toy_processable_spec _ _ _ paid_world_inv Hp ltac:(vm_compute; reflexivity)). }
  assert (price_fits paid_world (basepool_of (pool_at paid_world 1)) (2 ^ 64) toy_min) as Hpf.
  { vm_compute. repeat split; discriminate. }
  destruct (withdraw_queue_terminates paid_world (basepool_of (pool_at paid_world 1)) (2 ^ 64) 0 Hpb Hpf)
    as (b' & st & s' & Hrun & _ & _ & _ & Hend).
  exists b', st, s'. split; [exact Hrun|exact Hend].
Defined.

(** ** A pool that never finishes *)

(** Worker 1, of operator 3, is registered and benchmarked. *)
Definition worker_chain : Storage unit :=
  Eval vm_compute in foldl run_at (empty_chain tt) (take 7 ops_until_start).
Definition worker_world : Storage Toy :=
  mkStorage (mq worker_chain) (reg worker_chain) (comp worker_chain) empty_bp empty_sp ∅ empty_wb empty_phat (mkPt ∅ ∅ 0) (mkAnchor ∅ ∅ ∅) []
    (mkToy ({[ 4 := 1000 * PHA ]}) ∅ ∅ ∅ ∅ ({[ 999 := 5000 * PHA ]}) ∅ ∅).

(** User 4 leaves 2000 shares in the pool, the worker earns 2000 PHA and
    computes with them, user 4 asks for 1500 of the shares. *)
Definition reward_history : list pool_op :=
  [SpCreate (Signed 3); SpAddWorker (Signed 3) 0 1; SpContribute (Signed 4) 0 PHA None;
   SpWithdraw (Signed 4) 0 (PHA - 2000) None; SpOnReward [mkSettle 1 0 (2000 * 2 ^ 64) 0];
   SpStart (Signed 3) 0 1 (2000 * PHA - 5000000000); SpWithdraw (Signed 4) 0 1500 None].
Definition reward_world : Storage Toy :=
  Eval vm_compute in default worker_world (pool_run reward_history worker_world).
Lemma reward_world_eq : pool_run reward_history worker_world = Some reward_world.
Proof. vm_compute. reflexivity. Qed.

(** User 4 sends 0.02 W-PHA to the pool's account. *)
Definition stuck_ext : Toy :=
  Eval vm_compute in default (ext reward_world)
    (toy_transfer 4 (pool_account_id (basepool_of (pool_at reward_world 0))) 20000000000 (ext reward_world)).
Definition stuck_world : Storage Toy := put_ext stuck_ext reward_world.

Lemma stuck_world_inv : pools_inv stuck_world.
Proof.
  assert (pools_inv reward_world) as Hi.
  { eapply rtc_invariant; [apply pool_step_inv|eapply pool_run_steps, reward_world_eq|by apply no_pools_inv]. }
  eapply pool_step_inv; [exact Hi|]. apply step_other; [done|]. by apply toy_same_nfts.
Qed.

Example stuck_world_summary :
  summary stuck_world 0 = Some (0, 2000, 2000 * PHA + 2001, 1%nat, 2000, 20000000000) /\
  pool_exec (SpForceWithdraw (Signed 9) 0) stuck_world = Panic.
Proof. vm_compute. split; reflexivity. Qed.

Definition stuck_pool : BasePool := basepool_of (pool_at stuck_world 0).
Definition stuck_price : FixedBits := Eval vm_compute in default 0 (default None (share_price stuck_pool)).

Lemma withdraw_queue_diverges_witness :
  share_price stuck_pool = Some (Some stuck_price) /\
  forall fuel, process_loop fuel stuck_price toy_min stuck_pool [] stuck_world = Panic.
Proof.
  split; [vm_compute; reflexivity|].
  assert (pools (bp stuck_world) !! 0 = Some (pool_at stuck_world 0)) as Hp by (vm_compute; reflexivity).
  assert (stuck stuck_world stuck_pool stuck_price toy_min 0) as Hst.
  { split.
    - exact (toy_processable_spec _ _ _ stuck_world_inv Hp ltac:(vm_compute; reflexivity)).
    - vm_compute. discriminate.
    - vm_compute. reflexivity.
    - vm_compute. reflexivity.
    - split; vm_compute; [discriminate|reflexivity].
    - intros w q nft p v Hq Ha Hpr Hv.
      assert (withdraw_queue stuck_pool = [mkWithdraw 4 1000 2]) as Hq0 by (vm_compute; reflexivity).
      rewrite Hq0 in Hq. injection Hq as <- _.
      assert (attr_of (ext stuck_world) (b_cid stuck_pool) 2 = Some (mkAttr 1500)) as Ha0 by (vm_compute; reflexivity).
      cbn [wd_nft_id] in Ha. rewrite Ha0 in Ha. injection Ha as <-.
      assert (share_price stuck_pool = Some (Some stuck_price)) as Hp0 by (vm_compute; reflexivity).
      rewrite Hp0 in Hpr. injection Hpr as <-. cbn [shares] in Hv.
      assert (bmul 1500 stuck_price = Some 1500000888181424) as Hv0 by (vm_compute; reflexivity).
      rewrite Hv0 in Hv. injection Hv as <-. unfold toy_min, PHA. lia. }
  exact (proj2 (withdraw_queue_diverges stuck_world stuck_pool stuck_price toy_min 0 [] Hst)).
Defined.

(** * The findings on concrete chains

    A vault whose owner destroys the queue, a pool frozen by dust, a vote that
    overflows, and a user who unwraps locked W-PHA; the pools' calls as steps
    of the session ledger. *)

#[local] Existing Instance default_notify.

#[global] Instance toy_vote_laws : VoteLaws Toy.
Proof. split. done. Qed.

#[global] Instance toy_currency_frame : CurrencyFrame Toy.
Proof.
  split; intros; intros s; cbn; unfold ext_try; mred; [by destruct (_ <? _)|by destruct (toy_pha_transfer _ _ _ _)|done].
Qed.

(** ** Owner shares claimed to the pallet *)

(** The vault of owner 2 earns through its stake in pool 0, whose worker earns;
    user 4 queues a withdrawal in the vault. *)
Definition vault_history : list pool_op :=
  [SpCreate (Signed 3); SpAddWorker (Signed 3) 0 1; VtCreate (Signed 2); VtSetPayout (Signed 2) 1 (Some 100000);
   VtContribute (Signed 4) 1 (50 * PHA); SpContribute (Signed 2) 0 (50 * PHA) (Some 1);
   SpOnReward [mkSettle 1 0 (100 * 2 ^ 64) 0]; VtGain (Signed 2) 1; VtWithdraw (Signed 4) 1 (20 * PHA)].
Definition vault_world : Storage Toy :=
  Eval vm_compute in default worker_world (pool_run vault_history worker_world).
Lemma vault_world_eq : pool_run vault_history worker_world = Some vault_world.
Proof. vm_compute. reflexivity. Qed.

Lemma worker_pools_inv l s : pool_run l worker_world = Some s -> pools_inv s.
Proof. intros H. eapply rtc_invariant; [apply pool_step_inv|by eapply pool_run_steps|by apply no_pools_inv]. Qed.

(** The owner claims one PHA's worth of shares to the pallet, then brings 20 PHA back to the vault. *)
Definition after (op : pool_op) (s : Storage Toy) : Storage Toy :=
  match pool_exec op s with Ok _ s' => s' | _ => s end.
Definition orphaned_world : Storage Toy :=
  Eval vm_compute in after (VtClaimShares (Signed 2) 1 (pallet_id (X := Toy)) PHA) vault_world.
Definition refilled_world : Storage Toy :=
  Eval vm_compute in after (SpWithdraw (Signed 2) 0 (20 * PHA) (Some 1)) orphaned_world.

Definition vault_at (s : Storage Toy) (pid : Z) : Vault :=
  match pools (bp s) !! pid with Some (PVault v) => v | _ => mkVault (mkBasePool 0 0 0 0 [] [] 0 0) 0 None 0 [] end.

(** No call on the vault returns any more. *)
Lemma claim_to_pallet_orphans_queue_witness :
  claim_owner_shares (Signed 2) 1 pallet_id PHA vault_world = Ok tt orphaned_world /\
  withdraw_queue (v_basepool (vault_at vault_world 1)) = [mkWithdraw 4 1000 1] /\
  nfts (ext orphaned_world) !! (b_cid (v_basepool (vault_at vault_world 1)), wd_nft_id (mkWithdraw 4 1000 1)) = None /\
  pool_exec (VtForceWithdraw (Signed 9) 1) refilled_world = Panic /\
  pool_exec (VtContribute (Signed 4) 1 (30 * PHA)) refilled_world = Panic /\
  pool_exec (VtWithdraw (Signed 4) 1 (30 * PHA)) refilled_world = Panic.
Proof.
  assert (claim_owner_shares (Signed 2) 1 pallet_id PHA vault_world = Ok tt orphaned_world) as He
    by (vm_compute; reflexivity).
  assert (pools (bp vault_world) !! 1 = Some (PVault (vault_at vault_world 1))) as Hv by (vm_compute; reflexivity).
  assert (withdraw_queue (v_basepool (vault_at vault_world 1)) = [mkWithdraw 4 1000 1]) as Hq by (vm_compute; reflexivity).
  assert (mkWithdraw 4 1000 1 ∈ withdraw_queue (v_basepool (vault_at vault_world 1))) as Hin by (rewrite Hq; left).
  destruct (claim_to_pallet_orphans_queue (Signed 2) 1 PHA vault_world tt orphaned_world (vault_at vault_world 1) (mkWithdraw 4 1000 1) He (worker_pools_inv _ _ vault_world_eq) Hv Hin) as (_ & Hn & _).
  split; [exact He|]. split; [exact Hq|]. split; [exact Hn|].
  split; [vm_compute; reflexivity|split; vm_compute; reflexivity].
Defined.

(** ** A pool frozen by dust *)

Definition dusty_history : list pool_op :=
  [SpCreate (Signed 1); SpContribute (Signed 3) 0 PHA None; SpWithdraw (Signed 3) 0 (PHA - 500) None].
Definition dusty_world : Storage Toy :=
  Eval vm_compute in default (empty_chain toy_world) (pool_run dusty_history (empty_chain toy_world)).

Lemma dust_withdrawal_freezes_pool_witness :
  pool_run dusty_history (empty_chain toy_world) = Some dusty_world /\
  frozen (basepool_of (pool_at dusty_world 0)) /\
  (forall a amount s, contribute (basepool_of (pool_at dusty_world 0)) a amount s = Err (BpErr PoolBankrupt) s) /\
  pool_exec (SpContribute (Signed 4) 0 (30 * PHA) None) dusty_world = Err (BpErr PoolBankrupt) dusty_world.
Proof.
  split; [vm_compute; reflexivity|].
  assert (frozen (basepool_of (pool_at dusty_world 0))) as Hf by (vm_compute; repeat split; discriminate).
  split; [exact Hf|]. split; [exact (proj1 (dust_withdrawal_freezes_pool _ Hf))|vm_compute; reflexivity].
Defined.

(** ** A vote that overflows *)

(** User 5 votes aye with all of 100 PHA, user 6 owns the minimum balance. *)
Definition voters : Toy :=
  mkToy ∅ ∅ ∅ ∅ ∅ ({[ 5 := 100 * PHA ]} ∪ {[ 6 := PHA ]}) {[ 7 ]} ∅.
Definition vote_history : list pool_op :=
  [WbWrap (Signed 5) (100 * PHA); WbWrap (Signed 6) toy_min; WbVote (Signed 5) (100 * PHA) 0 7].
Definition vote_world : Storage Toy :=
  Eval vm_compute in default (empty_chain voters) (pool_run vote_history (empty_chain voters)).
Definition moved_votes : Toy :=
  Eval vm_compute in default voters
    (toy_democracy_vote 888 7 (mkSplit 0 (100 * PHA)) (ext vote_world)).

Lemma vote_overflow_moves_votes_witness :
  t_votes (ext vote_world) !! 7 = Some (mkSplit (100 * PHA) 0) /\
  (exists s', vote (Signed 6) (2 ^ 128 - 100 * PHA) (100 * PHA) 7 vote_world = Ok tt s' /\ ext s' = moved_votes) /\
  t_votes moved_votes !! 7 = Some (mkSplit 0 (100 * PHA)).
Proof.
  split; [vm_compute; reflexivity|]. split; [|vm_compute; reflexivity].
  destruct (vote_overflow_moves_votes vote_world 6 (mkFinance [] 0) toy_min (100 * PHA) 7 moved_votes) as (s' & H1 & H2 & _);
    [vm_compute; reflexivity|vm_compute; reflexivity|vm_compute; discriminate|vm_compute; reflexivity|vm_compute; reflexivity
    |vm_compute; reflexivity|vm_compute; split; [reflexivity|discriminate]|vm_compute; reflexivity|vm_compute; discriminate
    |vm_compute; reflexivity|vm_compute; reflexivity|].
  exists s'. split; [exact H1|exact H2].
Defined.

(** ** Unwrapping locked W-PHA *)

(** After the vote of user 5, 30 PHA of W-PHA were slashed. *)
Definition slashed_world : Storage Toy :=
  Eval vm_compute in put_ext (toy_put_wpha (<[ 5 := 70 * PHA ]> (t_wpha (ext vote_world))) (ext vote_world)) vote_world.

Definition unwrapped_pha : Toy :=
  Eval vm_compute in default voters (toy_pha_transfer 888 5 (70 * PHA) (ext slashed_world)).
Definition unwrapped : Toy :=
  Eval vm_compute in (default (0, voters) (toy_burn_from 5 (70 * PHA) unwrapped_pha)).2.

Lemma unwrap_all_ignores_lock_witness :
  locked_of (wb slashed_world) 5 = 100 * PHA /\
  (exists s', unwrap_all (Signed 5) slashed_world = Ok tt s' /\ wpha_balance (ext s') 5 = 0) /\
  unwrap (Signed 5) 1 slashed_world = Err (WbErr UnwrapAmountExceedsAvaliableStake) slashed_world.
Proof.
  split; [vm_compute; reflexivity|].
  destruct (unwrap_all_ignores_lock slashed_world 5 (70 * PHA) unwrapped_pha (70 * PHA) unwrapped) as [H1 H2];
    [vm_compute; reflexivity|vm_compute; split; [discriminate|reflexivity]|vm_compute; reflexivity
    |vm_compute; split; discriminate|vm_compute; reflexivity|vm_compute; reflexivity|].
  split; [exists (put_ext unwrapped slashed_world); split; [exact H1|vm_compute; reflexivity]|].
  apply H2; vm_compute; [discriminate|reflexivity].
Defined.

(** ** Pool calls on the session ledger *)

Definition start_op : pool_op := SpStart (Signed 3) 0 1 (2000 * PHA - 5000000000).
Definition ready_world : Storage Toy :=
  Eval vm_compute in default worker_world (pool_run (take 5 reward_history) worker_world).
Definition started_world : Storage Toy := Eval vm_compute in after start_op ready_world.

Lemma pools_refine_ledger_witness :
  pool_exec start_op ready_world = Ok tt started_world /\
  rtc (ledger_step now_sec (workers (reg ready_world)) (pool_may (X := Toy) start_op))
    (ledger (comp ready_world)) (ledger (comp started_world)).
Proof.
  assert (pool_exec start_op ready_world = Ok tt started_world) as He by (vm_compute; reflexivity).
  split; [exact He|]. pose proof (pools_refine_ledger start_op ready_world) as H.
  rewrite He in H. exact (proj1 H).
Defined.
