(* ===== verification/Dispatcher.v ===== *)
(** * Dispatching chain messages (crates/phala-mq/src/dispatcher.rs, simple_mpsc.rs)

    The pRuntime reads the messages of a block through a [MessageDispatcher]:
    each subscriber of a topic has a channel, dispatched messages are numbered
    and copied to the channels of their topic, and [select!] takes the message
    with the least number from several channels. Channels are shared between
    the dispatcher and the receivers: they live in a heap, by identifier. The
    mutex of a channel is not modelled, each method runs under it. *)

From S2P Require Import Prelude MqTypes.

(** ** Channels (simple_mpsc.rs) *)

Record Channel := mkChan {
  deque : list (Z * Message);
  sender_count : Z;
  receiver_count : Z;
}.
Abbreviation ChanId := nat (only parsing).
Abbreviation Heap := (gmap nat Channel) (only parsing).

Definition put_deque (l : list (Z * Message)) (c : Channel) : Channel := mkChan l (sender_count c) (receiver_count c).

(** [channel()] *)
Definition channel (h : Heap) : ChanId * Heap :=
  let id := fresh (dom h) in (id, <[ id := mkChan [] 1 1 ]> h).

(** [Sender]: [None] is [ReceiverGone]; a channel outside the heap does not occur. *)
Definition send (id : ChanId) (value : Z * Message) (h : Heap) : option Heap :=
  c ← h !! id;
  if receiver_count c =? 0 then None else Some (<[ id := put_deque (deque c ++ [value]) c ]> h).
Definition sender_clear (id : ChanId) (h : Heap) : nat * Heap :=
  match h !! id with
  | Some c => (length (deque c), <[ id := put_deque [] c ]> h)
  | None => (0%nat, h)
  end.
Definition sender_clone (id : ChanId) (h : Heap) : Heap :=
  alter (fun c => mkChan (deque c) (sender_count c +[64] 1) (receiver_count c)) id h.
Definition sender_drop (id : ChanId) (h : Heap) : Heap :=
  alter (fun c => mkChan (deque c) (sender_count c -[64] 1) (receiver_count c)) id h.

(** [Receiver] *)
Inductive Received (T : Type) := RvNone | RvSome (v : T) | RvSenderGone.
Arguments RvNone {T}.
Arguments RvSome {T} v.
Arguments RvSenderGone {T}.

Definition raw_try_next (id : ChanId) (h : Heap) : Received (Z * Message) * Heap :=
  match h !! id with
  | None => (RvNone, h)
  | Some c =>
      match deque c with
      | v :: q => (RvSome v, <[ id := put_deque q c ]> h)
      | [] => (if sender_count c =? 0 then RvSenderGone else RvNone, h)
      end
  end.
Definition peek_ind (id : ChanId) (h : Heap) : Received Z :=
  match h !! id with
  | None => RvNone
  | Some c =>
      match deque c with
      | v :: _ => RvSome v.1
      | [] => if sender_count c =? 0 then RvSenderGone else RvNone
      end
  end.
Definition receiver_drain (id : ChanId) (h : Heap) : list (Z * Message) * Heap :=
  match h !! id with
  | Some c => (deque c, <[ id := put_deque [] c ]> h)
  | None => ([], h)
  end.
Definition receiver_clone (id : ChanId) (h : Heap) : Heap :=
  alter (fun c => mkChan (deque c) (sender_count c) (receiver_count c +[64] 1)) id h.
Definition receiver_drop (id : ChanId) (h : Heap) : Heap :=
  alter (fun c => mkChan (deque c) (sender_count c) (receiver_count c -[64] 1)) id h.

(** ** The dispatcher *)

Record MessageDispatcher := mkDispatcher {
  subscribers : gmap Path (list ChanId);
  local_index : Z;
  heap : Heap;
}.

Definition dispatcher_new : MessageDispatcher := mkDispatcher ∅ 0 ∅.

Definition subscribe (path : Path) (d : MessageDispatcher) : ChanId * MessageDispatcher :=
  let '(id, h) := channel (heap d) in
  (id, mkDispatcher (<[ path := default [] (subscribers d !! path) ++ [id] ]> (subscribers d)) (local_index d) h).

(** [receivers.retain(|receiver| ..)]: the channels kept, how many, and the heap *)
Fixpoint send_all (ids : list ChanId) (value : Z * Message) (h : Heap) : list ChanId * nat * Heap :=
  match ids with
  | [] => ([], 0%nat, h)
  | id :: ids' =>
      match send id value h with
      | None => send_all ids' value h
      | Some h =>
          let '(kept, count, h) := send_all ids' value h in (id :: kept, S count, h)
      end
  end.

Definition dispatch (m : Message) (d : MessageDispatcher) : nat * MessageDispatcher :=
  let sn := local_index d in
  let index := local_index d +[64] 1 in
  match subscribers d !! topic_path (destination m) with
  | None => (0%nat, mkDispatcher (subscribers d) index (heap d))
  | Some ids =>
      let '(kept, count, h) := send_all ids (sn, m) (heap d) in
      (count, mkDispatcher (<[ topic_path (destination m) := kept ]> (subscribers d)) index h)
  end.

Definition reset_local_index (d : MessageDispatcher) : MessageDispatcher := mkDispatcher (subscribers d) 0 (heap d).

(** [clear]: all unhandled messages are dropped, and counted. *)
Definition dispatcher_clear (d : MessageDispatcher) : nat * MessageDispatcher :=
  let '(count, h) := foldl (fun a id => let '(n, h) := sender_clear id a.2 in ((a.1 + n)%nat, h))
    (0%nat, heap d) (map_to_list (subscribers d) ≫= snd) in
  (count, mkDispatcher (subscribers d) (local_index d) h).

(** ** [select!] *)

(** The first pass: the index of the channel to read *)
Fixpoint select_scan (ids : list ChanId) (ind : nat) (h : Heap) (min : option (Z * nat)) : option (Z * nat) :=
  match ids with
  | [] => min
  | id :: ids' =>
      select_scan ids' (S ind) h
        match peek_ind id h with
        | RvSome sn =>
            match min with
            | None => Some (sn, ind)
            | Some (old, _) => if sn <? old then Some (sn, ind) else min
            end
        | RvSenderGone => Some (0, ind)
        | RvNone => min
        end
  end.
Definition select_pick (ids : list ChanId) (h : Heap) : option nat := snd <$> select_scan ids 0 h None.

(** [TypedReceiver::try_next] on a raw message: a malformed message of a sender
    that should know better is a panic, others are errors. *)
Inductive Typed (T : Type) := TyMsg (event : T) (origin : MessageOrigin) | TyCodecError | TyPanic.
Arguments TyMsg {T} event origin.
Arguments TyCodecError {T}.
Arguments TyPanic {T}.
Definition typed {T} (dec : bytes -> option T) (m : Message) : Typed T :=
  match dec (payload m) with
  | Some t => TyMsg t (sender m)
  | None => if always_well_formed (sender m) then TyPanic else TyCodecError
  end.

Section select.
Context {St : Type}.
(** What a branch of [select!] does with a message; [None] is a panic. *)
Abbreviation Handler := (Message -> St -> option St).

(** A branch that logs codec errors and goes on *)
Definition on_event {T} (dec : bytes -> option T) (f : MessageOrigin -> T -> St -> option St) : Handler :=
  fun m s => match typed dec m with
             | TyMsg t o => f o t s
             | TyCodecError => Some s
             | TyPanic => None
             end.

(** [loop { let ok = select! {..}; if ok.is_none() { break } }] for as many
    rounds as the fuel; [gone] is the branch for a channel without senders. *)
Fixpoint select_loop (fuel : nat) (rs : list (ChanId * Handler)) (gone : St -> option St) (h : Heap) (s : St) :
    option (Heap * St) :=
  match fuel with
  | O => None
  | S fuel =>
      match select_pick (fst <$> rs) h with
      | None => Some (h, s)
      | Some ind =>
          '(id, handle) ← rs !! ind;
          match raw_try_next id h with
          | (RvNone, h) => Some (h, s)
          | (RvSome v, h) => s ← handle v.2 s; select_loop fuel rs gone h s
          | (RvSenderGone, h) => s ← gone s; select_loop fuel rs gone h s
          end
      end
  end.
End select.
