(* ===== verification/DispatchOrder.v ===== *)
(** * Messages are handled in the order they were dispatched

    [in_order] is the specification of a [select!] loop: every message is given
    to the branch that subscribed its topic, in the order of the block. *)

From S2P Require Import Prelude MqTypes Dispatcher.
From Stdlib Require Import Sorting.Sorted.

Section order.
Context {St : Type}.

(** A branch: topic, channel, handler *)
Record Branch := mkBranch { br_path : Path; br_chan : ChanId; br_handle : Message -> St -> option St }.
Implicit Types (rs : list Branch) (m : Message) (L : list (Z * Message)) (h : gmap nat Channel).

Definition branches rs : list (nat * (Message -> St -> option St)) := (fun r => (br_chan r, br_handle r)) <$> rs.
Definition path_of m : Path := topic_path (destination m).

Fixpoint in_order rs (ms : list Message) (s : St) : option St :=
  match ms with
  | [] => Some s
  | m :: ms' =>
      s ← match list_find (fun r => br_path r = path_of m) rs with
          | Some (_, r) => br_handle r m s
          | None => Some s
          end;
      in_order rs ms' s
  end.

(** ** The scan finds the least number *)

Definition above (sn : Z) (id : nat) h : Prop :=
  peek_ind id h = RvNone \/ exists n, peek_ind id h = RvSome n /\ sn < n.

Lemma scan_keep ids h sn j : forall ind,
  Forall (fun id => above sn id h) ids -> select_scan ids ind h (Some (sn, j)) = Some (sn, j).
Proof.
  induction ids as [|id ids IH]; intros ind; cbn; [done|]. intros [Ha Hf]%Forall_cons.
  destruct Ha as [->|(n & -> & Hn)]; [by apply IH|].
  destruct (n <? sn) eqn:E; b2p; [lia|by apply IH].
Qed.

Lemma scan_find ids1 id ids2 h sn : forall ind min,
  peek_ind id h = RvSome sn -> Forall (fun id => above sn id h) ids1 -> Forall (fun id => above sn id h) ids2 ->
  (forall old j, min = Some (old, j) -> sn < old) ->
  select_scan (ids1 ++ id :: ids2) ind h min = Some (sn, (ind + length ids1)%nat).
Proof.
  induction ids1 as [|i ids1 IH]; intros ind min Hp H1 H2 Hmin; cbn.
  - rewrite Hp, Nat.add_0_r. destruct min as [[old j]|]; [|by apply scan_keep].
    specialize (Hmin old j eq_refl). destruct (sn <? old) eqn:E; b2p; [by apply scan_keep|lia].
  - apply Forall_cons in H1 as [Ha H1]. rewrite <- Nat.add_succ_comm. apply IH; [done..|].
    destruct Ha as [->|(n & -> & Hn)]; [done|]. destruct min as [[old j]|]; [|by intros ? ? [= <- <-]].
    destruct (n <? old); [by intros ? ? [= <- <-]|by apply Hmin].
Qed.

Lemma scan_none ids h : forall ind min,
  Forall (fun id => peek_ind id h = RvNone) ids -> select_scan ids ind h min = min.
Proof. induction ids as [|id ids IH]; intros ind min; cbn; [done|]. intros [-> Hf]%Forall_cons. by apply IH. Qed.

(** ** One round *)

Definition reads L (p : Path) : list (Z * Message) := filter (fun e => path_of e.2 = p) L.

(** The channels hold what is left of the numbered messages [L]. *)
Definition queued rs L h : Prop :=
  forall r, r ∈ rs -> exists c, h !! br_chan r = Some c /\ sender_count c <> 0 /\ deque c = reads L (br_path r).
Definition apart rs : Prop := NoDup (br_chan <$> rs) /\ NoDup (br_path <$> rs).
Definition numbered L : Prop := StronglySorted (fun a b => a.1 < b.1) L.

Lemma queued_peek rs L h r : queued rs L h -> r ∈ rs ->
  peek_ind (br_chan r) h = match reads L (br_path r) with [] => RvNone | v :: _ => RvSome v.1 end.
Proof.
  intros Hq Hr. destruct (Hq r Hr) as (c & Hc & Hs & Hd). unfold peek_ind. rewrite Hc, Hd.
  case_match; [|done]. by destruct (sender_count c =? 0) eqn:E; b2p.
Qed.

Lemma reads_above sn m L p : numbered ((sn, m) :: L) -> path_of m <> p ->
  match reads ((sn, m) :: L) p with [] => True | v :: _ => sn < v.1 end.
Proof.
  intros Hs Hp. unfold reads. rewrite filter_cons_False by done. apply StronglySorted_inv in Hs as [_ Hf].
  destruct (filter _ L) as [|v q] eqn:E; [done|].
  assert (v ∈ filter (fun e : Z * Message => path_of e.2 = p) L) as Hv by (rewrite E; left).
  apply list_elem_of_filter in Hv as [_ Hv]. rewrite List.Forall_forall in Hf. apply (Hf v). by apply list_elem_of_In.
Qed.

Lemma pick_head rs1 r rs2 sn m L h :
  apart (rs1 ++ r :: rs2) -> numbered ((sn, m) :: L) -> queued (rs1 ++ r :: rs2) ((sn, m) :: L) h ->
  path_of m = br_path r ->
  select_pick (fst <$> branches (rs1 ++ r :: rs2)) h = Some (length rs1).
Proof.
  intros [Hi Hp] Hs Hq Hm. unfold select_pick, branches. rewrite <- list_fmap_compose.
  rewrite !fmap_app, !fmap_cons in *. cbn.
  assert (forall r', r' ∈ rs1 ++ r :: rs2 -> br_path r' <> br_path r -> above sn (br_chan r') h) as Ha.
  { intros r' Hr' Hne. unfold above. rewrite (queued_peek _ _ _ _ Hq Hr').
    pose proof (reads_above sn m L (br_path r') Hs) as Hab. rewrite Hm in Hab. specialize (Hab (not_eq_sym Hne)).
    case_match; [by left|]. right. eauto. }
  apply NoDup_app in Hp as (_ & Hdisj & Hp2). apply NoDup_cons in Hp2 as [Hr2 _].
  rewrite (scan_find _ _ _ h sn 0 None); [by rewrite length_fmap| | | |done].
  - rewrite (queued_peek _ _ _ r Hq) by set_solver. unfold reads. by rewrite filter_cons_True.
  - apply Forall_fmap, Forall_forall. intros r' Hr'. apply Ha; [set_solver|]. intros Heq.
    apply (Hdisj (br_path r')); [by apply list_elem_of_fmap_2|]. rewrite Heq. left.
  - apply Forall_fmap, Forall_forall. intros r' Hr'. apply Ha; [set_solver|]. intros Heq.
    apply Hr2. rewrite <- Heq. by apply list_elem_of_fmap_2.
Qed.

Lemma find_branch rs1 r rs2 m : apart (rs1 ++ r :: rs2) -> path_of m = br_path r ->
  list_find (fun r => br_path r = path_of m) (rs1 ++ r :: rs2) = Some (length rs1, r).
Proof.
  intros [_ Hp] Hm. rewrite fmap_app, fmap_cons in Hp. apply NoDup_app in Hp as (_ & Hdisj & _).
  apply list_find_Some. split_and!; [by apply list_lookup_middle|done|].
  intros j y Hj Hlt Hy. rewrite lookup_app_l in Hj by done. apply list_elem_of_lookup_2 in Hj.
  apply (Hdisj (br_path y)); [by apply list_elem_of_fmap_2|]. rewrite Hy, Hm. left.
Qed.

Lemma NoDup_fmap_same {A B} (f : A -> B) (l : list A) x y :
  NoDup (f <$> l) -> x ∈ l -> y ∈ l -> f x = f y -> x = y.
Proof.
  intros Hnd [i Hi]%list_elem_of_lookup [j Hj]%list_elem_of_lookup Hf.
  assert (i = j) as ->; [|congruence].
  eapply (NoDup_lookup _ _ _ (f x)); [exact Hnd| |]; rewrite list_lookup_fmap; [by rewrite Hi|by rewrite Hj, Hf].
Qed.

(** Taking the message the scan picked *)
Lemma take_head rs1 r rs2 sn m L h :
  apart (rs1 ++ r :: rs2) -> queued (rs1 ++ r :: rs2) ((sn, m) :: L) h -> path_of m = br_path r ->
  exists h', raw_try_next (br_chan r) h = (RvSome (sn, m), h') /\ queued (rs1 ++ r :: rs2) L h'.
Proof.
  intros [Hi Hp] Hq Hm. assert (r ∈ rs1 ++ r :: rs2) as Hr by set_solver. destruct (Hq r Hr) as (c & Hc & Hs & Hd).
  unfold raw_try_next. rewrite Hc, Hd. unfold reads. rewrite filter_cons_True by done.
  eexists. split; [done|]. intros r' Hr'. destruct (decide (br_chan r' = br_chan r)) as [He|Hne].
  - assert (r' = r) as -> by (by eapply (NoDup_fmap_same br_chan)). rewrite lookup_insert_eq. by eexists.
  - rewrite lookup_insert_ne by done. destruct (Hq r' Hr') as (c' & Hc' & Hs' & Hd'). exists c'. split_and!; try done.
    rewrite Hd'. unfold reads. rewrite filter_cons_False; [done|]. cbn. intros Heq. apply Hne. f_equal.
    eapply (NoDup_fmap_same br_path); [exact Hp|done|done|congruence].
Qed.

Lemma branches_lookup rs1 r rs2 : branches (rs1 ++ r :: rs2) !! length rs1 = Some (br_chan r, br_handle r).
Proof. unfold branches. by rewrite list_lookup_fmap, list_lookup_middle. Qed.

Definition for_us rs m : Prop := Exists (fun r => br_path r = path_of m) rs.
#[global] Instance for_us_dec rs m : Decision (for_us rs m).
Proof. unfold for_us. apply _. Defined.

Lemma select_loop_order rs gone L : forall h s fuel,
  apart rs -> numbered L -> queued rs L h -> Forall (fun e => for_us rs e.2) L -> (length L < fuel)%nat ->
  match in_order rs (snd <$> L) s with
  | Some s' => exists h', select_loop fuel (branches rs) gone h s = Some (h', s') /\ queued rs [] h'
  | None => select_loop fuel (branches rs) gone h s = None
  end.
Proof.
  induction L as [|[sn m] L IH]; intros h s fuel Ha Hs Hq Hf Hlt; destruct fuel as [|fuel]; try (cbn in Hlt; lia); cbn.
  - unfold select_pick. rewrite scan_none; [by eexists|]. unfold branches. rewrite <- list_fmap_compose.
    apply Forall_fmap, Forall_forall. intros r Hr. cbn. by rewrite (queued_peek _ _ _ _ Hq Hr).
  - apply Forall_cons in Hf as [Hm Hf]. cbn in Hm. apply Exists_exists in Hm as (r & Hr & Hm).
    apply list_elem_of_split in Hr as (rs1 & rs2 & ->).
    rewrite (pick_head rs1 r rs2 sn m L h), (find_branch rs1 r rs2 m) by done.
    rewrite branches_lookup. cbn.
    destruct (take_head rs1 r rs2 sn m L h) as (h' & -> & Hq'); [done..|]. cbn.
    destruct (br_handle r m s) as [s'|]; cbn; [|done].
    apply StronglySorted_inv in Hs as [Hs _]. apply IH; try done. cbn in Hlt. lia.
Qed.

Lemma in_order_filter rs ms : forall s, in_order rs (filter (for_us rs) ms) s = in_order rs ms s.
Proof.
  induction ms as [|m ms IH]; intros s; [done|]. rewrite filter_cons. case_decide as Hd; cbn.
  - destruct (list_find _ rs) as [[i r]|]; cbn; [destruct (br_handle r m s); cbn; [apply IH|done]|apply IH].
  - destruct (list_find _ rs) as [[i r]|] eqn:E; [|apply IH].
    destruct Hd. apply list_find_Some in E as (Hi & Hp & _). apply Exists_exists. exists r.
    split; [by eapply list_elem_of_lookup_2|done].
Qed.

(** ** Dispatching *)

(** Every branch's channel is subscribed to its topic only, and both ends are alive. *)
Record wired rs (d : MessageDispatcher) : Prop := {
  wr_apart : apart rs;
  wr_lists : forall p l, subscribers d !! p = Some l -> NoDup l;
  wr_in : forall r, r ∈ rs -> exists l, subscribers d !! br_path r = Some l /\ br_chan r ∈ l;
  wr_only : forall r p l, r ∈ rs -> subscribers d !! p = Some l -> br_chan r ∈ l -> p = br_path r;
  wr_alive : forall r, r ∈ rs -> exists c, heap d !! br_chan r = Some c /\ sender_count c <> 0 /\ receiver_count c <> 0;
}.

Definition sent (v : Z * Message) (c : Channel) : Channel :=
  if receiver_count c =? 0 then c else put_deque (deque c ++ [v]) c.

Lemma send_all_spec ids v : forall h kept n h', send_all ids v h = (kept, n, h') -> NoDup ids ->
  (forall id, h' !! id = if decide (id ∈ ids) then sent v <$> h !! id else h !! id) /\
  (forall id c, id ∈ ids -> h !! id = Some c -> receiver_count c <> 0 -> id ∈ kept) /\
  (forall id, id ∈ kept -> id ∈ ids) /\ NoDup kept.
Proof.
  induction ids as [|i ids IH]; cbn; intros h kept n h' H Hnd.
  { injection H as <- <- <-. split_and!; [done|set_solver|done|done]. }
  apply NoDup_cons in Hnd as [Hi Hnd].
  destruct (send i v h) as [h1|] eqn:Es; unfold send in Es.
  - destruct (h !! i) as [c|] eqn:Ec; cbn in Es; [|done]. destruct (receiver_count c =? 0) eqn:Er; [done|].
    injection Es as <-. destruct (send_all ids v _) as [[kept1 n1] h2] eqn:Ea. injection H as <- <- <-.
    destruct (IH _ _ _ _ Ea Hnd) as (H1 & H2 & H3 & H4). split_and!.
    + intros id. rewrite H1. destruct (decide (id = i)) as [->|Hne].
      * rewrite decide_False, decide_True, lookup_insert_eq, Ec by (done || left). cbn. unfold sent. by rewrite Er.
      * rewrite lookup_insert_ne by done. assert (id ∈ i :: ids <-> id ∈ ids) as Hiff by (rewrite elem_of_cons; naive_solver).
        repeat case_decide; naive_solver.
    + intros id c' [->|Hin]%elem_of_cons Hc Hr; [left|right]. apply (H2 id c'); [done| |done].
      rewrite lookup_insert_ne; [done|congruence].
    + intros id [->|Hin]%elem_of_cons; [left|right; auto].
    + apply NoDup_cons. split; [|done]. intros Hin. by apply Hi, H3.
  - destruct (IH _ _ _ _ H Hnd) as (H1 & H2 & H3 & H4).
    assert (sent v <$> h !! i = h !! i /\ forall c, h !! i = Some c -> receiver_count c = 0) as [Hs Hr].
    { destruct (h !! i) as [c|] eqn:Ec; cbn in *; [|done]. unfold sent.
      destruct (receiver_count c =? 0) eqn:Er; [|done]. b2p. split; [done|]. by intros c' [= <-]. }
    split_and!.
    + intros id. rewrite H1. destruct (decide (id = i)) as [->|Hne].
      * by rewrite decide_False, decide_True, Hs by (done || left).
      * assert (id ∈ i :: ids <-> id ∈ ids) as Hiff by (rewrite elem_of_cons; naive_solver).
        repeat case_decide; naive_solver.
    + intros id c' [->|Hin]%elem_of_cons Hc Hr'; [by specialize (Hr _ Hc)|by apply (H2 id c')].
    + intros id Hin. right. auto.
    + done.
Qed.

Lemma reads_app L1 L2 p : reads (L1 ++ L2) p = reads L1 p ++ reads L2 p.
Proof. apply filter_app. Qed.

Lemma dispatch_queues rs L d m :
  wired rs d -> queued rs L (heap d) ->
  wired rs (dispatch m d).2 /\ queued rs (L ++ [(local_index d, m)]) (heap (dispatch m d).2).
Proof.
  intros Hw Hq. pose proof Hw as [Ha Hl Hin Honly Halive]. unfold dispatch.
  assert (forall r, r ∈ rs -> path_of m <> br_path r -> reads (L ++ [(local_index d, m)]) (br_path r) = reads L (br_path r)) as Hother.
  { intros r Hr Hne. rewrite reads_app. unfold reads at 2. rewrite filter_cons_False by done. apply app_nil_r. }
  destruct (subscribers d !! topic_path (destination m)) as [ids|] eqn:Es; cbn.
  2: { split; [by split|]. intros r Hr. destruct (Hq r Hr) as (c & Hc & Hs & Hd). exists c. split_and!; try done.
       rewrite Hother; [done..|]. intros Heq. destruct (Hin r Hr) as (l & Hsub & _). unfold path_of in Heq. congruence. }
  destruct (send_all ids _ _) as [[kept n] h'] eqn:Ea. cbn.
  destruct (send_all_spec _ _ _ _ _ _ Ea (Hl _ _ Es)) as (H1 & H2 & H3 & H4).
  assert (forall r, r ∈ rs -> br_chan r ∈ ids <-> path_of m = br_path r) as Hids.
  { intros r Hr. split; [by apply Honly|]. intros Heq. destruct (Hin r Hr) as (l & Hsub & Hc).
    unfold path_of in Heq. rewrite <- Heq, Es in Hsub. by injection Hsub as <-. }
  split.
  - split; cbn; [done| | | |].
    + intros p l. destruct (decide (p = topic_path (destination m))) as [->|Hne].
      * rewrite lookup_insert_eq. by intros [= <-].
      * rewrite lookup_insert_ne by done. apply Hl.
    + intros r Hr. destruct (decide (path_of m = br_path r)) as [Heq|Hne].
      * unfold path_of in Heq. rewrite <- Heq, lookup_insert_eq. eexists. split; [done|].
        destruct (Halive r Hr) as (c & Hc & _ & Hrc). eapply H2; [by apply Hids|exact Hc|done].
      * rewrite lookup_insert_ne by done. by apply Hin.
    + intros r p l Hr. destruct (decide (p = topic_path (destination m))) as [->|Hne].
      * rewrite lookup_insert_eq. intros [= <-] Hc. by eapply Honly, H3.
      * rewrite lookup_insert_ne by done. by apply Honly.
    + intros r Hr. destruct (Halive r Hr) as (c & Hc & Hs & Hrc). rewrite H1.
      case_decide; [|by exists c]. rewrite Hc. cbn. eexists. split; [done|].
      unfold sent. by destruct (receiver_count c =? 0).
  - intros r Hr. destruct (Hq r Hr) as (c & Hc & Hs & Hd). destruct (Halive r Hr) as (c' & Hc' & _ & Hrc).
    rewrite Hc in Hc'. injection Hc' as <-. rewrite H1. case_decide as Hdec; rewrite Hids in Hdec by done.
    + rewrite Hc. cbn. eexists. split; [done|]. unfold sent. destruct (receiver_count c =? 0) eqn:E; b2p; [done|].
      split; [done|]. cbn. rewrite Hd, reads_app. f_equal. unfold reads. by rewrite filter_cons_True.
    + exists c. split_and!; try done. by rewrite Hother.
Qed.

(** [n], [n+1], .. *)
Fixpoint number (n : Z) (ms : list Message) : list (Z * Message) :=
  match ms with [] => [] | m :: ms' => (n, m) :: number (n + 1) ms' end.
Definition dispatch_all (ms : list Message) (d : MessageDispatcher) : MessageDispatcher :=
  foldl (fun d m => (dispatch m d).2) d ms.

Lemma number_sorted ms : forall n, numbered (number n ms) /\ Forall (fun e => n <= e.1) (number n ms).
Proof.
  induction ms as [|m ms IH]; intros n; cbn; [by split; constructor|]. destruct (IH (n + 1)) as [Hs Hf]. split.
  - constructor; [done|]. apply Forall_forall. intros e He. rewrite Forall_forall in Hf. specialize (Hf e He). cbn. lia.
  - constructor; [cbn; lia|]. eapply Forall_impl; [exact Hf|]. cbn. lia.
Qed.

Lemma dispatch_index m d : 0 <= local_index d -> local_index d + 1 < 2 ^ 64 ->
  local_index (dispatch m d).2 = local_index d + 1.
Proof.
  intros H0 H1. unfold dispatch. rewrite (wrap_small 64) by (unfold in_width; lia). case_match; [|done].
  by destruct (send_all _ _ _) as [[? ?] ?].
Qed.

Lemma dispatch_all_queues rs ms : forall L d,
  wired rs d -> queued rs L (heap d) -> 0 <= local_index d -> local_index d + Z.of_nat (length ms) < 2 ^ 64 ->
  queued rs (L ++ number (local_index d) ms) (heap (dispatch_all ms d)).
Proof.
  induction ms as [|m ms IH]; intros L d Hw Hq H0 H1; cbn; [by rewrite app_nil_r|]. cbn in H1.
  destruct (dispatch_queues rs L d m Hw Hq) as [Hw' Hq']. pose proof (dispatch_index m d H0 ltac:(lia)) as Hi.
  specialize (IH _ _ Hw' Hq'). rewrite Hi, <- app_assoc in IH. apply IH; lia.
Qed.

Lemma number_snd ms : forall n, snd <$> number n ms = ms.
Proof. induction ms as [|m ms IH]; intros n; cbn; [done|]. by rewrite IH. Qed.

(** Only the numbered messages of the branches matter. *)
Lemma queued_for_us rs L h : queued rs L h -> queued rs (filter (fun e => for_us rs e.2) L) h.
Proof.
  intros Hq r Hr. destruct (Hq r Hr) as (c & Hc & Hs & Hd). exists c. split_and!; try done. rewrite Hd. unfold reads.
  rewrite list_filter_filter. apply list_filter_iff. intros [n m]. cbn. split; [|tauto]. intros Hp. split; [done|].
  apply Exists_exists. exists r. by split.
Qed.

Lemma numbered_filter L (P : Z * Message -> Prop) `{!forall e, Decision (P e)} : numbered L -> numbered (filter P L).
Proof.
  induction 1 as [|e L Hs IH Hf]; [constructor|]. rewrite filter_cons. case_decide; [|done]. constructor; [done|].
  rewrite List.Forall_forall in *. intros x Hx. apply Hf. apply list_elem_of_In in Hx. apply list_elem_of_filter in Hx as [_ Hx].
  by apply list_elem_of_In.
Qed.

Lemma filter_snd (P : Message -> Prop) `{!forall m, Decision (P m)} L :
  snd <$> filter (fun e : Z * Message => P e.2) L = filter P (snd <$> L).
Proof. induction L as [|[n m] L IH]; [done|]. rewrite fmap_cons, !filter_cons. cbn [snd]. case_decide; [rewrite fmap_cons|]; by rewrite IH. Qed.

(** C35: a [select!] loop handles the messages of a block in the order they were
    dispatched, each by the branch that subscribed its topic, skipping the
    topics nobody subscribed, and returns with its channels empty: the numbers
    the dispatcher gives the messages put the channels back in order. *)
Theorem select_in_order rs gone d ms s fuel :
  wired rs d -> queued rs [] (heap d) -> 0 <= local_index d ->
  local_index d + Z.of_nat (length ms) < 2 ^ 64 -> (length ms < fuel)%nat ->
  match in_order rs ms s with
  | Some s' => exists h', select_loop fuel (branches rs) gone (heap (dispatch_all ms d)) s = Some (h', s') /\
                 queued rs [] h'
  | None => select_loop fuel (branches rs) gone (heap (dispatch_all ms d)) s = None
  end.
Proof.
  intros Hw Hq H0 H1 Hfuel. pose proof (dispatch_all_queues rs ms [] d Hw Hq H0 H1) as Hd. cbn in Hd.
  apply queued_for_us in Hd.
  pose proof (select_loop_order rs gone _ (heap (dispatch_all ms d)) s fuel (wr_apart _ _ Hw)
    (numbered_filter _ _ (proj1 (number_sorted ms (local_index d)))) Hd) as Hloop.
  rewrite filter_snd, number_snd, in_order_filter in Hloop. apply Hloop.
  - apply Forall_forall. intros e He. by apply list_elem_of_filter in He as [? _].
  - eapply Nat.le_lt_trans; [apply length_filter|]. rewrite <- (length_fmap snd), number_snd. done.
Qed.
End order.
