(* ===== verification/KeyShare.v ===== *)
(** * Keys and how they are shared (crates/phala-crypto/src)

    Secret keys travel between pRuntimes encrypted: the sender derives a key
    pair, agrees on a secret with the receiver's public key and encrypts with
    it (key_share.rs). The primitives of schnorrkel, ring and sp-core that
    sr25519.rs, ecdh.rs and aead.rs wrap are the class [Crypto], with their
    documented behaviour in [CryptoLaws]. *)

From S2P Require Import Prelude MqTypes Storage.

(** sr25519 key pairs, by what identifies them; 64-byte secrets; 12-byte IVs *)
Abbreviation Pair := Z (only parsing).
Abbreviation Secret := bytes (only parsing).
Abbreviation IV := bytes (only parsing).

Class Crypto := {
  (** sr25519.rs: [Persistence], [KDF], [Signing] *)
  restore_from_secret_key : Secret -> Pair;
  dump_secret_key : Pair -> Secret;
  derive_sr25519_pair : Pair -> list bytes -> option Pair;
  public_of : Pair -> Z;
  pair_sign : Pair -> bytes -> bytes;
  (** ecdh.rs: the public key of [derive_ecdh_key], and [agree] with it *)
  ecdh_public : Pair -> EcdhPublicKey;
  agree_with : Pair -> EcdhPublicKey -> bytes;
  (** aead.rs *)
  aead_encrypt : IV -> bytes -> bytes -> option bytes;
  aead_decrypt : IV -> bytes -> bytes -> option bytes;
  (** [sp_core::hashing], and the 32 bytes of a hash as a number *)
  blake2_256_of : bytes -> bytes;
  number_of : bytes -> Z;
  bytes_of : Z -> bytes;
}.

Class CryptoLaws `{CR : !Crypto} : Prop := {
  restore_dump : forall k, restore_from_secret_key (dump_secret_key k) = k;
  agree_comm : forall a b, agree_with a (ecdh_public b) = agree_with b (ecdh_public a);
  aead_open : forall iv k d c, aead_encrypt iv k d = Some c -> aead_decrypt iv k c = Some d;
  (** neither fails with a derived key and an agreed secret *)
  derive_ok : forall k info, is_Some (derive_sr25519_pair k info);
  aead_ok : forall iv a p d, is_Some (aead_encrypt iv (agree_with a p) d);
}.

Section key_share.
Context `{CR : !Crypto}.

Definition encrypt_secret_to (my_key : Pair) (key_derive_info : list bytes) (ecdh_pubkey : EcdhPublicKey)
    (secret_key : Secret) (iv : IV) : option (EcdhPublicKey * bytes) :=
  derived_key ← derive_sr25519_pair my_key key_derive_info;
  let secret := agree_with derived_key ecdh_pubkey in
  data ← aead_encrypt iv secret secret_key;
  Some (ecdh_public derived_key, data).

(** [try_into] a 64-byte array *)
Definition decrypt_secret_from (my_key : Pair) (ecdh_pubkey : EcdhPublicKey) (encrypted_key : bytes) (iv : IV) : option Secret :=
  let secret := agree_with my_key ecdh_pubkey in
  secret_key ← aead_decrypt iv secret encrypted_key;
  if (length secret_key =? 64)%nat then Some secret_key else None.

(** What is encrypted to a key pair, the pair decrypts. *)
Lemma key_share_roundtrip `{CL : !CryptoLaws} my_key info other secret iv :
  length secret = 64%nat -> exists pk data,
    encrypt_secret_to my_key info (ecdh_public other) secret iv = Some (pk, data) /\
    decrypt_secret_from other pk data iv = Some secret.
Proof.
  intros Hl. unfold encrypt_secret_to, decrypt_secret_from. destruct (derive_ok my_key info) as [d ->]. cbn.
  destruct (aead_ok iv d (ecdh_public other) secret) as [c Hc]. rewrite Hc. cbn. do 2 eexists. split; [done|].
  rewrite agree_comm, (aead_open _ _ _ _ Hc). cbn. by rewrite Hl.
Qed.
End key_share.
