(* ===== verification/WorkerSM.v ===== *)
(** * The worker state machine (crates/phactory/src/system/mod.rs)

    A worker follows the system events of the chain: it is registered,
    benchmarked, started, paused and stopped, and answers the heartbeat
    challenges it is hit by. The same machine runs in every worker, with
    [WorkerSMDelegate] as its callback, and once more per worker in every
    gatekeeper, with [WorkerSMTracker] (gk.rs): the trait
    [WorkerStateMachineCallback] is a class with these two instances. *)

From S2P Require Import Prelude MqTypes Storage.

(** What [blake2_256] makes of a public key, as a [U256] *)
Class PubkeyHash := hashed_pubkey : WorkerPublicKey -> Z.

(** [BaseBlockInfo]: what the machines read of it *)
Record BlockInfo := mkBlock { block_number : BlockNumber; block_now_ms : Z }.

Record BenchState := mkBench {
  start_block : BlockNumber;
  bench_start_time : Z;
  bench_start_iter : Z;
  bench_duration : Z;
}.

Inductive WorkingState := Computing | Paused.

#[global] Instance WorkingState_eq_dec : EqDecision WorkingState.
Proof. solve_decision. Defined.

Record WorkingInfo := mkWorking {
  session_id : Z;
  working_st : WorkingState; (** [state] *)
  start_time : Z;
  start_iter : Z;
}.

Record WorkerState := mkWorkerState {
  ws_pubkey : WorkerPublicKey;
  ws_hashed_id : Z;
  ws_registered : bool;
  bench_state : option BenchState;
  working_state : option WorkingInfo;
}.

Definition put_registered (v : bool) (w : WorkerState) : WorkerState :=
  mkWorkerState (ws_pubkey w) (ws_hashed_id w) v (bench_state w) (working_state w).
Definition put_bench_state (v : option BenchState) (w : WorkerState) : WorkerState :=
  mkWorkerState (ws_pubkey w) (ws_hashed_id w) (ws_registered w) v (working_state w).
Definition put_working_state (v : option WorkingInfo) (w : WorkerState) : WorkerState :=
  mkWorkerState (ws_pubkey w) (ws_hashed_id w) (ws_registered w) (bench_state w) v.

Definition worker_state_new `{PH : !PubkeyHash} (pubkey : WorkerPublicKey) : WorkerState :=
  mkWorkerState pubkey (hashed_pubkey pubkey) false None None.

(** The callbacks; the trait's defaults are [0] and no effect. *)
Class WorkerStateMachineCallback (C : Type) := {
  bench_iterations : C -> Z;
  bench_resume : C -> C;
  bench_pause : C -> C;
  bench_report : Z -> Z -> C -> C;
  heartbeat : Z -> BlockNumber -> Z -> Z -> C -> C;
}.

Section machine.
Context {C : Type} `{CB : !WorkerStateMachineCallback C}.

Definition need_pause (w : WorkerState) : bool :=
  bool_decide (bench_state w = None) && bool_decide (working_state w = None).

Definition handle_heartbeat_challenge (block : BlockInfo) (seed online_target : Z) (w : WorkerState) (cb : C) : C :=
  if negb (ws_registered w) then cb
  else match working_state w with
  | None => cb
  | Some i =>
      if bool_decide (working_st i = Paused) then cb
      else if Z.lxor (ws_hashed_id w) seed <=? online_target then
        heartbeat (session_id i) (block_number block) (block_now_ms block)
          (bench_iterations cb -[64] start_iter i) cb
      else cb
  end.

Definition process_event (block : BlockInfo) (event : SystemEvent) (w : WorkerState) (cb : C) : WorkerState * C :=
  match event with
  | SysHeartbeatChallenge seed online_target => (w, handle_heartbeat_challenge block seed online_target w cb)
  | SysWorkerEvent pubkey evt =>
      if negb (pubkey =? ws_pubkey w) then (w, cb)
      else match evt with
      | WRegistered _ => (put_registered true w, cb)
      | BenchStart duration =>
          (put_bench_state (Some (mkBench (block_number block) (block_now_ms block) (bench_iterations cb) duration)) w,
           bench_resume cb)
      | BenchScore _ => (w, cb)
      | Started session_id _ _ =>
          (put_working_state (Some (mkWorking session_id Computing (block_now_ms block) (bench_iterations cb))) w,
           bench_resume cb)
      | Stopped =>
          let w := put_working_state None w in
          (w, if need_pause w then bench_pause cb else cb)
      | EnterUnresponsive =>
          match working_state w with
          | Some (mkWorking sid Computing st si) => (put_working_state (Some (mkWorking sid Paused st si)) w, cb)
          | _ => (w, cb)
          end
      | ExitUnresponsive =>
          match working_state w with
          | Some (mkWorking sid Paused st si) => (put_working_state (Some (mkWorking sid Computing st si)) w, cb)
          | _ => (w, cb)
          end
      end
  end.

Definition on_block_processed (block : BlockInfo) (w : WorkerState) (cb : C) : WorkerState * C :=
  match bench_state w with
  | None => (w, cb)
  | Some b =>
      if bench_duration b <=? (block_number block -[32] start_block b) then
        let w := put_bench_state None w in
        let iterations := bench_iterations cb -[64] bench_start_iter b in
        let cb := bench_report (bench_start_time b) iterations cb in
        (w, if need_pause w then bench_pause cb else cb)
      else (w, cb)
  end.
End machine.

(** ** In the worker: [WorkerSMDelegate] and the benchmark thread *)

(** What a worker pushes to its egress *)
Inductive WorkerMessage :=
  | MsgRegistry (e : RegistryEvent)
  | MsgReport (e : WorkingReportEvent).

(** The delegate with the state behind it: the messages pushed, the benchmark's
    iteration counter and its [BENCH_PAUSED] flag *)
Record WorkerSMDelegate := mkDelegate {
  dg_egress : list WorkerMessage;
  n_clusters : Z;
  n_contracts : Z;
  iteration_counter : Z;
  bench_paused : bool;
}.

Definition egress_push (m : WorkerMessage) (d : WorkerSMDelegate) : WorkerSMDelegate :=
  mkDelegate (dg_egress d ++ [m]) (n_clusters d) (n_contracts d) (iteration_counter d) (bench_paused d).
Definition set_bench_paused (b : bool) (d : WorkerSMDelegate) : WorkerSMDelegate :=
  mkDelegate (dg_egress d) (n_clusters d) (n_contracts d) (iteration_counter d) b.

#[global] Instance delegate_callback : WorkerStateMachineCallback WorkerSMDelegate := {|
  bench_iterations := iteration_counter;
  bench_resume := set_bench_paused false;
  bench_pause := set_bench_paused true;
  bench_report start_time iterations := egress_push (MsgRegistry (BenchReport start_time iterations));
  heartbeat session_id challenge_block challenge_time iterations d :=
    egress_push (MsgReport (HeartbeatV2 session_id challenge_block challenge_time iterations
      (n_clusters d) (n_contracts d))) d;
|}.

(** ** In the gatekeeper: [WorkerSMTracker] *)

Record WorkerSMTracker := mkTracker {
  tr_waiting : list BlockNumber; (** [waiting_heartbeats] *)
  challenge_received : bool;
}.

Definition tracker_new (waiting : list BlockNumber) : WorkerSMTracker := mkTracker waiting false.

#[global] Instance tracker_callback : WorkerStateMachineCallback WorkerSMTracker := {|
  bench_iterations _ := 0;
  bench_resume t := t;
  bench_pause t := t;
  bench_report _ _ t := t;
  heartbeat _ challenge_block _ _ t := mkTracker (tr_waiting t ++ [challenge_block]) true;
|}.
