(* ===== verification/Tokenomic.v ===== *)
(** * The gatekeeper's tokenomic model (crates/phactory/src/system/gk.rs, mod tokenomic)

    Every worker has a value [v] that grows while it idles, is paid out from on
    heartbeats and is slashed while it is unresponsive. Numbers are [U64F64]
    bits; [None] is the panic of a division by zero. The crate's feature
    [gk-stat] (statistics, off by default) is not modelled. *)

From S2P Require Import Prelude MqTypes Storage FixedPoint.

(** Further operations of the [fixed] crates: conversion from [u64], products
    and quotients with integers, literals [fp!(n/d)] *)
Class FixedNum := {
  u64f64_of_u64 : Z -> Z;
  u64f64_mul_int : Z -> Z -> Z;
  u64f64_div_int : Z -> Z -> Z;
  fp_lit : Z -> Z -> Z;
}.

Class FixedNumDoc `{FN : !FixedNum} `{FC : !FixedCrate} : Prop := {
  u64f64_of_u64_doc : forall n, u64 n -> u64f64_of_u64 n = n * 2 ^ 64;
  u64f64_mul_int_doc : forall a n, u64f64_mul_int a n = wrap 128 (a * n);
  u64f64_div_int_doc : forall a n, 0 < n -> u64f64_div_int a n = a / n;
  fp_lit_doc : forall n d, 0 < d -> 2 * Z.abs (d * fp_lit n d - n * 2 ^ 64) <= d;
  u64f64_sqrt_doc : forall a, u128 a -> u128 (u64f64_sqrt a);
}.

Record TokenomicInfo := mkTokInfo {
  tk_v : FixedBits;
  tk_v_init : FixedBits;
  tk_v_deductible : FixedBits;
  tk_v_update_at : Z;
  tk_v_update_block : BlockNumber;
  tk_iteration_last : Z;
  tk_challenge_time_last : Z;
  tk_p_bench : FixedBits;
  tk_p_instant : FixedBits;
  tk_confidence_level : Z;
  tk_contract_running : bool;
}.

Record Params := mkParams {
  pr_rho : FixedBits;
  pr_slash_rate : FixedBits;
  pr_budget_per_block : FixedBits;
  pr_v_max : FixedBits;
  pr_cost_k : FixedBits;
  pr_cost_b : FixedBits;
  pr_treasury_ration : FixedBits;
  pr_payout_ration : FixedBits;
  pr_heartbeat_window : Z;
}.

Definition tok_info_default : TokenomicInfo := mkTokInfo 0 0 0 0 0 0 0 0 0 0 false.

Definition put_tk_v (v : FixedBits) (t : TokenomicInfo) : TokenomicInfo :=
  mkTokInfo v (tk_v_init t) (tk_v_deductible t) (tk_v_update_at t) (tk_v_update_block t) (tk_iteration_last t)
    (tk_challenge_time_last t) (tk_p_bench t) (tk_p_instant t) (tk_confidence_level t) (tk_contract_running t).
Definition put_tk_v_deductible (v : FixedBits) (t : TokenomicInfo) : TokenomicInfo :=
  mkTokInfo (tk_v t) (tk_v_init t) v (tk_v_update_at t) (tk_v_update_block t) (tk_iteration_last t)
    (tk_challenge_time_last t) (tk_p_bench t) (tk_p_instant t) (tk_confidence_level t) (tk_contract_running t).
Definition put_tk_updated (at_ms : Z) (block : BlockNumber) (t : TokenomicInfo) : TokenomicInfo :=
  mkTokInfo (tk_v t) (tk_v_init t) (tk_v_deductible t) at_ms block (tk_iteration_last t)
    (tk_challenge_time_last t) (tk_p_bench t) (tk_p_instant t) (tk_confidence_level t) (tk_contract_running t).
Definition put_tk_iteration_last (v : Z) (t : TokenomicInfo) : TokenomicInfo :=
  mkTokInfo (tk_v t) (tk_v_init t) (tk_v_deductible t) (tk_v_update_at t) (tk_v_update_block t) v
    (tk_challenge_time_last t) (tk_p_bench t) (tk_p_instant t) (tk_confidence_level t) (tk_contract_running t).
Definition put_tk_challenge_time_last (v : Z) (t : TokenomicInfo) : TokenomicInfo :=
  mkTokInfo (tk_v t) (tk_v_init t) (tk_v_deductible t) (tk_v_update_at t) (tk_v_update_block t) (tk_iteration_last t)
    v (tk_p_bench t) (tk_p_instant t) (tk_confidence_level t) (tk_contract_running t).
Definition put_tk_p_instant (v : FixedBits) (t : TokenomicInfo) : TokenomicInfo :=
  mkTokInfo (tk_v t) (tk_v_init t) (tk_v_deductible t) (tk_v_update_at t) (tk_v_update_block t) (tk_iteration_last t)
    (tk_challenge_time_last t) (tk_p_bench t) v (tk_confidence_level t) (tk_contract_running t).
Definition put_tk_confidence_level (v : Z) (t : TokenomicInfo) : TokenomicInfo :=
  mkTokInfo (tk_v t) (tk_v_init t) (tk_v_deductible t) (tk_v_update_at t) (tk_v_update_block t) (tk_iteration_last t)
    (tk_challenge_time_last t) (tk_p_bench t) (tk_p_instant t) v (tk_contract_running t).
Definition put_tk_contract_running (v : bool) (t : TokenomicInfo) : TokenomicInfo :=
  mkTokInfo (tk_v t) (tk_v_init t) (tk_v_deductible t) (tk_v_update_at t) (tk_v_update_block t) (tk_iteration_last t)
    (tk_challenge_time_last t) (tk_p_bench t) (tk_p_instant t) (tk_confidence_level t) v.

Section tokenomic.
Context `{FC : !FixedCrate} `{FN : !FixedNum}.

Definition square (v : FixedBits) : FixedBits := u64f64_mul v v.

Definition conf_score (level : Z) : FixedBits :=
  if bool_decide (level ∈ [1; 2; 3; 128]) then fp_lit 1 1
  else if level =? 4 then fp_0_8
  else if level =? 5 then fp_0_7
  else fp_lit 0 1.

(** [impl From<TokenomicParameters> for Params] *)
Definition params_of (p : TokenomicParameters) : Params :=
  mkParams (rho p) (slash_rate p) (budget_per_block p) (v_max p) (cost_k p) (cost_b p)
    (treasury_ratio p) (u64f64_sub (fp_lit 1 1) (treasury_ratio p)) (heartbeat_window p).

Definition test_params : Params :=
  mkParams (fp_lit 1000000666600231 1000000000000000)
    (fp_lit 33333333333333240063 10000000000000000000000000)
    (fp_lit 100 1) (fp_lit 30000 1)
    (fp_lit 15815258751856933056 1000000000000000000000000000)
    (fp_lit 33711472602739674283 1000000000000000000000000)
    (fp_lit 2 10) (fp_lit 8 10) 10.

Definition tk_p (t : TokenomicInfo) : FixedBits :=
  if tk_contract_running t then tk_p_bench t else tk_p_instant t.

Definition tk_share (t : TokenomicInfo) : FixedBits :=
  u64f64_sqrt (u64f64_add (square (tk_v t))
    (square (u64f64_mul (u64f64_mul (fp_lit 2 1) (tk_p t)) (conf_score (tk_confidence_level t))))).

Definition update_v_idle (params : Params) (t : TokenomicInfo) : option TokenomicInfo :=
  let cost_idle := u64f64_add (u64f64_mul (pr_cost_k params) (tk_p_bench t)) (pr_cost_b params) in
  perf_multiplier ← (if tk_p_bench t =? fp_lit 0 1 then Some (fp_lit 1 1) else u64f64_div (tk_p t) (tk_p_bench t));
  let delta_v := u64f64_mul perf_multiplier
    (u64f64_add (u64f64_mul (u64f64_sub (pr_rho params) (fp_lit 1 1)) (tk_v t)) cost_idle) in
  let v := u64f64_add (tk_v t) delta_v in
  let t := put_tk_v (Z.min v (pr_v_max params)) t in
  Some (put_tk_v_deductible (u64f64_add (tk_v_deductible t) delta_v) t).

(** The payout, the treasury's part and the new state *)
Definition update_v_heartbeat (params : Params) (sum_share : FixedBits) (now_ms : Z) (block_number : BlockNumber)
    (t : TokenomicInfo) : option (FixedBits * FixedBits * TokenomicInfo) :=
  let no_update := Some (fp_lit 0 1, fp_lit 0 1, t) in
  if sum_share =? fp_lit 0 1 then no_update
  else if tk_v_deductible t =? fp_lit 0 1 then no_update
  else if block_number <=? tk_v_update_block t then no_update
  else
    let share := tk_share t in
    if share =? fp_lit 0 1 then no_update
    else
      let blocks := u64f64_of_u32 (block_number -[32] tk_v_update_block t) in
      ratio ← u64f64_div share sum_share;
      let budget := u64f64_mul (u64f64_mul ratio (pr_budget_per_block params)) blocks in
      let actual_payout := u64f64_mul budget (pr_payout_ration params) in
      let actual_treasury := u64f64_mul budget (pr_treasury_ration params) in
      let actual_v_deduct := Z.min (Z.max (tk_v_deductible t) (fp_lit 0 1)) actual_payout in
      let t := put_tk_v (u64f64_sub (tk_v t) actual_v_deduct) t in
      let t := put_tk_v_deductible (fp_lit 0 1) t in
      Some (actual_payout, actual_treasury, put_tk_updated now_ms block_number t).

Definition update_v_recover (now_ms : Z) (block_number : BlockNumber) (t : TokenomicInfo) : TokenomicInfo :=
  put_tk_updated now_ms block_number (put_tk_v_deductible (fp_lit 0 1) t).

Definition update_v_slash (params : Params) (t : TokenomicInfo) : TokenomicInfo :=
  let slash := u64f64_mul (tk_v t) (pr_slash_rate params) in
  put_tk_v_deductible (fp_lit 0 1) (put_tk_v (u64f64_sub (tk_v t) slash) t).

Definition update_p_instant (now iterations : Z) (contract_running : bool) (t : TokenomicInfo) : option TokenomicInfo :=
  let t := put_tk_contract_running contract_running t in
  if now <=? tk_challenge_time_last t then Some t
  else
    let t := if iterations <? tk_iteration_last t then put_tk_iteration_last iterations t else t in
    let dt := u64f64_div_int (u64f64_of_u64 (now -[64] tk_challenge_time_last t)) 1000 in
    q ← u64f64_div (u64f64_of_u64 (iterations -[64] tk_iteration_last t)) dt;
    let p := u64f64_mul_int q 6 in
    Some (put_tk_p_instant (Z.min p (u64f64_mul (tk_p_bench t) (fp_lit 12 10))) t).
End tokenomic.
