(* ===== verification/Economics.v ===== *)
(** * Computing economics (crates/phactory/src/system/gk.rs, ComputingEconomics)

    The gatekeeper's view of all workers: their replayed state machines, the
    heartbeats they owe, and their tokenomic values; per block it reports to the
    computation pallet who went offline, who came back, and the settlements.
    [None] is a panic. The messages pushed to the egress are a list. *)

From S2P Require Import Prelude MqTypes Storage FixedPoint WorkerSM Tokenomic.

Record WorkerInfo := mkInfo {
  wi_state : WorkerState;
  waiting_heartbeats : list BlockNumber;
  unresponsive : bool;
  tokenomic : TokenomicInfo;
  heartbeat_flag : bool;
}.

Definition worker_info_new `{PH : !PubkeyHash} (pubkey : WorkerPublicKey) : WorkerInfo :=
  mkInfo (worker_state_new pubkey) [] false tok_info_default false.

Inductive EconomicEvent :=
  | EvWorkingStarted | EvWorkingStopped | EvHeartbeatChallenge | EvHeartbeat (payout : FixedBits)
  | EvEnterUnresponsive | EvExitUnresponsive | EvRecoverV.

(** [EconomicEvent::payout] *)
Definition event_payout (e : EconomicEvent) : FixedBits :=
  match e with EvHeartbeat payout => payout | _ => 0 end.

Class EconomicEventListener (L : Type) := emit_event : EconomicEvent -> WorkerInfo -> L -> L.
#[global] Instance unit_listener : EconomicEventListener unit := fun _ _ l => l.

(** [EconomicCalcCache] and [ComputingEconomics] *)
Record EcoCache := mkCache { cache_sum_share : FixedBits; cache_report : WorkingInfoUpdateEvent }.
Record ComputingEconomics := mkEco {
  eco_egress : list WorkingInfoUpdateEvent;
  eco_workers : gmap WorkerPublicKey WorkerInfo;
  tokenomic_params : Params;
  eco_cache : EcoCache;
}.

Definition put_eco_workers (m : gmap WorkerPublicKey WorkerInfo) (e : ComputingEconomics) : ComputingEconomics :=
  mkEco (eco_egress e) m (tokenomic_params e) (eco_cache e).
Definition put_eco_cache (c : EcoCache) (e : ComputingEconomics) : ComputingEconomics :=
  mkEco (eco_egress e) (eco_workers e) (tokenomic_params e) c.
Definition put_report (r : WorkingInfoUpdateEvent) (e : ComputingEconomics) : ComputingEconomics :=
  put_eco_cache (mkCache (cache_sum_share (eco_cache e)) r) e.

Definition push_settle (s : SettleInfo) (r : WorkingInfoUpdateEvent) : WorkingInfoUpdateEvent :=
  mkUpdate (upd_block_number r) (upd_timestamp_ms r) (upd_offline r) (upd_recovered_to_online r) (upd_settle r ++ [s]).
Definition push_offline (k : WorkerPublicKey) (r : WorkingInfoUpdateEvent) : WorkingInfoUpdateEvent :=
  mkUpdate (upd_block_number r) (upd_timestamp_ms r) (upd_offline r ++ [k]) (upd_recovered_to_online r) (upd_settle r).
Definition push_recovered (k : WorkerPublicKey) (r : WorkingInfoUpdateEvent) : WorkingInfoUpdateEvent :=
  mkUpdate (upd_block_number r) (upd_timestamp_ms r) (upd_offline r) (upd_recovered_to_online r ++ [k]) (upd_settle r).

(** [ordmap_for_each_mut]: the keys of the ordered map in order, each value
    updated in place while [f] also works on the state it captures. *)
Definition sorted_keys {V} (m : gmap Z V) : list Z := merge_sort Z.le (elements (dom m)).
Fixpoint for_each_key {V A} (keys : list Z) (f : V -> A -> option (V * A)) (m : gmap Z V) (a : A) :
    option (gmap Z V * A) :=
  match keys with
  | [] => Some (m, a)
  | k :: keys' =>
      v ← m !! k;
      '(v', a) ← f v a;
      for_each_key keys' f (<[ k := v' ]> m) a
  end.
Definition ordmap_for_each_mut {V A} (f : V -> A -> option (V * A)) (m : gmap Z V) (a : A) : option (gmap Z V * A) :=
  for_each_key (sorted_keys m) f m a.

Section economics.
Context `{FC : !FixedCrate} `{FN : !FixedNum} `{PH : !PubkeyHash} {L : Type} `{EL : !EconomicEventListener L}.

Definition eco_new : ComputingEconomics :=
  mkEco [] ∅ test_params (mkCache 0 (mkUpdate 0 0 [] [] [])).

Definition sum_share (e : ComputingEconomics) : FixedBits :=
  foldl (fun acc k => match eco_workers e !! k with
                      | Some info =>
                          if negb (unresponsive info) && bool_decide (is_Some (working_state (wi_state info)))
                          then u64f64_add acc (tk_share (tokenomic info)) else acc
                      | None => acc
                      end) 0 (sorted_keys (eco_workers e)).

Definition put_heartbeat_flag (b : bool) (w : WorkerInfo) : WorkerInfo :=
  mkInfo (wi_state w) (waiting_heartbeats w) (unresponsive w) (tokenomic w) b.
Definition put_unresponsive (b : bool) (w : WorkerInfo) : WorkerInfo :=
  mkInfo (wi_state w) (waiting_heartbeats w) b (tokenomic w) (heartbeat_flag w).
Definition put_tokenomic (t : TokenomicInfo) (w : WorkerInfo) : WorkerInfo :=
  mkInfo (wi_state w) (waiting_heartbeats w) (unresponsive w) t (heartbeat_flag w).
Definition put_waiting (l : list BlockNumber) (w : WorkerInfo) : WorkerInfo :=
  mkInfo (wi_state w) l (unresponsive w) (tokenomic w) (heartbeat_flag w).

(** [WorkerSMTracker::new(&mut worker_info.waiting_heartbeats)] for one step of the machine *)
Definition track (step : WorkerState -> WorkerSMTracker -> WorkerState * WorkerSMTracker) (w : WorkerInfo) :
    WorkerInfo * bool :=
  let '(st, tr) := step (wi_state w) (tracker_new (waiting_heartbeats w)) in
  (mkInfo st (tr_waiting tr) (unresponsive w) (tokenomic w) (heartbeat_flag w), challenge_received tr).

Definition will_process_block (block : BlockInfo) (e : ComputingEconomics) : option ComputingEconomics :=
  let e := put_eco_cache
    (mkCache (sum_share e) (mkUpdate (block_number block) (block_now_ms block) [] [] [])) e in
  '(m, _) ← ordmap_for_each_mut (fun w u => Some (put_heartbeat_flag false w, u)) (eco_workers e) tt;
  Some (put_eco_workers m e).

(** The body of the loop of [did_process_block]; the report and the listener are captured. *)
Definition block_post_process (block : BlockInfo) (params : Params) (w : WorkerInfo) (a : WorkingInfoUpdateEvent * L) :
    option (WorkerInfo * (WorkingInfoUpdateEvent * L)) :=
  let '(report, l) := a in
  let '(w, _) := track (on_block_processed block) w in
  match working_state (wi_state w) with
  | None => Some (w, (report, l))
  | Some _ =>
      let '(w, report, l) :=
        if unresponsive w then
          if heartbeat_flag w then
            let w := put_unresponsive false w in
            (w, push_recovered (ws_pubkey (wi_state w)) report, emit_event EvExitUnresponsive w l)
          else (w, report, l)
        else match waiting_heartbeats w with
        | [] => (w, report, l)
        | hb_sent_at :: _ =>
            if pr_heartbeat_window params <? (block_number block -[32] hb_sent_at) then
              let w := put_unresponsive true w in
              (w, push_offline (ws_pubkey (wi_state w)) report, emit_event EvEnterUnresponsive w l)
            else (w, report, l)
        end in
      if unresponsive w then
        Some (put_tokenomic (update_v_slash params (tokenomic w)) w, (report, l))
      else if negb (heartbeat_flag w) then
        t ← update_v_idle params (tokenomic w);
        Some (put_tokenomic t w, (report, l))
      else Some (w, (report, l))
  end.

Definition did_process_block (block : BlockInfo) (e : ComputingEconomics) (l : L) : option (ComputingEconomics * L) :=
  '(m, (report, l)) ← ordmap_for_each_mut (block_post_process block (tokenomic_params e)) (eco_workers e)
    (cache_report (eco_cache e), l);
  let e := put_report (mkUpdate 0 0 [] [] []) (put_eco_workers m e) in
  Some (if update_is_empty report then e
        else mkEco (eco_egress e ++ [report]) (eco_workers e) (tokenomic_params e) (eco_cache e), l).

(** ** Messages *)

Definition report_terms (event : WorkingReportEvent) : Z * BlockNumber * Z * Z :=
  match event with
  | Heartbeat s b t i | HeartbeatV2 s b t i _ _ => (s, b, t, i)
  end.
Definition contract_running_in (event : WorkingReportEvent) : bool :=
  match event with HeartbeatV2 _ _ _ _ n _ => 0 <? n | _ => false end.

(** A heartbeat that answers the oldest challenge of a working session: the
    new state of the worker, the payout, and the settlement to report. *)
Definition accept_heartbeat (block : BlockInfo) (params : Params) (sum : FixedBits) (event : WorkingReportEvent)
    (worker_pubkey : WorkerPublicKey) (w : WorkerInfo) : option (WorkerInfo * FixedBits * option SettleInfo) :=
  let '(_, _, challenge_time, iterations) := report_terms event in
  let w := put_heartbeat_flag true w in
  t ← update_p_instant (block_now_ms block) iterations (contract_running_in event) (tokenomic w);
  let t := put_tk_iteration_last iterations (put_tk_challenge_time_last challenge_time t) in
  if unresponsive w then
    Some (put_tokenomic (update_v_recover (block_now_ms block) (block_number block) t) w, fp_lit 0 1, None)
  else
    '(payout, treasury, t) ← update_v_heartbeat params sum (block_now_ms block) (block_number block) t;
    Some (put_tokenomic t w, payout, Some (mkSettle worker_pubkey (tk_v t) payout treasury)).

Definition process_computing_report (origin : MessageOrigin) (event : WorkingReportEvent) (block : BlockInfo)
    (e : ComputingEconomics) (l : L) : option (ComputingEconomics * L) :=
  match origin with
  | Worker worker_pubkey =>
      let '(session, challenge_block, _, _) := report_terms event in
      match eco_workers e !! worker_pubkey with
      | None => Some (e, l)
      | Some w =>
          match waiting_heartbeats w with
          | [] => None
          | b :: rest =>
              if negb (challenge_block =? b) then None
              else
                let w := put_waiting rest w in
                let e := put_eco_workers (<[ worker_pubkey := w ]> (eco_workers e)) e in
                match working_state (wi_state w) with
                | None => Some (e, l)
                | Some i =>
                    if negb (session =? session_id i) then Some (e, l)
                    else
                      '(w, payout, settle) ← accept_heartbeat block (tokenomic_params e)
                          (cache_sum_share (eco_cache e)) event worker_pubkey w;
                      let e := put_eco_workers (<[ worker_pubkey := w ]> (eco_workers e)) e in
                      let e := match settle with
                               | Some s => put_report (push_settle s (cache_report (eco_cache e))) e
                               | None => e
                               end in
                      Some (e, emit_event (EvHeartbeat payout) w l)
                end
          end
      end
  | _ => Some (e, l)
  end.

(** What a worker event changes besides the state machine *)
Definition on_worker_event (block : BlockInfo) (pubkey : WorkerPublicKey) (event : WorkerEvent)
    (e : ComputingEconomics) (l : L) : ComputingEconomics * L :=
  match eco_workers e !! pubkey with
  | None => (e, l)
  | Some w =>
      match event with
      | WRegistered confidence_level =>
          (put_eco_workers (<[ pubkey :=
             put_tokenomic (put_tk_confidence_level confidence_level (tokenomic w)) w ]> (eco_workers e)) e, l)
      | Started _ init_v init_p =>
          let w := put_tokenomic
            (mkTokInfo init_v init_v (fp_lit 0 1) (block_now_ms block) (block_number block) 0 (block_now_ms block)
               (u64f64_of_u32 init_p) (u64f64_of_u32 init_p) (tk_confidence_level (tokenomic w)) false)
            (put_unresponsive false w) in
          (put_eco_workers (<[ pubkey := w ]> (eco_workers e)) e, emit_event EvWorkingStarted w l)
      | Stopped =>
          (put_report (push_settle (mkSettle (ws_pubkey (wi_state w)) (tk_v (tokenomic w)) 0 0)
             (cache_report (eco_cache e))) e, emit_event EvWorkingStopped w l)
      | BenchStart _ | BenchScore _ | EnterUnresponsive | ExitUnresponsive => (e, l)
      end
  end.

Definition process_system_event (origin : MessageOrigin) (event : SystemEvent) (block : BlockInfo)
    (e : ComputingEconomics) (l : L) : option (ComputingEconomics * L) :=
  if negb (is_pallet origin) then Some (e, l)
  else
    let e := match event with
             | SysWorkerEvent pubkey (WRegistered _) =>
                 match eco_workers e !! pubkey with
                 | Some _ => e
                 | None => put_eco_workers (<[ pubkey := worker_info_new pubkey ]> (eco_workers e)) e
                 end
             | _ => e
             end in
    '(m, l) ← ordmap_for_each_mut (fun w l =>
        let '(w, challenged) := track (process_event block event) w in
        Some (w, if challenged : bool then emit_event EvHeartbeatChallenge w l else l)) (eco_workers e) l;
    let e := put_eco_workers m e in
    Some match event with
         | SysWorkerEvent pubkey evt => on_worker_event block pubkey evt e l
         | SysHeartbeatChallenge _ _ => (e, l)
         end.

Definition eco_update_tokenomic_parameters (params : TokenomicParameters) (e : ComputingEconomics) : ComputingEconomics :=
  mkEco (eco_egress e) (eco_workers e) (params_of params) (eco_cache e).

Definition eco_process_gatekeeper_event (origin : MessageOrigin) (event : GatekeeperEvent) (e : ComputingEconomics) :
    option ComputingEconomics :=
  match event with
  | NewRandomNumber _ _ _ => Some e
  | TokenomicParametersChanged params =>
      Some (if is_pallet origin then eco_update_tokenomic_parameters params e else e)
  | RepairV_ | PhalaLaunched_ | UnrespFix_ => None
  end.
End economics.
