(* ===== verification/Gatekeeper.v ===== *)
(** * The gatekeeper (crates/phactory/src/system/gk.rs, Gatekeeper)

    A gatekeeper holds the master key and its history, shares keys with other
    gatekeepers and with clusters, rotates the master key, and emits and checks
    the chain's pseudo-random numbers. Keys and signatures are the class
    [Crypto]; what is pushed to the egress is a list of messages with the key
    they are signed with and whether the channel was in dummy mode. *)

From S2P Require Import Prelude MqTypes Storage MqPallet FixedPoint Dispatcher KeyShare WorkerSM Tokenomic Economics.

Abbreviation RandomNumber := Z (only parsing).

(** SCALE encoding of [BatchRotateMasterKeyData] *)
Class RotationCodec :=
  encode_rotation : Z -> list (WorkerPublicKey * (Z * bytes * bytes)) -> WorkerPublicKey -> bytes.

(** [to_be_bytes] of an [n]-byte integer *)
Fixpoint be_bytes (n : nat) (z : Z) : bytes :=
  match n with O => [] | S n => be_bytes n (z / 256) ++ [z mod 256] end.

Record RotatedMasterKey := mkRotated { rotation_id : Z; block_height : BlockNumber; secret : Secret }.
#[global] Instance RotatedMasterKey_eq_dec : EqDecision RotatedMasterKey.
Proof. solve_decision. Defined.

Record BatchRotateMasterKeyEvent := mkBatchRotate {
  br_rotation_id : Z;
  br_secret_keys : list (WorkerPublicKey * EncryptedKey); (** a [BTreeMap] *)
  br_sender : WorkerPublicKey;
  br_sig : bytes;
}.

Inductive KeyDistribution :=
  | MasterKeyDistribution (dest : WorkerPublicKey) (key : EncryptedKey)
  | MasterKeyRotation (event : BatchRotateMasterKeyEvent)
  | MasterKeyHistory (dest : WorkerPublicKey) (history : list (Z * BlockNumber * EncryptedKey)).

(** What a gatekeeper pushes *)
Inductive GkMessage :=
  | GkRegistry (e : GatekeeperRegistryEvent)
  | GkKey (e : KeyDistribution)
  | GkClusterPubkey (cluster : H256) (pubkey : Z)
  | GkClusterKeys (terms : ClusterTerms) (keys : list (WorkerPublicKey * EncryptedKey))
  | GkEvent (e : GatekeeperEvent).

Record Egress := mkEgress { eg_signer : Pair; eg_dummy : bool; eg_log : list (Pair * bool * GkMessage) }.
Definition eg_push (m : GkMessage) (e : Egress) : Egress :=
  mkEgress (eg_signer e) (eg_dummy e) (eg_log e ++ [(eg_signer e, eg_dummy e, m)]).
Definition eg_set_dummy (b : bool) (e : Egress) : Egress := mkEgress (eg_signer e) b (eg_log e).
Definition eg_set_signer (k : Pair) (e : Egress) : Egress := mkEgress k (eg_dummy e) (eg_log e).

Record Gatekeeper := mkGk {
  master_key : Pair;
  master_pubkey_on_chain : bool;
  registered_on_chain : bool;
  master_key_history : list RotatedMasterKey;
  gk_egress : Egress;
  last_random_number : RandomNumber;
  iv_seq : Z;
  computing_economics : ComputingEconomics;
}.

Definition put_master_key (v : Pair) (g : Gatekeeper) : Gatekeeper :=
  mkGk v (master_pubkey_on_chain g) (registered_on_chain g) (master_key_history g) (gk_egress g) (last_random_number g) (iv_seq g) (computing_economics g).
Definition put_master_pubkey_on_chain (v : bool) (g : Gatekeeper) : Gatekeeper :=
  mkGk (master_key g) v (registered_on_chain g) (master_key_history g) (gk_egress g) (last_random_number g) (iv_seq g) (computing_economics g).
Definition put_registered_on_chain (v : bool) (g : Gatekeeper) : Gatekeeper :=
  mkGk (master_key g) (master_pubkey_on_chain g) v (master_key_history g) (gk_egress g) (last_random_number g) (iv_seq g) (computing_economics g).
Definition put_master_key_history (v : list RotatedMasterKey) (g : Gatekeeper) : Gatekeeper :=
  mkGk (master_key g) (master_pubkey_on_chain g) (registered_on_chain g) v (gk_egress g) (last_random_number g) (iv_seq g) (computing_economics g).
Definition upd_egress (f : Egress -> Egress) (g : Gatekeeper) : Gatekeeper :=
  mkGk (master_key g) (master_pubkey_on_chain g) (registered_on_chain g) (master_key_history g) (f (gk_egress g)) (last_random_number g) (iv_seq g) (computing_economics g).
Definition put_last_random_number (v : RandomNumber) (g : Gatekeeper) : Gatekeeper :=
  mkGk (master_key g) (master_pubkey_on_chain g) (registered_on_chain g) (master_key_history g) (gk_egress g) v (iv_seq g) (computing_economics g).
Definition put_iv_seq (v : Z) (g : Gatekeeper) : Gatekeeper :=
  mkGk (master_key g) (master_pubkey_on_chain g) (registered_on_chain g) (master_key_history g) (gk_egress g) (last_random_number g) v (computing_economics g).
Definition put_economics (v : ComputingEconomics) (g : Gatekeeper) : Gatekeeper :=
  mkGk (master_key g) (master_pubkey_on_chain g) (registered_on_chain g) (master_key_history g) (gk_egress g) (last_random_number g) (iv_seq g) v.

Definition VRF_INTERVAL : Z := 5.
Definition MASTER_KEY_SHARING_SALT : bytes := Eval vm_compute in bs "master_key_sharing".

(** SCALE decoding of what a gatekeeper reads *)
Class GkCodec := {
  dec_report : bytes -> option WorkingReportEvent;
  dec_system : bytes -> option SystemEvent;
  dec_gk_event : bytes -> option GatekeeperEvent;
  dec_cluster_event : bytes -> option ClusterEvent;
}.

(** The receivers of [Gatekeeper] and [ComputingEconomics] *)
Record GkReceivers := mkGkReceivers {
  rx_gatekeeper_events : nat;
  rx_cluster_events : nat;
  rx_computing_events : nat;
  rx_system_events : nat;
  rx_eco_gatekeeper_events : nat;
}.

Section gatekeeper.
Context `{FC : !FixedCrate} `{FN : !FixedNum} `{PH : !PubkeyHash} `{CR : !Crypto} `{RO : !RotationCodec}.

(** [None] is a panic throughout. *)

Definition next_random_number (key : Pair) (block_number : BlockNumber) (last : RandomNumber) : option RandomNumber :=
  derived ← derive_sr25519_pair key [bs "random_number"];
  Some (number_of (blake2_256_of (bytes_of last ++ be_bytes 4 block_number ++ dump_secret_key derived))).

Definition get_cluster_key (key : Pair) (cluster : H256) : option Pair :=
  derive_sr25519_pair key [bs "cluster_key"; bytes_of cluster].

Definition gatekeeper_new (history : list RotatedMasterKey) (egress : Egress) : option Gatekeeper :=
  k ← head history;
  Some (mkGk (restore_from_secret_key (secret k)) false false history (eg_set_dummy true egress) 0 0 eco_new).

Definition generate_iv (block_number : BlockNumber) (g : Gatekeeper) : option (bytes * Gatekeeper) :=
  derived ← derive_sr25519_pair (master_key g) [bs "iv_generator"];
  let buf := dump_secret_key derived ++ be_bytes 4 block_number ++ be_bytes 8 (iv_seq g) in
  let g := put_iv_seq (iv_seq g +[64] 1) g in
  Some (take 12 (blake2_256_of buf), g).

Definition register_on_chain (g : Gatekeeper) : Gatekeeper :=
  put_registered_on_chain true (upd_egress (eg_set_dummy false) g).
Definition unregister_on_chain (g : Gatekeeper) : Gatekeeper :=
  put_registered_on_chain false (upd_egress (eg_set_dummy true) g).

Definition master_pubkey_uploaded (pubkey : Z) (g : Gatekeeper) : option Gatekeeper :=
  if public_of (master_key g) =? pubkey then Some (put_master_pubkey_on_chain true g) else None.

Definition set_master_key_history (history : list RotatedMasterKey) (g : Gatekeeper) : bool * Gatekeeper :=
  if (length history <=? length (master_key_history g))%nat then (false, g)
  else (true, put_master_key_history history g).

Definition append_master_key (k : RotatedMasterKey) (g : Gatekeeper) : option (bool * Gatekeeper) :=
  if bool_decide (k ∈ master_key_history g) then Some (false, g)
  else if rotation_id k =? Z.of_nat (length (master_key_history g)) then
    Some (true, put_master_key_history (master_key_history g ++ [k]) g)
  else None.

Definition switch_master_key (id : Z) (height : BlockNumber) (g : Gatekeeper) : option (bool * Gatekeeper) :=
  match master_key_history g !! Z.to_nat id with
  | None => Some (false, g)
  | Some raw =>
      if (rotation_id raw =? id) && (block_height raw =? height) then
        let new := restore_from_secret_key (secret raw) in
        let g := upd_egress (eg_push (GkRegistry (RotatedMasterPubkey (rotation_id raw) (public_of new)))) g in
        Some (true, upd_egress (eg_set_signer new) (put_master_key new g))
      else None
  end.

Definition encrypt_key_to (info : list bytes) (ecdh : EcdhPublicKey) (key : Secret) (block_number : BlockNumber)
    (g : Gatekeeper) : option (EncryptedKey * Gatekeeper) :=
  '(iv, g) ← generate_iv block_number g;
  '(pubkey, encrypted) ← encrypt_secret_to (master_key g) info ecdh key iv;
  Some (mkEncrypted pubkey encrypted iv, g).

(** [iter().map(..encrypt_key_to..).collect()] *)
Fixpoint encrypt_all {A} (info : list bytes) (block_number : BlockNumber) (l : list (A * EcdhPublicKey * Secret))
    (g : Gatekeeper) : option (list (A * EncryptedKey) * Gatekeeper) :=
  match l with
  | [] => Some ([], g)
  | (a, ecdh, key) :: l' =>
      '(k, g) ← encrypt_key_to info ecdh key block_number g;
      '(ks, g) ← encrypt_all info block_number l' g;
      Some ((a, k) :: ks, g)
  end.

(** Collecting into a [BTreeMap]: sorted by key, later entries replace earlier ones *)
Definition into_btree {V} (l : list (Z * V)) : list (Z * V) :=
  let m : gmap Z V := foldl (fun m e => <[ e.1 := e.2 ]> m) ∅ l in
  omap (fun k => (fun v => (k, v)) <$> m !! k) (sorted_keys m).

Definition share_latest_master_key (pubkey : WorkerPublicKey) (ecdh : EcdhPublicKey) (block_number : BlockNumber)
    (g : Gatekeeper) : option Gatekeeper :=
  '(k, g) ← encrypt_key_to [MASTER_KEY_SHARING_SALT] ecdh (dump_secret_key (master_key g)) block_number g;
  Some (upd_egress (eg_push (GkKey (MasterKeyDistribution pubkey k))) g).

Definition share_master_key_history (pubkey : WorkerPublicKey) (ecdh : EcdhPublicKey) (block_number : BlockNumber)
    (g : Gatekeeper) : option Gatekeeper :=
  '(ks, g) ← encrypt_all [MASTER_KEY_SHARING_SALT] block_number
    ((fun k => ((rotation_id k, block_height k), ecdh, secret k)) <$> master_key_history g) g;
  Some (upd_egress (eg_push (GkKey (MasterKeyHistory pubkey ks))) g).

Definition share_master_key (pubkey : WorkerPublicKey) (ecdh : EcdhPublicKey) (block_number : BlockNumber)
    (g : Gatekeeper) : option Gatekeeper :=
  if (1 <? length (master_key_history g))%nat then share_master_key_history pubkey ecdh block_number g
  else share_latest_master_key pubkey ecdh block_number g.

(** [BatchRotateMasterKeyEvent::data_be_signed] *)
Definition rotation_data (event : BatchRotateMasterKeyEvent) : bytes :=
  encode_rotation (br_rotation_id event)
    ((fun e => (e.1, (ek_ecdh_pubkey e.2, ek_encrypted_key e.2, ek_iv e.2))) <$> br_secret_keys event) (br_sender event).

(** [new_master_key] is what [crate::new_sr25519_key] draws. *)
Definition gk_process_master_key_rotation_request (block : BlockInfo) (rotation : Z) (gk_identities : list WorkerIdentity)
    (new_master_key identity_key : Pair) (g : Gatekeeper) : option Gatekeeper :=
  let secret_key := dump_secret_key new_master_key in
  '(ks, g) ← encrypt_all [MASTER_KEY_SHARING_SALT] (block_number block)
    ((fun i => (wi_pubkey i, wi_ecdh i, secret_key)) <$> gk_identities) g;
  let secret_keys := into_btree ks in
  let sender := public_of identity_key in
  let event := mkBatchRotate rotation secret_keys sender [] in
  let data_to_sign := wrap_content_to_sign (rotation_data event) MqPallet.MasterKeyRotation in
  Some (upd_egress (eg_push (GkKey (MasterKeyRotation
    (mkBatchRotate rotation secret_keys sender (pair_sign identity_key data_to_sign))))) g).

Definition process_cluster_event (block : BlockInfo) (origin : MessageOrigin) (event : ClusterEvent) (g : Gatekeeper) :
    option Gatekeeper :=
  match event with
  | DeployCluster terms workers =>
      if negb (is_pallet origin) then Some g
      else
        cluster_key ← get_cluster_key (master_key g) (ct_cluster terms);
        let g := upd_egress (eg_push (GkClusterPubkey (ct_cluster terms) (public_of cluster_key))) g in
        '(ks, g) ← encrypt_all [bs "cluster_key_sharing"] (block_number block)
          ((fun w => (wi_pubkey w, wi_ecdh w, dump_secret_key cluster_key)) <$> workers) g;
        Some (upd_egress (eg_push (GkClusterKeys terms (into_btree ks))) g)
  end.

(** ** Random numbers *)

Definition process_random_number_event (origin : MessageOrigin) (number : BlockNumber) (random last : RandomNumber)
    (g : Gatekeeper) : option Gatekeeper :=
  if negb (is_gatekeeper origin) then Some g
  else
    latest ← list.last (master_key_history g);
    key ← (if number <? block_height latest then
             let len := length (master_key_history g) in
             if (2 <=? len)%nat then
               k ← master_key_history g !! (len - 2)%nat;
               Some (restore_from_secret_key (secret k))
             else None
           else Some (master_key g));
    expect_random ← next_random_number key number last;
    if expect_random =? random then Some g else None.

Definition emit_random_number (number : BlockNumber) (g : Gatekeeper) : option Gatekeeper :=
  if negb (number mod VRF_INTERVAL =? 0) then Some g
  else
    random_number ← next_random_number (master_key g) number (last_random_number g);
    let g := upd_egress (eg_push (GkEvent (NewRandomNumber number random_number (last_random_number g)))) g in
    Some (put_last_random_number random_number g).

Definition gk_process_gatekeeper_event (origin : MessageOrigin) (event : GatekeeperEvent) (g : Gatekeeper) : option Gatekeeper :=
  match event with
  | NewRandomNumber number random last => process_random_number_event origin number random last g
  | TokenomicParametersChanged _ => Some g
  | RepairV_ | PhalaLaunched_ | UnrespFix_ => None
  end.

(** ** Blocks *)

Definition gk_will_process_block (block : BlockInfo) (g : Gatekeeper) : option Gatekeeper :=
  e ← will_process_block block (computing_economics g);
  Some (put_economics e g).

Definition gk_did_process_block (block : BlockInfo) (g : Gatekeeper) : option Gatekeeper :=
  g ← (if master_pubkey_on_chain g then
         '(e, _) ← did_process_block block (computing_economics g) tt;
         Some (put_economics e g)
       else Some g);
  emit_random_number (block_number block) g.

(** The loops run for as many rounds as the fuel: one more than the messages waiting. *)
Definition eco_process_messages `{GD : !GkCodec} (fuel : nat) (rx : GkReceivers) (block : BlockInfo)
    (h : gmap nat Channel) (e : ComputingEconomics) : option (gmap nat Channel * ComputingEconomics) :=
  '(h, (e, _)) ← select_loop fuel
    [(rx_computing_events rx, on_event dec_report (fun o ev (s : ComputingEconomics * unit) =>
        process_computing_report o ev block s.1 s.2));
     (rx_system_events rx, on_event dec_system (fun o ev s => process_system_event o ev block s.1 s.2));
     (rx_eco_gatekeeper_events rx, on_event dec_gk_event (fun o ev s =>
        e ← eco_process_gatekeeper_event o ev s.1; Some (e, s.2)))]
    Some h (e, tt);
  Some (h, e).

Definition gk_process_messages `{GD : !GkCodec} (fuel : nat) (rx : GkReceivers) (block : BlockInfo)
    (h : gmap nat Channel) (g : Gatekeeper) : option (gmap nat Channel * Gatekeeper) :=
  if negb (master_pubkey_on_chain g) then Some (h, g)
  else
    '(h, g) ← select_loop fuel
      [(rx_gatekeeper_events rx, on_event dec_gk_event gk_process_gatekeeper_event);
       (rx_cluster_events rx, on_event dec_cluster_event (process_cluster_event block))]
      (fun _ => None) h g;
    '(h, e) ← eco_process_messages fuel rx block h (computing_economics g);
    Some (h, put_economics e g).
End gatekeeper.

(** ** Checking random numbers *)

Section random_numbers.
Context `{CR : !Crypto}.

(** The master key in force at a block *)
Definition key_at (l : list RotatedMasterKey) (b : BlockNumber) : option RotatedMasterKey :=
  list.last (filter (fun k => block_height k <= b) l).
Definition heights_sorted (l : list RotatedMasterKey) : Prop :=
  forall i j a b, l !! i = Some a -> l !! j = Some b -> (i < j)%nat -> block_height a < block_height b.

Lemma key_at_spec l b k : heights_sorted l -> key_at l b = Some k ->
  exists i, l !! i = Some k /\ block_height k <= b /\
    forall j k', l !! j = Some k' -> (i < j)%nat -> b < block_height k'.
Proof.
  revert k. induction l as [|x l IH] using rev_ind; intros k Hs; [done|]. unfold key_at.
  rewrite filter_app, filter_cons, filter_nil. case_decide as Hd.
  - rewrite last_snoc. intros [= <-]. exists (length l). split; [by apply list_lookup_middle|]. split; [done|].
    intros j k' Hj Hlt. apply lookup_lt_Some in Hj. rewrite length_app in Hj. cbn in Hj. lia.
  - rewrite app_nil_r. intros Hk.
    destruct (IH k) as (i & Hi & Hb & Hafter); [|exact Hk|].
    { intros i j a c Hi Hj. apply Hs; by apply lookup_app_l_Some. }
    exists i. split; [by apply lookup_app_l_Some|]. split; [done|]. intros j k' Hj Hlt.
    destruct (decide (j < length l)%nat) as [Hl|Hl]; [rewrite lookup_app_l in Hj by done; by eapply Hafter|].
    apply lookup_lt_Some in Hj as Hj'. rewrite length_app in Hj'. cbn in Hj'. assert (j = length l) as -> by lia.
    rewrite list_lookup_middle in Hj by done. injection Hj as <-. lia.
Qed.

(** C36: a random number made with the master key in force at its block is
    accepted by a gatekeeper that is in sync as long as the block is not older
    than the last but one key of its history; an older one is checked against
    the wrong key, and the gatekeeper panics. A gatekeeper that has the keys of
    two rotations and syncs from the first block, as it has to, can therefore
    never get past the first random number. *)
Theorem random_numbers_of_old_keys_panic g number cur last r k kc :
  heights_sorted (master_key_history g) -> number <= cur ->
  key_at (master_key_history g) number = Some k -> key_at (master_key_history g) cur = Some kc ->
  master_key g = restore_from_secret_key (secret kc) ->
  next_random_number (restore_from_secret_key (secret k)) number last = Some r ->
  forall k2, master_key_history g !! (length (master_key_history g) - 2)%nat = Some k2 ->
  (block_height k2 <= number -> process_random_number_event MqTypes.Gatekeeper number r last g = Some g) /\
  (number < block_height k2 -> next_random_number (restore_from_secret_key (secret k2)) number last <> Some r ->
     process_random_number_event MqTypes.Gatekeeper number r last g = None).
Proof.
  intros Hs Hle Hk Hkc Hmk Hr k2 Hk2. unfold process_random_number_event, mbind, option_bind. cbn [is_gatekeeper negb].
  set (l := master_key_history g) in *. destruct (key_at_spec _ _ _ Hs Hk) as (i & Hi & Hb & Hafter).
  apply lookup_lt_Some in Hi as Hil. rewrite last_lookup.
  destruct (lookup_lt_is_Some_2 l (pred (length l)) ltac:(lia)) as [z Hz]. rewrite Hz.
  destruct (number <? block_height z) eqn:E; b2p.
  - assert (2 <= length l)%nat as Hlen.
    { destruct (decide (i = pred (length l))) as [->|]; [|lia]. rewrite Hi in Hz. injection Hz as ->. lia. }
    rewrite (proj2 (Nat.leb_le 2 (length l)) Hlen), Hk2. split.
    + intros H2. assert (k2 = k) as ->; [|rewrite Hr; by rewrite Z.eqb_refl].
      destruct (decide (i = length l - 2)%nat) as [->|Hne]; [congruence|].
      destruct (decide (i < length l - 2)%nat); [specialize (Hafter _ _ Hk2 ltac:(lia)); lia|].
      assert (i = pred (length l)) as -> by lia. rewrite Hi in Hz. injection Hz as ->. lia.
    + intros H2 Hne. destruct (next_random_number (restore_from_secret_key (secret k2)) number last) as [r'|] eqn:En; [|done].
      destruct (Z.eqb_spec r' r) as [->|]; done.
  - assert (k = z /\ kc = z) as [-> ->].
    { split.
      - destruct (decide (i = pred (length l))) as [->|]; [congruence|]. specialize (Hafter _ _ Hz ltac:(lia)). lia.
      - destruct (key_at_spec _ _ _ Hs Hkc) as (j & Hj & Hbj & Haf). apply lookup_lt_Some in Hj as Hjl.
        destruct (decide (j = pred (length l))) as [->|]; [congruence|]. specialize (Haf _ _ Hz ltac:(lia)). lia. }
    rewrite Hmk, Hr, Z.eqb_refl. split; [done|]. intros H2.
    assert (length l - 2 <= pred (length l))%nat as Hle2 by lia.
    destruct (decide (length l - 2 = pred (length l))%nat) as [Heq|]; [rewrite Heq, Hz in Hk2; injection Hk2 as <-; lia|].
    specialize (Hs _ _ _ _ Hk2 Hz ltac:(lia)). lia.
Qed.
End random_numbers.
