(* ===== verification/SystemKeys.v ===== *)
(** * Master keys in the pRuntime (crates/phactory/src/system/mod.rs)

    How a pRuntime becomes a gatekeeper, receives and rotates the master key,
    and turns back into a worker: the handlers of the messages on gatekeepers
    and keys, and the hooks around a block. A handler returns, fails with a
    [TransactionError] that is logged, or panics. The sealed file of master keys
    (master_key.rs) is the field [sealed]; the platform's sealing reads back what
    it wrote. *)

From S2P Require Import Prelude MqTypes Storage MqPallet FixedPoint Dispatcher KeyShare WorkerSM Tokenomic Economics Gatekeeper.

Inductive TransactionError :=
  | TxBadInput | TxBadOrigin | TxOther (s : bytes) | TxInsufficientBalance | TxNoBalance | TxUnknownError
  | TxBadContractId | TxBadCommand | TxSymbolExist | TxAssetIdNotFound | TxNotAssetOwner | TxBadSecret
  | TxBadMachineId | TxFailedToSign | TxBadDecimal | TxDestroyNotAllowed | TxChannelError | TxNotGatekeeper
  | TxMasterKeyLeakage | TxBadSenderSignature | TxBadAccountInfo | TxBadLedgerInfo | TxBadTrustedStateData
  | TxBadEpochChangedProofData | TxBadTrustedState | TxInvalidAccount | TxBadTransactionWithProof
  | TxFailedToVerify | TxFailedToGetTransaction | TxFailedToCalculateBalance | TxBadChainId
  | TxTransferringNotAllowed | TxCodeNotFound | TxDuplicatedClusterDeploy | TxFailedToUploadResourceToCluster
  | TxNoClusterOnGatekeeper | TxNoPinkSystemCode | TxBadPinkSystemVersion.

(** What the handlers read of the chain's storage *)
Record ChainView := mkView {
  cv_gatekeepers : list WorkerPublicKey;
  cv_tokenomic_parameters : option TokenomicParameters;
}.
Definition view_of {X} (s : Storage X) : ChainView := mkView (gatekeepers (reg s)) (tokenomic_parameters (comp s)).

(** The sealed file *)
Inductive MasterKeySeal :=
  | SealV1 (secret : Secret) (signature : bytes)
  | SealV2 (rotations : list RotatedMasterKey) (signature : bytes).

(** SCALE encoding of [MasterKeyHistory] and [MasterKeySeal] *)
Class SealCodec := {
  encode_history : list RotatedMasterKey -> bytes;
  encode_seal : MasterKeySeal -> bytes;
  decode_seal : bytes -> option MasterKeySeal;
}.

(** [System], less the contracts and the configuration *)
Record System := mkSystem {
  identity_key : Pair;
  worker_state : WorkerState;
  sys_egress : WorkerSMDelegate;
  sys_gatekeeper : option Gatekeeper;
  sealed : option bytes;
  sys_block_number : BlockNumber;
  sys_now_ms : Z;
  genesis_block : BlockNumber;
  uploaded : list RegistryEvent; (** [MasterPubkey] messages of the worker's egress *)
}.

Definition put_gatekeeper (g : option Gatekeeper) (s : System) : System :=
  mkSystem (identity_key s) (worker_state s) (sys_egress s) g (sealed s) (sys_block_number s) (sys_now_ms s) (genesis_block s) (uploaded s).
Definition put_sealed (l : option bytes) (s : System) : System :=
  mkSystem (identity_key s) (worker_state s) (sys_egress s) (sys_gatekeeper s) l (sys_block_number s) (sys_now_ms s) (genesis_block s) (uploaded s).
Definition put_machine (w : WorkerState) (d : WorkerSMDelegate) (s : System) : System :=
  mkSystem (identity_key s) w d (sys_gatekeeper s) (sealed s) (sys_block_number s) (sys_now_ms s) (genesis_block s) (uploaded s).
Definition put_block (b : BlockInfo) (s : System) : System :=
  mkSystem (identity_key s) (worker_state s) (sys_egress s) (sys_gatekeeper s) (sealed s) (block_number b) (block_now_ms b) (genesis_block s) (uploaded s).
Definition push_uploaded (e : RegistryEvent) (s : System) : System :=
  mkSystem (identity_key s) (worker_state s) (sys_egress s) (sys_gatekeeper s) (sealed s) (sys_block_number s) (sys_now_ms s) (genesis_block s) (uploaded s ++ [e]).

Abbreviation Sys := (M System TransactionError).

Section system_keys.
Context `{FC : !FixedCrate} `{FN : !FixedNum} `{PH : !PubkeyHash} `{CR : !Crypto} `{RO : !RotationCodec}
  `{SR : !Sr25519} `{SC : !SealCodec}.

Definition is_chain_gatekeeper (pubkey : WorkerPublicKey) (v : ChainView) : bool := bool_decide (pubkey ∈ cv_gatekeepers v).

(** ** master_key.rs *)

Definition sealed_data (id : Pair) (history : list RotatedMasterKey) : bytes :=
  encode_seal (SealV2 history (pair_sign id (wrap_content_to_sign (encode_history history) MqPallet.MasterKeyStore))).

Definition seal (history : list RotatedMasterKey) : Sys unit :=
  s ← get_st;
  modify (put_sealed (Some (sealed_data (identity_key s) history))).

Definition try_unseal (s : System) : option (list RotatedMasterKey) :=
  let verify_data sig data := sr25519_verify sig data (public_of (identity_key s)) in
  match sealed s with
  | None => Some []
  | Some data =>
      versioned ← decode_seal data;
      match versioned with
      | SealV1 secret sig => if verify_data sig secret then Some [mkRotated 0 0 secret] else None
      | SealV2 rotations sig =>
          if verify_data sig (wrap_content_to_sign (encode_history rotations) MqPallet.MasterKeyStore)
          then Some rotations else None
      end
  end.

(** ** Gatekeepers *)

Definition my_pubkey (s : System) : WorkerPublicKey := public_of (identity_key s).

(** An operation of the gatekeeper that is there *)
Definition with_gatekeeper {A} (f : Gatekeeper -> option (A * Gatekeeper)) : Sys A :=
  s ← get_st;
  g ← expect (sys_gatekeeper s);
  '(a, g) ← expect (f g);
  modify (put_gatekeeper (Some g));;
  mret a.

(** [System::set_master_key_history] *)
Definition sys_set_master_key_history (history : list RotatedMasterKey) : Sys unit :=
  s ← get_st;
  match sys_gatekeeper s with
  | None => panic (* sealed first, then restarted *)
  | Some _ =>
      updated ← with_gatekeeper (fun g => Some (set_master_key_history history g));
      if updated : bool then seal history else mret tt
  end.

Definition init_gatekeeper (v : ChainView) (history : list RotatedMasterKey) : Sys unit :=
  s ← get_st;
  match sys_gatekeeper s, history with
  | Some _, _ | _, [] => panic
  | None, k :: _ =>
      if negb (genesis_block s =? 0) then panic
      else
        let master_key := restore_from_secret_key (secret k) in
        g ← expect (gatekeeper_new history (mkEgress master_key false []));
        let g := match cv_tokenomic_parameters v with
                 | Some params => put_economics (eco_update_tokenomic_parameters params (computing_economics g)) g
                 | None => g
                 end in
        modify (put_gatekeeper (Some g))
  end.

(** [new_key] is what [new_sr25519_key] draws. *)
Definition process_first_gatekeeper_event (v : ChainView) (pubkey : WorkerPublicKey) (new_key : Pair) : Sys unit :=
  s ← get_st;
  if negb (is_chain_gatekeeper pubkey v) then panic
  else
    unsealed ← expect (try_unseal s);
    let mine := my_pubkey s =? pubkey in
    history ←
      (if mine then
         history ← (if bool_decide (unsealed = []) then
                      let history := [mkRotated 0 0 (dump_secret_key new_key)] in
                      seal history;; mret history
                    else mret unsealed);
         k ← expect (head history);
         modify (push_uploaded (MasterPubkey (public_of (restore_from_secret_key (secret k)))));;
         mret history
       else mret unsealed);
    (if bool_decide (history = []) then mret tt else init_gatekeeper v history);;
    if mine then with_gatekeeper (fun g => Some (tt, register_on_chain g)) else mret tt.

Definition process_master_key_rotation_request (block : BlockInfo) (rotation : Z) (gk_identities : list WorkerIdentity)
    (new_key : Pair) : Sys unit :=
  s ← get_st;
  match sys_gatekeeper s with
  | None => mret tt
  | Some _ => with_gatekeeper (fun g =>
      (fun g => (tt, g)) <$> gk_process_master_key_rotation_request block rotation gk_identities new_key (identity_key s) g)
  end.

Definition process_gatekeeper_launch_event (block : BlockInfo) (v : ChainView) (origin : MessageOrigin)
    (event : GatekeeperLaunch) (new_key : Pair) : Sys unit :=
  if negb (is_pallet origin) then mret tt
  else match event with
  | FirstGatekeeper pubkey _ => process_first_gatekeeper_event v pubkey new_key
  | MasterPubkeyOnChain master =>
      s ← get_st;
      match sys_gatekeeper s with
      | None => mret tt
      | Some _ => with_gatekeeper (fun g => (fun g => (tt, g)) <$> master_pubkey_uploaded master g)
      end
  | RotateMasterKey rotation gk_identities =>
      process_master_key_rotation_request block rotation gk_identities new_key
  | MasterPubkeyRotated _ => mret tt
  end.

Definition process_new_gatekeeper_event (block : BlockInfo) (v : ChainView) (origin : MessageOrigin)
    (pubkey : WorkerPublicKey) (ecdh : EcdhPublicKey) : Sys unit :=
  if negb (is_pallet origin) then mret tt
  else if negb (is_chain_gatekeeper pubkey v) then panic
  else
    s ← get_st;
    match sys_gatekeeper s with
    | None => mret tt
    | Some _ =>
        with_gatekeeper (fun g => (fun g => (tt, g)) <$> share_master_key pubkey ecdh (block_number block) g);;
        if my_pubkey s =? pubkey then with_gatekeeper (fun g => Some (tt, register_on_chain g)) else mret tt
    end.

Definition process_remove_gatekeeper_event (origin : MessageOrigin) (pubkey : WorkerPublicKey) : Sys unit :=
  if negb (is_pallet origin) then mret tt
  else
    s ← get_st;
    if (my_pubkey s =? pubkey) && bool_decide (is_Some (sys_gatekeeper s))
    then with_gatekeeper (fun g => Some (tt, unregister_on_chain g)) else mret tt.

Definition process_gatekeeper_change_event (block : BlockInfo) (v : ChainView) (origin : MessageOrigin)
    (event : GatekeeperChange) : Sys unit :=
  match event with
  | GkRegistered pubkey ecdh => process_new_gatekeeper_event block v origin pubkey ecdh
  | GkUnregistered pubkey => process_remove_gatekeeper_event origin pubkey
  end.

(** ** Receiving keys *)

Definition decrypt_key_from (k : EncryptedKey) : Sys Pair :=
  s ← get_st;
  secret ← expect (decrypt_secret_from (identity_key s) (ek_ecdh_pubkey k) (ek_encrypted_key k) (ek_iv k));
  mret (restore_from_secret_key secret).

Definition process_master_key_distribution (origin : MessageOrigin) (dest : WorkerPublicKey) (k : EncryptedKey) : Sys unit :=
  ensure (is_gatekeeper origin) TxBadOrigin;;
  s ← get_st;
  if my_pubkey s =? dest then
    master_pair ← decrypt_key_from k;
    sys_set_master_key_history [mkRotated 0 0 (dump_secret_key master_pair)]
  else mret tt.

Fixpoint decrypt_history (l : list (Z * BlockNumber * EncryptedKey)) : Sys (list RotatedMasterKey) :=
  match l with
  | [] => mret []
  | (rotation, height, k) :: l' =>
      pair ← decrypt_key_from k;
      rest ← decrypt_history l';
      mret (mkRotated rotation height (dump_secret_key pair) :: rest)
  end.

Definition process_master_key_history (origin : MessageOrigin) (dest : WorkerPublicKey)
    (l : list (Z * BlockNumber * EncryptedKey)) : Sys unit :=
  ensure (is_gatekeeper origin) TxBadOrigin;;
  s ← get_st;
  if my_pubkey s =? dest then
    history ← decrypt_history l;
    sys_set_master_key_history history
  else mret tt.

(** [event.secret_keys[&my_pubkey]] *)
Definition key_for (pubkey : WorkerPublicKey) (event : BatchRotateMasterKeyEvent) : option EncryptedKey :=
  snd <$> (snd <$> list_find (fun e => e.1 = pubkey) (br_secret_keys event)).

Definition process_batch_rotate_master_key (v : ChainView) (origin : MessageOrigin) (event : BatchRotateMasterKeyEvent) : Sys unit :=
  ensure (is_gatekeeper origin) TxBadOrigin;;
  sig ← ok_or (sr25519_signature (br_sig event)) TxBadSenderSignature;
  let data := wrap_content_to_sign (rotation_data event) MqPallet.MasterKeyRotation in
  ensure (sr25519_verify sig data (br_sender event)) TxBadSenderSignature;;
  ensure (is_chain_gatekeeper (br_sender event) v) TxMasterKeyLeakage;;
  s ← get_st;
  let key := key_for (my_pubkey s) event in
  match sys_gatekeeper s with
  | None => if bool_decide (is_Some key) then panic else mret tt
  | Some _ =>
      match key with
      | None => mret tt
      | Some k =>
          new_master_key ← decrypt_key_from k;
          appended ← with_gatekeeper (append_master_key
            (mkRotated (br_rotation_id event) (sys_block_number s) (dump_secret_key new_master_key)));
          if appended : bool then
            s ← get_st;
            seal (from_option master_key_history [] (sys_gatekeeper s))
          else mret tt
      end;;
      switched ← with_gatekeeper (switch_master_key (br_rotation_id event) (sys_block_number s));
      if switched : bool then mret tt else modify (put_gatekeeper None)
  end.

(** A failure is logged. *)
Definition log_error (m : Sys unit) : Sys unit := fun s =>
  match m s with Ok _ s' | Err _ s' => Ok tt s' | Panic => Panic end.

Definition process_key_distribution_event (v : ChainView) (origin : MessageOrigin) (event : KeyDistribution) : Sys unit :=
  log_error match event with
            | MasterKeyDistribution dest k => process_master_key_distribution origin dest k
            | MasterKeyRotation e => process_batch_rotate_master_key v origin e
            | MasterKeyHistory dest l => process_master_key_history origin dest l
            end.

(** ** Blocks *)

Definition sys_process_system_event (block : BlockInfo) (event : SystemEvent) : Sys unit :=
  modify (fun s => let '(w, d) := process_event block event (worker_state s) (sys_egress s) in put_machine w d s).

Definition sys_will_process_block (block : BlockInfo) : Sys unit :=
  modify (put_block block);;
  s ← get_st;
  match sys_gatekeeper s with
  | None => mret tt
  | Some _ => with_gatekeeper (fun g => (fun g => (tt, g)) <$> gk_will_process_block block g)
  end.

(** [did_process_block], less the contracts *)
Definition sys_did_process_block (block : BlockInfo) : Sys unit :=
  s ← get_st;
  match sys_gatekeeper s with
  | None => mret tt
  | Some _ => with_gatekeeper (fun g => (fun g => (tt, g)) <$> gk_did_process_block block g)
  end;;
  modify (fun s => let '(w, d) := on_block_processed block (worker_state s) (sys_egress s) in put_machine w d s).
End system_keys.
