(* ===== verification/KeyRotation.v ===== *)
(** * Rotating the master key

    One gatekeeper draws the new key and sends it, encrypted to each registered
    gatekeeper and signed, in one message; every gatekeeper that receives it
    ends up with the same key. *)

From S2P Require Import Prelude MqTypes Storage MqPallet FixedPoint Dispatcher KeyShare WorkerSM Tokenomic Economics Gatekeeper SystemKeys.

(** sr25519: signatures of a pair verify, and have 64 bytes, as secrets do *)
Class SignLaws `{CR : !Crypto} `{SR : !Sr25519} : Prop := {
  sign_length : forall k d, length (pair_sign k d) = 64%nat;
  sign_verify : forall k d, sr25519_verify (pair_sign k d) d (public_of k) = true;
  secret_length : forall k, length (dump_secret_key k) = 64%nat;
}.

(** What is sealed is decoded again. *)
Class SealLaws `{SC : !SealCodec} : Prop := decode_encode_seal : forall d, decode_seal (encode_seal d) = Some d.

Section rotation.
Context `{FC : !FixedCrate} `{FN : !FixedNum} `{PH : !PubkeyHash} `{CR : !Crypto} `{RO : !RotationCodec}
  `{SR : !Sr25519} `{SC : !SealCodec} `{CL : !CryptoLaws} `{SL : !SignLaws} `{SO : !SealLaws}.

(** ** Encrypting to everyone *)

Definition decrypts (id : Pair) (k : EncryptedKey) (s : Secret) : Prop :=
  decrypt_secret_from id (ek_ecdh_pubkey k) (ek_encrypted_key k) (ek_iv k) = Some s.

(** Encrypting changes the IV counter only. *)
Definition same_but_iv (g g' : Gatekeeper) : Prop := put_iv_seq 0 g' = put_iv_seq 0 g.
#[local] Instance same_but_iv_equiv : Equivalence same_but_iv.
Proof. unfold same_but_iv. split; [done|by intros ? ? ->|intros ? ? ? H1 H2; congruence]. Qed.

Lemma encrypt_key_run info id s b g : length s = 64%nat ->
  exists k g', encrypt_key_to info (ecdh_public id) s b g = Some (k, g') /\ decrypts id k s /\ same_but_iv g g'.
Proof.
  intros Hl. unfold encrypt_key_to, generate_iv. destruct (derive_ok (master_key g) [bs "iv_generator"]) as [d ->]. cbn.
  edestruct (key_share_roundtrip (master_key g) info id s) as (pk & data & He & Hd); [exact Hl|].
  rewrite He. cbn. do 2 eexists. split; [done|]. split; [exact Hd|done].
Qed.

Lemma encrypt_all_run (ids : list Pair) info b s : length s = 64%nat -> forall g,
  exists ks g', encrypt_all info b ((fun id => (public_of id, ecdh_public id, s)) <$> ids) g = Some (ks, g') /\
    same_but_iv g g' /\ Forall2 (fun id e => e.1 = public_of id /\ decrypts id e.2 s) ids ks.
Proof.
  intros Hl. induction ids as [|id ids IH]; intros g; cbn; [by do 2 eexists|].
  destruct (encrypt_key_run info id s b g Hl) as (k & g1 & -> & Hd & Hg1). cbn.
  destruct (IH g1) as (ks & g2 & -> & Hg2 & Hf). cbn. do 2 eexists. split; [done|].
  split; [by etrans|]. by constructor.
Qed.

(** ** The map in the message *)

Lemma fold_insert_lookup {V} (l : list (Z * V)) : forall (m : gmap Z V) k v, NoDup (fst <$> l) ->
  (foldl (fun m e => <[ e.1 := e.2 ]> m) m l) !! k = Some v <->
  (k, v) ∈ l \/ ~ (k ∈ fst <$> l) /\ m !! k = Some v.
Proof.
  induction l as [|[k' v'] l IH]; intros m k v Hnd; cbn; [set_solver|].
  apply NoDup_cons in Hnd as [Hk Hnd]. rewrite IH by done. cbn in *.
  rewrite !elem_of_cons. destruct (decide (k = k')) as [->|Hne].
  - rewrite lookup_insert_eq. split.
    + intros [H|[_ [= <-]]]; [|by left; left]. by left; right.
    + intros [[[= ->]|H]|[H _]]; [right; by split|by left|]. destruct H. by left.
  - rewrite lookup_insert_ne by done. split.
    + intros [H|[H1 H2]]; [by left; right|]. right. split; [|done]. by intros [?|?].
    + intros [[[= -> _]|H]|[H1 H2]]; [done|by left|]. right. split; [|done]. intros H. apply H1. by right.
Qed.

Lemma find_in_btree {V} (ks : list (Z * V)) p : NoDup (fst <$> ks) ->
  snd <$> (snd <$> list_find (fun e => e.1 = p) (into_btree ks)) =
  (foldl (fun m e => <[ e.1 := e.2 ]> m) (∅ : gmap Z V) ks) !! p.
Proof.
  intros Hnd. unfold into_btree. set (m := foldl _ _ ks). clearbody m.
  assert (forall l : list Z, snd <$> (snd <$> list_find (fun e : Z * V => e.1 = p) (omap (fun k => (fun v => (k, v)) <$> m !! k) l)) =
    if decide (p ∈ l) then m !! p else None) as Hl.
  { induction l as [|k l IH]; cbn; [done|]. destruct (m !! k) as [v|] eqn:Ek; cbn.
    - destruct (decide (k = p)) as [->|Hne]; cbn; [rewrite decide_True by left; done|].
      replace (snd <$> (prod_map S id <$> list_find (fun e : Z * V => e.1 = p) _)) with
        (snd <$> list_find (fun e : Z * V => e.1 = p) (omap (fun k => (fun v => (k, v)) <$> m !! k) l)).
      2: by destruct (list_find _ _) as [[? ?]|].
      rewrite IH. clear IH. repeat case_decide; try done; exfalso; set_solver.
    - rewrite IH. clear IH. destruct (decide (p = k)) as [->|Hne]; [rewrite Ek; by repeat case_decide|].
      repeat case_decide; try done; exfalso; set_solver. }
  rewrite Hl. case_decide as Hd; [done|]. unfold sorted_keys in Hd.
  rewrite merge_sort_Permutation, elem_of_elements, not_elem_of_dom in Hd. done.
Qed.

Lemma find_encrypted ids s (ks : list (Z * EncryptedKey)) p : NoDup (public_of <$> ids) ->
  Forall2 (fun id e => e.1 = public_of id /\ decrypts id e.2 s) ids ks ->
  let found := snd <$> (snd <$> list_find (fun e => e.1 = p) (into_btree ks)) in
  (forall id, id ∈ ids -> public_of id = p -> exists k, found = Some k /\ decrypts id k s) /\
  (p ∉ public_of <$> ids -> found = None).
Proof.
  intros Hnd Hf. assert (fst <$> ks = public_of <$> ids) as Hk.
  { clear Hnd. induction Hf as [|? ? ? ? [He _]]; cbn; [done|]. by f_equal. }
  cbn. rewrite find_in_btree by (by rewrite Hk). split.
  - intros id Hid <-. destruct (list_elem_of_lookup_1 _ _ Hid) as [i Hi].
    destruct (Forall2_lookup_l _ _ _ _ _ Hf Hi) as ([p k] & He & Hp & Hd). cbn in Hp, Hd. subst p.
    exists k. split; [|done]. apply fold_insert_lookup; [by rewrite Hk|]. left. by eapply list_elem_of_lookup_2.
  - intros Hp. apply eq_None_not_Some. intros [k Hin]. apply fold_insert_lookup in Hin; [|by rewrite Hk].
    destruct Hin as [Hin|[_ Hin]]; [|done]. apply Hp. rewrite <- Hk. apply list_elem_of_fmap. by exists (p, k).
Qed.

(** ** The sealed file *)

Lemma unseal_sealed h s : try_unseal (put_sealed (Some (sealed_data (identity_key s) h)) s) = Some h.
Proof. unfold try_unseal, sealed_data. cbn. rewrite decode_encode_seal. cbn. by rewrite sign_verify. Qed.

(** ** One rotation *)

Definition identity_of (k : Pair) : WorkerIdentity := mkIdentity (public_of k) (ecdh_public k).

(** What the message of a rotation carries *)
Definition carries (ids : list Pair) (n : Z) (id0 new_key : Pair) (e : BatchRotateMasterKeyEvent) : Prop :=
  br_rotation_id e = n /\ br_sender e = public_of id0 /\
  br_sig e = pair_sign id0 (wrap_content_to_sign (rotation_data e) MqPallet.MasterKeyRotation) /\
  (forall id, id ∈ ids -> exists k, key_for (public_of id) e = Some k /\ decrypts id k (dump_secret_key new_key)) /\
  (forall p, p ∉ public_of <$> ids -> key_for p e = None).

Lemma rotation_request_run block n ids new_key id0 g : NoDup (public_of <$> ids) ->
  exists e g', gk_process_master_key_rotation_request block n (identity_of <$> ids) new_key id0 g = Some g' /\
    gk_egress g' = eg_push (GkKey (MasterKeyRotation e)) (gk_egress g) /\ carries ids n id0 new_key e.
Proof.
  intros Hnd. unfold gk_process_master_key_rotation_request. rewrite <- list_fmap_compose.
  edestruct (encrypt_all_run ids [MASTER_KEY_SHARING_SALT] (block_number block) (dump_secret_key new_key))
    as (ks & g1 & He & Hg1 & Hf); [apply secret_length|]. unfold compose. cbn [identity_of wi_pubkey wi_ecdh].
  rewrite He. cbn. do 2 eexists. split; [done|]. split.
  - cbn. f_equal. unfold same_but_iv in Hg1. by injection Hg1 as _ _ _ _ <- _ _.
  - unfold carries, key_for. cbn. split_and!; try done.
    + intros id Hid. by apply (find_encrypted ids _ ks (public_of id) Hnd Hf).
    + intros p Hp. by apply (find_encrypted ids _ ks p Hnd Hf).
Qed.

(** The keys of a history are numbered from [0]. *)
Definition numbered (l : list RotatedMasterKey) : Prop := forall i k, l !! i = Some k -> rotation_id k = Z.of_nat i.

Lemma append_then_switch k g : numbered (master_key_history g) ->
  rotation_id k = Z.of_nat (length (master_key_history g)) ->
  exists g1, append_master_key k g = Some (true, g1) /\ master_key_history g1 = master_key_history g ++ [k] /\
  exists g2, switch_master_key (rotation_id k) (block_height k) g1 = Some (true, g2) /\
    master_key g2 = restore_from_secret_key (secret k) /\ master_key_history g2 = master_key_history g ++ [k] /\
    gk_egress g2 = eg_set_signer (restore_from_secret_key (secret k)) (eg_push (GkRegistry
      (RotatedMasterPubkey (rotation_id k) (public_of (restore_from_secret_key (secret k))))) (gk_egress g)) /\
    computing_economics g2 = computing_economics g.
Proof.
  intros Hn Hid. unfold append_master_key. rewrite bool_decide_false.
  2: { intros Hin. destruct (list_elem_of_lookup_1 _ _ Hin) as [i Hi]. apply lookup_lt_Some in Hi as Hl.
       apply Hn in Hi. lia. }
  rewrite Hid, Z.eqb_refl. eexists. split; [done|]. split; [done|]. unfold switch_master_key. cbn.
  rewrite Nat2Z.id, list_lookup_middle, Hid, !Z.eqb_refl by done. cbn. eexists. split; [done|]. done.
Qed.

(** The checks of the receiver pass, and it decrypts what it was sent. *)
Lemma rotation_checks ids n id0 new_key e v s : carries ids n id0 new_key e -> public_of id0 ∈ cv_gatekeepers v ->
  (sr25519_signature (br_sig e) = Some (br_sig e) /\
   sr25519_verify (br_sig e) (wrap_content_to_sign (rotation_data e) MqPallet.MasterKeyRotation) (br_sender e) = true /\
   is_chain_gatekeeper (br_sender e) v = true) /\
  (identity_key s ∈ ids -> exists k, key_for (my_pubkey s) e = Some k /\
     decrypt_secret_from (identity_key s) (ek_ecdh_pubkey k) (ek_encrypted_key k) (ek_iv k) = Some (dump_secret_key new_key)).
Proof.
  intros (Hid & Hs & Hsig & Hin & _) Hv. split; [split_and!|].
  - rewrite Hsig. apply sr25519_signature_64, sign_length.
  - rewrite Hsig, Hs. apply sign_verify.
  - unfold is_chain_gatekeeper. rewrite Hs. by apply bool_decide_eq_true.
  - intros Hi. by apply Hin.
Qed.

(** C6: rotating the master key. Whatever gatekeeper is asked to rotate sends
    one message, and every gatekeeper in sync that it was meant for ends up with
    the same new key as its master key, at the end of its history, sealed, and
    the signing key of what it sends next, after it has reported the new public
    key signed with the old one; a gatekeeper it was not meant for stops being
    one. *)
Theorem rotation_reaches_gatekeepers block n ids new_key id0 g0 : NoDup (public_of <$> ids) ->
  exists e g0', gk_process_master_key_rotation_request block n (identity_of <$> ids) new_key id0 g0 = Some g0' /\
    gk_egress g0' = eg_push (GkKey (MasterKeyRotation e)) (gk_egress g0) /\
  forall v s g, public_of id0 ∈ cv_gatekeepers v -> sys_gatekeeper s = Some g ->
    numbered (master_key_history g) -> n = Z.of_nat (length (master_key_history g)) ->
    (identity_key s ∈ ids ->
       let h := master_key_history g ++ [mkRotated n (sys_block_number s) (dump_secret_key new_key)] in
       exists g', process_key_distribution_event v MqTypes.Gatekeeper (MasterKeyRotation e) s =
         Ok tt (put_gatekeeper (Some g') (put_sealed (Some (sealed_data (identity_key s) h)) s)) /\
         try_unseal (put_sealed (Some (sealed_data (identity_key s) h)) s) = Some h /\
         master_key g' = new_key /\ master_key_history g' = h /\ computing_economics g' = computing_economics g /\
         gk_egress g' = eg_set_signer new_key (eg_push (GkRegistry (RotatedMasterPubkey n (public_of new_key))) (gk_egress g))) /\
    (public_of (identity_key s) ∉ public_of <$> ids ->
       process_key_distribution_event v MqTypes.Gatekeeper (MasterKeyRotation e) s = Ok tt (put_gatekeeper None s)).
Proof.
  intros Hnd. destruct (rotation_request_run block n ids new_key id0 g0 Hnd) as (e & g0' & Hr & He & Hid & Hs & Hsig & Hin & Hout).
  exists e, g0'. split; [done|]. split; [done|]. intros v s g Hv Hg Hnum Hn.
  destruct (rotation_checks ids n id0 new_key e v s) as [(E1 & E2 & E3) Hmine]; [done|done|].
  unfold process_key_distribution_event, log_error, process_batch_rotate_master_key, with_gatekeeper, decrypt_key_from,
    ok_or, ensure, expect, get_st, seal, modify, mbind, M_bind, mret, M_ret. cbn [is_gatekeeper].
  rewrite E1, E2, E3, Hg. split.
  - intros Hi. destruct (Hmine Hi) as (k & Ek & Ed).
    destruct (append_then_switch (mkRotated n (sys_block_number s) (dump_secret_key new_key)) g)
      as (g1 & Ha & Hh1 & g2 & Hsw & Hmk & Hh2 & Heg & Hec); [done|by rewrite Hn|]. cbn in Hsw, Hmk, Heg.
    rewrite restore_dump in Hmk, Heg. exists g2. split; [|split; [apply unseal_sealed|done]].
    rewrite Ek, Ed, restore_dump, Hid, Hg, Ha. cbn. rewrite Hsw, Hh1. done.
  - intros Hi. assert (key_for (my_pubkey s) e = None) as Ek by (by apply Hout).
    rewrite Ek, Hg. unfold switch_master_key. rewrite Hid, Hn, Nat2Z.id, lookup_ge_None_2 by lia. done.
Qed.
End rotation.
