(* ===== verification/Replay.v ===== *)
(** * Workers and the gatekeeper's replay of them

    A gatekeeper replays the state machine of every worker to know which
    heartbeats to expect, and panics ("GK or Worker state poisoned") when a
    heartbeat is not the oldest one expected. [World] puts the machines of the
    workers beside the gatekeeper's: both follow the same chain messages, and
    the chain delivers the workers' reports in the order they were pushed
    (proved of the message queue in MqProtocol). A worker that lags behind the
    gatekeeper only delivers later what it pushes here at once. *)

From S2P Require Import Prelude MqTypes Storage FixedPoint WorkerSM Tokenomic Economics.

(** ** Loops over the workers *)

Lemma sorted_keys_elem {V} (m : gmap Z V) k : k ∈ sorted_keys m <-> is_Some (m !! k).
Proof. unfold sorted_keys. rewrite merge_sort_Permutation, elem_of_elements. apply elem_of_dom. Qed.

Lemma sorted_keys_NoDup {V} (m : gmap Z V) : NoDup (sorted_keys m).
Proof. unfold sorted_keys. rewrite merge_sort_Permutation. apply NoDup_elements. Qed.

(** The values before and after, one by one *)
Definition each {V} (R : V -> V -> Prop) (m m' : gmap Z V) : Prop :=
  forall k, match m !! k, m' !! k with
            | Some v, Some v' => R v v'
            | None, None => True
            | _, _ => False
            end.

(** If the body always returns and relates the old value to the new, so does the loop. *)
Lemma for_each_key_run {V A} (P : V -> Prop) (R : V -> V -> Prop) (f : V -> A -> option (V * A)) keys : forall m a,
  (forall v a, P v -> exists v' a', f v a = Some (v', a') /\ R v v') ->
  NoDup keys -> (forall k, k ∈ keys -> exists v, m !! k = Some v /\ P v) ->
  exists m' a', for_each_key keys f m a = Some (m', a') /\
    forall k, if decide (k ∈ keys) then exists v v', m !! k = Some v /\ m' !! k = Some v' /\ R v v'
              else m' !! k = m !! k.
Proof.
  induction keys as [|k keys IH]; intros m a Hf Hnd Hin; cbn; [by do 2 eexists|].
  apply NoDup_cons in Hnd as [Hk Hnd]. destruct (Hin k ltac:(left)) as (v & Hv & Hp). rewrite Hv. cbn.
  destruct (Hf v a Hp) as (v1 & a1 & Hf1 & HR). rewrite Hf1. cbn.
  destruct (IH (<[ k := v1 ]> m) a1 Hf Hnd) as (m' & a' & -> & Hm').
  { intros k' Hk'. rewrite lookup_insert_ne by congruence. apply Hin. by right. }
  do 2 eexists. split; [done|]. intros k'. specialize (Hm' k').
  destruct (decide (k' = k)) as [->|Hne].
  - rewrite decide_False in Hm' by done. rewrite decide_True by left. rewrite lookup_insert_eq in Hm'. by exists v, v1.
  - rewrite lookup_insert_ne in Hm' by done.
    assert (k' ∈ k :: keys <-> k' ∈ keys) as Hiff by (rewrite elem_of_cons; naive_solver).
    repeat case_decide; naive_solver.
Qed.

Lemma ordmap_run {V A} (P : V -> Prop) (R : V -> V -> Prop) (f : V -> A -> option (V * A)) (m : gmap Z V) a :
  (forall v a, P v -> exists v' a', f v a = Some (v', a') /\ R v v') -> (forall k v, m !! k = Some v -> P v) ->
  exists m' a', ordmap_for_each_mut f m a = Some (m', a') /\ each R m m'.
Proof.
  intros Hf Hp. unfold ordmap_for_each_mut.
  destruct (for_each_key_run P R f (sorted_keys m) m a Hf (sorted_keys_NoDup m)) as (m' & a' & Hr & Hm').
  { intros k [v Hv]%sorted_keys_elem. eauto. }
  exists m', a'. split; [done|]. intros k. specialize (Hm' k). case_decide as Hd.
  - destruct Hm' as (v & v' & -> & -> & HR). done.
  - rewrite sorted_keys_elem, <- eq_None_not_Some in Hd. by rewrite Hm', Hd.
Qed.

(** ** The two runs of the machine *)

(** Equal but for the iteration counters *)
Definition bench_agree (a b : BenchState) : Prop :=
  start_block a = start_block b /\ bench_start_time a = bench_start_time b /\ bench_duration a = bench_duration b.
Definition working_agree (a b : WorkingInfo) : Prop :=
  session_id a = session_id b /\ working_st a = working_st b /\ start_time a = start_time b.
Record agree (a b : WorkerState) : Prop := {
  ag_pubkey : ws_pubkey a = ws_pubkey b;
  ag_hashed : ws_hashed_id a = ws_hashed_id b;
  ag_registered : ws_registered a = ws_registered b;
  ag_bench : option_Forall2 bench_agree (bench_state a) (bench_state b);
  ag_working : option_Forall2 working_agree (working_state a) (working_state b);
}.

Lemma agree_new `{PH : !PubkeyHash} k : agree (worker_state_new k) (worker_state_new k).
Proof. split; try done; constructor. Qed.

Definition report_of (m : WorkerMessage) : option WorkingReportEvent :=
  match m with MsgReport e => Some e | MsgRegistry _ => None end.
(** The reports a worker has pushed, oldest first, and the challenges they answer *)
Definition reports (d : WorkerSMDelegate) : list WorkingReportEvent := omap report_of (dg_egress d).
Definition challenge_block (e : WorkingReportEvent) : BlockNumber := (report_terms e).1.1.2.
Definition challenge_time (e : WorkingReportEvent) : Z := (report_terms e).1.2.
Definition challenges (d : WorkerSMDelegate) : list BlockNumber := challenge_block <$> reports d.

(** One step of both machines: they still agree, and the gatekeeper waits for what the worker pushed. *)
Definition in_step (now : Z) (a : WorkerState * WorkerSMTracker) (b : WorkerState * WorkerSMDelegate)
    (tr : WorkerSMTracker) (d : WorkerSMDelegate) : Prop :=
  agree a.1 b.1 /\ exists l, tr_waiting a.2 = tr_waiting tr ++ (challenge_block <$> l) /\
    reports b.2 = reports d ++ l /\ Forall (fun e => challenge_time e = now) l.

Lemma reports_push m d : reports (egress_push m d) = reports d ++ option_list (report_of m).
Proof. unfold reports. cbn. rewrite omap_app. cbn. by destruct (report_of m). Qed.

Lemma in_step_quiet now a b tr d d' : agree a b -> reports d' = reports d -> in_step now (a, tr) (b, d') tr d.
Proof. intros Hab Hd. split; [done|]. exists []. cbn. by rewrite !app_nil_r. Qed.

Lemma process_event_in_step block event a b tr d :
  agree a b -> in_step (block_now_ms block) (process_event block event a tr) (process_event block event b d) tr d.
Proof.
  intros Hab. pose proof Hab as [Hp Hh Hr Hb Hw]. destruct event as [k evt|seed target]; cbn.
  - rewrite Hp. destruct (k =? ws_pubkey b); cbn; [|by apply in_step_quiet].
    destruct evt; try (apply in_step_quiet; [split; cbn; done|done]).
    + apply in_step_quiet; [|done]. split; cbn; try done. by constructor.
    + apply in_step_quiet; [|done]. split; cbn; try done. by constructor.
    + assert ((if need_pause (put_working_state None a) then tr else tr) = tr) as -> by (by case_match).
      apply in_step_quiet; [split; cbn; try done; constructor|by case_match].
    + destruct Hw as [[s1 w1 t1 i1] [s2 w2 t2 i2] (Hs & Hst & Ht)|]; [|by apply in_step_quiet].
      cbn in *. subst w2. destruct w1; apply in_step_quiet; try done; split; cbn; try done; by constructor.
    + destruct Hw as [[s1 w1 t1 i1] [s2 w2 t2 i2] (Hs & Hst & Ht)|]; [|by apply in_step_quiet].
      cbn in *. subst w2. destruct w1; apply in_step_quiet; try done; split; cbn; try done; by constructor.
  - unfold handle_heartbeat_challenge. rewrite Hr, Hh. destruct (ws_registered b); cbn; [|by apply in_step_quiet].
    destruct Hw as [w1 w2 (Hs & Hst & Ht)|]; [|by apply in_step_quiet]. rewrite Hst.
    case_match; [by apply in_step_quiet|]. case_match; [|by apply in_step_quiet].
    split; [done|]. exists [HeartbeatV2 (session_id w2) (block_number block) (block_now_ms block)
      (iteration_counter d -[64] start_iter w2) (n_clusters d) (n_contracts d)].
    split_and!; [done|exact (reports_push (MsgReport _) d)|by repeat constructor].
Qed.

Lemma block_processed_in_step block a b tr d :
  agree a b -> in_step (block_now_ms block) (on_block_processed block a tr) (on_block_processed block b d) tr d.
Proof.
  intros Hab. pose proof Hab as [Hp Hh Hr Hb Hw]. unfold on_block_processed.
  destruct Hb as [b1 b2 (H1 & H2 & H3)|]; [|by apply in_step_quiet]. rewrite H1, H3.
  case_match; [|by apply in_step_quiet]. cbn.
  assert ((if bool_decide (working_state a = None) then tr else tr) = tr) as -> by (by case_match).
  apply in_step_quiet; [split; cbn; try done; constructor|].
  assert (forall m, reports (egress_push (MsgRegistry m) d) = reports d) as Hm.
  { intros m. rewrite reports_push. apply app_nil_r. }
  case_match; [|apply Hm]. etrans; [|apply Hm]. done.
Qed.

(** ** The world *)

Record World := mkWorld {
  wd_eco : ComputingEconomics;
  wd_workers : gmap WorkerPublicKey (WorkerState * WorkerSMDelegate);
  wd_delivered : gmap WorkerPublicKey nat; (** reports the chain has delivered *)
  wd_registered : gset WorkerPublicKey; (** keys the registry has announced *)
  wd_block : BlockInfo;
}.

Inductive world_op :=
  | OpBegin (block : BlockInfo)
  | OpSystem (origin : MessageOrigin) (event : SystemEvent)
  | OpReport (worker : WorkerPublicKey) (** the next report of the worker arrives *)
  | OpOtherReport (origin : MessageOrigin) (event : WorkingReportEvent)
  | OpGkEvent (origin : MessageOrigin) (event : GatekeeperEvent)
  | OpEnd
  | OpJoin (worker : WorkerPublicKey) (d : WorkerSMDelegate) (** a new worker starts *)
  | OpBench (worker : WorkerPublicKey) (counter clusters contracts : Z). (** a worker's counters change *)

Section world.
Context `{FC : !FixedCrate} `{FN : !FixedNum} `{PH : !PubkeyHash}.

Definition world_new (block : BlockInfo) : World := mkWorld eco_new ∅ ∅ ∅ block.

Definition delivered (w : World) (k : WorkerPublicKey) : nat := default 0%nat (wd_delivered w !! k).

Definition put_eco (e : ComputingEconomics) (w : World) : World :=
  mkWorld e (wd_workers w) (wd_delivered w) (wd_registered w) (wd_block w).
Definition all_workers (f : WorkerState -> WorkerSMDelegate -> WorkerState * WorkerSMDelegate) (w : World) : World :=
  mkWorld (wd_eco w) ((fun p => f p.1 p.2) <$> wd_workers w) (wd_delivered w) (wd_registered w) (wd_block w).
Definition announce (e : SystemEvent) (w : World) : World :=
  match e with
  | SysWorkerEvent k (WRegistered _) =>
      mkWorld (wd_eco w) (wd_workers w) (wd_delivered w) ({[ k ]} ∪ wd_registered w) (wd_block w)
  | _ => w
  end.

Definition world_exec (op : world_op) (w : World) : option World :=
  match op with
  | OpBegin block =>
      e ← will_process_block block (wd_eco w);
      Some (mkWorld e (wd_workers w) (wd_delivered w) (wd_registered w) block)
  | OpSystem origin event =>
      '(e, _) ← process_system_event origin event (wd_block w) (wd_eco w) tt;
      Some (if is_pallet origin
            then announce event (put_eco e (all_workers (process_event (wd_block w) event) w))
            else put_eco e w)
  | OpReport k =>
      '(_, d) ← wd_workers w !! k;
      r ← reports d !! delivered w k;
      '(e, _) ← process_computing_report (Worker k) r (wd_block w) (wd_eco w) tt;
      Some (mkWorld e (wd_workers w) (<[ k := S (delivered w k) ]> (wd_delivered w)) (wd_registered w) (wd_block w))
  | OpOtherReport origin event =>
      '(e, _) ← process_computing_report origin event (wd_block w) (wd_eco w) tt;
      Some (put_eco e w)
  | OpGkEvent origin event =>
      e ← eco_process_gatekeeper_event origin event (wd_eco w);
      Some (put_eco e w)
  | OpEnd =>
      '(e, _) ← did_process_block (wd_block w) (wd_eco w) tt;
      Some (put_eco e (all_workers (on_block_processed (wd_block w)) w))
  | OpJoin k d =>
      Some (mkWorld (wd_eco w) (<[ k := (worker_state_new k, d) ]> (wd_workers w)) (wd_delivered w)
        (wd_registered w) (wd_block w))
  | OpBench k counter clusters contracts =>
      Some (mkWorld (wd_eco w) (alter (fun p => (p.1, mkDelegate (dg_egress p.2) clusters contracts counter
        (bench_paused p.2))) k (wd_workers w)) (wd_delivered w) (wd_registered w) (wd_block w))
  end.

(** What the chain and the message queue guarantee: the block time is a [u64],
    a worker is announced before anything else is said of it and starts before
    it is announced, reports come from workers, in order, and the retired
    events are not sent. *)
Definition world_op_ok (w : World) (op : world_op) : Prop :=
  match op with
  | OpBegin block => u64 (block_now_ms block)
  | OpSystem origin (SysWorkerEvent k evt) =>
      is_pallet origin = true -> (exists c, evt = WRegistered c) \/ k ∈ wd_registered w
  | OpReport k => exists st d, wd_workers w !! k = Some (st, d) /\ (delivered w k < length (reports d))%nat
  | OpOtherReport origin _ => forall k, origin <> Worker k
  | OpGkEvent _ e => e <> RepairV_ /\ e <> PhalaLaunched_ /\ e <> UnrespFix_
  | OpJoin k d => (k ∉ wd_registered w) /\ wd_workers w !! k = None /\ dg_egress d = []
  | _ => True
  end.

Definition world_step (w w' : World) : Prop := exists op, world_op_ok w op /\ world_exec op w = Some w'.

(** ** The invariant *)

(** What the gatekeeper knows of worker [k] against what the worker is *)
Definition pair_ok (k : WorkerPublicKey) (i : option WorkerInfo) (s : option (WorkerState * WorkerSMDelegate)) (n : nat) : Prop :=
  match s with
  | None => n = 0%nat
  | Some (st, d) =>
      Forall (fun e => u64 (challenge_time e)) (reports d) /\ (n <= length (reports d))%nat /\
      match i with
      | None => st = worker_state_new k /\ reports d = []
      | Some i => agree (wi_state i) st /\ waiting_heartbeats i = drop n (challenges d)
      end
  end.

Record replays (w : World) : Prop := {
  rp_now : u64 (block_now_ms (wd_block w));
  rp_registered : forall k, k ∈ wd_registered w <-> is_Some (eco_workers (wd_eco w) !! k);
  rp_times : forall k i, eco_workers (wd_eco w) !! k = Some i -> u64 (tk_challenge_time_last (tokenomic i));
  rp_pairs : forall k, pair_ok k (eco_workers (wd_eco w) !! k) (wd_workers w !! k) (delivered w k);
}.

Context `{FD : !FixedDoc} `{FND : !FixedNumDoc}.

#[local] Arguments process_computing_report : simpl never.
#[local] Arguments process_system_event : simpl never.
#[local] Arguments will_process_block : simpl never.
#[local] Arguments did_process_block : simpl never.

(** *** Divisions do not panic *)

Lemma fp_zero : fp_lit 0 1 = 0.
Proof. pose proof (fp_lit_doc 0 1 ltac:(lia)). lia. Qed.

Lemma div_run a b : b <> 0 -> exists q, u64f64_div a b = Some q.
Proof. intros Hb. rewrite u64f64_div_doc. destruct (b =? 0) eqn:E; b2p; [done|by eexists]. Qed.

Lemma idle_run p t : exists t', update_v_idle p t = Some t' /\ tk_challenge_time_last t' = tk_challenge_time_last t.
Proof.
  unfold update_v_idle. rewrite fp_zero. destruct (tk_p_bench t =? 0) eqn:E; b2p; cbn; [by eexists|].
  destruct (div_run (tk_p t) (tk_p_bench t) E) as [q ->]. by eexists.
Qed.

Lemma heartbeat_run p sum now b t : exists x y t', update_v_heartbeat p sum now b t = Some (x, y, t') /\
  tk_challenge_time_last t' = tk_challenge_time_last t.
Proof.
  unfold update_v_heartbeat. rewrite fp_zero. destruct (sum =? 0) eqn:E; b2p; [by do 3 eexists|].
  repeat (case_match; [by do 3 eexists|]). destruct (div_run (tk_share t) sum E) as [q ->]. by do 3 eexists.
Qed.

Lemma p_instant_run now it c t :
  u64 now -> u64 (tk_challenge_time_last t) -> exists t', update_p_instant now it c t = Some t'.
Proof.
  intros Hn Ht. unfold update_p_instant. cbn. case_match eqn:E; [by eexists|]. b2p. unfold in_width in *.
  set (t1 := if it <? _ then _ else _). assert (tk_challenge_time_last t1 = tk_challenge_time_last t) as ->
    by (subst t1; by case_match).
  rewrite (wrap_small 64 (now - _)), (u64f64_of_u64_doc (now - _)) by (unfold in_width; lia).
  rewrite u64f64_div_int_doc by lia.
  destruct (div_run (u64f64_of_u64 (it -[64] tk_iteration_last t1)) ((now - tk_challenge_time_last t) * 2 ^ 64 / 1000)) as [q ->].
  { assert (0 < (now - tk_challenge_time_last t) * 2 ^ 64 / 1000); [|lia]. apply Z.div_str_pos. lia. }
  by eexists.
Qed.

(** *** What each handler does to the machines *)

(** The state of the machine and the heartbeats waited for *)
Definition core (i : WorkerInfo) : WorkerState * list BlockNumber := (wi_state i, waiting_heartbeats i).
Definition time_ok (i : WorkerInfo) : Prop := u64 (tk_challenge_time_last (tokenomic i)).
Definition tracked (step : WorkerState -> WorkerSMTracker -> WorkerState * WorkerSMTracker) (i : WorkerInfo) :
    WorkerState * list BlockNumber := core (track step i).1.


(** The machine did [step], and the heartbeat times are still times. *)
Definition steps_by (step : WorkerState -> WorkerSMTracker -> WorkerState * WorkerSMTracker) (i i' : WorkerInfo) : Prop :=
  core i' = tracked step i /\ (time_ok i -> time_ok i').
Definition still : WorkerState -> WorkerSMTracker -> WorkerState * WorkerSMTracker := fun st tr => (st, tr).

Lemma will_run block e : exists e', will_process_block block e = Some e' /\
  each (steps_by still) (eco_workers e) (eco_workers e').
Proof.
  unfold will_process_block. cbn.
  destruct (ordmap_run (fun _ => True) (steps_by still) (fun w (u : unit) => Some (put_heartbeat_flag false w, u))
    (eco_workers e) tt) as (m & a & -> & Hm); [|done|by eexists]. intros v u _. by do 2 eexists.
Qed.

Lemma post_run block p i a : exists i' a', block_post_process block p i a = Some (i', a') /\
  steps_by (on_block_processed block) i i'.
Proof.
  unfold block_post_process. destruct a as [report l].
  destruct (track (on_block_processed block) i) as [w c] eqn:Et.
  assert (core w = tracked (on_block_processed block) i /\ tokenomic w = tokenomic i) as [Hc Ht].
  { unfold tracked. rewrite Et. split; [done|]. revert Et. unfold track. case_match. by intros [= <- <-]. }
  destruct (working_state (wi_state w)); [|do 2 eexists; split; [done|]; split; [done|]; unfold time_ok; by rewrite Ht].
  set (r := if unresponsive w then _ else _).
  assert (core r.1.1 = core w /\ tokenomic r.1.1 = tokenomic w) as [Hc1 Ht1] by (subst r; by repeat case_match).
  destruct r as [[w1 r1] l1]. cbn in Hc1, Ht1. rewrite Hc in Hc1. rewrite Ht in Ht1.
  case_match; [do 2 eexists; split; [done|]; split; [exact Hc1|]; unfold time_ok; cbn; by rewrite Ht1|].
  case_match; [|do 2 eexists; split; [done|]; split; [exact Hc1|]; unfold time_ok; cbn; by rewrite Ht1].
  destruct (idle_run p (tokenomic w1)) as (t & -> & Htt). cbn. do 2 eexists. split; [done|]. split; [exact Hc1|].
  unfold time_ok. cbn. by rewrite Htt, Ht1.
Qed.

Lemma did_run block e : exists e' l, did_process_block block e tt = Some (e', l) /\
  each (steps_by (on_block_processed block)) (eco_workers e) (eco_workers e').
Proof.
  unfold did_process_block.
  destruct (ordmap_run (fun _ => True) (steps_by (on_block_processed block)) (block_post_process block (tokenomic_params e))
    (eco_workers e) (cache_report (eco_cache e), tt)) as (m & [r l] & -> & Hm); [|done|].
  - intros i a _. apply post_run.
  - cbn. do 2 eexists. split; [done|]. by case_match.
Qed.

(** The first registration makes the entry. *)
Definition ensure_worker (event : SystemEvent) (m : gmap Z WorkerInfo) : gmap Z WorkerInfo :=
  match event with
  | SysWorkerEvent k (WRegistered _) => match m !! k with Some _ => m | None => <[ k := worker_info_new k ]> m end
  | _ => m
  end.

Lemma on_event_each block k evt e l : u64 (block_now_ms block) ->
  each (steps_by still) (eco_workers e) (eco_workers (on_worker_event (L := unit) block k evt e l).1).
Proof.
  intros Hn k'. unfold on_worker_event.
  assert (forall m : gmap Z WorkerInfo, match m !! k' with Some i => steps_by still i i | None => True end) as Hrefl.
  { intros m. by case_match. }
  assert (forall i i', eco_workers e !! k = Some i -> steps_by still i i' ->
    match eco_workers e !! k', <[ k := i' ]> (eco_workers e) !! k' with
    | Some v, Some v' => steps_by still v v' | None, None => True | _, _ => False end) as Hins.
  { intros i i' Hi Hs. destruct (decide (k' = k)) as [->|Hne]; [by rewrite Hi, lookup_insert_eq|].
    rewrite lookup_insert_ne by done. specialize (Hrefl (eco_workers e)). by case_match. }
  specialize (Hrefl (eco_workers e)).
  destruct (eco_workers e !! k) as [i|] eqn:Ek; [|cbn; by destruct (eco_workers e !! k')].
  destruct evt; cbn; try (by destruct (eco_workers e !! k')); (apply (Hins i); [done|]); by split.
Qed.

Lemma system_run origin event block e : is_pallet origin = true -> u64 (block_now_ms block) ->
  exists e' l, process_system_event origin event block e tt = Some (e', l) /\
    each (steps_by (process_event block event)) (ensure_worker event (eco_workers e)) (eco_workers e').
Proof.
  intros Ho Hn. unfold process_system_event. rewrite Ho. cbn.
  set (e1 := match event with SysWorkerEvent _ _ => _ | _ => _ end).
  assert (eco_workers e1 = ensure_worker event (eco_workers e)) as <-.
  { subst e1. unfold ensure_worker. by repeat case_match. }
  edestruct (ordmap_run (A := unit) (fun _ => True) (steps_by (process_event block event)))
    as (m & l & Hrun & Hm); [| |rewrite Hrun; cbn]; [|done|].
  - intros i a _. unfold tracked. destruct (track (process_event block event) i) as [w c] eqn:Et.
    do 2 eexists. split; [done|]. split; [unfold tracked; by rewrite Et|].
    revert Et. unfold track. case_match. by intros [= <- <-].
  - destruct event as [k evt|]; [|by do 2 eexists].
    destruct (on_worker_event block k evt _ l) as [e2 l2] eqn:E2. do 2 eexists. split; [done|].
    pose proof (on_event_each block k evt (put_eco_workers m e1) l Hn) as He. rewrite E2 in He.
    intros k'. specialize (Hm k'). specialize (He k'). cbn in He.
    destruct (eco_workers e1 !! k'), (m !! k'), (eco_workers e2 !! k'); try done.
    destruct Hm as [Hm1 Hm2], He as [He1 He2]. split; [|by auto]. etrans; [exact He1|exact Hm1].
Qed.

Lemma accept_run block p sum r k i : u64 (block_now_ms block) -> time_ok i -> u64 (challenge_time r) ->
  exists i' x s, accept_heartbeat block p sum r k i = Some (i', x, s) /\ core i' = core i /\ time_ok i'.
Proof.
  intros Hn Ht Hr. unfold accept_heartbeat. unfold challenge_time in Hr.
  destruct (report_terms r) as [[[ses cb] ct] it]. cbn in Hr.
  destruct (p_instant_run (block_now_ms block) it (contract_running_in r) (tokenomic i) Hn Ht) as [t Hp].
  cbn. rewrite Hp. cbn. case_match; [by do 3 eexists|].
  edestruct heartbeat_run as (x & y & t' & -> & Ht'). cbn. do 3 eexists. split; [done|]. split; [done|].
  unfold time_ok. cbn. by rewrite Ht'.
Qed.

Lemma report_run r block e k i b rest :
  eco_workers e !! k = Some i -> waiting_heartbeats i = b :: rest -> challenge_block r = b ->
  u64 (block_now_ms block) -> time_ok i -> u64 (challenge_time r) ->
  exists e' l i', process_computing_report (Worker k) r block e tt = Some (e', l) /\
    eco_workers e' = <[ k := i' ]> (eco_workers e) /\ core i' = (wi_state i, rest) /\ time_ok i'.
Proof.
  intros Hi Hw Hb Hn Ht Hr. unfold process_computing_report, challenge_block in *.
  destruct (report_terms r) as [[[ses cb] ct] it] eqn:Er. cbn in Hb. subst cb. rewrite Hi, Hw, Z.eqb_refl. cbn.
  destruct (working_state (wi_state i)) as [j|]; [|by do 3 eexists].
  destruct (negb _); [by do 3 eexists|].
  edestruct (accept_run block) as (i' & x & s & -> & Hc & Ht'); [exact Hn| |exact Hr|cbn]; [exact Ht|].
  exists (match s with Some s => put_report (push_settle s (cache_report (eco_cache e)))
      (put_eco_workers (<[ k := i' ]> (<[ k := put_waiting rest i ]> (eco_workers e))) e)
    | None => put_eco_workers (<[ k := i' ]> (<[ k := put_waiting rest i ]> (eco_workers e))) e end), tt, i'.
  split_and!; [by destruct s| |exact Hc|done]. by destruct s; cbn; rewrite insert_insert_eq.
Qed.

(** *** The pairs follow *)

Lemma pair_step s1 s2 now k i i' st d n :
  (forall a b tr d, agree a b -> in_step now (s1 a tr) (s2 b d) tr d) -> u64 now ->
  steps_by s1 i i' -> pair_ok k (Some i) (Some (st, d)) n -> pair_ok k (Some i') (Some (s2 st d)) n.
Proof.
  intros Hstep Hn [Hc _] (Hts & Hle & Hag & Hw).
  destruct (Hstep (wi_state i) st (tracker_new (waiting_heartbeats i)) d Hag) as (Hag' & l & Hl & Hrep & Hl2).
  unfold tracked, track, core in Hc. destruct (s1 _ _) as [a tr]. cbn in *. injection Hc as Hc1 Hc2.
  destruct (s2 st d) as [b d']. cbn in *. rewrite Hrep. split_and!.
  - apply Forall_app. split; [done|]. eapply Forall_impl; [exact Hl2|]. by intros e ->.
  - rewrite length_app. lia.
  - by rewrite Hc1.
  - rewrite Hc2, Hl, Hw. unfold challenges. rewrite Hrep, fmap_app, drop_app_le; [done|]. by rewrite length_fmap.
Qed.

Lemma pair_still k i i' s n : steps_by still i i' -> pair_ok k (Some i) s n -> pair_ok k (Some i') s n.
Proof. intros [[= H1 H2] _]. destruct s as [[st d]|]; [|done]. cbn. by rewrite H1, H2. Qed.

Lemma fresh_event block event k (d : WorkerSMDelegate) :
  match event with SysWorkerEvent k' _ => k' <> k | _ => True end ->
  process_event block event (worker_state_new k) d = (worker_state_new k, d).
Proof. destruct event as [k' evt|]; cbn; [|done]. intros Hk. by destruct (k' =? k) eqn:E; b2p. Qed.

Lemma replays_new block : u64 (block_now_ms block) -> replays (world_new block).
Proof. intros Hn. split; cbn; [done| |done|done]. intros k. rewrite lookup_empty. split; [set_solver|by intros []]. Qed.

(** All workers and their replicas make the same step. *)
Lemma replays_all s1 (s2 : WorkerState -> WorkerSMDelegate -> WorkerState * WorkerSMDelegate) e (w : World) (m : gmap Z WorkerInfo) reg :
  (forall a b tr d, agree a b -> in_step (block_now_ms (wd_block w)) (s1 a tr) (s2 b d) tr d) ->
  each (steps_by s1) m (eco_workers e) -> u64 (block_now_ms (wd_block w)) ->
  (forall k, k ∈ reg <-> is_Some (m !! k)) -> (forall k i, m !! k = Some i -> time_ok i) ->
  (forall k, pair_ok k (m !! k) (wd_workers w !! k) (delivered w k)) ->
  (forall k d, m !! k = None -> s2 (worker_state_new k) d = (worker_state_new k, d)) ->
  replays (mkWorld e ((fun p => s2 p.1 p.2) <$> wd_workers w) (wd_delivered w) reg (wd_block w)).
Proof.
  intros Hstep Hm Hn Hreg Ht Hp Hfresh. split; cbn; [done| | |].
  - intros k. rewrite Hreg. specialize (Hm k). destruct (m !! k), (eco_workers e !! k); try done; by split; intros [? ?].
  - intros k i' Hi. specialize (Hm k). rewrite Hi in Hm. destruct (m !! k) eqn:E; [|done]. apply Hm. by apply (Ht k).
  - intros k. specialize (Hm k). specialize (Hp k). unfold delivered in *. cbn. rewrite lookup_fmap.
    destruct (wd_workers w !! k) as [[st d]|]; cbn; [|done].
    destruct (m !! k) eqn:E, (eco_workers e !! k); try done; [by eapply pair_step|].
    destruct Hp as (H1 & H2 & -> & H3). rewrite Hfresh by done. done.
Qed.

Lemma each_still_pairs (w : World) e :
  each (steps_by still) (eco_workers (wd_eco w)) (eco_workers e) -> replays w -> replays (put_eco e w).
Proof.
  intros Hm [H1 H2 H3 H4]. split; cbn; [done| | |].
  - intros k. rewrite H2. specialize (Hm k).
    destruct (eco_workers (wd_eco w) !! k), (eco_workers e !! k); try done; by split; intros [? ?].
  - intros k i' Hi. specialize (Hm k). rewrite Hi in Hm.
    destruct (eco_workers (wd_eco w) !! k) eqn:E; [|done]. apply Hm. by apply (H3 k).
  - intros k. specialize (Hm k). specialize (H4 k).
    destruct (eco_workers (wd_eco w) !! k), (eco_workers e !! k); try done. by eapply pair_still.
Qed.

Lemma each_still_refl m : each (steps_by still) m m.
Proof. intros k. by destruct (m !! k). Qed.

Lemma ensure_worker_lookup event m k :
  ensure_worker event m !! k = m !! k \/
  (exists c, event = SysWorkerEvent k (WRegistered c)) /\ m !! k = None /\
    ensure_worker event m !! k = Some (worker_info_new k).
Proof.
  unfold ensure_worker. destruct event as [k' evt|]; [|by left]. destruct evt as [c| | | | | |]; try by left.
  destruct (m !! k') eqn:E; [by left|]. destruct (decide (k = k')) as [->|Hne].
  - right. rewrite lookup_insert_eq. eauto.
  - left. by rewrite lookup_insert_ne.
Qed.

Lemma ensure_worker_dom event m reg k : (forall k, k ∈ reg <-> is_Some (m !! k)) ->
  k ∈ wd_registered (announce event (mkWorld eco_new ∅ ∅ reg (mkBlock 0 0))) <-> is_Some (ensure_worker event m !! k).
Proof.
  intros Hreg. unfold announce, ensure_worker. destruct event as [k' evt|]; [|done]. destruct evt; try done. cbn.
  rewrite elem_of_union, elem_of_singleton, Hreg. destruct (m !! k') eqn:E.
  - split; [|by right]. intros [->|]; [by rewrite E; eexists|done].
  - destruct (decide (k = k')) as [->|Hne]; [rewrite lookup_insert_eq|rewrite lookup_insert_ne by done]; naive_solver.
Qed.

Lemma step_system w origin event :
  replays w -> world_op_ok w (OpSystem origin event) ->
  exists w', world_exec (OpSystem origin event) w = Some w' /\ replays w'.
Proof.
  intros Hi Hok. pose proof Hi as [Hn Hreg Ht Hp]. unfold world_exec.
  destruct (is_pallet origin) eqn:Ho.
  2: { unfold process_system_event. rewrite Ho. cbn. eexists. split; [done|]. by apply each_still_pairs, Hi; apply each_still_refl. }
  destruct (system_run origin event (wd_block w) (wd_eco w) Ho Hn) as (e & l & -> & Hm). cbn.
  eexists. split; [done|].
  assert (forall k, match event with SysWorkerEvent k' _ => k' = k | _ => False end ->
    is_Some (ensure_worker event (eco_workers (wd_eco w)) !! k)) as Hconc.
  { intros k Hk. destruct event as [k' evt|]; [|done]. subst k'. rewrite <- (ensure_worker_dom _ _ _ _ Hreg).
    destruct (Hok Ho) as [[c ->]|Hin]; cbn; [set_solver|]. destruct evt; cbn; set_solver. }
  assert (forall r, announce event (put_eco e (all_workers r w)) =
    mkWorld e ((fun p => r p.1 p.2) <$> wd_workers w) (wd_delivered w)
      (wd_registered (announce event (mkWorld eco_new ∅ ∅ (wd_registered w) (mkBlock 0 0)))) (wd_block w)) as ->.
  { intros r. unfold announce. by repeat case_match. }
  apply (replays_all (process_event (wd_block w) event) _ _ _ (ensure_worker event (eco_workers (wd_eco w)))); try done.
  - intros a b tr d. apply process_event_in_step.
  - intros k. by apply ensure_worker_dom.
  - intros k i Hk. destruct (ensure_worker_lookup event (eco_workers (wd_eco w)) k) as [Heq|(_ & _ & Heq)];
      rewrite Heq in Hk; [by apply (Ht k)|]. injection Hk as <-. done.
  - intros k. specialize (Hp k).
    destruct (ensure_worker_lookup event (eco_workers (wd_eco w)) k) as [->|(_ & Hnone & ->)]; [done|].
    rewrite Hnone in Hp. destruct (wd_workers w !! k) as [[st d]|]; [|done].
    destruct Hp as (H1 & H2 & -> & H4).
    split; [done|]. split; [done|]. split; [apply agree_new|]. unfold challenges. rewrite H4. cbn. by rewrite drop_nil.
  - intros k d Hk. cbn. apply fresh_event. destruct event as [k' evt|]; [|done]. intros ->.
    destruct (Hconc k eq_refl) as [? Hs]. congruence.
Qed.

Lemma step_report w k :
  replays w -> world_op_ok w (OpReport k) -> exists w', world_exec (OpReport k) w = Some w' /\ replays w'.
Proof.
  intros Hi (st & d & Hd & Hlt). pose proof Hi as [Hn Hreg Ht Hp]. unfold world_exec. rewrite Hd. cbn.
  apply lookup_lt_is_Some in Hlt as [r Hr]. rewrite Hr. cbn.
  pose proof (Hp k) as Hk. rewrite Hd in Hk. cbn in Hk. destruct Hk as (Hts & Hle & Hk).
  destruct (eco_workers (wd_eco w) !! k) as [i|] eqn:Ei; [|destruct Hk as [_ Hk]; by rewrite Hk in Hr].
  destruct Hk as [Hag Hw].
  assert (challenges d !! delivered w k = Some (challenge_block r)) as Hc by (unfold challenges; by rewrite list_lookup_fmap, Hr).
  rewrite (drop_S _ _ _ Hc) in Hw.
  destruct (report_run r (wd_block w) (wd_eco w) k i _ _ Ei Hw eq_refl Hn (Ht _ _ Ei)) as (e & l & i' & -> & He & Hcore & Hti).
  { rewrite Forall_lookup in Hts. by apply (Hts _ _ Hr). }
  cbn. eexists. split; [done|]. injection Hcore as Hc1 Hc2. split; cbn; [done| | |]; rewrite He.
  - intros k'. rewrite Hreg. destruct (decide (k' = k)) as [->|Hne]; [rewrite lookup_insert_eq, Ei|by rewrite lookup_insert_ne].
    by split; eexists.
  - intros k' j Hj. destruct (decide (k' = k)) as [->|Hne].
    + rewrite lookup_insert_eq in Hj. by injection Hj as <-.
    + rewrite lookup_insert_ne in Hj by done. by apply (Ht k').
  - intros k'. unfold delivered. cbn. destruct (decide (k' = k)) as [->|Hne].
    + rewrite !lookup_insert_eq, Hd. cbn. apply lookup_lt_Some in Hr. unfold delivered in *.
      split; [done|]. split; [lia|]. split; [by rewrite Hc1|done].
    + rewrite !lookup_insert_ne by done. apply Hp.
Qed.

Lemma step_join w k d :
  replays w -> world_op_ok w (OpJoin k d) -> exists w', world_exec (OpJoin k d) w = Some w' /\ replays w'.
Proof.
  intros [Hn Hreg Ht Hp] (Hk & Hw & Hd). cbn. eexists. split; [done|]. split; cbn; [done..|].
  intros k'. unfold delivered. cbn. destruct (decide (k' = k)) as [->|Hne].
  - pose proof (Hp k) as Hp0. rewrite Hw in Hp0. cbn in Hp0. unfold delivered in Hp0.
    rewrite lookup_insert_eq, Hp0. rewrite Hreg, <- eq_None_not_Some in Hk. rewrite Hk.
    unfold pair_ok, reports. rewrite Hd. split_and!; [constructor|lia|done|done].
  - rewrite lookup_insert_ne by done. apply Hp.
Qed.

Lemma step_bench w k a b c :
  replays w -> exists w', world_exec (OpBench k a b c) w = Some w' /\ replays w'.
Proof.
  intros [Hn Hreg Ht Hp]. cbn. eexists. split; [done|]. split; cbn; [done..|].
  intros k'. unfold delivered. cbn. specialize (Hp k'). unfold delivered in Hp.
  destruct (decide (k' = k)) as [->|Hne]; [|by rewrite lookup_alter_ne].
  rewrite lookup_alter_eq. by destruct (wd_workers w !! k) as [[st d]|].
Qed.

Lemma world_op_run w op :
  replays w -> world_op_ok w op -> exists w', world_exec op w = Some w' /\ replays w'.
Proof.
  intros Hi Hok. destruct op as [block|o e|k|o r|o e| |k d|k a b c].
  - unfold world_exec. destruct (will_run block (wd_eco w)) as (e & -> & He). cbn. eexists. split; [done|].
    apply (each_still_pairs w) in He as [H1 H2 H3 H4]; [|done]. by split.
  - by apply step_system.
  - by apply step_report.
  - unfold world_exec, process_computing_report. destruct o; try (by destruct (Hok pubkey)).
    all: cbn; eexists; split; [done|]; apply each_still_pairs; [apply each_still_refl|done].
  - cbn in Hok. unfold world_exec. destruct e as [b r l|p| | |]; cbn; try tauto; eexists; (split; [done|]).
    all: apply each_still_pairs; [|done]; cbn; repeat case_match; apply each_still_refl.
  - unfold world_exec. destruct (did_run (wd_block w) (wd_eco w)) as (e & l & -> & He). cbn. eexists. split; [done|].
    apply (replays_all (on_block_processed (wd_block w)) (on_block_processed (wd_block w)) e w (eco_workers (wd_eco w))
      (wd_registered w)); try done; try apply Hi.
    intros a b tr d. apply block_processed_in_step.
  - by apply step_join.
  - by apply step_bench.
Qed.

(** C4: the computing economics of a gatekeeper that follows the chain never
    runs into a poisoned state. On every history of blocks, events of the
    pallets (about workers that are registered), tokenomic parameters, joining
    workers and working reports delivered in order, the replica of every worker agrees
    with the worker itself (registration, benchmark, session, pause), the
    heartbeats it waits for are exactly those the worker has pushed and the
    chain has not delivered, and processing the next of these messages or blocks
    returns. The other messages of a gatekeeper are not among them: random
    numbers made with old keys can panic (Gatekeeper.v), and the three retired events of the pallet, which the
    code calls unreachable, are excluded. *)
Theorem gatekeeper_replays_workers block w :
  u64 (block_now_ms block) -> rtc world_step (world_new block) w ->
  (forall op, world_op_ok w op -> is_Some (world_exec op w)) /\
  forall k i st d, eco_workers (wd_eco w) !! k = Some i -> wd_workers w !! k = Some (st, d) ->
    agree (wi_state i) st /\ waiting_heartbeats i = drop (delivered w k) (challenges d).
Proof.
  intros Hn Hw. assert (replays w) as Hi.
  { eapply (rtc_invariant world_step replays); [|exact Hw|by apply replays_new].
    intros w1 w2 H1 (op & Hok & He). destruct (world_op_run w1 op H1 Hok) as (w' & He' & H'). congruence. }
  split.
  - intros op Hok. destruct (world_op_run w op Hi Hok) as (w' & -> & _). by eexists.
  - intros k i st d Hk Hd. pose proof (rp_pairs _ Hi k) as Hp. rewrite Hk, Hd in Hp. cbn in Hp. tauto.
Qed.
End world.
