(* ===== verification/GkRuns.v ===== *)
(** * Concrete gatekeepers and workers

    A worker that is registered, started, challenged and answers, replayed by a
    gatekeeper; a dispatcher with two subscribers; a gatekeeper that syncs with
    the keys of two rotations. *)

From S2P Require Import Prelude MqTypes SendQueue Storage MqPallet FixedPoint Instances Dispatcher DispatchOrder KeyShare WorkerSM Tokenomic Economics Gatekeeper SystemKeys KeyRotation Replay.

#[global] Instance toy_fixed_num : FixedNum := {|
  u64f64_of_u64 n := n * 2 ^ 64;
  u64f64_mul_int a n := wrap 128 (a * n);
  u64f64_div_int a n := a / n;
  fp_lit n d := (2 * n * 2 ^ 64 + d) / (2 * d);
|}.

#[global] Instance toy_fixed_num_doc : FixedNumDoc.
Proof.
  split; try done.
  - intros n d Hd. cbn. pose proof (Z.div_mod (2 * n * 2 ^ 64 + d) (2 * d) ltac:(lia)) as Hq.
    pose proof (Z.mod_pos_bound (2 * n * 2 ^ 64 + d) (2 * d) ltac:(lia)). lia.
  - intros a Ha. cbn. unfold in_width in *. split; [apply Z.sqrt_nonneg|].
    apply (Z.le_lt_trans _ (2 ^ 96)); [|lia]. change (2 ^ 96) with (Z.sqrt (2 ^ 192)). apply Z.sqrt_le_mono. lia.
Qed.

#[global] Instance toy_hash : PubkeyHash := fun k => k.

(** ** A worker and its replica *)

Definition world_op_okb (w : World) (op : world_op) : bool :=
  match op with
  | OpBegin block => (0 <=? block_now_ms block) && (block_now_ms block <? 2 ^ 64)
  | OpSystem origin (SysWorkerEvent k evt) =>
      match evt with WRegistered _ => true | _ => bool_decide (k ∈ wd_registered w) end
  | OpReport k => match wd_workers w !! k with
                  | Some (_, d) => (delivered w k <? length (reports d))%nat
                  | None => false
                  end
  | OpOtherReport (Worker _) _ => false
  | OpGkEvent _ (NewRandomNumber _ _ _) | OpGkEvent _ (TokenomicParametersChanged _) => true
  | OpGkEvent _ _ => false
  | OpJoin k d => bool_decide (k ∉ wd_registered w) && bool_decide (wd_workers w !! k = None) &&
                  match dg_egress d with [] => true | _ => false end
  | _ => true
  end.

Lemma world_op_okb_spec w op : world_op_okb w op = true -> world_op_ok w op.
Proof.
  destruct op as [block|o e|k|o r|o e| |k d|k a b c]; cbn.
  - unfold in_width. b2p. lia.
  - destruct e as [k evt|]; [|done]. destruct evt; b2p; eauto.
  - destruct (wd_workers w !! k) as [[st d]|]; [|done]. intros H. apply Nat.ltb_lt in H. eauto.
  - by destruct o.
  - by destruct e.
  - done.
  - b2p. intros [[H1 H2] H3]. split_and!; [done|done|]. by destruct (dg_egress d).
  - done.
Qed.

Fixpoint world_run (l : list world_op) (w : World) : option World :=
  match l with
  | [] => Some w
  | op :: l' => if world_op_okb w op then w ← world_exec op w; world_run l' w else None
  end.

Lemma world_run_steps l : forall w w', world_run l w = Some w' -> rtc world_step w w'.
Proof.
  induction l as [|op l IH]; cbn; intros w w' H; [by simplify_eq|].
  destruct (world_op_okb w op) eqn:Eo; [|done]. destruct (world_exec op w) as [w1|] eqn:Ee; [|done].
  eapply rtc_l; [|by apply IH]. exists op. split; [by apply world_op_okb_spec|done].
Qed.

Definition chain_origin : MessageOrigin := Pallet (bs "phala").
Definition block_at (n : Z) : BlockInfo := mkBlock n (n * 12000).
Definition worker_history : list world_op :=
  [OpJoin 1 (mkDelegate [] 0 0 1000 true);
   OpBegin (block_at 1); OpSystem chain_origin (SysWorkerEvent 1 (WRegistered 1)); OpEnd;
   OpBegin (block_at 2); OpSystem chain_origin (SysWorkerEvent 1 (Started 7 (3000 * 2 ^ 64) 600)); OpEnd;
   OpBegin (block_at 3); OpBench 1 1600 0 0; OpSystem chain_origin (SysHeartbeatChallenge 5 (2 ^ 256 - 1)); OpEnd;
   OpBegin (block_at 4); OpSystem chain_origin (SysHeartbeatChallenge 6 (2 ^ 256 - 1)); OpReport 1; OpEnd].
Definition worker_run : World :=
  Eval vm_compute in default (world_new (block_at 0)) (world_run worker_history (world_new (block_at 0))).
Lemma worker_run_eq : world_run worker_history (world_new (block_at 0)) = Some worker_run.
Proof. vm_compute. reflexivity. Qed.

(** One challenge answered and settled, the next one still waited for *)
Example worker_run_view :
  waiting_heartbeats <$> eco_workers (wd_eco worker_run) !! 1 = Some [4] /\
  (fun p => challenges p.2) <$> wd_workers worker_run !! 1 = Some [3; 4] /\
  map upd_settle (eco_egress (wd_eco worker_run)) =
    [[mkSettle 1 (3000 * 2 ^ 64) 2754047796451373200677 688511949112843300122]].
Proof. vm_compute. split; [reflexivity|split; reflexivity]. Qed.

Lemma gatekeeper_replays_workers_witness :
  rtc world_step (world_new (block_at 0)) worker_run /\ world_op_ok worker_run (OpReport 1) /\
  is_Some (world_exec (OpReport 1) worker_run).
Proof.
  assert (u64 (block_now_ms (block_at 0))) as H0 by (vm_compute; split; [discriminate|reflexivity]).
  assert (rtc world_step (world_new (block_at 0)) worker_run) as Hr by (eapply world_run_steps; apply worker_run_eq).
  assert (world_op_ok worker_run (OpReport 1)) as Hok by (apply world_op_okb_spec; vm_compute; reflexivity).
  split; [exact Hr|]. split; [exact Hok|].
  exact (proj1 (gatekeeper_replays_workers (block_at 0) worker_run H0 Hr) (OpReport 1) Hok).
Defined.

(** ** Two topics, one order *)

Definition topic_a : Path := bs "a".
Definition topic_b : Path := bs "b".
Definition note (s : list Z) (m : Message) : option (list Z) := Some (s ++ payload m).
Definition toy_branches : list (@Branch (list Z)) :=
  [mkBranch topic_a 0%nat (fun m s => note s m); mkBranch topic_b 1%nat (fun m s => note s m)].
Definition toy_dispatcher : MessageDispatcher :=
  Eval vm_compute in (subscribe topic_b (subscribe topic_a dispatcher_new).2).2.
Definition toy_messages : list Message :=
  [message_new Reserved topic_b [1]; message_new Reserved topic_a [2]; message_new Reserved (bs "c") [3];
   message_new Reserved topic_b [4]; message_new Reserved topic_a [5]].

Lemma toy_wired : wired toy_branches toy_dispatcher.
Proof.
  split.
  - split; vm_compute; repeat (constructor; [set_solver|]); constructor.
  - intros p l H. change (subscribers toy_dispatcher) with
      (<[ topic_b := [1%nat] ]> (<[ topic_a := [0%nat] ]> (∅ : gmap Path (list nat)))) in H.
    rewrite !lookup_insert_Some, lookup_empty in H. destruct H as [[_ <-]|[_ [[_ <-]|[_ H]]]]; [apply NoDup_singleton..|done].
  - intros r. unfold toy_branches. rewrite !elem_of_cons, elem_of_nil.
    intros [->|[->|[]]]; eexists; (split; [vm_compute; reflexivity|left]).
  - intros r p l Hr H. change (subscribers toy_dispatcher) with
      (<[ topic_b := [1%nat] ]> (<[ topic_a := [0%nat] ]> (∅ : gmap Path (list nat)))) in H.
    rewrite !lookup_insert_Some, lookup_empty in H. revert Hr. unfold toy_branches. rewrite !elem_of_cons, elem_of_nil.
    destruct H as [[<- <-]|[_ [[<- <-]|[_ H]]]]; [..|done]; intros [->|[->|[]]] Hc; cbn in Hc;
      apply list_elem_of_singleton in Hc; done.
  - intros r. unfold toy_branches. rewrite !elem_of_cons, elem_of_nil.
    intros [->|[->|[]]]; eexists; (split; [vm_compute; reflexivity|done]).
Qed.

Lemma select_in_order_witness :
  in_order toy_branches toy_messages [] = Some [1; 2; 4; 5] /\
  exists h', select_loop 6 (branches toy_branches) Some (heap (dispatch_all toy_messages toy_dispatcher)) [] =
    Some (h', [1; 2; 4; 5]).
Proof.
  assert (in_order toy_branches toy_messages [] = Some [1; 2; 4; 5]) as Ho by (vm_compute; reflexivity).
  split; [exact Ho|].
  assert (queued toy_branches [] (heap toy_dispatcher)) as Hq.
  { intros r. unfold toy_branches. rewrite !elem_of_cons, elem_of_nil.
    intros [->|[->|[]]]; eexists; (split; [vm_compute; reflexivity|]); (split; [discriminate|reflexivity]). }
  pose proof (select_in_order toy_branches Some toy_dispatcher toy_messages [] 6 toy_wired Hq
    ltac:(vm_compute; discriminate) ltac:(vm_compute; reflexivity) ltac:(cbn; lia)) as H.
  rewrite Ho in H. destruct H as (h' & H & _). exists h'. exact H.
Defined.

(** ** Syncing with the keys of two rotations *)

#[global] Instance toy_crypto : Crypto := {|
  restore_from_secret_key s := default 0 (head s);
  dump_secret_key k := k :: replicate 63 0;
  derive_sr25519_pair k info := Some (k + 1);
  public_of k := k + 1000;
  pair_sign k d := toy_sign (k + 1000) d;
  ecdh_public k := k;
  agree_with a p := [a + p];
  aead_encrypt iv k d := Some (k ++ d);
  aead_decrypt iv k c := Some (drop (length k) c);
  blake2_256_of b := take 32 b;
  number_of b := foldl (fun acc x => acc * 65536 + x) 0 b;
  bytes_of z := [z];
|}.

Definition three_keys : list RotatedMasterKey := [mkRotated 0 0 [11]; mkRotated 1 100 [22]; mkRotated 2 200 [33]].
Definition syncing_gk : Gatekeeper :=
  default (mkGk 0 false false [] (mkEgress 0 false []) 0 0 eco_new) (gatekeeper_new three_keys (mkEgress 11 false [])).

(** The first random number, of block 5, is refused with the keys of two
    rotations, and accepted with those of one. *)
Lemma random_numbers_of_old_keys_panic_witness :
  master_key syncing_gk = 11 /\
  exists r, emit_random_number 5 (put_master_key 11 syncing_gk) <> None /\
    next_random_number 11 5 0 = Some r /\
    process_random_number_event MqTypes.Gatekeeper 5 r 0 syncing_gk = None /\
    process_random_number_event MqTypes.Gatekeeper 5 r 0 (put_master_key_history (take 2 three_keys) syncing_gk) =
      Some (put_master_key_history (take 2 three_keys) syncing_gk).
Proof.
  split; [vm_compute; reflexivity|]. exists (default 0 (next_random_number 11 5 0)).
  split; [vm_compute; discriminate|]. split; [vm_compute; reflexivity|].
  assert (forall n, heights_sorted (take n three_keys)) as Hs.
  { intros n i j a b Hi Hj Hlt. apply lookup_take_Some in Hi as [Hi _], Hj as [Hj _].
    destruct i as [|[|[|]]], j as [|[|[|]]]; try lia; try discriminate; cbn in Hi, Hj; simplify_eq; reflexivity. }
  split.
  - refine (proj2 (random_numbers_of_old_keys_panic syncing_gk 5 5 0 _ (mkRotated 0 0 [11]) (mkRotated 0 0 [11])
      (Hs 3%nat) _ _ _ _ _ (mkRotated 1 100 [22]) _) _ _); vm_compute; (reflexivity || discriminate).
  - refine (proj1 (random_numbers_of_old_keys_panic (put_master_key_history (take 2 three_keys) syncing_gk) 5 5 0 _
      (mkRotated 0 0 [11]) (mkRotated 0 0 [11]) (Hs 2%nat) _ _ _ _ _ (mkRotated 0 0 [11]) _) _);
      vm_compute; (reflexivity || discriminate).
Defined.

(** ** A rotation between two gatekeepers *)

#[global] Instance toy_rotation_codec : RotationCodec :=
  fun n l p => n :: p :: concat ((fun e => e.1 :: e.2.1.1 :: e.2.1.2 ++ e.2.2) <$> l).

#[global] Instance RotatedMasterKey_countable : Countable RotatedMasterKey.
Proof.
  refine (inj_countable' (fun k => (rotation_id k, block_height k, secret k)) (fun t => mkRotated t.1.1 t.1.2 t.2) _).
  by intros [].
Defined.

Definition seal_parts (d : MasterKeySeal) : Secret * bytes + list RotatedMasterKey * bytes :=
  match d with SealV1 x y => inl (x, y) | SealV2 x y => inr (x, y) end.
Definition seal_of_parts (p : Secret * bytes + list RotatedMasterKey * bytes) : MasterKeySeal :=
  match p with inl (x, y) => SealV1 x y | inr (x, y) => SealV2 x y end.

#[global] Instance toy_seal_codec : SealCodec := {|
  encode_history := toy_encode;
  encode_seal d := toy_encode (seal_parts d);
  decode_seal b := match b with [Z.pos p] => seal_of_parts <$> decode p | _ => None end;
|}.

#[global] Instance toy_seal_laws : SealLaws.
Proof. intros d. cbn. rewrite decode_encode. by destruct d. Qed.

#[global] Instance toy_crypto_laws : CryptoLaws.
Proof.
  split; try (intros; cbn; eauto; done).
  - intros a b. cbn. f_equal. lia.
  - intros iv k d c [= <-]. cbn. by rewrite drop_app_length.
Qed.

#[global] Instance toy_sign_laws : SignLaws.
Proof.
  split.
  - intros k d. unfold pair_sign, toy_crypto, toy_sign. rewrite length_take. cbn [length]. rewrite length_app, repeat_length. lia.
  - intros k d. cbn. by apply bool_decide_eq_true.
  - done.
Qed.

(** Gatekeepers with the identities [1] and [2]; the first is asked to rotate. *)
Definition first_key : list RotatedMasterKey := [mkRotated 0 0 (dump_secret_key 11)].
Definition old_gk : Gatekeeper :=
  mkGk 11 true true first_key (mkEgress 11 false []) 0 0 eco_new.
Definition gk_system (id : Pair) : System :=
  mkSystem id (worker_state_new (id + 1000)) (mkDelegate [] 0 0 0 true) (Some old_gk) None 100 0 0 [].
Definition gk_view : ChainView := mkView [1001; 1002] None.

Lemma rotation_reaches_gatekeepers_witness :
  NoDup (public_of <$> [1; 2]) /\ exists e g0',
    gk_process_master_key_rotation_request (block_at 100) 1 (identity_of <$> [1; 2]) 77 1 old_gk = Some g0' /\
    (exists g', process_key_distribution_event gk_view MqTypes.Gatekeeper (MasterKeyRotation e) (gk_system 2) =
       Ok tt (put_gatekeeper (Some g') (put_sealed (Some (sealed_data 2 (first_key ++ [mkRotated 1 100 (dump_secret_key 77)]))) (gk_system 2))) /\
       master_key g' = 77) /\
    process_key_distribution_event gk_view MqTypes.Gatekeeper (MasterKeyRotation e) (gk_system 3) =
      Ok tt (put_gatekeeper None (gk_system 3)).
Proof.
  assert (NoDup (public_of <$> [1; 2])) as Hnd by (cbn; repeat (constructor; [set_solver by lia|]); constructor).
  assert (numbered first_key) as Hnum by (intros [|i] k Hk; [by injection Hk as <-|discriminate]).
  split; [exact Hnd|].
  destruct (rotation_reaches_gatekeepers (block_at 100) 1 [1; 2] 77 1 old_gk Hnd) as (e & g0' & Hr & _ & Hall).
  exists e, g0'. split; [exact Hr|]. split.
  - destruct (proj1 (Hall gk_view (gk_system 2) old_gk ltac:(by left) eq_refl Hnum eq_refl)) as (g' & He & _ & Hk & _);
      [by right; left|]. exists g'. split; [exact He|exact Hk].
  - apply (proj2 (Hall gk_view (gk_system 3) old_gk ltac:(by left) eq_refl Hnum eq_refl)). cbn. set_solver by lia.
Defined.
