(* ===== verification/LightClient.v ===== *)
(** * The light client of pRuntime (crates/phactory/src/light_validation)

    It follows the finalized headers of a chain: each submission must descend
    from the last header it accepted and carry a GRANDPA justification by the
    current authority set (mod.rs, justification.rs, storage_proof.rs;
    [find_scheduled_change] of phactory/api/src/blocks.rs). The header hash,
    the GRANDPA library, tries and SCALE encoding are classes. *)

From S2P Require Import Prelude MqTypes.

Abbreviation AuthorityList := (list (Z * Z)) (only parsing).
Abbreviation StorageProof := (list bytes) (only parsing).

(** [sp_runtime::generic::Header]; an item of the digest is its encoding. *)
Record Header := mkHeader {
  h_parent_hash : H256;
  h_number : Z;
  h_state_root : H256;
  h_extrinsics_root : H256;
  h_digest : list bytes;
}.
Record AuthoritySet := mkAuthSet { as_list : AuthorityList; as_id : Z }.
Record ScheduledChange := mkChange { next_authorities : AuthorityList; delay : Z }.
Inductive ConsensusLog := LogScheduledChange (change : ScheduledChange) | LogOther.

(** [finality_grandpa]'s messages *)
Record Precommit := mkPrecommit { pc_target_hash : H256; pc_target_number : Z }.
Record SignedPrecommit := mkSignedPrecommit { sp_precommit : Precommit; sp_signature : bytes; sp_id : Z }.
Record Commit := mkCommit { cm_target_hash : H256; cm_target_number : Z; cm_precommits : list SignedPrecommit }.
Record GrandpaJustification := mkJustification {
  gj_round : Z;
  gj_commit : Commit;
  gj_votes_ancestries : list Header;
}.

(** [Chain::ancestry]: the route, an error, or a loop that goes on for ever *)
Inductive Ancestry := Route (route : list H256) | NotDescendent | Endless.

(** The code outside the repository *)
Class ChainLib := {
  header_hash : Header -> H256;
  (** [item.consensus_try_to(&GRANDPA_ENGINE_ID)] *)
  consensus_log : bytes -> option ConsensusLog;
  encode_authorities : AuthorityList -> bytes;
  (** [GrandpaJustification::decode], [VoterSet::new], [validate_commit(..)] and [is_valid] of its result *)
  decode_justification : bytes -> option GrandpaJustification;
  VoterSet : Type;
  voter_set_new : AuthorityList -> option VoterSet;
  validate_commit : Commit -> VoterSet -> (H256 -> H256 -> Ancestry) -> option bool;
  check_message_signature : Precommit -> Z -> bytes -> Z -> Z -> bool;
  (** reading a key from the trie of a proof, under a root; [None] is an error *)
  trie_read : H256 -> StorageProof -> bytes -> option (option bytes);
  twox_128 : bytes -> bytes;
}.

Inductive LvError :=
  | StorageValueUnavailable
  | ValidatorSetMismatch
  | InvalidAncestryProof
  | NoSuchBridgeExists
  | StorageValueMismatch
  | UnsupportedScheduledChangeDelay
  | BadJustification (msg : string)
  | JustificationDecode
  | TrieError
  | MissingAuthorities.

Record BridgeInfo := mkBridge { last_finalized_block_header : Header; current_set : AuthoritySet }.
Record LightValidation := mkLight { num_bridges : Z; tracked_bridges : gmap Z BridgeInfo }.

Definition light_new : LightValidation := mkLight 0 ∅.

Section light.
Context `{CL : !ChainLib}.

Definition find_scheduled_change (header : Header) : option ScheduledChange :=
  head (omap (fun l => match consensus_log l with Some (LogScheduledChange change) => Some change | _ => None end)
    (h_digest header)).

Definition calc_storage_prefix (module storage_item : bytes) : bytes := twox_128 module ++ twox_128 storage_item.

Definition storage_prefix (module storage_item : bytes) : bytes :=
  if bool_decide ((module, storage_item) = (bs "Grandpa", bs "Authorities")) then
    [95; 156; 196; 91; 122; 0; 197; 137; 147; 97; 225; 198; 9; 150; 120; 220;
     94; 6; 33; 196; 134; 154; 166; 12; 2; 190; 154; 220; 201; 138; 13; 29]
  else calc_storage_prefix module storage_item.

(** ** Justifications *)

Definition ancestry_chain (l : list Header) : gmap H256 Header := foldl (fun m h => <[ header_hash h := h ]> m) ∅ l.

(** The loop of [ancestry], [route] reversed; [Endless] after [fuel] rounds *)
Fixpoint ancestry_loop (fuel : nat) (chain : gmap H256 Header) (base current : H256) (route : list H256) : Ancestry :=
  if current =? base then Route (rev (tail route))
  else match chain !! current with
       | None => NotDescendent
       | Some current_header =>
           match fuel with
           | O => Endless
           | S fuel => ancestry_loop fuel chain base (h_parent_hash current_header) (h_parent_hash current_header :: route)
           end
       end.

(** The loop visits every header at most once, or for ever. *)
Definition ancestry (chain : gmap H256 Header) (base block : H256) : Ancestry :=
  ancestry_loop (size chain) chain base block [].

(** [iter().min_by_key(..)]: the first of the least *)
Definition min_by_key {A} (key : A -> Z) (l : list A) : option A :=
  foldl (fun acc x => match acc with Some y => if key x <? key y then Some x else Some y | None => Some x end) None l.

Section checks.
Context {S : Type}.

Fixpoint verify_precommits (round set_id : Z) (chain : gmap H256 Header) (base_hash : H256) (l : list SignedPrecommit)
    (visited_hashes : gset H256) : M S LvError (gset H256) :=
  match l with
  | [] => mret visited_hashes
  | signed :: l' =>
      ensure (check_message_signature (sp_precommit signed) (sp_id signed) (sp_signature signed) round set_id)
        (BadJustification "invalid signature for precommit in grandpa justification");;
      let target := pc_target_hash (sp_precommit signed) in
      if base_hash =? target then verify_precommits round set_id chain base_hash l' visited_hashes
      else match ancestry chain base_hash target with
           | Route route =>
               verify_precommits round set_id chain base_hash l' (visited_hashes ∪ {[ target ]} ∪ list_to_set route)
           | NotDescendent => fail (BadJustification "invalid precommit ancestry proof in grandpa justification")
           | Endless => panic
           end
  end.

Definition verify_with_voter_set (j : GrandpaJustification) (set_id : Z) (voters : VoterSet) : M S LvError unit :=
  let chain := ancestry_chain (gj_votes_ancestries j) in
  ensure (match validate_commit (gj_commit j) voters (ancestry chain) with Some valid => valid | None => false end)
    (BadJustification "invalid commit in grandpa justification");;
  base ← expect (min_by_key pc_target_number (sp_precommit <$> cm_precommits (gj_commit j)));
  visited_hashes ← verify_precommits (gj_round j) set_id chain (pc_target_hash base) (cm_precommits (gj_commit j)) ∅;
  let ancestry_hashes : gset H256 := list_to_set (header_hash <$> gj_votes_ancestries j) in
  ensure (bool_decide (visited_hashes = ancestry_hashes))
    (BadJustification "invalid precommit ancestries in grandpa justification with unused headers").

Definition decode_and_verify_finalizes (encoded : bytes) (target_hash : H256) (target_number : Z) (set_id : Z)
    (voters : VoterSet) : M S LvError unit :=
  j ← ok_or (decode_justification encoded) JustificationDecode;
  ensure (bool_decide ((cm_target_hash (gj_commit j), cm_target_number (gj_commit j)) = (target_hash, target_number)))
    (BadJustification "invalid commit target in grandpa justification");;
  verify_with_voter_set j set_id voters.

Definition verify_grandpa_proof (justification : bytes) (hash : H256) (number : Z) (set_id : Z) (voters : VoterSet) : M S LvError unit :=
  decode_and_verify_finalizes justification hash number set_id voters.

(** ** Ancestry of a submission *)

Fixpoint descends (proof : list Header) (ancestor_hash parent_hash : H256) : bool :=
  match proof with
  | [] => false
  | header :: proof' =>
      if header_hash header =? parent_hash then
        (h_parent_hash header =? ancestor_hash) || descends proof' ancestor_hash (h_parent_hash header)
      else false
  end.

Definition verify_ancestry (proof : list Header) (ancestor_hash : H256) (child : Header) : M S LvError unit :=
  ensure ((h_parent_hash child =? ancestor_hash) || descends proof ancestor_hash (h_parent_hash child)) InvalidAncestryProof.

(** ** Storage proofs *)

Definition read_value (root : H256) (proof : StorageProof) (key : bytes) : M S LvError (option bytes) :=
  ok_or (trie_read root proof key) TrieError.

Definition validate_item (state_root : H256) (proof : StorageProof) (item : bytes * bytes) : M S LvError unit :=
  value ← read_value state_root proof item.1;
  actual_value ← ok_or value StorageValueUnavailable;
  ensure (bool_decide (actual_value = item.2)) StorageValueMismatch.

Definition lv_validate_storage_proof (state_root : H256) (proof : StorageProof) (items : list (bytes * bytes)) : M S LvError unit :=
  for_each items (validate_item state_root proof).

Definition check_validator_set_proof (state_root : H256) (proof : StorageProof) (validator_set : AuthorityList) : M S LvError unit :=
  let encoded_validator_set := encode_authorities validator_set in
  alt ← read_value state_root proof (storage_prefix (bs "Grandpa") (bs "Authorities"));
  matches ←
    match alt with
    | Some authorities => mret (bool_decide (encoded_validator_set = authorities))
    | None =>
        old ← read_value state_root proof (bs ":grandpa_authorities");
        authorities ← ok_or old MissingAuthorities;
        mret (bool_decide (Some encoded_validator_set =
          match authorities with [] => None | _ :: authorities => Some authorities end))
    end;
  ensure matches ValidatorSetMismatch.
End checks.

(** ** The client *)

Definition initialize_bridge (block_header : Header) (validator_set : AuthoritySet) (proof : StorageProof) : M LightValidation LvError Z :=
  check_validator_set_proof (h_state_root block_header) proof (as_list validator_set);;
  let bridge_info := mkBridge block_header validator_set in
  new_bridge_id ← gets (fun l => num_bridges l +[64] 1);
  modify (fun l => mkLight new_bridge_id (<[ new_bridge_id := bridge_info ]> (tracked_bridges l)));;
  mret new_bridge_id.

(** The authority set after a finalized header *)
Definition next_set (header : Header) (set : AuthoritySet) : AuthoritySet :=
  match find_scheduled_change header with
  | Some scheduled_change => mkAuthSet (next_authorities scheduled_change) (as_id set +[64] 1)
  | None => set
  end.

Definition lv_submit_finalized_headers (bridge_id : Z) (header : Header) (ancestry_proof : list Header) (grandpa_proof : bytes) :
    M LightValidation LvError unit :=
  l ← get_st;
  bridge ← ok_or (tracked_bridges l !! bridge_id) NoSuchBridgeExists;
  verify_ancestry ancestry_proof (header_hash (last_finalized_block_header bridge)) header;;
  let voters := current_set bridge in
  voter_set ← expect (voter_set_new (as_list voters));
  verify_grandpa_proof grandpa_proof (header_hash header) (h_number header) (as_id voters) voter_set;;
  match find_scheduled_change header with
  | Some scheduled_change => ensure (delay scheduled_change =? 0) UnsupportedScheduledChangeDelay
  | None => mret tt
  end;;
  modify (fun l => mkLight (num_bridges l) (<[ bridge_id := mkBridge header (next_set header voters) ]> (tracked_bridges l))).
End light.
