(* ===== verification/StorageSync.v ===== *)
(** * Synchronising the chain's storage (crates/phactory/api/src/storage_sync.rs)

    pRuntime receives headers, which the light client validates, and blocks of
    storage changes, which must lead to the state root of the header. In
    parachain mode the headers are those of the relay chain, and a parachain
    header is validated by a storage proof. The validator is the class
    [BlockValidator], which the light client implements (phactory/src/storage.rs);
    the trie is that of crates/phala-trie-storage over [sp-trie]. *)

From S2P Require Import Prelude MqTypes LightClient.

Inductive SyncError :=
  | EmptyRequest
  | MissingJustification
  | HeaderValidateFailed (e : LvError)
  | StorageProofFailed (e : LvError)
  | RelaychainHeaderNotSynced
  | HeaderHashMismatch
  | BlockNumberMismatch
  | NoStateRoot
  | StateRootMismatch (block : Z) (expected actual : H256)
  | ChainModeMismatch
  | CannotLoadStateAfterSyncing.

Record HeaderToSync := mkToSync { hs_header : Header; hs_justification : option bytes }.

Abbreviation StorageCollection := (list (bytes * option bytes)) (only parsing).
Record StorageChanges := mkChanges {
  main_storage_changes : StorageCollection;
  child_storage_changes : list (bytes * StorageCollection);
}.
Record BlockHeaderWithChanges := mkBlock { bl_header : Header; bl_changes : StorageChanges }.

Class BlockValidator (V : Type) := {
  submit_finalized_headers : Z -> Header -> list Header -> bytes -> M V SyncError unit;
  validate_storage_proof {S} : V -> H256 -> StorageProof -> list (bytes * bytes) -> M S SyncError unit;
}.

#[global] Instance light_validator `{CL : !ChainLib} : BlockValidator LightValidation := {|
  submit_finalized_headers bridge_id header ancestry_proof grandpa_proof :=
    map_err HeaderValidateFailed (lv_submit_finalized_headers bridge_id header ancestry_proof grandpa_proof);
  validate_storage_proof S l state_root proof items :=
    map_err StorageProofFailed (lv_validate_storage_proof state_root proof items);
|}.

(** ** The trie (phala-trie-storage): a database of nodes and a root *)

Class TrieLib (D : Type) := {
  Transaction : Type;
  (** [Backend::full_storage_root] *)
  full_storage_root : D -> H256 -> StorageChanges -> H256 * Transaction;
  consolidate : Transaction -> D -> D;
}.

Record TrieStorage (D : Type) := mkTrie { trie_db : D; trie_root : H256 }.
Arguments mkTrie {D} trie_db trie_root.
Arguments trie_db {D} t.
Arguments trie_root {D} t.

Section trie.
Context {D : Type} `{TL : !TrieLib D}.

Definition calc_root_if_changes (t : TrieStorage D) (changes : StorageChanges) : H256 * Transaction :=
  full_storage_root (trie_db t) (trie_root t) changes.
Definition apply_changes (root : H256) (transaction : Transaction) (t : TrieStorage D) : TrieStorage D :=
  mkTrie (consolidate transaction (trie_db t)) root.
Definition set_root (root : H256) (t : TrieStorage D) : TrieStorage D := mkTrie (trie_db t) root.
End trie.

Record BlockSyncState (V : Type) := mkSyncState {
  validator : V;
  main_bridge : Z;
  header_number_next : Z;
  block_number_next : Z;
  genesis_state_validated : bool;
}.
Arguments mkSyncState {V}.
Arguments validator {V} b.
Arguments main_bridge {V} b.
Arguments header_number_next {V} b.
Arguments block_number_next {V} b.
Arguments genesis_state_validated {V} b.

Definition sync_state_new {V} (validator : V) (main_bridge header_number_next block_number_next : Z) : BlockSyncState V :=
  mkSyncState validator main_bridge header_number_next block_number_next false.

Section sync_state.
Context {V : Type} `{BV : !BlockValidator V}.
Implicit Types b : BlockSyncState V.

Definition put_validator (v : V) b : BlockSyncState V :=
  mkSyncState v (main_bridge b) (header_number_next b) (block_number_next b) (genesis_state_validated b).
Definition put_header_number_next (n : Z) b : BlockSyncState V :=
  mkSyncState (validator b) (main_bridge b) n (block_number_next b) (genesis_state_validated b).
Definition put_block_number_next (n : Z) b : BlockSyncState V :=
  mkSyncState (validator b) (main_bridge b) (header_number_next b) n (genesis_state_validated b).
Definition put_genesis_state_validated (v : bool) b : BlockSyncState V :=
  mkSyncState (validator b) (main_bridge b) (header_number_next b) (block_number_next b) v.

(** A call of the validator *)
Definition on_validator {A} (m : M V SyncError A) : M (BlockSyncState V * list H256) SyncError A := fun p =>
  match m (validator p.1) with
  | Ok a v => Ok a (put_validator v p.1, p.2)
  | Err e v => Err e (put_validator v p.1, p.2)
  | Panic => Panic
  end.

(** Every header but the first has the one before as its parent. *)
Fixpoint chained `{CL : !ChainLib} (l : list Header) : bool :=
  match l with
  | h :: (h' :: _) as l' => (header_hash h =? h_parent_hash h') && chained l'
  | _ => true
  end.

(** The state is the synchronizer and the [state_roots] it is given. *)
Definition sync_header `{CL : !ChainLib} (headers : list HeaderToSync) (skip_blocks_below : Z) :
    M (BlockSyncState V * list H256) SyncError Z :=
  b ← gets fst;
  let headers := filter (fun h => header_number_next b <= h_number (hs_header h)) headers in
  match headers, last headers with
  | first_header :: _, Some last_header =>
      ensure (h_number (hs_header first_header) =? header_number_next b) BlockNumberMismatch;;
      justification ← ok_or (hs_justification last_header) MissingJustification;
      ensure (chained (hs_header <$> headers)) HeaderHashMismatch;;
      let accenstor_proof := rev (removelast (hs_header <$> headers)) in
      on_validator (submit_finalized_headers (main_bridge b) (hs_header last_header) accenstor_proof justification);;
      let kept := filter (fun h => skip_blocks_below <= h_number h) (hs_header <$> headers) in
      modify (fun p => (p.1, p.2 ++ (h_state_root <$> kept)));;
      modify (fun p => (put_header_number_next (h_number (hs_header last_header) +[32] 1) p.1, p.2));;
      mret (h_number (hs_header last_header))
  | _, _ => mret (header_number_next b -[32] 1)
  end.

Context {D : Type} `{TL : !TrieLib D}.
Abbreviation Feed := (BlockSyncState V * list H256 * TrieStorage D)%type.

Definition mod_sync (f : BlockSyncState V -> BlockSyncState V) : M Feed SyncError unit := modify (fun p => (f p.1.1, p.1.2, p.2)).
Definition pop_root : M Feed SyncError unit := modify (fun p => (p.1.1, tail p.1.2, p.2)).
Definition mod_trie (f : TrieStorage D -> TrieStorage D) : M Feed SyncError unit := modify (fun p => (p.1, f p.2)).

Definition validate_genesis : M Feed SyncError unit :=
  p ← get_st;
  if genesis_state_validated p.1.1 then mret tt
  else
    genesis_state_root ← ok_or (head p.1.2) NoStateRoot;
    ensure (trie_root p.2 =? genesis_state_root)
      (StateRootMismatch (block_number_next p.1.1 -[32] 1) genesis_state_root (trie_root p.2));;
    pop_root;;
    mod_sync (put_genesis_state_validated true).

Definition feed_block (block : BlockHeaderWithChanges) (drop_proofs : bool) : M Feed SyncError unit :=
  b ← gets (fun p => p.1.1);
  ensure (h_number (bl_header block) =? block_number_next b) BlockNumberMismatch;;
  if drop_proofs then
    mod_sync (fun b => put_block_number_next (block_number_next b +[32] 1) b);;
    roots ← gets (fun p => p.1.2);
    root ← ok_or (head roots) NoStateRoot;
    pop_root;;
    mod_trie (set_root root)
  else
    validate_genesis;;
    p ← get_st;
    expected_root ← ok_or (head p.1.2) NoStateRoot;
    let '(state_root, transaction) := calc_root_if_changes p.2 (bl_changes block) in
    ensure (expected_root =? state_root) (StateRootMismatch (h_number (bl_header block)) expected_root state_root);;
    mod_trie (apply_changes state_root transaction);;
    mod_sync (fun b => put_block_number_next (block_number_next b +[32] 1) b);;
    pop_root.
End sync_state.

(** ** The two kinds of chains *)

Record SyncCounters := mkSyncCounters {
  next_header_number : Z;
  next_para_header_number : Z;
  next_block_number : Z;
  waiting_for_paraheaders : bool;
}.

Record SolochainSynchronizer (V : Type) := mkSolo { so_sync_state : BlockSyncState V; so_state_roots : list H256 }.
Arguments mkSolo {V}.
Arguments so_sync_state {V} s.
Arguments so_state_roots {V} s.

Record ParachainSynchronizer (V : Type) := mkPara {
  pa_sync_state : BlockSyncState V;
  last_relaychain_state_root : option H256;
  para_header_number_next : Z;
  para_state_roots : list H256;
}.
Arguments mkPara {V}.
Arguments pa_sync_state {V} p.
Arguments last_relaychain_state_root {V} p.
Arguments para_header_number_next {V} p.
Arguments para_state_roots {V} p.

Inductive Synchronizer (V : Type) := Solo (s : SolochainSynchronizer V) | Para (p : ParachainSynchronizer V).
Arguments Solo {V} s.
Arguments Para {V} p.

(** SCALE encoding of a header, twice: the value of [Paras::Heads] *)
Class HeaderCodec := encode_head : Header -> bytes.

Section synchronizers.
Context {V : Type} `{BV : !BlockValidator V} `{CL : !ChainLib} `{HC : !HeaderCodec}.

Definition solo_new (validator : V) (main_bridge : Z) : SolochainSynchronizer V :=
  mkSolo (sync_state_new validator main_bridge 0 1) [].
Definition para_new (validator : V) (main_bridge headernum_next : Z) : ParachainSynchronizer V :=
  mkPara (sync_state_new validator main_bridge headernum_next 1) None 0 [].
Definition new_solochain (validator : V) (main_bridge : Z) : Synchronizer V := Solo (solo_new validator main_bridge).
Definition new_parachain (validator : V) (main_bridge headernum_next : Z) : Synchronizer V :=
  Para (para_new validator main_bridge headernum_next).

Definition solo_counters (s : SolochainSynchronizer V) : SyncCounters :=
  mkSyncCounters (header_number_next (so_sync_state s)) 0 (block_number_next (so_sync_state s)) false.
Definition para_counters (p : ParachainSynchronizer V) : SyncCounters :=
  mkSyncCounters (header_number_next (pa_sync_state p)) (para_header_number_next p) (block_number_next (pa_sync_state p))
    (bool_decide (is_Some (last_relaychain_state_root p))).

(** The synchronizer and its roots, as the state of [sync_header] *)
Definition with_roots {S S' E A} (out : S -> S') (back : S' -> S) (m : M S' E A) : M S E A := fun s =>
  match m (out s) with
  | Ok a s' => Ok a (back s')
  | Err e s' => Err e (back s')
  | Panic => Panic
  end.

Definition solo_sync_header (headers : list HeaderToSync) : M (SolochainSynchronizer V) SyncError Z :=
  s ← get_st;
  skip_blocks_below ← expect (checked_sub (block_number_next (so_sync_state s)) 1);
  with_roots (fun s => (so_sync_state s, so_state_roots s)) (fun p => mkSolo p.1 p.2) (sync_header headers skip_blocks_below).

Definition solo_assume_at_block (block_number : Z) : M (SolochainSynchronizer V) SyncError unit :=
  s ← get_st;
  ensure (negb ((1 <? block_number_next (so_sync_state s)) || (0 <? header_number_next (so_sync_state s))))
    CannotLoadStateAfterSyncing;;
  modify (fun s => mkSolo (put_block_number_next (block_number +[32] 1) (so_sync_state s)) (so_state_roots s)).

(** [self.sync_state.sync_header] runs on roots of its own. *)
Definition para_sync_header (headers : list HeaderToSync) : M (ParachainSynchronizer V) SyncError Z := fun p =>
  match sync_header headers 0 (pa_sync_state p, []) with
  | Ok last_header (b, state_roots) =>
      Ok last_header (mkPara b (match last state_roots with Some last_root => Some last_root | None => last_relaychain_state_root p end)
        (para_header_number_next p) (para_state_roots p))
  | Err e (b, _) => Err e (mkPara b (last_relaychain_state_root p) (para_header_number_next p) (para_state_roots p))
  | Panic => Panic
  end.

Definition para_sync_parachain_header (headers : list Header) (proof : StorageProof) (storage_key : bytes) :
    M (ParachainSynchronizer V) SyncError Z :=
  p ← get_st;
  let headers := filter (fun h => para_header_number_next p <= h_number h) headers in
  match headers, last headers with
  | first_hdr :: _, Some last_hdr =>
      ensure (para_header_number_next p =? h_number first_hdr) BlockNumberMismatch;;
      state_root ← ok_or (last_relaychain_state_root p) RelaychainHeaderNotSynced;
      validate_storage_proof (validator (pa_sync_state p)) state_root proof [(storage_key, encode_head last_hdr)];;
      ensure (chained headers) HeaderHashMismatch;;
      modify (fun p => mkPara (pa_sync_state p) None (h_number last_hdr +[32] 1) (para_state_roots p ++ (h_state_root <$> headers)));;
      mret (h_number last_hdr)
  | _, _ => mret (para_header_number_next p -[32] 1)
  end.

Definition para_assume_at_block (block_number : Z) : M (ParachainSynchronizer V) SyncError unit :=
  p ← get_st;
  ensure (negb ((1 <? block_number_next (pa_sync_state p)) || (1 <? para_header_number_next p))) CannotLoadStateAfterSyncing;;
  modify (fun p => mkPara (put_block_number_next (block_number +[32] 1) (pa_sync_state p)) (last_relaychain_state_root p)
    block_number (para_state_roots p)).

(** ** [dyn StorageSynchronizer] *)

Definition counters (s : Synchronizer V) : SyncCounters :=
  match s with Solo s => solo_counters s | Para p => para_counters p end.
Definition sync_state_of (s : Synchronizer V) : BlockSyncState V :=
  match s with Solo s => so_sync_state s | Para p => pa_sync_state p end.
Definition state_validated (s : Synchronizer V) : bool := genesis_state_validated (sync_state_of s).

Definition as_dyn {E A} (solo : M (SolochainSynchronizer V) E A) (para : M (ParachainSynchronizer V) E A) :
    M (Synchronizer V) E A := fun s =>
  match s with
  | Solo s => match solo s with Ok a s' => Ok a (Solo s') | Err e s' => Err e (Solo s') | Panic => Panic end
  | Para p => match para p with Ok a p' => Ok a (Para p') | Err e p' => Err e (Para p') | Panic => Panic end
  end.

Definition ss_sync_header (headers : list HeaderToSync) : M (Synchronizer V) SyncError Z :=
  as_dyn (solo_sync_header headers) (para_sync_header headers).
Definition ss_sync_parachain_header (headers : list Header) (proof : StorageProof) (storage_key : bytes) : M (Synchronizer V) SyncError Z :=
  as_dyn (fail ChainModeMismatch) (para_sync_parachain_header headers proof storage_key).
Definition assume_at_block (block_number : Z) : M (Synchronizer V) SyncError unit :=
  as_dyn (solo_assume_at_block block_number) (para_assume_at_block block_number).

Context {D : Type} `{TL : !TrieLib D}.

(** What [feed_block] works on, and how it is put back *)
Definition feed_of (s : Synchronizer V) : BlockSyncState V * list H256 :=
  match s with
  | Solo s => (so_sync_state s, so_state_roots s)
  | Para p => (pa_sync_state p, para_state_roots p)
  end.
Definition put_feed (f : BlockSyncState V * list H256) (s : Synchronizer V) : Synchronizer V :=
  match s with
  | Solo _ => Solo (mkSolo f.1 f.2)
  | Para p => Para (mkPara f.1 (last_relaychain_state_root p) (para_header_number_next p) f.2)
  end.

Definition ss_feed_block (block : BlockHeaderWithChanges) (drop_proofs : bool) : M (Synchronizer V * TrieStorage D) SyncError unit :=
  fun st =>
  match feed_block block drop_proofs (feed_of st.1, st.2) with
  | Ok a (f, t) => Ok a (put_feed f st.1, t)
  | Err e (f, t) => Err e (put_feed f st.1, t)
  | Panic => Panic
  end.
End synchronizers.
