(* ===== verification/SyncFollow.v ===== *)
(** * The synchronised storage is the chain's

    What [sync_header] and [feed_block] accept, as long as the light client
    stands on the finalized chain; the invariant of both kinds of synchronizers. *)

From S2P Require Import Prelude MqTypes LightClient StorageSync.

(** * Following a finalized chain

    [Finality] says what the light client relies on: headers are identified by
    their hashes, an authority set only finalizes blocks of the chain, and none
    beyond a block that changes the set. From there: what the light client
    accepts is the chain. *)

(** A chain, by block numbers: every block but the first has the one before as
    its parent, the parent hash of the first is not the hash of a header. *)
Record linked `{CL : !ChainLib} (block_at : Z -> option Header) : Prop := {
  lk_number : forall n h, block_at n = Some h -> h_number h = n /\ 0 <= n < 2 ^ 32 - 1;
  lk_parent : forall n h, block_at n = Some h -> 0 < n ->
    exists h', block_at (n - 1) = Some h' /\ h_parent_hash h = header_hash h';
  lk_first : forall h h', block_at 0 = Some h -> header_hash h' <> h_parent_hash h;
}.

Class Finality `{CL : !ChainLib} := {
  block_at : Z -> option Header;
  (** the set that finalizes what follows a block *)
  set_after : Z -> AuthoritySet;
  header_hash_inj : forall h h', header_hash h = header_hash h' -> h = h';
  chain_linked : linked block_at;
  set_after_next : forall n h, block_at (n + 1) = Some h -> set_after (n + 1) = next_set h (set_after n);
  grandpa_final : forall n j h voters S (s s' : S), voter_set_new (as_list (set_after n)) = Some voters ->
    verify_grandpa_proof j (header_hash h) (h_number h) (as_id (set_after n)) voters s = Ok tt s' ->
    block_at (h_number h) = Some h /\
    forall k h', n < k < h_number h -> block_at k = Some h' -> find_scheduled_change h' = None;
}.

Section chain.
Context `{CL : !ChainLib} `{FI : !Finality} (at_ : Z -> option Header).
Hypothesis Hat : linked at_.

Lemma parent_at h h' : at_ (h_number h') = Some h' -> header_hash h = h_parent_hash h' ->
  at_ (h_number h) = Some h /\ h_number h' = h_number h + 1.
Proof.
  intros H' E. destruct (lk_number _ Hat _ _ H') as [_ Hr]. destruct (decide (h_number h' = 0)) as [Hz|Hz].
  - rewrite Hz in H'. by apply (lk_first _ Hat _ h) in H'.
  - destruct (lk_parent _ Hat _ _ H') as (h0 & H0 & E0); [lia|]. rewrite E0 in E. apply header_hash_inj in E as ->.
    destruct (lk_number _ Hat _ _ H0) as [-> _]. split; [done|lia].
Qed.

(** [l] is the chain from block [n] on. *)
Definition run_from (n : Z) (l : list Header) : Prop := forall i h, l !! i = Some h -> at_ (n + Z.of_nat i) = Some h.

Lemma chained_run l hl : chained l = true -> last l = Some hl -> at_ (h_number hl) = Some hl ->
  exists h, head l = Some h /\ h_number hl = h_number h + Z.of_nat (length l) - 1 /\ run_from (h_number h) l.
Proof.
  induction l as [|h [|h' l] IH]; intros Hc Hl Hhl; [done| |].
  - injection Hl as ->. exists hl. split; [done|]. split; [cbn; lia|]. intros [|i] h; [|done]. intros [= <-].
    by rewrite Z.add_0_r.
  - cbn [chained] in Hc. apply andb_true_iff in Hc as [He Hc]. apply Z.eqb_eq in He.
    destruct (IH Hc Hl Hhl) as (h'' & [= <-] & Hn & Hr). exists h. split; [done|].
    pose proof (Hr 0%nat h' eq_refl) as H'. cbn in H'. rewrite Z.add_0_r in H'.
    apply parent_at with (h := h) in H' as [Hh Hn']; [|done]. split; [cbn [length] in *; lia|].
    intros [|i] x Hx; [injection Hx as <-; by rewrite Z.add_0_r|]. rewrite <- (Hr i x Hx). f_equal. lia.
Qed.

Lemma run_number n l i h : run_from n l -> l !! i = Some h -> h_number h = n + Z.of_nat i.
Proof. intros Hr Hi. by apply Hr, (lk_number _ Hat) in Hi as [-> _]. Qed.

(** Leaving out the blocks below [k] *)
Lemma run_filter k l : forall n, run_from n l ->
  filter (fun h => k <= h_number h) l = drop (Z.to_nat (k - n)) l.
Proof.
  induction l as [|h l IH]; intros n Hr; [by rewrite drop_nil|].
  assert (run_from (n + 1) l) as Hr' by (intros i x Hx; rewrite <- (Hr (S i) x Hx); f_equal; lia).
  pose proof (run_number n (h :: l) 0 h Hr eq_refl) as Hn. rewrite filter_cons, (IH (n + 1) Hr').
  destruct (decide (k <= h_number h)).
  - replace (Z.to_nat (k - n)) with 0%nat by lia. replace (Z.to_nat (k - (n + 1))) with 0%nat by lia. by rewrite drop_0.
  - replace (Z.to_nat (k - n)) with (S (Z.to_nat (k - (n + 1)))) by lia. done.
Qed.

(** [roots] are the state roots of the blocks from [n] on. *)
Definition roots_from (n : Z) (roots : list H256) : Prop := forall i r, roots !! i = Some r ->
  exists h, at_ (n + Z.of_nat i) = Some h /\ h_state_root h = r.

Lemma roots_from_run n l : run_from n l -> roots_from n (h_state_root <$> l).
Proof.
  intros Hr i r Hi. rewrite list_lookup_fmap in Hi. destruct (l !! i) as [h|] eqn:E; [|done]. injection Hi as <-.
  exists h. by rewrite (Hr i h).
Qed.
Lemma roots_from_app n l l' : roots_from n l -> roots_from (n + Z.of_nat (length l)) l' -> roots_from n (l ++ l').
Proof.
  intros H1 H2 i r [Hi|[Hl Hi]]%lookup_app_Some; [by apply H1|]. apply H2 in Hi as (h & Hh & <-). exists h.
  split; [|done]. rewrite <- Hh. f_equal. lia.
Qed.
Lemma roots_from_tail n r l : roots_from n (r :: l) -> roots_from (n + 1) l.
Proof. intros H i x Hx. destruct (H (S i) x Hx) as (h & Hh & <-). exists h. split; [|done]. rewrite <- Hh. f_equal. lia. Qed.
Lemma run_drop n l k : run_from n l -> run_from (n + Z.of_nat k) (drop k l).
Proof. intros Hr i h Hi. rewrite lookup_drop in Hi. rewrite <- (Hr _ _ Hi). f_equal. lia. Qed.
End chain.

(** ** The light client *)
Section light_claims.
Context `{CL : !ChainLib} `{FI : !Finality}.

(** The bridge stands at block [n] of the chain. *)
Definition bridge_at (bridge n : Z) (l : LightValidation) : Prop := exists h,
  block_at n = Some h /\ tracked_bridges l !! bridge = Some (mkBridge h (set_after n)).

Lemma descends_above anc : block_at (h_number anc) = Some anc -> forall proof child,
  block_at (h_number child) = Some child ->
  (h_parent_hash child =? header_hash anc) || descends proof (header_hash anc) (h_parent_hash child) = true ->
  h_number anc < h_number child.
Proof.
  intros Ha. induction proof as [|h proof IH]; intros child Hc H.
  - rewrite orb_false_r in H. apply Z.eqb_eq in H. apply parent_at with (h := anc) in Hc as [_ ?]; [lia|apply chain_linked|done].
  - apply orb_true_iff in H as [H|H].
    + apply Z.eqb_eq in H. apply parent_at with (h := anc) in Hc as [_ ?]; [lia|apply chain_linked|done].
    + cbn [descends] in H. destruct (Z.eqb_spec (header_hash h) (h_parent_hash child)) as [E|]; [|done].
      apply parent_at with (h := h) in Hc as [Hh ?]; [|apply chain_linked|done]. specialize (IH h Hh H). lia.
Qed.

(** No change up to [m]: the set is the same. *)
Lemma set_unchanged n k : (forall i h', n < i <= n + Z.of_nat k -> block_at i = Some h' -> find_scheduled_change h' = None) ->
  is_Some (block_at (n + Z.of_nat k)) -> 0 <= n -> set_after (n + Z.of_nat k) = set_after n.
Proof.
  induction k as [|k IH]; intros Hno [h Hh] Hn; [by rewrite Z.add_0_r|].
  replace (n + Z.of_nat (S k)) with (n + Z.of_nat k + 1) in * by lia. rewrite (set_after_next _ h Hh). unfold next_set.
  rewrite (Hno (n + Z.of_nat k + 1) h) by (done || lia). apply IH; [intros i h' Hi; apply Hno; lia| |done].
  destruct (lk_parent _ chain_linked _ _ Hh) as (h' & Hh' & _); [lia|]. exists h'. rewrite <- Hh'. f_equal. lia.
Qed.

(** The checks leave the state alone. *)
Lemma precommits_pure {S} round id chain base l : forall visited,
  moves (@eq S) (verify_precommits round id chain base l visited).
Proof. induction l as [|x l IH]; intros visited; cbn [verify_precommits]; moves; apply IH. Qed.
Lemma verify_grandpa_pure {S} j hash number id voters : moves (@eq S) (verify_grandpa_proof j hash number id voters).
Proof. unfold verify_grandpa_proof, decode_and_verify_finalizes, verify_with_voter_set. moves. apply precommits_pure. Qed.

(** The client never leaves the chain, and knows the authorities in force. *)
Lemma submit_follows bridge n h proof j l : bridge_at bridge n l ->
  match lv_submit_finalized_headers bridge h proof j l with
  | Ok _ l' => block_at (h_number h) = Some h /\ n < h_number h /\ bridge_at bridge (h_number h) l'
  | Err _ l' => l' = l
  | Panic => True
  end.
Proof.
  intros (a & Ha & Hb). destruct (lk_number _ chain_linked _ _ Ha) as [Hna Hn0].
  unfold lv_submit_finalized_headers, verify_ancestry, get_st, modify, ok_or, ensure, expect, mret, M_ret, mbind, M_bind.
  rewrite Hb. cbn [last_finalized_block_header current_set]. destruct (_ || _) eqn:Hd; [|done].
  destruct (voter_set_new (as_list (set_after n))) as [voters|] eqn:Hv; [|done].
  pose proof (verify_grandpa_pure j (header_hash h) (h_number h) (as_id (set_after n)) voters l) as Hp.
  destruct (verify_grandpa_proof _ _ _ _ _ l) as [[] l'|e l'|] eqn:Hj; [subst l'|by subst l'|done].
  destruct (grandpa_final _ _ _ _ _ _ _ Hv Hj) as [Hh Hno].
  assert (n < h_number h) as Hlt.
  { rewrite <- Hna in Ha. rewrite <- Hna. eapply descends_above; eauto. }
  assert (set_after (h_number h) = next_set h (set_after n)) as Hset.
  { replace (h_number h) with (h_number h - 1 + 1) by lia. rewrite (set_after_next _ h) by (by rewrite Z.sub_add).
    f_equal. replace (h_number h - 1) with (n + Z.of_nat (Z.to_nat (h_number h - 1 - n))) by lia.
    apply set_unchanged; [intros i h' Hi; apply Hno; lia| |lia].
    destruct (lk_parent _ chain_linked _ _ Hh) as (h' & Hh' & _); [lia|]. exists h'. rewrite <- Hh'. f_equal. lia. }
  destruct (find_scheduled_change h) as [c|] eqn:Hc; [destruct (delay c =? 0); [|done]|];
    (split; [done|]; split; [done|]; exists h; split; [done|]; cbn; rewrite lookup_insert_eq, Hset; done).
Qed.
End light_claims.

Section headers.
Context `{CL : !ChainLib} `{FI : !Finality}.
Implicit Types b : BlockSyncState LightValidation.

(** The same but for the validator and the next header *)
Definition same_blocks b b' : Prop :=
  main_bridge b' = main_bridge b /\ block_number_next b' = block_number_next b /\
  genesis_state_validated b' = genesis_state_validated b.

Definition bridge_ok b : Prop := exists n, bridge_at (main_bridge b) n (validator b).

(** What the headers [l] from the next one on change *)
Definition accepts (skip : Z) (l : list Header) b (roots : list H256) b' (roots' : list H256) : Prop :=
  l <> [] /\ run_from block_at (header_number_next b) l /\
  header_number_next b' = header_number_next b + Z.of_nat (length l) /\ bridge_ok b' /\ same_blocks b b' /\
  roots' = roots ++ (h_state_root <$> drop (Z.to_nat (skip - header_number_next b)) l).

Lemma last_map {A B} (f : A -> B) l : last (f <$> l) = f <$> last l.
Proof. induction l as [|x [|y l] IH]; [done|done|exact IH]. Qed.

Lemma sync_header_follows headers skip b roots : bridge_ok b ->
  match sync_header headers skip (b, roots) with
  | Ok n (b', roots') => (b', roots') = (b, roots) \/
      exists l, accepts skip l b roots b' roots' /\ n = header_number_next b' - 1
  | Err _ p => p = (b, roots)
  | Panic => True
  end.
Proof.
  intros [n Hb]. unfold sync_header, gets, ok_or, ensure, modify, mret, M_ret, mbind, M_bind. cbn [fst].
  generalize (filter (fun h => header_number_next b <= h_number (hs_header h)) headers). clear headers. intros hs.
  destruct hs as [|first hs'] eqn:E; [by left|]. rewrite <- E.
  destruct (last hs) as [hl|] eqn:El; [|by left]. destruct (Z.eqb_spec (h_number (hs_header first)) (header_number_next b)) as [Hf|]; [|done].
  destruct (hs_justification hl) as [j|]; [|done]. destruct (chained (hs_header <$> hs)) eqn:Hc; [|done].
  unfold on_validator. cbn [fst snd submit_finalized_headers light_validator]. unfold map_err.
  pose proof (submit_follows (main_bridge b) n (hs_header hl) (rev (removelast (hs_header <$> hs))) j (validator b) Hb) as Hs.
  destruct (lv_submit_finalized_headers _ _ _ _ _) as [[] v|e v|]; [|subst v; by destruct b|done].
  destruct Hs as (Hh & _ & Hb'). right. exists (hs_header <$> hs).
  destruct (chained_run block_at chain_linked _ (hs_header hl) Hc) as (h & Eh & Hn & Hr); [by rewrite last_map, El|done|].
  rewrite E in Eh. injection Eh as <-. destruct (lk_number _ chain_linked _ _ Hh) as [_ Hw].
  rewrite Hf in *. cbn [fst snd put_header_number_next put_validator header_number_next]. rewrite wrap_add_small by lia.
  split; [|lia]. split; [by rewrite E|]. split; [done|]. split; [cbn; lia|]. split; [by exists (h_number (hs_header hl))|].
  split; [done|]. by rewrite (run_filter block_at chain_linked _ _ (header_number_next b)).
Qed.
End headers.

(** ** Blocks *)
Section blocks.
Context `{CL : !ChainLib} `{FI : !Finality} {V D : Type} `{TL : !TrieLib D} (at_ : Z -> option Header).
Hypothesis Hat : linked at_.
Implicit Types (b : BlockSyncState V) (t : TrieStorage D) (roots : list H256).

(** The block whose state root comes first: until the state was validated, that
    of the state itself *)
Definition first_root b : Z := block_number_next b - if genesis_state_validated b then 0 else 1.

(** The trie is the state of block [n]. *)
Definition trie_at (n : Z) t : Prop := exists h, at_ n = Some h /\ h_state_root h = trie_root t.

(** [next] is the next header whose root is expected. *)
Record feed_inv (next : Z) b roots t : Prop := {
  fi_block : 1 <= block_number_next b < 2 ^ 32;
  fi_next : 0 <= next;
  fi_roots : roots_from at_ (first_root b) roots;
  fi_length : Z.of_nat (length roots) = Z.max 0 (next - first_root b);
  fi_valid : genesis_state_validated b = true -> block_number_next b <= next /\ trie_at (block_number_next b - 1) t;
}.

Definition same_headers b b' : Prop :=
  validator b' = validator b /\ main_bridge b' = main_bridge b /\ header_number_next b' = header_number_next b.

Lemma validate_genesis_inv next b roots t : feed_inv next b roots t ->
  match validate_genesis (b, roots, t) with
  | Ok _ (b', roots', t') => feed_inv next b' roots' t' /\ genesis_state_validated b' = true /\ t' = t /\
      block_number_next b' = block_number_next b /\ same_headers b b'
  | Err _ p => p = (b, roots, t)
  | Panic => False
  end.
Proof.
  intros Hi. unfold validate_genesis, get_st, ok_or, ensure, pop_root, mod_sync, modify, mret, M_ret, mbind, M_bind. cbn [fst snd].
  destruct (genesis_state_validated b) eqn:Ev; [done|]. destruct Hi as [H1 H2 H3 H4 H5]. unfold first_root in *. rewrite Ev in *.
  destruct roots as [|r roots]; [done|]. cbn [head]. destruct (Z.eqb_spec (trie_root t) r) as [Er|]; [|done]. cbn.
  split; [|done]. split; unfold first_root; cbn; try done.
  - apply roots_from_tail in H3. by rewrite Z.sub_add, <- (Z.sub_0_r (block_number_next b)) in H3.
  - cbn in H4. lia.
  - intros _. cbn in H4. split; [lia|]. destruct (H3 0%nat r eq_refl) as (h & Hh & Hr). exists h. rewrite Z.add_0_r in Hh.
    split; [done|congruence].
Qed.

Lemma feed_block_inv next block b roots t : feed_inv next b roots t ->
  match feed_block block false (b, roots, t) with
  | Ok _ (b', roots', t') => feed_inv next b' roots' t' /\ genesis_state_validated b' = true /\
      block_number_next b' = block_number_next b + 1 /\ same_headers b b'
  | Err _ (b', roots', t') => feed_inv next b' roots' t' /\ t' = t /\ block_number_next b' = block_number_next b /\ same_headers b b' /\
      (genesis_state_validated b = true -> genesis_state_validated b' = true)
  | Panic => False
  end.
Proof.
  intros Hi. unfold feed_block, gets, ensure, mret, M_ret, mbind, M_bind. cbn [fst snd].
  destruct (Z.eqb_spec (h_number (bl_header block)) (block_number_next b)) as [Hn|]; [|done].
  pose proof (validate_genesis_inv next b roots t Hi) as Hg. destruct (validate_genesis (b, roots, t)) as [[] [[b1 roots1] t1]|e p|]; [|by subst p|done].
  destruct Hg as (Hi1 & Hv & -> & Hbn & Hs). unfold get_st, ok_or, mret, M_ret. cbn [fst snd].
  destruct roots1 as [|r roots1]; [done|]. cbn [head].
  destruct (calc_root_if_changes t (bl_changes block)) as [root tx] eqn:Ec. destruct (Z.eqb_spec r root) as [->|]; [|done].
  unfold mod_trie, mod_sync, pop_root, modify. cbn. destruct Hi1 as [H1 H2 H3 H4 H5]. unfold first_root in *. rewrite Hv in *.
  rewrite Z.sub_0_r in *. destruct (H3 0%nat root eq_refl) as (h & Hh & Hr). rewrite Z.add_0_r in Hh.
  destruct (lk_number _ Hat _ _ Hh) as [_ Hw]. rewrite wrap_add_small by lia. cbn in H4. destruct (H5 eq_refl) as [Hle _].
  split; [|split; [done|split; [lia|done]]]. split; unfold first_root; cbn; rewrite ?Hv; try lia.
  - apply roots_from_tail in H3. by rewrite Z.sub_0_r.
  - intros _. split; [lia|]. exists h. cbn. split; [rewrite <- Hh; f_equal; lia|done].
Qed.

(** With [drop_proofs], as safe mode 2 feeds blocks, the root of the state a
    runtime starts from is taken for that of the next block: after each block
    fed the storage has the state root of the block before it. A block that is
    refused because no root is there is counted all the same. *)
Theorem dropped_proofs_lag next block b roots t : feed_inv next b roots t -> genesis_state_validated b = false ->
  block_number_next b < 2 ^ 32 - 1 ->
  match feed_block block true (b, roots, t) with
  | Ok _ (b', roots', t') => block_number_next b' = h_number (bl_header block) + 1 /\ trie_at (h_number (bl_header block) - 1) t' /\
      feed_inv next b' roots' t' /\ genesis_state_validated b' = false
  | Err e (b', _, t') => t' = t /\ (e = NoStateRoot -> block_number_next b' = block_number_next b + 1)
  | Panic => False
  end.
Proof.
  intros [H1 H2 H3 H4 H5] Hv Hlt. unfold feed_block, gets, ensure, mod_sync, pop_root, mod_trie, modify, ok_or, mret, M_ret, mbind, M_bind. cbn.
  destruct (Z.eqb_spec (h_number (bl_header block)) (block_number_next b)) as [->|]; [|done]. cbn.
  rewrite wrap_add_small by lia. destruct roots as [|r roots]; [done|]. cbn. split; [done|]. unfold first_root in *. rewrite Hv in *.
  destruct (H3 0%nat r eq_refl) as (h & Hh & Hr). rewrite Z.add_0_r in Hh. split; [by exists h|]. split; [|done].
  cbn in H4. split; unfold first_root; cbn; rewrite ?Hv; try lia; try done.
  apply roots_from_tail in H3. by replace (block_number_next b + 1 - 1) with (block_number_next b - 1 + 1) by lia.
Qed.
End blocks.

(** ** Synchronizers *)

(** The parachain, whose last header the relay chain keeps under [heads_key];
    a storage proof shows what the relay chain's state holds. *)
Class ParaChain `{CL : !ChainLib} `{FI : !Finality} `{HC : !HeaderCodec} := {
  para_at : Z -> option Header;
  para_linked : linked para_at;
  heads_key : bytes;
  heads_sound : forall n h proof hd, block_at n = Some h ->
    trie_read (h_state_root h) proof heads_key = Some (Some (encode_head hd)) -> para_at (h_number hd) = Some hd;
}.

Section synchronizers.
Context `{CL : !ChainLib} `{FI : !Finality} `{HC : !HeaderCodec} `{PC : !ParaChain} {D : Type} `{TL : !TrieLib D}.
Implicit Types (s : Synchronizer LightValidation) (t : TrieStorage D).

Definition chain_of s : Z -> option Header := match s with Solo _ => block_at | Para _ => para_at end.
Definition next_root_of s : Z :=
  match s with Solo s => header_number_next (so_sync_state s) | Para p => para_header_number_next p end.
Definition relay_root_ok s : Prop :=
  match s with
  | Solo _ => True
  | Para p => forall r, last_relaychain_state_root p = Some r -> exists n h, block_at n = Some h /\ h_state_root h = r
  end.

Record sync_inv s t : Prop := {
  si_bridge : bridge_ok (sync_state_of s);
  si_feed : feed_inv (chain_of s) (next_root_of s) (feed_of s).1 (feed_of s).2 t;
  si_relay : relay_root_ok s;
  (** a parachain's headers are not skipped *)
  si_aligned : match s with Solo _ => True | Para p => first_root (pa_sync_state p) <= para_header_number_next p end;
}.

Lemma chain_of_linked s : linked (chain_of s).
Proof. destruct s; [apply chain_linked|apply para_linked]. Qed.

Lemma bridge_same b b' : same_headers (V := LightValidation) b b' -> bridge_ok b -> bridge_ok b'.
Proof. intros (E1 & E2 & _) [n Hb]. exists n. by rewrite E1, E2. Qed.

(** Roots that were accepted join the queue. *)
Lemma feed_inv_extend at_ (next : Z) (b b' : BlockSyncState LightValidation) roots l skip t : linked at_ -> feed_inv at_ next b roots t ->
  run_from at_ next l -> same_blocks b b' -> (skip <= first_root b) ->
  (next < first_root b -> skip = first_root b) ->
  feed_inv at_ (next + Z.of_nat (length l)) b' (roots ++ (h_state_root <$> drop (Z.to_nat (skip - next)) l)) t.
Proof.
  intros Hat [H1 H2 H3 H4 H5] Hr (_ & E1 & E2) Hs Hs'.
  assert (first_root b' = first_root b) as Ef by (unfold first_root; by rewrite E1, E2).
  split; rewrite ?E1, ?E2, ?Ef; [done|lia| | |].
  - apply roots_from_app; [done|]. rewrite H4. apply roots_from_run.
    destruct (decide (next < first_root b)) as [Hlt|Hge].
    + rewrite Hs' by done. replace (first_root b + Z.max 0 (next - first_root b)) with (next + Z.of_nat (Z.to_nat (first_root b - next))) by lia.
      by apply run_drop.
    + replace (Z.to_nat (skip - next)) with 0%nat by lia. rewrite drop_0.
      replace (first_root b + Z.max 0 (next - first_root b)) with next by lia. done.
  - rewrite length_app, length_fmap, length_drop. destruct (decide (next < first_root b)) as [Hlt|Hge]; [rewrite Hs' by done|]; lia.
  - intros Hv. destruct (H5 Hv) as [Hle Ht]. split; [lia|done].
Qed.

(** Nothing changes but headers and roots. *)
Definition only_headers s s' : Prop := same_blocks (sync_state_of s) (sync_state_of s') /\ chain_of s' = chain_of s.

Lemma ss_sync_header_inv headers s t : sync_inv s t ->
  match ss_sync_header headers s with
  | Ok _ s' => sync_inv s' t /\ only_headers s s'
  | Err _ s' => s' = s
  | Panic => True
  end.
Proof.
  intros [Hb Hf Hr Ha]. destruct s as [[b roots]|[b rr pn roots]]; unfold ss_sync_header, as_dyn.
  - cbn in *. unfold solo_sync_header, get_st, expect, mbind, M_bind, with_roots. cbn [so_sync_state so_state_roots].
    pose proof (fi_block _ _ _ _ _ Hf) as H1. unfold checked_sub. rewrite (proj2 (Z.leb_le _ _)) by lia. cbn.
    pose proof (sync_header_follows headers (block_number_next b - 1) b roots Hb) as Hs.
    destruct (sync_header _ _ _) as [n [b' roots']|e p|]; [|by subst p|done].
    destruct Hs as [[= -> ->]|(l & (_ & Hrun & Hn & Hb' & Hsame & ->) & _)]; [by split|]. split; [|done]. split; [done| |done|done]. cbn.
    rewrite Hn. eapply feed_inv_extend; [apply chain_linked|done..| |]; unfold first_root; [destruct (genesis_state_validated b); lia|].
    destruct (genesis_state_validated b) eqn:Ev; [|done]. destruct (fi_valid _ _ _ _ _ Hf Ev). lia.
  - cbn in *. unfold para_sync_header. cbn [pa_sync_state].
    pose proof (sync_header_follows headers 0 b [] Hb) as Hs. destruct (sync_header _ _ _) as [n [b' roots']|e p|]; [|by subst p|done].
    destruct Hs as [[= -> ->]|(l & (Hl & Hrun & Hn & Hb' & Hsame & ->) & _)]; [by split|]. split; [|done]. split; [done| | |]; cbn.
    + destruct Hsame as (_ & E1 & E2). destruct Hf as [F1 F2 F3 F4 F5]. unfold first_root in *.
      split; unfold first_root; rewrite ?E1, ?E2; done.
    + intros r. replace (Z.to_nat (0 - header_number_next b)) with 0%nat; [rewrite drop_0|].
      2: { destruct l as [|h l]; [done|]. pose proof (run_number block_at chain_linked _ _ 0 h Hrun eq_refl) as E.
           pose proof (Hrun 0%nat h eq_refl) as Hh. apply (lk_number _ chain_linked) in Hh as [_ Hh]. lia. }
      cbn [app]. rewrite last_map. destruct (last l) as [h|] eqn:El; [|by apply Hr]. intros [= <-].
      apply last_Some_elem_of in El as Hin. apply list_elem_of_lookup in Hin as [i Hi]. exists (header_number_next b + Z.of_nat i), h. split; [by apply Hrun|done].
    + destruct Hsame as (_ & E1 & E2). unfold first_root in *. by rewrite E1, E2.
Qed.

Lemma ss_sync_parachain_header_inv headers proof s t : sync_inv s t ->
  match ss_sync_parachain_header headers proof heads_key s with
  | Ok _ s' => sync_inv s' t /\ only_headers s s'
  | Err _ s' => s' = s
  | Panic => False
  end.
Proof.
  intros [Hb Hf Hr Ha]. destruct s as [[b roots]|[b rr pn roots]]; unfold ss_sync_parachain_header, as_dyn; [done|].
  cbn in *. unfold para_sync_parachain_header, get_st, mbind, M_bind. cbn [para_header_number_next].
  generalize (filter (fun h => pn <= h_number h) headers). clear headers. intros hs.
  destruct hs as [|first hs'] eqn:E; [by split|]. rewrite <- E. destruct (last hs) as [hl|] eqn:El; [|by split].
  unfold ensure, ok_or, modify, mret, M_ret. destruct (Z.eqb_spec pn (h_number first)) as [Hn|]; [|done]. cbn [last_relaychain_state_root].
  destruct rr as [r|]; [|done]. unfold validate_storage_proof, light_validator, map_err, lv_validate_storage_proof. cbn [for_each].
  unfold validate_item, read_value, ok_or, ensure, mret, M_ret, mbind, M_bind. cbn [fst snd].
  destruct (trie_read r proof heads_key) as [v|] eqn:Et; [|done]. destruct v as [v|]; [|done].
  destruct (bool_decide (v = encode_head hl)) eqn:Ev; [|done]. apply bool_decide_eq_true in Ev as ->.
  destruct (chained hs) eqn:Hc; [|done]. destruct (Hr r eq_refl) as (n & h & Hh & <-).
  pose proof (heads_sound n h proof hl Hh Et) as Hhl.
  destruct (chained_run para_at para_linked _ hl Hc El Hhl) as (h0 & Eh & Hlast & Hrun). rewrite E in Eh. injection Eh as <-.
  destruct (lk_number _ para_linked _ _ Hhl) as [_ Hw]. cbn. rewrite wrap_add_small by lia. split; [|done]. split; [done| |done|cbn; lia]. cbn.
  rewrite <- Hn in *. replace (h_number hl + 1) with (pn + Z.of_nat (length hs)) by lia.
  pose proof (fi_next _ _ _ _ _ Hf) as H0.
  replace (h_state_root <$> hs) with (h_state_root <$> drop (Z.to_nat (first_root b - pn)) hs)
    by (replace (Z.to_nat _) with 0%nat by lia; done).
  eapply feed_inv_extend; [apply para_linked|done..|lia|lia].
Qed.
Definition block_next s : Z := block_number_next (sync_state_of s).
Definition relay_root s : option H256 := match s with Solo _ => None | Para p => last_relaychain_state_root p end.
(** Nothing changes but the blocks. *)
Definition only_blocks s s' : Prop :=
  chain_of s' = chain_of s /\ next_root_of s' = next_root_of s /\ relay_root s' = relay_root s.

Lemma ss_feed_block_inv block s t : sync_inv s t ->
  match ss_feed_block block false (s, t) with
  | Ok _ (s', t') => sync_inv s' t' /\ state_validated s' = true /\ block_next s' = block_next s + 1 /\ only_blocks s s'
  | Err _ (s', t') => sync_inv s' t' /\ t' = t /\ block_next s' = block_next s /\ only_blocks s s'
  | Panic => False
  end.
Proof.
  intros [Hb Hf Hr Ha]. unfold ss_feed_block. cbn [fst snd].
  assert (forall b' roots' t', feed_inv (chain_of s) (next_root_of s) b' roots' t' -> same_headers (sync_state_of s) b' ->
    genesis_state_validated b' = true \/ first_root b' = first_root (sync_state_of s) -> sync_inv (put_feed (b', roots') s) t') as Hput.
  { intros b' roots' t' Hf' Hs Hv. pose proof (bridge_same _ _ Hs Hb) as Hb'. destruct s as [[b roots]|[b rr pn roots]]; cbn in *.
    - destruct Hs as (_ & _ & E). rewrite <- E in Hf'. by split.
    - split; try done. cbn. destruct Hv as [Hv| ->]; [|done]. destruct (fi_valid _ _ _ _ _ Hf' Hv). unfold first_root. rewrite Hv. lia. }
  assert (forall b' roots', same_headers (sync_state_of s) b' -> only_blocks s (put_feed (b', roots') s)) as Hsame.
  { intros b' roots' (_ & _ & E). destruct s; [|done]. by split; [|split]. }
  pose proof (feed_block_inv (chain_of s) (chain_of_linked s) (next_root_of s) block _ _ t Hf) as H.
  assert ((feed_of s).1 = sync_state_of s) as E1 by (by destruct s). rewrite <- surjective_pairing in H.
  destruct (feed_block block false (feed_of s, t)) as [[] [[b' roots'] t']|e [[b' roots'] t']|]; [| |done]; cbn [fst snd].
  - destruct H as (Hf' & Hv & Hn & Hs). rewrite E1 in *. split; [apply Hput; auto|].
    assert (sync_state_of (put_feed (b', roots') s) = b') as E by (by destruct s). unfold block_next, state_validated.
    rewrite E, Hv, Hn. auto.
  - destruct H as (Hf' & -> & Hn & Hs & Hm). rewrite E1 in *. split.
    + apply Hput; [done..|]. destruct (genesis_state_validated b') eqn:Ev; [by left|]. right. unfold first_root. rewrite Hn, Ev.
      destruct (genesis_state_validated (sync_state_of s)) eqn:Ev'; [|done]. by specialize (Hm eq_refl).
    + assert (sync_state_of (put_feed (b', roots') s) = b') as E by (by destruct s). unfold block_next. rewrite E, Hn. auto.
Qed.

Lemma assume_at_block_inv n s t t' : sync_inv s t -> next_root_of s = 0 -> 0 <= n < 2 ^ 32 - 1 ->
  match assume_at_block n s with
  | Ok _ s' => sync_inv s' t' /\ block_next s' = n + 1 /\ state_validated s' = false /\ chain_of s' = chain_of s
  | Err _ s' => s' = s
  | Panic => False
  end.
Proof.
  intros [Hb Hf Hr Ha] H0 Hn. pose proof (fi_block _ _ _ _ _ Hf) as H1. pose proof (fi_valid _ _ _ _ _ Hf) as H2.
  pose proof (fi_length _ _ _ _ _ Hf) as H4. unfold first_root in H4.
  destruct s as [[b roots]|[b rr pn roots]]; unfold assume_at_block, as_dyn, solo_assume_at_block, para_assume_at_block, get_st, ensure,
    modify, mret, M_ret, mbind, M_bind; cbn in *; rewrite H0 in *.
  all: destruct (negb _) eqn:Eg; [|done]; apply negb_true_iff, orb_false_iff in Eg as [Eg _]; apply Z.ltb_ge in Eg.
  all: destruct (genesis_state_validated b) eqn:Ev; [destruct (H2 eq_refl); lia|].
  all: destruct roots; cbn in H4; [|lia]; rewrite wrap_add_small by lia; unfold block_next, state_validated; cbn.
  - split; [|done]. split; cbn; [done| |done|done]. rewrite H0. unfold first_root in *.
    split; unfold first_root; cbn; rewrite ?Ev; try done; try lia.
  - split; [|done]. split; cbn; [done| |done|unfold first_root; cbn; rewrite Ev; lia].
    split; unfold first_root; cbn; rewrite ?Ev; try done; try lia.
Qed.
End synchronizers.
