(* ===== verification/Phactory.v ===== *)
(** * The RPC service of pRuntime: following the chain (crates/phactory/src/prpc_service.rs)

    The calls that feed headers, blocks and chain states to the runtime, on the
    synchronizer and the storage, and when the runtime may be attested. A block
    whose storage is in place is processed: acknowledged messages are purged and
    the messages of the block dispatched to the system. What is read from the
    storage by running the chain's runtime, the platform and the system's own
    handlers are the classes [ChainStorageLib], [PlatformLib] and [SystemOps]. *)

From S2P Require Import Prelude MqTypes SendQueue Storage Dispatcher LightClient StorageSync.

Inductive RpcError :=
  | RuntimeNotInitialized
  | SyncFailed (e : SyncError)
  | GenesisRootMismatch
  | CanNotLoadChainState
  | LoadFromBlock0
  | DifferentParachain
  | WorkerAlreadyRegistered.

Class ChainStorageLib (D : Type) := {
  (** [ChainStorage::from_pairs] and the storage items read through the runtime (phactory/src/storage.rs) *)
  from_pairs : list (bytes * bytes) -> TrieStorage D;
  storage_para_id : TrieStorage D -> Z;
  storage_worker_registered : TrieStorage D -> WorkerPublicKey -> bool;
  storage_mq_messages : TrieStorage D -> list Message;
  storage_timestamp : TrieStorage D -> Z;
  storage_ingress : TrieStorage D -> MessageOrigin -> option Z;
  storage_minimum_version : TrieStorage D -> Z * Z * Z;
  storage_consensus_version : TrieStorage D -> Z;
  storage_allow_list : TrieStorage D -> list bytes;
  twox_64 : bytes -> bytes;
  encode_para_id : Z -> bytes;
}.

Class PlatformLib := { app_version : Z * Z * Z; measurement : option bytes }.

Record ClusterState (C : Type) := mkClusterState {
  cs_block_number : Z;
  cs_pending_messages : list (MessageOrigin * SendQueue.Channel);
  cs_cluster : C;
}.
Arguments mkClusterState {C}.
Arguments cs_block_number {C} c.
Arguments cs_pending_messages {C} c.
Arguments cs_cluster {C} c.

(** The system ([None] is a panic), with the queues its handlers use *)
Class SystemOps (R D C : Type) := {
  registered : R -> bool;
  identity_pubkey : R -> WorkerPublicKey;
  put_genesis_block : Z -> R -> R;
  has_gatekeeper : R -> bool;
  has_cluster : R -> bool;
  system_block_number : R -> Z;
  install_cluster : C -> R -> R;
  block_begins : Z -> Z -> TrieStorage D -> R * MessageSendQueue * MessageDispatcher -> option (R * MessageSendQueue * MessageDispatcher);
  block_messages : Z -> Z -> TrieStorage D -> R * MessageSendQueue * MessageDispatcher -> option (R * MessageSendQueue * MessageDispatcher);
  block_ends : Z -> Z -> TrieStorage D -> R * MessageSendQueue * MessageDispatcher -> option (R * MessageSendQueue * MessageDispatcher);
}.

(** The fields of [RuntimeState] but [genesis_block_hash] *)
Record RuntimeState (D : Type) := mkRuntime {
  send_mq : MessageSendQueue;
  recv_mq : MessageDispatcher;
  storage_synchronizer : Synchronizer LightValidation;
  chain_storage : TrieStorage D;
  rt_para_id : Z;
}.
Arguments mkRuntime {D}.
Arguments send_mq {D} r.
Arguments recv_mq {D} r.
Arguments storage_synchronizer {D} r.
Arguments chain_storage {D} r.
Arguments rt_para_id {D} r.

Record Phactory (R D C : Type) := mkPhactory {
  can_load_chain_state : bool;
  safe_mode_level : Z;
  trusted_sk : bool;
  attestation_provider : option AttestationProvider;
  cluster_state_to_apply : option (ClusterState C);
  runtime_state : option (RuntimeState D);
  system : option R;
}.
Arguments mkPhactory {R D C}.
Arguments can_load_chain_state {R D C} p.
Arguments safe_mode_level {R D C} p.
Arguments trusted_sk {R D C} p.
Arguments attestation_provider {R D C} p.
Arguments cluster_state_to_apply {R D C} p.
Arguments runtime_state {R D C} p.
Arguments system {R D C} p.

Definition MAX_SUPPORTED_CONSENSUS_VERSION : Z := 0.

(** ** Processing a block *)

(** What processing a block changes: the system, the queues, the pending cluster state *)
Record Work (R C : Type) := mkWork {
  wk_system : R;
  wk_send_mq : MessageSendQueue;
  wk_recv_mq : MessageDispatcher;
  wk_cluster_state : option (ClusterState C);
}.
Arguments mkWork {R C}.
Arguments wk_system {R C} w.
Arguments wk_send_mq {R C} w.
Arguments wk_recv_mq {R C} w.
Arguments wk_cluster_state {R C} w.

Section work.
Context {R D C : Type} `{CS : !ChainStorageLib D} `{PL : !PlatformLib} `{SO : !SystemOps R D C}.

Definition mq_sequence (t : TrieStorage D) (sender : MessageOrigin) : Z := default 0 (storage_ingress t sender).

Definition purge_mq (t : TrieStorage D) (q : MessageSendQueue) : MessageSendQueue := purge q (mq_sequence t).

Definition is_pruntime_in_whitelist (t : TrieStorage D) (measurement : bytes) : bool :=
  existsb (fun hash => bool_decide (take (length measurement) hash = measurement)) (storage_allow_list t).

Definition version_lt (a b : Z * Z * Z) : bool :=
  let '(a1, a2, a3) := a in
  let '(b1, b2, b3) := b in
  (a1 <? b1) || ((a1 =? b1) && ((a2 <? b2) || ((a2 =? b2) && (a3 <? b3)))).

(** [false]: the process aborts *)
Definition check_requirements (t : TrieStorage D) : bool :=
  let measurement := default (replicate 32 0) measurement in
  let in_whitelist := is_pruntime_in_whitelist t measurement in
  negb (version_lt app_version (storage_minimum_version t) && negb in_whitelist) &&
  (storage_consensus_version t <=? MAX_SUPPORTED_CONSENSUS_VERSION).

Definition dispatch_message_to (n now_ms : Z) (t : TrieStorage D) (w : option (R * MessageSendQueue * MessageDispatcher)) (message : Message) :
    option (R * MessageSendQueue * MessageDispatcher) :=
  '(sys, q, d) ← w;
  block_messages n now_ms t (sys, q, (dispatch message d).2).

Definition handle_inbound_messages (block_number : Z) (t : TrieStorage D) (w : R * MessageSendQueue * MessageDispatcher) :
    option (R * MessageSendQueue * MessageDispatcher) :=
  let messages := storage_mq_messages t in
  let '(sys, q, d) := w in
  let now_ms := storage_timestamp t in
  let begun := block_begins block_number now_ms t (sys, q, reset_local_index d) in
  '(sys, q, d) ← foldl (dispatch_message_to block_number now_ms t) begun messages ≫= block_ends block_number now_ms t;
  Some (sys, q, (dispatcher_clear d).2).

Definition maybe_apply_cluster_state (w : Work R C) : Work R C :=
  match wk_cluster_state w with
  | None => w
  | Some cluster_state =>
      let dropped := mkWork (wk_system w) (wk_send_mq w) (wk_recv_mq w) None in
      if has_gatekeeper (wk_system w) then dropped
      else if has_cluster (wk_system w) then dropped
      else if negb (cs_block_number cluster_state =? system_block_number (wk_system w)) then w
      else
        mkWork (install_cluster (cs_cluster cluster_state) (wk_system w))
          (foldl (fun q p => load_state q p.1 p.2) (wk_send_mq w) (cs_pending_messages cluster_state)) (wk_recv_mq w) None
  end.

(** [dispatch_blocks], from [State synced] to the checkpoint *)
Definition process_block (block_number : Z) (t : TrieStorage D) (w : Work R C) : option (Work R C) :=
  let q := purge_mq t (wk_send_mq w) in
  if check_requirements t then
    '(sys, q, d) ← handle_inbound_messages block_number t (wk_system w, q, wk_recv_mq w);
    Some (maybe_apply_cluster_state (mkWork sys q d (wk_cluster_state w)))
  else None.
End work.

Section phactory.
Context {R D C : Type} `{CL : !ChainLib} `{HC : !HeaderCodec} `{TL : !TrieLib D} `{CS : !ChainStorageLib D} `{PL : !PlatformLib}
  `{SO : !SystemOps R D C}.
Implicit Types p : Phactory R D C.
Abbreviation Rpc := (M (Phactory R D C) RpcError).

Definition put_can_load (v : bool) p : Phactory R D C :=
  mkPhactory v (safe_mode_level p) (trusted_sk p) (attestation_provider p) (cluster_state_to_apply p) (runtime_state p) (system p).
Definition put_runtime (v : option (RuntimeState D)) p : Phactory R D C :=
  mkPhactory (can_load_chain_state p) (safe_mode_level p) (trusted_sk p) (attestation_provider p) (cluster_state_to_apply p) v (system p).
Definition put_system (v : option R) p : Phactory R D C :=
  mkPhactory (can_load_chain_state p) (safe_mode_level p) (trusted_sk p) (attestation_provider p) (cluster_state_to_apply p) (runtime_state p) v.

Definition put_work (rt : RuntimeState D) (w : Work R C) p : Phactory R D C :=
  mkPhactory (can_load_chain_state p) (safe_mode_level p) (trusted_sk p) (attestation_provider p) (wk_cluster_state w)
    (Some (mkRuntime (wk_send_mq w) (wk_recv_mq w) (storage_synchronizer rt) (chain_storage rt) (rt_para_id rt))) (Some (wk_system w)).

(** [self.runtime_state()?] and a call of its synchronizer, with the storage *)
Definition on_storage {A} (m : M (Synchronizer LightValidation * TrieStorage D) SyncError A) : Rpc A := fun p =>
  match runtime_state p with
  | None => Err RuntimeNotInitialized p
  | Some rt =>
      match m (storage_synchronizer rt, chain_storage rt) with
      | Ok a (s, t) => Ok a (put_runtime (Some (mkRuntime (send_mq rt) (recv_mq rt) s t (rt_para_id rt))) p)
      | Err e (s, t) => Err (SyncFailed e) (put_runtime (Some (mkRuntime (send_mq rt) (recv_mq rt) s t (rt_para_id rt))) p)
      | Panic => Panic
      end
  end.
Definition on_synchronizer {A} (m : M (Synchronizer LightValidation) SyncError A) : Rpc A :=
  on_storage (fun st => match m st.1 with Ok a s => Ok a (s, st.2) | Err e s => Err e (s, st.2) | Panic => Panic end).

Definition get_runtime : Rpc (RuntimeState D) :=
  p ← get_st;
  ok_or (runtime_state p) RuntimeNotInitialized.

Definition storage_map_prefix_twox_64_concat (module storage_item encoded : bytes) : bytes :=
  twox_128 module ++ twox_128 storage_item ++ twox_64 encoded ++ encoded.

Definition heads_key_of (para_id : Z) : bytes :=
  storage_map_prefix_twox_64_concat (bs "Paras") (bs "Heads") (encode_para_id para_id).

Definition rpc_sync_header (headers : list HeaderToSync) : Rpc Z :=
  modify (put_can_load false);;
  on_synchronizer (ss_sync_header headers).

Definition rpc_sync_para_header (headers : list Header) (proof : StorageProof) : Rpc Z :=
  rt ← get_runtime;
  on_synchronizer (ss_sync_parachain_header headers proof (heads_key_of (rt_para_id rt))).

Definition sync_combined_headers (relaychain_headers : list HeaderToSync) (parachain_headers : list Header) (proof : StorageProof) :
    Rpc (Z * Z) :=
  relaychain_synced_to ← rpc_sync_header relaychain_headers;
  parachain_synced_to ←
    match parachain_headers with
    | [] => rt ← get_runtime; mret (next_para_header_number (counters (storage_synchronizer rt)) -[32] 1)
    | _ => rpc_sync_para_header parachain_headers proof
    end;
  mret (relaychain_synced_to, parachain_synced_to).

(** The body of the loop of [dispatch_blocks] *)
Definition dispatch_one (block : BlockHeaderWithChanges) : Rpc unit :=
  level ← gets safe_mode_level;
  on_storage (ss_feed_block block (1 <? level));;
  if 0 <? level then mret tt
  else
    rt ← get_runtime;
    p ← get_st;
    sys ← ok_or (system p) RuntimeNotInitialized;
    w ← expect (process_block (h_number (bl_header block)) (chain_storage rt)
      (mkWork sys (send_mq rt) (recv_mq rt) (cluster_state_to_apply p)));
    modify (put_work rt w).

Definition dispatch_blocks (blocks : list BlockHeaderWithChanges) : Rpc Z :=
  rt ← get_runtime;
  let next := next_block_number (counters (storage_synchronizer rt)) in
  let blocks := filter (fun b => next <= h_number (bl_header b)) blocks in
  let last_block := match last blocks with Some b => h_number (bl_header b) | None => next -[32] 1 end in
  for_each blocks dispatch_one;;
  mret last_block.

Definition load_chain_state (block : Z) (storage : list (bytes * bytes)) : Rpc unit :=
  p ← get_st;
  ensure (can_load_chain_state p) CanNotLoadChainState;;
  ensure (negb (block =? 0)) LoadFromBlock0;;
  sys ← ok_or (system p) RuntimeNotInitialized;
  state ← ok_or (runtime_state p) RuntimeNotInitialized;
  let chain_storage := from_pairs storage in
  ensure (storage_para_id chain_storage =? rt_para_id state) DifferentParachain;;
  ensure (negb (storage_worker_registered chain_storage (identity_pubkey sys))) WorkerAlreadyRegistered;;
  on_synchronizer (assume_at_block block);;
  rt ← get_runtime;
  modify (put_runtime (Some (mkRuntime (send_mq rt) (recv_mq rt) (storage_synchronizer rt) chain_storage (rt_para_id rt))));;
  modify (put_system (Some (put_genesis_block block sys)));;
  modify (put_can_load false).

Definition allow_attestation p : bool :=
  match system p, runtime_state p with
  | Some sys, Some rt =>
      let validated_identity_key := trusted_sk p || registered sys in
      let validated_state := state_validated (storage_synchronizer rt) in
      validated_state && (validated_identity_key || bool_decide (attestation_provider p = None))
  | _, _ => false
  end.

(** ** [init_runtime]: the light client, the synchronizer and the storage *)
Definition init_runtime_state (is_parachain : bool) (genesis_header : Header) (authority_set : AuthoritySet) (proof : StorageProof)
    (genesis_state : list (bytes * bytes)) : Rpc (RuntimeState D) :=
  let chain_storage := from_pairs genesis_state in
  let para_id := storage_para_id chain_storage in
  let next_headernum := h_number genesis_header +[32] 1 in
  match initialize_bridge genesis_header authority_set proof light_new with
  | Ok main_bridge light_client =>
      let storage_synchronizer :=
        if is_parachain then new_parachain light_client main_bridge next_headernum else new_solochain light_client main_bridge in
      ensure (is_parachain || (trie_root chain_storage =? h_state_root genesis_header)) GenesisRootMismatch;;
      mret (mkRuntime queue_new dispatcher_new storage_synchronizer chain_storage para_id)
  | _ => panic
  end.
End phactory.
