(* ===== verification/PhactoryClaims.v ===== *)
(** * The runtime works on the storage of the chain

    Histories of calls of the RPC service, whoever makes them: the storage is
    that of the last block dispatched, as far as the light client can tell, and
    the system has processed the blocks of the chain one after the other. *)

From S2P Require Import Prelude MqTypes SendQueue Storage Dispatcher LightClient StorageSync SyncFollow Phactory.

Section rpc.
Context {R D C : Type} `{CL : !ChainLib} `{FI : !Finality} `{HC : !HeaderCodec} `{PC : !ParaChain} `{TL : !TrieLib D}
  `{CS : !ChainStorageLib D} `{PL : !PlatformLib} `{SO : !SystemOps R D C}.
Implicit Types (p : Phactory R D C) (rt : RuntimeState D) (w : Work R C).

Inductive rpc_op :=
  | RpcSyncHeader (headers : list HeaderToSync)
  | RpcSyncPara (headers : list Header) (proof : StorageProof)
  | RpcCombined (relay : list HeaderToSync) (para : list Header) (proof : StorageProof)
  | RpcDispatch (blocks : list BlockHeaderWithChanges)
  | RpcLoad (block : Z) (storage : list (bytes * bytes)).

Definition rpc_exec (op : rpc_op) : M (Phactory R D C) RpcError unit :=
  match op with
  | RpcSyncHeader headers => rpc_sync_header headers;; mret tt
  | RpcSyncPara headers proof => rpc_sync_para_header headers proof;; mret tt
  | RpcCombined relay para proof => sync_combined_headers relay para proof;; mret tt
  | RpcDispatch blocks => dispatch_blocks blocks;; mret tt
  | RpcLoad block storage => load_chain_state block storage
  end.

(** Block numbers are [u32]; no state is loaded at the last of them. *)
Definition rpc_op_ok (op : rpc_op) : Prop :=
  match op with RpcLoad block _ => 0 <= block < 2 ^ 32 - 1 | _ => True end.

(** A call that fails leaves what it did so far. *)
Inductive rpc_step p p' : Prop :=
  | rpc_ok op : rpc_op_ok op -> rpc_exec op p = Ok tt p' -> rpc_step p p'
  | rpc_err op e : rpc_op_ok op -> rpc_exec op p = Err e p' -> rpc_step p p'.

(** What comes from [w0] by processing the blocks of a chain, from the first or
    from that of the state loaded on, up to block [n] *)
Inductive processed (at_ : Z -> option Header) (w0 : Work R C) : Z -> Work R C -> Prop :=
  | pr_start : processed at_ w0 0 w0
  | pr_load b : processed at_ w0 b (mkWork (put_genesis_block b (wk_system w0)) (wk_send_mq w0) (wk_recv_mq w0) (wk_cluster_state w0))
  | pr_block n (t : TrieStorage D) w w' : processed at_ w0 n w -> trie_at at_ (n + 1) t -> process_block (n + 1) t w = Some w' ->
      processed at_ w0 (n + 1) w'.

(** The system, the queues and the cluster state of a runtime *)
Definition work_of p rt (sys : R) : Work R C := mkWork sys (send_mq rt) (recv_mq rt) (cluster_state_to_apply p).

Record rpc_inv (at_ : Z -> option Header) (w0 : Work R C) p rt (r : R) : Prop := {
  ri_runtime : runtime_state p = Some rt;
  ri_system : system p = Some r;
  ri_level : 0 <= safe_mode_level p <= 1;
  ri_key : heads_key_of (rt_para_id rt) = heads_key;
  ri_sync : sync_inv (storage_synchronizer rt) (chain_storage rt);
  ri_chain : chain_of (storage_synchronizer rt) = at_;
  ri_processed : safe_mode_level p = 0 -> processed at_ w0 (block_next (storage_synchronizer rt) - 1) (work_of p rt r);
  ri_load : can_load_chain_state p = true -> work_of p rt r = w0 /\ next_root_of (storage_synchronizer rt) = 0 /\ relay_root (storage_synchronizer rt) = None;
}.
Definition follows (at_ : Z -> option Header) (w0 : Work R C) p : Prop := exists rt r, rpc_inv at_ w0 p rt r.

Context (at_ : Z -> option Header) (w0 : Work R C).

(** [m] keeps the invariant. *)
Abbreviation safe m := (forall p, follows at_ w0 p -> match m p with Ok _ p' | Err _ p' => follows at_ w0 p' | Panic => True end).

Lemma safe_bind {A B} (m : M (Phactory R D C) RpcError A) (f : A -> M (Phactory R D C) RpcError B) :
  safe m -> (forall a, safe (f a)) -> safe (m ≫= f).
Proof.
  intros Hm Hf p Hp. specialize (Hm p Hp). unfold mbind, M_bind. destruct (m p) as [a p'|e p'|]; [|done|done]. by apply Hf.
Qed.
Lemma safe_ret {A} (a : A) : safe (mret (M := M (Phactory R D C) RpcError) a).
Proof. by intros p Hp. Qed.

Lemma safe_sync_header headers : safe (rpc_sync_header headers).
Proof.
  intros p (rt & r & [H1 H2 H3 H4 H5 H6 H7 H8]). unfold rpc_sync_header, modify, on_synchronizer, on_storage, mbind, M_bind. cbn.
  rewrite H1. pose proof (ss_sync_header_inv headers _ _ H5) as Hs.
  destruct (ss_sync_header headers (storage_synchronizer rt)) as [n s|e s|]; [| |done].
  - destruct Hs as [Hi [(_ & E1 & E2) Hc]]. exists (mkRuntime (send_mq rt) (recv_mq rt) s (chain_storage rt) (rt_para_id rt)), r. split; cbn; try done; [congruence|].
    unfold block_next. by rewrite E1.
  - subst s. exists (mkRuntime (send_mq rt) (recv_mq rt) (storage_synchronizer rt) (chain_storage rt) (rt_para_id rt)), r. by split; cbn.
Qed.

Lemma safe_sync_para headers proof : safe (rpc_sync_para_header headers proof).
Proof.
  intros p (rt & r & [H1 H2 H3 H4 H5 H6 H7 H8]). unfold rpc_sync_para_header, get_runtime, get_st, on_synchronizer, on_storage, mbind, M_bind.
  rewrite H1. cbn. unfold mret, M_ret. rewrite H1, H4. pose proof (ss_sync_parachain_header_inv headers proof _ _ H5) as Hs.
  destruct (ss_sync_parachain_header headers proof heads_key (storage_synchronizer rt)) as [n s|e s|] eqn:E; [| |done].
  - destruct Hs as [Hi [(_ & E1 & E2) Hc]]. exists (mkRuntime (send_mq rt) (recv_mq rt) s (chain_storage rt) (rt_para_id rt)), r. split; cbn; try done; [congruence|unfold block_next; by rewrite E1|].
    intros Hl. destruct (H8 Hl) as (Hw & Hn & Hrr). split; [done|].
    destruct (storage_synchronizer rt) as [[b roots]|[b rr pn roots]]; [done|]. cbn in *. subst rr pn. revert E.
    unfold ss_sync_parachain_header, as_dyn, para_sync_parachain_header, get_st, mbind, M_bind. cbn [para_header_number_next].
    generalize (filter (fun h => 0 <= h_number h) headers). intros hs. destruct hs as [|first hs'] eqn:Eh; [by intros [= _ <-]|].
    rewrite <- Eh. destruct (last hs); [|by intros [= _ <-]]. unfold ensure. by destruct (0 =? h_number first).
  - subst s. exists (mkRuntime (send_mq rt) (recv_mq rt) (storage_synchronizer rt) (chain_storage rt) (rt_para_id rt)), r. by split; cbn.
Qed.

Lemma safe_get_runtime : safe get_runtime.
Proof. intros p Hp. unfold get_runtime, get_st, ok_or, mbind, M_bind. by destruct (runtime_state p). Qed.

Lemma safe_combined relay para proof : safe (sync_combined_headers relay para proof).
Proof.
  apply safe_bind; [apply safe_sync_header|]. intros n. apply safe_bind; [|intros n'; apply safe_ret].
  destruct para; [|apply safe_sync_para]. apply safe_bind; [apply safe_get_runtime|]. intros rt. apply safe_ret.
Qed.

Lemma safe_dispatch_one block : safe (dispatch_one block).
Proof.
  intros p (rt & r & [H1 H2 H3 H4 H5 H6 H7 H8]). unfold dispatch_one, gets, on_storage, mbind, M_bind. rewrite H1.
  rewrite (proj2 (Z.ltb_ge 1 _)) by lia.
  pose proof (ss_feed_block_inv block _ _ H5) as Hs.
  destruct (ss_feed_block block false (storage_synchronizer rt, chain_storage rt)) as [[] [s t]|e [s t]|] eqn:Ef; [| |done].
  - destruct Hs as (Hi & Hv & Hn & Hc & Hz1 & Hz2). assert (trie_at at_ (block_next s - 1) t) as Ht.
    { pose proof (si_feed _ _ Hi) as Hf. rewrite Hc, H6 in Hf. unfold state_validated, block_next in *.
      replace (feed_of s).1 with (sync_state_of s) in Hf by (by destruct s). by destruct (fi_valid _ _ _ _ _ Hf Hv). }
    assert (h_number (bl_header block) = block_next (storage_synchronizer rt)) as Eb.
    { revert Ef. unfold ss_feed_block, feed_block, gets, ensure, mbind, M_bind. cbn [fst snd]. unfold block_next.
      replace (sync_state_of (storage_synchronizer rt)) with (feed_of (storage_synchronizer rt)).1 by (by destruct (storage_synchronizer rt)).
      by destruct (Z.eqb_spec (h_number (bl_header block)) (block_number_next (feed_of (storage_synchronizer rt)).1)). }
    assert (can_load_chain_state p = false) as Hl.
    { destruct (can_load_chain_state p); [|done]. destruct (H8 eq_refl) as (_ & Hz & _). exfalso.
      pose proof (fi_valid _ _ _ _ _ (si_feed _ _ Hi)) as Hz'. unfold state_validated, block_next in *.
      replace (feed_of s).1 with (sync_state_of s) in Hz' by (by destruct s). destruct (Hz' Hv) as [Hle _].
      pose proof (fi_block _ _ _ _ _ (si_feed _ _ Hi)) as Hb.
      replace (feed_of s).1 with (sync_state_of s) in Hb by (by destruct s). lia. }
    assert (safe_mode_level p = 0 -> processed at_ w0 (h_number (bl_header block) - 1) (work_of p rt r)) as Hpr by (by rewrite Eb).
    assert (block_next s - 1 = h_number (bl_header block)) as Ebn by lia. clear Ef.
    destruct (Z.ltb_spec 0 (safe_mode_level p)) as [Hlv|Hlv].
    { exists (mkRuntime (send_mq rt) (recv_mq rt) s t (rt_para_id rt)), r. split; cbn; try done; [congruence|lia|by rewrite Hl]. }
    unfold get_runtime, get_st, ok_or, expect, modify, mret, M_ret, mbind, M_bind. cbn. rewrite H2. cbn.
    fold (work_of p rt r). destruct (process_block (h_number (bl_header block)) t (work_of p rt r)) as [[r' q' d' c']|] eqn:Ep; [|done]. cbn.
    exists (mkRuntime q' d' s t (rt_para_id rt)), r'. split; cbn; try done; [congruence| |by rewrite Hl].
    intros _. rewrite Ebn. rewrite <- (Z.sub_add 1 (h_number (bl_header block))) in Ep |- *.
    eapply pr_block; [apply Hpr; lia| |exact Ep]. by rewrite Z.sub_add, <- Ebn.
  - destruct Hs as (Hi & -> & Hn & Hc & Hz1 & Hz2). exists (mkRuntime (send_mq rt) (recv_mq rt) s (chain_storage rt) (rt_para_id rt)), r. split; cbn; try done; [congruence|by rewrite Hn|].
    intros Hl. rewrite Hz1, Hz2. by apply H8.
Qed.

Lemma safe_dispatch blocks : safe (dispatch_blocks blocks).
Proof.
  apply safe_bind; [apply safe_get_runtime|]. intros rt. cbn zeta. apply safe_bind; [|intros _; apply safe_ret].
  induction (filter _ blocks) as [|b l IH]; [apply safe_ret|]. apply safe_bind; [apply safe_dispatch_one|]. intros _. exact IH.
Qed.

Lemma safe_load block storage : 0 <= block < 2 ^ 32 - 1 -> safe (load_chain_state block storage).
Proof.
  intros Hb p Hp. pose proof Hp as (rt & r & [H1 H2 H3 H4 H5 H6 H7 H8]).
  unfold load_chain_state, get_st, ensure, ok_or, mret, M_ret, mbind, M_bind.
  destruct (can_load_chain_state p) eqn:Hl; [|done]. destruct (H8 eq_refl) as (Hw & Hn & Hrr).
  destruct (negb (block =? 0)); [|done]. rewrite H2, H1. destruct (_ =? rt_para_id rt); [|done]. destruct (negb (storage_worker_registered _ _)); [|done].
  unfold on_synchronizer, on_storage. rewrite H1. cbn.
  pose proof (assume_at_block_inv block _ (chain_storage rt) (from_pairs storage) H5 Hn Hb) as Ha.
  destruct (assume_at_block block (storage_synchronizer rt)) as [[] s|e s|]; [| |done].
  - destruct Ha as (Hi & Hbn & _ & Hc). cbn.
    exists (mkRuntime (send_mq rt) (recv_mq rt) s (from_pairs storage) (rt_para_id rt)), (put_genesis_block block r). split; cbn; try done; [congruence|].
    intros _. rewrite Hbn. replace (block + 1 - 1) with block by lia. rewrite <- Hw. apply (pr_load _ (work_of p rt r)).
  - subst s. exists (mkRuntime (send_mq rt) (recv_mq rt) (storage_synchronizer rt) (chain_storage rt) (rt_para_id rt)), r. by split; cbn.
Qed.

Lemma rpc_step_follows p p' : follows at_ w0 p -> rpc_step p p' -> follows at_ w0 p'.
Proof.
  intros Hp Hs. assert (forall op, rpc_op_ok op -> safe (rpc_exec op)) as Hsafe.
  { intros op Hop. destruct op; cbn [rpc_exec].
    1-4: (apply safe_bind; [|intros _; apply safe_ret]).
    - apply safe_sync_header.
    - apply safe_sync_para.
    - apply safe_combined.
    - apply safe_dispatch.
    - by apply safe_load. }
  destruct Hs as [op Hop H|op e Hop H]; specialize (Hsafe op Hop p Hp); by rewrite H in Hsafe.
Qed.

(** The genesis block given to [init_runtime] is a block of the (relay) chain, its
    authority set the one in force; in parachain mode the storage's parachain is
    the one whose headers the relay chain keeps. *)
Definition trusted_genesis (genesis_header : Header) (authority_set : AuthoritySet) : Prop :=
  block_at (h_number genesis_header) = Some genesis_header /\ authority_set = set_after (h_number genesis_header).

Lemma initialize_bridge_run (genesis_header : Header) authority_set proof bridge l :
  initialize_bridge genesis_header authority_set proof light_new = Ok bridge l ->
  bridge = 1 /\ tracked_bridges l !! 1 = Some (mkBridge genesis_header authority_set).
Proof.
  unfold initialize_bridge, gets, modify, mret, M_ret, mbind, M_bind.
  assert (moves eq (check_validator_set_proof (S := LightValidation) (h_state_root genesis_header) proof (as_list authority_set))) as Hc
    by (unfold check_validator_set_proof, read_value; moves).
  specialize (Hc light_new). destruct (check_validator_set_proof _ _ _ _) as [[] l0|e l0|]; [subst l0|done..]. intros [= <- <-]. split; [done|]. apply lookup_insert_eq.
Qed.
Lemma init_follows is_parachain genesis_header authority_set proof genesis_state p0 p1 rt :
  trusted_genesis genesis_header authority_set ->
  init_runtime_state is_parachain genesis_header authority_set proof genesis_state p0 = Ok rt p1 ->
  heads_key_of (rt_para_id rt) = heads_key -> 0 <= safe_mode_level p0 <= 1 ->
  at_ = (if is_parachain then para_at else block_at) ->
  follows at_ w0 (put_work rt w0 p0).
Proof.
  intros [Hg Hset] H Hk Hl Hat. unfold init_runtime_state in H.
  destruct (initialize_bridge _ _ _ _) as [bridge l|e l|] eqn:Ei; [|done..].
  destruct (initialize_bridge_run _ _ _ _ _ Ei) as [-> Hb].
  unfold ensure, mret, M_ret, mbind, M_bind in H. destruct (is_parachain || _); [|done]. injection H as <- <-.
  eexists _, (wk_system w0). destruct (lk_number _ chain_linked _ _ Hg) as [_ Hr].
  split; [done|done|done|exact Hk| |by destruct is_parachain| |].
  - assert (forall b, feed_inv b 0 (sync_state_new l 1 0 1) [] (from_pairs genesis_state)) as Hf.
    { intros b. split; unfold first_root; cbn; try done; try lia. }
    assert (bridge_ok (sync_state_new l 1 0 1)) as Hbr by (exists (h_number genesis_header), genesis_header; by rewrite <- Hset).
    destruct is_parachain; by split.
  - intros _. destruct w0. destruct is_parachain; apply pr_start.
  - intros _. destruct w0. by destruct is_parachain.
Qed.
End rpc.

Section rpc_claims.
Context {R D C : Type} `{CL : !ChainLib} `{FI : !Finality} `{HC : !HeaderCodec} `{PC : !ParaChain} `{TL : !TrieLib D}
  `{CS : !ChainStorageLib D} `{PL : !PlatformLib} `{SO : !SystemOps R D C}.

(** C11: a runtime started from a block of the chain follows the chain, whatever
    headers, proofs, blocks and states it is given and in whatever order, as long
    as it checks proofs: when it may be attested its storage has the state root
    of the last block dispatched, and the system has processed exactly the blocks
    of the chain, in order, each on the storage with its own state root, from
    genesis or from the block whose state was loaded. *)
Theorem storage_follows_chain is_parachain genesis_header authority_set proof genesis_state (p0 : Phactory R D C) p1 rt w0 p :
  trusted_genesis genesis_header authority_set ->
  init_runtime_state is_parachain genesis_header authority_set proof genesis_state p0 = Ok rt p1 ->
  heads_key_of (rt_para_id rt) = heads_key -> 0 <= safe_mode_level p0 <= 1 ->
  rtc rpc_step (put_work rt w0 p0) p ->
  let at_ := if is_parachain then para_at else block_at in
  exists rt' r, runtime_state p = Some rt' /\ system p = Some r /\
    let n := block_next (storage_synchronizer rt') - 1 in
    (allow_attestation p = true -> trie_at at_ n (chain_storage rt')) /\
    (safe_mode_level p = 0 -> processed at_ w0 n (work_of p rt' r)).
Proof.
  intros Hg Hinit Hk Hl Hr at_. pose proof (init_follows at_ w0 _ _ _ _ _ _ _ _ Hg Hinit Hk Hl eq_refl) as H0.
  assert (follows at_ w0 p) as (rt' & r & [H1 H2 H3 H4 H5 H6 H7 H8])
    by (eapply rtc_invariant; [|exact Hr|exact H0]; apply rpc_step_follows).
  exists rt', r. split; [done|]. split; [done|]. split; [|done]. unfold allow_attestation. rewrite H1, H2.
  intros [Hv _]%andb_true_iff. pose proof (si_feed _ _ H5) as Hf. unfold state_validated in Hv.
  replace (feed_of (storage_synchronizer rt')).1 with (sync_state_of (storage_synchronizer rt')) in Hf by (by destruct (storage_synchronizer rt')).
  destruct (fi_valid _ _ _ _ _ Hf Hv) as [_ Ht]. by rewrite <- H6.
Qed.
End rpc_claims.

(** * What a justification must show

    [justification_ok] says it without loops; the check of justification.rs
    decides it, and its walks along parents end. *)

(** A header contains the hash of its parent: hashes cannot go round in circles. *)
Class AcyclicHash `{CL : !ChainLib} := {
  hash_rank : H256 -> nat;
  parent_rank : forall h, (hash_rank (h_parent_hash h) < hash_rank (header_hash h))%nat;
}.

Section grandpa.
Context `{CL : !ChainLib} `{AH : !AcyclicHash}.
Implicit Types (chain : gmap H256 Header) (base cur : H256).

(** The hashes from [cur] along parents down to [base], which is left out *)
Inductive lineage chain base : H256 -> list H256 -> Prop :=
  | lin_base : lineage chain base base []
  | lin_step cur h l : cur <> base -> chain !! cur = Some h -> lineage chain base (h_parent_hash h) l ->
      lineage chain base cur (cur :: l).

Lemma lineage_fun chain base cur l : lineage chain base cur l -> forall l', lineage chain base cur l' -> l' = l.
Proof.
  induction 1 as [|cur h l Hne Hh _ IH]; intros l' H'; inversion H' as [|? h' l1 Hne' Hh' H1]; subst; try done.
  rewrite Hh in Hh'. injection Hh' as <-. f_equal. by apply IH.
Qed.

Definition keyed chain : Prop := forall k h, chain !! k = Some h -> header_hash h = k.

Lemma ancestry_chain_keyed l : keyed (ancestry_chain l).
Proof.
  unfold ancestry_chain. assert (forall m, keyed m -> keyed (foldl (fun m h => <[ header_hash h := h ]> m) m l)) as H.
  { induction l as [|h l IH]; intros m Hm; [done|]. cbn. apply IH. intros k h'. rewrite lookup_insert. case_decide; [naive_solver|apply Hm]. }
  apply H. intros k h. by rewrite lookup_empty.
Qed.

(** The headers that a walk from [cur] can still meet *)
Definition below chain cur : gmap H256 Header := filter (fun kh => hash_rank kh.1 <= hash_rank cur)%nat chain.

Lemma below_step chain cur h : keyed chain -> chain !! cur = Some h -> (size (below chain (h_parent_hash h)) < size (below chain cur))%nat.
Proof.
  intros Hk Hh. pose proof (parent_rank h) as Hr. rewrite (Hk _ _ Hh) in Hr. apply map_subset_size.
  apply map_subset_alt. split.
  - apply map_subseteq_spec. unfold below. intros k x. rewrite !map_lookup_filter_Some. cbn. intros [? ?]. split; [done|lia].
  - exists cur. unfold below. split; [apply map_lookup_filter_None; right; intros x _; cbn; lia|].
    exists h. apply map_lookup_filter_Some. by split.
Qed.

(** The walk follows the lineage, if there is one, and always ends. *)
Lemma ancestry_loop_spec chain base : keyed chain -> forall fuel cur route, (size (below chain cur) <= fuel)%nat ->
  match ancestry_loop fuel chain base cur route with
  | Route r => exists l, lineage chain base cur l /\ r = match l with [] => rev (tail route) | _ :: l => rev route ++ l end
  | NotDescendent => forall l, ~ lineage chain base cur l
  | Endless => False
  end.
Proof.
  intros Hk. induction fuel as [|fuel IH]; intros cur route Hf; cbn [ancestry_loop].
  all: destruct (Z.eqb_spec cur base) as [->|Hne]; [exists []; split; [constructor|done]|].
  all: destruct (chain !! cur) as [h|] eqn:Hh; [|intros l Hl; inversion Hl; congruence].
  - pose proof (below_step chain cur h Hk Hh). lia.
  - pose proof (below_step chain cur h Hk Hh). specialize (IH (h_parent_hash h) (h_parent_hash h :: route) ltac:(lia)).
    destruct (ancestry_loop _ _ _ _ _) as [r| |]; [| |done].
    + destruct IH as (l & Hl & ->). exists (cur :: l). split; [by econstructor|].
      destruct l as [|c l]; cbn; [by rewrite app_nil_r|]. inversion Hl; subst. by rewrite <- app_assoc.
    + intros l Hl. inversion Hl as [|? h' l' ? Hh' Hl']; subst; [done|]. rewrite Hh in Hh'. injection Hh' as <-. by eapply IH.
Qed.

Lemma ancestry_spec chain base cur : keyed chain -> cur <> base ->
  match ancestry chain base cur with
  | Route r => lineage chain base cur (cur :: r)
  | NotDescendent => forall l, ~ lineage chain base cur l
  | Endless => False
  end.
Proof.
  intros Hk Hne. pose proof (ancestry_loop_spec chain base Hk (size chain) cur []) as H. unfold ancestry.
  specialize (H ltac:(apply map_subseteq_size, map_filter_subseteq)). destruct (ancestry_loop _ _ _ _ _); [|done|done].
  destruct H as (l & Hl & ->). destruct l as [|c l]; [inversion Hl; congruence|]. cbn. by inversion Hl; subst.
Qed.

(** ** Precommits *)

(** The first of those with the least key *)
Definition lowest {A} (key : A -> Z) (l : list A) (x : A) : Prop := exists i, l !! i = Some x /\
  forall k y, l !! k = Some y -> key x <= key y /\ ((k < i)%nat -> key x < key y).

Lemma min_by_key_spec {A} (key : A -> Z) l : match min_by_key key l with Some x => lowest key l x | None => l = [] end.
Proof.
  unfold min_by_key. induction l as [|y l IH] using rev_ind; [done|]. rewrite foldl_app. cbn.
  assert (forall k z, (l ++ [y]) !! k = Some z -> l !! k = Some z \/ k = length l /\ z = y) as Hsplit.
  { intros k z [H|[Hge H]]%lookup_app_Some; [by left|right]. apply list_lookup_singleton_Some in H as [? ?]. split; [lia|done]. }
  destruct (foldl _ None l) as [x|]; revgoals.
  - subst l. exists 0%nat. split; [done|]. intros [|k] z; [intros [= <-]; lia|done].
  - destruct IH as (i & Hi & Hmin). pose proof (lookup_lt_Some _ _ _ Hi) as Hlt. destruct (Z.ltb_spec (key y) (key x)) as [Hyx|Hyx].
    + exists (length l). split; [by rewrite lookup_app_r, Nat.sub_diag|].
      intros k z [Hz|[-> ->]]%Hsplit; [apply Hmin in Hz|]; lia.
    + exists i. split; [by rewrite lookup_app_l|]. intros k z [Hz|[-> ->]]%Hsplit; [by apply Hmin|]. split; lia.
Qed.

Definition target_of (x : SignedPrecommit) : H256 := pc_target_hash (sp_precommit x).
Definition signed_ok (round set_id : Z) (x : SignedPrecommit) : Prop :=
  check_message_signature (sp_precommit x) (sp_id x) (sp_signature x) round set_id = true.
(** [ls] are the lineages of the precommits [l]. *)
Definition lineages chain base (l : list SignedPrecommit) (ls : list (list H256)) : Prop :=
  Forall2 (fun x ln => lineage chain base (target_of x) ln) l ls.

Lemma verify_precommits_spec {S} round id chain base l : keyed chain -> forall visited (s : S),
  match verify_precommits round id chain base l visited s with
  | Ok v s' => s' = s /\ Forall (signed_ok round id) l /\
      exists ls, lineages chain base l ls /\ v = visited ∪ list_to_set (concat ls)
  | Err _ s' => s' = s /\ ~ (Forall (signed_ok round id) l /\ exists ls, lineages chain base l ls)
  | Panic => False
  end.
Proof.
  intros Hk. induction l as [|x l IH]; intros visited s.
  { cbn. split; [done|]. split; [done|]. exists []. split; [constructor|set_solver]. }
  cbn [verify_precommits]. unfold ensure. destruct (check_message_signature _ _ _ _ _) eqn:Es.
  2: { cbn. split; [done|]. intros [[Hs _]%Forall_cons _]. unfold signed_ok in Hs. congruence. }
  unfold mbind, M_bind, mret, M_ret. fold (target_of x).
  assert (forall ln v, lineage chain base (target_of x) ln ->
    match verify_precommits round id chain base l v s with
    | Ok v' s' => s' = s /\ Forall (signed_ok round id) (x :: l) /\
        exists ls, lineages chain base (x :: l) (ln :: ls) /\ v' = v ∪ list_to_set (concat ls)
    | Err _ s' => s' = s /\ ~ (Forall (signed_ok round id) (x :: l) /\ exists ls, lineages chain base (x :: l) ls)
    | Panic => False
    end) as Hrest.
  { intros ln v Hln. specialize (IH v s). destruct (verify_precommits _ _ _ _ l v s); [| |done].
    - destruct IH as (-> & Hs & ls & Hls & ->). split; [done|]. split; [by constructor|]. exists ls. split; [by constructor|done].
    - destruct IH as [-> Hn]. split; [done|]. intros [[_ Hs]%Forall_cons (ls & Hls)]. apply Hn. split; [done|].
      inversion Hls; subst. eauto. }
  destruct (Z.eqb_spec base (target_of x)) as [Eb|Eb].
  - specialize (Hrest [] visited). destruct (verify_precommits _ _ _ _ l visited s).
    + destruct Hrest as (-> & Hs & ls & Hls & ->); [rewrite <- Eb; constructor|]. eauto 10.
    + apply Hrest. rewrite <- Eb. constructor.
    + apply Hrest. rewrite <- Eb. constructor.
  - pose proof (ancestry_spec chain base (target_of x) Hk ltac:(congruence)) as Ha. destruct (ancestry chain base (target_of x)) as [r| |]; [| |done].
    + specialize (Hrest _ (visited ∪ {[ target_of x ]} ∪ list_to_set r) Ha). destruct (verify_precommits _ _ _ _ l _ s); [|done|done].
      destruct Hrest as (-> & Hs & ls & Hls & ->). split; [done|]. split; [done|]. exists ((target_of x :: r) :: ls). split; [done|].
      cbn. rewrite list_to_set_app_L. set_solver.
    + cbn. split; [done|]. intros [_ (ls & Hls)]. inversion Hls; subst. by eapply Ha.
Qed.

(** A justification that finalizes a block: the library accepts its commit, every
    precommit is signed, is for a descendant of the lowest block voted for, and
    the headers given are exactly those needed to see it. *)
Definition justification_ok (hash : H256) (number set_id : Z) (voters : VoterSet) (j : GrandpaJustification) : Prop :=
  let commit := gj_commit j in
  let chain := ancestry_chain (gj_votes_ancestries j) in
  (cm_target_hash commit, cm_target_number commit) = (hash, number) /\
  validate_commit commit voters (ancestry chain) = Some true /\
  Forall (signed_ok (gj_round j) set_id) (cm_precommits commit) /\
  exists (base : Precommit) ls, lowest pc_target_number (sp_precommit <$> cm_precommits commit) base /\
    lineages chain (pc_target_hash base) (cm_precommits commit) ls /\
    list_to_set (concat ls) =@{gset H256} list_to_set (header_hash <$> gj_votes_ancestries j).

Lemma lowest_fun {A} (key : A -> Z) l x y : lowest key l x -> lowest key l y -> x = y.
Proof.
  intros (i & Hi & Hx) (k & Hk & Hy). destruct (Hx _ _ Hk) as [? H1]. destruct (Hy _ _ Hi) as [? H2].
  destruct (decide (i = k)) as [->|]; [congruence|]. destruct (decide (i < k)%nat); [specialize (H2 ltac:(lia))|specialize (H1 ltac:(lia))]; lia.
Qed.
Lemma lineages_fun chain base l ls : lineages chain base l ls -> forall ls', lineages chain base l ls' -> ls' = ls.
Proof.
  induction 1 as [|x ln l ls Hln _ IH]; intros ls' H'; inversion H'; subst; [done|]. f_equal; [by eapply lineage_fun|by apply IH].
Qed.

(** C12: the check of a justification decides [justification_ok] and changes
    nothing: it accepts exactly the encodings of justifications that finalize
    the block, refuses all others, and its walks along parents always end. It
    panics only on a commit that the GRANDPA library accepts without a vote. *)
Theorem justification_check_decides {S} encoded hash number set_id voters (s : S) :
  match decode_and_verify_finalizes encoded hash number set_id voters s with
  | Ok _ s' => s' = s /\ exists j, decode_justification encoded = Some j /\ justification_ok hash number set_id voters j
  | Err _ s' => s' = s /\ forall j, decode_justification encoded = Some j -> ~ justification_ok hash number set_id voters j
  | Panic => exists j, decode_justification encoded = Some j /\ cm_precommits (gj_commit j) = [] /\
      validate_commit (gj_commit j) voters (ancestry (ancestry_chain (gj_votes_ancestries j))) = Some true
  end.
Proof.
  unfold decode_and_verify_finalizes, verify_with_voter_set, ok_or, ensure, expect, mret, M_ret, mbind, M_bind.
  destruct (decode_justification encoded) as [j|]; [|by split]. unfold justification_ok.
  destruct (bool_decide _) eqn:Et at 1; b2p; [|split; [done|]; intros ? [= <-]; naive_solver].
  destruct (validate_commit _ _ _) as [[]|] eqn:Ev; [|split; [done|]; intros ? [= <-]; naive_solver..].
  pose proof (min_by_key_spec pc_target_number (sp_precommit <$> cm_precommits (gj_commit j))) as Hm.
  destruct (min_by_key _ _) as [base|]; [|exists j; split; [done|]; split; [by eapply fmap_nil_inv|done]].
  pose proof (verify_precommits_spec (gj_round j) set_id _ (pc_target_hash base) (cm_precommits (gj_commit j))
    (ancestry_chain_keyed (gj_votes_ancestries j)) ∅ s) as Hp.
  destruct (verify_precommits _ _ _ _ _ _ s) as [v s'|e s'|]; [| |done].
  - destruct Hp as (-> & Hs & ls & Hls & ->). rewrite union_empty_l_L. destruct (bool_decide _) eqn:Eh; b2p.
    + split; [done|]. exists j. split; [done|]. split; [done|]. split; [done|]. split; [done|]. eauto.
    + split; [done|]. intros ? [= <-] (_ & _ & _ & base' & ls' & Hb & Hls' & E). rewrite (lowest_fun _ _ _ _ Hb Hm) in Hls'.
      rewrite (lineages_fun _ _ _ _ Hls _ Hls') in E. done.
  - destruct Hp as [-> Hn]. split; [done|]. intros ? [= <-] (_ & _ & Hs & base' & ls' & Hb & Hls' & _).
    rewrite (lowest_fun _ _ _ _ Hb Hm) in Hls'. apply Hn. eauto.
Qed.
End grandpa.
