(* ===== verification/PhactoryRuns.v ===== *)
(** * A runtime that follows a chain of three blocks

    The theorems on justifications, synchronisation and the RPC service at a
    chain whose header hash is an injective encoding. *)

From S2P Require Import Prelude MqTypes SendQueue Storage Dispatcher LightClient StorageSync SyncFollow Phactory PhactoryClaims.

(** ** The chain *)
Definition toy_hash (h : Header) : H256 :=
  Z.pos (encode (h_parent_hash h, (h_number h, (h_state_root h, (h_extrinsics_root h, h_digest h))))).

Lemma toy_hash_inj h h' : toy_hash h = toy_hash h' -> h = h'.
Proof. unfold toy_hash. intros [= E]. apply encode_inj in E. destruct h, h'. cbn in E. by simplify_eq. Qed.

Ltac pos_digits :=
  repeat match goal with
  | |- context [Z.pos (xI ?x)] => lazymatch x with xH => fail | _ => rewrite (Pos2Z.inj_xI x) end
  | |- context [Z.pos (xO ?x)] => lazymatch x with xH => fail | _ => rewrite (Pos2Z.inj_xO x) end
  end.

Lemma prod_encode_ge p q : Z.pos p <= Z.pos (prod_encode p q).
Proof.
  assert (forall p, Z.pos p <= Z.pos (prod_encode_fst p)) as Hf by (clear; induction p; cbn [prod_encode_fst]; pos_digits; lia).
  revert q. induction p as [p IH|p IH|]; intros [q|q|]; cbn [prod_encode]; try specialize (IH q); try specialize (Hf p); pos_digits; lia.
Qed.

Lemma toy_hash_rank h : (Z.to_nat (h_parent_hash h) < Z.to_nat (toy_hash h))%nat.
Proof.
  unfold toy_hash. generalize (h_number h, (h_state_root h, (h_extrinsics_root h, h_digest h))). intros r.
  change (encode (h_parent_hash h, r)) with (prod_encode (encode (h_parent_hash h)) (encode r)).
  pose proof (prod_encode_ge (encode (h_parent_hash h)) (encode r)) as Hp.
  destruct (h_parent_hash h) as [|p|p]; [lia| |lia]. change (encode (Z.pos p)) with (xO p) in *. rewrite (Pos2Z.inj_xO p) in Hp. lia.
Qed.

Definition block_0 : Header := mkHeader 0 0 100 0 [].
Definition block_1 : Header := Eval vm_compute in mkHeader (toy_hash block_0) 1 101 0 [].
Definition block_2 : Header := Eval vm_compute in mkHeader (toy_hash block_1) 2 102 0 [].
Definition toy_blocks : list Header := [block_0; block_1; block_2].
Definition toy_at (n : Z) : option Header := if n <? 0 then None else toy_blocks !! Z.to_nat n.
Definition toy_set : AuthoritySet := mkAuthSet [(1, 1)] 0.

#[local] Instance toy_lib : ChainLib := {|
  header_hash := toy_hash;
  consensus_log _ := None;
  encode_authorities _ := [7];
  decode_justification b :=
    match b with
    | [n] => h ← toy_at n; Some (mkJustification 1 (mkCommit (toy_hash h) n [mkSignedPrecommit (mkPrecommit (toy_hash h) n) [] 1]) [])
    | _ => None
    end;
  VoterSet := list (Z * Z);
  voter_set_new l := match l with [] => None | _ => Some l end;
  validate_commit c _ _ := Some (bool_decide (cm_target_hash c ∈ toy_hash <$> toy_blocks));
  check_message_signature _ _ _ _ _ := true;
  trie_read root proof key :=
    if bool_decide (take 5 key = bs "Paras") then Some (Some [toy_hash block_2]) else Some (head proof);
  twox_128 b := b;
|}.

Lemma toy_at_cases n h : toy_at n = Some h -> (n = 0 /\ h = block_0) \/ (n = 1 /\ h = block_1) \/ (n = 2 /\ h = block_2).
Proof.
  unfold toy_at. destruct (Z.ltb_spec n 0); [done|]. intros Hn. assert (n < 3) as Hlt.
  { apply lookup_lt_Some in Hn. cbn in Hn. lia. }
  assert (n = 0 \/ n = 1 \/ n = 2) as [-> | [-> | ->]] by lia; injection Hn as <-; [left|right; left|right; right]; done.
Qed.

Lemma toy_linked : linked toy_at.
Proof.
  split.
  - intros n h [[-> ->]|[[-> ->]|[-> ->]]]%toy_at_cases; split; done.
  - intros n h [[-> ->]|[[-> ->]|[-> ->]]]%toy_at_cases Hn; [lia| |]; eexists; (split; [reflexivity|vm_compute; reflexivity]).
  - intros h h' [= <-]. done.
Qed.

#[local] Instance toy_acyclic : AcyclicHash := {| hash_rank h := Z.to_nat h; parent_rank := toy_hash_rank |}.

Lemma toy_on_chain h : toy_hash h ∈ toy_hash <$> toy_blocks -> toy_at (h_number h) = Some h.
Proof.
  intros (h' & E & Hin)%list_elem_of_fmap. apply toy_hash_inj in E as ->. unfold toy_blocks in Hin.
  rewrite !elem_of_cons, elem_of_nil in Hin. by destruct Hin as [-> | [-> | [-> | []]]].
Qed.

Lemma toy_no_change h : find_scheduled_change h = None.
Proof. unfold find_scheduled_change. by induction (h_digest h). Qed.

#[local] Instance toy_finality : Finality.
Proof.
  refine {| block_at := toy_at; set_after _ := toy_set |}.
  - exact toy_hash_inj.
  - exact toy_linked.
  - intros n h _. unfold next_set. by rewrite toy_no_change.
  - intros n j h voters S s s' _ H. split; [|intros; apply toy_no_change]. apply toy_on_chain.
    unfold verify_grandpa_proof, decode_and_verify_finalizes in H. apply bind_Ok in H as (j' & s1 & _ & H).
    apply bind_Ok in H as (u & s2 & Ht & H). unfold ensure in Ht. destruct (bool_decide _) eqn:Et; [|done]. b2p. injection Et as Eh _.
    unfold verify_with_voter_set in H. apply bind_Ok in H as (u' & s3 & Hv & _). unfold ensure, validate_commit in Hv. cbn in Hv.
    destruct (bool_decide _) eqn:Ev in Hv; [|done]. b2p. by rewrite <- Eh.
Defined.

#[local] Instance toy_head_codec : HeaderCodec := fun h => [toy_hash h].

#[local] Instance toy_para : ParaChain.
Proof.
  refine {| para_at := toy_at; para_linked := toy_linked; heads_key := bs "Paras" ++ bs "Heads" |}.
  intros n h proof hd _ E. change (Some (Some [toy_hash block_2]) = Some (Some [toy_hash hd])) in E.
  apply (f_equal (fun o => match o with Some (Some [x]) => x | _ => 0 end)) in E. cbv beta iota in E. by apply toy_hash_inj in E as <-.
Defined.

(** ** The storage and the system: a trie is its root, the system lists the blocks it saw. *)
#[local] Instance toy_trie : TrieLib unit := {|
  Transaction := unit;
  full_storage_root _ _ changes := (match main_storage_changes changes with [([r], _)] => r | _ => 0 end, tt);
  consolidate _ _ := tt;
|}.
#[local] Instance toy_storage : ChainStorageLib unit := {|
  from_pairs l := mkTrie tt (match l with [([r], _)] => r | _ => 0 end);
  storage_para_id _ := 0;
  storage_worker_registered _ _ := false;
  storage_mq_messages t := [mkMessage (Pallet [1]) (mkTopic [2]) [trie_root t]];
  storage_timestamp t := 12000 * trie_root t;
  storage_ingress _ _ := None;
  storage_minimum_version _ := (2, 0, 0);
  storage_consensus_version _ := 0;
  storage_allow_list _ := [];
  twox_64 b := b;
  encode_para_id _ := [];
|}.
#[local] Instance toy_platform : PlatformLib := {| app_version := (2, 1, 0); measurement := None |}.
#[local] Instance toy_system : SystemOps (list Z) unit unit := {|
  registered _ := false;
  identity_pubkey _ := 1;
  put_genesis_block n _ := [n];
  has_gatekeeper _ := false;
  has_cluster _ := false;
  system_block_number _ := 0;
  install_cluster _ r := r;
  block_begins n _ _ '(r, q, d) := Some (r ++ [n], q, d);
  block_messages _ _ _ w := Some w;
  block_ends _ _ _ w := Some w;
|}.

Definition phactory_0 : Phactory (list Z) unit unit := mkPhactory true 0 true None None None None.
Definition work_0 : Work (list Z) unit := mkWork [] queue_new dispatcher_new None.
Definition runtime_0 : RuntimeState unit := Eval vm_compute in
  match init_runtime_state false block_0 toy_set [[7]] [([100], [])] phactory_0 with
  | Ok rt _ => rt
  | _ => mkRuntime queue_new dispatcher_new (new_solochain light_new 0) (mkTrie tt 0) 0
  end.
Definition rpc_started : Phactory (list Z) unit unit := put_work runtime_0 work_0 phactory_0.
Definition feed_ops : list rpc_op :=
  [RpcSyncHeader [mkToSync block_0 None; mkToSync block_1 None; mkToSync block_2 (Some [2])];
   RpcDispatch [mkBlock block_1 (mkChanges [([101], None)] []); mkBlock block_2 (mkChanges [([102], None)] [])]].
Definition rpc_run (p : Phactory (list Z) unit unit) (op : rpc_op) : Phactory (list Z) unit unit := state_of p (rpc_exec op p).
Definition synced : Phactory (list Z) unit unit := Eval vm_compute in foldl rpc_run rpc_started feed_ops.

Example synced_system : system synced = Some [1; 2] /\ allow_attestation synced = true.
Proof. vm_compute. by split. Qed.

Lemma synced_history : rtc rpc_step rpc_started synced.
Proof.
  eapply rtc_l; [apply (rpc_ok _ (rpc_run rpc_started (RpcSyncHeader [mkToSync block_0 None; mkToSync block_1 None; mkToSync block_2 (Some [2])])) 
    (RpcSyncHeader [mkToSync block_0 None; mkToSync block_1 None; mkToSync block_2 (Some [2])])); [done|vm_compute; reflexivity]|].
  apply rtc_once. apply (rpc_ok _ _ (RpcDispatch [mkBlock block_1 (mkChanges [([101], None)] []); mkBlock block_2 (mkChanges [([102], None)] [])]));
    [done|vm_compute; reflexivity].
Qed.

Lemma storage_follows_chain_witness :
  exists rt, runtime_state synced = Some rt /\ trie_at block_at 2 (chain_storage rt) /\ processed toy_at work_0 2 (work_of synced rt [1; 2]).
Proof.
  destruct (storage_follows_chain false block_0 toy_set [[7]] [([100], [])] phactory_0 phactory_0 runtime_0 work_0 synced)
    as (rt & r & H1 & H2 & H3 & H4); [by split|vm_compute; reflexivity|vm_compute; reflexivity|cbn; lia|exact synced_history|].
  assert (r = [1; 2]) as -> by (vm_compute in H2; by injection H2). exists rt. split; [exact H1|].
  vm_compute in H1. injection H1 as <-. split; [apply H3; vm_compute; reflexivity|apply H4; vm_compute; reflexivity].
Defined.

(** The justification of block 2 *)
Lemma justification_check_decides_witness :
  exists j, decode_justification [2] = Some j /\ justification_ok (header_hash block_2) 2 0 [(1, 1)] j.
Proof.
  pose proof (justification_check_decides [2] (header_hash block_2) 2 0 [(1, 1)] tt) as H.
  destruct (decode_and_verify_finalizes _ _ _ _ _ _) as [u []|e []|] eqn:E; [exact (proj2 H)| |].
  - exfalso. vm_compute in E. discriminate E.
  - exfalso. vm_compute in E. discriminate E.
Defined.

(** A runtime in safe mode 2 that has the roots of the first two blocks *)
Lemma dropped_proofs_lag_witness :
  exists b t, feed_block (mkBlock block_1 (mkChanges [] [])) true (sync_state_new light_new 1 2 1, [100; 101], mkTrie tt 100) = Ok tt (b, [101], t) /\
    trie_at toy_at 0 t.
Proof.
  assert (feed_inv toy_at 2 (sync_state_new light_new 1 2 1) [100; 101] (mkTrie tt 100)) as Hi.
  { split; unfold first_root; cbn; try done; try lia. intros [|[|i]] r; cbn; [| |done]; intros [= <-]; eexists; by split. }
  pose proof (dropped_proofs_lag toy_at 2 (mkBlock block_1 (mkChanges [] [])) _ _ _ Hi eq_refl ltac:(cbn; lia)) as H.
  eexists _, _. split; [vm_compute; reflexivity|]. exact (proj1 (proj2 H)).
Defined.
