(* ===== verification/Pherry.v ===== *)
(** * The relayer (standalone/pherry/src)

    pherry asks a pRuntime how far it is, decides what it needs next, fetches
    it from the nodes of the relay chain and the parachain or from a cache of
    headers, and submits it. One round of its loop is [sync_round]; what nodes
    and cache answer during a round is its [RelayEnv]. The state is that of the
    pRuntime it talks to. *)

From S2P Require Import Prelude MqTypes SendQueue LightClient StorageSync Phactory.

(** [sc_consensus_grandpa::FinalityProof] without the block it is for *)
Record FinalityProof := mkFinalityProof { fp_justification : bytes; fp_unknown_headers : list Header }.

(** The decoders of finality proofs, of the heads the relay chain keeps (a header
    encoded twice) and of state roots *)
Class RelayLib := {
  decode_finality_proof : bytes -> option FinalityProof;
  decode_parachain_header : bytes -> option Header;
  h256_of_slice : bytes -> option H256;
}.

(** The calls of a node; the outer [None] is an error of the call *)
Record ChainApi := mkApi {
  api_block_hash : Z -> option (option H256);
  api_finalized_head : option H256;
  api_header : H256 -> option (option Header);
  api_prove_finality : Z -> option bytes;
  api_paras_head : H256 -> option (option bytes);
  api_read_paras_proof : H256 -> option StorageProof;
  api_storage_changes : H256 -> H256 -> option (list StorageChanges);
  api_storage_changes_with_root : H256 -> H256 -> option (list (StorageChanges * bytes));
}.

(** headers_cache.rs *)
Record ParaHeader := mkParaHeader { ph_fin_header_num : Z; ph_proof : StorageProof }.
Record BlockInfo := mkBlockInfo { bi_header : Header; bi_justification : option bytes; bi_para_header : option ParaHeader }.
Record CacheClient := mkCacheClient {
  cc_get_headers : Z -> option (list BlockInfo);
  cc_get_parachain_headers : Z -> Z -> option (list Header);
  cc_get_storage_changes : Z -> Z -> option (list BlockHeaderWithChanges);
}.

Record RelayEnv := mkEnv {
  env_relay : ChainApi;
  env_para : ChainApi;
  env_cache : option CacheClient;
  (** what a task that prefetches blocks has found when it is awaited; the outer [None] is a [JoinError] *)
  env_prefetched : Z -> Z -> option (option (list BlockHeaderWithChanges));
}.

Inductive RelayError :=
  | ReRpc
  | ReBlockHashNotFound
  | ReBlockNotFound
  | ReFailedToDecode
  | ReNoParachainHeader
  | ReInvalidStateRoot
  | ReJoin
  | RePRuntime (e : RpcError).

(** Of [prpc::PhactoryInfo] *)
Record PhactoryInfo := mkInfo { pi_headernum : Z; pi_para_headernum : Z; pi_blocknum : Z }.

Inductive SyncOperation :=
  | OpRelaychainHeader
  | OpCachedRelaychainHeader (cached_headers : list BlockInfo)
  | OpParachainHeader (para_fin_block_number : Z) (proof : StorageProof)
  | OpBlock
  | OpReachedChainTip.

Inductive RoundEnd := RoundSynced | RoundTip | RoundTarget.

Section pherry.
Context {R D C : Type} `{CL : !ChainLib} `{HC : !HeaderCodec} `{TL : !TrieLib D} `{CS : !ChainStorageLib D} `{PL : !PlatformLib}
  `{SO : !SystemOps R D C} `{RL : !RelayLib}.
Abbreviation Rl := (M (Phactory R D C) RelayError).

(** A call of the pRuntime *)
Definition pr_call {A} (m : M (Phactory R D C) RpcError A) : Rl A := map_err RePRuntime m.

Definition phactory_info (p : Phactory R D C) : PhactoryInfo :=
  match runtime_state p with
  | Some rt =>
      let c := counters (storage_synchronizer rt) in
      mkInfo (next_header_number c) (next_para_header_number c) (next_block_number c)
  | None => mkInfo 0 0 0
  end.

(** ** Asking the nodes *)

Definition get_header_hash (api : ChainApi) (h : option Z) : Rl H256 :=
  match h with
  | Some n => hash ← ok_or (api_block_hash api n) ReRpc; ok_or hash ReBlockHashNotFound
  | None => ok_or (api_finalized_head api) ReRpc
  end.

Definition get_header_at (api : ChainApi) (h : option Z) : Rl (Header * H256) :=
  hash ← get_header_hash api h;
  header ← ok_or (api_header api hash) ReRpc;
  header ← ok_or header ReBlockNotFound;
  mret (header, hash).

Definition get_finalized_header (api : ChainApi) (last_header_hash : H256) : Rl (option (Header * StorageProof)) :=
  raw_header ← ok_or (api_paras_head api last_header_hash) ReRpc;
  match raw_header with
  | None => mret None
  | Some raw_header =>
      para_fin_header ← ok_or (decode_parachain_header raw_header) ReFailedToDecode;
      header_proof ← ok_or (api_read_paras_proof api last_header_hash) ReRpc;
      mret (Some (para_fin_header, header_proof))
  end.

(** [cached_headers.len() == 1] and a parachain header with it *)
Definition cached_para_header (cache : option CacheClient) (block_number : Z) : option ParaHeader :=
  match cache with
  | Some cache =>
      match default [] (cc_get_headers cache block_number) with
      | [info] => bi_para_header info
      | _ => None
      end
  | None => None
  end.

Definition get_parachain_header_from_relaychain_at (env : RelayEnv) (block_number : Z) : Rl (Z * StorageProof) :=
  match cached_para_header (env_cache env) block_number with
  | Some para_header => mret (ph_fin_header_num para_header, ph_proof para_header)
  | None =>
      hash ← get_header_hash (env_relay env) (Some block_number);
      header ← get_finalized_header (env_relay env) hash;
      '(header, proof) ← ok_or header ReNoParachainHeader;
      mret (h_number header, proof)
  end.

(** [justification: None] on all headers but the last *)
Fixpoint with_justification (headers : list Header) (justification : bytes) : list HeaderToSync :=
  match headers with
  | [] => []
  | [h] => [mkToSync h (Some justification)]
  | h :: headers => mkToSync h None :: with_justification headers justification
  end.

Definition get_headers (api : ChainApi) (from : Z) : Rl (list HeaderToSync) :=
  '(first_header, _) ← get_header_at api (Some from);
  encoded_finality_proof ← ok_or (api_prove_finality api from) ReRpc;
  finality_proof ← ok_or (decode_finality_proof encoded_finality_proof) ReFailedToDecode;
  mret (with_justification (first_header :: fp_unknown_headers finality_proof) (fp_justification finality_proof)).

(** The loop of [get_parachain_headers] over [n] blocks from [b] on *)
Fixpoint fetch_parachain_headers (api : ChainApi) (b : Z) (n : nat) (para_headers : list Header) : Rl (list Header) :=
  match n with
  | O => mret para_headers
  | S n =>
      hash ← ok_or (api_block_hash api b) ReRpc;
      match hash with
      | None => mret para_headers
      | Some hash =>
          header ← ok_or (api_header api hash) ReRpc;
          header ← ok_or header ReBlockNotFound;
          fetch_parachain_headers api (b + 1) n (para_headers ++ [header])
      end
  end.

Definition get_parachain_headers (env : RelayEnv) (from to : Z) : Rl (list Header) :=
  let para_headers :=
    match env_cache env with
    | Some cache => default [] (cc_get_parachain_headers cache from ((to -[32] from) +[32] 1))
    | None => []
    end in
  match para_headers with
  | [] => fetch_parachain_headers (env_para env) from (Z.to_nat (to + 1 - from)) []
  | _ => mret para_headers
  end.

(** ** Blocks *)

(** Only the number of the header is used by the pRuntime. *)
Fixpoint number_changes (from : Z) (changes : list (StorageChanges * H256)) : list BlockHeaderWithChanges :=
  match changes with
  | [] => []
  | (storage_changes, state_root) :: changes =>
      mkBlock (mkHeader 0 from state_root 0 []) storage_changes :: number_changes (from +[32] 1) changes
  end.

Definition fetch_storage_changes_with_root_or_not (env : RelayEnv) (from to : Z) (with_root : bool) : Rl (list BlockHeaderWithChanges) :=
  if to <? from then mret []
  else
    match (match env_cache env with Some cache => cc_get_storage_changes cache from ((to +[32] 1) -[32] from) | None => None end) with
    | Some changes => mret changes
    | None =>
        from_hash ← get_header_hash (env_para env) (Some from);
        to_hash ← get_header_hash (env_para env) (Some to);
        changes ←
          (if with_root then
             changes ← ok_or (api_storage_changes_with_root (env_para env) from_hash to_hash) ReRpc;
             ok_or (mapM (fun c => (fun root => (c.1, root)) <$> h256_of_slice c.2) changes) ReInvalidStateRoot
           else
             changes ← ok_or (api_storage_changes (env_para env) from_hash to_hash) ReRpc;
             mret ((fun c => (c, 0)) <$> changes));
        mret (number_changes from changes)
    end.

Definition fetch_storage_changes (env : RelayEnv) (from to : Z) : Rl (list BlockHeaderWithChanges) :=
  fetch_storage_changes_with_root_or_not env from to false.

(** prefetcher.rs: [PrefetchClient], the range of the task it has started *)
Abbreviation PrefetchClient := (option (Z * Z)).

Definition prefetch_storage_changes (env : RelayEnv) (client : PrefetchClient) (from to : Z) : Rl (list BlockHeaderWithChanges * PrefetchClient) :=
  let count := (to +[32] 1) -[32] from in
  result ←
    match client with
    | Some state => if (state.1 =? from) && (state.2 =? to) then ok_or (env_prefetched env from to) ReJoin else mret None
    | None => mret None
    end;
  result ← match result with Some result => mret result | None => fetch_storage_changes env from to end;
  let next_from := from +[32] count in
  let next_to := (next_from +[32] count) -[32] 1 in
  mret (result, Some (next_from, next_to)).

(** The loop of [batch_sync_storage_changes], at most [fuel] batches *)
Fixpoint sync_batches (fuel : nat) (env : RelayEnv) (client : PrefetchClient) (from to batch_size : Z) : Rl unit :=
  match fuel with
  | O => mret tt
  | S fuel =>
      if to <? from then mret tt
      else
        let batch_to := Z.min to (Z.min (2 ^ 32 - 1) (from + (batch_size - 1))) in
        '(storage_changes, client) ← prefetch_storage_changes env client from batch_to;
        pr_call (dispatch_blocks storage_changes);;
        sync_batches fuel env client (from + batch_size) to batch_size
  end.

(** A batch has at least one block; [step_by(0)] panics. *)
Definition batch_sync_storage_changes (env : RelayEnv) (from to batch_size : Z) : Rl unit :=
  if batch_size =? 0 then panic
  else sync_batches (Z.to_nat (to + 1 - from)) env None from to batch_size.

(** ** Headers *)

Definition sync_headers (api : ChainApi) (from : Z) : Rl unit :=
  headers ← get_headers api from;
  pr_call (rpc_sync_header headers);;
  mret tt.

Definition sync_with_cached_headers (headers : list BlockInfo) : Rl unit :=
  pr_call (rpc_sync_header ((fun info => mkToSync (bi_header info) (bi_justification info)) <$> headers));;
  mret tt.

Definition sync_parachain_header (env : RelayEnv) (para_fin_block_number next_headernum : Z) (header_proof : StorageProof) : Rl Z :=
  if para_fin_block_number <? next_headernum then mret (next_headernum -[32] 1)
  else
    para_headers ← get_parachain_headers env next_headernum para_fin_block_number;
    match para_headers with
    | [] => mret (next_headernum -[32] 1)
    | _ => pr_call (rpc_sync_para_header para_headers header_proof)
    end.

(** ** The loop *)

Definition get_sync_operation (env : RelayEnv) (info : PhactoryInfo) (is_parachain : bool) : Rl SyncOperation :=
  let next_headernum := if is_parachain then pi_para_headernum info else pi_headernum info in
  if pi_blocknum info <? next_headernum then mret OpBlock
  else
    para ←
      (if is_parachain then
         '(para_number, proof) ← get_parachain_header_from_relaychain_at env (pi_headernum info -[32] 1);
         mret (if (0 <? para_number) && (pi_para_headernum info <=? para_number) then Some (para_number, proof) else None)
       else mret None);
    match para with
    | Some (para_number, proof) => mret (OpParachainHeader para_number proof)
    | None =>
        match env_cache env ≫= (fun cache => cc_get_headers cache (pi_headernum info)) with
        | Some cached_headers => mret (OpCachedRelaychainHeader cached_headers)
        | None =>
            '(latest_header, _) ← get_header_at (env_relay env) None;
            mret (if (0 <? h_number latest_header) && (pi_headernum info <=? h_number latest_header) then OpRelaychainHeader
                  else OpReachedChainTip)
        end
    end.

(** One round of the loop of [bridge]; what it does at the tip of the chain (registration, messages) comes after. *)
Definition sync_round (parachain : bool) (sync_blocks to_block : Z) (env : RelayEnv) : Rl RoundEnd :=
  info ← gets phactory_info;
  if to_block <=? pi_blocknum info then mret RoundTarget
  else
    op ← get_sync_operation env info parachain;
    match op with
    | OpRelaychainHeader => sync_headers (env_relay env) (pi_headernum info);; mret RoundSynced
    | OpCachedRelaychainHeader cached_headers => sync_with_cached_headers cached_headers;; mret RoundSynced
    | OpParachainHeader para_fin_block_number proof =>
        sync_parachain_header env para_fin_block_number (pi_para_headernum info) proof;; mret RoundSynced
    | OpBlock =>
        let next_headernum := if parachain then pi_para_headernum info else pi_headernum info in
        batch_sync_storage_changes env (pi_blocknum info) (next_headernum -[32] 1) sync_blocks;; mret RoundSynced
    | OpReachedChainTip => mret RoundTip
    end.

(** Rounds until the tip or the target is reached, one for each of [envs] at most *)
Fixpoint bridge_loop (parachain : bool) (sync_blocks to_block : Z) (envs : list RelayEnv) : Rl RoundEnd :=
  match envs with
  | [] => mret RoundSynced
  | env :: envs =>
      r ← sync_round parachain sync_blocks to_block env;
      match r with
      | RoundSynced => bridge_loop parachain sync_blocks to_block envs
      | _ => mret r
      end
  end.
End pherry.

(** ** Messages (msg_sync.rs)

    What [maybe_sync_mq_egress] submits of the messages it got, by sender; [next]
    is what [mq_next_sequence] answers. *)
Section egress.
Variable next : MessageOrigin -> Z.

(** The messages of one sender, [count] submitted so far; [true]: take a break *)
Fixpoint submit_from (min_seq limit : Z) (messages : list SignedMessage) (count : Z) : list SignedMessage * Z * bool :=
  match messages with
  | [] => ([], count, false)
  | m :: messages =>
      if sequence m <? min_seq then submit_from min_seq limit messages count
      else
        let count := count +[64] 1 in
        if limit <=? count then ([m], count, true)
        else let '(l, count, stop) := submit_from min_seq limit messages count in (m :: l, count, stop)
  end.
Fixpoint submit_all (limit : Z) (queue : list (MessageOrigin * list SignedMessage)) (count : Z) : list SignedMessage :=
  match queue with
  | [] => []
  | (sender, messages) :: queue =>
      let '(l, count, stop) := submit_from (next sender) limit messages count in
      if (stop : bool) then l else l ++ submit_all limit queue count
  end.
Definition maybe_sync_mq_egress (max_sync_msgs_per_round : Z) (messages : list (MessageOrigin * list SignedMessage)) : list SignedMessage :=
  submit_all max_sync_msgs_per_round messages 0.
End egress.
