(* ===== verification/PherryClaims.v ===== *)
(** * The relayer brings a runtime to the tip of the chain

    What honest nodes answer ([honest]) is accepted: every round of pherry makes
    progress until the runtime has dispatched all blocks the nodes know. *)

From S2P Require Import Prelude MqTypes SendQueue Storage Dispatcher LightClient StorageSync SyncFollow Phactory PhactoryClaims PhactoryRuns Pherry.

(** ** Headers of the chain pass the light client *)
Section light.
Context `{CL : !ChainLib} `{FI : !Finality}.

Lemma run_chained at_ l : linked at_ -> forall n, run_from at_ n l -> 0 <= n -> chained l = true.
Proof.
  intros Hl. induction l as [|h [|h' l] IH]; intros n Hr Hn; [done|done|]. cbn [chained].
  assert (H0 : at_ n = Some h) by (rewrite <- (Hr 0%nat h eq_refl); f_equal; lia). pose proof (Hr 1%nat h' eq_refl) as H1.
  destruct (lk_parent _ Hl _ _ H1) as (x & Hx & Ep); [lia|]. replace (n + Z.of_nat 1 - 1) with n in Hx by lia. rewrite H0 in Hx. injection Hx as <-.
  apply andb_true_iff. split; [by apply Z.eqb_eq|]. apply (IH (n + 1)); [|lia]. intros i x Hi. rewrite <- (Hr (S i) x Hi). f_equal. lia.
Qed.

(** The headers of a submission lead back to any block from the one before them on. *)
Lemma descends_run a anc n hm l : block_at a = Some anc -> 0 <= n -> run_from block_at n (l ++ [hm]) -> n - 1 <= a < n + Z.of_nat (length l) ->
  (h_parent_hash hm =? header_hash anc) || descends (rev l) (header_hash anc) (h_parent_hash hm) = true.
Proof.
  intros Ha Hn. revert hm. induction l as [|h l IH] using rev_ind; intros hm Hr Hb.
  - apply orb_true_iff. left. pose proof (Hr 0%nat hm eq_refl) as H0. destruct (lk_number _ chain_linked _ _ Ha). destruct (lk_parent _ chain_linked _ _ H0) as (x & Hx & ->); [cbn in *; lia|].
    cbn in Hb. replace (n + Z.of_nat 0 - 1) with a in Hx by lia. rewrite Ha in Hx. injection Hx as <-. apply Z.eqb_refl.
  - rewrite rev_app_distr. cbn [rev app descends]. rewrite length_app in Hb. cbn [length] in Hb. rewrite <- app_assoc in Hr.
    assert (Hh : block_at (n + Z.of_nat (length l)) = Some h) by (apply Hr; by rewrite lookup_app_r, Nat.sub_diag).
    assert (Hm : block_at (n + Z.of_nat (length l) + 1) = Some hm).
    { rewrite <- (Hr (S (length l)) hm); [f_equal; lia|]. rewrite lookup_app_r by lia. by replace (S (length l) - length l)%nat with 1%nat by lia. }
    destruct (lk_parent _ chain_linked _ _ Hm) as (x & Hx & Ep); [lia|]. rewrite Z.add_simpl_r, Hh in Hx. injection Hx as <-.
    rewrite Ep, Z.eqb_refl. destruct (decide (a = n + Z.of_nat (length l))) as [->|Hne].
    + rewrite Ha in Hh. injection Hh as ->. by rewrite Z.eqb_refl.
    + rewrite IH; [by rewrite orb_true_r| |lia]. intros i y Hi. apply Hr. rewrite app_assoc. by apply lookup_app_l_Some.
Qed.

(** [j] finalizes block [m] for the authorities after block [a]. *)
Definition finalizes (a m : Z) (hm : Header) (j : bytes) : Prop := block_at m = Some hm /\ exists voters,
  voter_set_new (as_list (set_after a)) = Some voters /\
  forall S (s : S), verify_grandpa_proof j (header_hash hm) m (as_id (set_after a)) voters s = Ok tt s.

Lemma submit_honest bridge a n hm l j v : (forall k h c, block_at k = Some h -> find_scheduled_change h = Some c -> delay c = 0) ->
  bridge_at bridge a v -> 0 <= n -> run_from block_at n (l ++ [hm]) -> n - 1 <= a < n + Z.of_nat (length l) ->
  finalizes a (n + Z.of_nat (length l)) hm j ->
  exists v', lv_submit_finalized_headers bridge hm (rev l) j v = Ok tt v' /\ bridge_at bridge (n + Z.of_nat (length l)) v'.
Proof.
  intros Hdel Hb Hn Hr Ha (Hm & voters & Hv & Hj). pose proof (submit_follows bridge a hm (rev l) j v Hb) as Hs. destruct Hb as (anc & Hanc & Ebr).
  destruct (lk_number _ chain_linked _ _ Hm) as [En _]. rewrite <- En in Hj.
  assert (exists v', lv_submit_finalized_headers bridge hm (rev l) j v = Ok tt v') as [v' E].
  { unfold lv_submit_finalized_headers, verify_ancestry, get_st, modify, ok_or, ensure, expect, mret, M_ret, mbind, M_bind.
    rewrite Ebr. cbn [last_finalized_block_header current_set]. rewrite (descends_run a anc n hm l Hanc Hn Hr Ha), Hv, Hj.
    destruct (find_scheduled_change hm) as [c|] eqn:Ec; [|by eexists]. rewrite (Hdel _ _ _ Hm Ec). by eexists. }
  exists v'. split; [done|]. rewrite E in Hs. rewrite <- En. apply Hs.
Qed.
End light.

(** ** Headers and blocks of the chain pass the synchronizer *)
Section sync.
Context `{CL : !ChainLib} `{FI : !Finality}.
Hypothesis no_delay : forall k h c, block_at k = Some h -> find_scheduled_change h = Some c -> delay c = 0.

Lemma filter_whole {A} (P : A -> Prop) `{!forall x, Decision (P x)} l : Forall P l -> filter P l = l.
Proof. induction 1 as [|x l Hx _ IH]; [done|]. by rewrite filter_cons_True, IH. Qed.

(** Headers that can be submitted when the bridge is at block [a] *)
Record submission (a n m : Z) (hs : list HeaderToSync) : Prop := {
  su_run : run_from block_at n (hs_header <$> hs);
  su_first : 0 <= n;
  su_length : m + 1 = n + Z.of_nat (length hs);
  su_after : n - 1 <= a < m;
  su_final : exists hl j, last hs = Some hl /\ hs_justification hl = Some j /\ finalizes a m (hs_header hl) j;
}.

Lemma sync_header_honest a m hs skip (b : BlockSyncState LightValidation) roots : submission a (header_number_next b) m hs -> bridge_at (main_bridge b) a (validator b) ->
  exists b' hm, sync_header hs skip (b, roots) = Ok m (b', roots ++ (h_state_root <$> filter (fun h => skip <= h_number h) (hs_header <$> hs))) /\
    header_number_next b' = m + 1 /\ same_blocks b b' /\ bridge_at (main_bridge b') m (validator b') /\
    last (hs_header <$> hs) = Some hm /\ block_at m = Some hm.
Proof.
  intros [Hr Hn Hlen Ha (hl & j & El & Ej & Hf)] Hb. set (n := header_number_next b) in *. destruct hs as [|x hs _] using rev_ind; [done|].
  rewrite last_snoc in El. injection El as ->. rewrite fmap_app in *. cbn [fmap list_fmap] in *. rewrite length_app in Hlen. cbn in Hlen.
  pose proof Hf as [Hm _]. destruct (lk_number _ chain_linked _ _ Hm) as [Em Hw].
  assert (Hall : Forall (fun h => n <= h_number (hs_header h)) (hs ++ [hl])).
  { apply Forall_lookup. intros i h Hi. pose proof (run_number block_at chain_linked n _ i (hs_header h) Hr) as E. rewrite E; [lia|].
    change [hs_header hl] with (hs_header <$> [hl]). rewrite <- fmap_app, list_lookup_fmap, Hi. done. }
  destruct (submit_honest (main_bridge b) a n (hs_header hl) (hs_header <$> hs) j (validator b) no_delay Hb Hn Hr) as (v' & Es & Hb').
  { rewrite length_fmap. lia. }
  { rewrite length_fmap. by replace (n + Z.of_nat (length hs)) with m by lia. }
  rewrite length_fmap in Hb'. replace (n + Z.of_nat (length hs)) with m in Hb' by lia.
  eexists _, (hs_header hl). split_and!; [|..|by rewrite last_snoc|done].
  - unfold sync_header, gets, mbind, M_bind. cbn [fst]. rewrite (filter_whole _ _ Hall).
    change [hs_header hl] with (hs_header <$> [hl]) in *. rewrite <- fmap_app in *.
    pose proof (run_chained block_at _ chain_linked n Hr Hn) as Hc. assert (Hrl : removelast (hs_header <$> hs ++ [hl]) = hs_header <$> hs) by (rewrite fmap_app; apply removelast_last).
    assert (Hl : last (hs ++ [hl]) = Some hl) by apply last_snoc. assert (Hne : hs ++ [hl] <> []) by (by destruct hs). revert Hr Hc Hrl Hl Hne.
    generalize (hs ++ [hl]). intros full Hr Hc Hrl Hl Hne. destruct full as [|f l'] eqn:Ef; [done|]. rewrite Hl.
    assert (Hfn : h_number (hs_header f) = n) by (rewrite (run_number block_at chain_linked n _ 0 (hs_header f) Hr eq_refl); lia).
    fold n. rewrite Hfn. unfold ensure. rewrite Z.eqb_refl. unfold mret, M_ret. rewrite Ej. cbn [ok_or]. unfold mret, M_ret. rewrite Hc, Hrl.
    unfold on_validator. cbn [fst snd submit_finalized_headers light_validator]. unfold map_err. rewrite Es.
    unfold modify. cbn [fst snd]. rewrite Em. rewrite wrap_add_small by lia. reflexivity.
  - done.
  - done.
  - exact Hb'.
Qed.

Context {D : Type} `{TL : !TrieLib D} (at_ : Z -> option Header).
Hypothesis Hat : linked at_.

(** A block whose changes lead to the root of its header *)
Lemma feed_block_honest {V} (next : Z) block (b : BlockSyncState V) roots (t : TrieStorage D) h tx : feed_inv at_ next b roots t ->
  h_number (bl_header block) = block_number_next b -> block_number_next b < next -> at_ (block_number_next b) = Some h ->
  trie_at at_ (block_number_next b - 1) t -> calc_root_if_changes t (bl_changes block) = (h_state_root h, tx) ->
  exists (b' : BlockSyncState V) roots', feed_block block false (b, roots, t) = Ok tt (b', roots', apply_changes (h_state_root h) tx t).
Proof.
  intros Hi Hn Hlt Hh (h0 & Hh0 & Er0) Ec.
  assert (Hg : exists b1 roots1, validate_genesis (b, roots, t) = Ok tt (b1, roots1, t)).
  { unfold validate_genesis, get_st, ok_or, ensure, pop_root, mod_sync, modify, mret, M_ret, mbind, M_bind. cbn [fst snd].
    destruct (genesis_state_validated b) eqn:Ev; [by eexists _, _|]. destruct Hi as [H1 H2 H3 H4 _]. unfold first_root in *. rewrite Ev in *.
    destruct roots as [|r roots]; [cbn in H4; lia|]. destruct (H3 0%nat r eq_refl) as (h1 & Hh1 & <-). rewrite Z.add_0_r, Hh0 in Hh1. injection Hh1 as <-.
    cbn [head]. rewrite Er0, Z.eqb_refl. by eexists _, _. }
  destruct Hg as (b1 & roots1 & Hg). pose proof (validate_genesis_inv at_ next b roots t Hi) as Hv. rewrite Hg in Hv. destruct Hv as (Hi1 & Hv & _ & Hbn & _).
  unfold feed_block, gets, ensure, mbind, M_bind. cbn [fst snd]. rewrite Hn, Z.eqb_refl. unfold mret, M_ret. rewrite Hg.
  unfold get_st, ok_or, mret, M_ret. cbn [fst snd]. destruct Hi1 as [H1 H2 H3 H4 H5]. unfold first_root in *. rewrite Hv, Z.sub_0_r in *.
  destruct roots1 as [|r roots1]; [cbn in H4; lia|]. destruct (H3 0%nat r eq_refl) as (h1 & Hh1 & <-). rewrite Z.add_0_r, Hbn, Hh in Hh1. injection Hh1 as <-.
  cbn [head]. rewrite Ec, Z.eqb_refl. unfold mod_trie, mod_sync, pop_root, modify. cbn [fst snd]. by eexists _, _.
Qed.
End sync.

(** ** Honest nodes *)

(** The chain a runtime follows, with the states of its blocks: the changes of a
    block lead from the state before it to one with the root of its header.
    Authority sets change without delay. Of the relay chain's blocks, the parachain
    block each has as its head. *)
Class FollowedChain (R D C : Type) `{CL : !ChainLib} `{FI : !Finality} `{HC : !HeaderCodec} `{PC : !ParaChain} `{TL : !TrieLib D}
    `{CS : !ChainStorageLib D} `{PL : !PlatformLib} `{SO : !SystemOps R D C} (at_ : Z -> option Header) := {
  state_at : Z -> TrieStorage D -> Prop;
  changes_at : Z -> StorageChanges;
  head_of : Z -> Z;
  state_trie : forall n t, state_at n t -> trie_at at_ n t;
  state_step : forall n t h, at_ (n + 1) = Some h -> state_at n t ->
    exists tx, calc_root_if_changes t (changes_at (n + 1)) = (h_state_root h, tx) /\ state_at (n + 1) (apply_changes (h_state_root h) tx t);
  no_delay : forall k h c, block_at k = Some h -> find_scheduled_change h = Some c -> delay c = 0;
  head_nonneg : forall n, 0 <= head_of n;
  head_mono : forall n m, n <= m -> head_of n <= head_of m;
}.

Section honest.
Context {R D C : Type} `{CL : !ChainLib} `{FI : !Finality} `{HC : !HeaderCodec} `{PC : !ParaChain} `{TL : !TrieLib D}
  `{CS : !ChainStorageLib D} `{PL : !PlatformLib} `{SO : !SystemOps R D C} `{RL : !RelayLib} (para : bool).
Abbreviation at_ := (if para then para_at else block_at).
Context `{FC : !FollowedChain R D C at_}.

Lemma if_true {A} (b : bool) (x y : A) : b = true -> (if b then x else y) = x.
Proof. by intros ->. Qed.
Lemma if_false {A} (b : bool) (x y : A) : b = false -> (if b then x else y) = y.
Proof. by intros ->. Qed.

(** The last block dispatched when all that relay chain block [tip] tells is *)
Definition last_block (tip : Z) : Z := if para then head_of tip else tip.

(** The blocks from [from] to [to] with their changes *)
Definition blocks_ok (from to : Z) (l : list BlockHeaderWithChanges) : Prop :=
  Z.of_nat (length l) = Z.max 0 (to + 1 - from) /\
  forall i b, l !! i = Some b -> h_number (bl_header b) = from + Z.of_nat i /\ bl_changes b = changes_at (from + Z.of_nat i).

(** A node that knows the blocks of a chain up to [tip] *)
Definition knows (chain : Z -> option Header) (tip : Z) (api : ChainApi) : Prop := forall n, 0 <= n <= tip -> exists h, chain n = Some h /\
  api_block_hash api n = Some (Some (header_hash h)) /\ api_header api (header_hash h) = Some (Some h).

(** The proof that block [n] of the relay chain has the head it has *)
Definition head_proved (n : Z) (hd : Header) (proof : StorageProof) : Prop := para_at (head_of n) = Some hd /\
  (0 < head_of n -> exists h, block_at n = Some h /\ trie_read (h_state_root h) proof heads_key = Some (Some (encode_head hd))).

Record honest_cache (tip : Z) (cache : CacheClient) : Prop := {
  hc_headers : forall n l, cc_get_headers cache n = Some l -> exists m, 0 < m <= tip /\
    submission (Z.max 0 (n - 1)) n m ((fun i => mkToSync (bi_header i) (bi_justification i)) <$> l);
  hc_para : forall n i ph, cc_get_headers cache n = Some [i] -> bi_para_header i = Some ph -> exists hd,
    ph_fin_header_num ph = head_of n /\ head_proved n hd (ph_proof ph);
  hc_para_headers : forall from count l, cc_get_parachain_headers cache from count = Some l -> l <> [] ->
    run_from para_at from l /\ Z.of_nat (length l) = count;
  hc_changes : forall from count l, cc_get_storage_changes cache from count = Some l -> blocks_ok from (from + count - 1) l;
}.

(** What nodes answer that know the chain up to relay chain block [tip] *)
Record honest (tip : Z) (env : RelayEnv) : Prop := {
  hn_tip : 0 <= tip;
  hn_relay : knows block_at tip (env_relay env);
  hn_para : knows at_ (last_block tip) (env_para env);
  hn_finalized : exists h, block_at tip = Some h /\ api_finalized_head (env_relay env) = Some (header_hash h);
  hn_finality : forall n h, 0 <= n <= tip -> 0 < tip -> block_at n = Some h -> exists m enc proof,
    api_prove_finality (env_relay env) n = Some enc /\ decode_finality_proof enc = Some proof /\ 0 < m <= tip /\
    submission (Z.max 0 (n - 1)) n m (with_justification (h :: fp_unknown_headers proof) (fp_justification proof));
  hn_heads : para = true -> forall n h, 0 <= n <= tip -> block_at n = Some h -> exists raw hd proof,
    api_paras_head (env_relay env) (header_hash h) = Some (Some raw) /\ decode_parachain_header raw = Some hd /\
    api_read_paras_proof (env_relay env) (header_hash h) = Some proof /\ head_proved n hd proof;
  hn_changes : forall from to h h', 1 <= from <= to -> to <= last_block tip -> at_ from = Some h -> at_ to = Some h' -> exists l,
    api_storage_changes (env_para env) (header_hash h) (header_hash h') = Some l /\
    Z.of_nat (length l) = to + 1 - from /\ forall i c, l !! i = Some c -> c = changes_at (from + Z.of_nat i);
  hn_prefetched : forall from to, exists r, env_prefetched env from to = Some r /\ forall l, r = Some l -> blocks_ok from to l;
  hn_cache : forall cache, env_cache env = Some cache -> honest_cache tip cache;
}.

(** ** A runtime in step with the chain, when its nodes know relay chain block [tip] *)
Record step_ok (tip : Z) (s : Synchronizer LightValidation) (t : TrieStorage D) : Prop := {
  so_kind : match s with Solo _ => para = false | Para _ => para = true end;
  so_bridge : bridge_at (main_bridge (sync_state_of s)) (Z.max 0 (header_number_next (sync_state_of s) - 1)) (validator (sync_state_of s));
  so_header : 0 <= header_number_next (sync_state_of s) <= tip + 1;
  so_state : state_at (block_next s - 1) t;
  so_para : match s with
    | Solo _ => True
    | Para p =>
        let last_header := header_number_next (pa_sync_state p) - 1 in
        0 <= last_header /\ para_header_number_next p <= head_of last_header + 1 /\
        match last_relaychain_state_root p with
        | Some r => exists h, block_at last_header = Some h /\ r = h_state_root h
        | None => head_of last_header = 0 \/ head_of last_header < para_header_number_next p
        end
    end;
}.

(** What comes from [w0] by processing the blocks of the chain, from the first on,
    each with its state, up to block [n] *)
Inductive worked (w0 : Work R C) : Z -> Work R C -> Prop :=
  | wo_start : worked w0 0 w0
  | wo_block n t w w' : worked w0 n w -> state_at (n + 1) t -> process_block (n + 1) t w = Some w' -> worked w0 (n + 1) w'.
(** A system that has processed the blocks of the chain so far does not panic on the
    next one. *)
Definition runs_on (w0 : Work R C) : Prop := forall n t w, worked w0 n w -> state_at (n + 1) t -> is_Some (process_block (n + 1) t w).

Definition worked_of (w0 : Work R C) (p : Phactory R D C) rt : Prop := exists sys, system p = Some sys /\
  (safe_mode_level p = 0 -> worked w0 (block_next (storage_synchronizer rt) - 1) (work_of p rt sys)).
Definition in_step (w0 : Work R C) (tip : Z) (p : Phactory R D C) : Prop :=
  follows at_ w0 p /\ exists rt, runtime_state p = Some rt /\ step_ok tip (storage_synchronizer rt) (chain_storage rt) /\ worked_of w0 p rt.

Lemma block_next_counter (s : Synchronizer LightValidation) : block_next s = next_block_number (counters s).
Proof. by destruct s. Qed.
(** Headers change nothing of what was processed. *)
Lemma worked_headers w0 (p p' : Phactory R D C) rt rt' : worked_of w0 p rt -> system p' = system p -> safe_mode_level p' = safe_mode_level p ->
  cluster_state_to_apply p' = cluster_state_to_apply p -> send_mq rt' = send_mq rt -> recv_mq rt' = recv_mq rt ->
  next_block_number (counters (storage_synchronizer rt')) = next_block_number (counters (storage_synchronizer rt)) -> worked_of w0 p' rt'.
Proof.
  intros (sys & Hs & Hw) E1 E2 E3 E4 E5 E6. exists sys. rewrite E1, E2. split; [done|]. intros Hl. specialize (Hw Hl). unfold work_of in *.
  by rewrite E3, E4, E5, block_next_counter, E6, <- block_next_counter.
Qed.

(** ** Headers *)

Lemma sync_header_in_step w0 tip p m hs : in_step w0 tip p -> 0 < m <= tip ->
  submission (Z.max 0 (pi_headernum (phactory_info p) - 1)) (pi_headernum (phactory_info p)) m hs ->
  exists p', rpc_sync_header hs p = Ok m p' /\ in_step w0 tip p' /\
    phactory_info p' = mkInfo (m + 1) (pi_para_headernum (phactory_info p)) (pi_blocknum (phactory_info p)).
Proof.
  intros (Hf & rt & Hrt & [K1 K2 K3 K4 K5] & Hwk) Hm Hsub. pose proof (safe_sync_header at_ w0 hs p Hf) as Hsafe. unfold phactory_info in *. rewrite Hrt in *.
  assert (exists s', ss_sync_header hs (storage_synchronizer rt) = Ok m s' /\ step_ok tip s' (chain_storage rt) /\
    counters s' = mkSyncCounters (m + 1) (next_para_header_number (counters (storage_synchronizer rt))) (next_block_number (counters (storage_synchronizer rt)))
      (waiting_for_paraheaders (counters s'))) as (s' & Es & Hs & Hc).
  { destruct Hf as (rt0 & r & Hri). pose proof (ri_runtime _ _ _ _ _ Hri) as E. rewrite Hrt in E. injection E as <-. pose proof (si_feed _ _ (ri_sync _ _ _ _ _ Hri)) as Hfeed.
    pose proof (fi_block _ _ _ _ _ Hfeed) as HB. clear Hri Hsafe.
    destruct (storage_synchronizer rt) as [[b roots]|[b rr pn roots]]; cbn in *; unfold ss_sync_header, as_dyn, solo_sync_header, para_sync_header.
    - destruct (sync_header_honest no_delay _ m hs (block_number_next b - 1) b roots Hsub K2) as (b' & hm & E & Hn & (S1 & S2 & S3) & Hb' & _).
      unfold get_st, expect, mbind, M_bind, with_roots, checked_sub. cbn [so_sync_state so_state_roots]. rewrite (proj2 (Z.leb_le _ _)) by lia. unfold mret, M_ret. cbn [so_sync_state so_state_roots]. rewrite E.
      eexists. split; [reflexivity|]. split; [|cbn; unfold solo_counters; cbn; by rewrite Hn, S2]. split; cbn; [done| |lia| |done].
      + rewrite Hn. by replace (Z.max 0 (m + 1 - 1)) with m by lia.
      + unfold block_next in *. cbn in *. by rewrite S2.
    - destruct (sync_header_honest no_delay _ m hs 0 b [] Hsub K2) as (b' & hm & E & Hn & (S1 & S2 & S3) & Hb' & Hl & Hbm). cbn [pa_sync_state]. rewrite E. cbn [app].
      rewrite filter_whole. 2: { apply Forall_lookup. intros i h Hi. rewrite (run_number block_at chain_linked _ _ _ _ (su_run _ _ _ _ Hsub) Hi). lia. }
      rewrite last_map, Hl. cbn [fmap option_fmap option_map]. destruct K5 as (K5 & K6 & _).
      eexists. split; [reflexivity|]. split; [|cbn; unfold para_counters; cbn; by rewrite Hn, S2]. split; cbn; [done| |lia| |].
      + rewrite Hn. by replace (Z.max 0 (m + 1 - 1)) with m by lia.
      + unfold block_next in *. cbn in *. by rewrite S2.
      + rewrite Hn. replace (m + 1 - 1) with m by lia. split; [lia|]. split; [|by exists hm].
        pose proof (su_after _ _ _ _ Hsub). pose proof (head_mono (header_number_next b - 1) m ltac:(lia)). lia. }
  assert (Er : rpc_sync_header hs p = Ok m (put_runtime (Some (mkRuntime (send_mq rt) (recv_mq rt) s' (chain_storage rt) (rt_para_id rt))) (put_can_load false p))).
  { unfold rpc_sync_header, modify, on_synchronizer, on_storage, mbind, M_bind. cbn. rewrite Hrt. by rewrite Es. }
  rewrite Er in Hsafe. eexists. split; [exact Er|]. split; [split; [exact Hsafe|]|cbn; rewrite Hc; done].
  eexists. split; [reflexivity|]. split; [done|]. eapply (worked_headers _ p _ rt); try done. cbn. by rewrite Hc.
Qed.

(** ** Parachain headers *)

Lemma sync_para_in_step w0 tip p hd l proof : para = true -> in_step w0 tip p ->
  let info := phactory_info p in let n := pi_headernum info - 1 in
  pi_para_headernum info <= head_of n -> 0 < head_of n -> head_proved n hd proof ->
  run_from para_at (pi_para_headernum info) l -> Z.of_nat (length l) = head_of n + 1 - pi_para_headernum info ->
  exists p', rpc_sync_para_header l proof p = Ok (head_of n) p' /\ in_step w0 tip p' /\
    phactory_info p' = mkInfo (pi_headernum info) (head_of n + 1) (pi_blocknum info).
Proof.
  intros Hp (Hf & rt & Hrt & [K1 K2 K3 K4 K5] & Hwk). cbn zeta. intros Hle Hpos [Hhd Hpr] Hr Hlen. pose proof (safe_sync_para at_ w0 l proof p Hf) as Hsafe.
  unfold phactory_info in *. rewrite Hrt in *. destruct Hf as (rt0 & r & Hri). pose proof (ri_runtime _ _ _ _ _ Hri) as E. rewrite Hrt in E. injection E as <-.
  pose proof (ri_key _ _ _ _ _ Hri) as Hk. pose proof (fi_next _ _ _ _ _ (si_feed _ _ (ri_sync _ _ _ _ _ Hri))) as H0. clear Hri.
  destruct (lk_number _ para_linked _ _ Hhd) as [Ehd Hw].
  assert (exists s', ss_sync_parachain_header l proof heads_key (storage_synchronizer rt) = Ok (head_of (next_header_number (counters (storage_synchronizer rt)) - 1)) s' /\
    step_ok tip s' (chain_storage rt) /\ counters s' = mkSyncCounters (next_header_number (counters (storage_synchronizer rt)))
      (head_of (next_header_number (counters (storage_synchronizer rt)) - 1) + 1) (next_block_number (counters (storage_synchronizer rt))) false) as (s' & Es & Hs & Hc).
  { destruct (storage_synchronizer rt) as [[b roots]|[b rr pn roots]]; cbn in *; [by rewrite K1 in Hp|]. destruct K5 as (K5 & K6 & K7).
    set (n := header_number_next b - 1) in *. destruct (Hpr Hpos) as (h & Hh & Ht). destruct rr as [rr|]; [|lia]. destruct K7 as (h' & Hh' & ->).
    rewrite Hh in Hh'. injection Hh' as <-. assert (Hall : Forall (fun h => pn <= h_number h) l).
    { apply Forall_lookup. intros i x Hi. rewrite (run_number para_at para_linked _ _ _ _ Hr Hi). lia. }
    assert (Hl : last l = Some hd).
    { rewrite last_lookup. destruct (l !! Nat.pred (length l)) as [x|] eqn:Ex.
      - pose proof (Hr _ _ Ex) as Hx. replace (pn + Z.of_nat (Nat.pred (length l))) with (head_of n) in Hx by lia. congruence.
      - apply lookup_ge_None in Ex. lia. }
    pose proof (run_chained para_at l para_linked pn Hr H0) as Hc. unfold ss_sync_parachain_header, as_dyn, para_sync_parachain_header, get_st, mbind, M_bind. cbn [para_header_number_next].
    rewrite (filter_whole _ _ Hall). destruct l as [|f l']; [done|]. rewrite Hl. pose proof (run_number para_at para_linked _ _ 0 f Hr eq_refl) as Ef.
    unfold ensure. rewrite (proj2 (Z.eqb_eq pn (h_number f))) by lia. unfold mret, M_ret. cbn [last_relaychain_state_root ok_or]. unfold mret, M_ret.
    unfold validate_storage_proof, light_validator, map_err, lv_validate_storage_proof. cbn [for_each].
    unfold validate_item, read_value, ok_or, ensure, mret, M_ret, mbind, M_bind. cbn [fst snd]. rewrite Ht, bool_decide_true by done. rewrite Hc.
    unfold modify. cbn [pa_sync_state para_state_roots]. rewrite Ehd, wrap_add_small by lia. eexists. split; [reflexivity|]. split; [|done]. split; cbn; [done..|].
    fold n. split; [lia|]. split; [lia|]. right. lia. }
  assert (Er : rpc_sync_para_header l proof p = Ok (head_of (next_header_number (counters (storage_synchronizer rt)) - 1)) (put_runtime (Some (mkRuntime (send_mq rt) (recv_mq rt) s' (chain_storage rt) (rt_para_id rt))) p)).
  { unfold rpc_sync_para_header, get_runtime, get_st, on_synchronizer, on_storage, mbind, M_bind. rewrite Hrt. cbn [ok_or]. unfold mret, M_ret. rewrite Hrt, Hk. cbn [fst snd]. by rewrite Es. }
  rewrite Er in Hsafe. eexists. split; [exact Er|]. split; [split; [exact Hsafe|]|cbn; rewrite Hc; done].
  eexists. split; [reflexivity|]. split; [done|]. eapply (worked_headers _ p _ rt); try done. cbn. by rewrite Hc.
Qed.

(** ** Blocks *)

(** The next header that is known, of the chain followed *)
Definition next_known (info : PhactoryInfo) : Z := if para then pi_para_headernum info else pi_headernum info.

Lemma linked_at : linked at_.
Proof. destruct para; [apply para_linked|apply chain_linked]. Qed.

Lemma next_root_known tip s t : step_ok tip s t ->
  next_root_of s = next_known (mkInfo (next_header_number (counters s)) (next_para_header_number (counters s)) (next_block_number (counters s))).
Proof. intros H. pose proof (so_kind _ _ _ H) as K. unfold next_known. destruct s; cbn in *; by rewrite K. Qed.

(** The block to be dispatched next is a block of the chain once its header is known. *)
Lemma next_block_at next (b : BlockSyncState LightValidation) roots (t : TrieStorage D) : feed_inv at_ next b roots t -> block_number_next b < next ->
  exists h, at_ (block_number_next b) = Some h.
Proof.
  intros [H1 H2 H3 H4 _] Hlt. unfold first_root in *. set (k := Z.to_nat (if genesis_state_validated b then 0 else 1)).
  destruct (roots !! k) as [r|] eqn:E; [|apply lookup_ge_None in E; subst k; destruct (genesis_state_validated b); lia].
  destruct (H3 k r E) as (h & Hh & _). exists h. rewrite <- Hh. f_equal. subst k. destruct (genesis_state_validated b); lia.
Qed.

Lemma feed_in_step tip s t block : step_ok tip s t -> sync_inv s t -> chain_of s = at_ -> h_number (bl_header block) = block_next s -> bl_changes block = changes_at (block_next s) ->
  block_next s < next_root_of s ->
  exists s' t', ss_feed_block block false (s, t) = Ok tt (s', t') /\ step_ok tip s' t' /\ state_at (block_next s) t' /\
    next_header_number (counters s') = next_header_number (counters s) /\ next_para_header_number (counters s') = next_para_header_number (counters s) /\
    next_block_number (counters s') = next_block_number (counters s) + 1.
Proof.
  intros [K1 K2 K3 K4 K5] Hi Hch Hn Hcg Hlt. pose proof (si_feed _ _ Hi) as Hf. rewrite Hch in Hf.
  assert (E1 : (feed_of s).1 = sync_state_of s) by (by destruct s). rewrite E1 in Hf. unfold block_next in *.
  destruct (next_block_at _ _ _ _ Hf Hlt) as (h & Hh). destruct (state_step (block_number_next (sync_state_of s) - 1) t h) as (tx & Ec & Hst); [by rewrite Z.sub_add|done|].
  rewrite Z.sub_add in Ec, Hst. rewrite <- Hcg in Ec.
  destruct (feed_block_honest at_ (next_root_of s) block _ _ t h tx Hf Hn Hlt Hh (state_trie _ _ K4) Ec) as (b' & roots' & Ef).
  pose proof (feed_block_inv at_ linked_at (next_root_of s) block _ _ t Hf) as Hinv. rewrite Ef in Hinv. destruct Hinv as (_ & _ & Hbn & (S1 & S2 & S3)).
  exists (put_feed (b', roots') s), (apply_changes (h_state_root h) tx t). split.
  - unfold ss_feed_block. cbn [fst snd]. rewrite (surjective_pairing (feed_of s)), E1, Ef. done.
  - split; [|split; [done|]].
    + destruct s as [[b roots]|[b rr pn roots]]; cbn in *; split; cbn; try done; rewrite ?S1, ?S2, ?S3; try done; unfold block_next; cbn; rewrite Hbn; by rewrite Z.add_simpl_r.
    + destruct s; cbn in *; rewrite ?S3, ?Hbn; done.
Qed.

Lemma dispatch_one_in_step w0 tip p block : runs_on w0 -> in_step w0 tip p -> let info := phactory_info p in
  h_number (bl_header block) = pi_blocknum info -> bl_changes block = changes_at (pi_blocknum info) -> pi_blocknum info < next_known info ->
  exists p', dispatch_one block p = Ok tt p' /\ in_step w0 tip p' /\
    phactory_info p' = mkInfo (pi_headernum info) (pi_para_headernum info) (pi_blocknum info + 1).
Proof.
  intros Hruns (Hf & rt & Hrt & Hs & sys & Esys & Hwk). cbn zeta. pose proof (safe_dispatch_one at_ w0 block p Hf) as Hsafe. unfold phactory_info. rewrite Hrt.
  rewrite <- (next_root_known _ _ _ Hs). cbn [pi_blocknum pi_headernum pi_para_headernum]. intros Hn Hcg Hlt.
  destruct Hf as (rt0 & r & Hri). pose proof (ri_runtime _ _ _ _ _ Hri) as E. rewrite Hrt in E. injection E as <-.
  assert (Eb : block_next (storage_synchronizer rt) = next_block_number (counters (storage_synchronizer rt))) by (by destruct (storage_synchronizer rt)).
  rewrite <- Eb in *. destruct (feed_in_step tip _ _ block Hs (ri_sync _ _ _ _ _ Hri) (ri_chain _ _ _ _ _ Hri) Hn Hcg Hlt) as (s' & t' & Ef & Hs' & Hst & C1 & C2 & C3).
  pose proof (ri_level _ _ _ _ _ Hri) as Hl. pose proof (ri_system _ _ _ _ _ Hri) as Hsys. pose proof (fi_block _ _ _ _ _ (si_feed _ _ (ri_sync _ _ _ _ _ Hri))) as HB.
  assert (HB' : 1 <= block_next (storage_synchronizer rt)) by (unfold block_next; destruct (storage_synchronizer rt); cbn in *; lia).
  rewrite Hsys in Esys. injection Esys as <-.
  assert (Ed : exists p' rt', dispatch_one block p = Ok tt p' /\ runtime_state p' = Some rt' /\ storage_synchronizer rt' = s' /\ chain_storage rt' = t' /\ worked_of w0 p' rt').
  { unfold dispatch_one, gets, on_storage, mbind, M_bind. rewrite Hrt, (proj2 (Z.ltb_ge 1 _)) by lia. rewrite Ef.
    assert (Enext : block_next s' - 1 = block_next (storage_synchronizer rt) - 1 + 1) by (rewrite block_next_counter, C3, <- Eb; lia).
    destruct (Z.ltb_spec 0 (safe_mode_level p)) as [Hlv|Hlv].
    - eexists _, _. split; [reflexivity|]. do 3 (split; [reflexivity|]). exists r. split; [done|]. cbn. lia.
    - specialize (Hwk ltac:(lia)). destruct (Hruns _ t' _ Hwk) as [w Ew]; [by rewrite Z.sub_add|].
      unfold get_runtime, get_st, ok_or, expect, modify, mret, M_ret, mbind, M_bind. cbn. rewrite Hsys, Hn. rewrite Z.sub_add in Ew. fold (work_of p rt r). rewrite Ew.
      eexists _, _. split; [reflexivity|]. do 3 (split; [reflexivity|]). exists (wk_system w). split; [done|]. intros _. cbn [storage_synchronizer put_work]. rewrite Enext.
      apply (wo_block _ _ t' (work_of p rt r)); [done|by rewrite Z.sub_add|]. rewrite Z.sub_add, Ew. by destruct w. }
  destruct Ed as (p' & rt' & Ed & Hrt' & Es' & Et' & Hwk'). rewrite Ed in Hsafe. exists p'. split; [done|]. split.
  - split; [exact Hsafe|]. exists rt'. split; [done|]. by rewrite Es', Et'.
  - rewrite Hrt', Es'. cbn. by rewrite C1, C2, C3, Eb.
Qed.

Lemma dispatch_in_step w0 tip p l to : runs_on w0 -> in_step w0 tip p -> let info := phactory_info p in
  blocks_ok (pi_blocknum info) to l -> pi_blocknum info - 1 <= to -> to < next_known info ->
  exists n p', dispatch_blocks l p = Ok n p' /\ in_step w0 tip p' /\ phactory_info p' = mkInfo (pi_headernum info) (pi_para_headernum info) (to + 1).
Proof.
  intros Hruns Hp. cbn zeta. intros [Hlen Hb] Hle Hto.
  assert (Hall : Forall (fun b => pi_blocknum (phactory_info p) <= h_number (bl_header b)) l) by (apply Forall_lookup; intros i b Hi; destruct (Hb i b Hi) as [-> _]; lia).
  assert (Hloop : exists p', for_each l dispatch_one p = Ok tt p' /\ in_step w0 tip p' /\
    phactory_info p' = mkInfo (pi_headernum (phactory_info p)) (pi_para_headernum (phactory_info p)) (to + 1)).
  { clear Hall. revert p Hp Hlen Hb Hle Hto. induction l as [|b l IH]; intros p Hp Hlen Hb Hle Hto; cbn in Hlen.
    - exists p. split; [done|]. split; [done|]. destruct (phactory_info p) as [a1 a2 a3] eqn:Ei. cbn in *. by replace (to + 1) with a3 by lia.
    - destruct (Hb 0%nat b eq_refl) as [Hn Hc]. rewrite Z.add_0_r in Hn, Hc. destruct (dispatch_one_in_step w0 tip p b Hruns Hp Hn Hc ltac:(lia)) as (p1 & E1 & Hp1 & I1).
      assert (Ek : next_known (phactory_info p1) = next_known (phactory_info p)) by (unfold next_known; by rewrite I1).
      destruct (IH p1 Hp1) as (p2 & E2 & Hp2 & I2); rewrite ?Ek, ?I1; cbn; [lia| |lia|lia|].
      { intros i x Hi. replace (pi_blocknum (phactory_info p) + 1 + Z.of_nat i) with (pi_blocknum (phactory_info p) + Z.of_nat (S i)) by lia. by apply (Hb (S i)). }
      exists p2. rewrite I1 in I2. cbn in I2. split; [|done]. cbn [for_each]. unfold mbind, M_bind. by rewrite E1. }
  destruct Hloop as (p' & E & Hp' & Hi). destruct Hp as (_ & rt & Hrt & Hs & _). unfold dispatch_blocks, get_runtime, get_st, mbind, M_bind. rewrite Hrt. cbn [ok_or]. unfold mret, M_ret.
  unfold phactory_info in Hall. rewrite Hrt in Hall. cbn in Hall. rewrite (filter_whole _ _ Hall), E. by eexists _, p'.
Qed.

(** ** What is fetched *)

Section fetch.
Variables (tip : Z) (env : RelayEnv).
Hypothesis He : honest tip env.

Lemma hash_honest chain k n api (p : Phactory R D C) : knows chain k api -> 0 <= n <= k -> exists h,
  chain n = Some h /\ get_header_hash api (Some n) p = Ok (header_hash h) p /\ api_header api (header_hash h) = Some (Some h).
Proof. intros Hk Hn. destruct (Hk n Hn) as (h & Hh & E1 & E2). exists h. split; [done|]. split; [|done]. unfold get_header_hash, mbind, M_bind. by rewrite E1. Qed.

Lemma number_changes_ok from to l : Z.of_nat (length l) = to + 1 - from -> 0 <= from -> to < 2 ^ 32 - 1 ->
  (forall i c, l !! i = Some c -> c = changes_at (from + Z.of_nat i)) -> blocks_ok from to (number_changes from ((fun c => (c, 0)) <$> l)).
Proof.
  intros Hlen Hf Ht Hl. assert (Hx : length (number_changes from ((fun c => (c, 0)) <$> l)) = length l /\ forall i b, number_changes from ((fun c => (c, 0)) <$> l) !! i = Some b ->
    h_number (bl_header b) = from + Z.of_nat i /\ bl_changes b = changes_at (from + Z.of_nat i)).
  { revert from Hlen Hf Hl. induction l as [|c l IH]; intros from Hlen Hf Hl; [done|]. cbn in Hlen. rewrite fmap_cons. cbn [number_changes].
    rewrite wrap_add_small by lia. destruct (IH (from + 1)) as [I1 I2]; [lia|lia| |].
    { intros i x Hi. rewrite (Hl (S i) x Hi). f_equal. lia. }
    split; [cbn; f_equal; exact I1|]. intros [|i] b Hb.
    - injection Hb as <-. cbn. rewrite (Hl 0%nat c eq_refl). split; [lia|f_equal; lia].
    - destruct (I2 i b Hb) as [E1 E2]. rewrite E1, E2. split; [lia|f_equal; lia]. }
  destruct Hx as [H1 H2]. split; [rewrite H1; lia|done].
Qed.

Lemma fetch_honest from to (p : Phactory R D C) : 1 <= from <= to -> to <= last_block tip -> exists l, fetch_storage_changes env from to p = Ok l p /\ blocks_ok from to l.
Proof.
  intros Hft Hto. destruct (hash_honest _ _ from _ p (hn_para _ _ He)) as (h & Hh & E1 & _); [lia|]. destruct (hash_honest _ _ to _ p (hn_para _ _ He)) as (h' & Hh' & E2 & _); [lia|].
  destruct (lk_number _ linked_at _ _ Hh') as [_ Hw]. unfold fetch_storage_changes, fetch_storage_changes_with_root_or_not. destruct (Z.ltb_spec to from); [lia|].
  destruct (env_cache env) as [cache|] eqn:Ec.
  - destruct (cc_get_storage_changes cache from _) as [l|] eqn:El.
    + exists l. split; [done|]. apply (hc_changes _ _ (hn_cache _ _ He _ Ec)) in El. rewrite wrap_add_small, wrap_sub_small in El by lia.
      by replace (from + (to + 1 - from) - 1) with to in El by lia.
    + destruct (hn_changes _ _ He from to h h' Hft Hto Hh Hh') as (l & E3 & Hlen & Hl). unfold mbind, M_bind. rewrite E1, E2, E3. cbn [ok_or]. unfold mret, M_ret.
      eexists. split; [reflexivity|]. apply number_changes_ok; [done|lia|lia|done].
  - destruct (hn_changes _ _ He from to h h' Hft Hto Hh Hh') as (l & E3 & Hlen & Hl). unfold mbind, M_bind. rewrite E1, E2, E3. cbn [ok_or]. unfold mret, M_ret.
    eexists. split; [reflexivity|]. apply number_changes_ok; [done|lia|lia|done].
Qed.

Lemma prefetch_honest client from to (p : Phactory R D C) : 1 <= from <= to -> to <= last_block tip -> exists l client', prefetch_storage_changes env client from to p = Ok (l, client') p /\ blocks_ok from to l.
Proof.
  intros Hft Hto. destruct (fetch_honest from to p Hft Hto) as (l & El & Hl). unfold prefetch_storage_changes. cbn zeta.
  assert (Hr : exists r, match client with Some state => if (state.1 =? from) && (state.2 =? to) then ok_or (env_prefetched env from to) ReJoin else mret None | None => mret None end p = Ok (S := Phactory R D C) (E := RelayError) r p /\
    forall l, r = Some l -> blocks_ok from to l).
  { destruct client as [[f t]|]; [|by exists None]. cbn [fst snd]. destruct ((f =? from) && (t =? to)); [|by exists None].
    destruct (hn_prefetched _ _ He from to) as (r & E & Hr). exists r. by rewrite E. }
  destruct Hr as (r & Er & Hr). unfold mbind at 1, M_bind at 1. rewrite Er. unfold mbind, M_bind. destruct r as [l'|].
  - eexists l', _. split; [reflexivity|]. by apply Hr.
  - rewrite El. by eexists l, _.
Qed.

Lemma sync_batches_honest w0 batch : runs_on w0 -> 1 <= batch -> forall fuel client from to p, in_step w0 tip p -> pi_blocknum (phactory_info p) = from ->
  1 <= from <= to + 1 -> to < next_known (phactory_info p) -> to <= last_block tip -> to + 1 - from <= Z.of_nat fuel ->
  exists p', sync_batches fuel env client from to batch p = Ok tt p' /\ in_step w0 tip p' /\
    phactory_info p' = mkInfo (pi_headernum (phactory_info p)) (pi_para_headernum (phactory_info p)) (to + 1).
Proof.
  intros Hruns Hbatch. induction fuel as [|fuel IH]; intros client from to p Hp HB Hf Hn Hto Hfuel; cbn [sync_batches].
  - exists p. split; [done|]. split; [done|]. destruct (phactory_info p) as [a1 a2 a3]. cbn in *. by replace (to + 1) with a3 by lia.
  - destruct (Z.ltb_spec to from).
    { exists p. split; [done|]. split; [done|]. destruct (phactory_info p) as [a1 a2 a3]. cbn in *. by replace (to + 1) with a3 by lia. }
    destruct (hn_para _ _ He to ltac:(lia)) as (h & Hh & _). destruct (lk_number _ linked_at _ _ Hh) as [_ Hw].
    set (batch_to := Z.min to (Z.min (2 ^ 32 - 1) (from + (batch - 1)))). assert (Hbt : from <= batch_to <= to) by lia.
    destruct (prefetch_honest client from batch_to p ltac:(lia) ltac:(lia)) as (l & client' & El & Hl).
    rewrite <- HB in Hl. destruct (dispatch_in_step w0 tip p l batch_to Hruns Hp Hl ltac:(lia) ltac:(lia)) as (n & p1 & Ed & Hp1 & I1).
    unfold mbind, M_bind, pr_call, map_err. rewrite El, Ed. destruct (decide (batch_to = to)) as [Eb|Eb].
    + exists p1. rewrite <- Eb. split; [|by rewrite I1]. destruct fuel; cbn [sync_batches]; [done|]. by rewrite (proj2 (Z.ltb_lt _ _)) by lia.
    + assert (Eq : batch_to + 1 = from + batch) by lia. destruct (IH client' (from + batch) to p1 Hp1) as (p2 & E2 & Hp2 & I2); [rewrite I1; cbn; lia|lia| |lia|lia|].
      { unfold next_known in *. by rewrite I1. }
      exists p2. split; [exact E2|]. split; [done|]. rewrite I2, I1. done.
Qed.

Lemma header_at_honest n (p : Phactory R D C) : 0 <= n <= tip -> exists h, block_at n = Some h /\ get_header_at (env_relay env) (Some n) p = Ok (h, header_hash h) p.
Proof.
  intros Hn. destruct (hash_honest _ _ n _ p (hn_relay _ _ He) Hn) as (h & Hh & E1 & E2). exists h. split; [done|].
  unfold get_header_at, mbind, M_bind. rewrite E1, E2. done.
Qed.
Lemma latest_honest (p : Phactory R D C) : exists h, h_number h = tip /\ get_header_at (env_relay env) None p = Ok (h, header_hash h) p.
Proof.
  destruct (hn_finalized _ _ He) as (h & Hh & Ef). destruct (hn_relay _ _ He tip) as (h' & Hh' & _ & E2); [pose proof (hn_tip _ _ He); lia|].
  rewrite Hh in Hh'. injection Hh' as <-. exists h. split; [by destruct (lk_number _ chain_linked _ _ Hh)|]. unfold get_header_at, get_header_hash, mbind, M_bind. rewrite Ef. cbn [ok_or]. unfold mret, M_ret. by rewrite E2.
Qed.
Lemma get_headers_honest n (p : Phactory R D C) : 0 <= n <= tip -> 0 < tip -> exists m hs, get_headers (env_relay env) n p = Ok hs p /\ 0 < m <= tip /\ submission (Z.max 0 (n - 1)) n m hs.
Proof.
  intros Hn Ht. destruct (header_at_honest n p Hn) as (h & Hh & E). destruct (hn_finality _ _ He n h Hn Ht Hh) as (m & enc & proof & E1 & E2 & Hm & Hs).
  exists m. eexists. split; [|by split]. unfold get_headers, mbind, M_bind. rewrite E, E1. cbn [ok_or]. unfold mret, M_ret. rewrite E2. done.
Qed.

Lemma para_head_honest n (p : Phactory R D C) : para = true -> 0 <= n <= tip -> exists hd proof,
  get_parachain_header_from_relaychain_at env n p = Ok (head_of n, proof) p /\ head_proved n hd proof.
Proof.
  intros Hp Hn. unfold get_parachain_header_from_relaychain_at. destruct (cached_para_header (env_cache env) n) as [ph|] eqn:Ec.
  - unfold cached_para_header in Ec. destruct (env_cache env) as [cache|] eqn:Ee; [|done].
    destruct (cc_get_headers cache n) as [[|i [|]]|] eqn:El; [done| |done|done]. cbn in Ec.
    destruct (hc_para _ _ (hn_cache _ _ He _ Ee) n i ph El Ec) as (hd & E & Hh). exists hd, (ph_proof ph). by rewrite E.
  - destruct (hash_honest _ _ n _ p (hn_relay _ _ He) Hn) as (h & Hh & E1 & _). destruct (hn_heads _ _ He Hp n h Hn Hh) as (raw & hd & proof & E2 & E3 & E4 & Hpr).
    exists hd, proof. split; [|done]. destruct Hpr as [Hhd _]. destruct (lk_number _ para_linked _ _ Hhd) as [Ehd _].
    unfold mbind, M_bind. rewrite E1. unfold get_finalized_header, mbind, M_bind. rewrite E2. cbn [ok_or]. unfold mret, M_ret. rewrite E3. cbn [ok_or]. unfold mret, M_ret. rewrite E4. cbn.
    unfold mret, M_ret. by rewrite Ehd.
Qed.

Lemma para_known n : para = true -> 0 <= n <= head_of tip -> exists h, para_at n = Some h /\
  api_block_hash (env_para env) n = Some (Some (header_hash h)) /\ api_header (env_para env) (header_hash h) = Some (Some h).
Proof.
  intros Hp Hn. destruct (hn_para _ _ He n) as (h & Hh & E1 & E2); [unfold last_block; by rewrite (if_true _ _ _ Hp)|]. exists h.
  by rewrite (if_true para para_at block_at Hp) in Hh.
Qed.
Lemma fetch_para_honest n : para = true -> forall from acc (p : Phactory R D C), 0 <= from -> from + Z.of_nat n <= head_of tip + 1 -> exists l,
  fetch_parachain_headers (env_para env) from n acc p = Ok (acc ++ l) p /\ run_from para_at from l /\ length l = n.
Proof.
  intros Hp. induction n as [|n IH]; intros from acc p Hf Hn; cbn [fetch_parachain_headers]; [exists []; rewrite app_nil_r; by split|].
  destruct (para_known from Hp ltac:(lia)) as (h & Hh & E1 & E2).
  destruct (IH (from + 1) (acc ++ [h]) p ltac:(lia) ltac:(lia)) as (l & El & Hr & Hl). exists (h :: l). split_and!.
  - unfold mbind, M_bind. rewrite E1. cbn [ok_or]. unfold mret, M_ret. rewrite E2. do 2 (cbn [ok_or]; unfold mret, M_ret). rewrite El, <- app_assoc. done.
  - intros [|i] x Hx; [injection Hx as <-; by rewrite Z.add_0_r|]. rewrite <- (Hr i x Hx). f_equal. lia.
  - cbn. by rewrite Hl.
Qed.
Lemma para_headers_honest from to (p : Phactory R D C) : para = true -> 0 <= from <= to -> to <= head_of tip -> exists l,
  get_parachain_headers env from to p = Ok l p /\ run_from para_at from l /\ Z.of_nat (length l) = to + 1 - from.
Proof.
  intros Hp Hft Hto. destruct (fetch_para_honest (Z.to_nat (to + 1 - from)) Hp from [] p ltac:(lia) ltac:(lia)) as (l & El & Hr & Hl).
  assert (Hw : to < 2 ^ 32 - 1).
  { destruct (para_known to Hp ltac:(lia)) as (h & Hh & _). apply (lk_number _ para_linked) in Hh as [_ ?]; lia. }
  unfold get_parachain_headers. destruct (env_cache env) as [cache|] eqn:Ec; [|exists l; split; [exact El|]; split; [done|lia]].
  destruct (cc_get_parachain_headers cache from _) as [[|x l']|] eqn:Eh; cbn [default]; [exists l; split; [exact El|]; split; [done|lia]| |exists l; split; [exact El|]; split; [done|lia]].
  destruct (hc_para_headers _ _ (hn_cache _ _ He _ Ec) _ _ _ Eh) as [Hr' Hl']; [done|]. exists (x :: l'). split; [done|]. split; [done|].
  rewrite Hl', wrap_sub_small, wrap_add_small by lia. lia.
Qed.
End fetch.

(** ** Rounds *)


(** Rounds that are left at most until a runtime has caught up with relay chain block [top] *)
Definition rounds_left (top : Z) (info : PhactoryInfo) : Z :=
  2 * (Z.max 0 (top + 1 - pi_headernum info) + Z.max 0 (head_of top + 1 - pi_para_headernum info)) +
  (if pi_blocknum info <? next_known info then 1 else 0).

Lemma in_step_info w0 tip p : in_step w0 tip p -> let info := phactory_info p in 0 <= pi_headernum info <= tip + 1 /\ 1 <= pi_blocknum info /\
  (para = true -> 1 <= pi_headernum info /\ 0 <= pi_para_headernum info <= head_of (pi_headernum info - 1) + 1).
Proof.
  intros ((rt0 & r & Hri) & rt & Hrt & [K1 K2 K3 K4 K5] & _). pose proof (ri_runtime _ _ _ _ _ Hri) as E. rewrite Hrt in E. injection E as <-.
  pose proof (si_feed _ _ (ri_sync _ _ _ _ _ Hri)) as Hf. pose proof (fi_block _ _ _ _ _ Hf). pose proof (fi_next _ _ _ _ _ Hf).
  unfold phactory_info. rewrite Hrt. destruct (storage_synchronizer rt) as [[b roots]|[b rr pn roots]]; cbn in *; (split; [done|]; split; [lia|]); [intros Hp; rewrite Hp in K1; discriminate K1|lia].
Qed.

(** Blocks whose headers are known are dispatched in one round. *)
Lemma block_round w0 tip env p sync_blocks : runs_on w0 -> honest tip env -> in_step w0 tip p -> 1 <= sync_blocks -> let info := phactory_info p in
  pi_blocknum info < next_known info -> exists p', batch_sync_storage_changes env (pi_blocknum info) (next_known info -[32] 1) sync_blocks p = Ok tt p' /\
    in_step w0 tip p' /\ phactory_info p' = mkInfo (pi_headernum info) (pi_para_headernum info) (next_known info).
Proof.
  intros Hruns He Hp Hsb. cbn zeta. intros Hlt. destruct (in_step_info w0 tip p Hp) as (HH & HB & HP).
  assert (Hlast : next_known (phactory_info p) - 1 <= last_block tip).
  { unfold next_known, last_block. destruct (bool_dec para true) as [E|E].
    - rewrite !(if_true _ _ _ E). destruct (HP E) as [H1 H2]. pose proof (head_mono (pi_headernum (phactory_info p) - 1) tip ltac:(lia)). lia.
    - apply not_true_iff_false in E. rewrite !(if_false _ _ _ E). lia. }
  destruct (hn_para _ _ He (next_known (phactory_info p) - 1) ltac:(lia)) as (h & Hh & _). destruct (lk_number _ linked_at _ _ Hh) as [_ Hw].
  rewrite wrap_sub_small by lia. unfold batch_sync_storage_changes. destruct (Z.eqb_spec sync_blocks 0); [lia|].
  destruct (sync_batches_honest tip env He w0 sync_blocks Hruns Hsb (Z.to_nat (next_known (phactory_info p) - 1 + 1 - pi_blocknum (phactory_info p))) None (pi_blocknum (phactory_info p)) (next_known (phactory_info p) - 1) p Hp eq_refl)
    as (p' & E & Hp' & I); [lia..|]. exists p'. split; [exact E|]. split; [done|]. by rewrite Z.sub_add in I.
Qed.

(** The parachain headers that the last relay chain header tells are synced in one round. *)
Lemma para_round w0 tip env p hd proof : honest tip env -> in_step w0 tip p -> para = true -> let info := phactory_info p in let n := pi_headernum info - 1 in
  head_proved n hd proof -> 0 < head_of n -> pi_para_headernum info <= head_of n -> exists p',
  sync_parachain_header env (head_of n) (pi_para_headernum info) proof p = Ok (head_of n) p' /\ in_step w0 tip p' /\
    phactory_info p' = mkInfo (pi_headernum info) (head_of n + 1) (pi_blocknum info).
Proof.
  intros He Hp E. cbn zeta. intros Hpr Hpos Hle. destruct (in_step_info w0 tip p Hp) as (HH & HB & HP). destruct (HP E) as [H1 H2].
  pose proof (head_mono (pi_headernum (phactory_info p) - 1) tip ltac:(lia)) as Hm. set (n := pi_headernum (phactory_info p) - 1) in *.
  assert (Hr0 : 0 <= pi_para_headernum (phactory_info p) <= head_of n) by lia.
  destruct (para_headers_honest tip env He (pi_para_headernum (phactory_info p)) (head_of n) p E Hr0 Hm) as (l & El & Hr & Hl).
  destruct (sync_para_in_step w0 tip p hd l proof E Hp Hle Hpos Hpr Hr Hl) as (p' & Es & Hp' & I). exists p'. split; [|by split].
  unfold sync_parachain_header. destruct (Z.ltb_spec (head_of n) (pi_para_headernum (phactory_info p))); [lia|]. unfold mbind, M_bind. rewrite El.
  destruct l; [cbn in Hl; lia|]. unfold pr_call, map_err. fold n in Es. by rewrite Es.
Qed.

(** What pherry decides to do next fits the runtime. *)
Definition op_ok (tip : Z) (info : PhactoryInfo) (op : SyncOperation) : Prop :=
  match op with
  | OpBlock => pi_blocknum info < next_known info
  | OpParachainHeader para_number proof => next_known info <= pi_blocknum info /\ para = true /\ para_number = head_of (pi_headernum info - 1) /\
      0 < head_of (pi_headernum info - 1) /\ pi_para_headernum info <= head_of (pi_headernum info - 1) /\ exists hd, head_proved (pi_headernum info - 1) hd proof
  | OpCachedRelaychainHeader l => next_known info <= pi_blocknum info /\ exists m, 0 < m <= tip /\
      submission (Z.max 0 (pi_headernum info - 1)) (pi_headernum info) m ((fun i => mkToSync (bi_header i) (bi_justification i)) <$> l)
  | OpRelaychainHeader => next_known info <= pi_blocknum info /\ pi_headernum info <= tip /\ 0 < tip
  | OpReachedChainTip => last_block tip < pi_blocknum info
  end.

Lemma operation_honest w0 tip env p : honest tip env -> in_step w0 tip p ->
  exists op, get_sync_operation env (phactory_info p) para p = Ok op p /\ op_ok tip (phactory_info p) op.
Proof.
  intros He Hp. destruct (in_step_info w0 tip p Hp) as (HH & HB & HP). set (info := phactory_info p) in *. unfold get_sync_operation. fold (next_known info).
  destruct (Z.ltb_spec (pi_blocknum info) (next_known info)) as [Hlt|Hge]; [by exists OpBlock|]. unfold mbind at 1, M_bind at 1.
  assert (Hq : exists q, (if para then '(para_number, proof) ← get_parachain_header_from_relaychain_at env (pi_headernum info -[32] 1);
       mret (if (0 <? para_number) && (pi_para_headernum info <=? para_number) then Some (para_number, proof) else None) else mret None) p = Ok (S := Phactory R D C) (E := RelayError) q p /\
    match q with
    | Some (para_number, proof) => op_ok tip info (OpParachainHeader para_number proof)
    | None => para = true -> head_of (pi_headernum info - 1) <= 0 \/ head_of (pi_headernum info - 1) < pi_para_headernum info
    end).
  { destruct (bool_dec para true) as [E|E]; [|apply not_true_iff_false in E; rewrite (if_false _ _ _ E); exists None; split; [done|]; intros E'; congruence].
    rewrite (if_true _ _ _ E). destruct (HP E) as [H1 H2]. destruct (hn_relay _ _ He (pi_headernum info - 1) ltac:(lia)) as (h & Hh & _). destruct (lk_number _ chain_linked _ _ Hh) as [_ Hw].
    rewrite wrap_sub_small by lia. destruct (para_head_honest tip env He (pi_headernum info - 1) p E ltac:(lia)) as (hd & proof & E1 & Hpr).
    unfold mbind, M_bind. rewrite E1. unfold mret, M_ret. eexists. split; [reflexivity|].
    destruct (Z.ltb_spec 0 (head_of (pi_headernum info - 1))); [|left; lia]. destruct (Z.leb_spec (pi_para_headernum info) (head_of (pi_headernum info - 1))); [|right; lia].
    cbn. split_and!; try done. by exists hd. }
  destruct Hq as (q & Eq & Hq). rewrite Eq. destruct q as [[pn proof]|]; [by eexists|].
  destruct (env_cache env ≫= _) as [l|] eqn:Ec.
  { eexists. split; [reflexivity|]. split; [done|]. destruct (env_cache env) as [cache|] eqn:Ee; [|done]. cbn in Ec. by apply (hc_headers _ _ (hn_cache _ _ He _ Ee)). }
  destruct (latest_honest tip env He p) as (h & Eh & El). unfold mbind, M_bind. rewrite El. unfold mret, M_ret. eexists. split; [reflexivity|]. rewrite Eh.
  destruct (Z.ltb_spec 0 tip) as [Ht|Ht]; [destruct (Z.leb_spec (pi_headernum info) tip)|]; cbn [andb]; [by split_and!| |].
  all: unfold op_ok, last_block, next_known in *; destruct (bool_dec para true) as [E|E];
    [rewrite !(if_true _ _ _ E) in *|apply not_true_iff_false in E; rewrite !(if_false _ _ _ E) in *; pose proof (hn_tip _ _ He); lia].
  all: destruct (HP E); replace (pi_headernum info - 1) with tip in * by lia; destruct (Hq E); lia.
Qed.

(** A round ends in a later state, or at the tip with every block dispatched. *)
Lemma round_in_step w0 tip top env p sync_blocks to_block : runs_on w0 -> honest tip env -> in_step w0 tip p -> tip <= top -> 1 <= sync_blocks ->
  exists r p', sync_round para sync_blocks to_block env p = Ok r p' /\ in_step w0 tip p' /\
    match r with
    | RoundSynced => rounds_left top (phactory_info p') < rounds_left top (phactory_info p)
    | RoundTip => last_block tip < pi_blocknum (phactory_info p')
    | RoundTarget => to_block <= pi_blocknum (phactory_info p')
    end.
Proof.
  intros Hruns He Hp Htop Hsb. destruct (in_step_info w0 tip p Hp) as (HH & HB & HP). pose proof (head_mono tip top Htop) as Hmt.
  unfold sync_round, gets, mbind, M_bind. destruct (operation_honest w0 tip env p He Hp) as (op & Eop & Hop). set (info := phactory_info p) in *.
  destruct (Z.leb_spec to_block (pi_blocknum info)); [exists RoundTarget, p; by split_and!|]. rewrite Eop.
  assert (Hheader : forall m (p' : Phactory R D C), 0 < m <= tip -> Z.max 0 (pi_headernum info - 1) < m -> next_known info <= pi_blocknum info ->
    phactory_info p' = mkInfo (m + 1) (pi_para_headernum info) (pi_blocknum info) -> rounds_left top (phactory_info p') < rounds_left top info).
  { intros m p' Hm Hle Hge I. rewrite I. unfold rounds_left at 2. rewrite (proj2 (Z.ltb_ge _ _) Hge). unfold rounds_left. cbn [pi_headernum pi_para_headernum]. destruct (_ <? _); lia. }
  destruct op as [|l|pn proof| |]; cbn [op_ok] in Hop.
  - destruct Hop as (Hge & Hle & Ht). destruct (get_headers_honest tip env He (pi_headernum info) p ltac:(lia) Ht) as (m & hs & Eh & Hm & Hs).
    destruct (sync_header_in_step w0 tip p m hs Hp Hm Hs) as (p' & E & Hp' & I). exists RoundSynced, p'. split; [|split; [done|]].
    + unfold sync_headers, mbind, M_bind, pr_call, map_err. by rewrite Eh, E.
    + eapply Hheader; [exact Hm| |done|exact I]. apply (su_after _ _ _ _ Hs).
  - destruct Hop as (Hge & m & Hm & Hs). destruct (sync_header_in_step w0 tip p m _ Hp Hm Hs) as (p' & E & Hp' & I). exists RoundSynced, p'. split; [|split; [done|]].
    + unfold sync_with_cached_headers, mbind, M_bind, pr_call, map_err. by rewrite E.
    + eapply Hheader; [exact Hm| |done|exact I]. apply (su_after _ _ _ _ Hs).
  - destruct Hop as (Hge & Ep & -> & Hpos & Hle & hd & Hpr). destruct (para_round w0 tip env p hd proof He Hp Ep Hpr Hpos Hle) as (p' & E & Hp' & I). fold info in E, I.
    exists RoundSynced, p'. rewrite E. split; [done|]. split; [done|]. rewrite I. unfold rounds_left at 2. rewrite (proj2 (Z.ltb_ge _ _) Hge). unfold rounds_left. cbn [pi_headernum pi_para_headernum].
    pose proof (head_mono (pi_headernum info - 1) tip ltac:(lia)). destruct (_ <? _); lia.
  - destruct (block_round w0 tip env p sync_blocks Hruns He Hp Hsb Hop) as (p' & E & Hp' & I). fold info in E, I. fold (next_known info). rewrite E. exists RoundSynced, p'. split; [done|].
    split; [done|]. rewrite I. unfold rounds_left at 2. rewrite (proj2 (Z.ltb_lt _ _) Hop). unfold rounds_left. cbn [pi_headernum pi_para_headernum pi_blocknum].
    change (next_known (mkInfo (pi_headernum info) (pi_para_headernum info) (next_known info))) with (next_known info). rewrite Z.ltb_irrefl. lia.
  - exists RoundTip, p. by split_and!.
Qed.

(** ** The loop *)

(** Rounds whose nodes know more and more of the chain, from block [tip] on, up to [top] at most *)
Inductive honest_rounds (top : Z) : Z -> list RelayEnv -> Prop :=
  | hr_end tip : honest_rounds top tip []
  | hr_round tip tip' env envs : tip <= tip' <= top -> honest tip' env -> honest_rounds top tip' envs -> honest_rounds top tip (env :: envs).

Lemma in_step_later w0 tip tip' p : tip <= tip' -> in_step w0 tip p -> in_step w0 tip' p.
Proof. intros Ht (Hf & rt & Hrt & [K1 K2 K3 K4 K5] & Hwk). split; [done|]. exists rt. split; [done|]. split; [|done]. split; try done. lia. Qed.
Lemma last_block_mono tip tip' : tip <= tip' -> last_block tip <= last_block tip'.
Proof. intros Ht. unfold last_block. pose proof (head_mono tip tip' Ht). destruct (bool_dec para true) as [E|E]; [by rewrite !(if_true _ _ _ E)|]. apply not_true_iff_false in E. by rewrite !(if_false _ _ _ E). Qed.
Lemma rounds_left_nonneg top info : 0 <= rounds_left top info.
Proof. unfold rounds_left. destruct (_ <? _); lia. Qed.

Lemma loop_in_step w0 top sync_blocks to_block : runs_on w0 -> 1 <= sync_blocks -> forall envs tip p, honest_rounds top tip envs -> in_step w0 tip p ->
  rounds_left top (phactory_info p) < Z.of_nat (length envs) ->
  exists r p', bridge_loop para sync_blocks to_block envs p = Ok r p' /\ in_step w0 top p' /\
    (r = RoundTip /\ last_block tip < pi_blocknum (phactory_info p') \/ r = RoundTarget /\ to_block <= pi_blocknum (phactory_info p')).
Proof.
  intros Hruns Hsb. induction envs as [|env envs IH]; intros tip p Hr Hp Hlen; [pose proof (rounds_left_nonneg top (phactory_info p)); cbn in Hlen; lia|].
  inversion Hr as [|? tip' ? ? Ht He Hr']; subst. apply (in_step_later _ _ tip') in Hp; [|lia].
  destruct (round_in_step w0 tip' top env p sync_blocks to_block Hruns He Hp ltac:(lia) Hsb) as (r & p1 & E & Hp1 & Hres). cbn [bridge_loop]. unfold mbind, M_bind. rewrite E.
  pose proof (last_block_mono tip tip' ltac:(lia)) as Hl. destruct r.
  - destruct (IH tip' p1 Hr' Hp1) as (r & p2 & E2 & Hf & Hd); [cbn in Hlen; lia|]. exists r, p2. split; [done|]. split; [done|]. destruct Hd as [[-> ?]|Hd]; [left|by right]. split; [done|lia].
  - exists RoundTip, p1. split; [done|]. split; [apply (in_step_later _ tip'); [lia|done]|]. left. split; [done|lia].
  - exists RoundTarget, p1. split; [done|]. split; [apply (in_step_later _ tip'); [lia|done]|]. by right.
Qed.

(** A runtime that was just initialised at a block of the relay chain, with the
    state of the genesis block, is in step. In a parachain's case the first
    relay chain block must be one before the parachain produced blocks. *)
Lemma init_in_step w0 genesis_header authority_set proof genesis_state (p0 p1 : Phactory R D C) rt :
  trusted_genesis genesis_header authority_set -> init_runtime_state para genesis_header authority_set proof genesis_state p0 = Ok rt p1 ->
  heads_key_of (rt_para_id rt) = heads_key -> 0 <= safe_mode_level p0 <= 1 -> state_at 0 (from_pairs genesis_state) ->
  (if para then head_of (h_number genesis_header) = 0 else h_number genesis_header = 0) ->
  in_step w0 (h_number genesis_header) (put_work rt w0 p0) /\
  phactory_info (put_work rt w0 p0) = mkInfo (if para then h_number genesis_header + 1 else 0) 0 1.
Proof.
  intros Hg Hi Hk Hl Hst Hhd. pose proof (init_follows at_ w0 _ _ _ _ _ _ _ _ Hg Hi Hk Hl eq_refl) as Hf. destruct Hg as [Hg Hset]. destruct (lk_number _ chain_linked _ _ Hg) as [_ Hw].
  unfold init_runtime_state in Hi. destruct (initialize_bridge _ _ _ _) as [bridge l|e l|] eqn:Ei; [|done..].
  assert (bridge = 1 /\ tracked_bridges l !! 1 = Some (mkBridge genesis_header authority_set)) as [-> Hb] by (by eapply initialize_bridge_run).
  unfold ensure, mret, M_ret, mbind, M_bind in Hi. destruct (para || _); [|done]. injection Hi as <- <-. destruct (bool_dec para true) as [E|E].
  - assert (Hh0 : head_of (h_number genesis_header) = 0) by (by rewrite (if_true _ _ _ E) in Hhd). clear Hhd. pose proof (wrap_add_small 32 (h_number genesis_header) 1 ltac:(lia)) as Ew.
    split; [split; [exact Hf|]|].
    + eexists. split; [reflexivity|]. cbn [storage_synchronizer put_work chain_storage wk_send_mq wk_recv_mq]. rewrite (if_true _ _ _ E). split; [|by exists (wk_system w0); split; [done|]; intros _; destruct w0; constructor]. split; cbn; rewrite ?Ew; try done; try lia.
      * replace (Z.max 0 (h_number genesis_header + 1 - 1)) with (h_number genesis_header) by lia. exists genesis_header. by rewrite <- Hset.
      * rewrite Z.add_simpl_r, Hh0. split; [lia|]. split; [lia|by left].
    + unfold phactory_info. cbn [put_work runtime_state storage_synchronizer]. rewrite !(if_true _ _ _ E). cbn. by rewrite Ew.
  - apply not_true_iff_false in E. assert (Hh0 : h_number genesis_header = 0) by (by rewrite (if_false _ _ _ E) in Hhd). clear Hhd. split; [split; [exact Hf|]|].
    + eexists. split; [reflexivity|]. cbn [storage_synchronizer put_work chain_storage wk_send_mq wk_recv_mq]. rewrite (if_false _ _ _ E). split; [|by exists (wk_system w0); split; [done|]; intros _; destruct w0; constructor]. split; cbn; try done; try lia.
      exists genesis_header. rewrite Hh0 in Hg, Hset. split; [exact Hg|]. etrans; [exact Hb|]. by rewrite Hset.
    + unfold phactory_info. cbn [put_work runtime_state storage_synchronizer]. by rewrite !(if_false _ _ _ E).
Qed.

End honest.

(** When the parachain node lacks some of the headers the relay chain tells, the
    code says that they are fetched the next turn; but it submits those it has,
    whose last is not the head that was proved, and the runtime refuses them. *)
Theorem partial_headers_refused {R D C : Type} `{CL : !ChainLib} `{HC : !HeaderCodec} `{TL : !TrieLib D} `{CS : !ChainStorageLib D} `{PL : !PlatformLib}
    `{SO : !SystemOps R D C} `{RL : !RelayLib} env (p : Phactory R D C) rt b root next roots number h l hl hd proof :
  runtime_state p = Some rt -> storage_synchronizer rt = Para (mkPara b (Some root) next roots) -> next <= number ->
  get_parachain_headers env next number p = Ok (h :: l) p -> h_number h = next -> Forall (fun x => next <= h_number x) l -> last (h :: l) = Some hl ->
  trie_read root proof (heads_key_of (rt_para_id rt)) = Some (Some (encode_head hd)) -> encode_head hd <> encode_head hl ->
  exists p', sync_parachain_header env number next proof p = Err (RePRuntime (SyncFailed (StorageProofFailed StorageValueMismatch))) p'.
Proof.
  intros Hrt Hs Hn Hg Hh Hall Hl Ht He. unfold sync_parachain_header. destruct (Z.ltb_spec number next); [lia|]. unfold mbind at 1, M_bind at 1. rewrite Hg.
  unfold pr_call, map_err, rpc_sync_para_header, get_runtime, get_st, on_synchronizer, on_storage, mbind, M_bind. rewrite Hrt. cbn [ok_or]. unfold mret, M_ret. rewrite Hrt, Hs.
  cbn [fst snd]. unfold ss_sync_parachain_header, as_dyn, para_sync_parachain_header, get_st, mbind, M_bind. cbn [para_header_number_next].
  rewrite filter_whole by (constructor; [lia|done]). rewrite Hl. unfold ensure. rewrite (proj2 (Z.eqb_eq next (h_number h))) by done. unfold mret, M_ret. cbn [last_relaychain_state_root ok_or]. unfold mret, M_ret.
  unfold validate_storage_proof, light_validator, map_err, lv_validate_storage_proof. cbn [for_each].
  unfold validate_item, read_value, ok_or, ensure, mret, M_ret, mbind, M_bind. cbn [fst snd]. rewrite Ht, bool_decide_false by done. by eexists.
Qed.

(** ** Messages: what is submitted of a queue in order starts with the next expected message. *)
Lemma submit_from_next min_seq limit messages : forall s0 count, (forall i m, messages !! i = Some m -> sequence m = s0 + Z.of_nat i) -> s0 <= min_seq ->
  exists k, (submit_from min_seq limit messages count).1.1 = take k (drop (Z.to_nat (min_seq - s0)) messages) /\
    (Z.to_nat (min_seq - s0) < length messages -> 1 <= k)%nat.
Proof.
  induction messages as [|m messages IH]; intros s0 count Hm Hs; [exists 0%nat; split; [by rewrite drop_nil|cbn; lia]|]. cbn [submit_from].
  pose proof (Hm 0%nat m eq_refl) as E. assert (Hm' : forall i x, messages !! i = Some x -> sequence x = s0 + 1 + Z.of_nat i) by (intros i x Hi; rewrite (Hm (S i) x Hi); lia).
  destruct (Z.ltb_spec (sequence m) min_seq).
  - destruct (IH (s0 + 1) count Hm' ltac:(lia)) as (k & Ek & Hk). exists k. replace (Z.to_nat (min_seq - s0)) with (S (Z.to_nat (min_seq - (s0 + 1)))) by lia. cbn. split; [done|lia].
  - replace (Z.to_nat (min_seq - s0)) with 0%nat by lia. rewrite drop_0. destruct (Z.leb_spec limit (count +[64] 1)); [exists 1%nat; split; [done|lia]|].
    assert (Hall : forall l s1 c, (forall i x, l !! i = Some x -> sequence x = s1 + Z.of_nat i) -> min_seq <= s1 -> exists k, (submit_from min_seq limit l c).1.1 = take k l).
    { clear. induction l as [|x l IH]; intros s1 c Hl Hs; [by exists 0%nat|]. cbn [submit_from]. rewrite (proj2 (Z.ltb_ge _ _)) by (rewrite (Hl 0%nat x eq_refl); lia).
      destruct (Z.leb_spec limit (c +[64] 1)); [by exists 1%nat|]. destruct (IH (s1 + 1) (c +[64] 1)) as [k Ek]; [intros i y Hi; rewrite (Hl (S i) y Hi); lia|lia|].
      exists (S k). destruct (submit_from min_seq limit l (c +[64] 1)) as [[l' c'] st]. cbn in *. by rewrite Ek. }
    destruct (Hall messages (s0 + 1) (count +[64] 1) Hm' ltac:(lia)) as [k Ek]. exists (S k). destruct (submit_from min_seq limit messages (count +[64] 1)) as [[l' c'] st]. cbn in *. rewrite Ek. split; [done|lia].
Qed.

(** ** A parachain of three blocks *)
Module PherryRuns.
#[local] Existing Instance toy_lib.
#[local] Existing Instance toy_finality.
#[local] Existing Instance toy_head_codec.
#[local] Existing Instance toy_para.
#[local] Existing Instance toy_trie.
#[local] Existing Instance toy_storage.
#[local] Existing Instance toy_platform.
#[local] Existing Instance toy_system.

#[local] Instance toy_relay : RelayLib := {|
  decode_finality_proof b := match b with [n] => Some (mkFinalityProof [2] (drop (Z.to_nat (n + 1)) toy_blocks)) | _ => None end;
  decode_parachain_header b := match b with [n] => toy_at n | _ => None end;
  h256_of_slice b := head b;
|}.
Definition toy_changes (n : Z) : StorageChanges := mkChanges [([100 + n], None)] [].
Definition number_of_hash (hash : H256) : Z := from_option h_number 0 (find (fun h => toy_hash h =? hash) toy_blocks).
Definition toy_api : ChainApi := mkApi (fun n => Some (toy_hash <$> toy_at n)) (Some (toy_hash block_2))
  (fun hash => Some (find (fun h => toy_hash h =? hash) toy_blocks)) (fun n => Some [n])
  (fun hash => Some (Some [if number_of_hash hash =? 0 then 0 else 2])) (fun _ => Some [])
  (fun from to => Some ((fun i => toy_changes (number_of_hash from + Z.of_nat i)) <$> seq 0 (Z.to_nat (number_of_hash to + 1 - number_of_hash from)))) (fun _ _ => None).
Definition toy_env : RelayEnv := mkEnv toy_api toy_api None (fun _ _ => Some None).

#[local] Instance toy_followed : FollowedChain (list Z) unit unit (if true then para_at else block_at).
Proof.
  refine {| state_at n t := 0 <= n <= 2 /\ t = mkTrie tt (100 + n); changes_at := toy_changes; head_of n := if n <=? 0 then 0 else 2 |}.
  - intros n t [Hn ->]. assert (n = 0 \/ n = 1 \/ n = 2) as [-> | [-> | ->]] by lia; eexists; (split; [reflexivity|done]).
  - intros n t h Hh [Hn ->]. apply toy_at_cases in Hh as [[E ->]|[[E ->]|[E ->]]]; [lia| |]; assert (n = 0 \/ n = 1) as [-> | ->] by lia; try lia; exists tt; done.
  - intros k h c _ E. by rewrite toy_no_change in E.
  - intros n. destruct (n <=? 0); lia.
  - intros n m Hn. destruct (Z.leb_spec n 0), (Z.leb_spec m 0); lia.
Defined.

Lemma toy_knows : knows toy_at 2 toy_api.
Proof. intros n Hn. assert (n = 0 \/ n = 1 \/ n = 2) as [-> | [-> | ->]] by lia; eexists; (split; [reflexivity|split; vm_compute; reflexivity]). Qed.
Lemma toy_finalizes a : finalizes a 2 block_2 [2].
Proof. split; [done|]. exists [(1, 1)]. split; [done|]. intros S s. vm_compute. reflexivity. Qed.
Lemma toy_run n : 0 <= n <= 2 -> run_from toy_at n (drop (Z.to_nat n) toy_blocks).
Proof. intros Hn i h Hi. rewrite lookup_drop in Hi. unfold toy_at. rewrite (proj2 (Z.ltb_ge _ _)) by lia. by replace (Z.to_nat (n + Z.of_nat i)) with (Z.to_nat n + i)%nat by lia. Qed.
Lemma toy_submission n h : 0 <= n <= 2 -> toy_at n = Some h ->
  submission (Z.max 0 (n - 1)) n 2 (with_justification (h :: drop (Z.to_nat (n + 1)) toy_blocks) [2]).
Proof.
  intros Hn Hh. pose proof (toy_run n Hn) as Hr. assert (n = 0 \/ n = 1 \/ n = 2) as [-> | [-> | ->]] by lia; injection Hh as <-;
    (split; [exact Hr|done|done|lia|]; exists (mkToSync block_2 (Some [2])), [2]; split; [done|]; split; [done|]; apply toy_finalizes).
Qed.
Lemma toy_honest : honest true (FC := toy_followed) 2 toy_env.
Proof.
  split; [lia|exact toy_knows|exact toy_knows|by exists block_2| | | |by eexists|done].
  - intros n h Hn _ Hh. exists 2, [n]. eexists. split; [done|]. split; [reflexivity|]. split; [lia|]. by apply toy_submission.
  - intros _ n h Hn Hh. assert (n = 0 \/ n = 1 \/ n = 2) as [-> | [-> | ->]] by lia; injection Hh as <-; eexists _, _, [].
    all: split; [vm_compute; reflexivity|]; split; [vm_compute; reflexivity|]; split; [reflexivity|]; split; [vm_compute; reflexivity|]; intros Hpos.
    + exfalso. by vm_compute in Hpos.
    + exists block_1. split; [done|]. vm_compute. reflexivity.
    + exists block_2. split; [done|]. vm_compute. reflexivity.
  - intros from to h h' Hf Ht Hh Hh'. assert (Hto : to <= 2) by exact Ht. assert (E : number_of_hash (toy_hash h) = from /\ number_of_hash (toy_hash h') = to).
    { assert (Hx : forall n x, toy_at n = Some x -> number_of_hash (toy_hash x) = n) by (intros n x [[-> ->]|[[-> ->]|[-> ->]]]%toy_at_cases; vm_compute; reflexivity). split; by apply Hx. }
    destruct E as [E1 E2]. eexists. split; [reflexivity|]. change (header_hash h) with (toy_hash h). change (header_hash h') with (toy_hash h'). rewrite E1, E2. split.
    + rewrite length_fmap, length_seq. lia.
    + intros i c Hi. apply list_lookup_fmap_Some in Hi as (j & -> & Hj). apply lookup_seq in Hj as [-> _]. by rewrite Nat.add_0_l.
Qed.

Definition para_runtime : RuntimeState unit := Eval vm_compute in
  match init_runtime_state true block_0 toy_set [[7]] [([100], [])] phactory_0 with Ok rt _ => rt | _ => runtime_0 end.
Lemma para_runtime_run : init_runtime_state true block_0 toy_set [[7]] [([100], [])] phactory_0 = Ok para_runtime phactory_0.
Proof. vm_compute. reflexivity. Qed.
Lemma toy_rounds n : honest_rounds true (FC := toy_followed) 2 2 (replicate n toy_env).
Proof. induction n as [|n IH]; [constructor|]. eapply hr_round; [|exact toy_honest|exact IH]. lia. Qed.

Lemma toy_runs : runs_on true (FC := toy_followed) work_0.
Proof. intros n t w _ _. destruct w as [r q d c]. destruct c; by eexists. Qed.

End PherryRuns.
