(* ===== verification/LocalAttest.v ===== *)
(** * Local attestation (crates/sgx-api-lite/src/lib.rs)

    An enclave asks the CPU for a report on itself that only another enclave of
    the same machine can check, by the key the CPU derives for that enclave.
    The structs of sys.rs are packed arrays of bytes, so a struct is its bytes
    and a field a range of them; [encode] is then the identity and [decode] a
    test of the length. The instructions EREPORT and EGETKEY and the CMAC of the
    aes and cmac crates are the class [SgxCpu], what Intel documents of them
    [SgxCpuLaws] and [LocalAttestation]. *)

From S2P Require Import Prelude MqTypes.

Definition field (offset size : nat) (b : bytes) : bytes := take size (drop offset b).
Definition zeroed (n : nat) : bytes := replicate n 0.

(** ** The layout of [sgx_report_t] and [sgx_target_info_t] *)

Definition size_of_report : nat := 432.
Definition size_of_target_info : nat := 512.

Definition rp_misc_select (r : bytes) : bytes := field 16 4 r.
Definition rp_attributes (r : bytes) : bytes := field 48 16 r.
Definition rp_mr_enclave (r : bytes) : bytes := field 64 32 r.
Definition rp_mr_signer (r : bytes) : bytes := field 128 32 r.
Definition rp_config_id (r : bytes) : bytes := field 192 64 r.
Definition rp_isv_prod_id (r : bytes) : bytes := field 256 2 r.
Definition rp_isv_svn (r : bytes) : bytes := field 258 2 r.
Definition rp_config_svn (r : bytes) : bytes := field 260 2 r.
Definition rp_report_data (r : bytes) : bytes := field 320 64 r.
Definition rp_body (r : bytes) : bytes := field 0 384 r.
Definition rp_key_id (r : bytes) : bytes := field 384 32 r.
Definition rp_mac (r : bytes) : bytes := field 416 16 r.

(** [sgx_report], [sgx_getkey] with a request for the report key of a key id
    ([None]: they do not return 0) and [Cmac::<Aes128>] *)
Class SgxCpu := {
  Enclave : Type;
  sgx_report : Enclave -> bytes -> bytes -> option bytes;
  sgx_getkey : Enclave -> bytes -> option bytes;
  cmac_aes128 : bytes -> bytes -> bytes;
}.

Section sgx_api_lite.
Context `{SC : !SgxCpu}.

Definition decode_report (data : bytes) : option bytes := if (length data =? size_of_report)%nat then Some data else None.
Definition decode_target_info (data : bytes) : option bytes := if (length data =? size_of_target_info)%nat then Some data else None.

Definition target_info_from_report (report : bytes) : bytes :=
  rp_mr_enclave report ++ rp_attributes report ++ zeroed 2 ++ rp_config_svn report ++ rp_misc_select report ++ zeroed 8 ++
  rp_config_id report ++ zeroed 384.

Definition target_info (e : Enclave) : option bytes :=
  report ← sgx_report e (zeroed size_of_target_info) (zeroed 64);
  Some (target_info_from_report report).

Definition la_report (e : Enclave) (remote_target_info reportdata : bytes) : option bytes :=
  sgx_report e remote_target_info reportdata.

Definition la_verify (e : Enclave) (report : bytes) : bool :=
  match sgx_getkey e (rp_key_id report) with
  | Some key => (length key =? 16)%nat && bool_decide (cmac_aes128 key (rp_body report) = rp_mac report)
  | None => false
  end.
End sgx_api_lite.

(** Intel SDM, EREPORT and EGETKEY: a report has the identity of the enclave
    that asked for it and the data it gave, and its MAC is under the report key
    of the enclave the target describes. *)
Class SgxCpuLaws `{SC : !SgxCpu} := {
  enclave_identity : Enclave -> bytes; (** a report's body up to its data *)
  sgx_report_total : forall e t rd, length t = size_of_target_info -> length rd = 64%nat -> is_Some (sgx_report e t rd);
  sgx_report_size : forall e t rd r, sgx_report e t rd = Some r -> length r = size_of_report;
  sgx_report_identity : forall e t rd r, sgx_report e t rd = Some r -> take 320 r = enclave_identity e;
  sgx_report_data : forall e t rd r, sgx_report e t rd = Some r -> rp_report_data r = rd;
  sgx_report_mac : forall e t rd r e', sgx_report e t rd = Some r -> t = target_info_from_report (enclave_identity e') ->
    exists key, sgx_getkey e' (rp_key_id r) = Some key /\ length key = 16%nat /\ cmac_aes128 key (rp_body r) = rp_mac r;
}.

(** Report keys never leave the CPU: a report that verifies is one the CPU made. *)
Class LocalAttestation `{SC : !SgxCpu} : Prop := {
  report_unforged : forall e r, length r = size_of_report -> la_verify e r = true ->
    exists e' t rd, sgx_report e' t rd = Some r;
}.

Section laws.
Context `{SL : SgxCpuLaws}.

Lemma field_take o n m (b : bytes) : (o + n <= m)%nat -> field o n (take m b) = field o n b.
Proof. intros H. unfold field. rewrite skipn_firstn_comm, take_take. f_equal. lia. Qed.

Lemma target_info_identity e t rd r :
  sgx_report e t rd = Some r -> target_info_from_report r = target_info_from_report (enclave_identity e).
Proof.
  intros H. rewrite <- (sgx_report_identity _ _ _ _ H).
  unfold target_info_from_report, rp_mr_enclave, rp_attributes, rp_config_svn, rp_misc_select, rp_config_id.
  by rewrite !field_take by lia.
Qed.

Lemma length_field o n (b : bytes) : (o + n <= length b)%nat -> length (field o n b) = n.
Proof. intros H. unfold field. rewrite length_take, length_drop. lia. Qed.

Lemma target_info_size r : length r = size_of_report -> length (target_info_from_report r) = size_of_target_info.
Proof.
  intros H. unfold size_of_report in H. unfold target_info_from_report, rp_mr_enclave, rp_attributes, rp_config_svn,
    rp_misc_select, rp_config_id, zeroed. rewrite !length_app, !length_replicate, !length_field by lia. done.
Qed.

Lemma target_info_total e : exists t, target_info e = Some t /\ t = target_info_from_report (enclave_identity e) /\ length t = size_of_target_info.
Proof.
  destruct (sgx_report_total e (zeroed size_of_target_info) (zeroed 64)) as [r Hr].
  { by unfold zeroed; rewrite length_replicate. } { by unfold zeroed; rewrite length_replicate. }
  exists (target_info_from_report r). unfold target_info. rewrite Hr. split; [done|]. split; [by eapply target_info_identity|].
  by eapply target_info_size, sgx_report_size.
Qed.

(** A report made for an enclave of the same machine verifies there. *)
Lemma local_report_verifies e e' rd t : length rd = 64%nat -> target_info e' = Some t ->
  exists r, la_report e t rd = Some r /\ decode_report r = Some r /\ la_verify e' r = true /\ rp_report_data r = rd /\
    take 320 r = enclave_identity e /\ length r = size_of_report.
Proof.
  intros Hrd Ht. destruct (target_info_total e') as (t' & Ht' & -> & Hl). simplify_eq.
  destruct (sgx_report_total e _ rd Hl Hrd) as [r Hr]. exists r.
  pose proof (sgx_report_size _ _ _ _ Hr) as Hs. destruct (sgx_report_mac _ _ _ _ _ Hr eq_refl) as (k & Hk & Hkl & Hm).
  split_and!; [done| | |by eapply sgx_report_data|by eapply sgx_report_identity|done].
  - unfold decode_report. by rewrite Hs.
  - unfold la_verify. rewrite Hk, Hkl. by apply bool_decide_eq_true.
Qed.
End laws.
