(* ===== verification/NodeKeys.v ===== *)
(** * The identity of a worker (crates/phactory/src/lib.rs and prpc_service.rs)

    A pRuntime keeps its identity key in a sealed file, generates it on the
    first start or is given it, and asks for remote attestation of the
    registration data only when the key can be trusted. [Node] is the process
    with that file: the [Phactory] of the chain-following part with the fields
    the keys need. What the platform, the clock and the random source answer to
    a call is its [CallEnv]. *)

From S2P Require Import Prelude MqTypes SendQueue Storage SgxQuote Attestation Registry Dispatcher KeyShare LightClient StorageSync Phactory LocalAttest.

(** SCALE codecs, derived by parity-scale-codec *)
Class Codec (A : Type) := { scale_encode : A -> bytes; scale_decode : bytes -> option A }.
Class CodecLaws (A : Type) `{!Codec A} : Prop := scale_roundtrip : forall x : A, scale_decode (scale_encode x) = Some x.

(** ** The data of crates/phala-types and of the sealed file *)

Record HandoverChallenge := mkChallenge {
  hc_sgx_target_info : bytes; hc_block_number : Z; hc_now : Z; hc_dev_mode : bool; hc_nonce : bytes }.
Record ChallengeHandlerInfo := mkHandler {
  ch_challenge : HandoverChallenge; ch_sgx_local_report : bytes; ch_ecdh_pubkey : EcdhPublicKey }.
Record DcapHandoverChallenge := mkDcapChallenge {
  dhc_sgx_target_info : bytes; dhc_block_number : Z; dhc_now : Z; dhc_dev_mode : bool; dhc_nonce : bytes; dhc_ntp_time_secs : Z }.
Record DcapChallengeHandlerInfo := mkDcapHandler { dch_challenge : DcapHandoverChallenge; dch_ecdh_pubkey : EcdhPublicKey }.
Record EncryptedWorkerKey := mkWorkerKey {
  ewk_genesis_block_hash : H256; ewk_para_id : Z; ewk_dev_mode : bool; ewk_encrypted_key : EncryptedKey }.
Record PersistentRuntimeData := mkRuntimeData {
  prd_genesis_block_hash : H256; prd_para_id : Z; prd_sk : Secret; prd_trusted_sk : bool; prd_dev_mode : bool }.
Inductive RuntimeDataSeal := SealV1 (data : PersistentRuntimeData).

#[global] Instance AttestationProvider_eq_dec : EqDecision AttestationProvider.
Proof. solve_decision. Defined.
#[global] Instance HandoverChallenge_eq_dec : EqDecision HandoverChallenge.
Proof. solve_decision. Defined.
#[global] Instance DcapHandoverChallenge_eq_dec : EqDecision DcapHandoverChallenge.
Proof. solve_decision. Defined.

(** [pb::Attestation] *)
Record NodeAttestation := mkNodeAttestation { na_provider : option AttestationProvider; na_encoded_report : bytes; na_timestamp : Z }.
(** [pb::InitRuntimeResponse]: the fields that change after the start *)
Record InitRuntimeResponse := mkInitResponse { ir_encoded_runtime_info : bytes; ir_attestation : option NodeAttestation }.

Inductive NodeError :=
  | NeRpc (e : RpcError)
  | NeRcuInProgress
  | NeDisabledInSafeMode
  | NeRequestDecode
  | NeAlreadyInitialized
  | NeBadDebugKey
  | NeSealFailed
  | NeUnsealFailed
  | NePersistentRuntimeNotFound
  | NeRuntimeDataDecode
  | NeGenesisMismatch
  | NeParaIdMismatch
  | NeRaDisallowed
  | NeQuoteTest
  | NeNoRuntimeInfo
  | NeCreateReport
  | NeAttestationNotFound
  | NeDecodeAttestation
  | NeInvalidRaReport
  | NeInvalidChallenge
  | NeInvalidLaReport
  | NeNoRemoteHandover
  | NeOutdatedChallenge
  | NeServerInfo
  | NeServerNotAllowed
  | NeClientNotAllowed
  | NeOldPRuntime
  | NeEncrypt
  | NeInvalidTargetInfo
  | NeCreateLaReport
  | NeNoEcdhKey
  | NeDecrypt
  | NeDcapNotEnabled
  | NeNts
  | NeBlockTooOld
  | NeInvalidNtpTime
  | NeInvalidHandler
  | NeInvalidKey.

(** What the world answers during one call *)
Record CallEnv := mkCallEnv {
  env_now : Z; (** [now()], seconds *)
  env_random : bytes; (** [generate_random_info()] or [generate_random_iv()] *)
  env_new_key : Pair; (** [new_sr25519_key()] *)
  env_attest : option AttestationProvider -> bytes -> nat -> option bytes; (** [create_attestation_report], by attempt *)
  env_quote_test : bool;
  env_seal_ok : bool; (** writing the sealed file *)
  env_unseal_ok : bool; (** reading it *)
  env_ntp : option Z; (** [nts_get_time_secs] *)
}.

(** Of [pal::Machine], [InitArgs] and [System] *)
Class NodeLib (R D : Type) := {
  machine_id : bytes;
  cpu_core_num : Z;
  cpu_feature_level : Z;
  ra_max_retries : nat;
  from_seed_slice : bytes -> option Pair;
  system_new : bool -> Pair -> MessageDispatcher -> R * MessageDispatcher;
  storage_pruntime_added_at : TrieStorage D -> bytes -> option Z;
}.

Record Node (R D C : Type) := mkNode {
  nd_phactory : Phactory R D C;
  nd_dev_mode : bool;
  nd_rcu_dispatching : bool;
  nd_runtime_info : option InitRuntimeResponse;
  nd_genesis_block_hash : H256; (** of the [runtime_state] *)
  nd_handover_ecdh_key : option Pair;
  nd_handover_last_challenge : option HandoverChallenge;
  nd_dcap_handover_last_challenge : option DcapHandoverChallenge;
  nd_sealed : option bytes; (** the file [RUNTIME_SEALED_DATA_FILE] *)
}.
Arguments mkNode {R D C}.
Arguments nd_phactory {R D C} n.
Arguments nd_dev_mode {R D C} n.
Arguments nd_rcu_dispatching {R D C} n.
Arguments nd_runtime_info {R D C} n.
Arguments nd_genesis_block_hash {R D C} n.
Arguments nd_handover_ecdh_key {R D C} n.
Arguments nd_handover_last_challenge {R D C} n.
Arguments nd_dcap_handover_last_challenge {R D C} n.
Arguments nd_sealed {R D C} n.

Section node.
Context {R D C : Type} `{CL : !ChainLib} `{HC : !HeaderCodec} `{TL : !TrieLib D} `{CS : !ChainStorageLib D} `{PL : !PlatformLib}
  `{SO : !SystemOps R D C} `{CR : !Crypto} `{NL : !NodeLib R D} `{!Codec RuntimeDataSeal} `{!Codec WorkerRegistrationInfoV2}.
Implicit Types n : Node R D C.
Abbreviation Nd := (M (Node R D C) NodeError).

Definition put_phactory (v : Phactory R D C) n : Node R D C :=
  mkNode v (nd_dev_mode n) (nd_rcu_dispatching n) (nd_runtime_info n) (nd_genesis_block_hash n) (nd_handover_ecdh_key n)
    (nd_handover_last_challenge n) (nd_dcap_handover_last_challenge n) (nd_sealed n).
Definition put_dev_mode (v : bool) n : Node R D C :=
  mkNode (nd_phactory n) v (nd_rcu_dispatching n) (nd_runtime_info n) (nd_genesis_block_hash n) (nd_handover_ecdh_key n)
    (nd_handover_last_challenge n) (nd_dcap_handover_last_challenge n) (nd_sealed n).
Definition put_runtime_info (v : option InitRuntimeResponse) n : Node R D C :=
  mkNode (nd_phactory n) (nd_dev_mode n) (nd_rcu_dispatching n) v (nd_genesis_block_hash n) (nd_handover_ecdh_key n)
    (nd_handover_last_challenge n) (nd_dcap_handover_last_challenge n) (nd_sealed n).
Definition put_genesis_hash (v : H256) n : Node R D C :=
  mkNode (nd_phactory n) (nd_dev_mode n) (nd_rcu_dispatching n) (nd_runtime_info n) v (nd_handover_ecdh_key n)
    (nd_handover_last_challenge n) (nd_dcap_handover_last_challenge n) (nd_sealed n).
Definition put_ecdh_key (v : option Pair) n : Node R D C :=
  mkNode (nd_phactory n) (nd_dev_mode n) (nd_rcu_dispatching n) (nd_runtime_info n) (nd_genesis_block_hash n) v
    (nd_handover_last_challenge n) (nd_dcap_handover_last_challenge n) (nd_sealed n).
Definition put_last_challenge (v : option HandoverChallenge) n : Node R D C :=
  mkNode (nd_phactory n) (nd_dev_mode n) (nd_rcu_dispatching n) (nd_runtime_info n) (nd_genesis_block_hash n)
    (nd_handover_ecdh_key n) v (nd_dcap_handover_last_challenge n) (nd_sealed n).
Definition put_dcap_last_challenge (v : option DcapHandoverChallenge) n : Node R D C :=
  mkNode (nd_phactory n) (nd_dev_mode n) (nd_rcu_dispatching n) (nd_runtime_info n) (nd_genesis_block_hash n)
    (nd_handover_ecdh_key n) (nd_handover_last_challenge n) v (nd_sealed n).
Definition put_sealed_data (v : option bytes) n : Node R D C :=
  mkNode (nd_phactory n) (nd_dev_mode n) (nd_rcu_dispatching n) (nd_runtime_info n) (nd_genesis_block_hash n)
    (nd_handover_ecdh_key n) (nd_handover_last_challenge n) (nd_dcap_handover_last_challenge n) v.
Definition put_trust (trusted : bool) (p : Phactory R D C) : Phactory R D C :=
  mkPhactory (can_load_chain_state p) (safe_mode_level p) trusted (attestation_provider p) (cluster_state_to_apply p) (runtime_state p) (system p).
Definition put_provider (prov : option AttestationProvider) (p : Phactory R D C) : Phactory R D C :=
  mkPhactory (can_load_chain_state p) (safe_mode_level p) (trusted_sk p) prov (cluster_state_to_apply p) (runtime_state p) (system p).

(** A call on the [Phactory] that this process holds *)
Definition on_phactory {A} (m : M (Phactory R D C) RpcError A) : Nd A := fun n =>
  match m (nd_phactory n) with
  | Ok a p => Ok a (put_phactory p n)
  | Err e p => Err (NeRpc e) (put_phactory p n)
  | Panic => Panic
  end.

Definition lock_phactory (allow_rcu allow_safemode : bool) : Nd unit :=
  n ← get_st;
  ensure (negb (negb allow_rcu && nd_rcu_dispatching n)) NeRcuInProgress;;
  ensure (negb (negb allow_safemode && (0 <? safe_mode_level (nd_phactory n)))) NeDisabledInSafeMode.

Definition current_block : Nd (Z * Z) :=
  rt ← on_phactory get_runtime;
  mret (saturating_sub (next_block_number (counters (storage_synchronizer rt))) 1, storage_timestamp (chain_storage rt)).

(** ** The sealed file *)

Definition save_runtime_data (env : CallEnv) (genesis_block_hash : H256) (para_id : Z) (sr25519_sk : Pair) (trusted_sk dev_mode : bool) :
    Nd PersistentRuntimeData :=
  let data := mkRuntimeData genesis_block_hash para_id (dump_secret_key sr25519_sk) trusted_sk dev_mode in
  ensure (env_seal_ok env) NeSealFailed;;
  modify (put_sealed_data (Some (scale_encode (SealV1 data))));;
  mret data.

Definition load_runtime_data (env : CallEnv) : Nd PersistentRuntimeData :=
  n ← get_st;
  ensure (env_unseal_ok env) NeUnsealFailed;;
  file ← ok_or (nd_sealed n) NePersistentRuntimeNotFound;
  '(SealV1 data) ← ok_or (scale_decode file) NeRuntimeDataDecode;
  mret data.

Definition init_runtime_data (env : CallEnv) (genesis_block_hash : H256) (para_id : Z) (predefined_identity_key : option Pair) :
    Nd PersistentRuntimeData :=
  data ←
    match predefined_identity_key with
    | Some identity_sk => save_runtime_data env genesis_block_hash para_id identity_sk false true
    | None => fun n =>
        match load_runtime_data env n with
        | Err NePersistentRuntimeNotFound n' => save_runtime_data env genesis_block_hash para_id (env_new_key env) true false n'
        | o => o
        end
    end;
  ensure (genesis_block_hash =? prd_genesis_block_hash data) NeGenesisMismatch;;
  ensure (para_id =? prd_para_id data) NeParaIdMismatch;;
  mret data.

(** ** Registration data and its attestation *)

(** The loop of [create_attestation_report_on] from attempt [tried], with [retries] to go *)
Fixpoint attest_loop (answer : nat -> option bytes) (tried retries : nat) : option bytes :=
  match answer tried with
  | Some r => Some r
  | None => match retries with O => None | S retries => attest_loop answer (S tried) retries end
  end.
Definition create_attestation_report_on (env : CallEnv) (provider : option AttestationProvider) (data : bytes) : Nd NodeAttestation :=
  encoded_report ← ok_or (attest_loop (env_attest env provider data) 0 ra_max_retries) NeCreateReport;
  mret (mkNodeAttestation provider encoded_report (env_now env)).

Definition compat_app_version : Z :=
  let '(major, minor, patch) := app_version in ((major *[32] 2 ^ 16) +[32] (minor *[32] 2 ^ 8)) +[32] patch.

Definition update_runtime_info (f : WorkerRegistrationInfoV2 -> WorkerRegistrationInfoV2) : Nd unit :=
  n ← get_st;
  match nd_runtime_info n with
  | None => mret tt
  | Some resp =>
      info ← expect (scale_decode (ir_encoded_runtime_info resp));
      let i := ri2_info info in
      let info := mkRegInfoV2 (mkRegInfo compat_app_version (ri_machine_id i) (ri_pubkey i) (ri_ecdh_pubkey i) (ri_genesis_block_hash i)
        (ri_features i) (ri_operator i)) (ri2_para_id info) MAX_SUPPORTED_CONSENSUS_VERSION in
      modify (put_runtime_info (Some (mkInitResponse (scale_encode (f info)) None)))
  end.

Definition put_ri_operator (operator : option Account) (info : WorkerRegistrationInfoV2) : WorkerRegistrationInfoV2 :=
  let i := ri2_info info in
  mkRegInfoV2 (mkRegInfo (ri_version i) (ri_machine_id i) (ri_pubkey i) (ri_ecdh_pubkey i) (ri_genesis_block_hash i)
    (ri_features i) operator) (ri2_para_id info) (ri2_max_consensus_version info).

Definition MAX_ATTESTATION_AGE : Z := 60 * 60.

Definition get_runtime_info (env : CallEnv) (refresh_ra : bool) (operator : option Account) : Nd InitRuntimeResponse :=
  lock_phactory true false;;
  n ← get_st;
  (if trusted_sk (nd_phactory n) then mret tt
   else _ ← ok_or (system (nd_phactory n)) (NeRpc RuntimeNotInitialized); mret tt);;
  on_phactory get_runtime;;
  let allowed := allow_attestation (nd_phactory n) in
  let reset_operator := bool_decide (is_Some operator) in
  (if reset_operator then update_runtime_info (put_ri_operator operator) else mret tt);;
  n ← get_st;
  cached_resp ← ok_or (nd_runtime_info n) NeNoRuntimeInfo;
  let attestation :=
    match ir_attestation cached_resp with
    | Some a => if refresh_ra || reset_operator || (na_timestamp a +[64] MAX_ATTESTATION_AGE <? env_now env) then None else Some a
    | None => None
    end in
  modify (put_runtime_info (Some (mkInitResponse (ir_encoded_runtime_info cached_resp) attestation)));;
  match allowed, attestation with
  | true, None =>
      report ← create_attestation_report_on env (attestation_provider (nd_phactory n)) (blake2_256_of (ir_encoded_runtime_info cached_resp));
      let resp := mkInitResponse (ir_encoded_runtime_info cached_resp) (Some report) in
      modify (put_runtime_info (Some resp));;
      mret resp
  | _, _ => mret (mkInitResponse (ir_encoded_runtime_info cached_resp) attestation)
  end.

(** ** [init_runtime] *)
Definition init_runtime (env : CallEnv) (is_parachain : bool) (genesis_header : Header) (authority_set : AuthoritySet) (proof : StorageProof)
    (genesis_state : list (bytes * bytes)) (operator : option Account) (debug_set_key : option bytes) (provider : option AttestationProvider) :
    Nd InitRuntimeResponse :=
  lock_phactory false false;;
  n ← get_st;
  ensure (match system (nd_phactory n) with None => true | Some _ => false end) NeAlreadyInitialized;;
  let genesis_block_hash := header_hash genesis_header in
  let para_id := storage_para_id (from_pairs genesis_state) in
  rt_data ←
    match debug_set_key with
    | Some raw_key =>
        priv_key ← ok_or (from_seed_slice raw_key) NeBadDebugKey;
        init_runtime_data env genesis_block_hash para_id (Some priv_key)
    | None => init_runtime_data env genesis_block_hash para_id None
    end;
  modify (put_dev_mode (prd_dev_mode rt_data));;
  modify (fun n => put_phactory (put_trust (prd_trusted_sk rt_data) (nd_phactory n)) n);;
  modify (fun n => put_phactory (put_provider provider (nd_phactory n)) n);;
  ensure (negb (prd_dev_mode rt_data && bool_decide (is_Some provider))) NeRaDisallowed;;
  ensure (env_quote_test env) NeQuoteTest;;
  let identity_key := restore_from_secret_key (prd_sk rt_data) in
  rt ← on_phactory (init_runtime_state is_parachain genesis_header authority_set proof genesis_state);
  let '(sys, recv_mq) := system_new (prd_dev_mode rt_data) identity_key (recv_mq rt) in
  let runtime_info := mkRegInfoV2 (mkRegInfo compat_app_version machine_id (public_of identity_key) (ecdh_public identity_key)
    genesis_block_hash [cpu_core_num; cpu_feature_level] operator) para_id MAX_SUPPORTED_CONSENSUS_VERSION in
  let resp := mkInitResponse (scale_encode runtime_info) None in
  modify (put_runtime_info (Some resp));;
  modify (put_genesis_hash genesis_block_hash);;
  modify (fun n => put_phactory (put_system (Some sys) (put_runtime
    (Some (mkRuntime (send_mq rt) recv_mq (storage_synchronizer rt) (chain_storage rt) (rt_para_id rt))) (nd_phactory n))) n);;
  mret resp.
End node.
