(* ===== verification/Handover.v ===== *)
(** * Handing a worker key over (crates/phactory/src/prpc_service.rs)

    A new version of pRuntime takes the identity of the old one over: the old
    one (the server) issues a challenge, the new one (the client) answers it
    with a fresh public key under attestation, and the server encrypts its
    identity key to it. The first protocol uses remote attestation reports of
    IAS, the second only local attestation and network time. *)

From S2P Require Import Prelude MqTypes SendQueue Storage SgxQuote Attestation Registry Dispatcher KeyShare LightClient StorageSync Phactory LocalAttest NodeKeys.

(** The messages: [pb::HandoverChallengeResponse], [pb::HandoverWorkerKey], [pb::DcapHandoverChallengeResponse], [pb::DcapHandoverWorkerKey] *)
Record ChallengeResponse := mkResponse { cr_encoded_challenge_handler : bytes; cr_attestation : option NodeAttestation }.
Record WorkerKeyMessage := mkKeyMessage { km_encoded_worker_key : bytes; km_attestation : option NodeAttestation }.
Record DcapChallengeResponse := mkDcapResponse { dcr_encoded_challenge_handler : bytes; dcr_la_report : bytes }.
Record DcapWorkerKeyMessage := mkDcapKeyMessage { dkm_encoded_worker_key : bytes; dkm_la_report : bytes }.

Definition CHALLENGE_BLOCKS : Z := 150.
Definition CLIENT_TIMEOUT_SECS : Z := 60.
Definition A_WEEK : Z := 7 * 24 * 60 * 60.

Section handover.
Context {R D C : Type} `{CL : !ChainLib} `{HC : !HeaderCodec} `{TL : !TrieLib D} `{CS : !ChainStorageLib D} `{PL : !PlatformLib}
  `{SO : !SystemOps R D C} `{CR : !Crypto} `{NL : !NodeLib R D} `{SC : !SgxCpu} `{SL : !SgxLib}
  `{!Codec RuntimeDataSeal} `{!Codec WorkerRegistrationInfoV2} `{!Codec HandoverChallenge} `{!Codec ChallengeHandlerInfo}
  `{!Codec DcapHandoverChallenge} `{!Codec DcapChallengeHandlerInfo} `{!Codec EncryptedWorkerKey} `{!Codec (option AttestationReport)}.
Variable self : Enclave. (** the enclave this process runs in *)
Implicit Types n : Node R D C.
Abbreviation Nd := (M (Node R D C) NodeError).

(** [validate_attestation_report(..).map_err(..)] and [IasFields::from_ias_report] *)
Definition from_att {A} (m : Att A) (e : NodeError) : Nd A := fun n =>
  match m tt with Ok a _ => Ok a n | Err _ _ => Err e n | Panic => Panic end.

Definition measurement_of (report : bytes) : bytes :=
  extend_mrenclave (mkIasFields (rp_mr_enclave report) (rp_mr_signer report) (rp_isv_prod_id report) (rp_isv_svn report) (zeroed 64) 0).

Definition my_measurement : Nd bytes :=
  t ← expect (target_info self);
  my_la_report ← expect (la_report self t (zeroed 64));
  mret (measurement_of my_la_report).

(** ** Challenges *)

Definition challenge_target_info : Nd bytes :=
  n ← get_st;
  if nd_dev_mode n then mret [] else expect (target_info self).

Definition get_worker_key_challenge (env : CallEnv) (block_number now : Z) : Nd HandoverChallenge :=
  sgx_target_info ← challenge_target_info;
  n ← get_st;
  let challenge := mkChallenge sgx_target_info block_number now (nd_dev_mode n) (env_random env) in
  modify (put_last_challenge (Some challenge));;
  mret challenge.

Definition get_dcap_worker_key_challenge (env : CallEnv) (block_number now ntp_time_secs : Z) : Nd DcapHandoverChallenge :=
  sgx_target_info ← challenge_target_info;
  n ← get_st;
  let challenge := mkDcapChallenge sgx_target_info block_number now (nd_dev_mode n) (env_random env) ntp_time_secs in
  modify (put_dcap_last_challenge (Some challenge));;
  mret challenge.

Definition verify_worker_key_challenge (challenge : HandoverChallenge) : Nd bool :=
  n ← get_st;
  modify (put_last_challenge None);;
  mret (bool_decide (nd_handover_last_challenge n = Some challenge)).

Definition dcap_verify_worker_key_challenge (challenge : DcapHandoverChallenge) : Nd bool :=
  n ← get_st;
  modify (put_dcap_last_challenge None);;
  mret (bool_decide (nd_dcap_handover_last_challenge n = Some challenge)).

(** ** Sharing the key: what both servers do once they trust the client *)
Definition share_worker_key (env : CallEnv) (ecdh_pubkey : EcdhPublicKey) (dev_mode : bool) : Nd EncryptedWorkerKey :=
  runtime_data ← load_runtime_data env;
  let my_identity_key := restore_from_secret_key (prd_sk runtime_data) in
  '(ecdh_pubkey, encrypted_key) ← ok_or (encrypt_secret_to my_identity_key [bs "worker_key_handover"] ecdh_pubkey
    (dump_secret_key my_identity_key) (env_random env)) NeEncrypt;
  rt ← on_phactory get_runtime;
  n ← get_st;
  mret (mkWorkerKey (nd_genesis_block_hash n) (rt_para_id rt) dev_mode (mkEncrypted ecdh_pubkey encrypted_key (env_random env))).

(** What both clients do with a key they trust *)
Definition accept_worker_key (env : CallEnv) (k : EncryptedWorkerKey) : Nd unit :=
  n ← get_st;
  my_ecdh_key ← ok_or (nd_handover_ecdh_key n) NeNoEcdhKey;
  secret ← ok_or (decrypt_secret_from my_ecdh_key (ek_ecdh_pubkey (ewk_encrypted_key k)) (ek_encrypted_key (ewk_encrypted_key k))
    (ek_iv (ewk_encrypted_key k))) NeDecrypt;
  save_runtime_data env (ewk_genesis_block_hash k) (ewk_para_id k) (restore_from_secret_key secret) false (ewk_dev_mode k);;
  modify (put_runtime_info None);;
  modify (put_ecdh_key None).

(** ** The protocol with IAS *)

Definition handover_create_challenge (env : CallEnv) : Nd HandoverChallenge :=
  lock_phactory false true;;
  '(block, ts) ← current_block;
  get_worker_key_challenge env block ts.

(** The hash of the pRuntime that answers, from its report *)
Definition client_runtime_hash (attestation : option AttestationReport) : Nd bytes :=
  attestation ← ok_or attestation NeAttestationNotFound;
  match attestation with
  | SgxIas ra_report _ _ =>
      '(ias_fields, _) ← from_att (from_ias_report ra_report) NeInvalidRaReport;
      mret (extend_mrenclave ias_fields)
  | SgxDcap _ _ => panic
  end.

Definition handover_start (env : CallEnv) (request : ChallengeResponse) : Nd WorkerKeyMessage :=
  lock_phactory false true;;
  n ← get_st;
  let provider := attestation_provider (nd_phactory n) in
  let dev_mode := nd_dev_mode n in
  let in_sgx := bool_decide (provider = Some ProvIas) in
  '(block_number, now_ms) ← current_block;
  challenge_handler ← ok_or (scale_decode (cr_encoded_challenge_handler request) : option ChallengeHandlerInfo) NeRequestDecode;
  let block_sec := now_ms / 1000 in
  attestation ←
    (if negb dev_mode && in_sgx then
       let payload_hash := blake2_256_of (scale_encode challenge_handler) in
       raw_attestation ← ok_or (cr_attestation request) NeAttestationNotFound;
       attn_to_validate ← ok_or (scale_decode (na_encoded_report raw_attestation) : option (option AttestationReport)) NeDecodeAttestation;
       from_att (attestation_validate attn_to_validate payload_hash block_sec false [] false) NeInvalidRaReport;;
       mret attn_to_validate
     else mret None);
  let challenge := ch_challenge challenge_handler in
  valid ← verify_worker_key_challenge challenge;
  ensure valid NeInvalidChallenge;;
  (if negb dev_mode && in_sgx then
     recv_local_report ← ok_or (decode_report (ch_sgx_local_report challenge_handler)) NeInvalidLaReport;
     ensure (la_verify self recv_local_report) NeNoRemoteHandover
   else mret tt);;
  let challenge_height := hc_block_number challenge in
  ensure ((challenge_height <=? block_number) && (block_number - challenge_height <=? CHALLENGE_BLOCKS)) NeOutdatedChallenge;;
  (if negb dev_mode && in_sgx then
     t ← expect (target_info self);
     my_la_report ← ok_or (la_report self t (zeroed 64)) NeServerInfo;
     rt ← on_phactory get_runtime;
     my_runtime_timestamp ← ok_or (storage_pruntime_added_at (chain_storage rt) (measurement_of my_la_report)) NeServerNotAllowed;
     runtime_hash ← client_runtime_hash attestation;
     req_runtime_timestamp ← ok_or (storage_pruntime_added_at (chain_storage rt) runtime_hash) NeClientNotAllowed;
     ensure (negb (req_runtime_timestamp <=? my_runtime_timestamp)) NeOldPRuntime
   else mret tt);;
  encrypted_worker_key ← share_worker_key env (ch_ecdh_pubkey challenge_handler) dev_mode;
  let worker_key_hash := blake2_256_of (scale_encode encrypted_worker_key) in
  attestation ←
    (if negb dev_mode && in_sgx then Some <$> create_attestation_report_on env provider worker_key_hash else mret None);
  mret (mkKeyMessage (scale_encode encrypted_worker_key) attestation).

Definition handover_accept_challenge (env : CallEnv) (encoded_challenge : bytes) : Nd ChallengeResponse :=
  lock_phactory false true;;
  let handover_ecdh_key := env_new_key env in
  modify (put_ecdh_key (Some handover_ecdh_key));;
  challenge ← ok_or (scale_decode encoded_challenge : option HandoverChallenge) NeRequestDecode;
  let dev_mode := hc_dev_mode challenge in
  sgx_local_report ←
    (if negb dev_mode then
       its_target_info ← ok_or (decode_target_info (hc_sgx_target_info challenge)) NeInvalidTargetInfo;
       ok_or (la_report self its_target_info (zeroed 64)) NeCreateLaReport
     else mret []);
  let challenge_handler := mkHandler challenge sgx_local_report (ecdh_public handover_ecdh_key) in
  let handler_hash := blake2_256_of (scale_encode challenge_handler) in
  attestation ← (if negb dev_mode then Some <$> create_attestation_report_on env (Some ProvIas) handler_hash else mret None);
  mret (mkResponse (scale_encode challenge_handler) attestation).

Definition handover_receive (env : CallEnv) (request : WorkerKeyMessage) : Nd unit :=
  lock_phactory false true;;
  encrypted_worker_key ← ok_or (scale_decode (km_encoded_worker_key request) : option EncryptedWorkerKey) NeRequestDecode;
  (if negb (ewk_dev_mode encrypted_worker_key) then
     let worker_key_hash := blake2_256_of (scale_encode encrypted_worker_key) in
     raw_attestation ← ok_or (km_attestation request) NeAttestationNotFound;
     attn_to_validate ← ok_or (scale_decode (na_encoded_report raw_attestation) : option (option AttestationReport)) NeDecodeAttestation;
     from_att (attestation_validate attn_to_validate worker_key_hash (env_now env) false [] false) NeInvalidRaReport;;
     mret tt
   else mret tt);;
  accept_worker_key env encrypted_worker_key.

(** ** The protocol with local attestation *)

(** The network time is asked for with the servers of the chain storage, before the phactory is locked again. *)
Definition network_time (env : CallEnv) : Nd Z :=
  lock_phactory false true;;
  on_phactory get_runtime;;
  ok_or (env_ntp env) NeNts.

Definition dcap_handover_create_challenge (env : CallEnv) : Nd DcapHandoverChallenge :=
  ntp_time_secs ← network_time env;
  lock_phactory false true;;
  n ← get_st;
  ensure (bool_decide (attestation_provider (nd_phactory n) = Some ProvDcap)) NeDcapNotEnabled;;
  '(block, block_time_ms) ← current_block;
  ensure (negb (block_time_ms / 1000 +[64] A_WEEK <? ntp_time_secs)) NeBlockTooOld;;
  get_dcap_worker_key_challenge env block block_time_ms ntp_time_secs.

Definition dcap_handover_start (env : CallEnv) (request : DcapChallengeResponse) : Nd DcapWorkerKeyMessage :=
  ntp_now ← network_time env;
  lock_phactory false true;;
  n ← get_st;
  ensure (bool_decide (attestation_provider (nd_phactory n) = Some ProvDcap)) NeDcapNotEnabled;;
  let dev_mode := nd_dev_mode n in
  challenge_handler ← ok_or (scale_decode (dcr_encoded_challenge_handler request) : option DcapChallengeHandlerInfo) NeRequestDecode;
  let challenge := dch_challenge challenge_handler in
  valid ← dcap_verify_worker_key_challenge challenge;
  ensure valid NeInvalidChallenge;;
  ensure (negb ((ntp_now <? dhc_ntp_time_secs challenge) || (CLIENT_TIMEOUT_SECS <? ntp_now - dhc_ntp_time_secs challenge))) NeInvalidNtpTime;;
  recv_local_report ← ok_or (decode_report (dcr_la_report request)) NeInvalidLaReport;
  ensure (la_verify self recv_local_report) NeNoRemoteHandover;;
  let handler_hash := blake2_256_of (dcr_encoded_challenge_handler request) in
  ensure (bool_decide (handler_hash = take 32 (rp_report_data recv_local_report))) NeInvalidHandler;;
  (if negb dev_mode then
     rt ← on_phactory get_runtime;
     mine ← my_measurement;
     my_runtime_timestamp ← ok_or (storage_pruntime_added_at (chain_storage rt) mine) NeServerNotAllowed;
     req_runtime_timestamp ← ok_or (storage_pruntime_added_at (chain_storage rt) (measurement_of recv_local_report)) NeClientNotAllowed;
     ensure (negb (req_runtime_timestamp <=? my_runtime_timestamp)) NeOldPRuntime
   else mret tt);;
  encrypted_worker_key ← share_worker_key env (dch_ecdh_pubkey challenge_handler) dev_mode;
  let worker_key_hash := blake2_256_of (scale_encode encrypted_worker_key) in
  report ← ok_or (la_report self (target_info_from_report recv_local_report) (worker_key_hash ++ zeroed 32)) NeCreateLaReport;
  mret (mkDcapKeyMessage (scale_encode encrypted_worker_key) report).

Definition dcap_handover_accept_challenge (env : CallEnv) (encoded_challenge : bytes) : Nd DcapChallengeResponse :=
  lock_phactory false true;;
  let handover_ecdh_key := env_new_key env in
  modify (put_ecdh_key (Some handover_ecdh_key));;
  challenge ← ok_or (scale_decode encoded_challenge : option DcapHandoverChallenge) NeRequestDecode;
  let challenge_handler := mkDcapHandler challenge (ecdh_public handover_ecdh_key) in
  let handler_hash := blake2_256_of (scale_encode challenge_handler) in
  its_target_info ← ok_or (decode_target_info (dhc_sgx_target_info challenge)) NeInvalidTargetInfo;
  report ← ok_or (la_report self its_target_info (handler_hash ++ zeroed 32)) NeCreateLaReport;
  mret (mkDcapResponse (scale_encode challenge_handler) report).

Definition dcap_handover_receive (env : CallEnv) (request : DcapWorkerKeyMessage) : Nd unit :=
  lock_phactory false true;;
  encrypted_worker_key ← ok_or (scale_decode (dkm_encoded_worker_key request) : option EncryptedWorkerKey) NeRequestDecode;
  let worker_key_hash := blake2_256_of (scale_encode encrypted_worker_key) in
  report ← ok_or (decode_report (dkm_la_report request)) NeInvalidLaReport;
  ensure (la_verify self report) NeInvalidLaReport;;
  ensure (bool_decide (worker_key_hash = take 32 (rp_report_data report))) NeInvalidKey;;
  accept_worker_key env encrypted_worker_key.
End handover.

(** * Histories of a worker process

    All calls that touch the identity of a worker, and those that follow the
    chain, in any order and with any arguments, and restarts that keep only the
    sealed file. A history logs each call with the state it found and what it
    returned, newest first. *)

Inductive NodeCall :=
  | NcInit (is_parachain : bool) (genesis_header : Header) (authority_set : AuthoritySet) (proof : StorageProof)
      (genesis_state : list (bytes * bytes)) (operator : option Account) (debug_set_key : option bytes) (provider : option AttestationProvider)
  | NcGetRuntimeInfo (refresh_ra : bool) (operator : option Account)
  | NcCreateChallenge
  | NcStart (request : ChallengeResponse)
  | NcAcceptChallenge (encoded_challenge : bytes)
  | NcReceive (request : WorkerKeyMessage)
  | NcDcapCreateChallenge
  | NcDcapStart (request : DcapChallengeResponse)
  | NcDcapAcceptChallenge (encoded_challenge : bytes)
  | NcDcapReceive (request : DcapWorkerKeyMessage)
  | NcSyncHeader (headers : list HeaderToSync)
  | NcSyncParaHeader (headers : list Header) (proof : StorageProof)
  | NcSyncCombined (relaychain_headers : list HeaderToSync) (parachain_headers : list Header) (proof : StorageProof)
  | NcDispatchBlocks (blocks : list BlockHeaderWithChanges)
  | NcLoadChainState (block : Z) (storage : list (bytes * bytes)).

Inductive NodeOut :=
  | OutDone
  | OutInfo (r : InitRuntimeResponse)
  | OutChallenge (c : HandoverChallenge)
  | OutResponse (r : ChallengeResponse)
  | OutKey (k : WorkerKeyMessage)
  | OutDcapChallenge (c : DcapHandoverChallenge)
  | OutDcapResponse (r : DcapChallengeResponse)
  | OutDcapKey (k : DcapWorkerKeyMessage).

(** [None]: the call returned an error *)
Record NodeEvent (R D C : Type) := mkEvent { ev_node : Node R D C; ev_env : CallEnv; ev_call : NodeCall; ev_out : option NodeOut }.
Arguments mkEvent {R D C}.
Arguments ev_node {R D C} n.
Arguments ev_env {R D C} n.
Arguments ev_call {R D C} n.
Arguments ev_out {R D C} n.

Section history.
Context {R D C : Type} `{CL : !ChainLib} `{HC : !HeaderCodec} `{TL : !TrieLib D} `{CS : !ChainStorageLib D} `{PL : !PlatformLib}
  `{SO : !SystemOps R D C} `{CR : !Crypto} `{NL : !NodeLib R D} `{SC : !SgxCpu} `{SL : !SgxLib}
  `{!Codec RuntimeDataSeal} `{!Codec WorkerRegistrationInfoV2} `{!Codec HandoverChallenge} `{!Codec ChallengeHandlerInfo}
  `{!Codec DcapHandoverChallenge} `{!Codec DcapChallengeHandlerInfo} `{!Codec EncryptedWorkerKey} `{!Codec (option AttestationReport)}.
Variable self : Enclave.
Implicit Types n : Node R D C.
Abbreviation Nd := (M (Node R D C) NodeError).

Definition node_exec (env : CallEnv) (c : NodeCall) : Nd NodeOut :=
  match c with
  | NcInit b h a p g o d v => OutInfo <$> init_runtime env b h a p g o d v
  | NcGetRuntimeInfo r o => OutInfo <$> get_runtime_info env r o
  | NcCreateChallenge => OutChallenge <$> handover_create_challenge self env
  | NcStart r => OutKey <$> handover_start self env r
  | NcAcceptChallenge b => OutResponse <$> handover_accept_challenge self env b
  | NcReceive m => (fun _ => OutDone) <$> handover_receive env m
  | NcDcapCreateChallenge => OutDcapChallenge <$> dcap_handover_create_challenge self env
  | NcDcapStart r => OutDcapKey <$> dcap_handover_start self env r
  | NcDcapAcceptChallenge b => OutDcapResponse <$> dcap_handover_accept_challenge self env b
  | NcDcapReceive m => (fun _ => OutDone) <$> dcap_handover_receive self env m
  | NcSyncHeader l => lock_phactory false true;; (fun _ => OutDone) <$> on_phactory (rpc_sync_header l)
  | NcSyncParaHeader l p => lock_phactory false true;; (fun _ => OutDone) <$> on_phactory (rpc_sync_para_header l p)
  | NcSyncCombined l1 l2 p => lock_phactory false true;; (fun _ => OutDone) <$> on_phactory (sync_combined_headers l1 l2 p)
  | NcDispatchBlocks l => lock_phactory false true;; (fun _ => OutDone) <$> on_phactory (dispatch_blocks l)
  | NcLoadChainState b s => lock_phactory false false;; (fun _ => OutDone) <$> on_phactory (load_chain_state b s)
  end.

(** [Phactory::new], with the sealed file it finds *)
Definition node_new (can_load : bool) (safe_mode : Z) (sealed : option bytes) : Node R D C :=
  mkNode (mkPhactory can_load safe_mode false None None None None) false false None 0 None None None sealed.

Inductive node_history : list (NodeEvent R D C) -> Node R D C -> Prop :=
  | nh_new can_load level : node_history [] (node_new can_load level None)
  | nh_restart h n can_load level : node_history h n -> node_history h (node_new can_load level (nd_sealed n))
  | nh_ok h n env c o n' : node_history h n -> node_exec env c n = Ok o n' -> node_history (mkEvent n env c (Some o) :: h) n'
  | nh_err h n env c e n' : node_history h n -> node_exec env c n = Err e n' -> node_history (mkEvent n env c None :: h) n'.

(** ** The challenges a history issued, and those it released a key for *)

Definition issued_of (e : NodeEvent R D C) : option HandoverChallenge :=
  match ev_out e with Some (OutChallenge c) => Some c | _ => None end.
Definition released_of (e : NodeEvent R D C) : option HandoverChallenge :=
  match ev_call e, ev_out e with
  | NcStart r, Some _ => ch_challenge <$> (scale_decode (cr_encoded_challenge_handler r) : option ChallengeHandlerInfo)
  | _, _ => None
  end.
Definition dcap_issued_of (e : NodeEvent R D C) : option DcapHandoverChallenge :=
  match ev_out e with Some (OutDcapChallenge c) => Some c | _ => None end.
Definition dcap_released_of (e : NodeEvent R D C) : option DcapHandoverChallenge :=
  match ev_call e, ev_out e with
  | NcDcapStart r, Some _ => dch_challenge <$> (scale_decode (dcr_encoded_challenge_handler r) : option DcapChallengeHandlerInfo)
  | _, _ => None
  end.

(** The identity keys a history generated *)
Definition generated_of (e : NodeEvent R D C) : option Pair :=
  match ev_call e with NcInit _ _ _ _ _ _ _ _ => Some (env_new_key (ev_env e)) | _ => None end.

(** ** What the parts of a call leave alone *)

Lemma put_phactory_same n : put_phactory (nd_phactory n) n = n.
Proof. by destruct n. Qed.
Lemma get_runtime_run n :
  on_phactory get_runtime n = match runtime_state (nd_phactory n) with Some rt => Ok rt n | None => Err (NeRpc RuntimeNotInitialized) n end.
Proof.
  unfold on_phactory, get_runtime. mred. unfold mbind, M_bind. destruct (runtime_state (nd_phactory n)); cbn; by rewrite put_phactory_same.
Qed.
Lemma from_att_run {A} (m : Att A) e n a n' : from_att (R := R) (D := D) (C := C) m e n = Ok a n' <-> m tt = Ok a tt /\ n' = n.
Proof. unfold from_att. destruct (m tt) as [? []|? []|]; naive_solver. Qed.

Section kept.
Context (K : Node R D C -> Node R D C -> Prop) `{!PreOrder K}.
Lemma kept_lock a b : moves K (lock_phactory a b).
Proof. unfold lock_phactory. moves. Qed.
Lemma kept_runtime : moves K (on_phactory get_runtime).
Proof. apply moves_pure; [done|]. intros n. rewrite get_runtime_run. by destruct (runtime_state _). Qed.
Lemma kept_att {A} (m : Att A) e : moves K (from_att m e).
Proof. apply moves_pure; [done|]. intros n. unfold from_att. by destruct (m tt). Qed.
End kept.
#[local] Hint Resolve kept_lock kept_runtime kept_att : moves.

Section kept_parts.
Context (K : Node R D C -> Node R D C -> Prop) `{!PreOrder K}.
Lemma kept_current : moves K current_block.
Proof. unfold current_block. moves. Qed.
Lemma kept_load env : moves K (load_runtime_data env).
Proof. unfold load_runtime_data. moves. Qed.
Lemma kept_target : moves K (challenge_target_info self).
Proof. unfold challenge_target_info. moves. Qed.
Lemma kept_attest env p d : moves K (create_attestation_report_on env p d).
Proof. unfold create_attestation_report_on. moves. Qed.
Lemma kept_attest_some env p d : moves K (Some <$> create_attestation_report_on env p d).
Proof. intros n. pose proof (kept_attest env p d n) as H. unfold fmap, M_map. by destruct (create_attestation_report_on env p d n). Qed.
Lemma kept_measure : moves K (my_measurement self).
Proof. unfold my_measurement. moves. Qed.
Lemma kept_hash a : moves K (client_runtime_hash a).
Proof. unfold client_runtime_hash. moves. Qed.
Lemma kept_time env : moves K (network_time env).
Proof. unfold network_time. moves. Qed.
End kept_parts.
End history.
#[export] Hint Resolve kept_lock kept_runtime kept_att kept_current kept_load kept_target kept_attest kept_attest_some kept_measure kept_hash
  kept_time : moves.
