(* ===== verification/HandoverClaims.v ===== *)
(** * What the handover of worker keys guarantees

    Every key a worker hands over answers a challenge of its own that nothing
    else answered, and the evidence behind it; the registration data it attests;
    the transfer between two honest workers; and what the protocol with IAS
    gives away on a worker that attests with DCAP. *)

From S2P Require Import Prelude MqTypes SendQueue Storage SgxQuote Attestation Registry Dispatcher KeyShare LightClient StorageSync Phactory LocalAttest NodeKeys Handover.

Section claims.
Context {R D C : Type} `{CL : !ChainLib} `{HC : !HeaderCodec} `{TL : !TrieLib D} `{CS : !ChainStorageLib D} `{PL : !PlatformLib}
  `{SO : !SystemOps R D C} `{CR : !Crypto} `{NL : !NodeLib R D} `{SC : !SgxCpu} `{SL : !SgxLib}
  `{!Codec RuntimeDataSeal} `{!Codec WorkerRegistrationInfoV2} `{!Codec HandoverChallenge} `{!Codec ChallengeHandlerInfo}
  `{!Codec DcapHandoverChallenge} `{!Codec DcapChallengeHandlerInfo} `{!Codec EncryptedWorkerKey} `{!Codec (option AttestationReport)}.
Variable self : Enclave.
Implicit Types (n : Node R D C) (env : CallEnv).
Abbreviation Nd := (M (Node R D C) NodeError).

(** ** One key per challenge *)

(** The pending challenges stay, or are dropped *)
Definition pending n n' : Prop :=
  (nd_handover_last_challenge n' = nd_handover_last_challenge n \/ nd_handover_last_challenge n' = None) /\
  (nd_dcap_handover_last_challenge n' = nd_dcap_handover_last_challenge n \/ nd_dcap_handover_last_challenge n' = None).
#[local] Instance pending_preorder : PreOrder pending.
Proof. split; [by intros n; split; left|]. intros n1 n2 n3 [[H1|H1] [H2|H2]] [[H3|H3] [H4|H4]]; split; first [left; congruence|right; congruence]. Qed.

Lemma pending_phactory {A} (m : M (Phactory R D C) RpcError A) : moves pending (on_phactory m).
Proof. intros n. unfold on_phactory. destruct (m (nd_phactory n)); [by split; left..|done]. Qed.
Lemma pending_modify (f : Node R D C -> Node R D C) : (forall n, nd_handover_last_challenge (f n) = nd_handover_last_challenge n \/ nd_handover_last_challenge (f n) = None) ->
  (forall n, nd_dcap_handover_last_challenge (f n) = nd_dcap_handover_last_challenge n \/ nd_dcap_handover_last_challenge (f n) = None) -> moves pending (modify (E := NodeError) f).
Proof. intros H1 H2. apply moves_modify. by split. Qed.
Lemma pending_map {A B} (f : A -> B) (m : Nd A) : moves pending m -> moves pending (f <$> m).
Proof. intros H n. specialize (H n). unfold fmap, M_map. by destruct (m n). Qed.
#[local] Hint Resolve pending_phactory pending_map : moves.
#[local] Hint Extern 2 (moves pending (modify _)) => apply pending_modify; intros ?; solve [by left|by right] : moves.

Lemma pending_save env g p k t d : moves pending (save_runtime_data env g p k t d).
Proof. unfold save_runtime_data. moves. Qed.
#[local] Hint Resolve pending_save : moves.
Lemma pending_init_data env g p k : moves pending (init_runtime_data env g p k).
Proof.
  unfold init_runtime_data. moves. intros n. pose proof (kept_load pending env n) as H1. destruct (load_runtime_data env n) as [d n'|[] n'|]; try done.
  pose proof (pending_save env g p (env_new_key env) true false n') as H2. destruct (save_runtime_data _ _ _ _ _ _ n'); [by etrans..|done].
Qed.
Lemma pending_share env k d : moves pending (share_worker_key env k d).
Proof. unfold share_worker_key. moves. Qed.
Lemma pending_accept env k : moves pending (accept_worker_key env k).
Proof. unfold accept_worker_key. moves. Qed.
Lemma pending_verify c : moves pending (verify_worker_key_challenge c).
Proof. unfold verify_worker_key_challenge. moves. Qed.
Lemma pending_dcap_verify c : moves pending (dcap_verify_worker_key_challenge c).
Proof. unfold dcap_verify_worker_key_challenge. moves. Qed.
Lemma pending_update f : moves pending (update_runtime_info f).
Proof. unfold update_runtime_info. moves. Qed.
#[local] Hint Resolve pending_init_data pending_share pending_accept pending_verify pending_dcap_verify pending_update : moves.

Definition issues (c : NodeCall) : bool := match c with NcCreateChallenge | NcDcapCreateChallenge => true | _ => false end.

Lemma pending_exec env c : issues c = false -> moves pending (node_exec self env c).
Proof.
  destruct c; intros Hc; try discriminate Hc; unfold node_exec; repeat (moves_step || apply pending_map).
  all: unfold init_runtime, get_runtime_info, handover_start, handover_accept_challenge, handover_receive, dcap_handover_start,
    dcap_handover_accept_challenge, dcap_handover_receive; moves.
Qed.

Lemma same_state {A} (m : Nd A) n a n' : moves eq m -> m n = Ok a n' -> n' = n.
Proof. intros H E. specialize (H n). rewrite E in H. by symmetry. Qed.
Lemma pending_none n n' : pending n n' ->
  (nd_handover_last_challenge n = None -> nd_handover_last_challenge n' = None) /\
  (nd_dcap_handover_last_challenge n = None -> nd_dcap_handover_last_challenge n' = None).
Proof. intros [[H1|H1] [H2|H2]]; split; congruence. Qed.
Ltac same E := apply same_state in E; [|solve [moves]]; subst.

Lemma start_challenge env r n k n' : handover_start self env r n = Ok k n' ->
  exists h, scale_decode (cr_encoded_challenge_handler r) = Some h /\ nd_handover_last_challenge n = Some (ch_challenge h) /\
    nd_handover_last_challenge n' = None /\
    (nd_dcap_handover_last_challenge n' = nd_dcap_handover_last_challenge n \/ nd_dcap_handover_last_challenge n' = None).
Proof.
  unfold handover_start. intros H. run_ok H u s1 E1. same E1. run_ok H n0 s2 E2. run_ok H bt s3 E3. same E3. destruct bt as [b t].
  run_ok H h s4 E4. run_ok H att s5 E5. same E5. apply bind_Ok in H as (v & s6 & E6 & H). unfold verify_worker_key_challenge in E6.
  run_ok E6 n1 s7 E7. run_ok E6 u2 s8 E8. run_prim E6. run_ok H u3 s9 E9. b2p. eexists. split; [done|]. split; [done|].
  match type of H with ?m ?s = _ => assert (moves pending m) as Hm by moves; specialize (Hm s); rewrite H in Hm end.
  split; [by apply (proj1 (pending_none _ _ Hm))|]. by apply Hm.
Qed.

Lemma dcap_start_challenge env r n k n' : dcap_handover_start self env r n = Ok k n' ->
  exists h, scale_decode (dcr_encoded_challenge_handler r) = Some h /\ nd_dcap_handover_last_challenge n = Some (dch_challenge h) /\
    nd_dcap_handover_last_challenge n' = None /\
    (nd_handover_last_challenge n' = nd_handover_last_challenge n \/ nd_handover_last_challenge n' = None).
Proof.
  unfold dcap_handover_start. intros H. run_ok H t s1 E1. same E1. run_ok H u s2 E2. same E2. run_ok H n0 s3 E3. run_ok H u1 s4 E4.
  run_ok H h s5 E5. apply bind_Ok in H as (v & s6 & E6 & H). unfold dcap_verify_worker_key_challenge in E6.
  run_ok E6 n1 s7 E7. run_ok E6 u2 s8 E8. run_prim E6. run_ok H u3 s9 E9. b2p. eexists. split; [done|]. split; [done|].
  match type of H with ?m ?s = _ => assert (moves pending m) as Hm by moves; specialize (Hm s); rewrite H in Hm end.
  split; [by apply (proj2 (pending_none _ _ Hm))|]. by apply Hm.
Qed.

(** [o] is pending: it would be the next to be released *)
Definition uses {A} (o : option A) (released issued : list A) : Prop := (option_list o ++ released) `sublist_of` issued.

Lemma uses_none {A} (o : option A) rs js : uses o rs js -> uses None rs js.
Proof. destruct o as [a|]; [|done]. intros H. etrans; [|exact H]. by apply sublist_cons. Qed.
Lemma uses_drop {A} (o o' : option A) rs js : o' = o \/ o' = None -> uses o rs js -> uses o' rs js.
Proof. intros [->| ->]; [done|]. apply uses_none. Qed.
Lemma uses_issue {A} (o : option A) a rs js : uses o rs js -> uses (Some a) rs (a :: js).
Proof. intros H%uses_none. by apply sublist_skip. Qed.

Definition challenges_ok (h : list (NodeEvent R D C)) n : Prop :=
  uses (nd_handover_last_challenge n) (omap released_of h) (omap issued_of h) /\
  uses (nd_dcap_handover_last_challenge n) (omap dcap_released_of h) (omap dcap_issued_of h).

Lemma challenges_pending h n n' e : pending n n' -> released_of e = None -> issued_of e = None -> dcap_released_of e = None -> dcap_issued_of e = None ->
  challenges_ok h n -> challenges_ok (e :: h) n'.
Proof. intros [H1 H2] E1 E2 E3 E4 [I1 I2]. unfold challenges_ok. cbn. rewrite E1, E2, E3, E4. split; by eapply uses_drop. Qed.

Lemma create_Ok env n c n' : handover_create_challenge self env n = Ok c n' ->
  nd_handover_last_challenge n' = Some c /\ nd_dcap_handover_last_challenge n' = nd_dcap_handover_last_challenge n.
Proof.
  unfold handover_create_challenge, get_worker_key_challenge. intros H. run_ok H u s1 E1. same E1. run_ok H bt s2 E2. same E2. destruct bt as [b t].
  run_ok H i s3 E3. same E3. run_ok H n1 s4 E4. run_ok H u2 s5 E5. run_prim H. done.
Qed.
Lemma dcap_create_Ok env n c n' : dcap_handover_create_challenge self env n = Ok c n' ->
  nd_dcap_handover_last_challenge n' = Some c /\ nd_handover_last_challenge n' = nd_handover_last_challenge n.
Proof.
  unfold dcap_handover_create_challenge, get_dcap_worker_key_challenge. intros H. run_ok H t s1 E1. same E1. run_ok H u s2 E2. same E2.
  run_ok H n0 s3 E3. run_ok H u1 s4 E4. run_ok H bt s5 E5. same E5. destruct bt as [b tm]. run_ok H u2 s6 E6. run_ok H i s7 E7. same E7.
  run_ok H n1 s8 E8. run_ok H u3 s9 E9. run_prim H. done.
Qed.
Lemma map_Ok_inv {A B} (f : A -> B) (m : Nd A) n b n' : (f <$> m) n = Ok b n' -> exists a, m n = Ok a n' /\ b = f a.
Proof. unfold fmap, M_map. destruct (m n); naive_solver. Qed.

(** Errors that leave the state as it was *)
Definition clean {A} (m : Nd A) : Prop := forall n e n', m n = Err e n' -> n' = n.
Lemma clean_bind {A B} (m : Nd A) (f : A -> Nd B) : moves eq m -> (forall a, clean (f a)) -> clean (m ≫= f).
Proof.
  intros Hm Hf n e n'. specialize (Hm n). unfold mbind, M_bind. destruct (m n) as [a s|e' s|]; [subst s|by intros [= _ <-]|done]. apply Hf.
Qed.
Lemma clean_last (f : Node R D C -> Node R D C) {A} (a : A) : clean (modify f;; mret a).
Proof. by intros n e n'. Qed.
Lemma create_Err env : clean (handover_create_challenge self env).
Proof.
  unfold handover_create_challenge, get_worker_key_challenge. repeat first [apply clean_last|apply clean_bind; [solve [moves]|intros]|case_match]. Qed.
Lemma dcap_create_Err env : clean (dcap_handover_create_challenge self env).
Proof.
  unfold dcap_handover_create_challenge, get_dcap_worker_key_challenge. repeat first [apply clean_last|apply clean_bind; [solve [moves]|intros]|case_match]. Qed.

Lemma map_Err_inv {A B} (f : A -> B) (m : Nd A) n e n' : (f <$> m) n = Err e n' -> m n = Err e n'.
Proof. unfold fmap, M_map. destruct (m n); naive_solver. Qed.

Lemma challenges_ok_Err h n env c e n' : node_exec self env c n = Err e n' -> challenges_ok h n -> challenges_ok (mkEvent n env c None :: h) n'.
Proof.
  intros H. assert (pending n n') as Hp; [|by apply (challenges_pending _ _ _ _ Hp); destruct c].
  destruct (issues c) eqn:Ec; [|pose proof (pending_exec env c Ec n) as Hm; by rewrite H in Hm].
  destruct c; try discriminate Ec; cbn [node_exec] in H; apply map_Err_inv in H; [apply create_Err in H|apply dcap_create_Err in H]; by subst n'.
Qed.

Lemma challenges_ok_Ok h n env c o n' : node_exec self env c n = Ok o n' -> challenges_ok h n -> challenges_ok (mkEvent n env c (Some o) :: h) n'.
Proof.
  intros H I. pose proof (fun E => pending_exec env c E n) as Hp. rewrite H in Hp.
  destruct c; cbn [issues node_exec] in *;
    try (specialize (Hp eq_refl); first [apply map_Ok_inv in H as (a & H & ->)|apply bind_Ok in H as ([] & s & _ & H); apply map_Ok_inv in H as (a & H & ->)]).
  all: try by eapply challenges_pending.
  - apply map_Ok_inv in H as (a & H & ->). apply create_Ok in H as [H1 H2]. destruct I as [I1 I2]. unfold challenges_ok. cbn. rewrite H1, H2.
    split; [by eapply uses_issue|done].
  - apply start_challenge in H as (hd & Ed & E1 & E2 & E3). destruct I as [I1 I2]. unfold challenges_ok. cbn. rewrite Ed. cbn. rewrite E2. rewrite E1 in I1.
    split; [done|by eapply uses_drop].
  - apply map_Ok_inv in H as (a & H & ->). apply dcap_create_Ok in H as [H1 H2]. destruct I as [I1 I2]. unfold challenges_ok. cbn. rewrite H1, H2.
    split; [done|by eapply uses_issue].
  - apply dcap_start_challenge in H as (hd & Ed & E1 & E2 & E3). destruct I as [I1 I2]. unfold challenges_ok. cbn. rewrite Ed. cbn. rewrite E2. rewrite E1 in I2.
    split; [by eapply uses_drop|done].
Qed.

Lemma history_challenges h n : node_history self h n -> challenges_ok h n.
Proof.
  induction 1 as [|h n ? ? _ [I1 I2]|h n env c o n' _ I H|h n env c e n' _ I H].
  - by split.
  - split; by eapply uses_none.
  - by eapply challenges_ok_Ok.
  - by eapply challenges_ok_Err.
Qed.

(** ** The evidence behind a key *)

Section evidence.
Context `{LW : !SgxCpuLaws} `{LA : !LocalAttestation}.

Definition measure (e : Enclave) : bytes := measurement_of (enclave_identity e).

(** The chain allowed [theirs] after it allowed the pRuntime of this process. *)
Definition newer n (theirs : bytes) : Prop := exists rt mine_at theirs_at,
  runtime_state (nd_phactory n) = Some rt /\ storage_pruntime_added_at (chain_storage rt) (measure self) = Some mine_at /\
  storage_pruntime_added_at (chain_storage rt) theirs = Some theirs_at /\ mine_at < theirs_at.

(** [k] is the sealed key, encrypted to [pk] *)
Definition key_for n env (pk : EcdhPublicKey) (k : EncryptedWorkerKey) : Prop := exists file data my_pk c,
  let identity := restore_from_secret_key (prd_sk data) in
  nd_sealed n = Some file /\ scale_decode file = Some (SealV1 data) /\
  encrypt_secret_to identity [bs "worker_key_handover"] pk (dump_secret_key identity) (env_random env) = Some (my_pk, c) /\
  ewk_encrypted_key k = mkEncrypted my_pk c (env_random env).

(** An enclave of this machine, newer than this one, asked for the key to be
    encrypted to the public key it reported on, within a minute of network time. *)
Definition dcap_evidence n env (r : DcapChallengeResponse) (m : DcapWorkerKeyMessage) : Prop := exists h now e t rd k,
  scale_decode (dcr_encoded_challenge_handler r) = Some h /\ env_ntp env = Some now /\
  0 <= now - dhc_ntp_time_secs (dch_challenge h) <= 60 /\
  sgx_report e t rd = Some (dcr_la_report r) /\ take 32 rd = blake2_256_of (dcr_encoded_challenge_handler r) /\
  newer n (measure e) /\ dkm_encoded_worker_key m = scale_encode k /\ key_for n env (dch_ecdh_pubkey h) k.

(** Intel vouches for a fresh report of a newer pRuntime on the challenge and
    the public key, a local enclave answered, and the challenge is at most 150
    blocks old. *)
Definition ias_evidence n env (r : ChallengeResponse) (m : WorkerKeyMessage) : Prop :=
  exists h rt a report signature cert fields time e t rd k,
  let block := saturating_sub (next_block_number (counters (storage_synchronizer rt))) 1 in
  let now := storage_timestamp (chain_storage rt) / 1000 in
  runtime_state (nd_phactory n) = Some rt /\
  scale_decode (cr_encoded_challenge_handler r) = Some h /\ 0 <= block - hc_block_number (ch_challenge h) <= 150 /\
  cr_attestation r = Some a /\ scale_decode (na_encoded_report a) = Some (Some (SgxIas report signature cert)) /\
  ias_verify_signature report signature cert now tt = Ok tt tt /\
  from_ias_report report tt = Ok (fields, time) tt /\ i64 (i64 now - time) < 7200 /\
  take 32 (report_data fields) = blake2_256_of (scale_encode h) /\
  sgx_report e t rd = Some (ch_sgx_local_report h) /\ newer n (extend_mrenclave fields) /\
  km_encoded_worker_key m = scale_encode k /\ key_for n env (ch_ecdh_pubkey h) k.

Lemma measurement_identity e t rd r : sgx_report e t rd = Some r -> measurement_of r = measure e.
Proof.
  intros H. unfold measure. rewrite <- (sgx_report_identity _ _ _ _ H).
  unfold measurement_of, rp_mr_enclave, rp_mr_signer, rp_isv_prod_id, rp_isv_svn. by rewrite !field_take by lia.
Qed.
Lemma decode_report_Some d r : decode_report d = Some r -> r = d /\ length d = size_of_report.
Proof. unfold decode_report. case_match; [|done]. intros [= ->]. split; [done|]. by apply Nat.eqb_eq. Qed.
Lemma verified_report d r : decode_report d = Some r -> la_verify self r = true -> exists e t rd, sgx_report e t rd = Some d /\ r = d /\ rp_report_data d = rd.
Proof.
  intros [-> Hl]%decode_report_Some Hv. destruct (report_unforged _ _ Hl Hv) as (e & t & rd & H). exists e, t, rd.
  split_and!; [done|done|]. by eapply sgx_report_data.
Qed.
Lemma my_measurement_Ok n m n' : my_measurement self n = Ok m n' -> m = measure self /\ n' = n.
Proof.
  unfold my_measurement. intros H. run_ok H t s E. run_ok H r s2 E2. run_prim H. split; [|done]. by eapply measurement_identity.
Qed.
Lemma share_Ok env pk d n k n' : share_worker_key env pk d n = Ok k n' -> n' = n /\ key_for n env pk k.
Proof.
  unfold share_worker_key, load_runtime_data. intros H. run_ok H data s1 E1. run_ok E1 n1 s2 E2. run_ok E1 u s3 E3. run_ok E1 file s4 E4.
  run_ok E1 sl s5 E5. destruct sl as [data']. run_prim E1. run_ok H pc s6 E6. destruct pc as [my_pk c]. run_ok H rt s7 E7. same E7.
  run_ok H n2 s8 E8. run_prim H. split; [done|]. by exists file, data', my_pk, c.
Qed.

Lemma runtime_Ok n rt n' : on_phactory get_runtime n = Ok rt n' -> runtime_state (nd_phactory n) = Some rt /\ n' = n.
Proof. rewrite get_runtime_run. destruct (runtime_state _); naive_solver. Qed.
Lemma newer_phactory n n' b : nd_phactory n' = nd_phactory n -> newer n' b -> newer n b.
Proof. intros E (rt & a & b' & H). exists rt, a, b'. by rewrite <- E. Qed.

Lemma dcap_start_evidence env r n m n' : nd_dev_mode n = false -> dcap_handover_start self env r n = Ok m n' -> dcap_evidence n env r m.
Proof.
  intros Hd. unfold dcap_handover_start, network_time. intros H. run_ok H now s1 E1. run_ok E1 u s2 E2. same E2. run_ok E1 rt s3 E3. same E3. run_prim E1.
  run_ok H u0 s4 E4. same E4. run_ok H n0 s5 E5. run_ok H u1 s6 E6. run_ok H h s7 E7. apply bind_Ok in H as (v & s8 & E8 & H).
  unfold dcap_verify_worker_key_challenge in E8. run_ok E8 n1 s9 E9. run_ok E8 u2 s10 E10. run_prim E8. run_ok H u3 s11 E11. run_ok H u4 s12 E12.
  run_ok H rep s13 E13. run_ok H u5 s14 E14. run_ok H u6 s15 E15. run_ok H u7 s16 E16. rewrite Hd in E16. cbn [negb] in E16.
  run_ok E16 rt2 s17 E17. apply runtime_Ok in E17 as [Hrt ->]. run_ok E16 mine s18 E18. apply my_measurement_Ok in E18 as [-> ->].
  run_ok E16 t1 s19 E19. run_ok E16 t2 s20 E20. run_prim E16. run_ok H k s21 E21. apply share_Ok in E21 as [-> Hk]. run_ok H lr s22 E22. run_prim H.
  destruct (verified_report _ _ Ho1 Hb2) as (e & t & rd & Hr & -> & Hrd). b2p. cbn [put_dcap_last_challenge nd_phactory] in *.
  exists h, z, e, t, rd, k. split_and!; try done; [lia|unfold CLIENT_TIMEOUT_SECS in *; lia|by rewrite <- Hrd|].
  exists rt2, t1, t2. rewrite <- (measurement_identity _ _ _ _ Hr). split_and!; [done..|lia].
Qed.

Lemma ias_validated att h now conf : attestation_validate att h now false [] false tt = Ok conf tt ->
  (exists q c, att = Some (SgxDcap q c)) \/
  exists report signature cert fields time, att = Some (SgxIas report signature cert) /\ ias_verify_signature report signature cert now tt = Ok tt tt /\
    from_ias_report report tt = Ok (fields, time) tt /\ i64 (i64 now - time) < 7200 /\ take 32 (report_data fields) = h.
Proof.
  destruct att as [[report sg cert|q c]|]; cbn; [|by left; eauto|done]. right. exists report, sg, cert. unfold validate_ias_report in H.
  run_ok H u s1 E1. destruct u, s1. apply or_err_Ok in E1. run_ok H p s2 E2. destruct p as [f t], s2. run_ok H u1 s3 E3. run_ok H u2 s4 E4. run_ok H u3 s5 E5.
  b2p. by exists f, t.
Qed.

Lemma client_hash_Ok att n hash n' : client_runtime_hash att n = Ok hash n' ->
  n' = n /\ exists report signature cert fields time, att = Some (SgxIas report signature cert) /\
    from_ias_report report tt = Ok (fields, time) tt /\ hash = extend_mrenclave fields.
Proof.
  unfold client_runtime_hash. intros H. run_ok H a s1 E1. destruct a as [report sg cert|]; [|done]. run_ok H p s2 E2. apply from_att_run in E2 as [Ef ->].
  destruct p as [f t]. run_prim H. split; [done|]. by exists report, sg, cert, f, t.
Qed.

Lemma ias_start_evidence env r n m n' : nd_dev_mode n = false -> attestation_provider (nd_phactory n) = Some ProvIas ->
  handover_start self env r n = Ok m n' -> ias_evidence n env r m.
Proof.
  intros Hd Hp. unfold handover_start, current_block. intros H. run_ok H u s1 E1. same E1. run_ok H n0 s2 E2. run_ok H bt s3 E3.
  run_ok E3 rt s4 E4. apply runtime_Ok in E4 as [Hrt ->]. run_prim E3. rewrite Hd, Hp, (bool_decide_true (Some ProvIas = Some ProvIas)) in H by done.
  cbn [negb andb] in H. run_ok H h s5 E5. run_ok H att s6 E6. run_ok E6 a s7 E7. run_ok E6 att' s8 E8. run_ok E6 conf s9 E9.
  apply from_att_run in E9 as [Hv ->]. run_prim E6. apply bind_Ok in H as (v & s10 & E10 & H). unfold verify_worker_key_challenge in E10.
  run_ok E10 n1 s11 E11. run_ok E10 u2 s12 E12. run_prim E10. run_ok H u3 s13 E13. run_ok H u4 s14 E14. run_ok E14 lr s15 E15. run_prim E14.
  run_ok H u5 s16 E16. run_ok H u6 s17 E17. run_ok E17 ti s18 E18. run_ok E17 mr s19 E19. run_ok E17 rt2 s20 E20. apply runtime_Ok in E20 as [Hrt2 ->].
  run_ok E17 t1 s21 E21. run_ok E17 hash s22 E22. apply client_hash_Ok in E22 as (-> & rep & sg & cert & f & t & -> & Ef & ->).
  run_ok E17 t2 s23 E23. run_prim E17. run_ok H k s24 E24. apply share_Ok in E24 as [-> Hk]. run_ok H at2 s25 E25. same E25. run_prim H.
  apply ias_validated in Hv as [(? & ? & [=])|(? & ? & ? & f' & t' & [= <- <- <-] & Hs & Ef' & Ht & Hh)]. rewrite Ef in Ef'. injection Ef' as <- <-.
  destruct (verified_report _ _ Ho2 Hb0) as (e & te & rd & Hr & -> & _). b2p. unfold CHALLENGE_BLOCKS in *.
  exists h, rt, a, rep, sg, cert, f, t, e, te, rd, k. cbn [put_last_challenge nd_phactory] in *. split_and!; try done; [lia|lia|].
  exists rt2, t1, t2. rewrite <- (measurement_identity _ _ _ _ Ho4). split_and!; [done..|lia].
Qed.

(** What the first protocol asks for on a worker that does not attest with IAS:
    the request names a recent challenge and a public key. Nothing tells who
    made it. *)
Definition unattested_release n env (r : ChallengeResponse) (m : WorkerKeyMessage) : Prop := exists h rt k,
  let block := saturating_sub (next_block_number (counters (storage_synchronizer rt))) 1 in
  runtime_state (nd_phactory n) = Some rt /\
  scale_decode (cr_encoded_challenge_handler r) = Some h /\ 0 <= block - hc_block_number (ch_challenge h) <= 150 /\
  km_encoded_worker_key m = scale_encode k /\ key_for n env (ch_ecdh_pubkey h) k.

Lemma other_start_release env r n m n' : attestation_provider (nd_phactory n) <> Some ProvIas ->
  handover_start self env r n = Ok m n' -> unattested_release n env r m.
Proof.
  intros Hp. unfold handover_start, current_block. intros H. run_ok H u s1 E1. same E1. run_ok H n0 s2 E2. run_ok H bt s3 E3.
  run_ok E3 rt s4 E4. apply runtime_Ok in E4 as [Hrt ->]. run_prim E3. rewrite (bool_decide_false (attestation_provider _ = Some ProvIas)), andb_false_r in H by done.
  run_ok H h s5 E5. run_ok H att s6 E6. apply bind_Ok in H as (v & s10 & E10 & H). unfold verify_worker_key_challenge in E10.
  run_ok E10 n1 s11 E11. run_ok E10 u2 s12 E12. run_prim E10. run_ok H u3 s13 E13. run_ok H u4 s14 E14. run_ok H u5 s16 E16. run_ok H u6 s17 E17.
  run_ok H k s24 E24. apply share_Ok in E24 as [-> Hk]. run_ok H at2 s25 E25. run_prim H. b2p. unfold CHALLENGE_BLOCKS in *.
  exists h, rt, k. cbn [put_last_challenge nd_phactory] in *. split_and!; try done; lia.
Qed.

(** What is behind each key released outside development mode. *)
Definition accounted (e : NodeEvent R D C) : Prop :=
  nd_dev_mode (ev_node e) = false ->
  match ev_call e, ev_out e with
  | NcDcapStart r, Some (OutDcapKey m) => dcap_evidence (ev_node e) (ev_env e) r m
  | NcStart r, Some (OutKey m) =>
      if decide (attestation_provider (nd_phactory (ev_node e)) = Some ProvIas)
      then ias_evidence (ev_node e) (ev_env e) r m
      else unattested_release (ev_node e) (ev_env e) r m
  | _, _ => True
  end.

(** C23: whatever calls a worker receives, each key it hands over answers a
    challenge of its own, in the order they were issued and at most once each.
    Outside development mode: [dcap_handover_start] gives the key only to an
    enclave of the same machine that runs a pRuntime allowed on chain later than
    this one and that reported on the public key the worker key is encrypted to,
    within a minute of network time; [handover_start] on a worker that attests
    with IAS gives it only for a report of Intel, less than 7200 seconds older
    than the block, of a pRuntime allowed later, on that public key, within 150
    blocks. On any other worker [handover_start] asks for no report at all: the
    key goes to the public key of the request, and only the challenge and the
    150 blocks are checked (what follows is shown at the end of this file). *)
Theorem handover_history_safe h n : node_history self h n ->
  omap released_of h `sublist_of` omap issued_of h /\ omap dcap_released_of h `sublist_of` omap dcap_issued_of h /\ Forall accounted h.
Proof.
  intros H. destruct (history_challenges _ _ H) as [I1%uses_none I2%uses_none]. split; [exact I1|]. split; [exact I2|]. clear I1 I2.
  induction H as [|h n ? ? _ IH|h n env c o n' _ IH E|h n env c e n' _ IH E]; [by constructor|done| |]; constructor; try done.
  - intros Hd. cbn. destruct c; try done; apply map_Ok_inv in E as (m & E & ->); [|by eapply dcap_start_evidence].
    destruct (decide _); [by eapply ias_start_evidence|by eapply other_start_release].
  - intros Hd. cbn. by destruct c.
Qed.
End evidence.
End claims.

(** * Handovers that succeed

    The four calls of the local-attestation protocol between two honest workers
    of a machine, and the calls by which anyone obtains the key of a worker that
    attests with DCAP. *)

(** 32 bytes *)
Class HashLaws `{CR : !Crypto} : Prop := blake2_256_size : forall b, length (blake2_256_of b) = 32%nat.

Lemma bind_step {S E A B} (m : M S E A) (f : A -> M S E B) s a s' : m s = Ok a s' -> (m ≫= f) s = f a s'.
Proof. intros H. cbn. unfold mbind, M_bind. by rewrite H. Qed.

Section runs.
Context {R D C : Type} `{CL : !ChainLib} `{HC : !HeaderCodec} `{TL : !TrieLib D} `{CS : !ChainStorageLib D} `{PL : !PlatformLib}
  `{SO : !SystemOps R D C} `{CR : !Crypto} `{NL : !NodeLib R D} `{SC : !SgxCpu} `{SL : !SgxLib}
  `{!Codec RuntimeDataSeal} `{!Codec WorkerRegistrationInfoV2} `{!Codec HandoverChallenge} `{!Codec ChallengeHandlerInfo}
  `{!Codec DcapHandoverChallenge} `{!Codec DcapChallengeHandlerInfo} `{!Codec EncryptedWorkerKey} `{!Codec (option AttestationReport)}
  `{!CodecLaws RuntimeDataSeal} `{!CodecLaws HandoverChallenge} `{!CodecLaws ChallengeHandlerInfo} `{!CodecLaws DcapHandoverChallenge}
  `{!CodecLaws DcapChallengeHandlerInfo} `{!CodecLaws EncryptedWorkerKey} `{LW : !SgxCpuLaws} `{KL : !CryptoLaws} `{HL : !HashLaws}.
Implicit Types (n : Node R D C) (env : CallEnv).

Lemma lock_run n : nd_rcu_dispatching n = false -> lock_phactory false true n = Ok tt n.
Proof. intros H. unfold lock_phactory. mred. by rewrite H. Qed.
Lemma runtime_run n rt : runtime_state (nd_phactory n) = Some rt -> on_phactory get_runtime n = Ok rt n.
Proof. intros H. by rewrite get_runtime_run, H. Qed.
Lemma current_block_run n rt : runtime_state (nd_phactory n) = Some rt ->
  current_block n = Ok (saturating_sub (next_block_number (counters (storage_synchronizer rt))) 1, storage_timestamp (chain_storage rt)) n.
Proof. intros H. unfold current_block. by rewrite (bind_step _ _ _ _ _ (runtime_run n rt H)). Qed.
Lemma ensure_run n b (e : NodeError) : b = true -> ensure b e n = Ok tt n.
Proof. by intros ->. Qed.
Lemma ok_or_run {A} n (o : option A) a (e : NodeError) : o = Some a -> ok_or o e n = Ok a n.
Proof. by intros ->. Qed.
Lemma expect_run {A} n (o : option A) a : o = Some a -> expect (E := NodeError) o n = Ok a n.
Proof. by intros ->. Qed.
Lemma get_run n : get_st (E := NodeError) n = Ok n n.
Proof. done. Qed.
Lemma network_time_run env n rt t : nd_rcu_dispatching n = false -> runtime_state (nd_phactory n) = Some rt -> env_ntp env = Some t ->
  network_time env n = Ok t n.
Proof.
  intros H1 H2 H3. unfold network_time. rewrite (bind_step _ _ _ _ _ (lock_run n H1)), (bind_step _ _ _ _ _ (runtime_run n rt H2)). by rewrite H3.
Qed.
Lemma load_run env n data : env_unseal_ok env = true -> nd_sealed n = Some (scale_encode (SealV1 data)) -> load_runtime_data env n = Ok data n.
Proof. intros H1 H2. unfold load_runtime_data. mred. by rewrite H1, H2, scale_roundtrip. Qed.

(** One step of a run, by the equation of the part it starts with *)
Ltac step E := rewrite (bind_step _ _ _ _ _ E); cbv beta iota.

Section transfer.
Context (old new : Enclave).

Lemma share_run env n pk d rt data (k : Pair) : env_unseal_ok env = true -> nd_sealed n = Some (scale_encode (SealV1 data)) ->
  prd_sk data = dump_secret_key k -> runtime_state (nd_phactory n) = Some rt -> exists my_pk c,
    encrypt_secret_to k [bs "worker_key_handover"] pk (prd_sk data) (env_random env) = Some (my_pk, c) /\
    share_worker_key env pk d n = Ok (mkWorkerKey (nd_genesis_block_hash n) (rt_para_id rt) d (mkEncrypted my_pk c (env_random env))) n.
Proof.
  intros Hu Hs Hk Hrt. unfold encrypt_secret_to. destruct (derive_ok k [bs "worker_key_handover"]) as [dk Hdk].
  destruct (aead_ok (env_random env) dk pk (prd_sk data)) as [c Hc]. exists (ecdh_public dk), c. rewrite Hdk. cbn. rewrite Hc. split; [done|].
  unfold share_worker_key. step (load_run env n data Hu Hs). rewrite Hk, restore_dump. unfold encrypt_secret_to. rewrite Hdk. cbn [mbind option_bind].
  rewrite <- Hk, Hc. cbn [mbind option_bind]. step (ok_or_run n (Some (ecdh_public dk, c)) _ NeEncrypt eq_refl). by step (runtime_run n rt Hrt).
Qed.

Lemma shared_decrypts (k other : Pair) info secret iv pk c : length secret = 64%nat ->
  encrypt_secret_to k info (ecdh_public other) secret iv = Some (pk, c) -> decrypt_secret_from other pk c iv = Some secret.
Proof. intros Hl E. destruct (key_share_roundtrip k info other secret iv Hl) as (pk' & c' & E' & H). rewrite E in E'. by injection E' as <- <-. Qed.

Lemma handover_accept_run env n (w : Pair) k secret : nd_handover_ecdh_key n = Some w -> env_seal_ok env = true ->
  decrypt_secret_from w (ek_ecdh_pubkey (ewk_encrypted_key k)) (ek_encrypted_key (ewk_encrypted_key k)) (ek_iv (ewk_encrypted_key k)) = Some secret ->
  exists n', accept_worker_key env k n = Ok tt n' /\ nd_handover_ecdh_key n' = None /\ nd_runtime_info n' = None /\
    nd_sealed n' = Some (scale_encode (SealV1 (mkRuntimeData (ewk_genesis_block_hash k) (ewk_para_id k)
      (dump_secret_key (restore_from_secret_key secret)) false (ewk_dev_mode k)))).
Proof.
  intros H1 H2 H3. unfold accept_worker_key, save_runtime_data. mred. rewrite H1. cbn. rewrite H3, H2. cbn. by eexists.
Qed.

Lemma dcap_create_run env n rt t : nd_rcu_dispatching n = false -> runtime_state (nd_phactory n) = Some rt ->
  attestation_provider (nd_phactory n) = Some ProvDcap -> nd_dev_mode n = false -> env_ntp env = Some t ->
  t <= storage_timestamp (chain_storage rt) / 1000 +[64] A_WEEK -> exists i block now,
    target_info old = Some i /\
    let c := mkDcapChallenge i block now false (env_random env) t in
    dcap_handover_create_challenge old env n = Ok c (put_dcap_last_challenge (Some c) n).
Proof.
  intros Hr Hrt Hp Hd Ht Hw. destruct (target_info_total old) as (i & Hi & _). do 3 eexists. split; [exact Hi|].
  unfold dcap_handover_create_challenge. step (network_time_run _ _ _ _ Hr Hrt Ht). step (lock_run n Hr). step (get_run n).
  rewrite Hp. step (ensure_run n _ NeDcapNotEnabled (bool_decide_true (Some ProvDcap = Some ProvDcap) eq_refl)). step (current_block_run n rt Hrt).
  assert (Hb : negb (storage_timestamp (chain_storage rt) / 1000 +[64] A_WEEK <? t) = true) by (b2p; lia). step (ensure_run n _ NeBlockTooOld Hb).
  unfold get_dcap_worker_key_challenge, challenge_target_info. mred. rewrite Hd, Hi. cbn. rewrite Hd. reflexivity.
Qed.

Lemma dcap_accept_run env n c i : nd_rcu_dispatching n = false -> target_info old = Some i -> dhc_sgx_target_info c = i -> exists report,
  let h := mkDcapHandler c (ecdh_public (env_new_key env)) in
  dcap_handover_accept_challenge new env (scale_encode c) n = Ok (mkDcapResponse (scale_encode h) report) (put_ecdh_key (Some (env_new_key env)) n) /\
  decode_report report = Some report /\ la_verify old report = true /\ rp_report_data report = blake2_256_of (scale_encode h) ++ zeroed 32 /\
  measurement_of report = measure new /\ target_info_from_report report = target_info_from_report (enclave_identity new).
Proof.
  intros Hr Hi Hc. set (h := mkDcapHandler c (ecdh_public (env_new_key env))).
  destruct (local_report_verifies new old (blake2_256_of (scale_encode h) ++ zeroed 32) i) as (r & E1 & E2 & E3 & E4 & E5 & _); [|done|].
  { by rewrite length_app, blake2_256_size. }
  exists r. split_and!; try done; [|by eapply measurement_identity|by eapply target_info_identity].
  unfold dcap_handover_accept_challenge. step (lock_run n Hr). rewrite (bind_step (modify _) _ n tt (put_ecdh_key (Some (env_new_key env)) n) eq_refl).
  step (ok_or_run (put_ecdh_key (Some (env_new_key env)) n) _ _ NeRequestDecode (scale_roundtrip c)). fold h. cbv zeta. rewrite Hc.
  assert (Hl : decode_target_info i = Some i).
  { destruct (target_info_total old) as (i' & Hi' & _ & Hl). rewrite Hi in Hi'. injection Hi' as <-. unfold decode_target_info. by rewrite Hl. }
  step (ok_or_run (put_ecdh_key (Some (env_new_key env)) n) _ _ NeInvalidTargetInfo Hl). by step (ok_or_run (put_ecdh_key (Some (env_new_key env)) n) _ _ NeCreateLaReport E1).
Qed.

Lemma my_measurement_run n : my_measurement old n = Ok (measure old) n.
Proof.
  destruct (target_info_total old) as (i & Hi & _ & Hl). destruct (sgx_report_total old i (zeroed 64) Hl eq_refl) as [r Hr].
  unfold my_measurement. step (expect_run n _ _ Hi). step (expect_run n (la_report old i (zeroed 64)) r Hr). by rewrite (measurement_identity _ _ _ _ Hr).
Qed.

(** The chain allowed the pRuntime of [new] after that of [old]. *)
Definition upgrades rt : Prop := exists t1 t2, storage_pruntime_added_at (chain_storage rt) (measure old) = Some t1 /\
  storage_pruntime_added_at (chain_storage rt) (measure new) = Some t2 /\ t1 < t2.

Lemma dcap_start_run env n rt data (k w : Pair) c t report : let h := mkDcapHandler c (ecdh_public w) in
  nd_rcu_dispatching n = false -> runtime_state (nd_phactory n) = Some rt -> attestation_provider (nd_phactory n) = Some ProvDcap ->
  nd_dev_mode n = false -> nd_sealed n = Some (scale_encode (SealV1 data)) -> prd_sk data = dump_secret_key k -> upgrades rt ->
  nd_dcap_handover_last_challenge n = Some c -> env_ntp env = Some t -> dhc_ntp_time_secs c <= t <= dhc_ntp_time_secs c + 60 -> env_unseal_ok env = true ->
  decode_report report = Some report -> la_verify old report = true -> rp_report_data report = blake2_256_of (scale_encode h) ++ zeroed 32 ->
  measurement_of report = measure new -> target_info_from_report report = target_info_from_report (enclave_identity new) -> exists my_pk c' r2,
    let wk := mkWorkerKey (nd_genesis_block_hash n) (rt_para_id rt) false (mkEncrypted my_pk c' (env_random env)) in
    encrypt_secret_to k [bs "worker_key_handover"] (ecdh_public w) (prd_sk data) (env_random env) = Some (my_pk, c') /\
    dcap_handover_start old env (mkDcapResponse (scale_encode h) report) n =
      Ok (mkDcapKeyMessage (scale_encode wk) r2) (put_dcap_last_challenge None n) /\
    decode_report r2 = Some r2 /\ la_verify new r2 = true /\ rp_report_data r2 = blake2_256_of (scale_encode wk) ++ zeroed 32.
Proof.
  intros h Hr Hrt Hp Hd Hs Hk (t1 & t2 & Ht1 & Ht2 & Ht) Hc Hn Hw Hu Hdr Hv Hrd Hm Hti. set (n1 := put_dcap_last_challenge None n).
  destruct (share_run env n1 (ecdh_public w) false rt data k Hu Hs Hk Hrt) as (my_pk & c' & He & Hsh).
  set (wk := mkWorkerKey (nd_genesis_block_hash n1) (rt_para_id rt) false (mkEncrypted my_pk c' (env_random env))) in *.
  destruct (target_info_total new) as (i & Hi & Hi' & _).
  destruct (local_report_verifies old new (blake2_256_of (scale_encode wk) ++ zeroed 32) i) as (r2 & E1 & E2 & E3 & E4 & _); [by rewrite length_app, blake2_256_size|done|].
  exists my_pk, c', r2. split; [done|]. split; [|done].
  unfold dcap_handover_start. step (network_time_run _ _ _ _ Hr Hrt Hn). step (lock_run n Hr). step (get_run n). rewrite Hp, Hd.
  step (ensure_run n _ NeDcapNotEnabled (bool_decide_true (Some ProvDcap = Some ProvDcap) eq_refl)). cbn [dcr_encoded_challenge_handler dcr_la_report].
  step (ok_or_run n _ _ NeRequestDecode (scale_roundtrip h)).
  assert (Ev : dcap_verify_worker_key_challenge (dch_challenge h) n = Ok true n1).
  { unfold dcap_verify_worker_key_challenge. mred. rewrite Hc. by rewrite bool_decide_true. }
  step Ev. step (ensure_run n1 true NeInvalidChallenge eq_refl). cbn [h dch_challenge].
  assert (Ht' : negb ((t <? dhc_ntp_time_secs c) || (CLIENT_TIMEOUT_SECS <? t - dhc_ntp_time_secs c)) = true).
  { unfold CLIENT_TIMEOUT_SECS. rewrite negb_true_iff, orb_false_iff, !Z.ltb_ge. lia. }
  step (ensure_run n1 _ NeInvalidNtpTime Ht'). step (ok_or_run n1 _ _ NeInvalidLaReport Hdr). step (ensure_run n1 _ NeNoRemoteHandover Hv).
  assert (Hh : bool_decide (blake2_256_of (scale_encode h) = take 32 (rp_report_data report)) = true).
  { apply bool_decide_eq_true. rewrite Hrd, take_app_le by (by rewrite blake2_256_size). by rewrite firstn_all2 by (by rewrite blake2_256_size). }
  step (ensure_run n1 _ NeInvalidHandler Hh). cbn [negb].
  erewrite (bind_step _ _ n1 tt n1).
  - cbn [h dch_ecdh_pubkey]. step Hsh. fold wk. rewrite Hti, <- Hi'. by step (ok_or_run n1 _ _ NeCreateLaReport E1).
  - step (runtime_run n1 rt Hrt). step (my_measurement_run n1). step (ok_or_run n1 _ _ NeServerNotAllowed Ht1). rewrite Hm.
    step (ok_or_run n1 _ _ NeClientNotAllowed Ht2). apply ensure_run. b2p. lia.
Qed.

Lemma dcap_receive_run env n (w : Pair) wk r secret : nd_rcu_dispatching n = false -> nd_handover_ecdh_key n = Some w -> env_seal_ok env = true ->
  decode_report r = Some r -> la_verify new r = true -> rp_report_data r = blake2_256_of (scale_encode wk) ++ zeroed 32 ->
  decrypt_secret_from w (ek_ecdh_pubkey (ewk_encrypted_key wk)) (ek_encrypted_key (ewk_encrypted_key wk)) (ek_iv (ewk_encrypted_key wk)) = Some secret ->
  exists n', dcap_handover_receive new env (mkDcapKeyMessage (scale_encode wk) r) n = Ok tt n' /\
    nd_sealed n' = Some (scale_encode (SealV1 (mkRuntimeData (ewk_genesis_block_hash wk) (ewk_para_id wk)
      (dump_secret_key (restore_from_secret_key secret)) false (ewk_dev_mode wk)))).
Proof.
  intros Hr Hw Hs Hd Hv Hrd Hk. destruct (handover_accept_run env n w wk secret Hw Hs Hk) as (n' & Ha & _ & _ & Hn). exists n'. split; [|done].
  unfold dcap_handover_receive. step (lock_run n Hr). cbn [dkm_encoded_worker_key dkm_la_report].
  step (ok_or_run n _ _ NeRequestDecode (scale_roundtrip wk)). step (ok_or_run n _ _ NeInvalidLaReport Hd). step (ensure_run n _ NeInvalidLaReport Hv).
  assert (Hh : bool_decide (blake2_256_of (scale_encode wk) = take 32 (rp_report_data r)) = true).
  { apply bool_decide_eq_true. rewrite Hrd, take_app_le by (by rewrite blake2_256_size). by rewrite firstn_all2 by (by rewrite blake2_256_size). }
  by step (ensure_run n _ NeInvalidKey Hh).
Qed.

(** C26: between two workers of a machine, neither dispatching on a copy of its
    state, the server attesting with DCAP and not in development mode, the
    local-attestation protocol completes whenever the chain allowed the client's
    pRuntime later, the server's block is at most a week old, the answer comes
    within a minute and the platform gives the network time and reads and writes
    sealed files; the client then has
    the server's identity key sealed, marked as handed over, and the server still
    has it. *)
Theorem dcap_handover_transfers (server client : Node R D C) rt data (k : Pair) e1 e2 e3 e4 t1 t3 :
  nd_rcu_dispatching server = false -> nd_rcu_dispatching client = false -> runtime_state (nd_phactory server) = Some rt ->
  attestation_provider (nd_phactory server) = Some ProvDcap -> nd_dev_mode server = false ->
  nd_sealed server = Some (scale_encode (SealV1 data)) -> prd_sk data = dump_secret_key k -> length (prd_sk data) = 64%nat -> upgrades rt ->
  env_ntp e1 = Some t1 -> t1 <= storage_timestamp (chain_storage rt) / 1000 +[64] A_WEEK -> env_ntp e3 = Some t3 -> t1 <= t3 <= t1 + 60 ->
  env_unseal_ok e3 = true -> env_seal_ok e4 = true -> exists c server1 r client1 m server2 client2,
    dcap_handover_create_challenge old e1 server = Ok c server1 /\
    dcap_handover_accept_challenge new e2 (scale_encode c) client = Ok r client1 /\
    dcap_handover_start old e3 r server1 = Ok m server2 /\
    dcap_handover_receive new e4 m client1 = Ok tt client2 /\
    nd_sealed client2 = Some (scale_encode (SealV1 (mkRuntimeData (nd_genesis_block_hash server) (rt_para_id rt) (prd_sk data) false false))) /\
    nd_sealed server2 = nd_sealed server.
Proof.
  intros Hrs Hrc Hrt Hp Hd Hs Hk Hl Hup Ht1 Hw Ht3 Ht Hu Hse. destruct (dcap_create_run e1 server rt t1 Hrs Hrt Hp Hd Ht1 Hw) as (i & block & now & Hi & Hc).
  set (c := mkDcapChallenge i block now false (env_random e1) t1) in *. destruct (dcap_accept_run e2 client c i Hrc Hi eq_refl) as (r & Ha & A1 & A2 & A3 & A4 & A5).
  destruct (dcap_start_run e3 (put_dcap_last_challenge (Some c) server) rt data k (env_new_key e2) c t3 r) as (my_pk & c' & r2 & He & Hst & B1 & B2 & B3); try done.
  apply shared_decrypts in He; [|done].
  destruct (dcap_receive_run e4 (put_ecdh_key (Some (env_new_key e2)) client) (env_new_key e2) _ r2 (prd_sk data) Hrc eq_refl Hse B1 B2 B3 He) as (n' & Hn & Hsl).
  do 7 eexists. split_and!; [exact Hc|exact Ha|exact Hst|exact Hn| |done]. rewrite Hsl. cbn. by rewrite Hk, restore_dump.
Qed.
End transfer.

(** C37: the first protocol checks the attestation of the client only on workers
    that attest with IAS, but answers on all: on any other worker, and so on every
    worker that attests with DCAP, whoever asks for a challenge and answers it
    with a public key of his own, without any report, receives the identity key
    of the worker. *)
Theorem ias_endpoint_leaks_key self (n : Node R D C) rt data (k w : Pair) e1 e2 :
  nd_rcu_dispatching n = false -> runtime_state (nd_phactory n) = Some rt -> attestation_provider (nd_phactory n) <> Some ProvIas ->
  nd_sealed n = Some (scale_encode (SealV1 data)) -> prd_sk data = dump_secret_key k -> length (prd_sk data) = 64%nat -> env_unseal_ok e2 = true ->
  exists c n1 m n2 wk,
    handover_create_challenge self e1 n = Ok c n1 /\
    handover_start self e2 (mkResponse (scale_encode (mkHandler c [] (ecdh_public w))) None) n1 = Ok m n2 /\
    scale_decode (km_encoded_worker_key m) = Some wk /\
    decrypt_secret_from w (ek_ecdh_pubkey (ewk_encrypted_key wk)) (ek_encrypted_key (ewk_encrypted_key wk)) (ek_iv (ewk_encrypted_key wk)) =
      Some (prd_sk data).
Proof.
  intros Hr Hrt Hp Hs Hk Hl Hu. set (block := saturating_sub (next_block_number (counters (storage_synchronizer rt))) 1).
  assert (exists i, challenge_target_info self n = Ok i n) as [i Hi].
  { destruct (target_info_total self) as (i & Hi & _). unfold challenge_target_info. mred. rewrite Hi. destruct (nd_dev_mode n); eauto. }
  set (c := mkChallenge i block (storage_timestamp (chain_storage rt)) (nd_dev_mode n) (env_random e1)). set (n1 := put_last_challenge (Some c) n).
  set (n2 := put_last_challenge None n1). destruct (share_run e2 n2 (ecdh_public w) (nd_dev_mode n) rt data k Hu Hs Hk Hrt) as (my_pk & c' & He & Hsh).
  apply shared_decrypts in He; [|done].
  set (wk := mkWorkerKey (nd_genesis_block_hash n2) (rt_para_id rt) (nd_dev_mode n) (mkEncrypted my_pk c' (env_random e2))) in *.
  exists c, n1, (mkKeyMessage (scale_encode wk) None), n2, wk. split_and!; [| |apply scale_roundtrip|exact He].
  - unfold handover_create_challenge. step (lock_run n Hr). step (current_block_run n rt Hrt). unfold get_worker_key_challenge. by step Hi.
  - unfold handover_start. step (lock_run n1 Hr). step (get_run n1). step (current_block_run n1 rt Hrt). cbn [cr_encoded_challenge_handler cr_attestation].
    step (ok_or_run n1 _ _ NeRequestDecode (scale_roundtrip (mkHandler c [] (ecdh_public w)))). rewrite (bool_decide_false _ Hp), andb_false_r.
    step (eq_refl : (mret None : M (Node R D C) NodeError (option AttestationReport)) n1 = Ok None n1). cbn [ch_challenge ch_ecdh_pubkey].
    assert (Ev : verify_worker_key_challenge c n1 = Ok true n2) by (unfold verify_worker_key_challenge; mred; cbn; by rewrite bool_decide_true).
    step Ev. step (ensure_run n2 true NeInvalidChallenge eq_refl). step (eq_refl : (mret tt : M (Node R D C) NodeError unit) n2 = Ok tt n2).
    assert (Hb : (hc_block_number c <=? block) && (block - hc_block_number c <=? CHALLENGE_BLOCKS) = true) by (cbn; b2p; unfold CHALLENGE_BLOCKS; lia).
    step (ensure_run n2 _ NeOutdatedChallenge Hb). step (eq_refl : (mret tt : M (Node R D C) NodeError unit) n2 = Ok tt n2). by step Hsh.
Qed.
End runs.
