(* ===== verification/IdentityClaims.v ===== *)
(** * Whose registration data a worker attests

    A pRuntime must not ask for a remote attestation of a key that was injected
    into it: the key is generated by itself, or the chain already knows the
    worker by it. *)

From S2P Require Import Prelude MqTypes SendQueue Storage SgxQuote Attestation Registry Dispatcher KeyShare LightClient StorageSync Phactory LocalAttest NodeKeys Handover.

(** The system keeps the identity it was created with. *)
Class SystemIdentity (R D C : Type) `{SO : !SystemOps R D C} `{CR : !Crypto} `{NL : !NodeLib R D} : Prop := {
  new_identity : forall d k q, identity_pubkey (system_new d k q).1 = public_of k;
  genesis_identity : forall b r, identity_pubkey (put_genesis_block b r) = identity_pubkey r;
  install_identity : forall c r, identity_pubkey (install_cluster c r) = identity_pubkey r;
  begins_identity : forall b t s r q d r' q' d', block_begins b t s (r, q, d) = Some (r', q', d') -> identity_pubkey r' = identity_pubkey r;
  messages_identity : forall b t s r q d r' q' d', block_messages b t s (r, q, d) = Some (r', q', d') -> identity_pubkey r' = identity_pubkey r;
  ends_identity : forall b t s r q d r' q' d', block_ends b t s (r, q, d) = Some (r', q', d') -> identity_pubkey r' = identity_pubkey r;
}.

Section identity.
Context {R D C : Type} `{CL : !ChainLib} `{HC : !HeaderCodec} `{TL : !TrieLib D} `{CS : !ChainStorageLib D} `{PL : !PlatformLib}
  `{SO : !SystemOps R D C} `{CR : !Crypto} `{NL : !NodeLib R D} `{SC : !SgxCpu} `{SL : !SgxLib}
  `{!Codec RuntimeDataSeal} `{!Codec WorkerRegistrationInfoV2} `{!Codec HandoverChallenge} `{!Codec ChallengeHandlerInfo}
  `{!Codec DcapHandoverChallenge} `{!Codec DcapChallengeHandlerInfo} `{!Codec EncryptedWorkerKey} `{!Codec (option AttestationReport)}
  `{!CodecLaws RuntimeDataSeal} `{!CodecLaws WorkerRegistrationInfoV2} `{KL : !CryptoLaws} `{SI : !SystemIdentity R D C}.
Variable self : Enclave.
Implicit Types (n : Node R D C) (p : Phactory R D C) (env : CallEnv).

(** ** What following the chain keeps *)

Definition same_identity (r r' : option R) : Prop :=
  match r, r' with
  | None, None => True
  | Some r, Some r' => identity_pubkey r' = identity_pubkey r
  | _, _ => False
  end.
#[local] Instance same_identity_preorder : PreOrder same_identity.
Proof. split; [by intros []|]. intros [x|] [y|] [z|]; cbn; try done. congruence. Qed.

Definition follows p p' : Prop := trusted_sk p' = trusted_sk p /\ same_identity (system p) (system p').
#[local] Instance follows_preorder : PreOrder follows.
Proof. split; [by intros p; split|]. intros p1 p2 p3 [H1 H2] [H3 H4]. split; [congruence|]. by etrans. Qed.

Lemma follows_storage {A} (m : M (Synchronizer LightValidation * TrieStorage D) SyncError A) : moves follows (on_storage m).
Proof. intros p. unfold on_storage. destruct (runtime_state p) as [rt|]; [|done]. by destruct (m _) as [a [s t]|e [s t]|]. Qed.
Lemma follows_synchronizer {A} (m : M (Synchronizer LightValidation) SyncError A) : moves follows (on_synchronizer m).
Proof. apply follows_storage. Qed.
Lemma follows_runtime : moves follows get_runtime.
Proof. unfold get_runtime. moves. Qed.
Lemma follows_can_load b : moves follows (modify (E := RpcError) (put_can_load b)).
Proof. by apply moves_modify. Qed.
#[local] Hint Resolve follows_storage follows_synchronizer follows_runtime follows_can_load : moves.

Definition same_system p p' : Prop := trusted_sk p' = trusted_sk p /\ system p' = system p.
#[local] Instance same_system_preorder : PreOrder same_system.
Proof. split; [by intros p; split|]. intros p1 p2 p3 [H1 H2] [H3 H4]. split; congruence. Qed.
Lemma same_storage {A} (m : M (Synchronizer LightValidation * TrieStorage D) SyncError A) : moves same_system (on_storage m).
Proof. intros p. unfold on_storage. destruct (runtime_state p) as [rt|]; [|done]. by destruct (m _) as [a [s t]|e [s t]|]. Qed.
Lemma same_get_runtime : moves same_system get_runtime.
Proof. unfold get_runtime. moves. Qed.
Lemma same_system_follows p p' : same_system p p' -> follows p p'.
Proof. intros [H1 H2]. split; [done|]. by rewrite H2. Qed.

Lemma messages_none b now t l : foldl (dispatch_message_to (R := R) (D := D) (C := C) b now t) None l = None.
Proof. induction l as [|m l IH]; [done|]. apply IH. Qed.
Lemma messages_fold b now t l : forall r q d r' q' d',
  foldl (dispatch_message_to b now t) (Some (r, q, d)) l = Some (r', q', d') -> identity_pubkey r' = identity_pubkey r.
Proof.
  induction l as [|m l IH]; intros r q d r' q' d' H; [by injection H as <- _ _|].
  change (foldl (dispatch_message_to b now t) (block_messages b now t (r, q, (dispatch m d).2)) l = Some (r', q', d')) in H.
  destruct (block_messages b now t (r, q, (dispatch m d).2)) as [[[r1 q1] d1]|] eqn:E; [|by rewrite messages_none in H].
  rewrite <- (messages_identity _ _ _ _ _ _ _ _ _ E). by eapply IH.
Qed.

Lemma process_identity b t (w w' : Work R C) : process_block b t w = Some w' -> identity_pubkey (wk_system w') = identity_pubkey (wk_system w).
Proof.
  unfold process_block, handle_inbound_messages. intros H. destruct (check_requirements t); [|done]. cbn in H.
  destruct (block_begins _ _ _ _) as [[[r1 q1] d1]|] eqn:E1; [|by rewrite messages_none in H]. apply begins_identity in E1.
  destruct (foldl _ _ _) as [[[r2 q2] d2]|] eqn:E2; [|done]. apply messages_fold in E2. cbn in H.
  destruct (block_ends _ _ _ _) as [[[r3 q3] d3]|] eqn:E3; [|done]. apply ends_identity in E3. cbn in H. injection H as <-.
  unfold maybe_apply_cluster_state. cbn. destruct (wk_cluster_state w) as [cs|]; cbn; [|congruence]. repeat case_match; cbn; rewrite ?install_identity; congruence.
Qed.

Lemma follows_dispatch_one block : moves follows (dispatch_one block).
Proof.
  intros p. unfold dispatch_one. mred. pose proof (same_storage (ss_feed_block block (1 <? safe_mode_level p)) p) as H1.
  destruct (on_storage _ p) as [a p1|e p1|]; [|by apply same_system_follows|done]. destruct (0 <? safe_mode_level p); [by apply same_system_follows|].
  pose proof (same_get_runtime p1) as H2. destruct (get_runtime p1) as [rt p2|e p2|]; [|by apply same_system_follows; etrans|done].
  assert (H3 : same_system p p2) by by etrans. destruct (system p2) as [sys|] eqn:Es; cbn; [|by apply same_system_follows].
  destruct (process_block _ _ _) as [w|] eqn:Ew; cbn; [|done]. apply process_identity in Ew. destruct H3 as [H3 H4]. split; [done|].
  rewrite <- H4, Es. cbn in *. done.
Qed.
#[local] Hint Resolve follows_dispatch_one : moves.
Lemma follows_load b s : moves follows (load_chain_state b s).
Proof.
  intros p. unfold load_chain_state. mred. destruct (can_load_chain_state p); [|reflexivity]. destruct (negb (b =? 0)); [|reflexivity].
  destruct (system p) as [sys|] eqn:Es; [|reflexivity]. destruct (runtime_state p) as [rt|]; [|reflexivity].
  destruct (_ =? rt_para_id rt); [|reflexivity]. destruct (negb (storage_worker_registered _ _)); [|reflexivity].
  pose proof (same_storage (fun st => match assume_at_block b st.1 with Ok a s => Ok a (s, st.2) | Err e s => Err e (s, st.2) | Panic => Panic end) p) as H1.
  unfold on_synchronizer. destruct (on_storage _ p) as [a p1|e p1|]; [|by apply same_system_follows|done].
  pose proof (same_get_runtime p1) as H2. destruct (get_runtime p1) as [rt' p2|e p2|]; [|by apply same_system_follows; etrans|done].
  destruct H1, H2. split; cbn; [congruence|]. rewrite Es. apply genesis_identity.
Qed.
Lemma follows_sync l : moves follows (rpc_sync_header l).
Proof. unfold rpc_sync_header. moves. Qed.
Lemma follows_sync_para l pr : moves follows (rpc_sync_para_header l pr).
Proof. unfold rpc_sync_para_header. moves. Qed.
#[local] Hint Resolve follows_load follows_sync follows_sync_para : moves.
Lemma follows_combined l1 l2 pr : moves follows (sync_combined_headers l1 l2 pr).
Proof. unfold sync_combined_headers. moves. Qed.
Lemma follows_dispatch l : moves follows (dispatch_blocks l).
Proof. unfold dispatch_blocks. moves. Qed.
#[local] Hint Resolve follows_combined follows_dispatch : moves.

(** ** What every call but [init_runtime] and [get_runtime_info] keeps *)

(** The identity of the running system stays; the sealed key stays or becomes
    one that is not trusted; the registration data stay or are dropped. *)
Definition identity_kept n n' : Prop :=
  follows (nd_phactory n) (nd_phactory n') /\
  (nd_sealed n' = nd_sealed n \/ exists d, nd_sealed n' = Some (scale_encode (SealV1 d)) /\ prd_trusted_sk d = false) /\
  (nd_runtime_info n' = nd_runtime_info n \/ nd_runtime_info n' = None).
#[local] Instance identity_kept_preorder : PreOrder identity_kept.
Proof.
  split; [intros n; split_and!; [reflexivity|by left|by left]|].
  intros n1 n2 n3 (F1 & S1 & I1) (F2 & S2 & I2). split_and!; [by etrans| |].
  - destruct S2 as [->|?]; [done|by right].
  - destruct I2 as [->|?]; [done|by right].
Qed.

Lemma kept_phactory {A} (m : M (Phactory R D C) RpcError A) : moves follows m -> moves identity_kept (on_phactory m).
Proof.
  intros H n. specialize (H (nd_phactory n)). unfold on_phactory. destruct (m (nd_phactory n)); [..|done]; split_and!; cbn; try done; by left.
Qed.
Lemma kept_modify (f : Node R D C -> Node R D C) : (forall n, identity_kept n (f n)) -> moves identity_kept (modify (E := NodeError) f).
Proof. apply moves_modify. Qed.
Lemma kept_map {A B} (f : A -> B) (m : M (Node R D C) NodeError A) : moves identity_kept m -> moves identity_kept (f <$> m).
Proof. intros H n. specialize (H n). unfold fmap, M_map. by destruct (m n). Qed.
#[local] Hint Resolve kept_phactory kept_map : moves.
#[local] Hint Extern 2 (moves identity_kept (modify _)) =>
  apply kept_modify; intros ?; split_and!; [reflexivity|by left|first [by left|by right]] : moves.

Lemma kept_share env pk d : moves identity_kept (share_worker_key env pk d).
Proof. unfold share_worker_key. moves. Qed.
Lemma kept_save env g para k d : moves identity_kept (save_runtime_data env g para k false d).
Proof.
  unfold save_runtime_data. moves. apply kept_modify. intros n. split_and!; [reflexivity| |by left]. right. by eexists.
Qed.
#[local] Hint Resolve kept_share kept_save : moves.
Lemma kept_accept env k : moves identity_kept (accept_worker_key env k).
Proof. unfold accept_worker_key. moves. Qed.
Lemma kept_verify c : moves identity_kept (verify_worker_key_challenge c).
Proof. unfold verify_worker_key_challenge. moves. Qed.
Lemma kept_dcap_verify c : moves identity_kept (dcap_verify_worker_key_challenge c).
Proof. unfold dcap_verify_worker_key_challenge. moves. Qed.
#[local] Hint Resolve kept_accept kept_verify kept_dcap_verify : moves.

Definition changes_identity (c : NodeCall) : bool := match c with NcInit _ _ _ _ _ _ _ _ | NcGetRuntimeInfo _ _ => true | _ => false end.
Lemma kept_exec env c : changes_identity c = false -> moves identity_kept (node_exec self env c).
Proof.
  destruct c; intros Hc; try discriminate Hc; unfold node_exec; repeat (moves_step || apply kept_map).
  all: unfold handover_create_challenge, get_worker_key_challenge, handover_start, handover_accept_challenge, handover_receive,
    dcap_handover_create_challenge, get_dcap_worker_key_challenge, dcap_handover_start, dcap_handover_accept_challenge, dcap_handover_receive; moves.
Qed.

(** ** The invariant *)

Definition generated (h : list (NodeEvent R D C)) (pk : WorkerPublicKey) : Prop := exists k, k ∈ omap generated_of h /\ pk = public_of k.

(** The report was asked for in some call of the history, when attestation was
    allowed, on these registration data; unless it proves nothing (no provider),
    their key was generated by this worker or its system was registered with it. *)
Definition justified (h : list (NodeEvent R D C)) (encoded : bytes) (a : NodeAttestation) : Prop := exists e info,
  e ∈ h /\ scale_decode encoded = Some info /\
  attest_loop (env_attest (ev_env e) (na_provider a) (blake2_256_of encoded)) 0 ra_max_retries = Some (na_encoded_report a) /\
  (na_provider a <> None ->
     generated h (ri_pubkey (ri2_info info)) \/
     exists sys, system (nd_phactory (ev_node e)) = Some sys /\ registered sys = true /\ identity_pubkey sys = ri_pubkey (ri2_info info)).

Definition sealed_ok (h : list (NodeEvent R D C)) n : Prop := forall file d,
  nd_sealed n = Some file -> scale_decode file = Some (SealV1 d) -> prd_trusted_sk d = true -> exists k, k ∈ omap generated_of h /\ prd_sk d = dump_secret_key k.
Definition info_ok (h : list (NodeEvent R D C)) n : Prop := forall resp, nd_runtime_info n = Some resp -> exists sys info,
  system (nd_phactory n) = Some sys /\ scale_decode (ir_encoded_runtime_info resp) = Some info /\ ri_pubkey (ri2_info info) = identity_pubkey sys /\
  (trusted_sk (nd_phactory n) = true -> generated h (identity_pubkey sys)) /\
  (forall a, ir_attestation resp = Some a -> justified h (ir_encoded_runtime_info resp) a).

Lemma generated_more e h pk : generated h pk -> generated (e :: h) pk.
Proof. intros (k & Hk & ->). exists k. split; [|done]. cbn. destruct (generated_of e); [by right|done]. Qed.
Lemma justified_more e h b a : justified h b a -> justified (e :: h) b a.
Proof.
  intros (ev & info & H1 & H2 & H3 & H4). exists ev, info. split_and!; [by right|done..|]. intros Hp. destruct (H4 Hp) as [H|H]; [left; by apply generated_more|by right].
Qed.
Lemma sealed_more e h n : sealed_ok h n -> sealed_ok (e :: h) n.
Proof. intros H f d H1 H2 H3. destruct (H f d H1 H2 H3) as (k & Hk & E). exists k. split; [|done]. cbn. destruct (generated_of e); [by right|done]. Qed.
Lemma info_more e h n : info_ok h n -> info_ok (e :: h) n.
Proof.
  intros H resp E. destruct (H resp E) as (sys & info & H1 & H2 & H3 & H4 & H5). exists sys, info.
  split_and!; [done..|intros Ht; by apply generated_more, H4|intros a Ha; by apply justified_more, H5].
Qed.

Lemma sealed_kept h n n' : identity_kept n n' -> sealed_ok h n -> sealed_ok h n'.
Proof.
  intros (_ & [E|(d' & E & Ht)] & _) H f d H1 H2 H3; [rewrite E in H1; by eapply H|]. rewrite E in H1. injection H1 as <-.
  rewrite scale_roundtrip in H2. injection H2 as <-. congruence.
Qed.
Lemma info_kept h n n' : identity_kept n n' -> info_ok h n -> info_ok h n'.
Proof.
  intros ([Ht Hs] & _ & [E|E]) H resp Hr; rewrite E in Hr; [|done]. destruct (H resp Hr) as (sys & info & H1 & H2 & H3 & H4 & H5).
  rewrite H1 in Hs. unfold same_identity in Hs. destruct (system (nd_phactory n')) as [sys'|]; [|done]. exists sys', info. rewrite Hs, Ht. done.
Qed.

(** [P] holds of the state a call leaves, also on an error. *)
Definition leaves {A} (P : Node R D C -> Prop) (m : M (Node R D C) NodeError A) n : Prop := match m n with Ok _ n' | Err _ n' => P n' | Panic => True end.
Lemma leaves_pure {A B} P (m : M (Node R D C) NodeError A) (f : A -> M (Node R D C) NodeError B) n :
  moves eq m -> P n -> (forall a, m n = Ok a n -> leaves P (f a) n) -> leaves P (m ≫= f) n.
Proof.
  intros Hm Hp Hf. specialize (Hm n). unfold leaves, mbind, M_bind. destruct (m n) as [a n'|e n'|] eqn:E; [subst n'|by subst n'|done]. by apply Hf.
Qed.
Lemma leaves_bind {A B} P (m : M (Node R D C) NodeError A) (f : A -> M (Node R D C) NodeError B) n :
  match m n with Ok a n' => leaves P (f a) n' | Err _ n' => P n' | Panic => True end -> leaves P (m ≫= f) n.
Proof. unfold leaves, mbind, M_bind. by destruct (m n). Qed.
Lemma leaves_modify {B} P g (f : unit -> M (Node R D C) NodeError B) n : leaves P (f tt) (g n) -> leaves P (modify g ≫= f) n.
Proof. done. Qed.
Ltac pure_step := apply leaves_pure; [solve [moves]|assumption|intros].

(** ** [get_runtime_info] *)

(** Only the registration data may change. *)
Definition data_only n n' : Prop := nd_phactory n' = nd_phactory n /\ nd_sealed n' = nd_sealed n.
Lemma sealed_data_only h n n' : data_only n n' -> sealed_ok h n -> sealed_ok h n'.
Proof. intros [_ E] H f d. rewrite E. apply H. Qed.

Lemma update_spec h n f : (forall i, ri_pubkey (ri2_info (f i)) = ri_pubkey (ri2_info i)) -> info_ok h n ->
  match update_runtime_info f n with
  | Ok _ n' => data_only n n' /\ info_ok h n' /\ (forall resp, nd_runtime_info n' = Some resp -> ir_attestation resp = None)
  | Err _ _ => False
  | Panic => True
  end.
Proof.
  intros Hf H. unfold update_runtime_info. mred. destruct (nd_runtime_info n) as [resp|] eqn:Er.
  - destruct (H resp Er) as (sys & info & H1 & H2 & H3 & H4 & H5). rewrite H2. split; [done|]. split; [|by intros ? [= <-]].
    intros ? [= <-]. cbn. eexists sys, _. split_and!; [done|apply scale_roundtrip|by rewrite Hf|done|done].
  - cbn. split; [done|]. split; [done|]. intros resp. by rewrite Er.
Qed.

Lemma info_refresh h n resp att : nd_runtime_info n = Some resp -> (forall a, att = Some a -> ir_attestation resp = Some a \/ justified h (ir_encoded_runtime_info resp) a) ->
  info_ok h n -> info_ok h (put_runtime_info (Some (mkInitResponse (ir_encoded_runtime_info resp) att)) n).
Proof.
  intros Er Ha H ? [= <-]. cbn. destruct (H resp Er) as (sys & info & H1 & H2 & H3 & H4 & H5). exists sys, info. split_and!; try done.
  intros a E. destruct (Ha a E) as [E'|Hj]; [by apply H5|done].
Qed.

Lemma allowed_justified e h resp n a : e ∈ h -> nd_phactory (ev_node e) = nd_phactory n -> allow_attestation (nd_phactory n) = true -> info_ok h n ->
  nd_runtime_info n = Some resp -> na_provider a = attestation_provider (nd_phactory n) ->
  attest_loop (env_attest (ev_env e) (na_provider a) (blake2_256_of (ir_encoded_runtime_info resp))) 0 ra_max_retries = Some (na_encoded_report a) ->
  justified h (ir_encoded_runtime_info resp) a.
Proof.
  intros He En Hal H Er Hp Hl. destruct (H resp Er) as (sys & info & H1 & H2 & H3 & H4 & _). exists e, info. split_and!; try done. intros Hn.
  unfold allow_attestation in Hal. rewrite H1 in Hal. destruct (runtime_state _); [|done]. b2p. destruct Hal as [_ [[Ht|Hr]|Hp']]; [|right|congruence].
  - left. rewrite H3. by apply H4.
  - exists sys. by rewrite En.
Qed.

Lemma info_get_runtime_info h n env refresh operator out : let e := mkEvent n env (NcGetRuntimeInfo refresh operator) out in
  info_ok h n -> leaves (fun n' => data_only n n' /\ info_ok (e :: h) n') (get_runtime_info env refresh operator) n.
Proof.
  intros e H. apply (info_more e) in H. assert (He : e ∈ e :: h) by left. revert He H. generalize (e :: h). clear h. intros h He H.
  set (P := fun n' => data_only n n' /\ info_ok h n'). assert (HP : P n) by done. unfold get_runtime_info.
  pure_step. pure_step. match goal with E : get_st n = Ok ?x n |- _ => injection E as <- end. pure_step. pure_step.
  match goal with |- leaves _ (?m ≫= ?f) _ => assert (Hm : match m n with Ok _ n' => P n' | Err _ _ => False | Panic => True end); [|assert (Hf : forall n', P n' -> leaves P (f tt) n')] end.
  - destruct (bool_decide (is_Some operator)); [|exact HP]. pose proof (update_spec h n (put_ri_operator operator) (fun _ => eq_refl) H) as Hu. destruct (update_runtime_info _ n); [|done..]. by destruct Hu as (? & ? & _).
  - clear Hm. intros n1 [[Ep Es] I1]. assert (HP1 : P n1) by done. pure_step. match goal with E : get_st n1 = Ok ?x n1 |- _ => injection E as <- end.
    apply leaves_pure; [solve [moves]|done|]. intros resp Er. assert (Er' : nd_runtime_info n1 = Some resp).
    { destruct (nd_runtime_info n1); [|done]. by injection Er as ->. }
    set (att := match ir_attestation resp with Some a => _ | None => None end). apply leaves_modify. set (n2 := put_runtime_info _ n1).
    assert (I2 : info_ok h n2). { apply info_refresh; [done| |done]. intros b Hb. left. unfold att in Hb. repeat case_match; congruence. }
    assert (HP2 : P n2) by done. destruct (allow_attestation (nd_phactory n)) eqn:Hal; [|done]. destruct att; [done|].
    apply leaves_pure; [solve [moves]|done|]. intros b Hb. apply leaves_modify. split; [done|].
    change (info_ok h (put_runtime_info (Some (mkInitResponse (ir_encoded_runtime_info resp) (Some b))) n1)).
    unfold create_attestation_report_on in Hb. run_ok Hb r s Hr. run_prim Hb. apply info_refresh; [done| |done]. intros ? [= <-]. right.
    apply (allowed_justified e _ _ n1); first [done|by rewrite Ep].
  - unfold leaves, mbind, M_bind. match type of Hm with match ?x with _ => _ end => destruct x as [[] n'|e' n'|] end; [by apply Hf|done|done].
Qed.

(** ** [init_runtime] *)

(** Only the sealed file may change. *)
Definition seal_only n n' : Prop := nd_phactory n' = nd_phactory n /\ nd_runtime_info n' = nd_runtime_info n.
Definition own_key (h : list (NodeEvent R D C)) (d : PersistentRuntimeData) : Prop :=
  prd_trusted_sk d = true -> exists k, k ∈ omap generated_of h /\ prd_sk d = dump_secret_key k.

Lemma sealed_put h n d : own_key h d -> sealed_ok h (put_sealed_data (Some (scale_encode (SealV1 d))) n).
Proof. intros H f d' [= <-]. rewrite scale_roundtrip. intros [= <-]. apply H. Qed.
Lemma load_own h n env : sealed_ok h n -> match load_runtime_data env n with Ok d n' => n' = n /\ own_key h d | Err _ n' => n' = n | Panic => True end.
Proof.
  intros H. unfold load_runtime_data. mred. destruct (env_unseal_ok env); [|done]. destruct (nd_sealed n) as [f|] eqn:Ef; [|done].
  destruct (scale_decode f) as [[d]|] eqn:Ed; [|done]. split; [done|]. intros Ht. by eapply H.
Qed.

Lemma init_data_spec h n env g para key : env_new_key env ∈ omap generated_of h -> sealed_ok h n ->
  match init_runtime_data env g para key n with
  | Ok d n' => seal_only n n' /\ sealed_ok h n' /\ own_key h d
  | Err _ n' => seal_only n n' /\ sealed_ok h n'
  | Panic => False
  end.
Proof.
  intros Hk H. unfold init_runtime_data. unfold mbind at 1, M_bind at 1.
  match goal with |- match match ?m with _ => _ end with _ => _ end =>
    assert (Hm : match m with Ok d n' => seal_only n n' /\ sealed_ok h n' /\ own_key h d | Err _ n' => seal_only n n' /\ sealed_ok h n' | Panic => False end) end.
  { assert (Hs : forall sk (t d : bool), (t = true -> sk = env_new_key env) -> match save_runtime_data env g para sk t d n with
      Ok dt n' => seal_only n n' /\ sealed_ok h n' /\ own_key h dt | Err _ n' => seal_only n n' /\ sealed_ok h n' | Panic => False end).
    { intros sk t d Ht. unfold save_runtime_data. mred. destruct (env_seal_ok env); [|done].
      assert (Ho : own_key h (mkRuntimeData g para (dump_secret_key sk) t d)) by (intros Ht'; exists (env_new_key env); by rewrite Ht).
      split_and!; [done|by apply sealed_put|done]. }
    destruct key as [sk|]; [by apply Hs|]. pose proof (load_own h n env H) as Hl. destruct (load_runtime_data env n) as [d n'|[] n'|] eqn:El; try (by subst n'); try (by destruct Hl as [Hl ?]; subst n').
    - subst n'. by apply Hs.
    - unfold load_runtime_data in El. mrun. }
  match goal with |- match match ?m with _ => _ end with _ => _ end => destruct m as [d n'|e n'|] end; [|done|done].
  mred. destruct Hm as (H1 & H2 & H3). destruct (g =? _); [|done]. by destruct (para =? _).
Qed.

Lemma init_runtime_state_same b hd a pr g p : match init_runtime_state b hd a pr g p with Ok _ p' | Err _ p' => p' = p | Panic => True end.
Proof. unfold init_runtime_state. destruct (initialize_bridge _ _ _ _); [|done..]. mred. by destruct (_ || _). Qed.

Lemma no_info h n : info_ok h n -> system (nd_phactory n) = None -> nd_runtime_info n = None.
Proof. intros H Hs. destruct (nd_runtime_info n) as [resp|] eqn:E; [|done]. destruct (H resp E) as (sys & ? & E' & _). congruence. Qed.
Lemma info_none h n : nd_runtime_info n = None -> info_ok h n.
Proof. intros E resp. by rewrite E. Qed.

Lemma init_spec h n env b hd a pr g o dk prov out : let e := mkEvent n env (NcInit b hd a pr g o dk prov) out in
  sealed_ok h n -> info_ok h n -> leaves (fun n' => sealed_ok (e :: h) n' /\ info_ok (e :: h) n') (init_runtime env b hd a pr g o dk prov) n.
Proof.
  intros e Hs Hi. pose proof (no_info h n Hi) as Hno. apply (sealed_more e) in Hs. apply (info_more e) in Hi.
  assert (Hk : env_new_key env ∈ omap generated_of (e :: h)) by (cbn; left). revert Hk Hs Hi. generalize (e :: h). clear h e. intros h Hk Hs Hi.
  set (P := fun n' => sealed_ok h n' /\ info_ok h n'). assert (HP : P n) by done. unfold init_runtime.
  pure_step. pure_step. match goal with E : get_st n = Ok ?x n |- _ => injection E as <- end. apply leaves_pure; [solve [moves]|done|].
  intros u Hu. destruct (system (nd_phactory n)) eqn:Es; [done|]. specialize (Hno eq_refl). clear Hu u.
  apply leaves_bind. match goal with |- match ?m with _ => _ end =>
    assert (Hm : match m with Ok d n' => seal_only n n' /\ sealed_ok h n' /\ own_key h d | Err _ n' => seal_only n n' /\ sealed_ok h n' | Panic => False end) end.
  { destruct dk as [raw|]; [|by apply init_data_spec]. mred. destruct (from_seed_slice raw); [|done]. by apply init_data_spec. }
  match goal with |- match ?m with _ => _ end => destruct m as [d n1|e1 n1|] end; [|destruct Hm as [[_ E] ?]; split; [done|]; apply info_none; congruence|done].
  destruct Hm as ([Ep Er] & H1 & Ho). apply leaves_modify, leaves_modify, leaves_modify. set (n2 := put_phactory _ _).
  assert (HP2 : P n2) by (split; [done|apply info_none; cbn; congruence]). pure_step. pure_step. apply leaves_bind. unfold on_phactory.
  pose proof (init_runtime_state_same b hd a pr g (nd_phactory n2)) as Hst.
  destruct (init_runtime_state b hd a pr g (nd_phactory n2)) as [rt p'|e1 p'|]; [subst p'|subst p'; by rewrite put_phactory_same|done]. rewrite put_phactory_same.
  pose proof (new_identity (prd_dev_mode d) (restore_from_secret_key (prd_sk d)) (recv_mq rt)) as Hid. destruct (system_new _ _ _) as [sys q]. apply leaves_modify, leaves_modify, leaves_modify.
  split; [done|]. intros ? [= <-]. cbn. do 2 eexists. split_and!; [done|apply scale_roundtrip|done| |done].
  intros Ht. destruct (Ho Ht) as (k & Hkg & Ek). exists k. split; [done|]. cbn in Hid. by rewrite Hid, Ek, restore_dump.
Qed.

Lemma leaves_map {A B} P (f : A -> B) (m : M (Node R D C) NodeError A) n : leaves P m n -> leaves P (f <$> m) n.
Proof. unfold leaves, fmap, M_map. by destruct (m n). Qed.

Lemma identity_exec h n env c out : sealed_ok h n -> info_ok h n ->
  leaves (fun n' => sealed_ok (mkEvent n env c out :: h) n' /\ info_ok (mkEvent n env c out :: h) n') (node_exec self env c) n.
Proof.
  intros IS II. destruct (changes_identity c) eqn:Ec.
  - destruct c; try discriminate Ec; cbn [node_exec]; apply leaves_map; [by apply init_spec|].
    pose proof (info_get_runtime_info h n env refresh_ra operator out II) as Hl. unfold leaves in *.
    destruct (get_runtime_info _ _ _ n); [..|done]; destruct Hl as [Hd Hi]; (split; [|done]); by eapply sealed_data_only, sealed_more.
  - pose proof (kept_exec env c Ec n) as Hk. unfold leaves.
    destruct (node_exec self env c n); [..|done]; (split; [by apply sealed_more; eapply sealed_kept|by apply info_more; eapply info_kept]).
Qed.

Lemma history_identity h n : node_history self h n -> sealed_ok h n /\ info_ok h n.
Proof.
  induction 1 as [|h n ? ? _ [IS II]|h n env c o n' _ [IS II] H|h n env c e n' _ [IS II] H]; [by split|by split|..].
  - pose proof (identity_exec h n env c (Some o) IS II) as Hl. unfold leaves in Hl. by rewrite H in Hl.
  - pose proof (identity_exec h n env c None IS II) as Hl. unfold leaves in Hl. by rewrite H in Hl.
Qed.

(** C24: whatever calls a worker receives, handovers, debug keys and restarts
    included, a remote attestation it holds for its registration data was asked
    for on exactly those data, and the public key in them is one the worker
    generated itself or one the chain had registered the running system by: a key
    that was injected or handed over is never attested before that. *)
Theorem injected_keys_not_attested h n resp a : node_history self h n -> nd_runtime_info n = Some resp -> ir_attestation resp = Some a ->
  justified h (ir_encoded_runtime_info resp) a.
Proof. intros H Hr Ha. destruct (history_identity h n H) as [_ Hi]. destruct (Hi resp Hr) as (sys & info & _ & _ & _ & _ & Hj). by apply Hj. Qed.

(** [init_runtime] with a debug key and an attestation provider is refused, but
    only after the debug key has replaced the sealed identity key. *)
Theorem refused_init_replaces_key n env b hd a pr g o raw sk prov : nd_rcu_dispatching n = false -> safe_mode_level (nd_phactory n) <= 0 ->
  system (nd_phactory n) = None -> from_seed_slice raw = Some sk -> env_seal_ok env = true -> exists n',
    init_runtime env b hd a pr g o (Some raw) (Some prov) n = Err NeRaDisallowed n' /\
    nd_sealed n' = Some (scale_encode (SealV1 (mkRuntimeData (header_hash hd) (storage_para_id (from_pairs g)) (dump_secret_key sk) false true))).
Proof.
  intros Hr Hl Hs Hk Hse. unfold init_runtime, lock_phactory, init_runtime_data, save_runtime_data. mred. rewrite Hr, (proj2 (Z.ltb_ge 0 _) Hl). cbn.
  rewrite Hs, Hk, Hse. cbn. rewrite !Z.eqb_refl. cbn. by eexists.
Qed.
End identity.
