(* ===== verification/NodeRuns.v ===== *)
(** * A worker that registers and hands its key over

    The theorems on identities and handovers at a small platform: a CPU whose
    report key of an enclave is part of its measurement, and two pRuntimes. *)

From S2P Require Import Prelude MqTypes SendQueue Storage SgxQuote Attestation AttestClaims Registry Dispatcher KeyShare LightClient StorageSync Phactory PhactoryRuns LocalAttest NodeKeys Handover HandoverClaims IdentityClaims.

#[local] Existing Instance toy_lib.
#[local] Existing Instance toy_head_codec.
#[local] Existing Instance toy_trie.
#[local] Existing Instance toy_storage.
#[local] Existing Instance toy_platform.

(** ** The platform *)

Definition ToyEnclave : Type := { e : bytes | (length e =? 320)%nat = true }.
Definition toy_report (e : ToyEnclave) (t rd : bytes) : option bytes :=
  if (length t =? 512)%nat && (length rd =? 64)%nat then Some (proj1_sig e ++ rd ++ zeroed 32 ++ take 16 t) else None.
#[local] Instance toy_cpu : SgxCpu := {|
  Enclave := ToyEnclave;
  sgx_report := toy_report;
  sgx_getkey e kid := if bool_decide (kid = zeroed 32) then Some (field 64 16 (proj1_sig e)) else None;
  cmac_aes128 key _ := key;
|}.

Lemma toy_report_Some (e : ToyEnclave) t rd r : toy_report e t rd = Some r ->
  length (proj1_sig e) = 320%nat /\ length t = 512%nat /\ length rd = 64%nat /\ r = proj1_sig e ++ rd ++ zeroed 32 ++ take 16 t.
Proof.
  unfold toy_report. intros H. destruct (_ && _) eqn:E; [|done]. injection H as <-. apply andb_true_iff in E as [E1%Nat.eqb_eq E2%Nat.eqb_eq].
  split_and!; try done. destruct e as [e He]. by apply Nat.eqb_eq.
Qed.
Lemma field_app (a b : bytes) o n : length a = o -> length b = n -> forall c, field o n (a ++ b ++ c) = b.
Proof. intros <- <- c. unfold field. rewrite drop_app_length. apply take_app_length. Qed.

#[local] Instance toy_cpu_laws : SgxCpuLaws.
Proof.
  refine {| enclave_identity e := proj1_sig (e : ToyEnclave) |}.
  - intros e t rd Ht Hr. cbn. unfold toy_report, size_of_target_info in *. rewrite Ht, Hr. cbn. by eexists.
  - intros e t rd r (H1 & H2 & H3 & ->)%toy_report_Some. rewrite !length_app, length_take, H1, H2, H3. done.
  - intros e t rd r (H1 & H2 & H3 & ->)%toy_report_Some. rewrite take_app_le by lia. by rewrite firstn_all2 by lia.
  - intros e t rd r (H1 & H2 & H3 & ->)%toy_report_Some. unfold rp_report_data. by apply field_app.
  - intros e t rd r e' (H1 & H2 & H3 & ->)%toy_report_Some ->. exists (field 64 16 (proj1_sig (e' : ToyEnclave))).
    assert (length (proj1_sig (e' : ToyEnclave)) = 320%nat) as He'. { destruct e' as [e' He']. by apply Nat.eqb_eq. }
    split_and!; [|rewrite length_field; lia|].
    + cbn [sgx_getkey toy_cpu]. unfold rp_key_id. rewrite (app_assoc (proj1_sig e)). rewrite field_app; [by rewrite bool_decide_true|by rewrite length_app, H1, H3|done].
    + cbn [cmac_aes128 toy_cpu]. unfold rp_mac. rewrite (app_assoc (proj1_sig e)), (app_assoc (_ ++ rd)). unfold field at 2. rewrite drop_app_length' by (by rewrite !length_app, H1, H3).
      unfold target_info_from_report, rp_mr_enclave. rewrite !take_app_le by (rewrite ?length_field; lia). unfold field. by rewrite !take_take.
Defined.

Lemma split_report (r : bytes) : length r = 432%nat -> rp_key_id r = zeroed 32 -> r = take 320 r ++ rp_report_data r ++ zeroed 32 ++ rp_mac r.
Proof.
  intros Hl Hk. rewrite <- Hk. unfold rp_report_data, rp_key_id, rp_mac, field.
  rewrite (firstn_all2 (drop 416 r)) by (rewrite length_drop; lia).
  rewrite <- (take_drop 320 r) at 1. f_equal. rewrite <- (take_drop 64 (drop 320 r)) at 1. f_equal. rewrite drop_drop. change (320 + 64)%nat with 384%nat.
  rewrite <- (take_drop 32 (drop 384 r)) at 1. f_equal. by rewrite drop_drop.
Qed.
#[local] Instance toy_local : LocalAttestation.
Proof.
  split. intros e r Hl Hv. cbn in Hv. unfold la_verify in Hv. cbn in Hv. case_bool_decide as Hk; [|done].
  apply andb_true_iff in Hv as [Hk16 Hm]. rewrite bool_decide_eq_true in Hm. unfold size_of_report in Hl.
  assert (He : (length (take 320 r) =? 320)%nat = true) by (rewrite length_take, Hl; done).
  exists (exist _ (take 320 r) He : ToyEnclave), (rp_mac r ++ zeroed 496), (rp_report_data r).
  change (toy_report (exist _ (take 320 r) He) (rp_mac r ++ zeroed 496) (rp_report_data r) = Some r). unfold toy_report.
  assert (H16 : length (rp_mac r) = 16%nat) by (unfold rp_mac; apply length_field; lia).
  assert (H64 : length (rp_report_data r) = 64%nat) by (unfold rp_report_data; apply length_field; lia).
  assert (E : (length (rp_mac r ++ zeroed 496) =? 512)%nat && (length (rp_report_data r) =? 64)%nat = true) by (by rewrite length_app, H16, H64).
  rewrite E. cbn [proj1_sig]. rewrite take_app_le by lia. rewrite (firstn_all2 (rp_mac r)) by lia. f_equal. symmetry. by apply split_report.
Qed.

#[local] Instance node_crypto : Crypto := {|
  restore_from_secret_key s := default 0 (head s);
  dump_secret_key k := k :: replicate 63 0;
  derive_sr25519_pair k _ := Some (k + 1);
  public_of k := k + 1000;
  pair_sign k d := (k + 1000) :: d;
  ecdh_public k := k;
  agree_with a p := [a + p];
  aead_encrypt _ k d := Some (k ++ d);
  aead_decrypt _ k c := Some (drop (length k) c);
  blake2_256_of b := take 32 (b ++ zeroed 32);
  number_of b := default 0 (head b);
  bytes_of z := [z];
|}.
#[local] Instance node_crypto_laws : CryptoLaws.
Proof.
  split.
  - done.
  - intros a b. cbn. by rewrite Z.add_comm.
  - intros iv k d c [= <-]. cbn. by rewrite drop_app_length.
  - by eexists.
  - by eexists.
Qed.
#[local] Instance node_hash_laws : HashLaws.
Proof. intros b. cbn [blake2_256_of node_crypto]. rewrite length_take, length_app. unfold zeroed. rewrite length_replicate. lia. Qed.

(** Codecs through the numbers of a countable type *)
Definition codec_via {A B} `{Countable B} (to : A -> B) (from : B -> A) : Codec A := {|
  scale_encode x := [Z.pos (encode (to x))];
  scale_decode b := match b with [Z.pos p] => from <$> decode p | _ => None end;
|}.
Lemma codec_via_laws {A B} `{Countable B} (to : A -> B) (from : B -> A) : (forall x, from (to x) = x) -> @CodecLaws A (codec_via to from).
Proof. intros E x. cbn. rewrite decode_encode. cbn. by rewrite E. Qed.

Definition dcap_to (c : DcapHandoverChallenge) :=
  (dhc_sgx_target_info c, (dhc_block_number c, (dhc_now c, (dhc_dev_mode c, (dhc_nonce c, dhc_ntp_time_secs c))))).
Definition dcap_from (x : bytes * (Z * (Z * (bool * (bytes * Z))))) : DcapHandoverChallenge :=
  let '(i, (b, (n, (d, (r, t))))) := x in mkDcapChallenge i b n d r t.
Definition key_to (k : EncryptedWorkerKey) :=
  (ewk_genesis_block_hash k, (ewk_para_id k, (ewk_dev_mode k, (ek_ecdh_pubkey (ewk_encrypted_key k), (ek_encrypted_key (ewk_encrypted_key k), ek_iv (ewk_encrypted_key k)))))).
Definition key_from (x : Z * (Z * (bool * (Z * (bytes * bytes))))) : EncryptedWorkerKey :=
  let '(g, (p, (d, (pk, (c, iv))))) := x in mkWorkerKey g p d (mkEncrypted pk c iv).
Definition seal_to (s : RuntimeDataSeal) :=
  let 'SealV1 d := s in (prd_genesis_block_hash d, (prd_para_id d, (prd_sk d, (prd_trusted_sk d, prd_dev_mode d)))).
Definition seal_from (x : Z * (Z * (bytes * (bool * bool)))) : RuntimeDataSeal := let '(g, (p, (k, (t, d)))) := x in SealV1 (mkRuntimeData g p k t d).
Definition info_to (i : WorkerRegistrationInfoV2) :=
  let r := ri2_info i in
  (ri_version r, (ri_machine_id r, (ri_pubkey r, (ri_ecdh_pubkey r, (ri_genesis_block_hash r, (ri_features r, (ri_operator r, (ri2_para_id i, ri2_max_consensus_version i)))))))).
Definition info_from (x : Z * (bytes * (Z * (Z * (Z * (list Z * (option Z * (Z * Z)))))))) : WorkerRegistrationInfoV2 :=
  let '(v, (m, (pk, (ec, (g, (f, (o, (p, c)))))))) := x in mkRegInfoV2 (mkRegInfo v m pk ec g f o) p c.

(** Numbers, and byte strings behind their lengths *)
Definition challenge_bytes (c : HandoverChallenge) : bytes :=
  [hc_block_number c; hc_now c; if hc_dev_mode c then 1 else 0; Z.of_nat (length (hc_sgx_target_info c)); Z.of_nat (length (hc_nonce c))] ++
  hc_sgx_target_info c ++ hc_nonce c.
Definition challenge_parse (b : bytes) : option (HandoverChallenge * bytes) :=
  match b with
  | block :: now :: dev :: li :: ln :: b =>
      let rest := drop (Z.to_nat li) b in
      Some (mkChallenge (take (Z.to_nat li) b) block now (dev =? 1) (take (Z.to_nat ln) rest), drop (Z.to_nat ln) rest)
  | _ => None
  end.
Lemma challenge_parse_bytes c b : challenge_parse (challenge_bytes c ++ b) = Some (c, b).
Proof.
  destruct c as [i bl now dev r]. unfold challenge_bytes. cbn [hc_block_number hc_now hc_dev_mode hc_sgx_target_info hc_nonce app challenge_parse].
  rewrite !Nat2Z.id, <- !app_assoc, drop_app_length, !take_app_length, drop_app_length. by destruct dev.
Qed.
#[local] Instance codec_challenge : Codec HandoverChallenge := {| scale_encode := challenge_bytes; scale_decode b := fst <$> challenge_parse b |}.
#[local] Instance codec_handler : Codec ChallengeHandlerInfo := {|
  scale_encode h := ch_ecdh_pubkey h :: challenge_bytes (ch_challenge h) ++ ch_sgx_local_report h;
  scale_decode b := match b with k :: b => (fun '(c, r) => mkHandler c r k) <$> challenge_parse b | [] => None end;
|}.
#[local] Instance codec_dcap : Codec DcapHandoverChallenge := codec_via dcap_to dcap_from.
#[local] Instance codec_dcap_handler : Codec DcapChallengeHandlerInfo :=
  codec_via (fun h => (dcap_to (dch_challenge h), dch_ecdh_pubkey h)) (fun '(c, k) => mkDcapHandler (dcap_from c) k).
#[local] Instance codec_key : Codec EncryptedWorkerKey := codec_via key_to key_from.
#[local] Instance codec_seal : Codec RuntimeDataSeal := codec_via seal_to seal_from.
#[local] Instance codec_info : Codec WorkerRegistrationInfoV2 := codec_via info_to info_from.
(** A report of IAS with its signature of 64 bytes; the certificate is left out. *)
#[local] Instance codec_attestation : Codec (option AttestationReport) := {|
  scale_encode a := match a with Some (SgxIas r s _) => 1 :: s ++ r | _ => [] end;
  scale_decode b := match b with [] => Some None | 1 :: b => Some (Some (SgxIas (drop 64 b) (take 64 b) [])) | _ => None end;
|}.
#[local] Instance laws_challenge : CodecLaws HandoverChallenge.
Proof. intros c. change (fst <$> challenge_parse (challenge_bytes c) = Some c). by rewrite <- (app_nil_r (challenge_bytes c)), challenge_parse_bytes. Qed.
#[local] Instance laws_handler : CodecLaws ChallengeHandlerInfo.
Proof.
  intros [c r k]. change ((fun '(c, r) => mkHandler c r k) <$> challenge_parse (challenge_bytes c ++ r) = Some (mkHandler c r k)).
  by rewrite challenge_parse_bytes.
Qed.
#[local] Instance laws_dcap : CodecLaws DcapHandoverChallenge.
Proof. apply codec_via_laws. by intros []. Qed.
#[local] Instance laws_dcap_handler : CodecLaws DcapChallengeHandlerInfo.
Proof. apply codec_via_laws. by intros [[] ?]. Qed.
#[local] Instance laws_key : CodecLaws EncryptedWorkerKey.
Proof. apply codec_via_laws. by intros [? ? ? []]. Qed.
#[local] Instance laws_seal : CodecLaws RuntimeDataSeal.
Proof. apply codec_via_laws. by intros [[]]. Qed.
#[local] Instance laws_info : CodecLaws WorkerRegistrationInfoV2.
Proof. apply codec_via_laws. by intros [[] ? ?]. Qed.

(** The system is its identity; a pRuntime was added at the first byte of its measurement. *)
#[local] Instance node_system : SystemOps Z unit unit := {|
  registered _ := false;
  identity_pubkey r := r;
  put_genesis_block _ r := r;
  has_gatekeeper _ := false;
  has_cluster _ := false;
  system_block_number _ := 0;
  install_cluster _ r := r;
  block_begins _ _ _ w := Some w;
  block_messages _ _ _ w := Some w;
  block_ends _ _ _ w := Some w;
|}.
#[local] Instance node_lib : NodeLib Z unit := {|
  machine_id := [1];
  cpu_core_num := 8;
  cpu_feature_level := 1;
  ra_max_retries := 1;
  from_seed_slice := head;
  system_new _ k q := (public_of k, q);
  storage_pruntime_added_at _ m := head m;
|}.
#[local] Instance node_identity : SystemIdentity Z unit unit.
Proof. split; [done..| | |]; cbn; intros; by simplify_eq. Qed.

(** ** The run: started with a key of its own, synced, attested, and asked for a handover *)

Definition old_enclave : Enclave := (exist _ (replicate 320 5) eq_refl : ToyEnclave).
Definition new_enclave : Enclave := (exist _ (replicate 320 6) eq_refl : ToyEnclave).
Definition env_at (key time : Z) : CallEnv := mkCallEnv time [time] key (fun p d i => match i with O => None | _ => Some d end) true true true (Some time).

Definition run_node (l : list (CallEnv * NodeCall)) : list (NodeEvent Z unit unit) * Node Z unit unit :=
  foldl (fun '(h, n) '(env, c) =>
    match node_exec old_enclave env c n with
    | Ok o n' => (mkEvent n env c (Some o) :: h, n')
    | Err _ n' => (mkEvent n env c None :: h, n')
    | Panic => (h, n)
    end) ([], node_new false 0 None) l.

Lemma run_node_history l : node_history old_enclave (run_node l).1 (run_node l).2.
Proof.
  unfold run_node. induction l as [|[env c] l IH] using rev_ind; [constructor|]. rewrite foldl_app. cbn [foldl].
  destruct (foldl _ _ l) as [h n]. destruct (node_exec old_enclave env c n) eqn:E; cbn in *; [by eapply nh_ok|by eapply nh_err|done].
Qed.

Definition started_calls : list (CallEnv * NodeCall) :=
  [(env_at 7 1200, NcInit false block_0 toy_set [[7]] [([100], [])] None None (Some ProvDcap));
   (env_at 0 1201, NcSyncHeader [mkToSync block_0 None; mkToSync block_1 None; mkToSync block_2 (Some [2])]);
   (env_at 0 1202, NcDispatchBlocks [mkBlock block_1 (mkChanges [([101], None)] []); mkBlock block_2 (mkChanges [([102], None)] [])]);
   (env_at 0 1203, NcGetRuntimeInfo false None)].
Definition server_0 : Node Z unit unit := Eval vm_compute in (run_node started_calls).2.
Definition client_0 : Node Z unit unit := node_new false 0 None.

Example started_run : (fun e => match ev_out e with Some _ => true | None => false end) <$> (run_node started_calls).1 = [true; true; true; true].
Proof. vm_compute. reflexivity. Qed.

Definition env_create : CallEnv := env_at 0 1210.
Definition challenge_0 : DcapHandoverChallenge := Eval vm_compute in
  match dcap_handover_create_challenge old_enclave env_create server_0 with Ok c _ => c | _ => mkDcapChallenge [] 0 0 false [] 0 end.
Definition answer_0 : DcapChallengeResponse := Eval vm_compute in
  match dcap_handover_accept_challenge new_enclave (env_at 9 1220) (scale_encode challenge_0) client_0 with Ok r _ => r | _ => mkDcapResponse [] [] end.
Definition handover_calls : list (CallEnv * NodeCall) :=
  started_calls ++ [(env_create, NcDcapCreateChallenge); (env_at 0 1230, NcDcapStart answer_0); (env_at 0 1231, NcDcapStart answer_0)].

(** The first protocol, on a worker that attests with IAS: Intel signs the body of
    a quote of the new enclave on the data. *)
Definition toy_ias_body (data : bytes) : bytes := replicate 368 6 ++ data ++ replicate 32 0.
Definition ias_env (key time : Z) : CallEnv :=
  mkCallEnv time [time] key (fun p d i => Some (scale_encode (Some (SgxIas (toy_ias_body d) (repeat (checksum (toy_ias_body d)) 64) [])))) true true true (Some time).
Definition ias_calls : list (CallEnv * NodeCall) :=
  [(ias_env 7 1200, NcInit false block_0 toy_set [[7]] [([100], [])] None None (Some ProvIas));
   (ias_env 0 1201, NcSyncHeader [mkToSync block_0 None; mkToSync block_1 None; mkToSync block_2 (Some [2])]);
   (ias_env 0 1202, NcDispatchBlocks [mkBlock block_1 (mkChanges [([101], None)] []); mkBlock block_2 (mkChanges [([102], None)] [])])].
Definition challenge_1 : HandoverChallenge := Eval vm_compute in
  match handover_create_challenge old_enclave (ias_env 0 1210) (run_node ias_calls).2 with Ok c _ => c | _ => mkChallenge [] 0 0 false [] end.
Definition answer_1 : ChallengeResponse := Eval vm_compute in
  match handover_accept_challenge new_enclave (ias_env 9 1220) (scale_encode challenge_1) client_0 with Ok r _ => r | _ => mkResponse [] None end.
Definition ias_handover_calls : list (CallEnv * NodeCall) :=
  ias_calls ++ [(ias_env 0 1210, NcCreateChallenge); (ias_env 0 1230, NcStart answer_1); (ias_env 0 1231, NcStart answer_1)].

(** The key goes out once in each run: the second answer to the same challenge is refused. *)
Lemma handover_history_safe_witness :
  (exists h n, node_history old_enclave h n /\ omap dcap_released_of h = [challenge_0] /\ (ev_out <$> head h) = Some None /\
    omap dcap_released_of h `sublist_of` omap dcap_issued_of h /\ Forall (accounted old_enclave) h) /\
  exists h n, node_history old_enclave h n /\ omap released_of h = [challenge_1] /\ (ev_out <$> head h) = Some None /\
    omap released_of h `sublist_of` omap issued_of h /\ Forall (accounted old_enclave) h /\
    (fun e => (nd_dev_mode (ev_node e), attestation_provider (nd_phactory (ev_node e)))) <$> head h = Some (false, Some ProvIas).
Proof.
  split.
  - exists (run_node handover_calls).1, (run_node handover_calls).2. pose proof (run_node_history handover_calls) as H. split; [exact H|].
    split; [vm_compute; reflexivity|]. split; [vm_compute; reflexivity|]. apply (handover_history_safe old_enclave) in H as (_ & H2 & H3). by split.
  - exists (run_node ias_handover_calls).1, (run_node ias_handover_calls).2. pose proof (run_node_history ias_handover_calls) as H. split; [exact H|].
    split; [vm_compute; reflexivity|]. split; [vm_compute; reflexivity|]. apply (handover_history_safe old_enclave) in H as (H1 & _ & H3).
    split; [exact H1|]. split; [exact H3|]. vm_compute. reflexivity.
Defined.

Lemma injected_keys_not_attested_witness : exists h n resp a, node_history old_enclave h n /\
  nd_runtime_info n = Some resp /\ ir_attestation resp = Some a /\ na_provider a = Some ProvDcap /\ justified h (ir_encoded_runtime_info resp) a.
Proof.
  assert (exists h n resp a, node_history old_enclave h n /\ nd_runtime_info n = Some resp /\ ir_attestation resp = Some a /\ na_provider a = Some ProvDcap)
    as (h & n & resp & a & H & E1 & E2 & E3).
  { exists (run_node started_calls).1, (run_node started_calls).2. do 2 eexists. split; [apply run_node_history|]. split; [vm_compute; reflexivity|]. split; reflexivity. }
  exists h, n, resp, a. split; [exact H|]. split; [exact E1|]. split; [exact E2|]. split; [exact E3|].
  exact (injected_keys_not_attested old_enclave h n resp a H E1 E2).
Defined.

Definition runtime_2 : RuntimeState unit := Eval vm_compute in
  default (mkRuntime queue_new dispatcher_new (new_solochain light_new 0) (mkTrie tt 0) 0) (runtime_state (nd_phactory server_0)).
Definition data_7 : PersistentRuntimeData := mkRuntimeData (toy_hash block_0) 0 (dump_secret_key 7) true false.
Lemma server_sealed : nd_sealed server_0 = Some (scale_encode (SealV1 data_7)).
Proof. vm_compute. reflexivity. Qed.
Lemma server_upgrades : upgrades old_enclave new_enclave runtime_2.
Proof. exists 5, 6. split; [vm_compute; reflexivity|]. split; [vm_compute; reflexivity|]. lia. Qed.

Lemma server_runtime : runtime_state (nd_phactory server_0) = Some runtime_2.
Proof. vm_compute. reflexivity. Qed.
Lemma server_week : 1210 <= storage_timestamp (chain_storage runtime_2) / 1000 +[64] A_WEEK.
Proof. vm_compute. discriminate. Qed.

Lemma dcap_handover_transfers_witness : exists (client2 : Node Z unit unit) d,
  nd_sealed client2 = Some (scale_encode (SealV1 d)) /\ prd_sk d = dump_secret_key 7 /\ prd_trusted_sk d = false.
Proof.
  assert (H1 : nd_rcu_dispatching server_0 = false) by reflexivity. assert (H2 : nd_rcu_dispatching client_0 = false) by reflexivity.
  assert (H3 : attestation_provider (nd_phactory server_0) = Some ProvDcap) by reflexivity. assert (H4 : nd_dev_mode server_0 = false) by reflexivity.
  assert (H5 : prd_sk data_7 = dump_secret_key 7) by reflexivity. assert (H6 : length (prd_sk data_7) = 64%nat) by (vm_compute; reflexivity).
  assert (H7 : 1210 <= 1230 <= 1210 + 60) by lia.
  pose proof (dcap_handover_transfers old_enclave new_enclave server_0 client_0 runtime_2 data_7 7
    env_create (env_at 9 1220) (env_at 0 1230) (env_at 0 1240) 1210 1230 H1 H2 server_runtime H3 H4 server_sealed H5 H6 server_upgrades
    eq_refl server_week eq_refl H7 eq_refl eq_refl) as H.
  destruct H as (c & s1 & r & c1 & m & s2 & c2 & _ & _ & _ & _ & H & _).
  eexists c2, _. split; [exact H|]. split; reflexivity.
Defined.

(** The attacker's pair is 99; he has no enclave at all. *)
Lemma ias_endpoint_leaks_key_witness : exists c n1 m n2 wk,
  handover_create_challenge old_enclave env_create server_0 = Ok c n1 /\
  handover_start old_enclave (env_at 0 1230) (mkResponse (scale_encode (mkHandler c [] (ecdh_public 99))) None) n1 = Ok m n2 /\
  scale_decode (km_encoded_worker_key m) = Some wk /\
  decrypt_secret_from 99 (ek_ecdh_pubkey (ewk_encrypted_key wk)) (ek_encrypted_key (ewk_encrypted_key wk)) (ek_iv (ewk_encrypted_key wk)) =
    Some (dump_secret_key 7).
Proof.
  exact (ias_endpoint_leaks_key old_enclave server_0 runtime_2 data_7 7 99 env_create (env_at 0 1230) eq_refl eq_refl ltac:(discriminate) server_sealed
    eq_refl eq_refl eq_refl).
Defined.

(** The worker started with its own key 7; a debug key refused afterwards, on a
    process that was restarted, has replaced it. *)
Lemma refused_init_replaces_key_witness : exists n' : Node Z unit unit,
  init_runtime (env_at 0 1300) false block_0 toy_set [[7]] [([100], [])] None (Some [77]) (Some ProvDcap) (node_new false 0 (nd_sealed server_0)) = Err NeRaDisallowed n' /\
  nd_sealed n' = Some (scale_encode (SealV1 (mkRuntimeData (toy_hash block_0) 0 (dump_secret_key 77) false true))) /\ nd_sealed n' <> nd_sealed server_0.
Proof.
  destruct (refused_init_replaces_key (node_new false 0 (nd_sealed server_0) : Node Z unit unit) (env_at 0 1300) false block_0 toy_set [[7]] [([100], [])] None [77] 77 ProvDcap)
    as (n' & H1 & H2); [done|cbn; lia|done|done|done|]. exists n'. split; [exact H1|]. split; [exact H2|]. rewrite H2. vm_compute. discriminate.
Defined.
