(* ===== verification/LocalCache.v ===== *)
(** * The local cache of contracts (crates/pink/chain-extension/src/local_cache.rs)

    A key-value cache per contract, bounded by a quota, whose entries expire. The
    clock ([now()], seconds since the first call) is an argument. *)

From S2P Require Import Prelude MqTypes.

Record CacheValue := mkCacheValue { expire_at : Z; cv_value : bytes }.
#[global] Instance CacheValue_eq_dec : EqDecision CacheValue.
Proof. solve_decision. Defined.

(** [Storage] *)
Record CacheStorage := mkCacheStorage { cs_size : Z; cs_max_size : Z; cs_kvs : gmap bytes CacheValue }.

Record LocalCache := mkLocalCache {
  gc_interval : Z;
  sets_since_last_gc : Z;
  default_value_lifetime : Z;
  storages : gmap bytes CacheStorage;
}.

Inductive CacheOp :=
  | CacheSet (key value : bytes)
  | CacheSetExpiration (key : bytes) (expiration : Z)
  | CacheRemove (key : bytes).

Definition saturating_add (w x y : Z) : Z := Z.min (2 ^ w - 1) (x + y).

(** ** A contract's storage *)

Definition cache_storage_new (max_size : Z) : CacheStorage := mkCacheStorage 0 max_size ∅.

Definition len (b : bytes) : Z := Z.of_nat (length b).
Definition entry_size (k : bytes) (v : CacheValue) : Z := len k + len (cv_value v).

(** The entries of the [BTreeMap], in key order, sorted stably by expiration: by
    expiration and then by key *)
Definition expires_before (a b : bytes * CacheValue) : Prop :=
  expire_at a.2 < expire_at b.2 \/ (expire_at a.2 = expire_at b.2 /\ bytes_leb a.1 b.1 = true).
#[global] Instance expires_before_dec a b : Decision (expires_before a b).
Proof. unfold expires_before. apply _. Defined.
Definition by_expiration (kvs : gmap bytes CacheValue) : list (bytes * CacheValue) := merge_sort expires_before (map_to_list kvs).

(** [filter_map]: drops entries while the size does not fit *)
Fixpoint evict (max_size size : Z) (kvs : list (bytes * CacheValue)) : Z * list (bytes * CacheValue) :=
  match kvs with
  | [] => (size, [])
  | (k, v) :: kvs' =>
      if size <=? max_size then let '(size, kept) := evict max_size size kvs' in (size, (k, v) :: kept)
      else evict max_size (size -[64] entry_size k v) kvs'
  end.

Definition fit_size (s : CacheStorage) : CacheStorage :=
  if cs_size s <=? cs_max_size s then s
  else
    let '(size, kept) := evict (cs_max_size s) (cs_size s) (by_expiration (cs_kvs s)) in
    mkCacheStorage size (cs_max_size s) (list_to_map kept).

Definition storage_clear_expired (now : Z) (s : CacheStorage) : CacheStorage :=
  mkCacheStorage
    (map_fold (fun k v size => if now <? expire_at v then size else size -[64] (len (cv_value v) + len k)) (cs_size s) (cs_kvs s))
    (cs_max_size s) (filter (fun kv => now < expire_at kv.2) (cs_kvs s)).

Definition storage_remove (key : bytes) (s : CacheStorage) : option bytes * CacheStorage :=
  match cs_kvs s !! key with
  | Some v => (Some (cv_value v), mkCacheStorage (cs_size s -[64] (len (cv_value v) + len key)) (cs_max_size s) (delete key (cs_kvs s)))
  | None => (None, s)
  end.

(** [false] is [Err(StorageQuotaExceeded)]. *)
Definition storage_set (now : Z) (key value : bytes) (lifetime : Z) (s : CacheStorage) : bool * CacheStorage :=
  let s := (storage_remove key s).2 in
  let data_len := len key + len value in
  let store_size := cs_size s +[64] data_len in
  let insert (s : CacheStorage) (store_size : Z) :=
    mkCacheStorage store_size (cs_max_size s) (<[ key := mkCacheValue (saturating_add 64 now lifetime) value ]> (cs_kvs s)) in
  if store_size <=? cs_max_size s then (true, insert s store_size)
  else
    let s := storage_clear_expired now s in
    let store_size := cs_size s +[64] data_len in
    if store_size <=? cs_max_size s then (true, insert s store_size) else (false, s).

(** ** The cache *)

Definition local_cache_new : LocalCache := mkLocalCache 1000 0 (3600 * 24 * 7) ∅.

Definition put_storages (m : gmap bytes CacheStorage) (c : LocalCache) : LocalCache :=
  mkLocalCache (gc_interval c) (sets_since_last_gc c) (default_value_lifetime c) m.

Definition cache_clear_expired (now : Z) (c : LocalCache) : LocalCache :=
  mkLocalCache (gc_interval c) 0 (default_value_lifetime c) (storage_clear_expired now <$> storages c).

Definition maybe_clear_expired (now : Z) (c : LocalCache) : LocalCache :=
  let n := sets_since_last_gc c +[64] 1 in
  let c := mkLocalCache (gc_interval c) n (default_value_lifetime c) (storages c) in
  if n =? gc_interval c then cache_clear_expired now c else c.

Definition cache_get (now : Z) (id key : bytes) (c : LocalCache) : option bytes :=
  s ← storages c !! id;
  entry ← cs_kvs s !! key;
  if expire_at entry <=? now then None else Some (cv_value entry).

Definition cache_set (now : Z) (id key value : bytes) (c : LocalCache) : bool * LocalCache :=
  let c := maybe_clear_expired now c in
  match storages c !! id with
  | None => (false, c)
  | Some s =>
      let '(ok, s) := storage_set now key value (default_value_lifetime c) s in
      (ok, put_storages (<[ id := s ]> (storages c)) c)
  end.

Definition cache_remove (now : Z) (id key : bytes) (c : LocalCache) : option bytes * LocalCache :=
  let c := maybe_clear_expired now c in
  match storages c !! id with
  | None => (None, c)
  | Some s => let '(v, s) := storage_remove key s in (v, put_storages (<[ id := s ]> (storages c)) c)
  end.

Definition cache_set_expire (now : Z) (id key : bytes) (expire : Z) (c : LocalCache) : LocalCache :=
  let c := maybe_clear_expired now c in
  if expire =? 0 then (cache_remove now id key c).2
  else
    match storages c !! id with
    | None => c
    | Some s =>
        match cs_kvs s !! key with
        | None => c
        | Some v =>
            if now <=? expire_at v then
              let v := mkCacheValue (saturating_add 64 now expire) (cv_value v) in
              put_storages (<[ id := mkCacheStorage (cs_size s) (cs_max_size s) (<[ key := v ]> (cs_kvs s)) ]> (storages c)) c
            else (cache_remove now id key c).2
        end
    end.

Definition apply_quota (contract : bytes) (max_size : Z) (c : LocalCache) : LocalCache :=
  if max_size =? 0 then put_storages (delete contract (storages c)) c
  else
    match storages c !! contract with
    | Some s => put_storages (<[ contract := fit_size (mkCacheStorage (cs_size s) max_size (cs_kvs s)) ]> (storages c)) c
    | None => put_storages (<[ contract := cache_storage_new max_size ]> (storages c)) c
    end.

Definition apply_quotas (quotas : list (bytes * Z)) (c : LocalCache) : LocalCache :=
  foldl (fun c q => apply_quota q.1 q.2 c) c quotas.

Definition apply_cache_op (now : Z) (contract : bytes) (op : CacheOp) (c : LocalCache) : LocalCache :=
  match op with
  | CacheSet key value => (cache_set now contract key value c).2
  | CacheSetExpiration key expiration => cache_set_expire now contract key expiration c
  | CacheRemove key => (cache_remove now contract key c).2
  end.

(** A call of the module's interface, with its result. *)
Inductive CacheCall :=
  | CallGet (id key : bytes)
  | CallSet (id key value : bytes)
  | CallExpire (id key : bytes) (expire : Z)
  | CallRemove (id key : bytes)
  | CallQuota (id : bytes) (max_size : Z).
Inductive CacheResult := RDone | RSet (ok : bool) | RValue (v : option bytes).

Definition cache_call (now : Z) (call : CacheCall) (c : LocalCache) : CacheResult * LocalCache :=
  match call with
  | CallGet id key => (RValue (cache_get now id key c), c)
  | CallSet id key value => let '(ok, c) := cache_set now id key value c in (RSet ok, c)
  | CallExpire id key expire => (RDone, cache_set_expire now id key expire c)
  | CallRemove id key => let '(v, c) := cache_remove now id key c in (RValue v, c)
  | CallQuota id max_size => (RDone, apply_quota id max_size c)
  end.
