(* ===== verification/CacheRefine.v ===== *)
(** * The local cache is a bounded map whose entries expire

    [live] is what a contract can see of its cache. The specification [spec_set],
    [spec_remove], [spec_expire] works on live entries alone: garbage that has
    not been collected never shows. *)

From S2P Require Import Prelude MqTypes PhatStakes LocalCache.

Abbreviation Entries := (gmap bytes CacheValue) (only parsing).

Definition is_live (now : Z) (kv : bytes * CacheValue) : Prop := now < expire_at kv.2.
#[global] Instance is_live_dec now kv : Decision (is_live now kv).
Proof. unfold is_live. apply _. Defined.
Definition live (now : Z) (m : Entries) : Entries := filter (is_live now) m.
Definition total (m : Entries) : Z := msum entry_size m.

(** The size is exact and within the quota. *)
Record storage_ok (s : CacheStorage) : Prop := {
  so_size : cs_size s = total (cs_kvs s);
  so_fits : cs_size s <= cs_max_size s;
  so_max : cs_max_size s <= 2 ^ 63;
}.

Lemma entry_size_nonneg k v : 0 <= entry_size k v.
Proof. unfold entry_size, len. lia. Qed.
Lemma total_nonneg m : 0 <= total m.
Proof. apply msum_nonneg. intros. apply entry_size_nonneg. Qed.
Lemma total_delete m k : total (delete k m) = total m - from_option (entry_size k) 0 (m !! k).
Proof.
  unfold total. destruct (m !! k) as [v|] eqn:E; cbn.
  - rewrite (msum_delete _ m k v E). lia.
  - rewrite delete_id by done. lia.
Qed.
Lemma total_insert m k v : total (<[ k := v ]> m) = total (delete k m) + entry_size k v.
Proof. unfold total. rewrite <- insert_delete_eq, msum_insert by apply lookup_delete_eq. lia. Qed.
Lemma total_subset m m' : m ⊆ m' -> total m <= total m'.
Proof.
  revert m'. induction m as [|k v m Hk IH] using map_ind; intros m' Hs; [apply total_nonneg|].
  assert (m' !! k = Some v) as Hv by (eapply lookup_weaken; [apply lookup_insert_eq|exact Hs]).
  rewrite total_insert, delete_id by done. pose proof (total_delete m' k) as E. rewrite Hv in E. cbn in E.
  assert (total m <= total (delete k m')); [|lia]. apply IH. apply map_subseteq_spec. intros i x Hi.
  destruct (decide (k = i)) as [->|]; [congruence|]. rewrite lookup_delete_ne by done.
  eapply lookup_weaken; [|exact Hs]. by rewrite lookup_insert_ne.
Qed.
Lemma live_subset now m : live now m ⊆ m.
Proof. apply map_filter_subseteq. Qed.
Lemma live_delete now k m : live now (delete k m) = delete k (live now m).
Proof. apply map_filter_delete. Qed.
Lemma live_live now m : live now (live now m) = live now m.
Proof.
  unfold live. rewrite map_filter_filter. apply map_filter_ext. intros i x _. tauto.
Qed.
Lemma live_insert now k v m : now < expire_at v -> live now (<[ k := v ]> m) = <[ k := v ]> (live now m).
Proof. intros H. unfold live. by rewrite map_filter_insert_True. Qed.

(** ** Collecting garbage *)

Lemma clear_expired_size now m : forall size, total m <= size < 2 ^ 64 ->
  map_fold (fun k v size => if now <? expire_at v then size else size -[64] (len (cv_value v) + len k)) size m =
  size - total m + total (live now m).
Proof.
  intros size. apply (map_fold_weak_ind (fun r m => total m <= size < 2 ^ 64 -> r = size - total m + total (live now m))).
  - intros _. unfold live. rewrite map_filter_empty. lia.
  - intros k v m0 r Hk IH Hs. rewrite total_insert, delete_id in Hs by done. pose proof (entry_size_nonneg k v) as He.
    rewrite IH, total_insert, delete_id by (done || lia). pose proof (total_nonneg (live now m0)) as H0.
    pose proof (total_subset _ _ (live_subset now m0)) as H1. destruct (Z.ltb_spec now (expire_at v)) as [Hl|Hl].
    + rewrite live_insert by done. assert (live now m0 !! k = None) as Hn.
      { unfold live. apply map_lookup_filter_None. by left. }
      rewrite total_insert, delete_id by done. lia.
    + assert (live now (<[ k := v ]> m0) = live now m0) as ->.
      { unfold live. rewrite map_filter_insert_False by (unfold is_live; cbn; lia). by rewrite delete_id. }
      unfold entry_size in *. rewrite wrap_sub_small by lia. lia.
Qed.

Lemma clear_expired_ok now s : storage_ok s ->
  storage_ok (storage_clear_expired now s) /\ cs_kvs (storage_clear_expired now s) = live now (cs_kvs s) /\
  cs_max_size (storage_clear_expired now s) = cs_max_size s.
Proof.
  intros [H1 H2 H3]. split; [|done]. pose proof (total_subset _ _ (live_subset now (cs_kvs s))) as Ht.
  pose proof (clear_expired_size now (cs_kvs s) (cs_size s) ltac:(lia)) as E.
  split; unfold storage_clear_expired; cbn [cs_size cs_max_size cs_kvs]; rewrite ?E; [|lia|done].
  change (filter _ (cs_kvs s)) with (live now (cs_kvs s)). lia.
Qed.

(** ** Specification of a contract's cache *)

Lemma storage_remove_ok key s : storage_ok s ->
  storage_ok (storage_remove key s).2 /\ cs_kvs (storage_remove key s).2 = delete key (cs_kvs s) /\
  cs_max_size (storage_remove key s).2 = cs_max_size s /\ (storage_remove key s).1 = cv_value <$> cs_kvs s !! key.
Proof.
  intros Hs. unfold storage_remove. destruct (cs_kvs s !! key) as [v|] eqn:E; cbn; [|by rewrite delete_id].
  destruct Hs as [H1 H2 H3]. pose proof (total_delete (cs_kvs s) key) as Ht. rewrite E in Ht. cbn in Ht.
  pose proof (total_nonneg (delete key (cs_kvs s))) as H0. pose proof (entry_size_nonneg key v) as He. unfold entry_size in *.
  split; [|done]. split; cbn; rewrite ?wrap_sub_small by lia; lia.
Qed.

Lemma storage_set_ok now key value lifetime s : storage_ok s -> 0 <= now -> now < saturating_add 64 now lifetime ->
  len key + len value < 2 ^ 63 ->
  let '(ok, s') := storage_set now key value lifetime s in
  storage_ok s' /\ cs_max_size s' = cs_max_size s /\
  ok = (total (delete key (live now (cs_kvs s))) + len key + len value <=? cs_max_size s) /\
  live now (cs_kvs s') =
    if ok then <[ key := mkCacheValue (saturating_add 64 now lifetime) value ]> (live now (cs_kvs s)) else delete key (live now (cs_kvs s)).
Proof.
  intros Hs Hnow Hlife Hlen. unfold storage_set. destruct (storage_remove_ok key s Hs) as (Hs1 & Hk & Hm & _).
  set (s1 := (storage_remove key s).2) in *. set (v := mkCacheValue _ value).
  assert (0 <= len key + len value) as Hd by (unfold len; lia). pose proof (total_nonneg (cs_kvs s1)) as Hn.
  assert (forall s2, storage_ok s2 -> cs_max_size s2 = cs_max_size s -> live now (cs_kvs s2) = delete key (live now (cs_kvs s)) ->
    cs_kvs s2 !! key = None -> cs_size s2 + (len key + len value) <= cs_max_size s ->
    storage_ok (mkCacheStorage (cs_size s2 +[64] (len key + len value)) (cs_max_size s2) (<[ key := v ]> (cs_kvs s2))) /\
    live now (<[ key := v ]> (cs_kvs s2)) = <[ key := v ]> (live now (cs_kvs s))) as Hins.
  { intros s2 [A1 A2 A3] Em El En Hle. pose proof (total_nonneg (cs_kvs s2)). rewrite wrap_add_small by lia. split.
    - split; cbn; [rewrite total_insert, delete_id by done; unfold entry_size; cbn; lia|lia|done].
    - rewrite live_insert by done. rewrite El. apply insert_delete_eq. }
  assert (live now (cs_kvs s1) = delete key (live now (cs_kvs s))) as El by (by rewrite Hk, live_delete).
  assert (cs_kvs s1 !! key = None) as En by (rewrite Hk; apply lookup_delete_eq).
  pose proof (total_subset _ _ (live_subset now (cs_kvs s1))) as Hsub. rewrite El in Hsub.
  pose proof (so_size _ Hs1) as Es1. pose proof (so_fits _ Hs1) as Ef1. rewrite Hm in Ef1.
  pose proof (so_max _ Hs) as Hmax.
  rewrite wrap_add_small by lia. rewrite Hm. destruct (Z.leb_spec (cs_size s1 + (len key + len value)) (cs_max_size s)) as [Hle|Hgt].
  - destruct (Hins s1) as [Hok Hl]; [done..|]. rewrite wrap_add_small, Hm in Hok by lia. split; [done|]. split; [done|].
    split; [symmetry; apply Z.leb_le; lia|]. exact Hl.
  - destruct (clear_expired_ok now s1 Hs1) as (Hs2 & Hk2 & Hm2). set (s2 := storage_clear_expired now s1) in *.
    pose proof (so_size _ Hs2) as Es2. pose proof (so_fits _ Hs2) as Ef2. rewrite Hk2, El in Es2. rewrite Hm2, Hm in *.
    pose proof (total_nonneg (delete key (live now (cs_kvs s)))). rewrite wrap_add_small by lia.
    destruct (Z.leb_spec (cs_size s2 + (len key + len value)) (cs_max_size s)) as [Hle2|Hgt2].
    + destruct (Hins s2) as [Hok Hl]; [done|done|by rewrite Hk2, live_live|rewrite Hk2, El; apply lookup_delete_eq|done|].
      rewrite wrap_add_small, Hm2 in Hok by lia. split; [done|]. split; [done|]. split; [symmetry; apply Z.leb_le; lia|]. exact Hl.
    + split; [done|]. split; [done|]. split; [symmetry; apply Z.leb_gt; lia|]. by rewrite Hk2, live_live.
Qed.

(** ** The cache of all contracts

    A state of the specification: for every contract its quota and what it can see. *)
Abbreviation CacheSpec := (gmap bytes (Z * Entries)) (only parsing).

Definition spec_of (now : Z) (c : LocalCache) : CacheSpec := (fun s => (cs_max_size s, live now (cs_kvs s))) <$> storages c.
(** Time passes. *)
Definition spec_later (now : Z) (a : CacheSpec) : CacheSpec := (fun p => (p.1, live now p.2)) <$> a.
Definition spec_get (id key : bytes) (a : CacheSpec) : option bytes := '(_, m) ← a !! id; cv_value <$> m !! key.

(** A value is stored if it fits beside the other live values; a refused value
    still takes the old one's place. *)
Definition spec_set (now lifetime : Z) (id key value : bytes) (a : CacheSpec) : bool * CacheSpec :=
  match a !! id with
  | None => (false, a)
  | Some (max, m) =>
      if total (delete key m) + len key + len value <=? max
      then (true, <[ id := (max, <[ key := mkCacheValue (saturating_add 64 now lifetime) value ]> m) ]> a)
      else (false, <[ id := (max, delete key m) ]> a)
  end.
Definition spec_remove (id key : bytes) (a : CacheSpec) : CacheSpec := alter (fun p => (p.1, delete key p.2)) id a.
Definition spec_expire (now : Z) (id key : bytes) (expire : Z) (a : CacheSpec) : CacheSpec :=
  if expire =? 0 then spec_remove id key a
  else alter (fun p => (p.1, alter (fun v => mkCacheValue (saturating_add 64 now expire) (cv_value v)) key p.2)) id a.

(** [m'] is what is left of [m] within [max]: the entries that expire last; all
    if they fit, and otherwise no entry was dropped too many. *)
Record fitted (max : Z) (m m' : Entries) : Prop := {
  ft_subset : m' ⊆ m;
  ft_fits : total m' <= max;
  ft_all : total m <= max -> m' = m;
  ft_latest : forall k v k' v', m !! k = Some v -> m' !! k = None -> m' !! k' = Some v' -> expire_at v <= expire_at v';
  ft_least : m' <> m -> exists k v, m !! k = Some v /\ m' !! k = None /\ max < total m' + entry_size k v;
}.
Definition spec_quota (id : bytes) (max : Z) (a a' : CacheSpec) : Prop :=
  if max =? 0 then a' = delete id a
  else match a !! id with
       | None => a' = <[ id := (max, ∅) ]> a
       | Some (_, m) => exists m', fitted max m m' /\ a' = <[ id := (max, m') ]> a
       end.

Record cache_ok (c : LocalCache) : Prop := {
  ca_storages : map_Forall (fun _ s => storage_ok s) (storages c);
  ca_lifetime : 0 < default_value_lifetime c;
}.

Lemma clear_keeps now c : cache_ok c -> cache_ok (maybe_clear_expired now c) /\ spec_of now (maybe_clear_expired now c) = spec_of now c /\
  default_value_lifetime (maybe_clear_expired now c) = default_value_lifetime c.
Proof.
  intros [H1 H2]. unfold maybe_clear_expired. destruct (_ =? _); [|done]. split; [|split; [|done]].
  - split; [|done]. cbn. apply map_Forall_fmap. intros i s Hs. by apply clear_expired_ok, (H1 i).
  - unfold spec_of. cbn [storages cache_clear_expired]. rewrite <- map_fmap_compose. apply map_fmap_ext. intros i s Hs.
    cbn [compose]. destruct (clear_expired_ok now s (H1 i s Hs)) as (_ & Hk & Hm). unfold compose. by rewrite Hk, Hm, live_live.
Qed.

Lemma cache_get_spec now id key c : cache_get now id key c = spec_get id key (spec_of now c).
Proof.
  unfold cache_get, spec_get, spec_of. rewrite lookup_fmap. destruct (storages c !! id) as [s|]; [|done]. cbn. unfold live.
  rewrite map_lookup_filter. destruct (cs_kvs s !! key) as [v|]; [|done]. cbn. unfold is_live. cbn.
  destruct (Z.leb_spec (expire_at v) now); unfold guard; case_decide; try lia; done.
Qed.

Lemma spec_of_later now now' c : now <= now' -> spec_of now' c = spec_later now' (spec_of now c).
Proof.
  intros Hle. unfold spec_of, spec_later. rewrite <- map_fmap_compose. apply map_fmap_ext. intros i s _. cbn. f_equal.
  unfold live. rewrite map_filter_filter. apply map_filter_ext. intros k v _. unfold is_live. cbn. lia.
Qed.

Lemma spec_of_insert now id s c : spec_of now (put_storages (<[ id := s ]> (storages c)) c) =
  <[ id := (cs_max_size s, live now (cs_kvs s)) ]> (spec_of now c).
Proof. unfold spec_of. cbn. by rewrite fmap_insert. Qed.
Lemma spec_of_lookup now id c : spec_of now c !! id = (fun s => (cs_max_size s, live now (cs_kvs s))) <$> storages c !! id.
Proof. apply lookup_fmap. Qed.
Lemma cache_ok_insert id s c : cache_ok c -> storage_ok s -> cache_ok (put_storages (<[ id := s ]> (storages c)) c).
Proof. intros [H1 H2] Hs. split; [|done]. by apply map_Forall_insert_2. Qed.

Lemma cache_set_refines now id key value c : cache_ok c -> 0 <= now < 2 ^ 64 - 1 ->
  len key + len value < 2 ^ 63 ->
  cache_ok (cache_set now id key value c).2 /\
  (cache_set now id key value c).1 = (spec_set now (default_value_lifetime c) id key value (spec_of now c)).1 /\
  spec_of now (cache_set now id key value c).2 = (spec_set now (default_value_lifetime c) id key value (spec_of now c)).2.
Proof.
  intros Hc Hnow Hlen. destruct (clear_keeps now c Hc) as (Hc1 & <- & <-).
  unfold cache_set. set (c1 := maybe_clear_expired now c) in *. unfold spec_set. rewrite spec_of_lookup.
  destruct (storages c1 !! id) as [s|] eqn:E; [|done]. cbn [fmap option_fmap option_map].
  pose proof (ca_storages _ Hc1 _ _ E) as Hs. pose proof (ca_lifetime _ Hc1) as Hl.
  pose proof (storage_set_ok now key value (default_value_lifetime c1) s Hs ltac:(lia) ltac:(unfold saturating_add; lia) Hlen) as H.
  destruct (storage_set _ _ _ _ s) as [ok s']. destruct H as (Hs' & Hm & -> & Hlive). cbn [fst snd].
  split; [by apply cache_ok_insert|]. rewrite spec_of_insert, Hm, Hlive. by destruct (_ <=? _).
Qed.

Lemma cache_remove_refines now id key c : cache_ok c ->
  cache_ok (cache_remove now id key c).2 /\ spec_of now (cache_remove now id key c).2 = spec_remove id key (spec_of now c).
Proof.
  intros Hc. destruct (clear_keeps now c Hc) as (Hc1 & <- & _). unfold cache_remove, spec_remove.
  set (c1 := maybe_clear_expired now c) in *. destruct (storages c1 !! id) as [s|] eqn:E.
  - destruct (storage_remove_ok key s (ca_storages _ Hc1 _ _ E)) as (Hs & Hk & Hm & _). destruct (storage_remove key s) as [v s']. cbn [fst snd] in *.
    split; [by apply cache_ok_insert|]. rewrite spec_of_insert, Hk, Hm, live_delete. apply map_eq. intros i. rewrite lookup_insert, lookup_alter.
    case_decide; [subst i|done]. by rewrite spec_of_lookup, E.
  - cbn [fst snd]. split; [done|]. apply map_eq. intros i. rewrite lookup_alter. case_decide; [subst i|done]. by rewrite spec_of_lookup, E.
Qed.

Lemma cache_remove_value now id key c : cache_ok c ->
  forall x, spec_get id key (spec_of now c) = Some x -> (cache_remove now id key c).1 = Some x.
Proof.
  intros Hc x. destruct (clear_keeps now c Hc) as (Hc1 & <- & _). rewrite <- cache_get_spec. unfold cache_get, cache_remove.
  set (c1 := maybe_clear_expired now c) in *. destruct (storages c1 !! id) as [s|] eqn:E; [|done]. cbn.
  destruct (storage_remove_ok key s (ca_storages _ Hc1 _ _ E)) as (_ & _ & _ & Hv). destruct (storage_remove key s) as [v s']. cbn in *.
  destruct (cs_kvs s !! key) as [e|]; [|done]. cbn in *. case_match; [done|]. congruence.
Qed.

(** No entry expires this very second: see [expired_value_revived]. *)
Definition not_now (now : Z) (id key : bytes) (c : LocalCache) : Prop :=
  forall s v, storages c !! id = Some s -> cs_kvs s !! key = Some v -> expire_at v <> now.

Lemma cache_set_expire_refines now id key expire c : cache_ok c -> 0 <= now < 2 ^ 64 - 1 -> 0 <= expire -> not_now now id key c ->
  cache_ok (cache_set_expire now id key expire c) /\
  spec_of now (cache_set_expire now id key expire c) = spec_expire now id key expire (spec_of now c).
Proof.
  intros Hc Hnow He Hnn. destruct (clear_keeps now c Hc) as (Hc1 & <- & _).
  assert (not_now now id key (maybe_clear_expired now c)) as Hnn1.
  { intros s v. unfold maybe_clear_expired. destruct (_ =? _); [|apply Hnn]. cbn. rewrite lookup_fmap.
    destruct (storages c !! id) as [s0|] eqn:E0; [|done]. cbn. intros [= <-]. cbn. intros [Hv _]%map_lookup_filter_Some. by eapply Hnn. }
  unfold cache_set_expire, spec_expire. set (c1 := maybe_clear_expired now c) in *.
  destruct (expire =? 0) eqn:Ee; [by apply cache_remove_refines|]. b2p.
  assert (forall i, i <> id -> alter (fun p : Z * Entries => (p.1, alter (fun v => mkCacheValue (saturating_add 64 now expire) (cv_value v)) key p.2)) id
    (spec_of now c1) !! i = spec_of now c1 !! i) as Hother by (intros i Hi; by rewrite lookup_alter_ne).
  destruct (storages c1 !! id) as [s|] eqn:E.
  2: { split; [done|]. apply map_eq. intros i. destruct (decide (i = id)) as [->|]; [|by rewrite Hother]. by rewrite lookup_alter_eq, spec_of_lookup, E. }
  destruct (cs_kvs s !! key) as [v|] eqn:Ek.
  2: { split; [done|]. apply map_eq. intros i. destruct (decide (i = id)) as [->|]; [|by rewrite Hother].
       rewrite lookup_alter_eq, spec_of_lookup, E. cbn. do 2 f_equal. apply map_eq. intros k. rewrite lookup_alter. case_decide; [subst k|done].
       unfold live. by rewrite map_lookup_filter, Ek. }
  pose proof (Hnn1 s v E Ek) as Hne. pose proof (ca_storages _ Hc1 _ _ E) as Hs. destruct (Z.leb_spec now (expire_at v)) as [Hle|Hlt].
  - split.
    + apply cache_ok_insert; [done|]. destruct Hs as [H1 H2 H3]. split; cbn; [|done|done]. rewrite total_insert, total_delete, Ek. cbn.
      unfold entry_size in *. cbn. lia.
    + rewrite spec_of_insert. cbn. apply map_eq. intros i. destruct (decide (i = id)) as [->|]; [|by rewrite lookup_insert_ne, Hother by congruence].
      rewrite lookup_insert_eq, lookup_alter_eq, spec_of_lookup, E. cbn. do 2 f_equal. rewrite live_insert by (cbn; unfold saturating_add; lia).
      apply map_eq. intros k. rewrite lookup_insert, lookup_alter. case_decide; [subst k|done]. 
      assert (live now (cs_kvs s) !! key = Some v) as -> by (apply map_lookup_filter_Some; split; [done|unfold is_live; cbn; lia]). done.
  - destruct (cache_remove_refines now id key c1 Hc1) as [Hok ->]. split; [done|]. unfold spec_remove. apply map_eq. intros i.
    destruct (decide (i = id)) as [->|]; [|by rewrite Hother, lookup_alter_ne]. rewrite !lookup_alter_eq, spec_of_lookup, E. cbn. do 2 f_equal.
    assert (live now (cs_kvs s) !! key = None) as Hn.
    { unfold live. apply map_lookup_filter_None. right. intros x Hx. rewrite Ek in Hx. injection Hx as <-. unfold is_live. cbn. lia. }
    rewrite delete_id by done. apply map_eq. intros k. rewrite lookup_alter. case_decide; [subst k; by rewrite Hn|done].
Qed.

(** ** Fitting a new quota *)

Definition lsum (l : list (bytes * CacheValue)) : Z := foldr (fun kv n => entry_size kv.1 kv.2 + n) 0 l.

Lemma lsum_nonneg l : 0 <= lsum l.
Proof. induction l as [|[k v] l IH]; cbn; [done|]. fold (lsum l). pose proof (entry_size_nonneg k v). lia. Qed.

Lemma total_list l : NoDup l.*1 -> total (list_to_map l) = lsum l.
Proof.
  induction l as [|[k v] l IH]; cbn; [done|]. intros [Hk Hl]%NoDup_cons. rewrite total_insert, delete_id, IH by (done || by apply not_elem_of_list_to_map_1). fold (lsum l). lia.
Qed.

Lemma evict_fits max l : forall size, size <= max -> evict max size l = (size, l).
Proof.
  induction l as [|[k v] l IH]; intros size H; cbn; [done|]. rewrite (proj2 (Z.leb_le _ _) H), IH by done. done.
Qed.

(** Entries are dropped from the front, none too many. *)
Lemma evict_spec max l : forall size, 0 <= max -> size = lsum l -> size < 2 ^ 64 -> exists dropped,
  l = dropped ++ (evict max size l).2 /\ (evict max size l).1 = lsum (evict max size l).2 /\ (evict max size l).1 <= max /\
  (dropped = [] \/ exists d kv, dropped = d ++ [kv] /\ max < (evict max size l).1 + entry_size kv.1 kv.2).
Proof.
  induction l as [|[k v] l IH]; intros size Hmax -> Hsize; cbn [evict].
  { exists []. cbn. eauto. }
  cbn [lsum foldr fst snd] in *. fold (lsum l) in *. pose proof (lsum_nonneg l) as Hn. pose proof (entry_size_nonneg k v) as He.
  destruct (Z.leb_spec (entry_size k v + lsum l) max) as [Hle|Hgt].
  - exists []. rewrite evict_fits by done. cbn. eauto.
  - rewrite wrap_sub_small by lia. destruct (IH (entry_size k v + lsum l - entry_size k v)) as (d & Hl & Hs & Hm & Hd); [lia..|].
    exists ((k, v) :: d). cbn. rewrite <- Hl. split; [done|]. split; [done|]. split; [done|]. right. destruct Hd as [->|(d' & kv & -> & Hlt)].
    + exists [], (k, v). split; [done|]. cbn in *. rewrite Hs, <- Hl. lia.
    + exists ((k, v) :: d'), kv. done.
Qed.

#[global] Instance expires_before_total : Total expires_before.
Proof.
  intros [k v] [k' v']. unfold expires_before. cbn. destruct (Z.lt_trichotomy (expire_at v) (expire_at v')) as [H|[H|H]]; [tauto| |tauto].
  destruct (bytes_leb_total k k'); [left; right|right; right]; by split.
Qed.
#[global] Instance expires_before_trans : Transitive expires_before.
Proof.
  intros [k v] [k' v'] [k2 v2]. unfold expires_before. cbn. intros [?|[? ?]] [?|[? ?]]; [left; lia..|].
  right. split; [lia|]. by eapply bytes_leb_trans.
Qed.

Lemma by_expiration_perm m : by_expiration m ≡ₚ map_to_list m.
Proof. apply merge_sort_Permutation. Qed.
Lemma by_expiration_nodup m : NoDup (by_expiration m).*1.
Proof. rewrite by_expiration_perm. apply NoDup_fst_map_to_list. Qed.
Lemma by_expiration_map m : list_to_map (by_expiration m) = m.
Proof. rewrite <- (list_to_map_to_list m) at 2. apply list_to_map_proper; [apply by_expiration_nodup|apply by_expiration_perm]. Qed.

(** A storage whose oldest entries [d] have been dropped. *)
Section dropped.
  Context (m : Entries) (d kept : list (bytes * CacheValue)) (Hl : by_expiration m = d ++ kept).

Lemma dropped_nodup : NoDup d.*1 /\ NoDup kept.*1 /\ (forall k, k ∈ d.*1 -> k ∉ kept.*1).
Proof. pose proof (by_expiration_nodup m) as H. rewrite Hl, fmap_app, NoDup_app in H. tauto. Qed.

Lemma kept_subset : (list_to_map kept : Entries) ⊆ m.
Proof.
  apply map_subseteq_spec. intros k v Hk%elem_of_list_to_map_2. rewrite <- (by_expiration_map m), Hl.
  apply elem_of_list_to_map_1; [rewrite <- Hl; apply by_expiration_nodup|]. apply elem_of_app. by right.
Qed.

Lemma dropped_lookup k v : (k, v) ∈ d <-> m !! k = Some v /\ (list_to_map kept : Entries) !! k = None.
Proof.
  destruct dropped_nodup as (Hd & Hk & Hdk). split.
  - intros Hin. split.
    + rewrite <- (by_expiration_map m), Hl. apply elem_of_list_to_map_1; [rewrite <- Hl; apply by_expiration_nodup|]. apply elem_of_app. by left.
    + apply not_elem_of_list_to_map_1. apply Hdk. apply list_elem_of_fmap. by exists (k, v).
  - intros [Hm Hn]. rewrite <- (by_expiration_map m), Hl in Hm. apply elem_of_list_to_map_2 in Hm. apply elem_of_app in Hm as [?|Hm]; [done|].
    apply not_elem_of_list_to_map_2 in Hn. destruct Hn. apply list_elem_of_fmap. by exists (k, v).
Qed.

Lemma dropped_earlier k v k' v' : (k, v) ∈ d -> (list_to_map kept : Entries) !! k' = Some v' -> expire_at v <= expire_at v'.
Proof.
  intros Hd Hk%elem_of_list_to_map_2. pose proof (StronglySorted_merge_sort expires_before (map_to_list m)) as Hs.
  change (merge_sort _ _) with (by_expiration m) in Hs. rewrite Hl in Hs.
  pose proof (StronglySorted_app_1_elem_of _ _ _ (k, v) (k', v') Hs Hd Hk) as [H|[H _]]; cbn in H; lia.
Qed.

(** The last entry that was dropped expires last of all that were. *)
Lemma dropped_last now d' kv : d = d' ++ [kv] -> live now (list_to_map kept) <> live now m ->
  is_live now kv /\ live now (list_to_map kept) = list_to_map kept.
Proof.
  intros Ed Hne. assert (is_live now kv) as Hlive.
  { apply dec_stable. intros Hdead. apply Hne. apply map_eq. intros k. unfold live. rewrite !map_lookup_filter.
    destruct (m !! k) as [v|] eqn:Em; cbn.
    - destruct ((list_to_map kept : Entries) !! k) as [v'|] eqn:Ek; cbn.
      + eapply lookup_weaken in Ek; [|apply kept_subset]. rewrite Ek in Em. by injection Em as ->.
      + rewrite option_guard_False; [done|]. intros Hv. apply Hdead. unfold is_live in *. cbn in *.
        assert ((k, v) ∈ d) as Hin by (by apply dropped_lookup). pose proof (StronglySorted_merge_sort expires_before (map_to_list m)) as Hs.
        change (merge_sort _ _) with (by_expiration m) in Hs. rewrite Hl in Hs. apply StronglySorted_app_1_l in Hs. rewrite Ed in Hs, Hin.
        apply elem_of_app in Hin as [Hin|Hin%list_elem_of_singleton]; [|by subst kv].
        pose proof (StronglySorted_app_1_elem_of _ _ _ (k, v) kv Hs Hin ltac:(by apply list_elem_of_singleton)) as [H|[H _]]; cbn in H; lia.
    - destruct ((list_to_map kept : Entries) !! k) as [v'|] eqn:Ek; [|done]. eapply lookup_weaken in Ek; [|apply kept_subset]. congruence. }
  split; [done|]. apply map_filter_id. intros k v Hk. destruct kv as [k0 v0].
  assert ((k0, v0) ∈ d) as Hin by (rewrite Ed; apply elem_of_app; right; by apply list_elem_of_singleton).
  pose proof (dropped_earlier k0 v0 k v Hin Hk). unfold is_live in *. cbn in *. lia.
Qed.
End dropped.

Lemma fitted_all max m : total m <= max -> fitted max m m.
Proof. intros H. by split; try done; intros; congruence. Qed.

Lemma fit_size_ok s : cs_size s = total (cs_kvs s) -> cs_size s < 2 ^ 64 -> 0 <= cs_max_size s <= 2 ^ 63 ->
  storage_ok (fit_size s) /\ cs_max_size (fit_size s) = cs_max_size s /\
  forall now, fitted (cs_max_size s) (live now (cs_kvs s)) (live now (cs_kvs (fit_size s))).
Proof.
  intros Hsz H64 [Hm0 Hm1]. pose proof (fun now => total_subset _ _ (live_subset now (cs_kvs s))) as Hlive. unfold fit_size.
  destruct (Z.leb_spec (cs_size s) (cs_max_size s)) as [Hle|Hgt].
  { split; [by split|]. split; [done|]. intros now. apply fitted_all. specialize (Hlive now). lia. }
  destruct (evict_spec (cs_max_size s) (by_expiration (cs_kvs s)) (cs_size s)) as (d & Hl & Hs & Hmax & Hd); [done| |done|].
  { rewrite Hsz, <- (by_expiration_map (cs_kvs s)) at 1. apply total_list, by_expiration_nodup. }
  destruct (evict _ _ _) as [size kept]. cbn [fst snd] in *. destruct (dropped_nodup _ _ _ Hl) as (_ & Hnk & _).
  pose proof (total_list kept Hnk) as Ht. split; [split; cbn; lia|]. split; [done|]. intros now. cbn.
  set (m := cs_kvs s) in *. pose proof (kept_subset _ _ _ Hl) as Hsub. pose proof (total_subset _ _ (live_subset now (list_to_map kept))) as Hlk.
  assert (live now (list_to_map kept) <> live now m -> exists k v, (k, v) ∈ d /\ is_live now (k, v) /\
    live now (list_to_map kept) = list_to_map kept /\ cs_max_size s < size + entry_size k v) as Hlast.
  { intros Hne. destruct Hd as [->|(d' & [k v] & Ed & Hlt)].
    - cbn in Hl. destruct Hne. by rewrite <- (by_expiration_map m), Hl.
    - destruct (dropped_last _ _ _ Hl now d' (k, v) Ed Hne) as [Hlv Hid]. exists k, v. split; [|done]. rewrite Ed. apply elem_of_app. right. by apply list_elem_of_singleton. }
  split.
  - apply map_filter_subseteq_mono. done.
  - lia.
  - intros Hfit. apply dec_stable. intros Hne. destruct (Hlast Hne) as (k & v & Hin & Hlv & Hid & Hlt).
    apply (dropped_lookup _ _ _ Hl) in Hin as [Hmk Hkk]. assert (total (<[ k := v ]> (list_to_map kept)) <= total (live now m)) as Hc.
    { apply total_subset, insert_subseteq_l; [by apply map_lookup_filter_Some|]. rewrite <- Hid. by apply map_filter_subseteq_mono. }
    rewrite total_insert, delete_id in Hc by done. lia.
  - intros k v k' v' [Hk Hlv]%map_lookup_filter_Some Hn [Hk' _]%map_lookup_filter_Some. eapply dropped_earlier; [exact Hl| |exact Hk'].
    apply (dropped_lookup _ _ _ Hl). split; [done|]. apply map_lookup_filter_None in Hn as [Hn|Hn]; [done|].
    destruct ((list_to_map kept : Entries) !! k) as [v1|] eqn:E; [|done]. eapply lookup_weaken in E as E1; [|exact Hsub]. rewrite E1 in Hk.
    injection Hk as ->. by destruct (Hn v).
  - intros Hne. destruct (Hlast Hne) as (k & v & Hin & Hlv & Hid & Hlt). apply (dropped_lookup _ _ _ Hl) in Hin as [Hmk Hkk].
    exists k, v. rewrite Hid. split; [by apply map_lookup_filter_Some|]. split; [done|]. lia.
Qed.

Lemma apply_quota_refines now id max c : cache_ok c -> 0 <= max <= 2 ^ 63 ->
  cache_ok (apply_quota id max c) /\ spec_quota id max (spec_of now c) (spec_of now (apply_quota id max c)).
Proof.
  intros Hc Hmax. unfold apply_quota, spec_quota. destruct (max =? 0) eqn:E0.
  { destruct Hc as [H1 H2]. split; [split; [by apply map_Forall_delete|done]|]. unfold spec_of. cbn. by rewrite fmap_delete. }
  rewrite spec_of_lookup. destruct (storages c !! id) as [s|] eqn:E; cbn [fmap option_fmap option_map].
  - destruct (ca_storages _ Hc _ _ E) as [H1 H2 H3]. destruct (fit_size_ok (mkCacheStorage (cs_size s) max (cs_kvs s))) as (Hok & Hm & Hf); [done|cbn; lia|done|].
    split; [by apply cache_ok_insert|]. rewrite spec_of_insert, Hm. exists (live now (cs_kvs (fit_size (mkCacheStorage (cs_size s) max (cs_kvs s))))).
    split; [apply Hf|done].
  - b2p. split; [apply cache_ok_insert; [done|split; cbn; [done|lia|lia]]|]. rewrite spec_of_insert. cbn. unfold live. by rewrite map_filter_empty.
Qed.

(** ** Runs *)

Definition spec_call (now lifetime : Z) (call : CacheCall) (a : CacheSpec) (r : CacheResult) (a' : CacheSpec) : Prop :=
  match call with
  | CallGet id key => r = RValue (spec_get id key a) /\ a' = a
  | CallSet id key value => r = RSet (spec_set now lifetime id key value a).1 /\ a' = (spec_set now lifetime id key value a).2
  | CallExpire id key expire => r = RDone /\ a' = spec_expire now id key expire a
  | CallRemove id key => (exists v, r = RValue v /\ forall x, spec_get id key a = Some x -> v = Some x) /\ a' = spec_remove id key a
  | CallQuota id max => r = RDone /\ spec_quota id max a a'
  end.

(** The arguments fit a 64-bit machine, and no deadline is moved in the second in
    which it passes. *)
Definition call_ok (now : Z) (call : CacheCall) (c : LocalCache) : Prop :=
  match call with
  | CallGet _ _ | CallRemove _ _ => True
  | CallSet id key value => len key + len value < 2 ^ 63
  | CallExpire id key expire => 0 <= expire /\ not_now now id key c
  | CallQuota id max => 0 <= max <= 2 ^ 63
  end.

Lemma cache_call_refines now call c : cache_ok c -> 0 <= now < 2 ^ 64 - 1 -> call_ok now call c ->
  cache_ok (cache_call now call c).2 /\
  spec_call now (default_value_lifetime c) call (spec_of now c) (cache_call now call c).1 (spec_of now (cache_call now call c).2).
Proof.
  intros Hc Hnow Hok. destruct call as [id key|id key value|id key expire|id key|id max]; cbn in *.
  - split; [done|]. by rewrite cache_get_spec.
  - destruct (cache_set_refines now id key value c Hc Hnow Hok) as (H1 & H2 & H3). destruct (cache_set _ _ _ _ c) as [ok c']. cbn in *. by subst ok.
  - destruct Hok as [He Hn]. destruct (cache_set_expire_refines now id key expire c Hc Hnow He Hn) as [H1 H2]. done.
  - destruct (cache_remove_refines now id key c Hc) as [H1 H2]. pose proof (cache_remove_value now id key c Hc) as Hv.
    destruct (cache_remove _ _ _ c) as [v c']. cbn in *. eauto.
  - destruct (apply_quota_refines now id max c Hc Hok). done.
Qed.

Lemma cache_call_lifetime now call c : default_value_lifetime (cache_call now call c).2 = default_value_lifetime c.
Proof.
  assert (forall c, default_value_lifetime (maybe_clear_expired now c) = default_value_lifetime c) as Hm
    by (intros c0; unfold maybe_clear_expired; by case_match).
  assert (forall id key c, default_value_lifetime (cache_remove now id key c).2 = default_value_lifetime c) as Hr.
  { intros id key c0. unfold cache_remove. rewrite <- (Hm c0). destruct (storages _ !! _); [|done]. by destruct (storage_remove _ _). }
  destruct call; cbn; [done|..].
  - unfold cache_set. rewrite <- (Hm c). destruct (storages _ !! _); [|done]. by destruct (storage_set _ _ _ _ _).
  - unfold cache_set_expire. rewrite <- (Hm c). repeat case_match; rewrite ?Hr; done.
  - specialize (Hr id key c). by destruct (cache_remove _ _ _ _).
  - unfold apply_quota. by repeat case_match.
Qed.

(** Calls at the times of a clock that does not run backwards. *)
Fixpoint cache_run (calls : list (Z * CacheCall)) (c : LocalCache) : list CacheResult * LocalCache :=
  match calls with
  | [] => ([], c)
  | (now, call) :: calls => let '(r, c) := cache_call now call c in let '(rs, c) := cache_run calls c in (r :: rs, c)
  end.
Fixpoint run_ok (clock : Z) (calls : list (Z * CacheCall)) (c : LocalCache) : Prop :=
  match calls with
  | [] => True
  | (now, call) :: calls => clock <= now < 2 ^ 64 - 1 /\ call_ok now call c /\ run_ok now calls (cache_call now call c).2
  end.
Inductive spec_run (lifetime : Z) : list (Z * CacheCall) -> CacheSpec -> list CacheResult -> CacheSpec -> Prop :=
  | spec_run_nil a : spec_run lifetime [] a [] a
  | spec_run_cons now call calls a r a' rs a2 :
      spec_call now lifetime call (spec_later now a) r a' -> spec_run lifetime calls a' rs a2 -> spec_run lifetime ((now, call) :: calls) a (r :: rs) a2.

Lemma cache_run_refines calls : forall clock c, 0 <= clock -> cache_ok c -> run_ok clock calls c ->
  cache_ok (cache_run calls c).2 /\
  exists clock', spec_run (default_value_lifetime c) calls (spec_of clock c) (cache_run calls c).1 (spec_of clock' (cache_run calls c).2).
Proof.
  induction calls as [|[now call] calls IH]; intros clock c Hclock Hc Hrun; cbn in *.
  { split; [done|]. exists clock. constructor. }
  destruct Hrun as (Hnow & Hok & Hrun). destruct (cache_call_refines now call c Hc ltac:(lia) Hok) as [Hc1 Hs].
  pose proof (cache_call_lifetime now call c) as Hlt. destruct (cache_call now call c) as [r c1]. cbn [fst snd] in *.
  destruct (IH now c1 ltac:(lia) Hc1 Hrun) as (Hc2 & clock' & Hs2). destruct (cache_run calls c1) as [rs c2]. cbn [fst snd] in *.
  split; [done|]. exists clock'. rewrite <- Hlt in *. econstructor; [|exact Hs2]. by rewrite <- spec_of_later by lia.
Qed.

(** * The local cache: what contracts can rely on

    The refinement theorem of runs from the fresh cache, the second in which a
    deadline passes, and their witnesses. *)

(** C19: for calls at the times of a clock that does not run backwards, with
    arguments that fit, and none that sets an expiration in the very second in which
    the deadline passes ([expired_value_revived] shows what happens then), the local
    cache refines a map of live values per contract. A read answers exactly the live
    value. A write stores the value when it fits into the quota beside the other
    live values; one that is refused still drops the old value of its key. A removal
    returns the live value, or, when none is live, nothing or an expired value not
    yet collected. Values are dropped only when they expire, are removed or
    overwritten, or when a smaller quota makes room by the nearest deadlines; the
    recorded size of every contract is exact and within its quota. *)
Theorem cache_refines_map calls : run_ok 0 calls local_cache_new ->
  map_Forall (fun _ s => cs_size s = total (cs_kvs s) /\ cs_size s <= cs_max_size s) (storages (cache_run calls local_cache_new).2) /\
  exists clock, spec_run (3600 * 24 * 7) calls ∅ (cache_run calls local_cache_new).1 (spec_of clock (cache_run calls local_cache_new).2).
Proof.
  intros Hrun. assert (cache_ok local_cache_new) as Hok by (split; [apply map_Forall_empty|done]).
  destruct (cache_run_refines calls 0 local_cache_new ltac:(done) Hok Hrun) as [[Hs _] (clock & Hr)]. split.
  - intros i s Hi. by destruct (Hs i s Hi).
  - exists clock. unfold spec_of at 1 in Hr. cbn [storages local_cache_new default_value_lifetime] in Hr. by rewrite fmap_empty in Hr.
Qed.

(** In the second in which its deadline passes a value is no longer readable,
    but setting an expiration brings it back, unless that call happens to collect
    garbage. *)
Theorem expired_value_revived now id key expire c s v :
  storages c !! id = Some s -> cs_kvs s !! key = Some v -> expire_at v = now -> 0 <= now < 2 ^ 64 - 1 -> 0 < expire ->
  sets_since_last_gc c +[64] 1 <> gc_interval c ->
  cache_get now id key c = None /\ cache_get now id key (cache_set_expire now id key expire c) = Some (cv_value v).
Proof.
  intros Hs Hv Hn Hnow He Hgc. unfold cache_get. rewrite Hs. cbn. rewrite Hv. cbn. rewrite (proj2 (Z.leb_le (expire_at v) now)) by lia. split; [done|].
  unfold cache_set_expire, maybe_clear_expired. cbn [gc_interval]. rewrite (proj2 (Z.eqb_neq _ _) Hgc), (proj2 (Z.eqb_neq expire 0)) by lia. cbn. rewrite Hs, Hv.
  rewrite (proj2 (Z.leb_le now _)) by lia. cbn. rewrite lookup_insert_eq. cbn. rewrite lookup_insert_eq. cbn.
  rewrite (proj2 (Z.leb_gt _ now)); [done|]. unfold saturating_add. lia.
Qed.

(** ** Witnesses *)

Definition foo : bytes := [102; 111; 111].
Definition bar : bytes := [98; 97; 114].
Definition hello : bytes := [104; 101; 108; 108; 111].
Definition cid : bytes := [1].

(** A quota of 10 bytes holds one of two values; a shorter deadline, and its passing;
    the second value takes the place of the expired one, and a smaller quota drops it. *)
Definition calls1 : list (Z * CacheCall) :=
  [(0, CallQuota cid 10); (1, CallSet cid foo hello); (1, CallSet cid bar hello); (2, CallGet cid foo); (2, CallExpire cid foo 5);
   (6, CallGet cid foo); (7, CallGet cid foo); (8, CallSet cid bar hello); (9, CallQuota cid 5); (9, CallGet cid bar)].

Lemma cache_refines_map_witness :
  (cache_run calls1 local_cache_new).1 =
    [RDone; RSet true; RSet false; RValue (Some hello); RDone; RValue (Some hello); RValue None; RSet true; RDone; RValue None] /\
  exists clock, spec_run (3600 * 24 * 7) calls1 ∅ (cache_run calls1 local_cache_new).1 (spec_of clock (cache_run calls1 local_cache_new).2).
Proof.
  split; [vm_compute; reflexivity|]. apply cache_refines_map. cbn [run_ok calls1]. repeat split; try (vm_compute; congruence).
  intros s v Hs Hv. vm_compute in Hs. injection Hs as <-. vm_compute in Hv. injection Hv as <-. vm_compute. discriminate.
Defined.

Definition cache2 : LocalCache := (cache_run [(0, CallQuota cid 10); (1, CallSet cid foo hello); (2, CallExpire cid foo 5)] local_cache_new).2.

Lemma expired_value_revived_witness :
  cache_get 7 cid foo cache2 = None /\ cache_get 7 cid foo (cache_set_expire 7 cid foo 60 cache2) = Some hello.
Proof.
  apply (expired_value_revived 7 cid foo 60 cache2 (mkCacheStorage 8 10 {[ foo := mkCacheValue 7 hello ]}) (mkCacheValue 7 hello));
    vm_compute; solve [reflexivity | split; congruence | congruence].
Defined.
