(* ===== verification/Checkpoint.v ===== *)
(** * Checkpoint files (crates/phactory/src/lib.rs)

    A pRuntime saves its state to a file per block, next to which an info file
    marks that it is complete, keeps a bounded number of them, and restarts from
    the newest complete one. A run of file operations logs the disks it passes
    through, any of which a crash can leave behind; operations can fail. *)

From stdpp Require Import sorting.
From S2P Require Import Prelude MqTypes.


Definition Disk : Type := gmap bytes bytes.

Inductive DiskOp :=
  | OpCreate (p : Path)
  | OpWrite (p : Path) (chunk : bytes)
  | OpRemove (p : Path)
  | OpOpen (p : Path).

Definition path_le (a b : Path) : Prop := bytes_leb a b = true.
#[global] Instance path_le_dec : RelDecision path_le.
Proof. intros a b. unfold path_le. apply _. Defined.

(** ** Runs on a disk: the disks before each write, the result ([None]: an error) and the disk at the end *)

Definition Io (A : Type) : Type := Disk -> list Disk * option A * Disk.
#[global] Instance Io_ret : MRet Io := fun A a d => ([], Some a, d).
#[global] Instance Io_bind : MBind Io := fun A B f m d =>
  match m d with
  | (v, Some a, d') => let '(v', r, d'') := f a d' in (v ++ v', r, d'')
  | (v, None, d') => (v, None, d')
  end.
(** [if let Err(e) = .. { error!(..) }] *)
Definition try_io {A} (m : Io A) : Io (option A) := fun d => let '(v, r, d') := m d in (v, Some r, d').
Definition fail_io {A} : Io A := fun d => ([], None, d).
Definition get_disk : Io Disk := fun d => ([], Some d, d).

(** The disks a crash can leave *)
Definition crash_disks {A} (m : Io A) (d : Disk) : list Disk := let '(v, _, d') := m d in v ++ [d'].
Definition result {A} (m : Io A) (d : Disk) : option A := (m d).1.2.
Definition disk_after {A} (m : Io A) (d : Disk) : Disk := (m d).2.

Section disk.
Variable faults : DiskOp -> bool.

Definition write_disk (op : DiskOp) (f : Disk -> Disk) : Io unit := fun d => if faults op then ([d], None, d) else ([d], Some tt, f d).

Definition file_create (p : Path) : Io unit := write_disk (OpCreate p) <[ p := [] ]>.
Definition file_write (p : Path) (chunk : bytes) : Io unit := write_disk (OpWrite p chunk) (alter (fun c => c ++ chunk) p).
Fixpoint write_chunks (p : Path) (chunks : list bytes) : Io unit :=
  match chunks with
  | [] => mret tt
  | c :: chunks => file_write p c;; write_chunks p chunks
  end.
Definition remove_file (p : Path) : Io unit :=
  d ← get_disk;
  match d !! p with
  | Some _ => write_disk (OpRemove p) (delete p)
  | None => fail_io
  end.
Definition path_exists (p : Path) : Io bool := d ← get_disk; mret (bool_decide (is_Some (d !! p))).

(** ** Names *)

Fixpoint dec_digits (fuel : nat) (n : Z) (acc : bytes) : bytes :=
  match fuel with
  | O => acc
  | S fuel => if n <? 10 then 48 + n :: acc else dec_digits fuel (n / 10) (48 + n mod 10 :: acc)
  end.
(** [{block_number:0>9}]; a block number has at most 10 digits *)
Definition format_block (n : Z) : bytes := let s := dec_digits 10 n [] in replicate (9 - length s) 48 ++ s.

Definition CHECKPOINT_FILE : bytes := bs "checkpoint.seal".
Definition checkpoint_filename_for (block_number : Z) (basedir : bytes) : Path :=
  basedir ++ bs "/" ++ CHECKPOINT_FILE ++ bs "-" ++ format_block block_number.
Definition checkpoint_info_filename_for (filename : Path) : Path := filename ++ bs ".info.json".

(** [glob("{basedir}/{CHECKPOINT_FILE}-*")]: sorted, [*] matches no separator *)
Definition glob_checkpoint_files (basedir : bytes) (d : Disk) : list Path :=
  let prefix := basedir ++ bs "/" ++ CHECKPOINT_FILE ++ bs "-" in
  merge_sort path_le
    (filter (fun p => take (length prefix) p = prefix /\ 47 ∉ drop (length prefix) p) (map_to_list d).*1).

(** [filename.rsplit('-').next()] *)
Fixpoint after_last_dash (p : bytes) : bytes :=
  match p with
  | [] => []
  | x :: p' => if bool_decide (45 ∈ p') then after_last_dash p' else if x =? 45 then p' else p
  end.
(** [u32::from_str] *)
Fixpoint parse_digits (acc : Z) (s : bytes) : option Z :=
  match s with
  | [] => Some acc
  | c :: s' =>
      if (48 <=? c) && (c <=? 57) then
        let acc' := acc * 10 + (c - 48) in
        if acc' <? 2 ^ 32 then parse_digits acc' s' else None
      else None
  end.
Definition parse_u32 (s : bytes) : option Z :=
  match s with
  | [] => None
  | [43] => None
  | 43 :: s' => parse_digits 0 s'
  | _ => parse_digits 0 s
  end.
Definition parse_block (filename : Path) : option Z := parse_u32 (after_last_dash filename).

(** [sort_by_key(|(block, _)| Reverse(block))], which is stable *)
Fixpoint insert_desc (x : Z * Path) (l : list (Z * Path)) : list (Z * Path) :=
  match l with
  | [] => [x]
  | y :: l' => if y.1 <=? x.1 then x :: l else y :: insert_desc x l'
  end.
Definition glob_checkpoint_files_sorted (basedir : bytes) (d : Disk) : list (Z * Path) :=
  foldr insert_desc [] (omap (fun p => (fun b => (b, p)) <$> parse_block p) (glob_checkpoint_files basedir d)).

(** ** Removing files *)

Definition remove_checkpoint (filename : Path) : Io unit :=
  remove_file filename;;
  remove_file (checkpoint_info_filename_for filename).

Definition remove_checkpoint_if_uncompleted (filename : Path) : Io bool :=
  complete ← path_exists (checkpoint_info_filename_for filename);
  if negb complete then remove_file filename;; mret true else mret false.

(** The loop of [remove_outdated_checkpoints], [kept] so far *)
Fixpoint remove_outdated (max_kept current_block : Z) (files : list (Z * Path)) (kept : Z) : Io unit :=
  match files with
  | [] => mret tt
  | (block, filename) :: files =>
      removed ← remove_checkpoint_if_uncompleted filename;
      if (removed : bool) then remove_outdated max_kept current_block files kept
      else if current_block <? block then remove_outdated max_kept current_block files kept
      else
        let kept := kept +[32] 1 in
        (if max_kept <? kept then try_io (remove_checkpoint filename) else mret None);;
        remove_outdated max_kept current_block files kept
  end.
Definition remove_outdated_checkpoints (basedir : bytes) (max_kept current_block : Z) : Io unit :=
  d ← get_disk;
  remove_outdated max_kept current_block (glob_checkpoint_files_sorted basedir d) 0.

Definition maybe_remove_checkpoints (basedir : bytes) : Io unit :=
  d ← get_disk;
  foldr (fun p m => try_io (remove_file p);; m) (mret tt) (glob_checkpoint_files basedir d).
End disk.

(** What the encrypting writer of phala-crypto puts into a file for a state, in
    pieces, under a key and a nonce, and what its reader and [load_state] make
    of the content of a file; [get_info] as text *)
Class CheckpointLib (S : Type) := {
  sealed_chunks : bytes -> bytes -> S -> list bytes;
  open_checkpoint : bytes -> bytes -> option S;
  info_text : S -> bytes;
}.

Section checkpoint.
Context {S : Type} `{CK : !CheckpointLib S}.
Variable faults : DiskOp -> bool.

Definition save_checkpoint_info (filename : Path) (s : S) : Io unit :=
  let info_filename := checkpoint_info_filename_for filename in
  file_create faults info_filename;;
  file_write faults info_filename (info_text s).

(** The state [s] is at [current_block]; [key] is its identity key. *)
Definition take_checkpoint (basedir : bytes) (max_checkpoint_files safe_mode_level current_block : Z) (key nonce : bytes) (s : S) : Io Z :=
  if 0 <? safe_mode_level then fail_io
  else
    let checkpoint_file := checkpoint_filename_for current_block basedir in
    file_create faults checkpoint_file;;
    write_chunks faults checkpoint_file (sealed_chunks key nonce s);;
    save_checkpoint_info checkpoint_file s;;
    remove_outdated_checkpoints faults basedir max_checkpoint_files current_block;;
    mret current_block.

(** The filter of [restore_from_checkpoint], which removes what it drops *)
Fixpoint keep_completed (files : list (Z * Path)) : Io (list (Z * Path)) :=
  match files with
  | [] => mret []
  | f :: files =>
      removed ← try_io (remove_checkpoint_if_uncompleted faults f.2);
      rest ← keep_completed files;
      mret (match removed with Some false => f :: rest | _ => rest end)
  end.

(** [key]: the sealed identity key, if there is one; [None] in the result: no checkpoint *)
Definition restore_from_checkpoint (basedir : bytes) (remove_corrupted_checkpoint : bool) (key : option bytes) : Io (option S) :=
  match key with
  | None => mret None
  | Some key =>
      d ← get_disk;
      files ← keep_completed (glob_checkpoint_files_sorted basedir d);
      match files with
      | [] => mret None
      | (_, ckpt_filename) :: _ =>
          d ← get_disk;
          match d !! ckpt_filename with
          | None => fail_io
          | Some content =>
              match (if faults (OpOpen ckpt_filename) then None else open_checkpoint key content) with
              | Some state => mret (Some state)
              | None => (if remove_corrupted_checkpoint then remove_file faults ckpt_filename else mret tt);; fail_io
              end
          end
      end
  end.
End checkpoint.
