(* ===== verification/CheckpointClaims.v ===== *)
(** * Checkpoints survive crashes

    The names of checkpoint files carry their block numbers, a restart finds the
    newest complete checkpoint, and taking one leaves, at whatever point the
    process dies, either the old newest checkpoint or the new one. *)

From stdpp Require Import sorting.
From S2P Require Import Prelude MqTypes Checkpoint.

(** ** Names *)

Definition digit (c : Z) : Prop := 48 <= c <= 57.
Definition value (acc : Z) (s : bytes) : Z := foldl (fun a c => a * 10 + (c - 48)) acc s.

Lemma value_ge s : forall a, 0 <= a -> Forall digit s -> a <= value a s.
Proof.
  induction s as [|c s IH]; intros a Ha H; cbn; [lia|]. apply Forall_cons in H as [Hc H]. unfold digit in Hc.
  etrans; [|apply IH; [lia|done]]. lia.
Qed.
Lemma parse_digits_value s : forall a, 0 <= a -> Forall digit s -> value a s < 2 ^ 32 -> parse_digits a s = Some (value a s).
Proof.
  induction s as [|c s IH]; intros a Ha H Hv; cbn; [done|]. apply Forall_cons in H as [Hc H]. unfold digit in Hc. cbn in Hv.
  rewrite (proj2 (Z.leb_le 48 c)), (proj2 (Z.leb_le c 57)) by lia. cbn [andb]. pose proof (value_ge s (a * 10 + (c - 48)) ltac:(lia) H) as Hge.
  unfold value in Hge. rewrite (proj2 (Z.ltb_lt _ _)) by lia. apply IH; [lia|done|done].
Qed.
Lemma parse_digits_bad s : forall a, Exists (fun c => ~ digit c) s -> parse_digits a s = None.
Proof.
  induction s as [|c s IH]; intros a H; [by inversion H|]. cbn. destruct ((48 <=? c) && (c <=? 57)) eqn:E; [|done]. b2p.
  apply Exists_cons in H as [H|H]; [unfold digit in H; lia|]. case_match; [by apply IH|done].
Qed.
Lemma dec_digits_value fuel : forall n rest, 0 <= n < 10 ^ Z.of_nat fuel -> value 0 (dec_digits fuel n rest) = value n rest.
Proof.
  induction fuel as [|fuel IH]; intros n rest Hn; [cbn in *; by replace n with 0 by lia|]. cbn [dec_digits].
  destruct (Z.ltb_spec n 10); [cbn; f_equal; lia|]. rewrite IH.
  - cbn. f_equal. pose proof (Z.div_mod n 10 ltac:(lia)). lia.
  - split; [apply Z.div_pos; lia|]. apply Z.div_lt_upper_bound; [lia|]. rewrite Nat2Z.inj_succ, Z.pow_succ_r in Hn by lia. lia.
Qed.
Lemma dec_digits_digits fuel : forall n rest, 0 <= n -> Forall digit rest -> Forall digit (dec_digits fuel n rest).
Proof.
  induction fuel as [|fuel IH]; intros n rest Hn H; [done|]. cbn [dec_digits]. destruct (Z.ltb_spec n 10); [constructor; [unfold digit; lia|done]|].
  apply IH; [apply Z.div_pos; lia|]. constructor; [|done]. pose proof (Z.mod_pos_bound n 10 ltac:(lia)). unfold digit. lia.
Qed.
Lemma dec_digits_cons fuel n rest : rest <> [] -> dec_digits fuel n rest <> [].
Proof. revert n rest. induction fuel as [|fuel IH]; intros n rest H; [done|]. cbn. case_match; [done|]. by apply IH. Qed.
Lemma dec_digits_some fuel n rest : dec_digits (S fuel) n rest <> [].
Proof. cbn. case_match; [done|]. by apply dec_digits_cons. Qed.
Lemma value_zeros k s : value 0 (replicate k 48 ++ s) = value 0 s.
Proof. induction k as [|k IH]; [done|]. apply IH. Qed.

Definition block_ok (b : Z) : Prop := 0 <= b < 2 ^ 32.

Lemma format_digits b : block_ok b -> Forall digit (format_block b).
Proof.
  intros [H _]. unfold format_block. apply Forall_app. split; [|apply dec_digits_digits; [done|by constructor]].
  apply Forall_replicate. unfold digit. lia.
Qed.
Lemma format_cons b : exists c s, format_block b = c :: s.
Proof.
  unfold format_block. destruct (dec_digits 10 b []) as [|c s] eqn:E.
  - by apply dec_digits_some in E.
  - destruct (9 - length (c :: s))%nat as [|k]; [by exists c, s|]. by eexists _, _.
Qed.
Lemma parse_digit_head c s : digit c -> parse_u32 (c :: s) = parse_digits 0 (c :: s).
Proof. intros Hc. unfold digit in Hc. unfold parse_u32. repeat (case_match; try lia; try done). Qed.

(** What a block number is formatted to parses to it. *)
Lemma parse_format b : block_ok b -> parse_u32 (format_block b) = Some b.
Proof.
  intros Hb. pose proof (format_digits b Hb) as Hd. assert (Hv : value 0 (format_block b) = b).
  { unfold format_block. rewrite value_zeros. rewrite dec_digits_value; [done|]. destruct Hb. change (10 ^ Z.of_nat 10) with 10000000000. lia. }
  destruct (format_cons b) as (c & s & E). rewrite E in *. rewrite parse_digit_head by (by inversion Hd).
  rewrite parse_digits_value; [by rewrite Hv|lia|done|]. rewrite Hv. by destruct Hb.
Qed.
Lemma parse_info b tail : block_ok b -> Exists (fun c => ~ digit c) tail -> parse_u32 (format_block b ++ tail) = None.
Proof.
  intros Hb Ht. pose proof (format_digits b Hb) as Hd. destruct (format_cons b) as (c & s & E). rewrite E in *. cbn [app].
  rewrite parse_digit_head by (by inversion Hd). apply parse_digits_bad. change (c :: s ++ tail) with ((c :: s) ++ tail). apply Exists_app. by right.
Qed.
Lemma after_last_dash_app pre s : 45 ∉ s -> after_last_dash (pre ++ 45 :: s) = s.
Proof.
  intros Hs. induction pre as [|x pre IH]; cbn; [by rewrite bool_decide_false|]. rewrite bool_decide_true; [done|]. apply elem_of_app. right. left.
Qed.
Lemma digits_no_dash s : Forall digit s -> 45 ∉ s.
Proof. intros H Hin. rewrite Forall_forall in H. specialize (H _ Hin). unfold digit in H. lia. Qed.

Section names.
Variable base : bytes.
Abbreviation ckpt b := (checkpoint_filename_for b base).
Abbreviation info b := (checkpoint_info_filename_for (checkpoint_filename_for b base)).

Lemma ckpt_split b : ckpt b = (base ++ bs "/checkpoint.seal") ++ 45 :: format_block b.
Proof. unfold checkpoint_filename_for, CHECKPOINT_FILE. rewrite <- !app_assoc. done. Qed.
Lemma info_split b : info b = (base ++ bs "/checkpoint.seal") ++ 45 :: format_block b ++ bs ".info.json".
Proof. unfold checkpoint_info_filename_for. rewrite ckpt_split, <- app_assoc. done. Qed.

Lemma parse_ckpt b : block_ok b -> parse_block (ckpt b) = Some b.
Proof. intros Hb. unfold parse_block. rewrite ckpt_split, after_last_dash_app; [by apply parse_format|]. by apply digits_no_dash, format_digits. Qed.
Lemma parse_info_file b : block_ok b -> parse_block (info b) = None.
Proof.
  intros Hb. unfold parse_block. rewrite info_split, after_last_dash_app.
  - apply parse_info; [done|]. apply Exists_cons_hd. vm_compute. intros [H _]. by apply H.
  - rewrite elem_of_app. intros [H|H]; [by apply (digits_no_dash _ (format_digits b Hb)) in H|]. assert (Hb' : bool_decide (45 ∈ bs ".info.json") = false) by (vm_compute; reflexivity). by apply bool_decide_eq_false in Hb'.
Qed.
Lemma ckpt_inj b b' : block_ok b -> block_ok b' -> ckpt b = ckpt b' -> b = b'.
Proof. intros H H' E. apply (f_equal parse_block) in E. rewrite !parse_ckpt in E by done. by injection E. Qed.
Lemma ckpt_not_info b b' : block_ok b -> block_ok b' -> ckpt b <> info b'.
Proof. intros H H' E. apply (f_equal parse_block) in E. by rewrite parse_ckpt, parse_info_file in E. Qed.
Lemma info_inj b b' : block_ok b -> block_ok b' -> info b = info b' -> b = b'.
Proof. intros H H' E. unfold checkpoint_info_filename_for in E. apply app_inv_tail in E. by apply ckpt_inj. Qed.

(** ** The files of a directory, newest first *)

Definition prefix_of (p : bytes) : Prop :=
  let prefix := base ++ bs "/" ++ CHECKPOINT_FILE ++ bs "-" in take (length prefix) p = prefix /\ 47 ∉ drop (length prefix) p.

(** Of the files the pattern matches, all are checkpoints or their info files. *)
Definition shape (d : Disk) : Prop := forall p, is_Some (d !! p) -> prefix_of p -> exists b, block_ok b /\ (p = ckpt b \/ p = info b).
Definition complete (d : Disk) (b : Z) : Prop := is_Some (d !! ckpt b) /\ is_Some (d !! info b).
#[global] Instance complete_dec d b : Decision (complete d b).
Proof. apply _. Defined.

Lemma ckpt_prefix b : block_ok b -> prefix_of (ckpt b).
Proof.
  intros Hb. unfold prefix_of, checkpoint_filename_for. rewrite !app_assoc. rewrite take_app_length. split; [done|]. rewrite drop_app_length.
  intros H. pose proof (format_digits b Hb) as Hd. rewrite Forall_forall in Hd. specialize (Hd _ H). unfold digit in Hd. lia.
Qed.

Lemma insert_desc_perm x l : insert_desc x l ≡ₚ x :: l.
Proof. induction l as [|y l IH]; cbn; [done|]. case_match; [done|]. rewrite IH. apply Permutation_swap. Qed.
Lemma insert_desc_sorted x l : StronglySorted (fun a b : Z * Path => b.1 <= a.1) l -> StronglySorted (fun a b : Z * Path => b.1 <= a.1) (insert_desc x l).
Proof.
  induction l as [|y l IH]; cbn; intros H; [by repeat constructor|]. apply StronglySorted_inv in H as [H Hy]. destruct (Z.leb_spec y.1 x.1) as [E|E].
  - constructor; [by constructor|]. constructor; [done|]. eapply Forall_impl; [exact Hy|]. cbn. lia.
  - constructor; [by apply IH|]. rewrite insert_desc_perm. constructor; [lia|done].
Qed.
Lemma sort_desc l : foldr insert_desc [] l ≡ₚ l /\ StronglySorted (fun a b : Z * Path => b.1 <= a.1) (foldr insert_desc [] l).
Proof. induction l as [|x l [IH1 IH2]]; [split; constructor|]. cbn. split; [by rewrite insert_desc_perm, IH1|by apply insert_desc_sorted]. Qed.

Definition parsed (ps : list Path) : list (Z * Path) := omap (fun p => (fun b => (b, p)) <$> parse_block p) ps.

Lemma glob_elem d p : p ∈ glob_checkpoint_files base d <-> is_Some (d !! p) /\ prefix_of p.
Proof.
  unfold glob_checkpoint_files. rewrite merge_sort_Permutation, list_elem_of_filter, list_elem_of_fmap. split.
  - intros [Hp ([p' c] & -> & Hin)]. apply elem_of_map_to_list in Hin. split; [by eexists|done].
  - intros [[c Hc] Hp]. split; [done|]. exists (p, c). split; [done|]. by apply elem_of_map_to_list.
Qed.
Lemma glob_nodup d : NoDup (glob_checkpoint_files base d).
Proof. unfold glob_checkpoint_files. rewrite merge_sort_Permutation. apply NoDup_filter. apply NoDup_fst_map_to_list. Qed.

Lemma strict_desc (l : list (Z * Path)) : StronglySorted (fun a b : Z * Path => b.1 <= a.1) l -> NoDup l.*1 -> StronglySorted (fun a b => b < a) l.*1.
Proof.
  induction l as [|x l IH]; cbn; intros Hs Hn; [constructor|]. apply StronglySorted_inv in Hs as [Hs Hx]. apply NoDup_cons in Hn as [Hnx Hn].
  constructor; [by apply IH|]. rewrite Forall_forall in Hx. apply Forall_forall. intros b Hb. apply list_elem_of_fmap in Hb as (y & -> & Hy).
  specialize (Hx y Hy). assert (y.1 <> x.1); [|lia]. intros E. apply Hnx. rewrite <- E. by apply list_elem_of_fmap_2.
Qed.

Lemma sorted_files d : shape d -> exists l, glob_checkpoint_files_sorted base d = (fun b => (b, ckpt b)) <$> l /\
  StronglySorted (fun a b => b < a) l /\ forall b, b ∈ l <-> block_ok b /\ is_Some (d !! ckpt b).
Proof.
  intros Hs. unfold glob_checkpoint_files_sorted. fold (parsed (glob_checkpoint_files base d)). set (ps := parsed (glob_checkpoint_files base d)).
  assert (Hin : forall x, x ∈ ps <-> exists b, x = (b, ckpt b) /\ block_ok b /\ is_Some (d !! ckpt b)).
  { intros x. unfold ps, parsed. rewrite list_elem_of_omap. split.
    - intros (p & Hp & Ex). apply glob_elem in Hp as [Hd Hp]. destruct (Hs p Hd Hp) as (b & Hb & [-> | ->]).
      + rewrite parse_ckpt in Ex by done. injection Ex as <-. by exists b.
      + by rewrite parse_info_file in Ex.
    - intros (b & -> & Hb & Hd). exists (ckpt b). split; [apply glob_elem; split; [done|by apply ckpt_prefix]|]. by rewrite parse_ckpt. }
  assert (Hnd : NoDup (ps.*1)).
  { unfold ps, parsed. pose proof (glob_nodup d) as Hg. assert (Hsub : forall p, p ∈ glob_checkpoint_files base d -> is_Some (d !! p) /\ prefix_of p) by (intros p; apply glob_elem).
    clear Hin. induction (glob_checkpoint_files base d) as [|p l IH]; [constructor|]. apply NoDup_cons in Hg as [Hnp Hg].
    assert (IH' : NoDup (omap (fun p => (fun b => (b, p)) <$> parse_block p) l).*1) by (apply IH; [done|]; intros q Hq; apply Hsub; by right).
    cbn. destruct (parse_block p) as [b|] eqn:Ep; cbn; [|done]. constructor; [|done]. intros Hb. apply list_elem_of_fmap in Hb as ([b' q] & Eb & Hq). cbn in Eb. subst b'.
    apply list_elem_of_omap in Hq as (q' & Hq' & E). destruct (parse_block q') as [b2|] eqn:Eq; [|done]. injection E as -> ->.
    destruct (Hsub p ltac:(left)) as [D1 P1]. destruct (Hsub q ltac:(by right)) as [D2 P2].
    destruct (Hs p D1 P1) as (x & Hx & [-> | ->]); [|by rewrite parse_info_file in Ep]. destruct (Hs q D2 P2) as (y & Hy & [-> | ->]); [|by rewrite parse_info_file in Eq].
    rewrite parse_ckpt in Ep, Eq by done. simplify_eq. done. }
  destruct (sort_desc ps) as [Hp Hsd]. exists (foldr insert_desc [] ps).*1. revert Hp Hsd. generalize (foldr insert_desc [] ps). intros l Hp Hsd.
  assert (Hl : forall x, x ∈ l <-> exists b, x = (b, ckpt b) /\ block_ok b /\ is_Some (d !! ckpt b)) by (intros x; by rewrite Hp).
  split_and!.
  - assert (Hf : Forall (fun x => x = (x.1, ckpt x.1)) l) by (apply Forall_forall; intros x Hx; apply Hl in Hx as (b & -> & _); done).
    clear -Hf. induction Hf as [|x l Hx _ IH]; cbn; [done|]. by f_equal.
  - apply strict_desc; [done|]. by rewrite Hp.
  - intros b. rewrite list_elem_of_fmap. split; [intros (x & -> & Hx); apply Hl in Hx as (b & -> & ?); done|]. intros Hb. exists (b, ckpt b). split; [done|]. apply Hl. by exists b.
Qed.

(** ** What a restart finds *)

Definition no_faults (op : DiskOp) : bool := false.
Abbreviation file_of := (fun b => (b, ckpt b)).

Implicit Types d : Disk.
Lemma filter_agree {A} (P Q : A -> Prop) `{!forall x, Decision (P x), !forall x, Decision (Q x)} (l : list A) :
  (forall x, x ∈ l -> P x <-> Q x) -> filter P l = filter Q l.
Proof.
  induction l as [|x l IH]; intros HPQ; [done|]. rewrite !filter_cons. rewrite IH by (intros y Hy; apply HPQ; by right).
  pose proof (HPQ x ltac:(left)). do 2 case_decide; tauto || done.
Qed.
Lemma info_delete d b b' : block_ok b -> block_ok b' -> delete (ckpt b) d !! info b' = d !! info b'.
Proof. intros H H'. apply lookup_delete_ne. by apply ckpt_not_info. Qed.
Lemma ckpt_delete d b b' : block_ok b -> block_ok b' -> b <> b' -> delete (ckpt b) d !! ckpt b' = d !! ckpt b'.
Proof. intros H H' Hn. apply lookup_delete_ne. intros E. by apply Hn, ckpt_inj. Qed.

Lemma io_bind_Some {A B} (m : Io A) (f : A -> Io B) d v a d' v' r d'' : m d = (v, Some a, d') -> f a d' = (v', r, d'') -> (m ≫= f) d = (v ++ v', r, d'').
Proof. intros E1 E2. unfold mbind, Io_bind. by rewrite E1, E2. Qed.
Lemma remove_file_run faults p d : remove_file faults p d =
  match d !! p with Some _ => if faults (OpRemove p) then ([d], None, d) else ([d], Some tt, delete p d) | None => ([], None, d) end.
Proof. unfold remove_file, get_disk, mbind, Io_bind, write_disk, fail_io. destruct (d !! p); [|done]. by destruct (faults _). Qed.
Lemma uncompleted_run faults p d : remove_checkpoint_if_uncompleted faults p d =
  match d !! checkpoint_info_filename_for p with
  | Some _ => ([], Some false, d)
  | None => match d !! p with Some _ => if faults (OpRemove p) then ([d], None, d) else ([d], Some true, delete p d) | None => ([], None, d) end
  end.
Proof.
  unfold remove_checkpoint_if_uncompleted, path_exists, get_disk, mbind, Io_bind, mret, Io_ret. cbn - [lookup delete remove_file].
  destruct (d !! checkpoint_info_filename_for p) eqn:E; [rewrite bool_decide_true by done; done|]. rewrite bool_decide_false by (by intros [? ?]).
  cbn - [lookup delete remove_file]. rewrite ?remove_file_run. destruct (d !! p); [|done]. by destruct (faults _).
Qed.

Lemma keep_completed_run l : forall d, Forall block_ok l -> NoDup l -> (forall b, b ∈ l -> is_Some (d !! ckpt b)) -> exists v d',
  keep_completed no_faults (file_of <$> l) d = (v, Some (file_of <$> filter (fun b => is_Some (d !! info b)) l), d') /\
  forall b, block_ok b -> complete d b -> d' !! ckpt b = d !! ckpt b.
Proof.
  induction l as [|b l IH]; intros d Hok Hnd Hin; [by exists [], d|]. apply Forall_cons in Hok as [Hb Hok]. apply NoDup_cons in Hnd as [Hnb Hnd].
  rewrite fmap_cons. cbn [keep_completed snd]. pose proof (uncompleted_run no_faults (ckpt b) d) as Hu. destruct (Hin b ltac:(left)) as [c Hc].
  assert (Hne : forall b', b' ∈ l -> b <> b') by (intros b' Hb' ->; done). rewrite Forall_forall in Hok. destruct (d !! info b) as [i|] eqn:Ei.
  - destruct (IH d) as (v & d' & E & Hd'); [by apply Forall_forall|done|intros b' Hb'; apply Hin; by right|]. eexists _, d'. split; [|exact Hd'].
    eapply io_bind_Some; [unfold try_io; rewrite Hu; reflexivity|]. eapply io_bind_Some; [exact E|]. rewrite filter_cons_True by (by rewrite Ei). reflexivity.
  - rewrite Hc in Hu. destruct (IH (delete (ckpt b) d)) as (v & d' & E & Hd'); [by apply Forall_forall|done| |].
    { intros b' Hb'. rewrite ckpt_delete by auto. apply Hin. by right. }
    eexists _, d'. split.
    + eapply io_bind_Some; [unfold try_io; rewrite Hu; reflexivity|]. eapply io_bind_Some; [exact E|]. rewrite filter_cons_False by (rewrite Ei; by intros [? ?]).
      erewrite filter_agree; [reflexivity|]. intros b' Hb'. cbn. by rewrite info_delete by auto.
    + intros b' Hb' [Hc' Hi']. assert (b <> b') by (intros ->; rewrite Ei in Hi'; by destruct Hi'). rewrite Hd'; [by apply ckpt_delete|done|].
      split; [by rewrite ckpt_delete|by rewrite info_delete].
Qed.

Section store.
Context {St : Type} `{CK : !CheckpointLib St}.

(** What a restart is to find: the newest complete checkpoint, its block and the
    content of its file *)
Definition newest d (o : option (Z * bytes)) : Prop :=
  match o with
  | Some (b, c) => block_ok b /\ complete d b /\ d !! ckpt b = Some c /\
      forall b', block_ok b' -> complete d b' -> b' <= b
  | None => forall b, block_ok b -> ~ complete d b
  end.

Lemma sorted_nodup (l : list Z) : StronglySorted (fun a b => b < a) l -> NoDup l.
Proof. induction 1 as [|x l _ IH Hx]; constructor; [|done]. intros H. rewrite Forall_forall in Hx. specialize (Hx _ H). lia. Qed.
Lemma sorted_filter (P : Z -> Prop) `{!forall b, Decision (P b)} l : StronglySorted (fun a b => b < a) l -> StronglySorted (fun a b => b < a) (filter P l).
Proof. induction 1 as [|x l _ IH Hx]; [constructor|]. rewrite filter_cons. case_decide; [|done]. constructor; [done|]. rewrite Forall_forall in *. intros y Hy. apply list_elem_of_filter in Hy as [_ Hy]. auto. Qed.

(** The newest complete checkpoint, which a restart opens *)
Definition top d (b : Z) : Prop := block_ok b /\ complete d b /\ forall b', block_ok b' -> complete d b' -> b' <= b.

Lemma completed_files d : shape d -> exists v fs d', keep_completed no_faults (glob_checkpoint_files_sorted base d) d = (v, Some (file_of <$> fs), d') /\
  StronglySorted (fun a b => b < a) fs /\ (forall b, b ∈ fs <-> block_ok b /\ complete d b) /\ forall b, block_ok b -> complete d b -> d' !! ckpt b = d !! ckpt b.
Proof.
  intros Hs. destruct (sorted_files d Hs) as (l & -> & Hsort & Hl).
  destruct (keep_completed_run l d) as (v & d' & E & Hd'); [apply Forall_forall; intros b Hb; by apply Hl|by apply sorted_nodup|intros b Hb; by apply Hl|].
  eexists v, _, d'. split_and!; [exact E|by apply sorted_filter| |exact Hd']. intros b. rewrite list_elem_of_filter, Hl. unfold complete. tauto.
Qed.
Lemma restore_top d b c key rc : shape d -> top d b -> d !! ckpt b = Some c ->
  result (restore_from_checkpoint (S := St) no_faults base rc (Some key)) d = Some <$> open_checkpoint key c.
Proof.
  intros Hs (Hb & Hc & Hmax) Ec. destruct (completed_files d Hs) as (v & fs & d' & E & Hsf & Hmem & Hd').
  unfold result, restore_from_checkpoint, mbind, Io_bind, get_disk. cbn [fst snd]. rewrite E. destruct fs as [|b' fs]; cbn [fmap list_fmap].
  - exfalso. eapply not_elem_of_nil. by apply Hmem.
  - assert (b' = b) as ->.
    { destruct (proj1 (Hmem b') ltac:(left)) as [Hb' Hc']. pose proof (Hmax b' Hb' Hc'). assert (Hin : b ∈ b' :: fs) by (by apply Hmem). apply elem_of_cons in Hin as [?|Hin]; [done|].
      apply StronglySorted_inv in Hsf as [_ Hsf]. rewrite Forall_forall in Hsf. specialize (Hsf _ Hin). lia. }
    rewrite (Hd' b Hb Hc), Ec. unfold no_faults. destruct (open_checkpoint key c); [done|]. destruct rc; [|done]. rewrite remove_file_run. by destruct (d' !! _).
Qed.
(** What a restart makes of it: the state in the file ([None]: it does not open and
    the restart fails), or none at all *)
Definition opened (key : bytes) (o : option (Z * bytes)) : option (option St) :=
  match o with Some (_, c) => Some <$> open_checkpoint key c | None => Some None end.

(** A restart loads the newest complete checkpoint. *)
Lemma restore_newest d key rc o : shape d -> newest d o ->
  result (restore_from_checkpoint (S := St) no_faults base rc (Some key)) d = opened key o.
Proof.
  intros Hs. destruct o as [[b c]|]; intros Hn.
  - destruct Hn as (Hb & Hc & Ec & Hmax). by apply (restore_top d b c key rc Hs).
  - destruct (completed_files d Hs) as (v & fs & d' & E & _ & Hmem & _). unfold result, restore_from_checkpoint, mbind, Io_bind, get_disk. cbn [fst snd]. rewrite E.
    destruct fs as [|b fs]; [done|]. destruct (proj1 (Hmem b) ltac:(left)) as [Hb Hc]. by destruct (Hn b Hb).
Qed.

(** ** Safety of a run: [I] holds of every disk a crash can leave, [Q] of the result *)

Definition io_safe {A : Type} (I : Disk -> Prop) (m : Io A) (Q : A -> Disk -> Prop) d : Prop :=
  Forall I (crash_disks m d) /\ forall a, result m d = Some a -> Q a (disk_after m d).

Lemma io_safe_ret {A : Type} (I : Disk -> Prop) (a : A) (Q : A -> Disk -> Prop) d : I d -> Q a d -> io_safe I (mret a) Q d.
Proof. intros HI HQ. split; [by constructor|]. intros a' E. injection E as <-. done. Qed.
Lemma io_safe_bind {A B : Type} (I : Disk -> Prop) (m : Io A) (f : A -> Io B) Q R d : io_safe I m Q d -> (forall a d', Q a d' -> io_safe I (f a) R d') -> io_safe I (m ≫= f) R d.
Proof.
  unfold io_safe, crash_disks, result, disk_after, mbind, Io_bind. destruct (m d) as [[v [a|]] d'] eqn:E; intros [HI HQ] Hf; [|split; [done|by intros]].
  specialize (Hf a d' (HQ a eq_refl)). destruct (f a d') as [[v' r] d'']. destruct Hf as [HI' HR]. split; [|exact HR].
  rewrite <- app_assoc. apply Forall_app in HI as [HI _]. by apply Forall_app.
Qed.
Lemma io_safe_try {A : Type} (I : Disk -> Prop) (m : Io A) Q R d : io_safe I m Q d -> (forall r d', I d' -> R r d') -> io_safe I (try_io m) R d.
Proof.
  unfold io_safe, crash_disks, result, disk_after, try_io. destruct (m d) as [[v r] d'] eqn:E. intros [HI _] HR. split; [done|].
  intros a Ea. injection Ea as <-. apply HR. apply Forall_app in HI as [_ HI]. by inversion HI.
Qed.
Lemma io_safe_write faults op f (I : Disk -> Prop) (Q : unit -> Disk -> Prop) d : I d -> I (f d) -> Q tt (f d) -> io_safe I (write_disk faults op f) Q d.
Proof.
  intros HI HI' HQ. unfold io_safe, crash_disks, result, disk_after, write_disk. destruct (faults op); cbn; (split; [by repeat constructor|]); [done|].
  intros [] _. done.
Qed.
Lemma io_safe_fail {A : Type} (I : Disk -> Prop) (Q : A -> Disk -> Prop) d : I d -> io_safe I fail_io Q d.
Proof. intros HI. split; [by constructor|done]. Qed.
Lemma io_safe_get (I : Disk -> Prop) d : I d -> io_safe I get_disk (fun a d' => a = d /\ d' = d) d.
Proof. intros HI. split; [by constructor|]. intros a E. injection E as <-. done. Qed.
Lemma io_safe_remove faults (I : Disk -> Prop) p d : I d -> I (delete p d) -> io_safe I (remove_file faults p) (fun _ d' => d' = delete p d) d.
Proof.
  intros HI HI'. eapply io_safe_bind; [by apply io_safe_get|]. intros ? ? [-> ->]. case_match; [by apply io_safe_write|by apply io_safe_fail].
Qed.
Lemma io_safe_weaken {A : Type} (I I' : Disk -> Prop) (m : Io A) (Q R : A -> Disk -> Prop) d :
  (forall x, I x -> I' x) -> (forall a x, Q a x -> R a x) -> io_safe I m Q d -> io_safe I' m R d.
Proof. intros HI HQ [H1 H2]. split; [by eapply Forall_impl|]. intros a E. apply HQ, H2, E. Qed.

(** ** Taking a checkpoint *)

Variables (faults : DiskOp -> bool) (key nonce : bytes) (b : Z) (s : St) (old : option (Z * bytes)).
Hypothesis Hb : block_ok b.

(** The content [w] written so far, without an info file *)
Definition writing (w : bytes) d : Prop :=
  shape d /\ newest d old /\ d !! info b = None /\ (forall b', block_ok b' -> complete d b' -> b' < b) /\ d !! ckpt b = Some w.
Definition written d : Prop := shape d /\ newest d (Some (b, mjoin (sealed_chunks key nonce s))).
Definition survives d : Prop := shape d /\ (newest d old \/ newest d (Some (b, mjoin (sealed_chunks key nonce s)))).

Lemma shape_insert d p c : shape d -> (exists b', block_ok b' /\ (p = ckpt b' \/ p = info b')) -> shape (<[ p := c ]> d).
Proof. intros Hs Hp q Hq Hpre. destruct (decide (p = q)) as [-> |Hn]; [done|]. assert (E : <[ p := c ]> d !! q = d !! q) by (by apply lookup_insert_ne). rewrite E in Hq. by apply Hs. Qed.
Lemma shape_delete d p : shape d -> shape (delete p d).
Proof. intros Hs q Hq Hpre. apply Hs; [|done]. destruct Hq as [c Hc]. apply lookup_delete_Some in Hc as [_ Hc]. by exists c. Qed.
Lemma complete_agree d d' b' : is_Some (d !! ckpt b') <-> is_Some (d' !! ckpt b') -> d !! info b' = d' !! info b' -> complete d b' <-> complete d' b'.
Proof. intros H1 H2. unfold complete. rewrite H2. tauto. Qed.

Lemma writing_insert d w w' : writing w d \/ (shape d /\ newest d old /\ d !! info b = None /\ forall b', block_ok b' -> complete d b' -> b' < b) ->
  writing w' (<[ ckpt b := w' ]> d).
Proof.
  intros H. assert (Hd : shape d /\ newest d old /\ d !! info b = None /\ forall b', block_ok b' -> complete d b' -> b' < b) by (destruct H as [(?&?&?&?&?)|?]; done).
  destruct Hd as (Hs & Hn & Hi & Hlt). set (d' := <[ ckpt b := w' ]> d).
  assert (Ei : forall b', block_ok b' -> d' !! info b' = d !! info b') by (intros b' Hb'; apply lookup_insert_ne; by apply ckpt_not_info).
  assert (Ec : forall b', block_ok b' -> b <> b' -> d' !! ckpt b' = d !! ckpt b') by (intros b' Hb' Hne; apply lookup_insert_ne; intros E; by apply Hne, ckpt_inj).
  assert (Eco : forall b', block_ok b' -> complete d' b' <-> complete d b').
  { intros b' Hb'. destruct (decide (b = b')) as [<- |Hne]; [|apply complete_agree; [by rewrite Ec|by apply Ei]].
    unfold complete. rewrite Ei, Hi by done. split; by intros [_ [? ?]]. }
  unfold writing. split_and!.
  - apply shape_insert; [done|]. exists b. by split; [|left].
  - destruct old as [[b0 s0]|]; cbn in *.
    + destruct Hn as (Hb0 & Hc0 & Ec0 & Hmax). split_and!; [done|by apply Eco| |intros b' Hb' Hc'; apply Hmax; [done|by apply Eco]].
      rewrite Ec; [done|done|]. intros <-. specialize (Hlt b Hb Hc0). lia.
    + intros b' Hb' Hc'. by apply (Hn b'), Eco.
  - by rewrite Ei.
  - intros b' Hb' Hc'. apply Hlt; [done|]. by apply Eco.
  - apply lookup_insert_eq.
Qed.
Lemma writing_alter d w c : writing w d -> writing (w ++ c) (alter (fun x => x ++ c) (ckpt b) d).
Proof.
  intros H. replace (alter (fun x => x ++ c) (ckpt b) d) with (<[ ckpt b := w ++ c ]> d); [eapply writing_insert; by left|].
  destruct H as (_ & _ & _ & _ & E). apply map_eq. intros q. destruct (decide (ckpt b = q)) as [<- |Hn].
  - etrans; [apply lookup_insert_eq|]. symmetry. etrans; [apply lookup_alter_eq|]. exact (f_equal (fmap (fun x => x ++ c)) E).
  - etrans; [by apply lookup_insert_ne|]. symmetry. by apply lookup_alter_ne.
Qed.
Lemma writing_survives w d : writing w d -> survives d.
Proof. intros (Hs & Hn & _). by split; [|left]. Qed.
Lemma written_survives d : written d -> survives d.
Proof. intros (Hs & Hn). by split; [|right]. Qed.

Lemma write_chunks_safe chunks : forall w d, writing w d -> io_safe survives (write_chunks faults (ckpt b) chunks) (fun _ => writing (w ++ mjoin chunks)) d.
Proof.
  induction chunks as [|c chunks IH]; intros w d Hw; cbn [write_chunks].
  - apply io_safe_ret; [by eapply writing_survives|]. cbn. by rewrite app_nil_r.
  - eapply io_safe_bind.
    + apply (io_safe_write _ _ _ _ (fun _ => writing (w ++ c))); [by eapply writing_survives|eapply writing_survives; by apply writing_alter|by apply writing_alter].
    + intros ? d' Hw'. cbn. change (mjoin (c :: chunks)) with (c ++ mjoin chunks). rewrite app_assoc. by apply IH.
Qed.

(** Creating the info file completes the new checkpoint. *)
Lemma writing_complete d w t : writing w d -> w = mjoin (sealed_chunks key nonce s) -> written (<[ info b := t ]> d).
Proof.
  intros (Hs & _ & _ & Hlt & Ew) ->. set (d' := <[ info b := t ]> d).
  assert (Ec : forall b', block_ok b' -> d' !! ckpt b' = d !! ckpt b') by (intros b' Hb'; apply lookup_insert_ne; intros E; symmetry in E; revert E; by apply ckpt_not_info).
  assert (Ei : forall b', block_ok b' -> b <> b' -> d' !! info b' = d !! info b') by (intros b' Hb' Hne; apply lookup_insert_ne; intros E; by apply Hne, info_inj).
  split; [apply shape_insert; [done|]; exists b; by split; [|right]|]. split_and!; [done| | |].
  - split; [by rewrite Ec, Ew by done|]. assert (E : d' !! info b = Some t) by apply lookup_insert_eq. by rewrite E.
  - by rewrite Ec.
  - intros b' Hb' Hc'. destruct (decide (b = b')) as [<- |Hne]; [lia|]. enough (b' < b) by lia. apply Hlt; [done|].
    eapply complete_agree; [| |exact Hc']; [by rewrite Ec|symmetry; by apply Ei].
Qed.
Lemma written_agree d d' : written d -> shape d' -> d' !! ckpt b = d !! ckpt b -> is_Some (d' !! info b) ->
  (forall b', block_ok b' -> complete d' b' -> complete d b') -> written d'.
Proof.
  intros (_ & _ & Hc & Ec & Hmax) Hs Ec' Hi' Hsub. split; [done|]. split_and!; [done| | |].
  - split; [by rewrite Ec', Ec|done].
  - by rewrite Ec'.
  - intros b' Hb' Hc'. by apply Hmax, Hsub.
Qed.
Lemma written_alter d f : written d -> written (alter f (info b) d).
Proof.
  intros H. assert (E : forall q, is_Some (alter f (info b) d !! q) <-> is_Some (d !! q)) by (intros q; apply lookup_alter_is_Some).
  eapply written_agree; [exact H| | | |].
  - intros q Hq. apply H. by apply E.
  - apply lookup_alter_ne. intros Ep. symmetry in Ep. revert Ep. by apply ckpt_not_info.
  - apply E. by destruct H as (_ & _ & [_ ?] & _).
  - intros b' _ [H1 H2]. split; by apply E.
Qed.
Lemma written_delete d p : written d -> p <> ckpt b -> p <> info b -> written (delete p d).
Proof.
  intros H H1 H2. eapply written_agree; [exact H| | | |].
  - apply shape_delete, H.
  - by apply lookup_delete_ne.
  - assert (E : delete p d !! info b = d !! info b) by (by apply lookup_delete_ne). rewrite E. by destruct H as (_ & _ & [_ ?] & _).
  - intros b' _ [[x Hx] [y Hy]]. apply lookup_delete_Some in Hx as [_ Hx], Hy as [_ Hy]. by split; eexists.
Qed.

(** Removing the files of another checkpoint, and an incomplete one, never touches the new one. *)
Lemma remove_other_safe b' d : block_ok b' -> b' <> b -> written d -> io_safe written (remove_checkpoint faults (ckpt b')) (fun _ => written) d.
Proof.
  intros Hb' Hne Hw. assert (H1 : ckpt b' <> ckpt b) by (intros E; by apply Hne, ckpt_inj). assert (H2 : info b' <> info b) by (intros E; by apply Hne, info_inj).
  assert (H3 : info b' <> ckpt b) by (intros E; symmetry in E; revert E; by apply ckpt_not_info). assert (H4 : ckpt b' <> info b) by (by apply ckpt_not_info).
  unfold remove_checkpoint. eapply io_safe_bind; [apply io_safe_remove; [done|by apply written_delete]|]. intros ? d' ->. cbn.
  eapply io_safe_weaken; [done| |apply io_safe_remove; by repeat apply written_delete]. intros ? x ->. by repeat apply written_delete.
Qed.
Lemma uncompleted_safe b' d : block_ok b' -> written d ->
  io_safe written (remove_checkpoint_if_uncompleted faults (ckpt b')) (fun r d' => written d' /\ (b' = b -> r = false)) d.
Proof.
  intros Hb' Hw. unfold remove_checkpoint_if_uncompleted, path_exists. eapply (io_safe_bind _ _ _ (fun c d' => d' = d /\ c = bool_decide (is_Some (d !! info b')))).
  - eapply io_safe_bind; [by apply io_safe_get|]. intros ? ? [-> ->]. by apply io_safe_ret.
  - intros c d' [-> ->]. case_bool_decide as Hi; cbn [negb]; [by apply io_safe_ret|]. assert (Hne : b' <> b) by (intros ->; apply Hi; by destruct Hw as (_ & _ & [_ ?] & _)).
    assert (Hd : written (delete (ckpt b') d)) by (apply written_delete; [done|intros E; by apply Hne, ckpt_inj|by apply ckpt_not_info]).
    eapply io_safe_bind; [by apply io_safe_remove|]. intros ? d' ->. by apply io_safe_ret.
Qed.

Lemma remove_others_safe max l : forall kept d, Forall block_ok l -> b ∉ l -> written d ->
  io_safe written (remove_outdated faults max b (file_of <$> l) kept) (fun _ => written) d.
Proof.
  induction l as [|b' l IH]; intros kept d Hl Hin Hw; [by apply io_safe_ret|]. apply Forall_cons in Hl as [Hb' Hl]. apply not_elem_of_cons in Hin as [Hne Hin].
  cbn [fmap list_fmap remove_outdated]. eapply io_safe_bind; [by apply uncompleted_safe|]. intros [] d' [Hw' _]; [by apply IH|].
  case_match; [by apply IH|]. eapply (io_safe_bind _ _ _ (fun _ => written)); [|intros ? d'' Hw''; by apply IH].
  case_match; [|by apply io_safe_ret]. eapply io_safe_try; [apply remove_other_safe; [done|intros ->; done|done]|done].
Qed.
(** At or above the new block there is only the new checkpoint and incomplete ones. *)
Lemma remove_outdated_safe max l : 1 <= max -> forall d, Forall block_ok l -> StronglySorted (fun x y => y < x) l -> b ∈ l -> written d ->
  io_safe written (remove_outdated faults max b (file_of <$> l) 0) (fun _ => written) d.
Proof.
  intros Hmax. induction l as [|b' l IH]; intros d Hl Hs Hin Hw; [by apply not_elem_of_nil in Hin|]. apply Forall_cons in Hl as [Hb' Hl].
  apply StronglySorted_inv in Hs as [Hs Hlt]. cbn [fmap list_fmap remove_outdated]. eapply io_safe_bind; [by apply uncompleted_safe|]. intros r d' [Hw' Hr].
  apply elem_of_cons in Hin as [<- |Hin].
  - rewrite Hr by done. rewrite Z.ltb_irrefl. assert (Hnin : b ∉ l) by (intros Hx; rewrite Forall_forall in Hlt; specialize (Hlt _ Hx); lia).
    change (0 +[32] 1) with 1. destruct (Z.ltb_spec max 1); [lia|]. eapply (io_safe_bind _ _ _ (fun _ => written)); [by apply io_safe_ret|]. intros ? d'' Hw''. by apply remove_others_safe.
  - destruct r; [by apply IH|]. rewrite Forall_forall in Hlt. specialize (Hlt _ Hin). destruct (Z.ltb_spec b b'); [|lia]. by apply IH.
Qed.

Lemma take_checkpoint_safe max level d : shape d -> newest d old -> d !! info b = None ->
  (forall b', block_ok b' -> complete d b' -> b' < b) -> 1 <= max ->
  io_safe survives (take_checkpoint faults base max level b key nonce s) (fun r d' => r = b /\ written d') d.
Proof.
  intros Hs Hn Hi Hlt Hmax. assert (Hd : survives d) by (by split; [|left]). unfold take_checkpoint. case_match; [by apply io_safe_fail|].
  assert (H0 : writing [] (<[ ckpt b := [] ]> d)) by (apply (writing_insert d [] []); by right).
  eapply (io_safe_bind _ _ _ (fun _ => writing [])); [apply io_safe_write; [done|by eapply writing_survives|done]|]. intros ? d1 H1.
  eapply io_safe_bind; [by apply write_chunks_safe|]. intros ? d2 H2. cbn [app] in H2.
  assert (Hc : forall t, written (<[ info b := t ]> d2)) by (intros t; eapply writing_complete; [exact H2|done]).
  eapply (io_safe_bind _ _ _ (fun _ => written)).
  { unfold save_checkpoint_info. eapply (io_safe_bind _ _ _ (fun _ => written)).
    - apply io_safe_write; [by eapply writing_survives|by apply written_survives|done].
    - intros ? d3 H3. apply io_safe_write; [by apply written_survives|by apply written_survives, written_alter|by apply written_alter]. }
  intros ? d3 H3. apply (io_safe_weaken written _ _ (fun r d' => r = b /\ written d')); [exact written_survives|done|]. eapply (io_safe_bind _ _ _ (fun _ => written)).
  - eapply io_safe_bind; [by apply io_safe_get|]. intros ? ? [-> ->]. destruct (sorted_files d3 (proj1 H3)) as (l & -> & Hsort & Hl).
    apply remove_outdated_safe; [done|apply Forall_forall; intros x Hx; by apply Hl|done| |done]. apply Hl. split; [done|]. by destruct H3 as (_ & _ & [? _] & _).
  - intros ? d4 H4. by apply io_safe_ret.
Qed.
End store.

(** C25: [take_checkpoint] is crash safe. Whatever faults the file system reports
    and wherever the process dies, a restart then opens exactly the content of the
    newest complete checkpoint there was before, or the whole content written for
    the one being taken, never a part of it; after a successful return the latter.
    This holds when the directory has only the files this code writes, no
    checkpoint there is as new as the one being taken, its block has no leftover
    info file, and at least one file is to be kept. What the reader of checkpoints
    makes of a content is left open. *)
Theorem take_checkpoint_crash_safe {St : Type} `{CK : !CheckpointLib St} faults key nonce b (s : St) old max level rc d :
  block_ok b -> shape d -> newest d old -> d !! info b = None ->
  (forall b', block_ok b' -> complete d b' -> b' < b) -> 1 <= max ->
  let run := take_checkpoint faults base max level b key nonce s in
  let new := Some (b, mjoin (sealed_chunks key nonce s)) in
  let restored d' := result (restore_from_checkpoint (S := St) no_faults base rc (Some key)) d' in
  Forall (fun d' => restored d' = opened key old \/ restored d' = opened key new) (crash_disks run d) /\
  (forall r, result run d = Some r -> r = b /\ restored (disk_after run d) = opened key new).
Proof.
  intros Hb Hs Hn Hi Hlt Hmax. destruct (take_checkpoint_safe faults key nonce b s old Hb max level d Hs Hn Hi Hlt Hmax) as [HI HQ]. cbn zeta. split.
  - eapply Forall_impl; [exact HI|]. intros d' (Hs' & [H|H]); [left|right]; exact (restore_newest d' key rc _ Hs' H).
  - intros r E. destruct (HQ r E) as [-> [Hs' H]]. split; [done|]. exact (restore_newest _ key rc _ Hs' H).
Qed.

(** ** Disks of a run *)
Definition visits {A : Type} (m : Io A) d d' : Prop := d' ∈ (m d).1.1.
Lemma visits_write faults op f d : visits (write_disk faults op f) d d.
Proof. unfold visits, write_disk. destruct (faults op); left. Qed.
Lemma visits_bind {A B : Type} (m : Io A) (f : A -> Io B) d d' : visits m d d' -> visits (m ≫= f) d d'.
Proof. unfold visits, mbind, Io_bind. destruct (m d) as [[v [a|]] d1]; [|done]. destruct (f a d1) as [[v' r] d2]. cbn. set_solver. Qed.
Lemma crash_now {A : Type} (m : Io A) d d' : visits m d d' -> d' ∈ crash_disks m d.
Proof. unfold visits, crash_disks. destruct (m d) as [[v r] d1]. cbn. set_solver. Qed.
Lemma crash_later {A B : Type} (m : Io A) (f : A -> Io B) d d' x a : result m d = Some a -> disk_after m d = d' -> x ∈ crash_disks (f a) d' -> x ∈ crash_disks (m ≫= f) d.
Proof.
  unfold result, disk_after, crash_disks, mbind, Io_bind. destruct (m d) as [[v r] d1]. cbn. intros -> ->. destruct (f a d') as [[v' r'] d2]. set_solver.
Qed.

(** Taking a checkpoint again at a block that has one truncates a file that
    still counts as complete: a crash before it is rewritten leaves a directory
    from which the restart fails, although an intact checkpoint was there. *)
Theorem retake_loses_checkpoint {St : Type} `{CK : !CheckpointLib St} key nonce b (s : St) max d :
  shape d -> top d b -> open_checkpoint (S := St) key [] = None ->
  Exists (fun d' => forall rc, result (restore_from_checkpoint (S := St) no_faults base rc (Some key)) d' = None)
    (crash_disks (take_checkpoint no_faults base max 0 b key nonce s) d).
Proof.
  intros Hs (Hb & [_ Hi] & Hmax) Ho. set (d' := <[ ckpt b := [] ]> d).
  assert (Ei : forall b', block_ok b' -> d' !! info b' = d !! info b') by (intros b' Hb'; apply lookup_insert_ne; by apply ckpt_not_info).
  assert (Ht : top d' b).
  { split_and!; [done|split; [|by rewrite Ei]|].
    - assert (E : d' !! ckpt b = Some []) by apply lookup_insert_eq. by rewrite E.
    - intros b' Hb' [Hc' Hi']. destruct (decide (b = b')) as [<- |Hne]; [lia|]. apply Hmax; [done|]. rewrite Ei in Hi' by done. split; [|done].
      assert (E : d' !! ckpt b' = d !! ckpt b') by (apply lookup_insert_ne; intros E; by apply Hne, ckpt_inj). by rewrite <- E. }
  apply Exists_exists. exists d'. split.
  - unfold take_checkpoint. change (0 <? 0) with false. cbn iota. apply crash_later with (d' := d') (a := tt); [done|done|].
    destruct (sealed_chunks key nonce s) as [|x xs]; cbn [write_chunks].
    + apply crash_later with (d' := d') (a := tt); [done|done|]. apply crash_now, visits_bind, visits_bind, visits_write.
    + apply crash_now, visits_bind, visits_bind, visits_write.
  - intros rc. erewrite restore_top; [by rewrite Ho| |exact Ht|apply lookup_insert_eq]. intros q Hq Hpre. destruct (decide (ckpt b = q)) as [<- |Hn].
    + exists b. by split; [|left].
    + apply Hs; [|done]. assert (E : d' !! q = d !! q) by (by apply lookup_insert_ne). by rewrite <- E.
Qed.
End names.

(** ** A directory with one checkpoint *)
Module CheckpointRuns.
#[local] Instance toy_checkpoints : CheckpointLib bytes := {|
  sealed_chunks key nonce s := [[1]; s];
  open_checkpoint key c := match c with 1 :: s => Some s | _ => None end;
  info_text s := bs "{}";
|}.

Definition dir : bytes := bs "/data".
Definition file5 : Path := checkpoint_filename_for 5 dir.
Definition info5 : Path := checkpoint_info_filename_for file5.
Definition one_checkpoint : Disk := <[ file5 := [1; 7] ]> (<[ info5 := bs "{}" ]> ∅).

Lemma one_lookup p : is_Some (one_checkpoint !! p) -> p = file5 \/ p = info5.
Proof.
  intros [c Hc]. unfold one_checkpoint in Hc. apply lookup_insert_Some in Hc as [[<- _]|[_ Hc]]; [by left|]. apply lookup_insert_Some in Hc as [[<- _]|[_ Hc]]; [by right|].
  by apply lookup_empty_Some in Hc.
Qed.
Lemma five_ok : block_ok 5.
Proof. by unfold block_ok. Qed.
Lemma one_shape : shape dir one_checkpoint.
Proof. intros p Hp _. exists 5. split; [apply five_ok|]. by apply one_lookup. Qed.
Lemma one_complete b : block_ok b -> complete dir one_checkpoint b -> b = 5.
Proof.
  intros Hb [Hc _]. apply one_lookup in Hc as [E|E]; [by apply ckpt_inj in E; [|done|apply five_ok]|].
  exfalso. revert E. by apply ckpt_not_info, five_ok.
Qed.
Lemma one_is_complete : complete dir one_checkpoint 5.
Proof. split; vm_compute; by eexists. Qed.
Lemma one_top : top dir one_checkpoint 5.
Proof. split_and!; [apply five_ok|apply one_is_complete|]. intros b Hb Hc. by rewrite (one_complete b Hb Hc). Qed.
Lemma one_newest : newest dir one_checkpoint (Some (5, [1; 7])).
Proof. destruct one_top as (H1 & H2 & H3). by split_and!. Qed.
Lemma one_below b : block_ok b -> complete dir one_checkpoint b -> b < 6.
Proof. intros Hb Hc. by rewrite (one_complete b Hb Hc). Qed.

(** Taking a checkpoint at block 6 with one file kept *)
Lemma take_checkpoint_crash_safe_witness :
  let run := take_checkpoint no_faults dir 1 0 6 (bs "key") (bs "nonce") [8] in
  let restored d' := result (restore_from_checkpoint (S := bytes) no_faults dir false (Some (bs "key"))) d' in
  length (crash_disks run one_checkpoint) = 8%nat /\ result run one_checkpoint = Some 6 /\
  Forall (fun d' => restored d' = Some (Some [7]) \/ restored d' = Some (Some [8])) (crash_disks run one_checkpoint) /\
  restored (disk_after run one_checkpoint) = Some (Some [8]).
Proof.
  assert (H6 : block_ok 6) by (by unfold block_ok). assert (Hi : one_checkpoint !! checkpoint_info_filename_for (checkpoint_filename_for 6 dir) = None) by (vm_compute; reflexivity).
  destruct (take_checkpoint_crash_safe dir no_faults (bs "key") (bs "nonce") 6 [8] (Some (5, [1; 7])) 1 0 false one_checkpoint
    H6 one_shape one_newest Hi one_below ltac:(lia)) as [HI HQ].
  split; [vm_compute; reflexivity|]. assert (Hr : result (take_checkpoint no_faults dir 1 0 6 (bs "key") (bs "nonce") [8]) one_checkpoint = Some 6) by (vm_compute; reflexivity).
  split; [exact Hr|]. split; [exact HI|]. exact (proj2 (HQ 6 Hr)).
Defined.
Lemma retake_loses_checkpoint_witness :
  result (restore_from_checkpoint (S := bytes) no_faults dir false (Some (bs "key"))) one_checkpoint = Some (Some [7]) /\
  Exists (fun d' => forall rc, result (restore_from_checkpoint (S := bytes) no_faults dir rc (Some (bs "key"))) d' = None)
    (crash_disks (take_checkpoint no_faults dir 1 0 5 (bs "key") (bs "nonce") [8]) one_checkpoint).
Proof. split; [vm_compute; reflexivity|]. exact (retake_loses_checkpoint dir (bs "key") (bs "nonce") 5 [8] 1 one_checkpoint one_shape one_top eq_refl). Defined.
End CheckpointRuns.
