(* ===== verification/MemDb.v ===== *)
(** * The database of trie nodes (crates/phala-trie-storage/src/memdb.rs)

    [MemoryDB] with [HashKey]: reference counted trie nodes, keyed by their hash
    alone. Counts are [i32] and may be negative: a node removed before it was
    inserted. [consolidate] takes over the nodes of a transaction, whose keys carry
    a prefix before the hash; it panics on a key of less than 32 bytes. *)

From S2P Require Import Prelude MqTypes StorageSync.

Class NodeHasher := node_hash : bytes -> H256.

(** An [i32]: signed, two's complement *)
Definition swrap (w z : Z) : Z := (z + 2 ^ (w - 1)) mod 2 ^ w - 2 ^ (w - 1).

Record MemoryDB := mkMemoryDB {
  md_data : gmap H256 (bytes * Z);
  hashed_null_node : H256;
  null_node_data : bytes;
}.
Definition put_data (data : gmap H256 (bytes * Z)) (db : MemoryDB) : MemoryDB := mkMemoryDB data (hashed_null_node db) (null_node_data db).

(** A key of a transaction and the hash it ends in *)
Definition from_be_bytes (b : bytes) : Z := foldl (fun n x => 256 * n + x) 0 b.
Definition key_hash (key : bytes) : option H256 :=
  if (32 <=? length key)%nat then Some (from_be_bytes (drop (length key - 32) key)) else None.
Definition prefixed_key (hash prefix : bytes) (last : option Z) : bytes := prefix ++ option_list last ++ hash.

(** What [BackendTransaction::drain] yields, in the order of its map *)
Abbreviation Drained := (list (bytes * (bytes * Z))) (only parsing).

Section memdb.
Context `{NH : !NodeHasher}.

Definition from_null_node (null_key null_node_data : bytes) : MemoryDB := mkMemoryDB ∅ (node_hash null_key) null_node_data.
Definition memdb_new (data : bytes) : MemoryDB := from_null_node data data.
Definition memdb_default : MemoryDB := from_null_node [0] [0].
Definition from_inner (data : gmap H256 (bytes * Z)) : MemoryDB := put_data data memdb_default.
Definition memdb_clear (db : MemoryDB) : MemoryDB := put_data ∅ db.

Definition raw (key : H256) (db : MemoryDB) : option (bytes * Z) :=
  if key =? hashed_null_node db then Some (null_node_data db, 1) else md_data db !! key.

Definition memdb_get (key : H256) (db : MemoryDB) : option bytes :=
  if key =? hashed_null_node db then Some (null_node_data db)
  else match md_data db !! key with Some (d, rc) => if 0 <? rc then Some d else None | None => None end.

Definition memdb_contains (key : H256) (db : MemoryDB) : bool :=
  if key =? hashed_null_node db then true
  else match md_data db !! key with Some (_, rc) => 0 <? rc | None => false end.

(** [PlainDB::emplace], [PlainDB::remove]: without the null node *)
Definition plain_emplace (key : H256) (value : bytes) (db : MemoryDB) : MemoryDB :=
  match md_data db !! key with
  | Some (old_value, rc) =>
      let old_value := if rc <=? 0 then value else old_value in
      let rc := swrap 32 (rc + 1) in
      put_data (if rc =? 0 then delete key (md_data db) else <[ key := (old_value, rc) ]> (md_data db)) db
  | None => put_data (<[ key := (value, 1) ]> (md_data db)) db
  end.
Definition plain_remove (key : H256) (db : MemoryDB) : MemoryDB :=
  match md_data db !! key with
  | Some (value, rc) =>
      let rc := swrap 32 (rc - 1) in
      put_data (if rc =? 0 then delete key (md_data db) else <[ key := (value, rc) ]> (md_data db)) db
  | None => put_data (<[ key := ([], -1) ]> (md_data db)) db
  end.

Definition memdb_emplace (key : H256) (value : bytes) (db : MemoryDB) : MemoryDB :=
  if bool_decide (value = null_node_data db) then db else plain_emplace key value db.
Definition memdb_insert (value : bytes) (db : MemoryDB) : H256 * MemoryDB :=
  if bool_decide (value = null_node_data db) then (hashed_null_node db, db)
  else (node_hash value, memdb_emplace (node_hash value) value db).
Definition memdb_remove (key : H256) (db : MemoryDB) : MemoryDB :=
  if key =? hashed_null_node db then db else plain_remove key db.

Definition remove_and_purge (key : H256) (db : MemoryDB) : option bytes * MemoryDB :=
  if key =? hashed_null_node db then (None, db)
  else
    match md_data db !! key with
    | Some (value, rc) =>
        if rc =? 1 then (Some value, put_data (delete key (md_data db)) db)
        else (None, put_data (<[ key := (value, swrap 32 (rc - 1)) ]> (md_data db)) db)
    | None => (None, put_data (<[ key := ([], -1) ]> (md_data db)) db)
    end.

(** The body of the loop of [consolidate] *)
Definition consolidate_entry (key : H256) (value : bytes) (rc : Z) (data : gmap H256 (bytes * Z)) : gmap H256 (bytes * Z) :=
  match data !! key with
  | Some (v, n) =>
      let v := if n <? 0 then value else v in
      let n := swrap 32 (n + rc) in
      if n =? 0 then delete key data else <[ key := (v, n) ]> data
  | None => <[ key := (value, rc) ]> data
  end.

Fixpoint memdb_consolidate (other : Drained) (db : MemoryDB) : option MemoryDB :=
  match other with
  | [] => Some db
  | (key, (value, rc)) :: other =>
      key ← key_hash key;
      memdb_consolidate other (put_data (consolidate_entry key value rc (md_data db)) db)
  end.

(** [keys]: the counts *)
Definition memdb_keys (db : MemoryDB) : gmap H256 Z := omap (fun e : bytes * Z => if e.2 =? 0 then None else Some e.2) (md_data db).

(** ** Checkpoints: nodes and counts, in the order of the keys, without the keys *)

Definition key_le (a b : H256 * (bytes * Z)) : Prop := a.1 <= b.1.
#[global] Instance key_le_dec a b : Decision (key_le a b).
Proof. unfold key_le. apply _. Defined.
Definition serialize_db (db : MemoryDB) : list (bytes * Z) := (merge_sort key_le (map_to_list (md_data db))).*2.
Definition serialize_trie_backend (t : TrieStorage MemoryDB) : H256 * list (bytes * Z) := (trie_root t, serialize_db (trie_db t)).
Definition deserialize_trie_backend (s : H256 * list (bytes * Z)) : TrieStorage MemoryDB :=
  mkTrie (from_inner (foldl (fun m e => <[ node_hash e.1 := e ]> m) ∅ s.2)) s.1.

(** [load_proof] replaces the nodes by those of a proof. *)
Definition load_proof (proof : list bytes) (t : TrieStorage MemoryDB) : TrieStorage MemoryDB :=
  mkTrie (foldl (fun db value => (memdb_insert value db).2) memdb_default proof) (trie_root t).

(** ** As the database of the synchronized storage

    The keys of a transaction of sp-trie end in the hash of the node. *)
Record BackendTransaction := mkTransaction {
  bt_entries : Drained;
  bt_keys : Forall (fun e => (32 <= length e.1)%nat) bt_entries;
}.

Lemma memdb_consolidate_total other db : Forall (fun e => (32 <= length e.1)%nat) other -> is_Some (memdb_consolidate other db).
Proof.
  intros H. revert db. induction H as [|[key [value rc]] other Hk _ IH]; intros db; [by eexists|]. cbn in *. unfold key_hash.
  rewrite (proj2 (Nat.leb_le _ _) Hk). cbn. apply IH.
Qed.

Definition consolidate_transaction (t : BackendTransaction) (db : MemoryDB) : MemoryDB := default db (memdb_consolidate (bt_entries t) db).

(** [full_storage_root] is sp-state-machine's. *)
Definition memdb_trie (full_storage_root : MemoryDB -> H256 -> StorageChanges -> H256 * BackendTransaction) : TrieLib MemoryDB :=
  {| StorageSync.full_storage_root := full_storage_root; consolidate := consolidate_transaction |}.
End memdb.
