(* ===== verification/MemDbClaims.v ===== *)
(** * The database of trie nodes counts references

    Every operation adds to or takes from a count per hash; a node can be read
    exactly while its count is positive. The counts do not depend on the order in
    which a transaction is drained, nor on the prefixes that are dropped. *)

From S2P Require Import Prelude MqTypes StorageSync MemDb.

Section memdb_claims.
Context `{NH : !NodeHasher}.

Inductive DbOp :=
  | DbInsert (value : bytes)
  | DbEmplace (key : H256) (value : bytes)
  | DbRemove (key : H256)
  | DbPurge (key : H256)
  | DbConsolidate (other : Drained)
  | DbClear.

Definition db_op (op : DbOp) (db : MemoryDB) : option MemoryDB :=
  match op with
  | DbInsert value => Some (memdb_insert value db).2
  | DbEmplace key value => Some (memdb_emplace key value db)
  | DbRemove key => Some (memdb_remove key db)
  | DbPurge key => Some (remove_and_purge key db).2
  | DbConsolidate other => memdb_consolidate other db
  | DbClear => Some (memdb_clear db)
  end.
Fixpoint db_run (ops : list DbOp) (db : MemoryDB) : option MemoryDB :=
  match ops with [] => Some db | op :: ops => db ← db_op op db; db_run ops db end.

(** ** The counts *)

Abbreviation Counts := (H256 -> Z) (only parsing).
Definition one_if (b : bool) : Z := if b then 1 else 0.
Definition null_data : bytes := [0].
Definition null_hash : H256 := node_hash null_data.

(** The references a transaction adds to [k], and how many it moves at most. *)
Definition added (k : H256) (other : Drained) : Z :=
  foldr (fun e n => (if bool_decide (key_hash e.1 = Some k) then e.2.2 else 0) + n) 0 other.
Definition moved (k : H256) (other : Drained) : Z :=
  foldr (fun e n => (if bool_decide (key_hash e.1 = Some k) then Z.abs e.2.2 else 0) + n) 0 other.

Definition count_op (op : DbOp) (c : Counts) : Counts := fun k =>
  match op with
  | DbInsert value => c k + one_if (negb (bool_decide (value = null_data)) && (k =? node_hash value))
  | DbEmplace key value => c k + one_if (negb (bool_decide (value = null_data)) && (k =? key))
  | DbRemove key | DbPurge key => c k - one_if (negb (key =? null_hash) && (k =? key))
  | DbConsolidate other => c k + added k other
  | DbClear => 0
  end.

(** Nodes come under their hash, and counts stay within an [i32]. *)
Definition op_fits (op : DbOp) (c : Counts) : Prop :=
  match op with
  | DbInsert value => c (node_hash value) < 2 ^ 31 - 1
  | DbEmplace key value => key = node_hash value /\ c key < 2 ^ 31 - 1
  | DbRemove key | DbPurge key => - 2 ^ 31 < c key
  | DbConsolidate other =>
      Forall (fun e => exists k, key_hash e.1 = Some k /\ (0 <= e.2.2 -> node_hash e.2.1 = k)) other /\
      forall k, Z.abs (c k) + moved k other < 2 ^ 31
  | DbClear => True
  end.
Fixpoint ops_fit (ops : list DbOp) (c : Counts) : Prop :=
  match ops with [] => True | op :: ops => op_fits op c /\ ops_fit ops (count_op op c) end.
Fixpoint counts (ops : list DbOp) (c : Counts) : Counts := match ops with [] => c | op :: ops => counts ops (count_op op c) end.

(** ** The database implements them *)

Definition count_in (data : gmap H256 (bytes * Z)) (k : H256) : Z := from_option snd 0 (data !! k).
Definition content_ok (data : gmap H256 (bytes * Z)) : Prop := map_Forall (fun k e => 0 <= e.2 -> node_hash e.1 = k) data.

Record db_rel (db : MemoryDB) (c : Counts) : Prop := {
  dr_null : hashed_null_node db = null_hash /\ null_node_data db = null_data;
  dr_content : content_ok (md_data db);
  dr_count : forall k, count_in (md_data db) k = c k;
  dr_range : forall k, - 2 ^ 31 <= c k < 2 ^ 31;
}.

Lemma swrap_small z : - 2 ^ 31 <= z < 2 ^ 31 -> swrap 32 z = z.
Proof. intros H. unfold swrap. change (2 ^ (32 - 1)) with (2 ^ 31). rewrite Z.mod_small; lia. Qed.

Lemma count_insert data k v n k' : count_in (<[ k := (v, n) ]> data) k' = if k' =? k then n else count_in data k'.
Proof. unfold count_in. rewrite lookup_insert. destruct (Z.eqb_spec k' k) as [->|]; [by rewrite decide_True|by rewrite decide_False by congruence]. Qed.
Lemma count_delete data k k' : count_in (delete k data) k' = if k' =? k then 0 else count_in data k'.
Proof. unfold count_in. rewrite lookup_delete. destruct (Z.eqb_spec k' k) as [->|]; [by rewrite decide_True|by rewrite decide_False by congruence]. Qed.

(** Writing back an entry, or dropping it with its last reference. *)
Lemma write_back data k v n k' :
  count_in (if n =? 0 then delete k data else <[ k := (v, n) ]> data) k' = if k' =? k then n else count_in data k'.
Proof. destruct (Z.eqb_spec n 0) as [->|]; [apply count_delete|apply count_insert]. Qed.
Lemma content_write_back data k v n : content_ok data -> (0 <= n -> node_hash v = k) ->
  content_ok (if n =? 0 then delete k data else <[ k := (v, n) ]> data).
Proof. intros Hd Hv. destruct (n =? 0); [by apply map_Forall_delete|by apply map_Forall_insert_2]. Qed.

Lemma consolidate_entry_ok data k v rc : content_ok data -> (0 <= rc -> node_hash v = k) -> Z.abs (count_in data k) + Z.abs rc < 2 ^ 31 ->
  content_ok (consolidate_entry k v rc data) /\ forall k', count_in (consolidate_entry k v rc data) k' = count_in data k' + if k' =? k then rc else 0.
Proof.
  intros Hd Hv Hr. unfold consolidate_entry. pose proof (eq_refl (count_in data k)) as Ec. unfold count_in at 2 in Ec.
  destruct (data !! k) as [[v0 n]|] eqn:E; cbn in *.
  - rewrite swrap_small by lia. split.
    + apply content_write_back; [done|]. intros Hn. destruct (Z.ltb_spec n 0); [apply Hv; lia|]. by apply (Hd _ _ E).
    + intros k'. rewrite write_back. destruct (Z.eqb_spec k' k) as [->|]; lia.
  - split; [by apply map_Forall_insert_2|]. intros k'. rewrite count_insert. destruct (Z.eqb_spec k' k) as [->|]; lia.
Qed.

Lemma plain_emplace_ok key value db : content_ok (md_data db) -> node_hash value = key ->
  - 2 ^ 31 <= count_in (md_data db) key < 2 ^ 31 - 1 ->
  content_ok (md_data (plain_emplace key value db)) /\
  forall k, count_in (md_data (plain_emplace key value db)) k = count_in (md_data db) k + one_if (k =? key).
Proof.
  intros Hd Hv Hr. unfold plain_emplace. pose proof (eq_refl (count_in (md_data db) key)) as Ec. unfold count_in at 2 in Ec.
  destruct (md_data db !! key) as [[v0 n]|] eqn:E; cbn in *.
  - rewrite swrap_small by lia. split.
    + apply content_write_back; [done|]. intros Hn. destruct (Z.leb_spec n 0); [done|]. apply (Hd _ _ E). cbn. lia.
    + intros k. rewrite write_back. unfold one_if. destruct (Z.eqb_spec k key) as [->|]; lia.
  - split; [by apply map_Forall_insert_2|]. intros k. rewrite count_insert. unfold one_if. destruct (Z.eqb_spec k key) as [->|]; lia.
Qed.

Lemma take_ref_ok db key (f : gmap H256 (bytes * Z)) : content_ok (md_data db) -> - 2 ^ 31 < count_in (md_data db) key < 2 ^ 31 ->
  f = match md_data db !! key with
      | Some (v, n) => if n - 1 =? 0 then delete key (md_data db) else <[ key := (v, n - 1) ]> (md_data db)
      | None => <[ key := ([], -1) ]> (md_data db)
      end ->
  content_ok f /\ forall k, count_in f k = count_in (md_data db) k - one_if (k =? key).
Proof.
  intros Hd Hr ->. pose proof (eq_refl (count_in (md_data db) key)) as Ec. unfold count_in at 2 in Ec. destruct (md_data db !! key) as [[v n]|] eqn:E; cbn in *.
  - split.
    + apply content_write_back; [done|]. intros Hn. apply (Hd _ _ E). cbn. lia.
    + intros k. rewrite write_back. unfold one_if. destruct (Z.eqb_spec k key) as [->|]; lia.
  - split; [by apply map_Forall_insert_2|]. intros k. rewrite count_insert. unfold one_if.
    destruct (Z.eqb_spec k key) as [->|]; lia.
Qed.

Lemma moved_nonneg k other : 0 <= moved k other.
Proof. induction other as [|[key [v rc]] other IH]; cbn; [done|]. fold (moved k other). case_bool_decide; lia. Qed.
Lemma added_moved k other : Z.abs (added k other) <= moved k other.
Proof. induction other as [|[key [v rc]] other IH]; cbn; [done|]. fold (added k other) (moved k other). case_bool_decide; lia. Qed.

Lemma consolidate_ok other : forall db, content_ok (md_data db) ->
  Forall (fun e => exists k, key_hash e.1 = Some k /\ (0 <= e.2.2 -> node_hash e.2.1 = k)) other ->
  (forall k, Z.abs (count_in (md_data db) k) + moved k other < 2 ^ 31) ->
  exists db', memdb_consolidate other db = Some db' /\ content_ok (md_data db') /\ hashed_null_node db' = hashed_null_node db /\
    null_node_data db' = null_node_data db /\ forall k, count_in (md_data db') k = count_in (md_data db) k + added k other.
Proof.
  induction other as [|[key [v rc]] other IH]; intros db Hd Hf Hr; cbn.
  { exists db. do 4 (split; [done|]). intros k. lia. }
  apply Forall_cons in Hf as [(k & Hk & Hv) Hf]. cbn in Hk, Hv. rewrite Hk. cbn.
  pose proof (Hr k) as Hrk. cbn in Hrk. fold (moved k other) in Hrk. rewrite bool_decide_true in Hrk by done. pose proof (moved_nonneg k other).
  destruct (consolidate_entry_ok (md_data db) k v rc Hd Hv ltac:(lia)) as [Hd1 Hc1].
  destruct (IH (put_data (consolidate_entry k v rc (md_data db)) db)) as (db' & E & Hd' & Hn1 & Hn2 & Hc'); [done|done| |].
  { intros k'. cbn. rewrite Hc1. specialize (Hr k'). cbn in Hr. fold (moved k' other) in Hr. rewrite Hk in Hr.
    destruct (Z.eqb_spec k' k) as [->|Hne]; [rewrite bool_decide_true in Hr by done; lia|].
    rewrite bool_decide_false in Hr by congruence. lia. }
  exists db'. do 4 (split; [done|]). intros k'. rewrite Hc'. cbn. rewrite Hc1. fold (added k' other).
  destruct (Z.eqb_spec k' k) as [->|Hne]; [rewrite bool_decide_true by done; lia|]. rewrite bool_decide_false by congruence. lia.
Qed.

Lemma emplace_rel value db c : db_rel db c -> c (node_hash value) < 2 ^ 31 - 1 ->
  db_rel (memdb_emplace (node_hash value) value db) (count_op (DbEmplace (node_hash value) value) c).
Proof.
  intros [[Hn1 Hn2] Hd Hc Hr] Hlt. unfold memdb_emplace. rewrite Hn2. pose proof (Hr (node_hash value)) as Hrk.
  destruct (bool_decide_reflect (value = null_data)) as [Hv|Hv].
  - split; [done|done|..]; intros k; cbn; rewrite bool_decide_true by done; cbn; rewrite ?Hc; unfold one_if; specialize (Hr k); lia.
  - destruct (plain_emplace_ok (node_hash value) value db Hd eq_refl) as [A1 A2]; [rewrite Hc; lia|].
    split; [unfold plain_emplace; by repeat case_match|done|..]; intros k; cbn; rewrite bool_decide_false by done; cbn; [by rewrite A2, Hc|].
    specialize (Hr k). unfold one_if. destruct (Z.eqb_spec k (node_hash value)) as [->|]; lia.
Qed.

Lemma take_rel key db db' c : db_rel db c -> - 2 ^ 31 < c key ->
  hashed_null_node db' = hashed_null_node db -> null_node_data db' = null_node_data db ->
  (key = null_hash -> db' = db) ->
  (key <> null_hash -> md_data db' =
     match md_data db !! key with
     | Some (v, n) => if n - 1 =? 0 then delete key (md_data db) else <[ key := (v, n - 1) ]> (md_data db)
     | None => <[ key := ([], -1) ]> (md_data db)
     end) -> db_rel db' (count_op (DbRemove key) c).
Proof.
  intros [[Hn1 Hn2] Hd Hc Hr] Hlt E1 E2 Hnull Hother. pose proof (Hr key) as Hrk. destruct (Z.eq_dec key null_hash) as [->|Hne].
  - rewrite Hnull by done. split; [done|done|..]; intros k; cbn; rewrite Z.eqb_refl; cbn; rewrite ?Hc; specialize (Hr k); lia.
  - destruct (take_ref_ok db key (md_data db') Hd) as [A1 A2]; [rewrite Hc; lia|by apply Hother|].
    split; [by rewrite E1, E2|done|..]; intros k; cbn; rewrite (proj2 (Z.eqb_neq _ _) Hne); cbn; [by rewrite A2, Hc|].
    specialize (Hr k). unfold one_if. destruct (Z.eqb_spec k key) as [->|]; lia.
Qed.

Lemma db_op_rel op db c : db_rel db c -> op_fits op c -> exists db', db_op op db = Some db' /\ db_rel db' (count_op op c).
Proof.
  intros Hrel Hf. pose proof Hrel as [[Hn1 Hn2] Hd Hc Hr].
  assert (forall key v n, md_data db !! key = Some (v, n) -> - 2 ^ 31 < c key -> swrap 32 (n - 1) = n - 1) as Hw.
  { intros key v n E Hlt. pose proof (Hc key) as Ec. unfold count_in in Ec. rewrite E in Ec. cbn in Ec. specialize (Hr key). apply swrap_small. lia. }
  destruct op as [value|key value|key|key|other|]; cbn in Hf |- *; try (eexists; split; [done|]).
  - pose proof (emplace_rel value db c Hrel Hf) as H. unfold memdb_insert. case_bool_decide as Hv; [|exact H].
    unfold memdb_emplace in H. by rewrite bool_decide_true in H.
  - destruct Hf as [-> Hf]. by apply emplace_rel.
  - apply take_rel with db; [done..| | | |]; unfold memdb_remove, plain_remove; rewrite Hn1.
    + by repeat case_match.
    + by repeat case_match.
    + intros ->. by rewrite Z.eqb_refl.
    + intros Hne. rewrite (proj2 (Z.eqb_neq _ _) Hne). destruct (md_data db !! key) as [[v n]|] eqn:E; [|done]. cbn. by rewrite (Hw _ _ _ E Hf).
  - apply take_rel with db; [done..| | | |]; unfold remove_and_purge; rewrite Hn1.
    + by repeat case_match.
    + by repeat case_match.
    + intros ->. by rewrite Z.eqb_refl.
    + intros Hne. rewrite (proj2 (Z.eqb_neq _ _) Hne). destruct (md_data db !! key) as [[v n]|] eqn:E; [|done]. rewrite (Hw _ _ _ E Hf).
      destruct (n =? 1) eqn:En, (n - 1 =? 0) eqn:En'; b2p; (lia || done).
  - destruct Hf as [Hf Hm]. destruct (consolidate_ok other db Hd Hf) as (db' & E & Hd' & B1 & B2 & Hc'); [intros k; rewrite Hc; apply Hm|].
    exists db'. split; [done|]. split; [by rewrite B1, B2|done|..]; intros k; cbn; [by rewrite Hc', Hc|]. specialize (Hm k). pose proof (added_moved k other). lia.
  - split; [done|apply map_Forall_empty|..]; intros k; cbn; [done|lia].
Qed.

Lemma db_run_rel ops : forall db c, db_rel db c -> ops_fit ops c -> exists db', db_run ops db = Some db' /\ db_rel db' (counts ops c).
Proof.
  induction ops as [|op ops IH]; intros db c Hrel Hf; cbn in *; [by exists db|]. destruct Hf as [Hf Hfs].
  destruct (db_op_rel op db c Hrel Hf) as (db1 & E & Hrel1). rewrite E. cbn. by apply IH.
Qed.

(** C14: the database of trie nodes counts references. Whatever nodes are inserted,
    removed or taken over from transactions, in whatever order those are drained
    and whatever prefixes their keys carry: no operation panics, the count of every
    hash is the sum of its references, and a node can be read exactly while that
    sum is positive, and then has the hash it is read by. *)
Theorem memdb_counts ops : ops_fit ops (fun _ => 0) ->
  exists db, db_run ops memdb_default = Some db /\
    forall k, k <> null_hash ->
      from_option snd 0 (raw k db) = counts ops (fun _ => 0) k /\
      memdb_contains k db = (0 <? counts ops (fun _ => 0) k) /\
      match memdb_get k db with Some v => node_hash v = k /\ 0 < counts ops (fun _ => 0) k | None => counts ops (fun _ => 0) k <= 0 end.
Proof.
  intros Hf. assert (db_rel memdb_default (fun _ => 0)) as Hrel by (split; [done|apply map_Forall_empty|done|done]).
  destruct (db_run_rel ops _ _ Hrel Hf) as (db & E & [[Hn _] Hd Hc _]). exists db. split; [done|]. intros k Hk.
  rewrite <- Hc. unfold raw, memdb_get, memdb_contains, count_in. rewrite Hn, (proj2 (Z.eqb_neq _ _) Hk). destruct (md_data db !! k) as [[v n]|] eqn:Ek; cbn; [|done].
  split; [done|]. split; [done|]. destruct (Z.ltb_spec 0 n); [|done]. split; [|done]. apply (Hd _ _ Ek). cbn. lia.
Qed.

(** ** Checkpoints *)

Definition rebuild (m : gmap H256 (bytes * Z)) (l : list (bytes * Z)) : gmap H256 (bytes * Z) := foldl (fun m e => <[ node_hash e.1 := e ]> m) m l.

Lemma rebuild_content l : forall m, map_Forall (fun k (e : bytes * Z) => node_hash e.1 = k) m -> map_Forall (fun k e => node_hash e.1 = k) (rebuild m l).
Proof. induction l as [|x l IH]; intros m Hm; [done|]. apply IH. by apply map_Forall_insert_2. Qed.

Lemma rebuild_lookup l : forall m, NoDup (node_hash <$> l.*1) -> forall k e,
  rebuild m l !! k = Some e <-> (e ∈ l /\ node_hash e.1 = k) \/ ((k ∉ node_hash <$> l.*1) /\ m !! k = Some e).
Proof.
  induction l as [|x l IH]; intros m Hnd k e; cbn.
  { split; [intros H; right; split; [apply not_elem_of_nil|done]|]. intros [[H _]|[_ H]]; [by apply elem_of_nil in H|done]. }
  apply NoDup_cons in Hnd as [Hx Hnd]. fold (rebuild (<[ node_hash x.1 := x ]> m) l).
  rewrite (IH _ Hnd). rewrite elem_of_cons, not_elem_of_cons, lookup_insert. split.
  - intros [[H1 H2]|[H1 H2]]; [left; tauto|]. case_decide; [injection H2 as ->; left; tauto|]. right. split; [|done]. split; [congruence|done].
  - intros [[[-> |H1] H2]|[[H0 H1] H2]].
    + right. subst k. split; [done|]. by rewrite decide_True.
    + left. done.
    + right. split; [done|]. by rewrite decide_False by congruence.
Qed.

(** C15: a checkpoint of the trie restores it exactly when every node in it is under
    its hash. Counts that went negative are under the hash of a node that never
    arrived, and come back under that of the empty node. *)
Theorem checkpoint_restores_trie (t : TrieStorage MemoryDB) :
  hashed_null_node (trie_db t) = null_hash -> null_node_data (trie_db t) = null_data ->
  deserialize_trie_backend (serialize_trie_backend t) = t <-> map_Forall (fun k e => node_hash e.1 = k) (md_data (trie_db t)).
Proof.
  destruct t as [[data hn nd] root]. cbn. intros -> ->. unfold deserialize_trie_backend, serialize_trie_backend. cbn [fst snd trie_root trie_db].
  fold (rebuild ∅ (serialize_db (mkMemoryDB data null_hash null_data))). unfold serialize_db. cbn [md_data].
  set (l := merge_sort key_le (map_to_list data)). assert (l ≡ₚ map_to_list data) as Hp by apply merge_sort_Permutation. split.
  - intros [= E]. rewrite <- E. apply rebuild_content, map_Forall_empty.
  - intros Hc. unfold from_inner, put_data, memdb_default, from_null_node. cbn. do 2 f_equal.
    assert (forall e, e ∈ l -> data !! e.1 = Some e.2) as Hl by (intros [k e] He; rewrite Hp in He; by apply elem_of_map_to_list in He).
    assert (node_hash <$> l.*2.*1 = l.*1) as Hk.
    { rewrite <- !list_fmap_compose. apply list_fmap_ext. intros i e He. apply list_elem_of_lookup_2 in He. cbn. apply (Hc _ _ (Hl e He)). }
    apply map_eq. intros k. apply option_eq. intros e. rewrite rebuild_lookup, Hk, lookup_empty by (rewrite Hk, Hp; apply NoDup_fst_map_to_list). split.
    + intros [[He <-]|[_ He]]; [|done]. apply list_elem_of_fmap in He as ([k e'] & -> & He). cbn. pose proof (Hl _ He) as Hd. cbn in Hd. by rewrite (Hc _ _ Hd).
    + intros He. left. split; [|by apply Hc]. apply list_elem_of_fmap. exists (k, e). split; [done|]. rewrite Hp. by apply elem_of_map_to_list.
Qed.
End memdb_claims.

(** ** Witnesses *)

#[local] Instance sum_hash : NodeHasher := fun b => 1 + foldl (fun n x => 7 * n + x) 0 b.

(** Two transactions under different prefixes, and a node that is removed first. *)
Definition ops1 : list DbOp :=
  [DbInsert [5]; DbRemove 10; DbConsolidate [(9 :: repeat 0 31 ++ [6], ([5], 1)); (repeat 0 31 ++ [10], ([1; 2], 2))]; DbPurge 6; DbRemove 6; DbEmplace 4 [3]].

Lemma memdb_counts_witness :
  exists db, db_run ops1 memdb_default = Some db /\ memdb_get 6 db = None /\ memdb_get 10 db = Some [1; 2] /\ memdb_get 4 db = Some [3] /\ 4 <> null_hash.
Proof.
  destruct (memdb_counts ops1) as (db & E & H).
  - unfold ops1. cbn [ops_fit op_fits]. split; [reflexivity|]. split; [reflexivity|]. split; [|split; [reflexivity|split; [reflexivity|done]]].
    split; [apply Forall_cons; split; [by exists 6|apply Forall_cons; split; [by exists 10|apply Forall_nil]]; done|]. intros k. unfold moved. cbn [foldr fst snd count_op].
    change (key_hash _) with (Some 6) at 1. change (key_hash (repeat 0 31 ++ [10])) with (Some 10). unfold one_if.
    repeat case_bool_decide; repeat case_match; lia.
  - exists db. split; [done|]. vm_compute in E. injection E as <-. vm_compute. repeat split; congruence.
Defined.

Lemma checkpoint_restores_trie_witness :
  let t := mkTrie (foldl (fun db v => (memdb_insert v db).2) memdb_default [[5]; [3]; [5]]) 77 in
  deserialize_trie_backend (serialize_trie_backend t) = t.
Proof. intros t. apply (checkpoint_restores_trie t); [reflexivity|reflexivity|]. apply map_Forall_to_list. vm_compute. repeat constructor. Defined.
