(* ===== verification/PinkRuntime.v ===== *)
(** * The runtime of contracts (crates/pink/runtime)

    [runtime/pallet_pink.rs], [contract.rs], [capi/ecall_impl.rs] and the execution
    of [storage/mod.rs]: what a contract call costs, what is said about it, and
    the chain of event blocks; with the queries of the host
    (crates/phactory/src/contracts/pink.rs). pallet-contracts and the balances are
    the class [PinkLib], what the host answers [PinkHost]. *)

From S2P Require Import Prelude MqTypes Storage LocalCache.

Inductive ExecutionMode := Query | Estimating | Transaction.
Definition is_transaction (m : ExecutionMode) : bool := match m with Transaction => true | _ => false end.
Definition should_return_coarse_gas (m : ExecutionMode) : bool := match m with Query | Estimating => true | Transaction => false end.
Definition deterministic_required (m : ExecutionMode) : bool := match m with Query => false | Estimating | Transaction => true end.

Record TransactionArguments := mkTxArgs {
  ta_origin : Account;
  ta_transfer : Balance;
  ta_gas_limit : Z;
  ta_gas_free : bool;
  ta_storage_deposit_limit : option Balance;
  ta_deposit : Balance;
}.
Record ClusterSetupConfig := mkSetup {
  su_cluster_id : H256;
  su_owner : Account;
  su_deposit : Balance;
  su_gas_price : Balance;
  su_deposit_per_item : Balance;
  su_deposit_per_byte : Balance;
  su_treasury_account : Account;
  su_system_code : bytes;
}.
Record ExecContext := mkExecContext { ec_mode : ExecutionMode; ec_block_number : Z; ec_now_ms : Z }.

(** ** The pallet *)

Record WasmCode := mkWasmCode { wc_owner : Account; wc_code : bytes }.
Record PinkPallet := mkPinkPallet {
  cluster_id : H256;
  gas_price : Balance;
  deposit_per_byte : Balance;
  deposit_per_item : Balance;
  treasury_account : option Account;
  pink_key : option bytes;
  sidevm_codes : gmap H256 WasmCode;
  system_contract : option Account;
  next_event_block_number : Z;
  last_event_block_hash : H256;
}.
Definition empty_pallet : PinkPallet := mkPinkPallet 0 0 0 0 None None ∅ None 0 0.

Definition put_config (id price byte item : Z) (treasury : option Account) (p : PinkPallet) : PinkPallet :=
  mkPinkPallet id price byte item treasury (pink_key p) (sidevm_codes p) (system_contract p) (next_event_block_number p) (last_event_block_hash p).
Definition set_cluster_id (id : H256) (p : PinkPallet) : PinkPallet := put_config id (gas_price p) (deposit_per_byte p) (deposit_per_item p) (treasury_account p) p.
Definition set_gas_price (v : Balance) (p : PinkPallet) : PinkPallet := put_config (cluster_id p) v (deposit_per_byte p) (deposit_per_item p) (treasury_account p) p.
Definition set_deposit_per_item (v : Balance) (p : PinkPallet) : PinkPallet := put_config (cluster_id p) (gas_price p) (deposit_per_byte p) v (treasury_account p) p.
Definition set_deposit_per_byte (v : Balance) (p : PinkPallet) : PinkPallet := put_config (cluster_id p) (gas_price p) v (deposit_per_item p) (treasury_account p) p.
Definition set_treasury_account (a : Account) (p : PinkPallet) : PinkPallet := put_config (cluster_id p) (gas_price p) (deposit_per_byte p) (deposit_per_item p) (Some a) p.

Definition put_rest (key : option bytes) (codes : gmap H256 WasmCode) (system : option Account) (number : Z) (hash : H256) (p : PinkPallet) : PinkPallet :=
  mkPinkPallet (cluster_id p) (gas_price p) (deposit_per_byte p) (deposit_per_item p) (treasury_account p) key codes system number hash.
Definition set_pink_key (k : bytes) (p : PinkPallet) : PinkPallet :=
  put_rest (Some k) (sidevm_codes p) (system_contract p) (next_event_block_number p) (last_event_block_hash p) p.
Definition put_codes (m : gmap H256 WasmCode) (p : PinkPallet) : PinkPallet :=
  put_rest (pink_key p) m (system_contract p) (next_event_block_number p) (last_event_block_hash p) p.
Definition set_system_contract (a : Account) (p : PinkPallet) : PinkPallet :=
  put_rest (pink_key p) (sidevm_codes p) (Some a) (next_event_block_number p) (last_event_block_hash p) p.
Definition take_next_event_block_number (p : PinkPallet) : Z * PinkPallet :=
  (next_event_block_number p,
   put_rest (pink_key p) (sidevm_codes p) (system_contract p) (next_event_block_number p +[64] 1) (last_event_block_hash p) p).
Definition set_last_event_block_hash (h : H256) (p : PinkPallet) : PinkPallet :=
  put_rest (pink_key p) (sidevm_codes p) (system_contract p) (next_event_block_number p) h p.
Definition sidevm_code_exists (h : H256) (p : PinkPallet) : bool := bool_decide (is_Some (sidevm_codes p !! h)).

Definition saturating_mul (w x y : Z) : Z := Z.min (2 ^ w - 1) (x * y).

(** [Convert<Weight, BalanceOf>] *)
Definition convert_weight (p : PinkPallet) (ref_time : Z) : Balance := saturating_mul 128 ref_time (gas_price p).

(** ** Coarse results *)

(** [bits - v.leading_zeros()] *)
Definition bit_length (v : Z) : Z := if v =? 0 then 0 else Z.log2 v + 1.

(** [define_mask_fn!]; [None]: [clamp] panics when its bounds cross. *)
Definition mask_low_bits (bits v min_mask_bits : Z) : option Z :=
  let pos := bit_length v in
  let pos := Z.max pos 9 - 9 in
  if bits - 1 <? min_mask_bits then None
  else
    let pos := Z.min (Z.max pos min_mask_bits) (bits - 1) in
    let cursor := Z.shiftl 1 pos in
    let mask := saturating_sub cursor 1 in
    Some (Z.lor v mask).

Definition mask_deposit (deposit deposit_per_byte : Balance) : option Z :=
  let min_masked_value := saturating_sub (saturating_mul 128 deposit_per_byte 256) 1 in
  let min_mask_bits := bit_length min_masked_value in
  mask_low_bits 128 deposit min_mask_bits.

Record PinkWeight := mkWeight { ref_time : Z; proof_size : Z }.
Definition mask_gas (w : PinkWeight) : option PinkWeight := (fun t => mkWeight t 0) <$> mask_low_bits 64 (ref_time w) 28.

Inductive StorageDeposit := DepositRefund (v : Balance) | DepositCharge (v : Balance).
Record ContractResult (T : Type) := mkResult {
  gas_consumed : PinkWeight;
  gas_required : PinkWeight;
  storage_deposit : StorageDeposit;
  debug_message : bytes;
  cr_result : T;
}.
Arguments mkResult {T}.
Arguments gas_consumed {T} _.
Arguments gas_required {T} _.
Arguments storage_deposit {T} _.
Arguments debug_message {T} _.
Arguments cr_result {T} _.

Definition coarse_grained {T} (r : ContractResult T) (deposit_per_byte : Balance) : option (ContractResult T) :=
  consumed ← mask_gas (gas_consumed r);
  required ← mask_gas (gas_required r);
  deposit ← match storage_deposit r with
            | DepositCharge v => DepositCharge <$> mask_deposit v deposit_per_byte
            | DepositRefund v => DepositRefund <$> mask_deposit v deposit_per_byte
            end;
  Some (mkResult consumed required deposit (debug_message r) (cr_result r)).

(** ** The libraries and the host *)

(** Errors as the messages they are printed to *)
Abbreviation PinkError := bytes (only parsing).
Inductive Determinism := Enforced | Relaxed.

(** Return values of pallet-contracts: whether the contract reverted, and its
    output; with the address for an instantiation *)
Record ExecReturn := mkExecReturn { did_revert : bool; output : bytes }.

Class PinkLib (X : Type) := {
  (** The currency of the cluster; [true]: [KeepAlive]. [None] is success. *)
  pink_transfer : Account -> Account -> Balance -> bool -> X -> option PinkError * X;
  pink_deposit_creating : Account -> Balance -> X -> X;
  (** pallet-contracts, under the configuration of the cluster *)
  contracts_instantiate : PinkPallet -> Account -> Balance -> PinkWeight -> option Balance -> H256 -> bytes -> bytes -> X ->
    ContractResult (PinkError + ExecReturn * Account) * X;
  contracts_call : PinkPallet -> Account -> Account -> Balance -> PinkWeight -> option Balance -> bytes -> Determinism -> X ->
    ContractResult (PinkError + ExecReturn) * X;
  upload_code_checked : PinkPallet -> Account -> bytes -> Determinism -> X -> (PinkError + H256) * X;
  (** The memory a wasm code takes, by phala-wasm-checker *)
  wasmi_memory_cost : bytes -> PinkError + Z;
  (** [on_genesis], [on_runtime_upgrade] and [on_idle] of the other pallets;
      pallet_pink has no hooks. *)
  pallets_on_genesis : X -> X;
  pallets_on_runtime_upgrade : X -> X;
  pallets_on_idle : Z -> X -> X;
  (** What can be asked of the balances and of pallet-contracts *)
  pink_free_balance : Account -> X -> Balance;
  pink_total_balance : Account -> X -> Balance;
  contract_code_hash : Account -> X -> option H256;
  (** The events of a block, set aside by [get_side_effects]; timestamp and block
      number are those of the context. *)
  start_block : ExecContext -> X -> X;
  system_events : X -> list bytes;
  pink_blake2 : bytes -> H256;
}.

(** [EventsBlock]; the body is what the host knows of the call. *)
Record EventsBlockBody := mkEventsBody {
  phala_block_number : Z;
  contract_call_nonce : option bytes;
  entry_contract : option Account;
  eb_events : list bytes;
  eb_origin : option Account;
}.
Record EventsBlockHeader := mkEventsHeader { eh_number : Z; runtime_version : Z * Z; parent_hash : H256; body_hash : H256 }.
Record EventsBlock := mkEventsBlock { eb_header : EventsBlockHeader; eb_body : EventsBlockBody }.

(** What the host answers, and how blocks are encoded *)
Class PinkHost := {
  host_call_nonce : option bytes;
  host_entry_contract : option Account;
  host_origin : option Account;
  pink_version : Z * Z;
  pink_git_revision : bytes;
  encode_events_body : EventsBlockBody -> bytes;
  encode_events_header : EventsBlockHeader -> bytes;
}.

Record PinkState (X : Type) := mkPinkState { pink : PinkPallet; pink_ext : X; emitted : list EventsBlock }.
Arguments mkPinkState {X}.
Arguments pink {X} _.
Arguments pink_ext {X} _.
Arguments emitted {X} _.

Section pink.
Context {X : Type} `{PL : !PinkLib X}.
Abbreviation PinkM := (M (PinkState X) PinkError).
Implicit Types s : PinkState X.

Definition mod_pink (f : PinkPallet -> PinkPallet) : PinkM unit := modify (fun s => mkPinkState (f (pink s)) (pink_ext s) (emitted s)).
Definition put_pink_ext (x : X) s : PinkState X := mkPinkState (pink s) x (emitted s).
Definition transfer_between (from to : Account) (amount : Balance) (keep_alive : bool) : PinkM unit := fun s =>
  match pink_transfer from to amount keep_alive (pink_ext s) with (None, x) => Ok tt (put_pink_ext x s) | (Some e, x) => Err e (put_pink_ext x s) end.
Definition deposit_to (who : Account) (value : Balance) : PinkM unit := modify (fun s => put_pink_ext (pink_deposit_creating who value (pink_ext s)) s).

(** *** pallet_pink.rs *)

Definition pay (user : Account) (amount : Balance) : PinkM unit :=
  s ← get_st;
  match treasury_account (pink s) with None => mret tt | Some treasury => transfer_between user treasury amount true end.
Definition refund (user : Account) (amount : Balance) : PinkM unit :=
  s ← get_st;
  match treasury_account (pink s) with None => mret tt | Some treasury => transfer_between treasury user amount false end.
Definition pay_for_gas (user : Account) (gas : PinkWeight) : PinkM unit := s ← get_st; pay user (convert_weight (pink s) (ref_time gas)).
Definition refund_gas (user : Account) (gas : PinkWeight) : PinkM unit := s ← get_st; refund user (convert_weight (pink s) (ref_time gas)).

Definition put_sidevm_code (owner : Account) (code : bytes) : PinkM H256 :=
  let hash := pink_blake2 code in
  s ← get_st;
  let size := len code + 32 in
  let fee := saturating_add 128 (saturating_mul 128 (deposit_per_byte (pink s)) size) (deposit_per_item (pink s)) in
  pay owner fee;;
  mod_pink (fun p => put_codes (<[ hash := mkWasmCode owner code ]> (sidevm_codes p)) p);;
  mret hash.

(** *** contract.rs *)

(** [checked_sub] of weights *)
Definition weight_sub (a b : PinkWeight) : option PinkWeight :=
  if (ref_time b <=? ref_time a) && (proof_size b <=? proof_size a) then Some (mkWeight (ref_time a - ref_time b) (proof_size a - proof_size b)) else None.

Definition zero_weight : PinkWeight := mkWeight 0 0.
Definition contract_tx {T} (origin : Account) (gas_limit : PinkWeight) (gas_free : bool) (tx_fn : PinkM (ContractResult (PinkError + T)))
    : PinkM (ContractResult (PinkError + T)) :=
  paid ← (if gas_free then mret None else fun s =>
            match pay_for_gas origin gas_limit s with Ok _ s => Ok None s | Err e s => Ok (Some e) s | Panic => Panic end);
  match paid with
  | Some err => mret (mkResult zero_weight zero_weight (DepositCharge 0) [] (inl err))
  | None =>
      result ← tx_fn;
      (if gas_free then mret tt
       else refund ← expect (weight_sub gas_limit (gas_consumed result)); expect_ok (refund_gas origin refund));;
      mret result
  end.

Definition call_contracts {T} (f : PinkPallet -> X -> ContractResult T * X) : PinkM (ContractResult T) := fun s =>
  let '(r, x) := f (pink s) (pink_ext s) in Ok r (put_pink_ext x s).
Definition maybe_coarse {T} (mode : ExecutionMode) (r : ContractResult T) : PinkM (ContractResult T) :=
  s ← get_st;
  if should_return_coarse_gas mode then expect (coarse_grained r (deposit_per_byte (pink s))) else mret r.

Definition instantiate (code_hash : H256) (input_data salt : bytes) (mode : ExecutionMode) (args : TransactionArguments)
    : PinkM (ContractResult (PinkError + ExecReturn * Account)) :=
  let gas_limit := mkWeight (ta_gas_limit args) (2 ^ 64 - 1) in
  result ← contract_tx (ta_origin args) gas_limit (ta_gas_free args)
    (call_contracts (fun p => contracts_instantiate p (ta_origin args) (ta_transfer args) gas_limit (ta_storage_deposit_limit args) code_hash input_data salt));
  maybe_coarse mode result.
Definition bare_call (address : Account) (input_data : bytes) (mode : ExecutionMode) (args : TransactionArguments)
    : PinkM (ContractResult (PinkError + ExecReturn)) :=
  let gas_limit := mkWeight (ta_gas_limit args) (2 ^ 64 - 1) in
  let determinism := if deterministic_required mode then Enforced else Relaxed in
  result ← contract_tx (ta_origin args) gas_limit (ta_gas_free args)
    (call_contracts (fun p => contracts_call p (ta_origin args) address (ta_transfer args) gas_limit (ta_storage_deposit_limit args) input_data determinism));
  maybe_coarse mode result.
Definition check_instantiate_result (r : ContractResult (PinkError + ExecReturn * Account)) : option Account :=
  match cr_result r with inl _ => None | inr (ret, a) => if did_revert ret then None else Some a end.

(** *** capi/ecall_impl.rs *)

Definition WEIGHT_REF_TIME_PER_SECOND : Z := 1000000000000.
Definition GAS_PER_SECOND : Z := WEIGHT_REF_TIME_PER_SECOND * 5.
Definition sanitize_args (args : TransactionArguments) (mode : ExecutionMode) : TransactionArguments :=
  let gas_limit := match mode with Transaction | Estimating => GAS_PER_SECOND / 2 | Query => GAS_PER_SECOND * 10 end in
  mkTxArgs (ta_origin args) (ta_transfer args) (Z.min (ta_gas_limit args) gas_limit) (ta_gas_free args) (ta_storage_deposit_limit args) (ta_deposit args).
Definition handle_deposit (args : TransactionArguments) : PinkM unit :=
  if 0 <? ta_deposit args then deposit_to (ta_origin args) (ta_deposit args) else mret tt.

Definition contract_instantiate (code_hash : H256) (input_data salt : bytes) (mode : ExecutionMode) (tx_args : TransactionArguments)
    : PinkM (ContractResult (PinkError + ExecReturn * Account)) :=
  let tx_args := sanitize_args tx_args mode in
  handle_deposit tx_args;;
  instantiate code_hash input_data salt mode tx_args.
Definition contract_call (address : Account) (input_data : bytes) (mode : ExecutionMode) (tx_args : TransactionArguments)
    : PinkM (ContractResult (PinkError + ExecReturn)) :=
  let tx_args := sanitize_args tx_args mode in
  handle_deposit tx_args;;
  bare_call address input_data mode tx_args.

Definition MAX_CODE_LEN : Z := 2 * 1024 * 1024.
Definition bare_upload_code (account : Account) (code : bytes) (determinism : Determinism) : PinkM H256 := fun s =>
  match upload_code_checked (pink s) account code determinism (pink_ext s) with
  | (inl e, x) => Err e (put_pink_ext x s)
  | (inr hash, x) => Ok hash (put_pink_ext x s)
  end.
Definition upload_code (account : Account) (code : bytes) (deterministic : bool) : PinkM H256 :=
  cost ← match wasmi_memory_cost code with inl e => fail e | inr cost => mret cost end;
  ensure (cost <=? MAX_CODE_LEN * 4) (bs "DecompressedCodeTooLarge");;
  bare_upload_code account code (if deterministic then Enforced else Relaxed).
Definition upload_sidevm_code (account : Account) (code : bytes) : PinkM H256 := put_sidevm_code account code.

Definition pink_on_genesis : PinkM unit := modify (fun s => put_pink_ext (pallets_on_genesis (pink_ext s)) s).
Definition pink_on_runtime_upgrade : PinkM unit := modify (fun s => put_pink_ext (pallets_on_runtime_upgrade (pink_ext s)) s).
Definition pink_on_idle (n : Z) : PinkM unit := modify (fun s => put_pink_ext (pallets_on_idle n (pink_ext s)) s).

Definition setup (config : ClusterSetupConfig) : PinkM unit :=
  pink_on_genesis;;
  mod_pink (set_cluster_id (su_cluster_id config));;
  mod_pink (set_gas_price (su_gas_price config));;
  mod_pink (set_deposit_per_item (su_deposit_per_item config));;
  mod_pink (set_deposit_per_byte (su_deposit_per_byte config));;
  mod_pink (set_treasury_account (su_treasury_account config));;
  deposit_to (su_owner config) (su_deposit config);;
  code_hash ← or_err (upload_code (su_owner config) (su_system_code config) true) (bs "FailedToUploadSystemCode");
  let args := mkTxArgs (su_owner config) 0 (2 ^ 64 - 1) true None 0 in
  result ← instantiate code_hash [237; 75; 157; 27] [] Transaction args;
  match check_instantiate_result result with
  | None => fail (bs "FailedToDeploySystemContract")
  | Some address => mod_pink (set_system_contract address)
  end.

(** *** storage/mod.rs *)

Context `{HO : !PinkHost}.

Definition maybe_emit_system_event_block (mode : ExecutionMode) (block_number : Z) (events : list bytes) : PinkM unit :=
  match events with
  | [] => mret tt
  | _ =>
      if negb (is_transaction mode) then mret tt
      else modify (fun s =>
        let body := mkEventsBody block_number host_call_nonce host_entry_contract events host_origin in
        let '(number, p) := take_next_event_block_number (pink s) in
        let header := mkEventsHeader number pink_version (last_event_block_hash p) (pink_blake2 (encode_events_body body)) in
        let header_hash := pink_blake2 (encode_events_header header) in
        mkPinkState (set_last_event_block_hash header_hash p) (pink_ext s) (emitted s ++ [mkEventsBlock header body]))
  end.

(** [execute_with]: what [f] does to a copy of the storage. An [Err] of [f] is a
    value for the caller: what was written stays. *)
Definition execute_with {R} (context : ExecContext) (f : PinkM R) s : outcome (PinkState X) PinkError R :=
  match f (put_pink_ext (start_block context (pink_ext s)) s) with
  | Ok r s1 =>
      match maybe_emit_system_event_block (ec_mode context) (ec_block_number context) (system_events (pink_ext s1)) s1 with
      | Ok _ s2 => Ok r s2 | Err e s2 => Err e s2 | Panic => Panic
      end
  | Err e s1 =>
      match maybe_emit_system_event_block (ec_mode context) (ec_block_number context) (system_events (pink_ext s1)) s1 with
      | Ok _ s2 | Err _ s2 => Err e s2 | Panic => Panic
      end
  | Panic => Panic
  end.
(** [execute_mut] commits the changes. *)
Definition execute_mut {R} (context : ExecContext) (f : PinkM R) : PinkM R := execute_with context f.
(** [execute] drops the changes, but not what the host was told meanwhile. *)
Definition execute {R} (context : ExecContext) (f : PinkM R) : PinkM R := fun s =>
  match execute_with context f s with
  | Ok r s' => Ok r (mkPinkState (pink s) (pink_ext s) (emitted s'))
  | Err e s' => Err e (mkPinkState (pink s) (pink_ext s) (emitted s'))
  | Panic => Panic
  end.

(** *** The calls of the host *)

(** What a call returns *)
Inductive ERet :=
  | RUnit
  | RHash (h : H256)
  | ROptHash (h : option H256)
  | ROptBytes (b : option bytes)
  | ROptAccount (a : option Account)
  | RBalance (v : Balance)
  | RText (b : bytes)
  | RInstantiated (r : ContractResult (PinkError + ExecReturn * Account))
  | RCalled (r : ContractResult (PinkError + ExecReturn)).

(** The calls with [&mut self], contract calls and instantiations in every mode
    among them, and those with [&self] *)
Inductive ECall :=
  | ESetup (config : ClusterSetupConfig)
  | EDeposit (who : Account) (value : Balance)
  | ESetKey (key : bytes)
  | EUploadCode (account : Account) (code : bytes) (deterministic : bool)
  | EUploadSidevm (account : Account) (code : bytes)
  | EInstantiate (code_hash : H256) (input salt : bytes) (mode : ExecutionMode) (args : TransactionArguments)
  | ECallContract (address : Account) (input : bytes) (mode : ExecutionMode) (args : TransactionArguments)
  | EOnGenesis
  | EOnRuntimeUpgrade
  | EOnIdle (block_number : Z).
Inductive ECallRo :=
  | EClusterId
  | EGetKey
  | EGetSidevmCode (hash : H256)
  | ESystemContract
  | EFreeBalance (account : Account)
  | ETotalBalance (account : Account)
  | ECodeHash (account : Account)
  | EGitRevision.

Definition ecall (c : ECall) : PinkM ERet :=
  match c with
  | ESetup config => setup config;; mret RUnit
  | EDeposit who value => deposit_to who value;; mret RUnit
  | ESetKey key => mod_pink (set_pink_key key);; mret RUnit
  | EUploadCode account code deterministic => h ← upload_code account code deterministic; mret (RHash h)
  | EUploadSidevm account code => h ← upload_sidevm_code account code; mret (RHash h)
  | EInstantiate h i sa mode args => r ← contract_instantiate h i sa mode args; mret (RInstantiated r)
  | ECallContract a i mode args => r ← contract_call a i mode args; mret (RCalled r)
  | EOnGenesis => pink_on_genesis;; mret RUnit
  | EOnRuntimeUpgrade => pink_on_runtime_upgrade;; mret RUnit
  | EOnIdle n => pink_on_idle n;; mret RUnit
  end.
Definition ecall_ro (c : ECallRo) : PinkM ERet :=
  s ← get_st;
  mret match c with
       | EClusterId => RHash (cluster_id (pink s))
       | EGetKey => ROptBytes (pink_key (pink s))
       | EGetSidevmCode h => ROptBytes (wc_code <$> sidevm_codes (pink s) !! h)
       | ESystemContract => ROptAccount (system_contract (pink s))
       | EFreeBalance a => RBalance (pink_free_balance a (pink_ext s))
       | ETotalBalance a => RBalance (pink_total_balance a (pink_ext s))
       | ECodeHash a => ROptHash (contract_code_hash a (pink_ext s))
       | EGitRevision => RText pink_git_revision
       end.

(** The dispatcher of [cross_call]: by [execute_mut] whatever takes [&mut self] *)
Definition dispatch_ecall (context : ExecContext) (c : ECall + ECallRo) : PinkM ERet :=
  match c with inl c => execute_mut context (ecall c) | inr c => execute context (ecall_ro c) end.

(** *** phactory/src/contracts/pink.rs

    The queries on ink contracts; those to a SideVM go to its own process. The
    slot of the request scheduler a query waits for, metrics and the effects
    taken out of the runtime afterwards are left out. *)

Inductive PinkQuery :=
  | InkMessageQuery (payload : bytes) (deposit transfer : Balance) (estimating : bool)
  | InkInstantiateQuery (code_hash : H256) (salt instantiate_data : bytes) (deposit transfer : Balance).

Definition query_args (origin : Account) (transfer deposit : Balance) : TransactionArguments :=
  mkTxArgs origin transfer (WEIGHT_REF_TIME_PER_SECOND * 10) true None deposit.

(** [handle_query] has the cluster by value: the copy the runtime commits to is
    dropped with it. Event blocks would go to the log all the same. *)
Definition on_copy {R} (f : PinkM R) : PinkM R := fun s =>
  match f s with
  | Ok r s' => Ok r (mkPinkState (pink s) (pink_ext s) (emitted s'))
  | Err e s' => Err e (mkPinkState (pink s) (pink_ext s) (emitted s'))
  | Panic => Panic
  end.
Definition handle_query (contract_id : Account) (origin : option Account) (req : PinkQuery) (block_number now_ms : Z) : PinkM ERet :=
  match origin with
  | None => fail (bs "BadOrigin")
  | Some origin =>
      match req with
      | InkMessageQuery payload deposit transfer estimating =>
          let mode := if estimating then Estimating else Query in
          on_copy (dispatch_ecall (mkExecContext mode block_number now_ms)
            (inl (ECallContract contract_id payload mode (query_args origin transfer deposit))))
      | InkInstantiateQuery code_hash salt instantiate_data deposit transfer =>
          on_copy (dispatch_ecall (mkExecContext Estimating block_number now_ms)
            (inl (EInstantiate code_hash instantiate_data salt Estimating (query_args origin transfer deposit))))
      end
  end.
End pink.
