(* ===== verification/PinkClaims.v ===== *)
(** * The runtime of contracts: fees, estimates and event blocks

    A caller pays for the gas it consumes and nothing else; what a query tells
    about costs is coarse, within bounds; the event blocks form a chain. *)

From S2P Require Import Prelude MqTypes Storage LocalCache PinkRuntime.

(** ** Coarse results *)

(** The lowest bits that are masked *)
Definition grain (v min_mask_bits : Z) : Z := Z.max (Z.max (bit_length v) 9 - 9) min_mask_bits.

Lemma lor_ones v p : 0 <= p -> Z.lor v (Z.ones p) = v / 2 ^ p * 2 ^ p + Z.ones p.
Proof.
  intros Hp. assert (Z.lor v (Z.ones p) = Z.lor (Z.ldiff v (Z.ones p)) (Z.ones p)) as ->.
  { apply Z.bits_inj'. intros n Hn. rewrite !Z.lor_spec, Z.ldiff_spec. by destruct (Z.testbit v n), (Z.testbit (Z.ones p) n). }
  assert (Z.land (Z.ldiff v (Z.ones p)) (Z.ones p) = 0) as Hd.
  { apply Z.bits_inj'. intros n Hn. rewrite Z.land_spec, Z.ldiff_spec, Z.bits_0. by destruct (Z.testbit v n), (Z.testbit (Z.ones p) n). }
  rewrite <- Z.lxor_lor, <- Z.add_nocarry_lxor by done. f_equal. rewrite Z.ldiff_ones_r, Z.shiftr_div_pow2, Z.shiftl_mul_pow2 by done. done.
Qed.

Lemma bit_length_bounds v : 0 < v -> 2 ^ (bit_length v - 1) <= v < 2 ^ bit_length v.
Proof.
  intros H. unfold bit_length. rewrite (proj2 (Z.eqb_neq v 0)) by lia. replace (Z.log2 v + 1 - 1) with (Z.log2 v) by lia.
  pose proof (Z.log2_spec v H). by replace (Z.log2 v + 1) with (Z.succ (Z.log2 v)) by lia.
Qed.
Lemma bit_length_le v n : 0 <= n -> 0 <= v < 2 ^ n -> 0 <= bit_length v <= n.
Proof.
  intros Hn Hv. unfold bit_length. case_match; [lia|]. b2p. pose proof (Z.log2_nonneg v). assert (Z.log2 v < n) by (apply Z.log2_lt_pow2; lia). lia.
Qed.

Lemma mask_low_bits_Some bits v min : 9 <= bits -> 0 <= v < 2 ^ bits -> 0 <= min < bits ->
  mask_low_bits bits v min = Some (v / 2 ^ grain v min * 2 ^ grain v min + Z.ones (grain v min)) /\ 0 <= grain v min < bits.
Proof.
  intros Hb Hv Hm. unfold mask_low_bits. rewrite (proj2 (Z.ltb_ge _ _)) by lia. pose proof (bit_length_le v bits ltac:(lia) Hv) as Hl. fold (grain v min).
  assert (0 <= grain v min < bits) as Hg by (unfold grain; lia). rewrite Z.min_l by lia. split; [|done]. f_equal.
  rewrite Z.shiftl_1_l. unfold saturating_sub. pose proof (Z.pow_pos_nonneg 2 (grain v min)). rewrite Z.max_r by lia.
  rewrite <- lor_ones by lia. by rewrite Z.ones_equiv, Z.sub_1_r.
Qed.

(** What [m] tells about [v]: it covers it, exceeds it by less than a 256th or the
    minimal grain, and depends on nothing but the magnitude and the leading bits,
    nine of them above the minimal grain. *)
Definition coarse_of (bits min v m : Z) : Prop :=
  v <= m < 2 ^ bits /\ m - v < Z.max (2 ^ min) (v / 256) /\
  (min < grain v min -> m / 2 ^ grain v min < 512) /\
  forall w, 0 <= w < 2 ^ bits -> grain w min = grain v min -> w / 2 ^ grain v min = v / 2 ^ grain v min -> mask_low_bits bits w min = Some m.

Lemma mask_low_bits_coarse bits v min : 9 <= bits -> 0 <= v < 2 ^ bits -> 0 <= min < bits ->
  exists m, mask_low_bits bits v min = Some m /\ coarse_of bits min v m.
Proof.
  intros Hb Hv Hm. destruct (mask_low_bits_Some bits v min Hb Hv Hm) as [E Hg]. set (g := grain v min) in *.
  pose proof (Z.pow_pos_nonneg 2 g ltac:(lia) ltac:(lia)) as Hp. pose proof (Z.div_mod v (2 ^ g) ltac:(lia)) as Hdm.
  pose proof (Z.mod_pos_bound v (2 ^ g) Hp) as Hmod. rewrite Z.ones_equiv in E.
  assert (2 ^ bits = 2 ^ g * 2 ^ (bits - g)) as Hbits by (rewrite <- Z.pow_add_r by lia; f_equal; lia).
  assert (v / 2 ^ g < 2 ^ (bits - g)) as Hq by (apply Z.div_lt_upper_bound; lia).
  assert (min < g -> 9 <= bit_length v /\ g = bit_length v - 9) as Hgrain by (unfold g, grain; lia).
  eexists. split; [exact E|]. unfold coarse_of. fold g. split; [nia|]. split; [|split].
  - destruct (Z.le_gt_cases g min) as [Hle|Hgt]; [assert (2 ^ g <= 2 ^ min) by (apply Z.pow_le_mono_r; lia); lia|].
    destruct (Hgrain Hgt) as [H9 Hg9]. assert (0 < v) as Hpos by (unfold bit_length in H9; case_match; b2p; lia).
    pose proof (bit_length_bounds v Hpos) as [Hlo _]. assert (2 ^ g <= v / 256); [|lia]. apply Z.div_le_lower_bound; [lia|].
    change 256 with (2 ^ 8). rewrite <- Z.pow_add_r by lia. by replace (8 + g) with (bit_length v - 1) by lia.
  - intros Hgt. destruct (Hgrain Hgt) as [H9 Hg9]. assert (0 < v) as Hpos by (unfold bit_length in H9; case_match; b2p; lia).
    pose proof (bit_length_bounds v Hpos) as [_ Hhi]. apply Z.div_lt_upper_bound; [lia|].
    assert (2 ^ bit_length v = 2 ^ g * 2 ^ 9) as Hbl by (rewrite <- Z.pow_add_r by lia; f_equal; lia). change (2 ^ 9) with 512 in Hbl.
    assert (v / 2 ^ g < 512) by (apply Z.div_lt_upper_bound; lia). nia.
  - intros w Hw Hgw Hwv. destruct (mask_low_bits_Some bits w min Hb Hw Hm) as [-> _]. rewrite Hgw, Hwv, Z.ones_equiv. done.
Qed.

Lemma mask_deposit_None deposit per_byte : 0 <= per_byte < 2 ^ 128 -> mask_deposit deposit per_byte = None <-> 2 ^ 119 < per_byte.
Proof.
  intros Hp. unfold mask_deposit. set (mv := saturating_sub (saturating_mul 128 per_byte 256) 1).
  assert (0 <= mv < 2 ^ 128) as Hmv by (unfold mv, saturating_sub, saturating_mul; lia). unfold mask_low_bits.
  destruct (Z.ltb_spec (128 - 1) (bit_length mv)) as [Hlt|Hge]; (split; [|try done]).
  - intros _. assert (0 < mv) as Hpos by (unfold bit_length in Hlt; case_match; b2p; lia). pose proof (bit_length_bounds mv Hpos) as [Hlo _].
    assert (2 ^ 127 <= 2 ^ (bit_length mv - 1)) by (apply Z.pow_le_mono_r; lia). unfold mv, saturating_sub, saturating_mul in *. lia.
  - done.
  - intros Hlt. exfalso. assert (2 ^ 127 <= mv) as Hbig by (unfold mv, saturating_sub, saturating_mul; lia).
    pose proof (bit_length_bounds mv ltac:(lia)) as [_ Hhi]. assert (2 ^ bit_length mv <= 2 ^ 127) by (apply Z.pow_le_mono_r; lia). lia.
Qed.

(** A deposit is masked unless the price of a byte exceeds 2^119: then the bounds
    of [clamp] cross and every query and estimate of the cluster panics. *)
Theorem coarse_deposit_panics deposit per_byte : 0 <= per_byte < 2 ^ 128 ->
  (mask_deposit deposit per_byte = None <-> 2 ^ 119 < per_byte) /\
  (2 ^ 119 < per_byte -> forall T (r : ContractResult T), coarse_grained r per_byte = None).
Proof.
  intros Hp. pose proof (mask_deposit_None deposit per_byte Hp) as Hiff. split; [done|]. intros Hlt T r. unfold coarse_grained.
  destruct (mask_gas (gas_consumed r)); [|done]. cbn. destruct (mask_gas (gas_required r)); [|done]. cbn.
  destruct (storage_deposit r) as [v|v]; by rewrite (proj2 (mask_deposit_None v per_byte Hp) Hlt).
Qed.

(** The bits that hide the price of 256 bytes *)
Definition deposit_bits (per_byte : Balance) : Z := bit_length (saturating_sub (saturating_mul 128 per_byte 256) 1).

Lemma deposit_bits_spec per_byte : 0 <= per_byte <= 2 ^ 119 -> 0 <= deposit_bits per_byte < 128 /\ 2 ^ deposit_bits per_byte <= Z.max 1 (512 * per_byte).
Proof.
  intros Hp. unfold deposit_bits, saturating_sub, saturating_mul. rewrite Z.min_r by lia. destruct (Z.eq_dec per_byte 0) as [->|Hne]; [by vm_compute|].
  rewrite Z.max_r by lia. pose proof (bit_length_bounds (per_byte * 256 - 1) ltac:(lia)) as [Hlo _].
  pose proof (bit_length_le (per_byte * 256 - 1) 127 ltac:(lia) ltac:(lia)) as Hl. set (n := bit_length _) in *. split; [lia|].
  assert (n <> 0) as Hn by (unfold n, bit_length; case_match; b2p; [lia|]; pose proof (Z.log2_nonneg (per_byte * 256 - 1)); lia).
  assert (2 ^ n = 2 * 2 ^ (n - 1)) as Hpow by (rewrite <- Z.pow_succ_r by lia; f_equal; lia). lia.
Qed.

Lemma mask_deposit_coarse v per_byte : 0 <= v < 2 ^ 128 -> 0 <= per_byte <= 2 ^ 119 ->
  exists m, mask_deposit v per_byte = Some m /\ coarse_of 128 (deposit_bits per_byte) v m.
Proof. intros Hv Hp. destruct (deposit_bits_spec per_byte Hp) as [Hb _]. by apply mask_low_bits_coarse. Qed.

(** The widths of the fields of a result *)
Definition deposit_amount (d : StorageDeposit) : Balance := match d with DepositRefund v | DepositCharge v => v end.
Definition result_fits {T} (r : ContractResult T) : Prop :=
  in_width 64 (ref_time (gas_consumed r)) /\ in_width 64 (ref_time (gas_required r)) /\ in_width 128 (deposit_amount (storage_deposit r)).

(** What a result told to a query says about the true one: the outcome as it is,
    the amounts coarsely, nothing about proof sizes *)
Definition told_result {T} (per_byte : Balance) (r told : ContractResult T) : Prop :=
  cr_result told = cr_result r /\ debug_message told = debug_message r /\
  coarse_of 64 28 (ref_time (gas_consumed r)) (ref_time (gas_consumed told)) /\ proof_size (gas_consumed told) = 0 /\
  coarse_of 64 28 (ref_time (gas_required r)) (ref_time (gas_required told)) /\ proof_size (gas_required told) = 0 /\
  match storage_deposit r, storage_deposit told with
  | DepositCharge v, DepositCharge m | DepositRefund v, DepositRefund m =>
      coarse_of 128 (deposit_bits per_byte) v m /\ m - v < Z.max (Z.max 1 (512 * per_byte)) (v / 256)
  | _, _ => False
  end.

Lemma coarse_grained_told {T} (r : ContractResult T) per_byte : result_fits r -> 0 <= per_byte <= 2 ^ 119 ->
  exists told, coarse_grained r per_byte = Some told /\ told_result per_byte r told.
Proof.
  intros (H1 & H2 & H3) Hp. unfold coarse_grained, mask_gas. destruct (deposit_bits_spec per_byte Hp) as [_ Hgrain].
  destruct (mask_low_bits_coarse 64 _ 28 ltac:(lia) H1 ltac:(lia)) as (m1 & -> & C1).
  destruct (mask_low_bits_coarse 64 _ 28 ltac:(lia) H2 ltac:(lia)) as (m2 & -> & C2). cbn.
  destruct (storage_deposit r) as [v|v] eqn:Ed; cbn in H3; destruct (mask_deposit_coarse v per_byte H3 Hp) as (m3 & -> & C3); cbn;
    (eexists; split; [done|]); pose proof C3 as (_ & Hd & _); unfold told_result; cbn; rewrite Ed; split_and!; try done; lia.
Qed.

Section queries.
Context {X : Type} `{PL : !PinkLib X} `{HO : !PinkHost}.
Implicit Types s : PinkState X.

(** What a query finds: the block started, and its own deposit credited *)
Definition query_ext (context : ExecContext) (origin : Account) (deposit : Balance) (x : X) : X :=
  let x := start_block context x in if 0 <? deposit then pink_deposit_creating origin deposit x else x.
Definition query_mode (estimating : bool) : ExecutionMode := if estimating then Estimating else Query.
Definition query_gas (estimating : bool) : Z := if estimating then GAS_PER_SECOND / 2 else WEIGHT_REF_TIME_PER_SECOND * 10.

Lemma quiet_emit mode n events s : is_transaction mode = false -> maybe_emit_system_event_block mode n events s = Ok tt s.
Proof. intros Hm. unfold maybe_emit_system_event_block. rewrite Hm. by destruct events. Qed.

Lemma on_copy_run {R} context (f : M (PinkState X) bytes R) s r s' : is_transaction (ec_mode context) = false ->
  f (put_pink_ext (start_block context (pink_ext s)) s) = Ok r s' -> emitted s' = emitted s -> on_copy (execute_mut context f) s = Ok r s.
Proof. intros Hm Hf He. unfold on_copy, execute_mut, execute_with. rewrite Hf, quiet_emit, He by done. by destruct s. Qed.

Lemma on_copy_panics {R} context (f : M (PinkState X) bytes R) s :
  f (put_pink_ext (start_block context (pink_ext s)) s) = Panic -> on_copy (execute_mut context f) s = Panic.
Proof. intros Hf. unfold on_copy, execute_mut, execute_with. by rewrite Hf. Qed.

Lemma query_sanitized estimating origin transfer deposit :
  sanitize_args (query_args origin transfer deposit) (query_mode estimating) = mkTxArgs origin transfer (query_gas estimating) true None deposit.
Proof. by destruct estimating. Qed.

Lemma query_call_eq contract payload estimating origin transfer deposit context s r x1 :
  contracts_call (pink s) origin contract transfer (mkWeight (query_gas estimating) (2 ^ 64 - 1)) None payload
    (if estimating then Enforced else Relaxed) (query_ext context origin deposit (pink_ext s)) = (r, x1) ->
  ecall (ECallContract contract payload (query_mode estimating) (query_args origin transfer deposit))
    (put_pink_ext (start_block context (pink_ext s)) s) =
  match coarse_grained r (deposit_per_byte (pink s)) with Some told => Ok (RCalled told) (put_pink_ext x1 s) | None => Panic end.
Proof.
  intros Hc. unfold ecall, contract_call, handle_deposit, bare_call, contract_tx, call_contracts, maybe_coarse. rewrite query_sanitized. unfold query_ext in Hc.
  unfold mbind, M_bind. cbn - [query_gas Z.pow] in *.
  destruct (0 <? deposit), estimating; cbn - [query_gas Z.pow coarse_grained] in *; rewrite Hc; cbn - [coarse_grained]; by destruct (coarse_grained r _).
Qed.

(** C27: what a query or an estimate of a contract call returns: unless the price of
    a byte exceeds 2^119, the outcome of the call with coarse costs. Gas consumed and
    required and the storage deposit cover the true amounts, exceed them by less
    than a 256th or the minimal grain (2^28 of gas, the price of 512 bytes) and
    depend on nothing but the magnitude and the leading bits; proof sizes are
    zeroed. With a higher price of a byte every such query panics. *)
Theorem coarse_results_bounded contract origin payload deposit transfer estimating n now s r x1 :
  let context := mkExecContext (query_mode estimating) n now in let query := InkMessageQuery payload deposit transfer estimating in
  contracts_call (pink s) origin contract transfer (mkWeight (query_gas estimating) (2 ^ 64 - 1)) None payload
    (if estimating then Enforced else Relaxed) (query_ext context origin deposit (pink_ext s)) = (r, x1) ->
  result_fits r -> in_width 128 (deposit_per_byte (pink s)) ->
  (deposit_per_byte (pink s) <= 2 ^ 119 -> exists told,
     handle_query contract (Some origin) query n now s = Ok (RCalled told) s /\ told_result (deposit_per_byte (pink s)) r told) /\
  (2 ^ 119 < deposit_per_byte (pink s) -> handle_query contract (Some origin) query n now s = Panic).
Proof.
  intros context query Hc Hr Hp. pose proof (query_call_eq contract payload estimating origin transfer deposit context s r x1 Hc) as He. split; intros Hb.
  - destruct (coarse_grained_told r (deposit_per_byte (pink s))) as (told & Et & Htold); [done|unfold in_width in Hp; lia|]. exists told. split; [|done].
    rewrite Et in He. apply (on_copy_run context _ _ _ _ ltac:(by destruct estimating) He). done.
  - rewrite (proj2 (coarse_deposit_panics 0 (deposit_per_byte (pink s)) Hp) Hb) in He. by apply (on_copy_panics context).
Qed.
End queries.

(** ** Fees *)

(** What the runtime relies on of its currency, whose existential deposit is 1 so
    that no dust is lost, and of pallet-contracts. [pink_balance] is what an account
    can spend. *)
Class PinkLaws (X : Type) `{PL : !PinkLib X} := {
  pink_balance : Account -> X -> Z;
  transfer_moves a b v k x x' : pink_transfer a b v k x = (None, x') -> forall c,
    pink_balance c x' = pink_balance c x - (if c =? a then v else 0) + (if c =? b then v else 0);
  transfer_refused a b v k x e x' : pink_transfer a b v k x = (Some e, x') -> x' = x;
  transfer_insufficient a b v k x : a <> b -> pink_balance a x < v -> exists e, pink_transfer a b v k x = (Some e, x);
  contracts_gas p o d v limit l i det x : 0 <= ref_time limit -> 0 <= proof_size limit ->
    0 <= ref_time (gas_consumed (contracts_call p o d v limit l i det x).1) <= ref_time limit /\
    0 <= proof_size (gas_consumed (contracts_call p o d v limit l i det x).1) <= proof_size limit;
}.

Section fees.
Context {X : Type} `{PL : !PinkLib X} `{LW : !PinkLaws X}.
Implicit Types s : PinkState X.

Definition fee (p : PinkPallet) (gas : Z) : Z := gas * gas_price p.

Lemma convert_fee p gas limit : 0 <= gas <= limit -> 0 <= gas_price p -> limit * gas_price p < 2 ^ 128 -> convert_weight p gas = fee p gas.
Proof. intros Hg Hp Hl. unfold convert_weight, saturating_mul, fee. nia. Qed.

(** How a caller who cannot pay is answered *)
Definition refused_call {T} (e : bytes) : ContractResult (bytes + T) := mkResult zero_weight zero_weight (DepositCharge 0) [] (inl e).

(** A call is refused for want of the fee, or runs between paying for all of its gas
    and getting back what it did not consume. *)
Lemma bare_call_eq address input args s t :
  ta_gas_free args = false -> treasury_account (pink s) = Some t -> 0 <= ta_gas_limit args -> 0 <= gas_price (pink s) ->
  ta_gas_limit args * gas_price (pink s) < 2 ^ 128 ->
  bare_call address input Transaction args s =
  match pink_transfer (ta_origin args) t (fee (pink s) (ta_gas_limit args)) true (pink_ext s) with
  | (Some e, x1) => Ok (refused_call e) (put_pink_ext x1 s)
  | (None, x1) =>
      let '(r, x2) := contracts_call (pink s) (ta_origin args) address (ta_transfer args) (mkWeight (ta_gas_limit args) (2 ^ 64 - 1))
        (ta_storage_deposit_limit args) input Enforced x1 in
      match pink_transfer t (ta_origin args) (fee (pink s) (ta_gas_limit args - ref_time (gas_consumed r))) false x2 with
      | (Some _, _) => Panic
      | (None, x3) => Ok r (put_pink_ext x3 s)
      end
  end.
Proof.
  intros Hf Ht Hl Hp Hsat. unfold bare_call, contract_tx. rewrite Hf. unfold mbind, M_bind, pay_for_gas, pay, transfer_between. cbn - [Z.pow].
  unfold mbind, M_bind, get_st. rewrite Ht, (convert_fee _ _ (ta_gas_limit args)) by lia.
  destruct (pink_transfer _ _ _ true _) as [[e|] x1]; [done|]. unfold call_contracts. cbn - [Z.pow].
  pose proof (contracts_gas (pink s) (ta_origin args) address (ta_transfer args) (mkWeight (ta_gas_limit args) (2 ^ 64 - 1)) (ta_storage_deposit_limit args) input Enforced x1) as [Hg1 Hg2]; [done|done|].
  destruct (contracts_call _ _ _ _ _ _ _ _ x1) as [r x2]. cbn - [Z.pow] in *. unfold weight_sub. cbn [ref_time proof_size].
  rewrite (proj2 (Z.leb_le _ _)), (proj2 (Z.leb_le _ _)) by lia. cbn - [Z.pow]. unfold expect_ok, refund_gas, refund, transfer_between, mbind, M_bind, get_st.
  cbn - [Z.pow]. rewrite Ht, (convert_fee _ _ (ta_gas_limit args)) by lia. by destruct (pink_transfer _ _ _ false _) as [[e|] x3].
Qed.

(** C20: a caller first pays the treasury for the whole gas limit, at the price of the
    cluster. If that payment fails, and it does for a caller who has less, the call
    is refused with the error of the payment and nothing changes. Otherwise the
    contract runs on the state [x1] after the payment, and what it did not consume
    is paid back from the state [x2] it left: the result is its result, and around
    the call itself the balance of every account changes by the price of the gas
    consumed alone. Only a treasury that cannot pay back makes the call panic. *)
Theorem gas_paid_exactly address input args s t :
  ta_gas_free args = false -> treasury_account (pink s) = Some t -> 0 <= ta_gas_limit args -> 0 <= gas_price (pink s) ->
  ta_gas_limit args * gas_price (pink s) < 2 ^ 128 ->
  (match pink_transfer (ta_origin args) t (ta_gas_limit args * gas_price (pink s)) true (pink_ext s) with
   | (Some e, _) => bare_call address input Transaction args s = Ok (refused_call e) s
   | (None, x1) => exists r x2,
       contracts_call (pink s) (ta_origin args) address (ta_transfer args) (mkWeight (ta_gas_limit args) (2 ^ 64 - 1))
         (ta_storage_deposit_limit args) input Enforced x1 = (r, x2) /\
       match pink_transfer t (ta_origin args) ((ta_gas_limit args - ref_time (gas_consumed r)) * gas_price (pink s)) false x2 with
       | (Some _, _) => bare_call address input Transaction args s = Panic
       | (None, x3) => bare_call address input Transaction args s = Ok r (put_pink_ext x3 s) /\
           forall c, let spent := ref_time (gas_consumed r) * gas_price (pink s) in
             pink_balance c x3 - pink_balance c (pink_ext s) =
             pink_balance c x2 - pink_balance c x1 - (if c =? ta_origin args then spent else 0) + (if c =? t then spent else 0)
       end
   end) /\
  (ta_origin args <> t -> pink_balance (ta_origin args) (pink_ext s) < ta_gas_limit args * gas_price (pink s) ->
   exists e, bare_call address input Transaction args s = Ok (refused_call e) s).
Proof.
  intros Hf Ht Hl Hp Hsat. rewrite (bare_call_eq address input args s t) by done. unfold fee. set (cost := ta_gas_limit args * gas_price (pink s)). split.
  - destruct (pink_transfer _ _ cost true _) as [[e|] x1] eqn:E1; [apply transfer_refused in E1 as ->; by destruct s|].
    destruct (contracts_call _ _ _ _ _ _ _ _ x1) as [r x2]. exists r, x2. split; [done|].
    destruct (pink_transfer _ _ _ false x2) as [[e|] x3] eqn:E2; [done|]. split; [done|]. intros c. cbn.
    pose proof (transfer_moves _ _ _ _ _ _ E1 c) as H1. pose proof (transfer_moves _ _ _ _ _ _ E2 c) as H2. unfold cost in *. repeat case_match; lia.
  - intros Hne Hlt. destruct (transfer_insufficient (ta_origin args) t cost true (pink_ext s) Hne Hlt) as [e ->]. exists e. by destruct s.
Qed.
End fees.

(** ** Event blocks *)

(** [System::reset_events] *)
Class PinkEventLaws (X : Type) `{PL : !PinkLib X} := { start_block_resets context x : system_events (start_block context x) = [] }.

Section events.
Context {X : Type} `{PL : !PinkLib X} `{EL : !PinkEventLaws X} `{HO : !PinkHost}.
Implicit Types s : PinkState X.

(** Calls of the host, in whatever modes, and its queries *)
Inductive pink_step : PinkState X -> PinkState X -> Prop :=
  | PinkCall context c s s' : state_of s (dispatch_ecall context c s) = s' -> pink_step s s'
  | PinkAsked contract_id origin req n now s s' : state_of s (handle_query contract_id origin req n now s) = s' -> pink_step s s'.

Definition header_hash (b : EventsBlock) : H256 := pink_blake2 (encode_events_header (eb_header b)).

(** Blocks numbered from [n] after a block of hash [h] *)
Fixpoint chained_from (n : Z) (h : H256) (l : list EventsBlock) : Prop :=
  match l with
  | [] => True
  | b :: l => eh_number (eb_header b) = n /\ parent_hash (eb_header b) = h /\ body_hash (eb_header b) = pink_blake2 (encode_events_body (eb_body b)) /\
      eb_events (eb_body b) <> [] /\ chained_from (n +[64] 1) (header_hash b) l
  end.
Definition chain_end (h : H256) (l : list EventsBlock) : H256 := from_option header_hash h (last l).

Lemma chained_snoc l : forall n h b, chained_from n h l ->
  eh_number (eb_header b) = wrap 64 (n + Z.of_nat (length l)) -> in_width 64 n -> parent_hash (eb_header b) = chain_end h l ->
  body_hash (eb_header b) = pink_blake2 (encode_events_body (eb_body b)) -> eb_events (eb_body b) <> [] -> chained_from n h (l ++ [b]).
Proof.
  induction l as [|b0 l IH]; intros n h b Hc Hn Hw Hp Hb He; cbn in *.
  - rewrite Hn, Z.add_0_r, wrap_small by done. done.
  - destruct Hc as (H1 & H2 & H3 & H4 & H5). do 4 (split; [done|]). apply IH; [done| |by apply wrap_range|..|done|done].
    + rewrite Hn. unfold wrap. rewrite Zplus_mod_idemp_l. f_equal. lia.
    + rewrite Hp. unfold chain_end. destruct l as [|b1 l]; [done|]. cbn. by destruct (last (b1 :: l)) eqn:El; [|apply last_None in El].
Qed.

(** The chain and where it continues *)
Definition chain_inv s : Prop :=
  chained_from 0 0 (emitted s) /\ next_event_block_number (pink s) = wrap 64 (Z.of_nat (length (emitted s))) /\
  last_event_block_hash (pink s) = chain_end 0 (emitted s).

Definition same_chain s s' : Prop :=
  emitted s' = emitted s /\ next_event_block_number (pink s') = next_event_block_number (pink s) /\ last_event_block_hash (pink s') = last_event_block_hash (pink s).
#[local] Instance same_chain_preorder : PreOrder same_chain.
Proof. split; [done|]. intros a b c (? & ? & ?) (? & ? & ?). unfold same_chain. split_and!; congruence. Qed.

Lemma same_chain_inv s s' : same_chain s s' -> chain_inv s -> chain_inv s'.
Proof. intros (E1 & E2 & E3) (H1 & H2 & H3). unfold chain_inv. by rewrite E1, E2, E3. Qed.

Lemma pink_transfer_same a b v k : moves same_chain (transfer_between a b v k).
Proof. intros s. unfold transfer_between. by destruct (pink_transfer _ _ _ _ _) as [[]]. Qed.
Lemma mod_pink_same f : (forall p, next_event_block_number (f p) = next_event_block_number p /\ last_event_block_hash (f p) = last_event_block_hash p) ->
  moves same_chain (mod_pink (X := X) f).
Proof. intros H s. unfold mod_pink, modify. destruct (H (pink s)). done. Qed.
Lemma deposit_same who v : moves same_chain (deposit_to who v).
Proof. done. Qed.
Lemma contracts_same {T} (f : PinkPallet -> X -> ContractResult T * X) : moves same_chain (call_contracts f).
Proof. intros s. unfold call_contracts. by destruct (f _ _). Qed.
Lemma upload_same a c d : moves same_chain (bare_upload_code a c d).
Proof. intros s. unfold bare_upload_code. by destruct (upload_code_checked _ _ _ _ _) as [[]]. Qed.
#[local] Hint Resolve pink_transfer_same deposit_same contracts_same upload_same : moves.

Lemma contract_tx_same {T} o l g (f : M (PinkState X) bytes (ContractResult (bytes + T))) : moves same_chain f -> moves same_chain (contract_tx o l g f).
Proof.
  intros Hf. assert (moves same_chain (pay_for_gas o l)) as Hp by (unfold pay_for_gas, pay; moves). unfold contract_tx.
  apply moves_bind; [apply _| |].
  - destruct g; [moves|]. intros s. specialize (Hp s). by destruct (pay_for_gas o l s).
  - intros [e|]; [moves|]. unfold refund_gas, refund. moves; done.
Qed.

Lemma ecall_same c : moves same_chain (ecall c).
Proof.
  assert (forall h i sa mode args, moves same_chain (instantiate h i sa mode args)) as Hi.
  { intros. unfold instantiate, maybe_coarse. apply moves_bind; [apply _|by apply contract_tx_same, contracts_same|]. intros r. moves. }
  assert (forall a i mode args, moves same_chain (bare_call a i mode args)) as Hc.
  { intros. unfold bare_call, maybe_coarse. apply moves_bind; [apply _|by apply contract_tx_same, contracts_same|]. intros r. moves. }
  destruct c; cbn; unfold setup, pink_on_genesis, pink_on_runtime_upgrade, pink_on_idle, upload_code, upload_sidevm_code, put_sidevm_code, pay, contract_instantiate, contract_call, handle_deposit; moves;
    try apply Hi; try apply Hc; try (apply mod_pink_same; done); try (by intros s).
Qed.

Lemma emit_inv mode n events s : chain_inv s ->
  match maybe_emit_system_event_block mode n events s with Ok _ s' | Err _ s' => chain_inv s' /\ emitted s `prefix_of` emitted s' | Panic => False end.
Proof.
  intros (H1 & H2 & H3). unfold maybe_emit_system_event_block. destruct events as [|e events]; [done|]. destruct (is_transaction mode); [|done]. cbn.
  split; [|by eexists]. split_and!; cbn.
  - apply chained_snoc; cbn; [done|by rewrite H2|by unfold in_width|by rewrite H3|done|done].
  - rewrite H2, length_app. unfold wrap. rewrite Zplus_mod_idemp_l. f_equal. cbn. lia.
  - unfold chain_end. by rewrite last_snoc.
Qed.

(** A call that leaves the chain alone, and the block made of its events *)
Lemma execute_with_inv {R} context (f : M (PinkState X) bytes R) s : moves same_chain f -> chain_inv s ->
  match execute_with context f s with Ok _ s' | Err _ s' => chain_inv s' /\ emitted s `prefix_of` emitted s' | Panic => True end.
Proof.
  intros Hf H. unfold execute_with. set (s0 := put_pink_ext _ s). assert (chain_inv s0) as H0 by exact H. pose proof (Hf s0) as Hs.
  destruct (f s0) as [r s1|e s1|]; [| |done]; pose proof (same_chain_inv _ _ Hs H0) as H1; destruct Hs as (E & _);
    pose proof (emit_inv (ec_mode context) (ec_block_number context) (system_events (pink_ext s1)) s1 H1) as He;
    destruct (maybe_emit_system_event_block _ _ _ s1); try done; rewrite E in He; exact He.
Qed.

Lemma execute_with_quiet {R} context (f : M (PinkState X) bytes R) s : moves same_chain f -> is_transaction (ec_mode context) = false ->
  match execute_with context f s with Ok _ s' | Err _ s' => same_chain s s' | Panic => True end.
Proof.
  intros Hf Hm. unfold execute_with. set (s0 := put_pink_ext _ s). pose proof (Hf s0) as Hs.
  destruct (f s0) as [r s1|e s1|]; [| |done]; by rewrite quiet_emit.
Qed.

(** A call with [&self] deposits no event, so that no block is made. *)
Lemma ecall_ro_state context c s : state_of s (execute context (ecall_ro c) s) = s.
Proof. unfold execute, execute_with, ecall_ro, mbind, M_bind, get_st. cbn. rewrite start_block_resets. by destruct s. Qed.

Lemma dispatch_inv context c s : chain_inv s ->
  chain_inv (state_of s (dispatch_ecall context c s)) /\ emitted s `prefix_of` emitted (state_of s (dispatch_ecall context c s)).
Proof.
  intros H. destruct c as [c|c]; cbn; [|by rewrite ecall_ro_state]. pose proof (execute_with_inv context (ecall c) s (ecall_same c) H) as Hi.
  unfold execute_mut. by destruct (execute_with _ _ s).
Qed.

Lemma dispatch_quiet context c s : is_transaction (ec_mode context) = false -> same_chain s (state_of s (dispatch_ecall context c s)).
Proof.
  intros Hm. destruct c as [c|c]; cbn; [|by rewrite ecall_ro_state]. pose proof (execute_with_quiet context (ecall c) s (ecall_same c) Hm) as Hi.
  unfold execute_mut. by destruct (execute_with _ _ s).
Qed.

Lemma query_quiet contract_id origin req n now s : state_of s (handle_query contract_id origin req n now s) = s.
Proof.
  assert (forall context c, is_transaction (ec_mode context) = false -> state_of s (on_copy (dispatch_ecall context c) s) = s) as Hcopy.
  { intros context c Hm. destruct (dispatch_quiet context c s Hm) as (E & _). unfold on_copy. destruct (dispatch_ecall context c s); cbn in *; try rewrite E; by destruct s. }
  unfold handle_query. destruct origin as [o|]; [|done]. destruct req as [? ? ? []|]; by apply Hcopy.
Qed.

(** C21: whatever the host calls, in whatever order and modes, hooks and queries
    included: the event blocks the runtime emits are numbered without gaps, from 0,
    and each carries the hash of the one before and of its own body; the pallet
    holds the number and the parent of the next one; and no block is ever taken
    back. Calls in the modes of queries and estimates neither emit a block nor move
    the chain, although they are committed like all others; so that a query, which
    the host runs on a copy of the cluster, forks no chain: it emits nothing. *)
Theorem events_chained x s : rtc pink_step (mkPinkState empty_pallet x []) s ->
  chained_from 0 0 (emitted s) /\ next_event_block_number (pink s) = wrap 64 (Z.of_nat (length (emitted s))) /\
  last_event_block_hash (pink s) = chain_end 0 (emitted s) /\
  (forall s', pink_step s s' -> emitted s `prefix_of` emitted s') /\
  (forall context c, is_transaction (ec_mode context) = false -> same_chain s (state_of s (dispatch_ecall context c s))) /\
  forall contract_id origin req n now, emitted (state_of s (handle_query contract_id origin req n now s)) = emitted s.
Proof.
  assert (forall a b, pink_step a b -> chain_inv a -> chain_inv b /\ emitted a `prefix_of` emitted b) as Hstep.
  { intros a b [context c a' b' <-|contract_id origin req n now a' b' <-] Ha; [by apply dispatch_inv|by rewrite query_quiet]. }
  intros Hr. assert (chain_inv s) as Hs.
  { apply (rtc_invariant pink_step chain_inv (mkPinkState empty_pallet x []) s); [|done|done]. intros a b Ha Hab. by apply (Hstep a b). }
  pose proof Hs as (H1 & H2 & H3). do 3 (split; [done|]). split; [intros s' Hss; by apply (Hstep s s')|].
  split; [intros; by apply dispatch_quiet|intros; by rewrite query_quiet].
Qed.
End events.

(** ** Witnesses: a cluster with balances, whose contracts consume half of their
    gas and deposit an event *)

Abbreviation ToyExt := (gmap Account Z * list bytes)%type.
Definition toy_balance (c : Account) (x : ToyExt) : Z := default 0 (x.1 !! c).
Definition toy_move (a b : Account) (v : Z) (x : ToyExt) : ToyExt :=
  let m := <[ a := toy_balance a x - v ]> x.1 in (<[ b := default 0 (m !! b) + v ]> m, x.2).
Definition toy_result {T} (limit : PinkWeight) (r : T) : ContractResult T := mkResult (mkWeight (ref_time limit / 2) 0) (mkWeight (ref_time limit / 2) 0) (DepositCharge 0) [] r.

#[local] Instance toy_pink : PinkLib ToyExt := {|
  pink_transfer a b v _ x := if v <=? toy_balance a x then (None, toy_move a b v x) else (Some [], x);
  pink_deposit_creating a v x := (<[ a := toy_balance a x + v ]> x.1, x.2);
  contracts_instantiate _ _ _ limit _ _ _ _ x := (toy_result limit (inr (mkExecReturn false [], 77)), x);
  contracts_call _ _ _ _ limit _ _ _ x := (toy_result limit (inr (mkExecReturn false [])), (x.1, x.2 ++ [[7]]));
  upload_code_checked _ _ _ _ x := (inr 5, x);
  wasmi_memory_cost _ := inr 0;
  pallets_on_genesis x := x;
  pallets_on_runtime_upgrade x := x;
  pallets_on_idle _ x := (x.1, x.2 ++ [[8]]);
  pink_free_balance := toy_balance;
  pink_total_balance := toy_balance;
  contract_code_hash _ _ := None;
  start_block _ x := (x.1, []);
  system_events x := x.2;
  pink_blake2 b := 1 + foldl (fun n y => 31 * n + y) 0 b;
|}.

Lemma toy_move_balance a b v x c : toy_balance c (toy_move a b v x) = toy_balance c x - (if c =? a then v else 0) + (if c =? b then v else 0).
Proof.
  unfold toy_move. set (m := <[ a := toy_balance a x - v ]> x.1). unfold toy_balance at 1. cbn [fst].
  assert (forall c, default 0 (m !! c) = toy_balance c x - (if c =? a then v else 0)) as Hm.
  { intros c0. unfold m. destruct (Z.eqb_spec c0 a) as [->|Hne]; [by rewrite lookup_insert_eq|]. rewrite lookup_insert_ne by done. unfold toy_balance. lia. }
  destruct (Z.eqb_spec c b) as [->|Hne]; [rewrite lookup_insert_eq; cbn; by rewrite Hm|]. rewrite lookup_insert_ne, Hm by done. lia.
Qed.

#[local] Program Instance toy_pink_laws : PinkLaws ToyExt := {| pink_balance := toy_balance |}.
Next Obligation. intros a b v k x x' H c. cbn in H. destruct (_ <=? _) in H; [|done]. injection H as <-. apply toy_move_balance. Qed.
Next Obligation. intros a b v k x e x' H. cbn in H. destruct (_ <=? _) in H; [done|]. by injection H as _ <-. Qed.
Next Obligation. intros a b v k x Hne H. exists []. cbn. by rewrite (proj2 (Z.leb_gt _ _)). Qed.
Next Obligation.
  intros p o d v limit l i det x H1 H2. cbn. pose proof (Z.div_pos (ref_time limit) 2 H1 ltac:(lia)). pose proof (Z.div_le_upper_bound (ref_time limit) 2 (ref_time limit)). lia.
Qed.

#[local] Instance toy_host : PinkHost := {|
  host_call_nonce := None; host_entry_contract := None; host_origin := None; pink_version := (1, 2); pink_git_revision := [];
  encode_events_body b := phala_block_number b :: concat (eb_events b);
  encode_events_header h := [eh_number h; parent_hash h; body_hash h];
|}.

Definition toy_state : PinkState ToyExt := mkPinkState (set_gas_price 2 (set_treasury_account 9 empty_pallet)) ({[ 1 := 100 ]}, []) [].
Definition toy_args : TransactionArguments := mkTxArgs 1 0 10 false None 0.

Definition poor_args : TransactionArguments := mkTxArgs 2 0 10 false None 0.

(** 10 units of gas at a price of 2 are paid, 5 are refunded; an account with
    nothing is refused. *)
Lemma gas_paid_exactly_witness :
  (exists r x3, bare_call 4 [] Transaction toy_args toy_state = Ok r (put_pink_ext x3 toy_state) /\ toy_balance 1 x3 = 90 /\ toy_balance 9 x3 = 10) /\
  exists e, bare_call 4 [] Transaction poor_args toy_state = Ok (refused_call e) toy_state.
Proof.
  split.
  - pose proof (gas_paid_exactly 4 [] toy_args toy_state 9 eq_refl eq_refl ltac:(cbn; lia) ltac:(cbn; lia) ltac:(vm_compute; reflexivity)) as [H _].
    destruct (pink_transfer _ _ _ true _) as [[e|] x1] eqn:E1 in H; vm_compute in E1; [discriminate E1|]. injection E1 as <-.
    destruct H as (r & x2 & Hc & H). vm_compute in Hc. injection Hc as <- <-.
    destruct (pink_transfer _ _ _ false _) as [[e|] x3] eqn:E2 in H; vm_compute in E2; [discriminate E2|]. injection E2 as <-. destruct H as [H _].
    do 2 eexists. split; [exact H|]. split; vm_compute; reflexivity.
  - apply (gas_paid_exactly 4 [] poor_args toy_state 9); vm_compute; try reflexivity; discriminate.
Defined.

(** A query of a contract that consumes half of its gas *)
Definition toy_priced : PinkState ToyExt := mkPinkState (set_deposit_per_byte 10 empty_pallet) (∅, []) [].
Lemma coarse_results_bounded_witness : exists told, handle_query 4 (Some 1) (InkMessageQuery [] 0 0 false) 3 0 toy_priced = Ok (RCalled told) toy_priced /\
  ref_time (gas_consumed told) = 5016521801727 /\
  exists r, told_result 10 r told.
Proof.
  destruct (contracts_call (pink toy_priced) 1 4 0 (mkWeight (query_gas false) (2 ^ 64 - 1)) None [] Relaxed (query_ext (mkExecContext Query 3 0) 1 0 (pink_ext toy_priced))) as [r x1] eqn:E.
  assert (result_fits r) as Hr by (vm_compute in E; injection E as <- _; vm_compute; repeat split; discriminate).
  destruct (coarse_results_bounded 4 1 [] 0 0 false 3 0 toy_priced r x1 E Hr ltac:(vm_compute; split; [discriminate|reflexivity])) as [H _].
  destruct (H ltac:(vm_compute; discriminate)) as (told & Eq & Ht). exists told. split; [exact Eq|]. split; [|by exists r].
  vm_compute in Eq. injection Eq as <-. vm_compute. reflexivity.
Defined.

Lemma coarse_deposit_panics_witness : mask_deposit 1000 (2 ^ 120) = None.
Proof. apply (coarse_deposit_panics 1000 (2 ^ 120)); lia. Defined.

#[local] Instance toy_pink_events : PinkEventLaws ToyExt.
Proof. by split. Qed.

(** Two calls that deposit events, an idle hook that does, and a query in between *)
Definition toy_ctx (m : ExecutionMode) (n : Z) : ExecContext := mkExecContext m n 0.
Definition toy_call : ECall + ECallRo := inl (ECallContract 4 [] Transaction (mkTxArgs 1 0 10 true None 0)).
Definition toy_start : PinkState ToyExt := mkPinkState empty_pallet (∅, []) [].
Definition toy_s1 : PinkState ToyExt := state_of toy_start (dispatch_ecall (toy_ctx Transaction 1) toy_call toy_start).
Definition toy_s2 : PinkState ToyExt := state_of toy_s1 (handle_query 4 (Some 1) (InkMessageQuery [] 0 0 false) 1 0 toy_s1).
Definition toy_s3 : PinkState ToyExt := state_of toy_s2 (dispatch_ecall (toy_ctx Transaction 1) (inl (EOnIdle 1)) toy_s2).
Definition toy_run : PinkState ToyExt := state_of toy_s3 (dispatch_ecall (toy_ctx Transaction 2) toy_call toy_s3).

Lemma events_chained_witness : chained_from (X := ToyExt) 0 0 (emitted toy_run) /\ length (emitted toy_run) = 3%nat.
Proof.
  split; [|vm_compute; reflexivity]. apply (events_chained (∅, [])).
  apply (rtc_l _ _ toy_s1); [exact (PinkCall (toy_ctx Transaction 1) toy_call toy_start toy_s1 eq_refl)|].
  apply (rtc_l _ _ toy_s2); [exact (PinkAsked 4 (Some 1) (InkMessageQuery [] 0 0 false) 1 0 toy_s1 toy_s2 eq_refl)|].
  apply (rtc_l _ _ toy_s3); [exact (PinkCall (toy_ctx Transaction 1) (inl (EOnIdle 1)) toy_s2 toy_s3 eq_refl)|].
  apply (rtc_l _ _ toy_run); [exact (PinkCall (toy_ctx Transaction 2) toy_call toy_s3 toy_run eq_refl)|]. apply rtc_refl.
Defined.
